(* ===== verification/_CoqProject ===== *)
-Q . S2P
Prelude.v
StdMap.v
Looper.v
StringUtil.v
UTime.v
BitArray.v
IOStream.v
InputHeader.v
SampleId.v
Sample.v
SamplePool.v
SampleSets.v
Distribution.v
SampleClock.v
SampleScanner.v
MessageScanner.v
SampleSorter.v
SampleMatcher.v
BadSampleFilter.v
Merge.v
Resampler.v
NearestResampler.v
NearestResamplerAtRate.v
Doubles.v
Floats.v
StdStream.v
TimetagAdjuster.v
Files.v
FileNames.v
FileSearch.v
FileSet.v
SampleStream.v
ArchiveFiles.v
SyncLayout.v
SyncRecords.v
SyncSlots.v
SyncGrid.v
SyncHeader.v
SyncReader.v
SyncFlow.v
SyncQueue.v
CircBuf.v
DriverPipe.v
CircAlloc.v
ScreenTimetag.v
ShortFilters.v
DmdA2D.v
DmdClock.v
DmdIrq.v
DmdStart.v
DmdWave.v
