(* ===== verification/Prelude.v ===== *)
(** * NIDAS: a verification library for the data path of the NCAR in-situ
    data acquisition software.

    NIDAS reads sensors on a data system manager (DSM), through the device
    files of its own kernel drivers where the sensor is a card in the DSM,
    cuts what it reads into time-tagged samples, sorts the samples of all sensors by time,
    passes them to clients, and archives them in files named by time; the
    archives are found, read back, merged, filtered and resampled by other
    programs; on aircraft the samples of all sensors are put together in one
    record per second.  This library models that data path, from the interrupts of an
    A2D card and the bytes of a sensor to the bytes of an archive and back,
    and proves what each part promises
    to the next.  Paths below are relative to [src/src/nidas/].

    ** The parts, and the files that model them

    Foundations:
    - This file: machine integers as [Z] with their wrap-around written out,
      lengths, tactics and hints, and the lemmas on lists, integers and
      orders that the components share.
    - [StdMap.v]: [std::map], in the order of its keys.
    - [Doubles.v], [Floats.v]: [double] and [float], as binary64 and binary32
      numbers with rounding to nearest.
    - [StdStream.v]: text streams of the C++ library, with their state bits,
      and floating point numbers in text.
    - [StringUtil.v]: [util/util.cc].  Backslash sequences of message
      separators, trimming and replacing; [strtol] and [strtoul].
    - [UTime.v]: [util/UTime.cc].  Rounding of times, the calendar, and
      [format], which names archive files.
    - [BitArray.v]: [util/BitArray.cc], [BitArray.h].  The array of bits, its
      bit fields and operators.

    Samples:
    - [SampleId.v]: [core/Sample.h], [core/sample_type_traits.h].  The packed
      32-bit identifier and [SampleHeader].
    - [Sample.v]: [core/Sample.h], [core/Sample.cc].  [SampleT]: memory,
      lengths and values, with [SampleLengthException] as an error value.
    - [SamplePool.v]: [core/SamplePool.h], [core/Sample.h].  The pools and the
      reference counts, over a heap of samples; the assertions of the code
      are checked by the model.
    - [SampleSets.v]: [core/SortedSampleSet.h].  The comparators and the
      sorted containers; the class [StrictWeakOrder] is what the containers
      ask of a comparator.

    From sensors to clients:
    - [Looper.v]: [core/Looper.cc].  Periodic calls: the maps of the clients
      by period, and one pass of the thread.
    - [SampleClock.v]: [core/SampleClock.cc], part of [util/UTime.h].  Dating
      of tags that count from midnight.
    - [SampleScanner.v]: the base class, [DriverSampleScanner] and
      [DatagramSampleScanner] of [core/SampleScanner.cc].
    - [MessageScanner.v]: [MessageStreamScanner] of [core/SampleScanner.cc].
      It takes samples from a pool through the class [SampleSource], the
      promise of the pool; the pool of [SamplePool.v] is an instance.
    - [TimetagAdjuster.v]: [core/TimetagAdjuster.cc].  Removal of latency
      jitter from time tags, on the numbers of [Doubles.v].
    - [Distribution.v]: [core/SampleSourceSupport.cc],
      [core/SampleClientList.cc] and [core/SampleBuffer.cc].  The clients of
      a source, by tag and of all samples, and the unsorted buffer.
    - [SampleSorter.v]: [core/SampleSorter.cc].  The threads of the sorter as
      steps between lock operations, over the multiset of [SampleSets.v].
    - [SampleMatcher.v]: [core/SampleMatcher.cc].  Selection by id, time and
      file, with the cache of the matcher.
    - [BadSampleFilter.v]: [core/BadSampleFilter.cc].  The header checks that
      the archive reader uses.
    - [Resampler.v], [NearestResampler.v], [NearestResamplerAtRate.v]:
      [core/NearestResampler.cc], [core/NearestResamplerAtRate.cc], equality
      of [core/Variable.cc] and [core/Site.h].  The first file has what the
      two resamplers share: the matching of variables and the slots that keep
      the nearest values.

    Archives:
    - [IOStream.v]: [core/IOStream.cc], [core/IOStream.h].  The buffer between
      archives and files or sockets.
    - [InputHeader.v]: [core/SampleInputHeader.cc].  The text header of an
      archive: a resumable parser and the printer.
    - [Files.v]: paths, the operating system as the class [Posix], and a file
      system in memory that is an instance of it.
    - [FileNames.v], [FileSearch.v], [FileSet.v]: [util/FileSet.cc].  The
      search for the files of a period ([matchFiles]), its completeness, and
      the creation, choice and reading of files.
    - [SampleStream.v]: [dynld/SampleOutputStream.cc],
      [dynld/SampleInputStream.cc] and [createNextFile] of
      [core/SampleOutput.cc].  Writing and reading archives, over
      [IOStream.v], [InputHeader.v] and [BadSampleFilter.v].
    - [ArchiveFiles.v]: the sample input stream on a file set: an archive of
      several files.
    - [Merge.v]: [apps/nidsmerge.cc].  The loop that merges archives.

    Sync records:
    - [SyncLayout.v], [SyncRecords.v]: [dynld/raf/SyncRecordSource.cc].  The
      layout of a record, and its assembly: [receive] with the slots of each
      sample and the two records that are filled at a time.
    - [SyncSlots.v], [SyncGrid.v]: what receiving one sample changes, and the
      contents of the records against a reference.
    - [SyncHeader.v], [SyncReader.v]: [createHeader] of the source and
      [scanHeader] of [dynld/raf/SyncRecordReader.cc], and the proof that the
      one reads what the other writes.
    - [SyncFlow.v]: [init] and [read] of the reader, on what a source
      distributes.
    - [SyncQueue.v]: the queue between the threads of a server and a reader.

    Kernel drivers:
    - [CircBuf.v], [CircAlloc.v]: [linux/util.h] and
      [linux/util/nidas_util.c].  The circular buffer between an interrupt or
      a bottom half and the reads of a process, with the reads as steps that
      the producer interleaves, and its memory.
    - [DriverPipe.v]: the reads of such a buffer by [DriverSampleScanner].
    - [ScreenTimetag.v]: [screen_timetag] of the same file.
    - [ShortFilters.v]: [linux/filters/short_filters.c].  The pick-off, boxcar
      and time average filters.
    - [DmdA2D.v], [DmdClock.v], [DmdIrq.v], [DmdStart.v], [DmdWave.v]: the A2D
      of [linux/diamond/dmd_mmat.c].  Configuration, filters and bottom
      halves; the clock; interrupts, the handler and the whole path to the
      filters; starting and stopping; the waveform mode.

    ** How the code is translated

    The state of a class is a [Record] with the members of the class (names
    kept), each method a function from the state, its arguments and what the
    environment answers to the result and the new state.  The environment is
    never invented: the bytes a device returns, the system clock, the calls
    of the operating system, the sizes of physical reads and writes and the
    time parsers of [UTime] are arguments or the operations of a class, and
    the theorems hold for all of them, or for all that meet the named
    documented laws ([BasicRegex], [CreateFiles], [ReadFiles], [CircMacros],
    [Kmalloc], [FifoLaws]).  Exceptions,
    null pointers, assertions that fail, and stores outside an allocation are
    values.  Log output is left out.  Threads ([SampleSorter.v],
    [SyncQueue.v]) and interrupts ([CircBuf.v], [DmdIrq.v]) are steps on a
    state and reachability over them; memory is sequentially consistent.  C
    integers are [Z]; conversions to a width ([u32], [u64], [s32], [s64])
    stand where the code converts or can wrap; counts of objects in memory
    and the times of archives (years 1000 to 9999) are not wrapped.

    ** What the theorems show

    The conditions are named in the comment of each theorem; what is said
    here is a summary.

    - Scanning: for every way the reads cut the input, and while no message
      overflows the largest sample and a leading separator fits the first
      request, the message scanner loses and reorders nothing, never stores
      outside a sample, and gives increasing time tags ([MessageScanner.scanner_lossless],
      [scanner_safe], [scanner_time_tags]); driver samples and datagrams are
      recovered exactly ([SampleScanner.driver_framing], [datagram_packets]).
    - Times: dating across midnight ([SampleClock.addSampleDate_complete]);
      adjusted time tags are in order, not late, and exact under bounded
      jitter ([TimetagAdjuster.adjusted_in_order], [adjusted_not_late],
      [jitter_removed]); periodic clients whose offset is less than their period are called
      exactly at their times ([Looper.looper_schedule]); broken-down times and names of files
      ([UTime.tm_round_trip], [names_sort_by_time]).
    - Sorting and distribution: for every interleaving each accepted sample is
      distributed once, held or released, the heap accounting is exact,
      output is in time order while no sample is too late, and a completed
      flush has distributed everything ([SampleSorter.sorter_conserves],
      [sorter_sorts], [flush_complete]); two interleavings block for ever
      ([heap_block_deadlock]); each client is called once for each
      registration that covers a sample ([Distribution.distribution_refines]).
    - Memory: pool samples are handed out to one holder at a time and the
      assertions hold ([SamplePool.pool_safe], [free_then_reuse]); sample
      operations throw exactly when out of range ([Sample.v]).
    - Archives: what a stream accepts for writing is what is read back
      ([SampleStream.archive_end_to_end], with [IOStream.output_atomic],
      [input_ordered] and [InputHeader.header_round_trip] for its layers);
      the header parser refines a machine over single characters
      ([InputHeader.parse_is_machine]); arbitrary bytes never make the reader
      loop or deliver anything but checked, contiguous samples
      ([SampleStream.archive_no_fabrication]).
    - Files: where names have all fields down to the second, a new file is
      always created and no existing one touched
      ([FileSet.create_new_file]); the search for a period misses no file
      ([FileSearch.search_complete]) and reading starts early enough
      ([FileSet.reading_starts_early]); a file set is the channel the archive
      reader reads from ([FileSet.file_set_is_channel]), and an archive of
      several files is read completely ([ArchiveFiles.archive_files_read]).
    - Merging: the matched samples of the period are written in order, one of
      each set that the comparator takes as equal ([Merge.merge_correct]).
    - Sync records: assembling them fails no assertion and stores nothing
      outside a record, for any samples, when each rate has a sample per
      second and slots that cover it ([SyncRecords.sync_records_safe]);
      the scan of a header ends on every text
      ([SyncReader.scanHeader_ends]), a header that a source wrote is read
      with the places of all variables ([header_read]), and a reader finds
      every sample of a regular variable in its slot
      ([SyncFlow.sync_end_to_end]); samples pass from the thread of a server
      to the reader in order, and no wake-up is lost
      ([SyncQueue.reader_queue]).
    - Selection and resampling: the matcher's cache does not change its
      answers ([SampleMatcher.cache_transparent]), reassignment, parsing of
      criteria, filter explanations; resampled values are the nearest ones
      ([NearestResampler.resample_nearest], [resampler_type],
      [NearestResamplerAtRate.at_rate_rows], [send_terminates]).
    - Drivers: for every interleaving a reader of a circular buffer gets the
      samples of the producer in order, whole and once
      ([CircBuf.ring_fifo], [read_nowait_complete]), and the scanner of the
      process completes just these samples, and returns those that it can
      date ([DriverPipe.driver_to_scanner]);
      memory is given back on every error ([CircAlloc.circ_buf_memory]).  The
      values of the hardware reach the filters in whole scans or are counted
      as missed ([DmdIrq.irq_to_filters], [DmdA2D.bottom_half_cuts],
      [DmdWave.waveform_cuts]), with the times at which they were taken
      ([ScreenTimetag.screen_removes_jitter], [DmdA2D.fast_scan_times]); each
      filter reads its channels, averages exactly and delivers in order
      ([DmdA2D.channels_mapped], [ShortFilters.boxcar_averages],
      [timeavg_intervals], [DmdA2D.do_filters_delivers]); the clock gets
      dividers for every rate and has one rate for all its users
      ([DmdClock.clock_dividers], [clock_shared]); an A2D that runs was set up
      completely, with buffers for two seconds ([DmdStart.start_a2d_ready]).
    - Data: identifiers, bit fields, comparators and text escapes
      ([SampleId.v], [BitArray.v], [SampleSets.v], [StringUtil.v]).

    Several lemmas state where the code does not do what its comments say;
    they are proved on concrete inputs or for all inputs of a kind.

    ** Bounds

    Loops that are not structural take fuel, and the theorems show it is
    enough.  [MessageScanner.bom_fuel] counts the characters left and the
    separator; [scanner_safe] excludes the fuel error.  [InputHeader.parse]
    takes two turns more than the bytes available, each turn consumes one or
    ends ([parse_is_machine] excludes the fuel outcome).  [IOStream.readInto]
    takes as many turns as bytes are wanted, each delivers one or ends.
    [SampleStream.sampleFuel] allows two turns for every byte and read left
    ([turns] and [work] decrease), [headerFuel] one for every byte,
    [blockFuel] one for every read left, of which only the empty read at the
    end of a file needs a second turn; [archive_no_fabrication] and
    [archive_files_read] show that the calls end with the
    exception at the end of the file.  [StringUtil.replaceCharsIn] can run
    for ever, which [replaceCharsIn_terminates] delimits; its uses in
    [FileNames.v] end ([fileRegex_total]).  [Looper.gcd] takes 65 turns, enough
    for 32-bit numbers.  [Merge.mergeLoop] takes one turn for every read-ahead
    time of the period, [NearestResamplerAtRate.sendLoop] at most one for
    every microsecond to go ([send_terminates]).  [FileNames.matchFuel] counts
    the directories of a period ([matchLoop_spec]);
    [FileSet.createDirectory] takes the length of the path
    ([createDirectory_ends]), [FileSet.createFile] the number of names in the
    directory ([create_new_file]); it does not end for some patterns
    ([createFile_endless]).  The rule and criterion parsers take one turn for
    each character of their text.  [Doubles.v] computes exactly below 2^53,
    the range of the times and counts of [TimetagAdjuster.v].
    [SyncRecords.incrementLoop] and [advanceLoop] take four turns, enough
    because there are two records ([incrementLoop_spec],
    [advanceLoop_live]).  The loops of [SyncHeader.v] take a turn for each
    character of the text ([scanHeader_ends]); [StdStream.decimal] writes
    numbers of up to 60 digits, more than a [float] has.
    [CircBuf.read_fuel] allows three steps for each byte asked for
    ([read_nowait_complete]); [DmdA2D.scan_loop] and [fast_loop] take one turn
    for each value of a fifo sample, [DmdClock.clock_fuel] is 64 turns, of
    which 50 are enough for any rate ([clock_dividers]), and the interrupt
    handler takes a turn more than there are values in the hardware fifo,
    when that fills more slowly than it is read ([DmdIrq.slower_than_reads],
    [handler_ends]).

    ** What is not modelled

    Calibration, statistics and averages in floating point and conversions of
    sample values, parsing of times, the XML configuration and the classes
    built from it, the sensor classes, sockets, threads and signals of
    [util/], logging, the applications other than the merge loop.  Of the
    kernel drivers: the other cards, and of the Diamond cards the counter,
    the D2A and the D2D, the file operations, and what is written to the
    registers to start and stop the conversions.

    ** Plan

    Next: the file operations of the Diamond driver, and the other users of
    the circular buffer ([linux/ncar_a2d/], [linux/irig/]); parsing of times
    in [util/UTime.cc]; the averagers; the text
    formats of calibration files ([core/CalFile.cc]); the checksums and
    framing of the binary sensors ([dynld/ModbusRTU.cc],
    [dynld/isff/WisardMote.cc]). *)

From stdpp Require Export base list numbers gmap sorting.
From Stdlib Require Export ZArith Lia.

#[export] Set Default Goal Selector "!".
#[global] Open Scope Z_scope.

(** ** Machine integers

    A C integer is a [Z]; the functions below are the conversions to a
    width, written where the source converts or where an operation can
    wrap.  [unsigned int] is 32 bits wide, [size_t] and
    [unsigned long long] 64; [int] and [long long] are two's complement. *)

Definition u8 (z : Z) : Z := z mod 2 ^ 8.
Definition u32 (z : Z) : Z := z mod 2 ^ 32.
Definition u64 (z : Z) : Z := z mod 2 ^ 64.
Definition s32 (z : Z) : Z := (z + 2 ^ 31) mod 2 ^ 32 - 2 ^ 31.
Definition s64 (z : Z) : Z := (z + 2 ^ 63) mod 2 ^ 64 - 2 ^ 63.

Definition UINT_MAX : Z := 2 ^ 32 - 1.
Definition INT_MAX : Z := 2 ^ 31 - 1.
Definition INT_MIN : Z := - 2 ^ 31.
Definition LONG_LONG_MAX : Z := 2 ^ 63 - 1.
Definition LONG_LONG_MIN : Z := - 2 ^ 63.

Definition USECS_PER_SEC : Z := 1000000.
Definition SECS_PER_DAY : Z := 86400.
Definition USECS_PER_DAY : Z := SECS_PER_DAY * USECS_PER_SEC.

(** A byte of memory, read as [unsigned char]. *)
Definition is_byte (b : Z) : Prop := 0 <= b < 256.

(** Lengths are [Z] like the source's unsigned counters. *)
Definition zlen {A} (l : list A) : Z := Z.of_nat (length l).

(** ** Automation *)

Create HintDb nidas.
Create Rewrite HintDb nidas_len.

(** [lia] after the floor and truncating divisions are expanded. *)
Ltac dlia := intros; Z.to_euclidean_division_equations; lia.

(** Unfold the machine conversions and decide with [lia]. *)
Ltac mlia :=
  intros; unfold u8, u32, u64, s32, s64, UINT_MAX, INT_MAX, INT_MIN,
    LONG_LONG_MAX, LONG_LONG_MIN, USECS_PER_DAY, SECS_PER_DAY, USECS_PER_SEC in *;
  Z.to_euclidean_division_equations; lia.

(** Case analysis on every boolean comparison of integers in sight. *)
Ltac bdestr :=
  repeat match goal with
    | |- context [?a =? ?b] => destruct (Z.eqb_spec a b)
    | |- context [?a <? ?b] => destruct (Z.ltb_spec a b)
    | |- context [?a <=? ?b] => destruct (Z.leb_spec a b)
    | H : context [?a =? ?b] |- _ => destruct (Z.eqb_spec a b)
    | H : context [?a <? ?b] |- _ => destruct (Z.ltb_spec a b)
    | H : context [?a <=? ?b] |- _ => destruct (Z.leb_spec a b)
    end.

(** Rewrite with the hypotheses that give a test its value. *)
Ltac use_tests :=
  repeat match goal with
    | H : ?b = true |- context [if ?b then _ else _] => rewrite H
    | H : ?b = false |- context [if ?b then _ else _] => rewrite H
    end.

(** ** Generic lemmas: integers *)

Lemma u32_small z : 0 <= z < 2 ^ 32 -> u32 z = z.
Proof. apply Z.mod_small. Qed.

Lemma u64_small z : 0 <= z < 2 ^ 64 -> u64 z = z.
Proof. apply Z.mod_small. Qed.

Lemma s32_small z : - 2 ^ 31 <= z < 2 ^ 31 -> s32 z = z.
Proof. mlia. Qed.

Lemma s64_small z : - 2 ^ 63 <= z < 2 ^ 63 -> s64 z = z.
Proof. mlia. Qed.

Lemma u32_range z : 0 <= u32 z < 2 ^ 32.
Proof. apply Z.mod_pos_bound; lia. Qed.

Lemma zlen_nonneg {A} (l : list A) : 0 <= zlen l.
Proof. unfold zlen; lia. Qed.

Lemma zlen_app {A} (l k : list A) : zlen (l ++ k) = zlen l + zlen k.
Proof. unfold zlen; rewrite length_app; lia. Qed.

Lemma zlen_cons {A} (x : A) l : zlen (x :: l) = 1 + zlen l.
Proof. unfold zlen; simpl length; lia. Qed.

Lemma zlen_nil {A} : zlen (@nil A) = 0.
Proof. reflexivity. Qed.

Lemma zlen_nil_inv {A} (l : list A) : zlen l = 0 -> l = [].
Proof. destruct l; unfold zlen; [done|]. simpl length. lia. Qed.

Lemma take_zlen_app {A} (l k : list A) : take (Z.to_nat (zlen l)) (l ++ k) = l.
Proof. unfold zlen. by rewrite Nat2Z.id, take_app_length. Qed.

Lemma drop_zlen_app {A} (l k : list A) : drop (Z.to_nat (zlen l)) (l ++ k) = k.
Proof. unfold zlen. by rewrite Nat2Z.id, drop_app_length. Qed.

Lemma zlen_0_nil {A} (l : list A) : zlen l = 0 -> l = [].
Proof. destruct l; [done|]. rewrite zlen_cons. pose proof (zlen_nonneg l). lia. Qed.

#[export] Hint Rewrite @zlen_app @zlen_cons @zlen_nil @length_app : nidas_len.
#[export] Hint Resolve zlen_nonneg u32_range : nidas.

(** The low [n] bits selected by a mask are the residue modulo [2 ^ n]. *)
Lemma land_mask a n : 0 <= n -> Z.land a (Z.ones n) = a mod 2 ^ n.
Proof. apply Z.land_ones. Qed.

(** Equality of integers bit by bit, with the masks written as [Z.ones]. *)
Ltac bitwise :=
  apply Z.bits_inj'; intros ? ?;
  repeat (rewrite ?Z.lor_spec, ?Z.land_spec, ?Z.lnot_spec, ?Z.lxor_spec;
          first [ rewrite Z.shiftl_spec by lia
                | rewrite Z.shiftr_spec by lia
                | rewrite Z.testbit_ones by lia ]).

(** ** Generic lemmas: sorted lists *)

Lemma StronglySorted_mono {A} (R S : A -> A -> Prop) l :
  (forall a b, R a b -> S a b) -> StronglySorted R l -> StronglySorted S l.
Proof.
  intros HRS. induction 1 as [|a k _ IH Ha]; constructor; [done|].
  eapply Forall_impl; [exact Ha | auto].
Qed.

Lemma StronglySorted_filter {A} (R : A -> A -> Prop) f l :
  StronglySorted R l -> StronglySorted R (List.filter f l).
Proof.
  induction 1 as [|a l _ IH Ha]; cbn; [constructor|]. destruct (f a); [|done]. constructor; [done|].
  apply List.Forall_forall. intros x [Hx _]%filter_In. rewrite List.Forall_forall in Ha. auto.
Qed.

Lemma StronglySorted_app_iff {A} (R : A -> A -> Prop) l k :
  StronglySorted R (l ++ k) <->
  StronglySorted R l /\ StronglySorted R k /\ (forall a b, a ∈ l -> b ∈ k -> R a b).
Proof.
  induction l as [|x l IH]; cbn.
  - split; [intros H; split; [constructor|]; split; [done|] | tauto].
    intros a b Ha. inversion Ha.
  - split.
    + intros (H & Hx)%StronglySorted_inv. apply IH in H as (H1 & H2 & H3).
      apply Forall_app in Hx as [Hx1 Hx2]. split; [by constructor|]. split; [done|].
      intros a b [->|Ha]%elem_of_cons Hb; [|by apply H3].
      rewrite Forall_forall in Hx2. by apply Hx2.
    + intros (H1 & H2 & H3). apply StronglySorted_inv in H1 as [H1 Hx].
      constructor.
      * apply IH. split; [done|]. split; [done|]. intros a b Ha. apply H3. by right.
      * apply Forall_app. split; [done|]. apply Forall_forall. intros b Hb.
        apply H3; [by left|done].
Qed.

(** ** Lexicographic order

    The order of lists of numbers: keys of samples, and strings as
    [std::string::compare] orders them. *)

Fixpoint lexlt (a b : list Z) : bool :=
  match a, b with
  | _, [] => false
  | [], _ :: _ => true
  | x :: a, y :: b => if x <? y then true else if y <? x then false else lexlt a b
  end.

Lemma lexlt_irrefl a : lexlt a a = false.
Proof. induction a as [|x a IH]; cbn; [done|]. by rewrite Z.ltb_irrefl. Qed.

Lemma lexlt_total a b : lexlt a b = false -> lexlt b a = false -> a = b.
Proof.
  revert b; induction a as [|x a IH]; intros [|y b]; cbn; try done.
  bdestr; try lia; try done. intros H1 H2. f_equal; [lia|by apply IH].
Qed.

Lemma lexlt_trans a b c : lexlt a b = true -> lexlt b c = true -> lexlt a c = true.
Proof.
  revert b c; induction a as [|x a IH]; intros [|y b] [|z c]; cbn; try done.
  bdestr; try lia; try done; intros; by eapply IH.
Qed.

Lemma lexlt_app a b c : lexlt (a ++ b) (a ++ c) = lexlt b c.
Proof. induction a as [|x a IH]; cbn; [done|]. by rewrite Z.ltb_irrefl. Qed.

Lemma lexlt_asym a b : lexlt a b = true -> lexlt b a = false.
Proof.
  intros H. destruct (lexlt b a) eqn:E; [|done]. by rewrite <- (lexlt_irrefl a), (lexlt_trans a b a H E).
Qed.
