(* ===== verification/StdMap.v ===== *)
(** * Ordered maps.

    [std::map<K,V>] with pointers or integers as keys, as the classes of the
    program use it: the entries in ascending order of the keys, which is the
    order an iterator visits them in. *)

From S2P Require Import Prelude.

Section StdMap.

Context {V : Type}.

Definition smap := list (Z * V).

(** [find(k)] *)
Fixpoint sm_find (k : Z) (m : smap) : option V :=
  match m with
  | [] => None
  | (k', v) :: m => if k =? k' then Some v else sm_find k m
  end.

(** [m[k] = v] *)
Fixpoint sm_set (k : Z) (v : V) (m : smap) : smap :=
  match m with
  | [] => [(k, v)]
  | (k', v') :: r =>
      if k <? k' then (k, v) :: m else if k =? k' then (k, v) :: r else (k', v') :: sm_set k v r
  end.

(** [erase(k)] *)
Fixpoint sm_erase (k : Z) (m : smap) : smap :=
  match m with
  | [] => []
  | (k', v) :: r => if k =? k' then r else (k', v) :: sm_erase k r
  end.

Definition sm_wf (m : smap) : Prop := StronglySorted Z.lt (map fst m).

Lemma sm_find_above k m : Forall (fun k' => k < k') (map fst m) -> sm_find k m = None.
Proof.
  induction m as [|[k' v] m IH]; cbn; [done|]. intros [H1 H2]%Forall_cons.
  destruct (Z.eqb_spec k k'); [lia|auto].
Qed.

Lemma sm_find_in k m v : sm_find k m = Some v -> (k, v) ∈ m.
Proof.
  induction m as [|[k' v'] m IH]; cbn; [done|]. destruct (Z.eqb_spec k k') as [->|E].
  - intros [= ->]. by left.
  - intros H. right. auto.
Qed.

Lemma sm_in_find k m v : sm_wf m -> (k, v) ∈ m -> sm_find k m = Some v.
Proof.
  unfold sm_wf. induction m as [|[k' v'] m IH]; cbn; [by intros _ ?%elem_of_nil|].
  intros [Hm Hk]%StronglySorted_inv [E|H]%elem_of_cons.
  - injection E as -> ->. by rewrite Z.eqb_refl.
  - destruct (Z.eqb_spec k k') as [->|E]; [|auto]. exfalso.
    rewrite Forall_forall in Hk. specialize (Hk k'). cbn in Hk.
    assert (k' ∈ map fst m) by (apply list_elem_of_fmap; by exists (k', v)). specialize (Hk H0). lia.
Qed.

Lemma sm_keys_find k m : k ∈ map fst m <-> is_Some (sm_find k m).
Proof.
  induction m as [|[k' v] m IH]; cbn.
  - split; [by intros ?%elem_of_nil|by intros []].
  - rewrite elem_of_cons. destruct (Z.eqb_spec k k') as [->|E].
    + split; [intros _; by eexists|intros _; by left].
    + rewrite <- IH. split; [by intros [?|?]|auto].
Qed.

Lemma sm_find_set k j v m : sm_find j (sm_set k v m) = if j =? k then Some v else sm_find j m.
Proof.
  induction m as [|[k' v'] m IH]; cbn; [done|].
  destruct (Z.ltb_spec k k'); cbn; [done|].
  destruct (Z.eqb_spec k k') as [->|E]; cbn.
  - by destruct (Z.eqb_spec j k').
  - rewrite IH. destruct (Z.eqb_spec j k') as [->|]; [|done]. by destruct (Z.eqb_spec k' k) as [->|].
Qed.

Lemma sm_set_keys k j v m : j ∈ map fst (sm_set k v m) <-> j = k \/ j ∈ map fst m.
Proof.
  rewrite !sm_keys_find, sm_find_set. destruct (Z.eqb_spec j k) as [->|E].
  - split; [by left|intros _; by eexists].
  - split; [by right|by intros [?|?]].
Qed.

Lemma sm_set_wf k v m : sm_wf m -> sm_wf (sm_set k v m).
Proof.
  unfold sm_wf. induction m as [|[k' v'] m IH]; cbn; [by repeat constructor|].
  intros Hs. pose proof Hs as [Hm Hk]%StronglySorted_inv. destruct (Z.ltb_spec k k') as [Hlt|Hge]; cbn.
  - constructor; [done|]. constructor; [done|]. eapply Forall_impl; [exact Hk|]. cbn. lia.
  - destruct (Z.eqb_spec k k') as [->|E]; cbn; [by constructor|]. constructor; [by apply IH|].
    apply Forall_forall. intros j [->|Hj]%sm_set_keys; [lia|]. rewrite Forall_forall in Hk. by apply Hk.
Qed.

Lemma sm_find_erase k j m : sm_wf m -> sm_find j (sm_erase k m) = if j =? k then None else sm_find j m.
Proof.
  unfold sm_wf. induction m as [|[k' v'] m IH]; cbn; [by destruct (j =? k)|].
  intros [Hm Hk]%StronglySorted_inv. destruct (Z.eqb_spec k k') as [->|E].
  - destruct (Z.eqb_spec j k') as [->|]; [by apply sm_find_above|done].
  - cbn. rewrite IH by done. destruct (Z.eqb_spec j k') as [->|]; [|done].
    by destruct (Z.eqb_spec k' k) as [->|].
Qed.

Lemma sm_erase_sublist k m : sublist (map fst (sm_erase k m)) (map fst m).
Proof.
  induction m as [|[k' v'] m IH]; cbn; [done|]. destruct (k =? k'); cbn; [by apply sublist_cons|by apply sublist_skip].
Qed.

Lemma sm_erase_wf k m : sm_wf m -> sm_wf (sm_erase k m).
Proof.
  unfold sm_wf. induction m as [|[k' v'] m IH]; cbn; [done|]. intros [Hm Hk]%StronglySorted_inv.
  destruct (k =? k'); cbn; [done|]. constructor; [by apply IH|].
  apply Forall_forall. intros j Hj. rewrite Forall_forall in Hk. apply Hk.
  eapply elem_of_sublist; [exact Hj|apply sm_erase_sublist].
Qed.

Lemma sm_wf_nodup m : sm_wf m -> NoDup (map fst m).
Proof.
  unfold sm_wf. induction 1 as [|k l _ IH Hk]; constructor; [|done].
  intros H. rewrite Forall_forall in Hk. specialize (Hk k H). lia.
Qed.

Lemma sm_empty_wf : sm_wf [].
Proof. constructor. Qed.

End StdMap.

Arguments smap : clear implicits.

#[export] Hint Resolve sm_set_wf sm_erase_wf sm_empty_wf : nidas.

Lemma sm_find_map {A} (f : A -> A) k (m : smap A) :
  sm_find k (map (fun e => (e.1, f e.2)) m) = f <$> sm_find k m.
Proof. induction m as [|[k' v] m IH]; cbn; [done|]. by destruct (k =? k'). Qed.
