(* ===== verification/Looper.v ===== *)
(** * The looper: periodic callbacks.

    [Looper] of [src/src/nidas/core/Looper.h] and [Looper.cc], and
    [sleepUntil] of [src/src/nidas/util/UTime.cc]: one thread that calls its
    clients at the periods and offsets they asked for.  Clients are pointers,
    that is numbers; the system clock is an argument. *)

From S2P Require Import Prelude StdMap.

Definition MSECS_PER_DAY : Z := 86400000.
Definition USECS_PER_MSEC : Z := 1000.

(** ** State *)

(** The thread: not running (before it is started, or after [run] returned),
    running, or interrupted and still in [run]. *)
Inductive lthread := NotRunning | Running | Interrupted.

Definition isRunning (t : lthread) : bool := match t with NotRunning => false | _ => true end.

Record Looper := mkLooper {
  lp_clients : list Z;
  _clientPeriods : smap Z;
  _clientOffsets : smap Z;
  _clientDivs : smap Z;
  _clientMods : smap Z;
  _sleepMsec : Z;
  lp_thread : lthread
}.

Definition newLooper : Looper := mkLooper [] [] [] [] [] 0 NotRunning.

Inductive looper_error := InvalidParameter | AssertFailed.

(** ** Greatest common divisor *)

Fixpoint gcd_loop (fuel : nat) (a b : Z) : option Z :=
  match fuel with
  | O => None
  | S fuel => if b =? 0 then Some a else gcd_loop fuel b (a mod b)
  end.

(** [gcd(a,b)] of two unsigned numbers, returned as an [int]. *)
Definition gcd (a b : Z) : Z := s32 (default 0 (gcd_loop 65 a b)).

(** ** Client maps *)

Definition sleepPeriods (s : Z) (e : Z * Z) : Z := if s =? 0 then e.2 else u32 (gcd s e.2).
Definition sleepOffsets (s : Z) (e : Z * Z) : Z := if e.2 =? 0 then s else u32 (gcd s e.2).

(** The sleep value: the common divisor of all periods and offsets. *)
Definition sleepval (periods offsets : smap Z) : Z :=
  fold_left sleepOffsets offsets (fold_left sleepPeriods periods 0).

(** Before the first client with a longer period. *)
Fixpoint insertClient (periods : smap Z) (clnt per : Z) (clients : list Z) : list Z :=
  match clients with
  | [] => [clnt]
  | c :: r =>
      if per <? default 0 (sm_find c periods) then clnt :: clients else c :: insertClient periods clnt per r
  end.

(** The loop over the clients: lists and counts, or a failed assertion. *)
Fixpoint setupClients (sleep : Z) (periods offsets : smap Z) (todo : smap Z)
    (clients : list Z) (divs mods : smap Z) : option (list Z * smap Z * smap Z) :=
  match todo with
  | [] => Some (clients, divs, mods)
  | (clnt, per) :: todo =>
      let offset := default 0 (sm_find clnt offsets) in
      if negb (per mod sleep =? 0) then None
      else if negb (offset mod sleep =? 0) then None
      else setupClients sleep periods offsets todo (insertClient periods clnt per clients)
             (sm_set clnt (per / sleep) divs) (sm_set clnt (offset / sleep) mods)
  end.

Definition setupClientMaps (l : Looper) : looper_error + Looper :=
  let s := sleepval (_clientPeriods l) (_clientOffsets l) in
  if s =? 0
  then inr (mkLooper [] (_clientPeriods l) (_clientOffsets l) [] [] (_sleepMsec l) (lp_thread l))
  else
    match setupClients s (_clientPeriods l) (_clientOffsets l) (_clientPeriods l) [] [] [] with
    | None => inl AssertFailed
    | Some (clients, divs, mods) =>
        if negb (zlen clients =? zlen (_clientPeriods l)) || negb (zlen clients =? zlen (_clientOffsets l))
        then inl AssertFailed
        else inr (mkLooper clients (_clientPeriods l) (_clientOffsets l) divs mods s
               (if isRunning (lp_thread l) then lp_thread l else Running))
    end.

(** [addClient(clnt,msecPeriod,msecOffset)] *)
Definition roundPeriod (msecPeriod : Z) : Z := let p := u32 (msecPeriod + 5) in p - p mod 10.

Definition addClient (clnt msecPeriod msecOffset : Z) (l : Looper) : looper_error + Looper :=
  if msecPeriod <? 5 then inl InvalidParameter
  else
    setupClientMaps
      (mkLooper (lp_clients l) (sm_set clnt (roundPeriod msecPeriod) (_clientPeriods l))
         (sm_set clnt msecOffset (_clientOffsets l)) (_clientDivs l) (_clientMods l) (_sleepMsec l) (lp_thread l)).

(** [removeClient(clnt)]; the last client interrupts the thread, and waits
    until it has ended unless the call is made by that thread ([own]). *)
Definition removeClient (own : bool) (clnt : Z) (l : Looper) : looper_error + Looper :=
  match setupClientMaps
      (mkLooper (lp_clients l) (sm_erase clnt (_clientPeriods l)) (sm_erase clnt (_clientOffsets l))
         (_clientDivs l) (_clientMods l) (_sleepMsec l) (lp_thread l)) with
  | inl e => inl e
  | inr l =>
      match lp_clients l with
      | [] =>
          if isRunning (lp_thread l)
          then inr (mkLooper [] (_clientPeriods l) (_clientOffsets l) (_clientDivs l) (_clientMods l)
                 (_sleepMsec l) (if own then Interrupted else NotRunning))
          else inr l
      | _ => inr l
      end
  end.

(** [run] returns after it is interrupted. *)
Definition run_exit (l : Looper) : Looper :=
  mkLooper (lp_clients l) (_clientPeriods l) (_clientOffsets l) (_clientDivs l) (_clientMods l) (_sleepMsec l)
    (match lp_thread l with Interrupted => NotRunning | t => t end).

(** ** The thread *)

(** [sleepUntil(periodMsec,offsetMsec)]: the milliseconds slept, at the
    system time [now] in microseconds. *)
Definition sleepUntil (periodMsec offsetMsec now : Z) : Z :=
  u32 (periodMsec - u32 (Z.rem (Z.quot now USECS_PER_MSEC) periodMsec) + offsetMsec).

(** The number of the wake-up in the day. *)
Definition run_cntr (sleep now : Z) : Z :=
  let tnow := u32 (Z.rem (Z.quot now USECS_PER_MSEC) MSECS_PER_DAY) in
  u32 (tnow + sleep / 2) / sleep.

Definition isDue (l : Looper) (cntr clnt : Z) : bool :=
  let cdiv := default 0 (sm_find clnt (_clientDivs l)) in
  let cmod := default 0 (sm_find clnt (_clientMods l)) in
  (0 <? cdiv) && (cntr mod cdiv =? cmod).

(** One pass of the loop of [run]: the clients notified, in their order. *)
Definition run_pass (l : Looper) (now : Z) : list Z :=
  List.filter (isDue l (run_cntr (_sleepMsec l) now)) (lp_clients l).

(** ** Euclid *)

Lemma gcd_loop_enough k : forall a b fuel, 0 <= a -> 0 <= b < 2 ^ Z.of_nat k -> (2 * k + 1 <= fuel)%nat ->
  gcd_loop fuel a b = Some (Z.gcd a b).
Proof.
  induction k as [|k IH]; intros a b fuel Ha Hb Hf; (destruct fuel as [|fuel]; [lia|]); cbn [gcd_loop].
  { assert (b = 0) as -> by (cbn in Hb; lia). cbn. by rewrite Z.gcd_0_r, Z.abs_eq. }
  destruct (Z.eqb_spec b 0) as [->|Hb0]; [by rewrite Z.gcd_0_r, Z.abs_eq|].
  destruct fuel as [|fuel]; [lia|]. cbn [gcd_loop].
  assert (Hm : 0 <= a mod b < b) by (apply Z.mod_pos_bound; lia).
  rewrite Z.gcd_comm, <- (Z.gcd_mod a b) by done.
  destruct (Z.eqb_spec (a mod b) 0) as [->|Hr]; [by rewrite Z.gcd_0_l, Z.abs_eq by lia|].
  rewrite <- (Z.gcd_mod b (a mod b)) by done. rewrite Z.gcd_comm.
  apply IH; [lia| |lia]. pose proof (Z.mod_pos_bound b (a mod b) ltac:(lia)) as Hbm. split; [lia|].
  rewrite Nat2Z.inj_succ, Z.pow_succ_r in Hb by lia.
  pose proof (Z.div_mod b (a mod b) Hr). assert (1 <= b / (a mod b)) by (apply Z.div_le_lower_bound; lia). nia.
Qed.

Lemma gcd_spec a b : 0 <= a < 2 ^ 32 -> 0 <= b < 2 ^ 32 -> u32 (gcd a b) = Z.gcd a b.
Proof.
  intros Ha Hb. unfold gcd. rewrite (gcd_loop_enough 32) by (cbn; lia). cbn [default from_option id].
  assert (0 <= Z.gcd a b < 2 ^ 32).
  { split; [apply Z.gcd_nonneg|]. destruct (Z.eq_dec b 0) as [->|Hb0].
    - rewrite Z.gcd_0_r. lia.
    - pose proof (Z.gcd_divide_r a b) as Hd. apply Z.divide_pos_le in Hd; lia. }
  revert H. generalize (Z.gcd a b). intros g Hg. mlia.
Qed.

(** ** Setting up the maps *)

Definition u32_values (m : smap Z) : Prop := Forall (fun e => 0 <= e.2 < 2 ^ 32) m.

Lemma gcd_small a b : 0 <= a < 2 ^ 32 -> 0 <= b < 2 ^ 32 -> 0 <= Z.gcd a b < 2 ^ 32.
Proof. intros Ha Hb. rewrite <- gcd_spec by done. apply u32_range. Qed.

(** A fold of common divisors divides everything folded. *)
Lemma fold_gcd (f : Z -> Z * Z -> Z) (m : smap Z) : forall s,
  (forall s e, 0 <= s < 2 ^ 32 -> 0 <= e.2 < 2 ^ 32 -> f s e = Z.gcd s e.2) ->
  0 <= s < 2 ^ 32 -> u32_values m ->
  let r := fold_left f m s in 0 <= r < 2 ^ 32 /\ (r | s) /\ Forall (fun e => (r | e.2)) m.
Proof.
  induction m as [|e m IH]; intros s Hf Hs; cbn; [by split; [|split; [exists 1; lia|constructor]]|].
  intros [He Hm]%Forall_cons. rewrite Hf by done.
  destruct (IH (Z.gcd s e.2) Hf (gcd_small _ _ Hs He) Hm) as (H1 & H2 & H3). split; [done|]. split.
  - etransitivity; [exact H2|apply Z.gcd_divide_l].
  - constructor; [|done]. etransitivity; [exact H2|apply Z.gcd_divide_r].
Qed.

Lemma sleepPeriods_gcd s e : 0 <= s < 2 ^ 32 -> 0 <= e.2 < 2 ^ 32 -> sleepPeriods s e = Z.gcd s e.2.
Proof.
  intros Hs He. unfold sleepPeriods. destruct (Z.eqb_spec s 0) as [->|E]; [|by apply gcd_spec].
  rewrite Z.gcd_0_l. lia.
Qed.

Lemma sleepOffsets_gcd s e : 0 <= s < 2 ^ 32 -> 0 <= e.2 < 2 ^ 32 -> sleepOffsets s e = Z.gcd s e.2.
Proof.
  intros Hs He. unfold sleepOffsets. destruct (Z.eqb_spec e.2 0) as [->|E]; [|by apply gcd_spec].
  rewrite Z.gcd_0_r. lia.
Qed.

Lemma sleepval_spec periods offsets :
  u32_values periods -> u32_values offsets ->
  let s := sleepval periods offsets in
  0 <= s < 2 ^ 32 /\ Forall (fun e => (s | e.2)) periods /\ Forall (fun e => (s | e.2)) offsets.
Proof.
  intros Hp Ho. unfold sleepval.
  destruct (fold_gcd sleepPeriods periods 0 sleepPeriods_gcd ltac:(lia) Hp) as (H1 & _ & H3).
  destruct (fold_gcd sleepOffsets offsets _ sleepOffsets_gcd H1 Ho) as (K1 & K2 & K3).
  split; [done|]. split; [|done]. eapply Forall_impl; [exact H3|]. cbn. intros e He. by etransitivity.
Qed.

(** Clients of shorter period come first. *)
Definition by_period (periods : smap Z) (c c' : Z) : Prop :=
  default 0 (sm_find c periods) <= default 0 (sm_find c' periods).

Lemma insertClient_perm periods clnt per clients :
  Permutation (insertClient periods clnt per clients) (clnt :: clients).
Proof.
  induction clients as [|c r IH]; cbn; [done|]. destruct (_ <? _); [done|]. rewrite IH. by constructor.
Qed.

Lemma insertClient_sorted periods clnt per clients :
  sm_find clnt periods = Some per -> StronglySorted (by_period periods) clients ->
  StronglySorted (by_period periods) (insertClient periods clnt per clients).
Proof.
  intros Hc. induction clients as [|c r IH]; cbn; [by repeat constructor|]. intros Hs.
  pose proof Hs as [Hr Hcr]%StronglySorted_inv.
  destruct (Z.ltb_spec per (default 0 (sm_find c periods))) as [Hlt|Hge].
  - constructor; [done|]. unfold by_period in *. rewrite Hc. cbn. constructor; [lia|].
    eapply Forall_impl; [exact Hcr|]. cbn. lia.
  - constructor; [by apply IH|]. eapply Permutation_Forall; [symmetry; apply insertClient_perm|].
    constructor; [|done]. unfold by_period. rewrite Hc. cbn. lia.
Qed.

Lemma setupClients_ok sleep periods offsets todo : forall clients divs mods,
  0 < sleep -> sm_wf periods -> (forall e, e ∈ todo -> e ∈ periods) ->
  Forall (fun e => (sleep | e.2)) periods -> Forall (fun e => (sleep | e.2)) offsets ->
  NoDup (map fst todo) -> StronglySorted (by_period periods) clients ->
  exists clients' divs' mods',
    setupClients sleep periods offsets todo clients divs mods = Some (clients', divs', mods') /\
    Permutation clients' (map fst todo ++ clients) /\ StronglySorted (by_period periods) clients' /\
    forall k, match sm_find k todo with
      | Some per => sm_find k divs' = Some (per / sleep) /\
                    sm_find k mods' = Some (default 0 (sm_find k offsets) / sleep)
      | None => sm_find k divs' = sm_find k divs /\ sm_find k mods' = sm_find k mods
      end.
Proof.
  induction todo as [|[c per] todo IH]; intros clients divs mods Hs Hw Hin Hp Ho Hn Hsort; cbn [setupClients].
  { by exists clients, divs, mods. }
  assert (Hcp : (c, per) ∈ periods) by (apply Hin; by left).
  assert (Hd : (sleep | per)) by (rewrite Forall_forall in Hp; by apply (Hp (c, per))).
  assert (Hod : (sleep | default 0 (sm_find c offsets))).
  { destruct (sm_find c offsets) as [o|] eqn:E; cbn; [|exists 0; lia].
    apply sm_find_in in E. rewrite Forall_forall in Ho. by apply (Ho (c, o)). }
  rewrite (proj2 (Z.mod_divide per sleep ltac:(lia)) Hd), (proj2 (Z.mod_divide _ sleep ltac:(lia)) Hod). cbn [negb Z.eqb].
  apply NoDup_cons in Hn as [Hc Hn].
  destruct (IH (insertClient periods c per clients) (sm_set c (per / sleep) divs)
    (sm_set c (default 0 (sm_find c offsets) / sleep) mods)) as (cl & dv & md & E & HP & HS & HF); try done.
  { intros e He. apply Hin. by right. }
  { apply insertClient_sorted; [by apply sm_in_find|done]. }
  exists cl, dv, md. split; [done|]. split.
  - rewrite HP, insertClient_perm. cbn. by rewrite Permutation_middle.
  - split; [done|]. intros k. specialize (HF k). cbn [sm_find]. rewrite !sm_find_set in HF.
    destruct (Z.eqb_spec k c) as [Ekc|Hk]; [rewrite Ekc in *|exact HF].
    destruct (sm_find c todo) eqn:Et; [|done]. exfalso. apply Hc, sm_keys_find. cbn. by rewrite Et.
Qed.

(** What the registration maps always are. *)
Definition maps_ok (l : Looper) : Prop :=
  sm_wf (_clientPeriods l) /\ sm_wf (_clientOffsets l) /\
  u32_values (_clientPeriods l) /\ u32_values (_clientOffsets l) /\
  map fst (_clientPeriods l) = map fst (_clientOffsets l).

(** What [setupClientMaps] makes of them. *)
Definition looper_ok (l : Looper) : Prop :=
  maps_ok l /\
  if sleepval (_clientPeriods l) (_clientOffsets l) =? 0 then lp_clients l = []
  else
    _sleepMsec l = sleepval (_clientPeriods l) (_clientOffsets l) /\
    Permutation (lp_clients l) (map fst (_clientPeriods l)) /\
    StronglySorted (by_period (_clientPeriods l)) (lp_clients l) /\
    forall c per, sm_find c (_clientPeriods l) = Some per ->
      sm_find c (_clientDivs l) = Some (per / _sleepMsec l) /\
      sm_find c (_clientMods l) = Some (default 0 (sm_find c (_clientOffsets l)) / _sleepMsec l).

Lemma setupClientMaps_ok l :
  maps_ok l -> exists l', setupClientMaps l = inr l' /\ looper_ok l' /\
    _clientPeriods l' = _clientPeriods l /\ _clientOffsets l' = _clientOffsets l.
Proof.
  intros Hm. pose proof Hm as (W1 & W2 & U1 & U2 & Ek). unfold setupClientMaps.
  destruct (sleepval_spec _ _ U1 U2) as (S1 & S2 & S3). set (s := sleepval _ _) in *.
  destruct (Z.eqb_spec s 0) as [E|E].
  { eexists. split; [reflexivity|]. split; [|done]. split; [done|].
    cbn [_clientPeriods _clientOffsets lp_clients]. fold s. by rewrite E. }
  destruct (setupClients_ok s (_clientPeriods l) (_clientOffsets l) (_clientPeriods l) [] [] [])
    as (cl & dv & md & -> & HP & HS & HF); [lia|done|done|done|done|by apply sm_wf_nodup|constructor|].
  rewrite app_nil_r in HP.
  assert (L1 : zlen cl = zlen (_clientPeriods l)) by (unfold zlen; by rewrite HP, length_map).
  assert (L2 : zlen cl = zlen (_clientOffsets l)) by (unfold zlen; by rewrite HP, Ek, length_map).
  rewrite <- L1, <- L2, Z.eqb_refl. cbn [negb orb]. eexists. split; [reflexivity|]. split; [|done]. split; [done|].
  cbn [_clientPeriods _clientOffsets lp_clients _sleepMsec _clientDivs _clientMods]. fold s. destruct (Z.eqb_spec s 0); [done|]. split; [done|]. split; [done|]. split; [done|].
  intros c per Hc. specialize (HF c). by rewrite Hc in HF.
Qed.

(** ** Reachable loopers *)

(** [inner] tells whether the thread itself has removed its last client. *)
Inductive looper_run : bool -> Looper -> Prop :=
| lr_new : looper_run false newLooper
| lr_add inner l c p o l' :
    looper_run inner l -> 0 <= p < 2 ^ 32 -> 0 <= o < 2 ^ 32 -> addClient c p o l = inr l' -> looper_run inner l'
| lr_remove inner own l c l' :
    looper_run inner l -> removeClient own c l = inr l' -> looper_run (inner || own) l'
| lr_exit inner l : looper_run inner l -> looper_run inner (run_exit l).

Lemma roundPeriod_range p : 0 <= roundPeriod p < 2 ^ 32.
Proof. unfold roundPeriod. pose proof (u32_range (p + 5)). generalize dependent (u32 (p + 5)). dlia. Qed.

Lemma sm_set_values k v (m : smap Z) : 0 <= v < 2 ^ 32 -> u32_values m -> u32_values (sm_set k v m).
Proof.
  intros Hv. unfold u32_values. induction m as [|[k' v'] m IH]; cbn; [intros _; by constructor|].
  intros Hm. pose proof Hm as [H1 H2]%Forall_cons.
  destruct (_ <? _); [by constructor|]. destruct (_ =? _); constructor; auto.
Qed.

Lemma sm_erase_values k (m : smap Z) : u32_values m -> u32_values (sm_erase k m).
Proof.
  unfold u32_values. induction m as [|[k' v'] m IH]; cbn; [done|]. intros [H1 H2]%Forall_cons.
  destruct (_ =? _); [done|]. constructor; auto.
Qed.

(** Two maps with the same keys keep them. *)
Lemma sm_set_same_keys {A B} k (v : A) (w : B) : forall (m : smap A) (n : smap B),
  map fst m = map fst n -> map fst (sm_set k v m) = map fst (sm_set k w n).
Proof.
  induction m as [|[k1 v1] m IH]; intros [|[k2 v2] n]; cbn; try done. intros [= -> E].
  destruct (_ <? _); cbn; [by rewrite E|]. destruct (_ =? _); cbn; [by rewrite E|]. f_equal. by apply IH.
Qed.

Lemma sm_erase_same_keys {A B} k : forall (m : smap A) (n : smap B),
  map fst m = map fst n -> map fst (sm_erase k m) = map fst (sm_erase k n).
Proof.
  induction m as [|[k1 v1] m IH]; intros [|[k2 v2] n]; cbn; try done. intros [= -> E].
  destruct (_ =? _); cbn; [done|]. f_equal. by apply IH.
Qed.

(** The thread after the maps are set up. *)
Lemma setupClientMaps_thread l l' : setupClientMaps l = inr l' ->
  lp_thread l' = match lp_clients l' with [] => lp_thread l' | _ => if isRunning (lp_thread l) then lp_thread l else Running end /\
  (lp_clients l' = [] -> lp_thread l' = lp_thread l \/ lp_thread l' = if isRunning (lp_thread l) then lp_thread l else Running).
Proof.
  unfold setupClientMaps. intros E. case_match; [injection E as <-; cbn; split; [done|by left]|].
  destruct (setupClients _ _ _ _ _ _ _) as [[[cl dv] md]|]; [|done]. case_match; [done|]. injection E as <-. cbn.
  split; [by destruct cl|by right].
Qed.

Lemma addClient_ok l c p o :
  maps_ok l -> 0 <= o < 2 ^ 32 -> 5 <= p ->
  exists l', addClient c p o l = inr l' /\ looper_ok l' /\
    _clientPeriods l' = sm_set c (roundPeriod p) (_clientPeriods l) /\ _clientOffsets l' = sm_set c o (_clientOffsets l).
Proof.
  intros (W1 & W2 & U1 & U2 & Ek) Ho Hp. unfold addClient. destruct (Z.ltb_spec p 5); [lia|].
  match goal with |- context [setupClientMaps ?m] => destruct (setupClientMaps_ok m) as (l' & -> & H1 & H2 & H3) end;
    [|by exists l'].
  split_and!; cbn; [by apply sm_set_wf|by apply sm_set_wf|apply sm_set_values; [apply roundPeriod_range|done]|
    by apply sm_set_values|by apply sm_set_same_keys].
Qed.

Lemma removeClient_ok own l c :
  maps_ok l -> exists l', removeClient own c l = inr l' /\ looper_ok l' /\
    _clientPeriods l' = sm_erase c (_clientPeriods l) /\ _clientOffsets l' = sm_erase c (_clientOffsets l) /\
    (lp_clients l' = [] -> lp_thread l' <> Running).
Proof.
  intros (W1 & W2 & U1 & U2 & Ek). unfold removeClient.
  match goal with |- context [setupClientMaps ?m] => destruct (setupClientMaps_ok m) as (l' & -> & H1 & H2 & H3) end.
  { split_and!; cbn; [by apply sm_erase_wf|by apply sm_erase_wf|by apply sm_erase_values|by apply sm_erase_values|
      by apply sm_erase_same_keys]. }
  destruct (lp_clients l') as [|x r] eqn:Ec; [|by exists l'; rewrite Ec].
  destruct (isRunning (lp_thread l')) eqn:Et.
  - eexists. split; [reflexivity|]. split; [|split_and!; try done; by destruct own]. destruct H1 as [M H1]. split; [exact M|].
    cbn [_clientPeriods _clientOffsets lp_clients _sleepMsec _clientDivs _clientMods]. by rewrite Ec in H1.
  - exists l'. split_and!; try done. by destruct (lp_thread l').
Qed.

Lemma looper_run_ok inner l : looper_run inner l -> looper_ok l.
Proof.
  induction 1 as [|inner l c p o l' _ [IH _] Hp Ho E|inner own l c l' _ [IH _] E|inner l _ IH].
  - split; [|done]. split_and!; constructor.
  - destruct (Z_lt_le_dec p 5) as [Hlt|Hge].
    + unfold addClient in E. by destruct (Z.ltb_spec p 5); [|lia].
    + destruct (addClient_ok l c p o IH Ho Hge) as (l2 & E2 & H & _). congruence.
  - destruct (removeClient_ok own l c IH) as (l2 & E2 & H & _). congruence.
  - exact IH.
Qed.

(** While the thread itself never removed its last client, it runs as long as
    there are clients, and it is started again after it was stopped. *)
Lemma looper_thread inner l : looper_run inner l -> inner = false ->
  lp_thread l <> Interrupted /\ (lp_clients l <> [] -> lp_thread l = Running).
Proof.
  induction 1 as [|inner l c p o l' _ IH Hp Ho E|inner own l c l' _ IH E|inner l _ IH]; intros Hi.
  - done.
  - destruct (IH Hi) as [H1 H2]. unfold addClient in E. destruct (p <? 5); [done|].
    apply setupClientMaps_thread in E as [E1 E2]. cbn [lp_thread] in E1, E2.
    destruct (lp_clients l') as [|x r].
    + split; [|done]. destruct (E2 eq_refl) as [-> | ->]; [done|]. by destruct (lp_thread l).
    + rewrite E1. by destruct (lp_thread l).
  - apply orb_false_iff in Hi as [Hi ->]. destruct (IH Hi) as [H1 H2]. unfold removeClient in E.
    destruct (setupClientMaps _) as [|l2] eqn:Es; [done|]. apply setupClientMaps_thread in Es as [E1 E2]. cbn [lp_thread] in E1, E2.
    destruct (lp_clients l2) as [|x r] eqn:Ec.
    + destruct (isRunning (lp_thread l2)); injection E as <-; [done|]. rewrite Ec. split; [|done].
      destruct (E2 eq_refl) as [-> | ->]; [done|]. by destruct (lp_thread l).
    + injection E as <-. rewrite E1. by destruct (lp_thread l).
  - destruct (IH Hi) as [H1 H2]. unfold run_exit. cbn. split; [by destruct (lp_thread l)|].
    intros Hc. rewrite (H2 Hc). done.
Qed.

(** ** The schedule *)

(** The time of day of a wake-up, in milliseconds. *)
Definition timeOfDay (now : Z) : Z := (now / USECS_PER_MSEC) mod MSECS_PER_DAY.

Lemma run_cntr_spec s now :
  0 < s < 2 ^ 32 -> 0 <= now -> run_cntr s now = (timeOfDay now + s / 2) / s.
Proof.
  intros Hs Hn. unfold run_cntr, timeOfDay, USECS_PER_MSEC, MSECS_PER_DAY.
  rewrite Z.quot_div_nonneg, Z.rem_mod_nonneg by (try apply Z.div_pos; lia).
  pose proof (Z.mod_pos_bound (now / 1000) 86400000 ltac:(lia)) as Ht.
  rewrite (u32_small (_ mod _)) by lia. rewrite u32_small; [done|].
  assert (0 <= s / 2 < 2 ^ 31) by dlia. lia.
Qed.

Lemma isDue_spec l c per off cntr :
  looper_ok l -> sm_find c (_clientPeriods l) = Some per -> sm_find c (_clientOffsets l) = Some off ->
  0 < per -> 0 < _sleepMsec l /\ (_sleepMsec l | per) /\ (_sleepMsec l | off) /\ _sleepMsec l < 2 ^ 32 /\
    c ∈ lp_clients l /\ (isDue l cntr c = true <-> (cntr * _sleepMsec l) mod per = off).
Proof.
  intros [(W1 & W2 & U1 & U2 & Ek) H] Hp Ho Hpos.
  destruct (sleepval_spec _ _ U1 U2) as (S1 & S2 & S3).
  apply sm_find_in in Hp as Hpi. apply sm_find_in in Ho as Hoi. rewrite Forall_forall in S2, S3.
  specialize (S2 _ Hpi). specialize (S3 _ Hoi). cbn in S2, S3.
  destruct (Z.eqb_spec (sleepval (_clientPeriods l) (_clientOffsets l)) 0) as [E|E].
  { rewrite E in S2. apply Z.divide_0_l in S2. lia. }
  destruct H as (Es & HP & _ & HF). rewrite <- Es in *. set (s := _sleepMsec l) in *.
  split; [lia|]. split; [done|]. split; [done|]. split; [lia|].
  split; [rewrite HP; apply list_elem_of_fmap; by exists (c, per)|].
  destruct (HF c per Hp) as [Hd Hm]. unfold isDue. rewrite Hd, Hm, Ho. cbn [default from_option id].
  destruct S2 as [a Ea], S3 as [b Eb]. assert (0 < a) by nia. subst per off. rewrite !Z.div_mul by lia.
  destruct (Z.ltb_spec 0 a); [|lia]. cbn [andb]. rewrite Z.eqb_eq, Z.mul_mod_distr_r by lia.
  split; [by intros ->|]. intros Eq. apply Z.mul_cancel_r in Eq; lia.
Qed.

(** The rounded time of day of a wake-up that is less than half an interval
    late. *)
Lemma looper_day s per off k ms :
  0 < s -> 0 < per -> (s | per) -> (per | MSECS_PER_DAY) -> k * s <= ms < k * s + s - s / 2 ->
  (((ms mod MSECS_PER_DAY + s / 2) / s * s) mod per = off <-> (k * s) mod per = off).
Proof.
  intros Hs Hp [a ->] [b Eb] Hms. assert (Hab : 0 < a /\ 0 < b) by (unfold MSECS_PER_DAY in Eb; nia).
  rewrite Eb. set (D := b * (a * s)). assert (Hd : D = b * a * s) by (unfold D; lia).
  assert (Er : ms mod D = (k mod (b * a)) * s + (ms - k * s)).
  { symmetry. apply (Z.mod_unique_pos _ _ (k / (b * a))).
    - rewrite Hd. pose proof (Z.mod_pos_bound k (b * a) ltac:(nia)). assert (0 <= s / 2) by dlia. nia.
    - pose proof (Z.div_mod k (b * a) ltac:(nia)). rewrite Hd. nia. }
  assert (Eq : (ms mod D + s / 2) / s = k mod (b * a)).
  { rewrite Er. symmetry. apply (Z.div_unique_pos _ _ _ (ms - k * s + s / 2)); [|lia]. clear -Hs Hms. dlia. }
  rewrite Eq. assert (Em : (k mod (b * a) * s) mod (a * s) = (k * s) mod (a * s)).
  { rewrite !Z.mul_mod_distr_r by lia. f_equal. rewrite (Z.mul_comm b a).
    rewrite Z.rem_mul_r by lia. rewrite Z.mul_comm, Z.mod_add by lia. by rewrite Z.mod_mod by lia. }
  by rewrite Em.
Qed.

(** ** Properties *)


(** A client whose offset is not less than its period is accepted and never
    notified. *)
Lemma late_offset_never_due inner l c per off now :
  looper_run inner l -> sm_find c (_clientPeriods l) = Some per -> sm_find c (_clientOffsets l) = Some off ->
  0 < per <= off -> c ∉ run_pass l now.
Proof.
  intros Hr Hp Ho Hpos Hin. pose proof (looper_run_ok inner l Hr) as Hok. apply list_elem_of_In, filter_In in Hin as [_ Hd].
  destruct (isDue_spec l c per off (run_cntr (_sleepMsec l) now) Hok Hp Ho ltac:(lia)) as (_ & _ & _ & _ & _ & Hdue).
  apply Hdue in Hd. pose proof (Z.mod_pos_bound (run_cntr (_sleepMsec l) now * _sleepMsec l) per). lia.
Qed.

(** Clients of the same period are called in the order of their addresses,
    not of their registration. *)
Lemma same_period_by_address :
  exists l1 l2, addClient 20 1000 0 newLooper = inr l1 /\ addClient 10 1000 0 l1 = inr l2 /\
    run_pass l2 0 = [10; 20].
Proof. eexists _, _. split; [reflexivity|]. split; [reflexivity|]. vm_compute. reflexivity. Qed.

(** A client that removes itself in [looperNotify] and registers again, as to
    change its period, is not called any more: the thread is interrupted but
    still runs when the client is added, so that it is not started again. *)
Lemma removed_in_notify :
  match addClient 20 1000 0 newLooper with
  | inr l1 =>
      match removeClient true 20 l1 with
      | inr l2 =>
          match addClient 20 500 0 l2 with
          | inr l3 => Some (lp_clients (run_exit l3), lp_thread (run_exit l3))
          | inl _ => None
          end
      | inl _ => None
      end
  | inl _ => None
  end = Some ([20], NotRunning).
Proof. vm_compute. reflexivity. Qed.

(** ** Witnesses *)

Definition witness_looper : Looper :=
  match addClient 2 503 200 newLooper with
  | inr l => match addClient 1 1000 0 l with inr l => l | _ => newLooper end
  | _ => newLooper
  end.

Lemma witness_looper_run : looper_run false witness_looper.
Proof.
  destruct (addClient 2 503 200 newLooper) as [|l1] eqn:E1; [vm_compute in E1; discriminate|].
  destruct (addClient 1 1000 0 l1) as [|l2] eqn:E2; [vm_compute in E1; injection E1 as <-; vm_compute in E2; discriminate|].
  assert (E : witness_looper = l2) by (unfold witness_looper; rewrite E1, E2; reflexivity). rewrite E.
  apply (lr_add false l1 1 1000 0); [|lia|lia|done]. apply (lr_add false newLooper 2 503 200); [constructor|lia|lia|done].
Qed.

