(* ===== verification/StringUtil.v ===== *)
(** * Strings: numbers in text, backslash sequences, trimming.

    [src/src/nidas/util/util.cc]: [replaceBackslashSequences] and
    [addBackslashSequences], used for message separators, [trimString] and
    [replaceChars]; and the reading of integers by [strtol] and [strtoul],
    which the parsers of sample criteria and filter rules use.  Text that is
    parsed is a [string]; strings of arbitrary bytes are lists of byte
    values. *)

From Stdlib Require Import String Ascii.
From S2P Require Import Prelude.

Local Open Scope Z_scope.

(** ** Integers in text *)

Definition code (c : ascii) : Z := Z.of_nat (nat_of_ascii c).

(** [isspace] *)
Definition isspace (c : ascii) : bool := (code c =? 32) || ((9 <=? code c) && (code c <=? 13)).

Definition digit (c : ascii) : Z :=
  let k := code c in
  if (48 <=? k) && (k <=? 57) then k - 48
  else if (97 <=? k) && (k <=? 122) then k - 87
  else if (65 <=? k) && (k <=? 90) then k - 55
  else 99.

(** All of [s] as digits of [base]. *)
Fixpoint digits (base acc : Z) (s : string) : option Z :=
  match s with
  | EmptyString => Some acc
  | String c s => if digit c <? base then digits base (acc * base + digit c) s else None
  end.

(** The digits of a number in the notations [strtol] accepts with base 0. *)
Definition magnitude (s : string) : option Z :=
  match s with
  | EmptyString => None
  | String "0" (String x (String c r)) =>
      if Ascii.eqb x "x" || Ascii.eqb x "X" then digits 16 0 (String c r) else digits 8 0 s
  | String "0" _ => digits 8 0 s
  | _ => digits 10 0 s
  end.

Fixpoint skipspace (s : string) : string :=
  match s with String c r => if isspace c then skipspace r else s | EmptyString => s end.

(** ** Bytes *)

(** The bytes of a string constant. *)
Fixpoint bytes_of (s : string) : list Z :=
  match s with
  | EmptyString => []
  | String c s => code c :: bytes_of s
  end.

Definition BS : Z := 92.    (** backslash *)

Definition isspace_byte (c : Z) : bool := (c =? 32) || ((9 <=? c) && (c <=? 13)).

(** [isprint] in the C locale. *)
Definition isprint (c : Z) : bool := (32 <=? c) && (c <=? 126).

Definition byte_digit (c : Z) : Z :=
  if (48 <=? c) && (c <=? 57) then c - 48
  else if (97 <=? c) && (c <=? 102) then c - 87
  else if (65 <=? c) && (c <=? 70) then c - 55
  else 99.

(** The value of the leading digits, and whether there was one. *)
Fixpoint read_digits (base acc : Z) (seen : bool) (l : list Z) : option Z :=
  match l with
  | c :: l' => if byte_digit c <? base then read_digits base (acc * base + byte_digit c) true l'
               else if seen then Some acc else None
  | [] => if seen then Some acc else None
  end.

(** [istringstream >> hex >> i], [>> oct >>]: white space, a sign, digits
    (after an optional [0x] in base 16). *)
Fixpoint read_int (base : Z) (l : list Z) : option Z :=
  match l with
  | c :: l' =>
      if isspace_byte c then read_int base l'
      else if c =? 45 then option_map Z.opp (read_digits base 0 false l')
      else if c =? 43 then read_digits base 0 false l'
      else
        match l' with
        | x :: l'' =>
            if (base =? 16) && (c =? 48) && ((x =? 120) || (x =? 88)) then read_digits base 0 false l''
            else read_digits base 0 false l
        | [] => read_digits base 0 false l
        end
  | [] => None
  end.

(** ** replaceBackslashSequences *)

Definition escape_char (c : Z) : option Z :=
  if c =? 101 then Some 27          (* \e *)
  else if c =? 102 then Some 12     (* \f *)
  else if c =? 110 then Some 10     (* \n *)
  else if c =? 114 then Some 13     (* \r *)
  else if c =? 116 then Some 9      (* \t *)
  else if c =? BS then Some BS
  else None.

(** A sequence that is not replaced leaves the backslash; the scan goes on
    with the character after it. *)
Fixpoint replaceBackslashSequences (l : list Z) : list Z :=
  match l with
  | [] => []
  | b :: l1 =>
      if b =? BS then
        match l1 with
        | [] => [b]
        | c :: l2 =>
            match escape_char c with
            | Some e => e :: replaceBackslashSequences l2
            | None =>
                match l2 with
                | d1 :: d2 :: l4 =>
                    if c =? 120 then
                      match read_int 16 [d1; d2] with
                      | Some v => Z.land v 255 :: replaceBackslashSequences l4
                      | None => b :: replaceBackslashSequences l1
                      end
                    else if (48 <=? c) && (c <=? 51) then
                      match read_int 8 [c; d1; d2] with
                      | Some v => Z.land v 255 :: replaceBackslashSequences l4
                      | None => b :: replaceBackslashSequences l1
                      end
                    else b :: replaceBackslashSequences l1
                | _ => b :: replaceBackslashSequences l1
                end
            end
        end
      else b :: replaceBackslashSequences l1
  end.

(** ** addBackslashSequences *)

Definition hex_digit (n : Z) : Z := if n <? 10 then 48 + n else 87 + n.

Definition addBackslash (c : Z) : list Z :=
  if c =? 27 then [BS; 101]
  else if c =? 12 then [BS; 102]
  else if c =? 10 then [BS; 110]
  else if c =? 13 then [BS; 114]
  else if c =? 9 then [BS; 116]
  else if c =? BS then [BS; BS]
  else if isprint c then [c]
  else [BS; 120; hex_digit (c / 16); hex_digit (c mod 16)].

Definition addBackslashSequences (l : list Z) : list Z := flat_map addBackslash l.

(** ** trimString *)

(** From the end of the string. *)
Fixpoint trim_rev (l : list Z) : list Z :=
  match l with c :: k => if isspace_byte c then trim_rev k else l | [] => [] end.

Definition trimString (l : list Z) : list Z := rev (trim_rev (rev l)).

(** ** replaceChars *)

Fixpoint is_prefix (pat l : list Z) : bool :=
  match pat, l with
  | [], _ => true
  | x :: pat, y :: l => (x =? y) && is_prefix pat l
  | _, [] => false
  end.

(** [find(pat,0)]: what is before the first occurrence and what follows it. *)
Fixpoint find_split (pat l : list Z) : option (list Z * list Z) :=
  if is_prefix pat l then Some ([], drop (length pat) l)
  else match l with
       | [] => None
       | c :: l => match find_split pat l with
                   | Some (a, b) => Some (c :: a, b)
                   | None => None
                   end
       end.

(** [while ((patpos = in.find(pat,0)) != npos) in.replace(...)]; [None] when
    the fuel runs out. *)
Fixpoint replaceCharsIn (fuel : nat) (pat rep l : list Z) : option (list Z) :=
  match fuel with
  | O => None
  | S fuel =>
      match find_split pat l with
      | None => Some l
      | Some (a, b) => replaceCharsIn fuel pat rep (a ++ rep ++ b)
      end
  end.

(** ** Lemmas *)

(** A property of all bytes from its instances. *)
Lemma all_bytes (P : Z -> bool) c :
  forallb P (map Z.of_nat (seq 0 256)) = true -> is_byte c -> P c = true.
Proof.
  intros H Hc. rewrite forallb_forall in H. apply H. apply in_map_iff.
  exists (Z.to_nat c). unfold is_byte in Hc. split; [lia|]. apply in_seq. lia.
Qed.

Lemma read_hex_byte c : is_byte c ->
  read_int 16 [hex_digit (c / 16); hex_digit (c mod 16)] = Some c.
Proof.
  intros Hc. apply (all_bytes (fun c => bool_decide (read_int 16 [hex_digit (c / 16); hex_digit (c mod 16)] = Some c)))
    in Hc; [by apply bool_decide_eq_true in Hc | vm_compute; reflexivity].
Qed.

(** Reading back one encoded byte. *)
Lemma replace_add c rest : is_byte c ->
  replaceBackslashSequences (addBackslash c ++ rest) = c :: replaceBackslashSequences rest.
Proof.
  intros Hc. unfold addBackslash.
  destruct (Z.eqb_spec c 27) as [->|]; [done|]. destruct (Z.eqb_spec c 12) as [->|]; [done|].
  destruct (Z.eqb_spec c 10) as [->|]; [done|]. destruct (Z.eqb_spec c 13) as [->|]; [done|].
  destruct (Z.eqb_spec c 9) as [->|]; [done|]. destruct (Z.eqb_spec c BS) as [->|Hbs]; [done|].
  destruct (isprint c).
  - cbn [app replaceBackslashSequences]. by destruct (Z.eqb_spec c BS).
  - cbn [app replaceBackslashSequences]. rewrite Z.eqb_refl. cbn [escape_char].
    change (escape_char 120) with (@None Z). cbv iota. change (120 =? 120) with true. cbv iota.
    rewrite read_hex_byte by done. f_equal. unfold is_byte in Hc.
    change 255 with (Z.ones 8). rewrite Z.land_ones by lia. apply Z.mod_small. lia.
Qed.

Lemma trim_rev_spec l : exists k, l = k ++ trim_rev l /\ Forall (fun c => isspace_byte c = true) k /\
  (forall c, head (trim_rev l) = Some c -> isspace_byte c = false).
Proof.
  induction l as [|c l (k & E & Hk & Hh)]; cbn; [by exists []|].
  destruct (isspace_byte c) eqn:Ec.
  - exists (c :: k). split; [by rewrite E at 1|]. split; [by constructor|done].
  - exists []. split; [done|]. split; [constructor|]. by intros ? [= <-].
Qed.

Lemma is_prefix_spec pat l : is_prefix pat l = true <-> pat `prefix_of` l.
Proof.
  revert l. induction pat as [|x pat IH]; intros l; cbn.
  - split; [intros _; apply prefix_nil|done].
  - destruct l as [|y l]; [split; [done|by intros [? ?]]|]. rewrite andb_true_iff, Z.eqb_eq, IH. split.
    + intros [-> ?]. by apply prefix_cons.
    + intros H. split; [by eapply prefix_cons_inv_1|by eapply prefix_cons_inv_2].
Qed.

Lemma find_split_some pat l a b : find_split pat l = Some (a, b) -> l = a ++ pat ++ b.
Proof.
  revert a b. induction l as [|c l IH]; intros a b; cbn.
  - destruct (is_prefix pat []) eqn:E; [|done]. apply is_prefix_spec in E as [k E].
    symmetry in E. apply app_nil in E as [-> ->]. cbn. by intros [= <- <-].
  - destruct (is_prefix pat (c :: l)) eqn:E.
    + apply is_prefix_spec in E as [k E]. rewrite E. intros [= <- <-]. by rewrite drop_app_length.
    + destruct (find_split pat l) as [[a' b']|]; [|done]. intros [= <- <-]. cbn. by rewrite <- (IH a' b').
Qed.

(** [find] succeeds exactly when the pattern occurs. *)
Lemma find_split_occurs pat a b : find_split pat (a ++ pat ++ b) <> None.
Proof.
  induction a as [|c a IH]; cbn [app].
  - destruct (pat ++ b) eqn:E; cbn; replace (is_prefix pat _) with true; try done;
      symmetry; apply is_prefix_spec; rewrite <- E; by exists b.
  - cbn. destruct (is_prefix pat (c :: a ++ pat ++ b)); [done|]. by destruct (find_split pat (a ++ pat ++ b)) as [[]|].
Qed.

(** ** Properties *)

(** Round trip: the text form of a separator or any other byte string
    reads back as the same bytes. *)
Theorem backslash_round_trip l :
  Forall is_byte l -> replaceBackslashSequences (addBackslashSequences l) = l.
Proof.
  induction 1 as [|c l Hc _ IH]; [done|]. cbn [addBackslashSequences flat_map].
  fold (addBackslashSequences l). by rewrite replace_add, IH.
Qed.

(** [trimString] removes white space from the end and nothing else. *)
Theorem trimString_spec l :
  exists spaces, l = trimString l ++ spaces /\
    Forall (fun c => isspace_byte c = true) spaces /\
    (forall c, last (trimString l) = Some c -> isspace_byte c = false).
Proof.
  destruct (trim_rev_spec (rev l)) as (k & E & Hk & Hh). exists (rev k). unfold trimString. split.
  - rewrite <- rev_app_distr, <- E. by rewrite rev_involutive.
  - split; [by apply Forall_rev|]. intros c Hc. apply Hh.
    rewrite <- (rev_involutive (trim_rev (rev l))).
    apply last_Some in Hc as [m ->]. by rewrite rev_app_distr.
Qed.

(** [replaceCharsIn] ends, with no occurrence of the pattern left, when
    the replacement is shorter than the pattern; and does not end, however
    long it runs, when the pattern occurs in the text and in the
    replacement. *)
Theorem replaceCharsIn_terminates pat rep l fuel :
  ((length rep < length pat)%nat -> (length l < fuel)%nat ->
     exists res, replaceCharsIn fuel pat rep l = Some res /\ find_split pat res = None) /\
  (find_split pat rep <> None -> find_split pat l <> None -> replaceCharsIn fuel pat rep l = None).
Proof.
  split.
  - intros Hlen. revert l. induction fuel as [|fuel IH]; intros l Hf; [lia|]. cbn.
    destruct (find_split pat l) as [[a b]|] eqn:E; [|by exists l].
    apply IH. apply find_split_some in E. rewrite E in Hf. rewrite !length_app in *. lia.
  - intros Hr. revert l. induction fuel as [|fuel IH]; intros l Hl; [done|]. cbn.
    destruct (find_split pat l) as [[a b]|] eqn:E; [|done]. apply IH.
    destruct (find_split pat rep) as [[ra rb]|] eqn:Er; [|done].
    apply find_split_some in Er. rewrite Er.
    replace (a ++ (ra ++ pat ++ rb) ++ b) with ((a ++ ra) ++ pat ++ (rb ++ b)) by (by rewrite <- !app_assoc).
    apply find_split_occurs.
Qed.

Lemma backslash_round_trip_witness :
  addBackslashSequences [13; 0; 92; 65; 255] = [92;114; 92;120;48;48; 92;92; 65; 92;120;102;102] /\
  replaceBackslashSequences (addBackslashSequences [13; 0; 92; 65; 255]) = [13; 0; 92; 65; 255].
Proof.
  split; [vm_compute; reflexivity|]. apply backslash_round_trip.
  repeat constructor; vm_compute; congruence.
Defined.

Lemma replaceCharsIn_terminates_witness :
  exists res, replaceCharsIn 9 [1; 2] [3] [1; 2; 1; 1; 2] = Some res /\ find_split [1; 2] res = None.
Proof.
  apply (proj1 (replaceCharsIn_terminates [1; 2] [3] [1; 2; 1; 1; 2] 9)); cbn; lia.
Defined.
