(* ===== verification/UTime.v ===== *)
(** * Times and their text.

    [src/src/nidas/util/UTime.cc]: rounding of times to an interval
    ([earlier], [round], [pmod]), the conversions between a time and the
    fields of a [struct tm] ([toTm], [fromTm]) and [format], which the names
    of archive files are made with.  A time is a number of microseconds since
    1970.  The Gregorian calendar of [gmtime_r] and [mktime], and the
    conversions of [strftime] that file names use, are defined here; those
    whose text depends on the locale are a parameter. *)

From Stdlib Require Import String.
From S2P Require Import Prelude StringUtil.

Local Open Scope Z_scope.

(** ** Rounding *)

Definition isMin (t : Z) : bool := t =? LONG_LONG_MIN.
Definition isMax (t : Z) : bool := t =? LONG_LONG_MAX.
Definition isSetTime (t : Z) : bool := negb (t =? LONG_LONG_MIN) && negb (t =? LONG_LONG_MAX).

Definition earlier (t y : Z) : Z :=
  if y =? 0 then t
  else let ymod := Z.rem t y in if 0 <=? ymod then t - ymod else t - (y + ymod).

Definition round (t y : Z) : Z :=
  if y =? 0 then t
  else
    let ymod := Z.rem t y in
    let ymod := if ymod <? 0 then ymod + y else ymod in
    let ymod := if Z.quot y 2 <=? ymod then ymod - y else ymod in
    t - ymod.

Definition pmod (x y : Z) : Z := if x <? 0 then y + Z.rem x y else Z.rem x y.

(** ** The calendar

    [days_before y] is the number of days from the first of January of the
    year 1 to that of the year [y]. *)

Definition leap (y : Z) : bool := (y mod 4 =? 0) && (negb (y mod 100 =? 0) || (y mod 400 =? 0)).

Definition days_before (y : Z) : Z := let p := y - 1 in 365 * p + p / 4 - p / 100 + p / 400.

Definition EPOCH_DAYS : Z := 719162.

Definition year_of (n : Z) : Z :=
  let e := n * 400 / 146097 + 1 in
  if days_before (e + 1) <=? n then e + 1 else if n <? days_before e then e - 1 else e.

Definition month_lengths (y : Z) : list Z :=
  [31; if leap y then 29 else 28; 31; 30; 31; 30; 31; 31; 30; 31; 30; 31].

(** The month, from 0, of a day of the year and the day of the month, from
    0. *)
Fixpoint month_of (lens : list Z) (d : Z) : Z * Z :=
  match lens with
  | [] => (0, d)
  | l :: lens => if d <? l then (0, d) else let '(m, r) := month_of lens (d - l) in (m + 1, r)
  end.

Record tm := mkTm {
  tm_sec : Z;
  tm_min : Z;
  tm_hour : Z;
  tm_mday : Z;
  tm_mon : Z;
  tm_year : Z;
  tm_yday : Z
}.

(** [gmtime_r] *)
Definition gmtime (secs : Z) : tm :=
  let n := secs / SECS_PER_DAY + EPOCH_DAYS in
  let s := secs mod SECS_PER_DAY in
  let y := year_of n in
  let yday := n - days_before y in
  let '(m, d) := month_of (month_lengths y) yday in
  mkTm (s mod 60) (s / 60 mod 60) (s / 3600) (d + 1) m (y - 1900) yday.

Definition days_of_months (lens : list Z) : Z := fold_right Z.add 0 lens.

(** [mktime] without daylight saving time: months outside of the year are
    normalised, days, hours, minutes and seconds may have any value. *)
Definition mktime (timezone : Z) (x : tm) : Z :=
  let y := tm_year x + 1900 + tm_mon x / 12 in
  let days := days_before y + days_of_months (take (Z.to_nat (tm_mon x mod 12)) (month_lengths y)) + tm_mday x - 1 in
  (days - EPOCH_DAYS) * SECS_PER_DAY + tm_hour x * 3600 + tm_min x * 60 + tm_sec x + timezone.

(** ** Conversions, with [utc] *)

Definition toTm (t : Z) : tm * Z :=
  let ute := earlier t USECS_PER_SEC in
  (gmtime (Z.quot ute USECS_PER_SEC), t - ute).

Definition fromTm (timezone : Z) (x : tm) (usecs : Z) : Z :=
  let byYday := (0 <=? tm_yday x) && ((tm_mon x <? 0) || (tm_mday x <? 1)) in
  let x' := if byYday then mkTm (tm_sec x) (tm_min x) (tm_hour x) 1 0 (tm_year x) (-1) else x in
  let ut := mktime timezone x' in
  let ut := ut - timezone in
  let ut := if byYday then ut + tm_yday x * 86400 else ut in
  ut * USECS_PER_SEC + usecs.

(** ** Text *)

(** [n] decimal digits of [v] *)
Fixpoint pad (n : nat) (v : Z) : list Z :=
  match n with O => [] | S n => pad n (v / 10) ++ [48 + v mod 10] end.

(** [v] in decimal *)
Fixpoint dec (fuel : nat) (v : Z) : list Z :=
  match fuel with
  | O => []
  | S fuel => if v <? 10 then [48 + v] else dec fuel (v / 10) ++ [48 + v mod 10]
  end.

Definition PCT : Z := 37.

Section Format.

(** The text of the conversions that depend on the locale, and of those with
    a modifier; the number [%s] stands for, which [localtime_r] and [mktime]
    give. *)
Context (other : list Z -> tm -> list Z) (localSecs : Z -> list Z).

(** One conversion of [strftime]. *)
Definition conversion (c : Z) (x : tm) : list Z :=
  if c =? 89 then let y := tm_year x + 1900 in if y <? 0 then 45 :: dec 20 (- y) else dec 20 y    (* Y *)
  else if c =? 121 then pad 2 ((tm_year x + 1900) mod 100)                                         (* y *)
  else if c =? 109 then pad 2 (tm_mon x + 1)                                                       (* m *)
  else if c =? 100 then pad 2 (tm_mday x)                                                          (* d *)
  else if c =? 72 then pad 2 (tm_hour x)                                                           (* H *)
  else if c =? 77 then pad 2 (tm_min x)                                                            (* M *)
  else if c =? 83 then pad 2 (tm_sec x)                                                            (* S *)
  else if c =? 106 then pad 3 (tm_yday x + 1)                                                      (* j *)
  else if c =? PCT then [PCT]
  else other [c] x.

(** [time_put::put] over a format. *)
Fixpoint strftime (x : tm) (fmt : list Z) : list Z :=
  match fmt with
  | [] => []
  | c :: r =>
      if negb (c =? PCT) then c :: strftime x r
      else
        match r with
        | [] => []
        | c1 :: r1 =>
            if (c1 =? 69) || (c1 =? 79) then
              match r1 with [] => [] | c2 :: r2 => other [c1; c2] x ++ strftime x r2 end
            else conversion c1 x ++ strftime x r1
        end
  end.

(** The digits of [%nf]. *)
Definition usecDigits (n us : Z) : list Z :=
  map (fun divisor => 48 + Z.rem (Z.quot us divisor) 10) (take (Z.to_nat n) [100000; 10000; 1000; 100; 10; 1]).

Definition isdigit (c : Z) : bool := (48 <=? c) && (c <=? 57).

(** The loop of [format] that replaces [%f], [%nf] and [%s]. *)
Fixpoint expandFormat (ut us : Z) (fmt : list Z) : list Z :=
  match fmt with
  | [] => []
  | c :: r =>
      if negb (c =? PCT) then c :: expandFormat ut us r
      else
        match r with
        | [] => [PCT]
        | c1 :: r1 =>
            if c1 =? 102 then usecDigits 3 us ++ expandFormat ut us r1
            else
              match r1 with
              | c2 :: r2 =>
                  if isdigit c1 && (c2 =? 102) then usecDigits (Z.min (c1 - 48) 6) us ++ expandFormat ut us r2
                  else if c1 =? 115 then localSecs ut ++ expandFormat ut us r1
                  else PCT :: expandFormat ut us r
              | [] => if c1 =? 115 then localSecs ut ++ expandFormat ut us r1 else PCT :: expandFormat ut us r
              end
        end
  end.

(** [format(true,fmt)] *)
Definition format (t : Z) (fmt : list Z) : list Z :=
  if isMin t then bytes_of "MIN"
  else if isMax t then bytes_of "MAX"
  else
    let ute := earlier t USECS_PER_SEC in
    let ut := Z.quot ute USECS_PER_SEC in
    strftime (gmtime ut) (expandFormat ut (t - ute) fmt).

End Format.

(** ** Lemmas: rounding and the calendar *)

(** The floor remainder from the truncating one. *)
Lemma rem_mod t y : 0 < y -> t mod y = if Z.rem t y <? 0 then y + Z.rem t y else Z.rem t y.
Proof.
  intros H. pose proof (Z.quot_rem' t y). pose proof (Z.rem_bound_abs t y ltac:(lia)). symmetry.
  destruct (Z.ltb_spec (Z.rem t y) 0).
  - apply (Z.mod_unique_pos _ _ (Z.quot t y - 1)); lia.
  - apply (Z.mod_unique_pos _ _ (Z.quot t y)); lia.
Qed.

Lemma earlier_floor t y : 0 < y -> earlier t y = t - t mod y.
Proof. intros H. unfold earlier. rewrite rem_mod by done. bdestr; lia. Qed.

Lemma earlier_secs t : Z.quot (earlier t USECS_PER_SEC) USECS_PER_SEC = t / USECS_PER_SEC.
Proof. rewrite earlier_floor by done. unfold USECS_PER_SEC. dlia. Qed.

(** A time rounded to the nearest multiple: [y] even. *)
Lemma round_nearest t y : 0 < y -> Z.rem y 2 = 0 -> round t y mod y = 0 /\ - y <= 2 * (t - round t y) < y.
Proof.
  intros H E. unfold round. destruct (Z.eqb_spec y 0); [lia|]. set (r := if _ <? 0 then _ else _).
  assert (Hr : r = t mod y) by (rewrite rem_mod by done; subst r; destruct (Z.ltb_spec (Z.rem t y) 0); lia).
  rewrite Hr. pose proof (Z.mod_pos_bound t y H). assert (Eq : forall k, (t - (t mod y - k * y)) mod y = 0).
  { intros k. replace (t - (t mod y - k * y)) with ((t / y + k) * y) by (pose proof (Z.div_mod t y); lia). apply Z.mod_mul; lia. }
  destruct (Z.leb_spec (Z.quot y 2) (t mod y)).
  - split; [replace (t mod y - y) with (t mod y - 1 * y) by lia; apply Eq|dlia].
  - split; [replace (t mod y) with (t mod y - 0 * y) by lia; apply Eq|dlia].
Qed.

Lemma year_of_spec n : days_before (year_of n) <= n < days_before (year_of n + 1).
Proof.
  unfold year_of. set (e := n * 400 / 146097 + 1).
  assert (H : days_before (e - 1) <= n < days_before (e + 2)) by (subst e; unfold days_before; dlia).
  destruct (Z.leb_spec (days_before (e + 1)) n).
  - replace (e + 1 + 1) with (e + 2) by lia. lia.
  - destruct (Z.ltb_spec n (days_before e)); [replace (e - 1 + 1) with e by lia; lia|lia].
Qed.

Lemma days_before_step y : days_before (y + 1) = days_before y + (if leap y then 366 else 365).
Proof.
  unfold days_before, leap. destruct (Z.eqb_spec (y mod 4) 0), (Z.eqb_spec (y mod 100) 0), (Z.eqb_spec (y mod 400) 0);
    cbn [negb andb orb]; dlia.
Qed.

Lemma days_before_mono y y' : y <= y' -> days_before y <= days_before y'.
Proof. unfold days_before. dlia. Qed.

Lemma year_of_mono n n' : n <= n' -> year_of n <= year_of n'.
Proof.
  intros H. destruct (Z.le_gt_cases (year_of n) (year_of n')) as [|C]; [done|].
  pose proof (year_of_spec n). pose proof (year_of_spec n').
  pose proof (days_before_mono (year_of n' + 1) (year_of n)). lia.
Qed.

Lemma days_of_year y : days_of_months (month_lengths y) = days_before (y + 1) - days_before y.
Proof. rewrite days_before_step. unfold days_of_months, month_lengths. cbn. destruct (leap y); lia. Qed.

Lemma month_of_spec lens : forall d m r, 0 <= d < days_of_months lens -> month_of lens d = (m, r) ->
  0 <= m < zlen lens /\ 0 <= r < nth (Z.to_nat m) lens 0 /\ d = days_of_months (take (Z.to_nat m) lens) + r.
Proof.
  induction lens as [|l lens IH]; intros d m r Hd; cbn [month_of]; [cbn in Hd; lia|].
  rewrite zlen_cons. pose proof (zlen_nonneg lens). destruct (Z.ltb_spec d l).
  - intros [= <- <-]. change (days_of_months _) with 0. change (Z.to_nat 0) with O. cbn [nth]. lia.
  - destruct (month_of lens (d - l)) as [m' r'] eqn:E. intros [= <- <-].
    change (days_of_months (l :: lens)) with (l + days_of_months lens) in Hd.
    destruct (IH (d - l) m' r' ltac:(lia) E) as (H1 & H2 & H3).
    replace (Z.to_nat (m' + 1)) with (S (Z.to_nat m')) by lia. cbn [nth take].
    change (days_of_months (l :: take (Z.to_nat m') lens)) with (l + days_of_months (take (Z.to_nat m') lens)). lia.
Qed.

Lemma month_of_mono lens : forall d d' m r m' r', d <= d' -> month_of lens d = (m, r) -> month_of lens d' = (m', r') ->
  m < m' \/ m = m' /\ r <= r' /\ (d < d' -> r < r').
Proof.
  assert (Hp : forall lens d m r, month_of lens d = (m, r) -> 0 <= m).
  { induction lens0 as [|l lens0 IH]; intros d m r; cbn; [intros [= <- _]; lia|]. destruct (d <? l); [intros [= <- _]; lia|].
    destruct (month_of lens0 (d - l)) as [m' r'] eqn:E. intros [= <- _]. pose proof (IH _ _ _ E). lia. }
  induction lens as [|l lens IH]; intros d d' m r m' r' H; cbn [month_of].
  { intros [= <- <-] [= <- <-]. lia. }
  destruct (Z.ltb_spec d l), (Z.ltb_spec d' l); try lia.
  - intros [= <- <-] [= <- <-]. lia.
  - intros [= <- <-]. destruct (month_of lens (d' - l)) as [m1 r1] eqn:E1. intros [= <- <-]. pose proof (Hp _ _ _ _ E1). lia.
  - destruct (month_of lens (d - l)) as [m0 r0] eqn:E0, (month_of lens (d' - l)) as [m1 r1] eqn:E1.
    intros [= <- <-] [= <- <-]. destruct (IH (d - l) (d' - l) _ _ _ _ ltac:(lia) E0 E1) as [|(-> & ? & ?)]; lia.
Qed.

(** The fields of a time are in their ranges, and [mktime] undoes
    [gmtime]. *)
Lemma gmtime_day secs m d :
  let n := secs / SECS_PER_DAY + EPOCH_DAYS in
  month_of (month_lengths (year_of n)) (n - days_before (year_of n)) = (m, d) ->
  0 <= m < 12 /\ 0 <= d < 31 /\
  n = days_before (year_of n) + days_of_months (take (Z.to_nat m) (month_lengths (year_of n))) + d.
Proof.
  intros n E. pose proof (year_of_spec n) as Hy. pose proof (days_of_year (year_of n)) as Hd.
  destruct (month_of_spec (month_lengths (year_of n)) (n - days_before (year_of n)) m d ltac:(lia) E) as (H1 & H2 & H3). change (zlen (month_lengths _)) with 12 in H1.
  split; [done|]. split; [|lia]. assert (Hl : forall k, nth k (month_lengths (year_of n)) 0 <= 31).
  { intros k. do 12 (destruct k as [|k]; [cbn; try destruct (leap (year_of n)); lia|]). destruct k; cbn; lia. }
  pose proof (Hl (Z.to_nat m)). lia.
Qed.

Definition valid_tm (x : tm) : Prop :=
  0 <= tm_sec x < 60 /\ 0 <= tm_min x < 60 /\ 0 <= tm_hour x < 24 /\ 1 <= tm_mday x <= 31 /\ 0 <= tm_mon x < 12.

Lemma gmtime_valid secs : valid_tm (gmtime secs).
Proof.
  unfold gmtime, valid_tm. destruct (month_of _ _) as [m d] eqn:E. cbn. destruct (gmtime_day _ _ _ E) as (? & ? & _).
  unfold SECS_PER_DAY. dlia.
Qed.

Lemma mktime_gmtime timezone secs : mktime timezone (gmtime secs) = secs + timezone.
Proof.
  unfold gmtime. destruct (month_of _ _) as [m d] eqn:E. destruct (gmtime_day _ _ _ E) as (H1 & H2 & H3).
  unfold mktime. cbn [tm_year tm_mon tm_mday tm_hour tm_min tm_sec].
  rewrite (Z.div_small m 12), (Z.mod_small m 12) by lia. set (y := year_of _) in *.
  replace (y - 1900 + 1900 + 0) with y by lia. set (s := days_of_months _) in *.
  assert (Hs : secs mod SECS_PER_DAY / 3600 * 3600 + secs mod SECS_PER_DAY / 60 mod 60 * 60 + secs mod SECS_PER_DAY mod 60
               = secs mod SECS_PER_DAY) by (unfold SECS_PER_DAY; dlia).
  pose proof (Z.div_mod secs SECS_PER_DAY). unfold SECS_PER_DAY in *. lia.
Qed.

Lemma gmtime_yday secs : tm_yday (gmtime secs) = secs / SECS_PER_DAY + EPOCH_DAYS - days_before (tm_year (gmtime secs) + 1900).
Proof. unfold gmtime. destruct (month_of _ _) as [m d]. cbn. by replace (_ - 1900 + 1900) with (year_of (secs / SECS_PER_DAY + EPOCH_DAYS)) by lia. Qed.

(** The date and time as numbers, most significant first. *)
Definition tm_fields (x : tm) : list Z := [tm_year x + 1900; tm_mon x + 1; tm_mday x; tm_hour x; tm_min x; tm_sec x].

(** Later times have lexicographically larger fields. *)
Lemma gmtime_mono s s' : s < s' -> lexlt (tm_fields (gmtime s)) (tm_fields (gmtime s')) = true.
Proof.
  intros H. unfold gmtime, tm_fields.
  assert (Hn : s / SECS_PER_DAY <= s' / SECS_PER_DAY) by (apply Z.div_le_mono; [done|lia]).
  set (n := s / SECS_PER_DAY + EPOCH_DAYS). set (n' := s' / SECS_PER_DAY + EPOCH_DAYS).
  pose proof (year_of_mono n n' ltac:(lia)) as Hy.
  destruct (month_of (month_lengths (year_of n)) _) as [m d] eqn:E.
  destruct (month_of (month_lengths (year_of n')) _) as [m' d'] eqn:E'. cbn [tm_year tm_mon tm_mday tm_hour tm_min tm_sec].
  cbn [lexlt]. destruct (Z.eq_dec (year_of n) (year_of n')) as [Ey|Ny]; [|bdestr; try done; lia].
  rewrite <- Ey in *. destruct (month_of_mono (month_lengths (year_of n)) (n - days_before (year_of n)) (n' - days_before (year_of n)) m d m' d' ltac:(lia) E E')
    as [Hm|(-> & Hd & Hd')]; [bdestr; try done; lia|].
  destruct (Z.eq_dec n n') as [En|Nn].
  - assert (Es : s / SECS_PER_DAY = s' / SECS_PER_DAY) by lia.
    assert (Hs : s mod SECS_PER_DAY < s' mod SECS_PER_DAY) by (rewrite !Z.mod_eq by done; lia).
    pose proof (Z.mod_pos_bound s SECS_PER_DAY eq_refl). pose proof (Z.mod_pos_bound s' SECS_PER_DAY eq_refl).
    generalize dependent (s mod SECS_PER_DAY). generalize dependent (s' mod SECS_PER_DAY). intros b Hb a Hab Ha.
    rewrite !Z.ltb_irrefl. clear - Hab Ha Hb Hd. unfold SECS_PER_DAY in *. bdestr; try done; dlia.
  - rewrite !Z.ltb_irrefl. bdestr; try done; lia.
Qed.

(** ** Names made of times

    A pattern of literal characters and of the fields [%Y], [%m], [%d],
    [%H], [%M] and [%S], the fields in this order from the first on. *)

Inductive token := Lit (c : Z) | Fld (k : nat).

Definition field_code (k : nat) : Z := nth k [89; 109; 100; 72; 77; 83] 0.

Definition render (ts : list token) : list Z :=
  flat_map (fun t => match t with Lit c => [c] | Fld k => [PCT; field_code k] end) ts.

Fixpoint in_order (k : nat) (ts : list token) : Prop :=
  match ts with
  | [] => True
  | Lit c :: ts => c <> PCT /\ in_order k ts
  | Fld j :: ts => j = k /\ (k < 6)%nat /\ in_order (S k) ts
  end.

Definition all_fields (ts : list token) : Prop := forall k, (k < 6)%nat -> Fld k ∈ ts.

Definition field_width (k : nat) : nat := match k with O => 4 | _ => 2 end.

(** The name from the values of the fields. *)
Definition name_of (vs : list Z) (ts : list token) : list Z :=
  flat_map (fun t => match t with Lit c => [c] | Fld k => pad (field_width k) (nth k vs 0) end) ts.

Definition year_ok (t : Z) : Prop :=
  isSetTime t = true /\ 1000 <= tm_year (gmtime (t / USECS_PER_SEC)) + 1900 <= 9999.

Lemma pad_lt n : forall v v' a b, 0 <= v -> v < v' -> v' < 10 ^ Z.of_nat n -> lexlt (pad n v ++ a) (pad n v' ++ b) = true.
Proof.
  induction n as [|n IH]; intros v v' a b H1 H2 H3; [cbn in H3; lia|].
  rewrite Nat2Z.inj_succ, Z.pow_succ_r in H3 by lia. cbn [pad]. rewrite <- !app_assoc.
  destruct (Z.eq_dec (v / 10) (v' / 10)) as [E|N].
  - rewrite E, lexlt_app. cbn. bdestr; [done|dlia|dlia].
  - apply IH; dlia.
Qed.

Lemma dec_step f v : 10 <= v -> dec (S f) v = dec f (v / 10) ++ [48 + v mod 10].
Proof. intros H. cbn [dec]. by destruct (Z.ltb_spec v 10); [lia|]. Qed.

Lemma dec_pad4 y : 1000 <= y <= 9999 -> dec 20 y = pad 4 y.
Proof.
  intros H. do 3 (rewrite dec_step by dlia). cbn [dec pad]. destruct (Z.ltb_spec (y / 10 / 10 / 10) 10); [|dlia].
  rewrite (Z.mod_small (y / 10 / 10 / 10) 10) by dlia. done.
Qed.

(** Names have the order of their fields. *)
Lemma name_order vs ws ts : forall k,
  (forall j, 0 <= nth j vs 0 < 10 ^ Z.of_nat (field_width j)) -> (forall j, 0 <= nth j ws 0 < 10 ^ Z.of_nat (field_width j)) ->
  length vs = 6%nat -> length ws = 6%nat -> in_order k ts -> (k <= 6)%nat -> lexlt (drop k vs) (drop k ws) = true ->
  lexlt (name_of ws ts) (name_of vs ts) = false /\
  ((forall j, (k <= j < 6)%nat -> Fld j ∈ ts) -> lexlt (name_of vs ts) (name_of ws ts) = true).
Proof.
  intros k Hv Hw Lv Lw. revert k. induction ts as [|[c|j] ts IH]; intros k Hk Hk6 L.
  - split; [done|]. intros Hf. destruct (decide (k < 6)%nat) as [Hl|]; [by specialize (Hf k ltac:(lia)); apply elem_of_nil in Hf|].
    by rewrite !drop_ge in L by lia.
  - destruct Hk as [_ Hk]. destruct (IH k Hk Hk6 L) as [H1 H2]. cbn. rewrite Z.ltb_irrefl. split; [done|].
    intros Hf. apply H2. intros j Hj. by destruct (elem_of_cons ts (Fld j) (Lit c)) as [[|?] _]; [by apply Hf| |].
  - destruct Hk as (-> & Hk1 & Hk). cbn [name_of flat_map]. fold (name_of vs ts) (name_of ws ts).
    destruct (lookup_lt_is_Some_2 vs k ltac:(lia)) as [v Ev]. destruct (lookup_lt_is_Some_2 ws k ltac:(lia)) as [w Ew].
    rewrite (drop_S _ _ _ Ev), (drop_S _ _ _ Ew) in L. specialize (Hv k) as Hvk. specialize (Hw k) as Hwk.
    rewrite (nth_lookup_Some _ _ _ _ Ev) in *. rewrite (nth_lookup_Some _ _ _ _ Ew) in *. cbn [lexlt] in L.
    destruct (Z.ltb_spec v w) as [Hlt|Hge].
    + assert (P : forall a b, lexlt (pad (field_width k) v ++ a) (pad (field_width k) w ++ b) = true) by (intros; apply pad_lt; lia).
      split; [apply lexlt_asym, P|intros _; apply P].
    + destruct (Z.ltb_spec w v); [done|]. assert (v = w) as <- by lia. rewrite !lexlt_app.
      destruct (IH (S k) Hk ltac:(lia) L) as [H1 H2]. split; [done|]. intros Hf. apply H2. intros j Hj.
      destruct (proj1 (elem_of_cons ts (Fld j) (Fld k)) (Hf j ltac:(lia))) as [[= ->]|]; [lia|done].
Qed.

Lemma gmtime_year_mono s s' : s <= s' -> tm_year (gmtime s) <= tm_year (gmtime s').
Proof.
  intros H. assert (Hn : s / SECS_PER_DAY <= s' / SECS_PER_DAY) by (apply Z.div_le_mono; [done|lia]).
  pose proof (year_of_mono (s / SECS_PER_DAY + EPOCH_DAYS) (s' / SECS_PER_DAY + EPOCH_DAYS) ltac:(lia)).
  unfold gmtime. destruct (month_of _ _), (month_of _ _). cbn. lia.
Qed.

Lemma year_ok_between t1 t2 t : year_ok t1 -> year_ok t2 -> t1 <= t <= t2 -> year_ok t.
Proof.
  intros [_ H1] [_ H2] Ht. assert (Hy : 1000 <= tm_year (gmtime (t / USECS_PER_SEC)) + 1900 <= 9999).
  { pose proof (gmtime_year_mono (t1 / USECS_PER_SEC) (t / USECS_PER_SEC) ltac:(apply Z.div_le_mono; [done|lia])).
    pose proof (gmtime_year_mono (t / USECS_PER_SEC) (t2 / USECS_PER_SEC) ltac:(apply Z.div_le_mono; [done|lia])). lia. }
  split; [|done]. unfold isSetTime. destruct (Z.eqb_spec t LONG_LONG_MIN) as [->|]; [by destruct Hy as [Hy _]; vm_compute in Hy|].
  destruct (Z.eqb_spec t LONG_LONG_MAX) as [->|]; [by destruct Hy as [_ Hy]; vm_compute in Hy|done].
Qed.

Section Names.

Context (other : list Z -> tm -> list Z) (localSecs : Z -> list Z).

Lemma expand_kept ut us c r : c <> 102 -> isdigit c = false -> c <> 115 ->
  expandFormat localSecs ut us (PCT :: c :: r) = PCT :: expandFormat localSecs ut us (c :: r).
Proof.
  intros H1 H2 H3. change (expandFormat localSecs ut us (PCT :: c :: r)) with
    (if c =? 102 then usecDigits 3 us ++ expandFormat localSecs ut us r
     else match r with
          | c2 :: r2 =>
              if isdigit c && (c2 =? 102) then usecDigits (Z.min (c - 48) 6) us ++ expandFormat localSecs ut us r2
              else if c =? 115 then localSecs ut ++ expandFormat localSecs ut us r else PCT :: expandFormat localSecs ut us (c :: r)
          | [] => if c =? 115 then localSecs ut ++ expandFormat localSecs ut us r else PCT :: expandFormat localSecs ut us (c :: r)
          end).
  rewrite H2. destruct (Z.eqb_spec c 102), (Z.eqb_spec c 115); try done. by destruct r.
Qed.

Lemma expand_render ut us ts : forall k, in_order k ts -> expandFormat localSecs ut us (render ts) = render ts.
Proof.
  induction ts as [|[c|j] ts IH]; intros k; cbn [in_order render flat_map app]; [done|fold (render ts)..].
  - intros [Hc H]. cbn [expandFormat]. destruct (Z.eqb_spec c PCT); [done|]. cbn. by rewrite (IH k).
  - intros (-> & Hk & H). specialize (IH (S k) H).
    rewrite expand_kept; [|clear -Hk; do 6 (destruct k as [|k]; [done|]); lia..].
    f_equal. cbn [expandFormat]. rewrite IH. do 6 (destruct k as [|k]; [done|]). lia.
Qed.

Lemma strftime_render x ts : forall k, valid_tm x -> 1000 <= tm_year x + 1900 <= 9999 -> in_order k ts ->
  strftime other x (render ts) = name_of (tm_fields x) ts.
Proof.
  induction ts as [|[c|j] ts IH]; intros k Hx Hy; cbn [in_order render name_of flat_map app]; [done|fold (render ts) (name_of (tm_fields x) ts)..].
  - intros [Hc H]. cbn [strftime]. destruct (Z.eqb_spec c PCT); [done|]. cbn. by rewrite (IH k).
  - intros (-> & Hk & H). specialize (IH (S k) Hx Hy H). cbn [strftime]. rewrite Z.eqb_refl. cbn [negb].
    assert ((field_code k =? 69) || (field_code k =? 79) = false) as -> by (clear -Hk; do 6 (destruct k as [|k]; [done|]); lia).
    rewrite IH. f_equal. clear IH H. unfold conversion.
    destruct k as [|k]; [cbn -[dec pad]; destruct (Z.ltb_spec (tm_year x + 1900) 0); [lia|by rewrite dec_pad4]|].
    do 5 (destruct k as [|k]; [done|]). lia.
Qed.

Lemma tm_fields_range x : valid_tm x -> 1000 <= tm_year x + 1900 <= 9999 ->
  forall j, 0 <= nth j (tm_fields x) 0 < 10 ^ Z.of_nat (field_width j).
Proof.
  intros (?&?&?&?&?) Hy j. do 6 (destruct j as [|j]; [cbn; lia|]). destruct j; cbn; lia.
Qed.

Lemma format_name t ts : year_ok t -> in_order 0 ts ->
  format other localSecs t (render ts) = name_of (tm_fields (gmtime (t / USECS_PER_SEC))) ts.
Proof.
  intros [Hs Hy] Ho. unfold format, isSetTime, isMin, isMax in *. destruct (t =? LONG_LONG_MIN), (t =? LONG_LONG_MAX); try done.
  rewrite earlier_secs, (expand_render _ _ _ 0) by done. by apply (strftime_render _ _ 0); [apply gmtime_valid| |].
Qed.

Lemma names_lt t t' ts : year_ok t -> year_ok t' -> in_order 0 ts -> t / USECS_PER_SEC < t' / USECS_PER_SEC ->
  let name x := format other localSecs x (render ts) in
  lexlt (name t') (name t) = false /\ (all_fields ts -> lexlt (name t) (name t') = true).
Proof.
  intros Y Y' Ho H name. unfold name. rewrite !format_name by done. destruct Y as [_ Y], Y' as [_ Y'].
  destruct (name_order (tm_fields (gmtime (t / USECS_PER_SEC))) (tm_fields (gmtime (t' / USECS_PER_SEC))) ts 0) as [H1 H2];
    [by apply tm_fields_range; [apply gmtime_valid|]..|done|done|done|lia|by rewrite !drop_0; apply gmtime_mono|].
  split; [done|]. intros Ha. apply H2. intros j Hj. apply Ha. lia.
Qed.

Lemma names_le t t' ts : year_ok t -> year_ok t' -> in_order 0 ts -> t <= t' ->
  lexlt (format other localSecs t' (render ts)) (format other localSecs t (render ts)) = false.
Proof.
  intros Y Y' Ho H. assert (Hs : t / USECS_PER_SEC <= t' / USECS_PER_SEC) by (apply Z.div_le_mono; [done|lia]).
  destruct (Z.eq_dec (t / USECS_PER_SEC) (t' / USECS_PER_SEC)) as [E|N].
  - rewrite !format_name, E by done. apply lexlt_irrefl.
  - by apply names_lt; [..|lia].
Qed.

End Names.

(** ** Properties *)

(** Round trip: the fields [toTm] gives are in their ranges, and
    [fromTm] gives the time back from the fields and the microseconds, from
    the month and day as well as from the day of the year, whatever the time
    zone. *)
Theorem tm_round_trip timezone t :
  let '(x, us) := toTm t in
  valid_tm x /\ 0 <= us < USECS_PER_SEC /\ fromTm timezone x us = t /\
  fromTm timezone (mkTm (tm_sec x) (tm_min x) (tm_hour x) 0 (-1) (tm_year x) (tm_yday x)) us = t.
Proof.
  unfold toTm. rewrite earlier_secs, earlier_floor by done. set (s := t / USECS_PER_SEC).
  pose proof (gmtime_valid s) as Hv. pose proof (Z.mod_pos_bound t USECS_PER_SEC eq_refl). pose proof (Z.div_mod t USECS_PER_SEC ltac:(done)).
  split; [done|]. split; [lia|]. pose proof (mktime_gmtime timezone s) as Hm. split.
  - unfold fromTm. destruct Hv as (_ & _ & _ & ? & ?). destruct (Z.ltb_spec (tm_mon (gmtime s)) 0), (Z.ltb_spec (tm_mday (gmtime s)) 1); try lia.
    rewrite andb_false_r, Hm. lia.
  - pose proof (gmtime_yday s) as Hd. pose proof (year_of_spec (s / SECS_PER_DAY + EPOCH_DAYS)) as Hy.
    assert (Ey : tm_year (gmtime s) + 1900 = year_of (s / SECS_PER_DAY + EPOCH_DAYS)).
    { unfold gmtime. destruct (month_of _ _). cbn. lia. }
    assert (Hyd : 0 <= tm_yday (gmtime s)) by (rewrite Hd, Ey; lia).
    unfold fromTm. cbn [tm_yday tm_mon tm_mday tm_sec tm_min tm_hour tm_year]. destruct (Z.leb_spec 0 (tm_yday (gmtime s))); [|lia].
    cbn [Z.ltb andb orb]. change (-1 <? 0) with true. cbn [orb]. unfold mktime. cbn [tm_yday tm_mon tm_mday tm_sec tm_min tm_hour tm_year].
    change (0 / 12) with 0. change (days_of_months _) with 0. rewrite !Z.add_0_r, Hd.
    assert (Hh : tm_hour (gmtime s) * 3600 + tm_min (gmtime s) * 60 + tm_sec (gmtime s) = s mod SECS_PER_DAY).
    { unfold gmtime. destruct (month_of _ _). cbn. unfold SECS_PER_DAY. dlia. }
    pose proof (Z.div_mod s SECS_PER_DAY ltac:(done)). subst s. unfold SECS_PER_DAY, USECS_PER_SEC in *. lia.
Qed.

(** The names of files sort by time: a pattern of literal characters and
    the fields [%Y], [%m], [%d], [%H], [%M], [%S] in this order gives names
    whose order as strings is that of the times, up to the last field; with
    all six fields, times of different seconds have different names. *)
Theorem names_sort_by_time other localSecs ts t t' :
  in_order 0 ts -> year_ok t -> year_ok t' -> t <= t' ->
  let name x := format other localSecs x (render ts) in
  lexlt (name t') (name t) = false /\
  (all_fields ts -> t / USECS_PER_SEC < t' / USECS_PER_SEC -> lexlt (name t) (name t') = true).
Proof.
  intros Ho Y Y' H name. split; [by apply names_le|]. intros Ha Hs. by apply names_lt.
Qed.

Lemma names_sort_by_time_witness :
  let ts := [Fld 0; Fld 1; Fld 2; Lit 95; Fld 3; Fld 4; Fld 5; Lit 46; Lit 100; Lit 97; Lit 116] in
  let name x := format (fun _ _ => []) (fun _ => []) x (render ts) in
  render ts = bytes_of "%Y%m%d_%H%M%S.dat" /\
  name 1582979696123456 = bytes_of "20200229_123456.dat" /\ name 1583020800000000 = bytes_of "20200301_000000.dat" /\
  lexlt (name 1582979696123456) (name 1583020800000000) = true.
Proof.
  intros ts name. split; [vm_compute; reflexivity|]. split; [vm_compute; reflexivity|]. split; [vm_compute; reflexivity|].
  apply (names_sort_by_time (fun _ _ => []) (fun _ => []) ts 1582979696123456 1583020800000000); [| | |lia| |].
  - cbn. repeat split; try lia; discriminate.
  - split; [reflexivity|vm_compute; split; discriminate].
  - split; [reflexivity|vm_compute; split; discriminate].
  - intros k Hk. subst ts. do 6 (destruct k as [|k]; [repeat first [left | right]|]). lia.
  - vm_compute. reflexivity.
Defined.

(** For a whole number of intervals before 1970, [pmod] gives the interval,
    not 0. *)
Lemma pmod_whole_day n : 0 < n -> pmod (- (n * USECS_PER_DAY)) USECS_PER_DAY = USECS_PER_DAY.
Proof.
  intros H. unfold pmod. destruct (Z.ltb_spec (- (n * USECS_PER_DAY)) 0); [|mlia].
  rewrite Z.rem_opp_l, Z.rem_mul by done. lia.
Qed.

(** The second percent sign of an escaped one starts a conversion. *)
Example escaped_percent_expanded :
  expandFormat (fun _ => []) 0 123456 (bytes_of "%%f") = bytes_of "%123".
Proof. vm_compute. reflexivity. Qed.
