(* ===== verification/BitArray.v ===== *)
(** * Arrays of bits.

    [src/src/nidas/util/BitArray.cc] and [BitArray.h]: the array keeps its
    length in bits and in bytes separately (assignment can leave more bytes
    than the bits need).  A write outside the allocated bytes is an error
    ([None]) in the model. *)

From S2P Require Import Prelude.

Record BitArray := mkBitArray {
  bits : list Z;       (** the allocated bytes *)
  lenBits : Z
}.

Definition lenBytes (a : BitArray) : Z := zlen (bits a).

Definition byteAt (a : BitArray) (i : Z) : Z := nth (Z.to_nat i) (bits a) 0.

(** ** Single bits *)

Definition setBit (num : Z) (value : bool) (a : BitArray) : BitArray :=
  if (num <? 0) || (lenBits a <=? num) then a
  else
    let old := byteAt a (num / 8) in
    let new := if value then Z.lor old (Z.shiftl 1 (num mod 8))
               else Z.ldiff old (Z.shiftl 1 (num mod 8)) in
    mkBitArray (<[Z.to_nat (num / 8) := u8 new]> (bits a)) (lenBits a).

Definition getBit (num : Z) (a : BitArray) : bool :=
  if lenBits a <=? num then false
  else negb (Z.land (byteAt a (num / 8)) (Z.shiftl 1 (num mod 8)) =? 0).

(** ** Construction and assignment *)

(** [setBits(value)]: all bytes, then the loop meant to clear the bits past
    the end. *)
Definition setAll (value : bool) (a : BitArray) : BitArray :=
  let a1 := mkBitArray (replicate (length (bits a)) (if value then 255 else 0)) (lenBits a) in
  if value && negb (lenBits a mod 8 =? 0) then
    foldl (fun a i => setBit i false a) a1
      (map (fun k => lenBits a + Z.of_nat k) (seq 0 (Z.to_nat (lenBytes a * 8 - lenBits a))))
  else a1.

Definition newBitArray (lenbits : Z) : BitArray :=
  setAll false (mkBitArray (replicate (Z.to_nat ((lenbits + 7) / 8)) 0) lenbits).

(** [operator=]: the bytes grow if necessary and never shrink. *)
Definition assign (a b : BitArray) : BitArray :=
  mkBitArray (bits b ++ replicate (length (bits a) - length (bits b)) 0) (lenBits b).

(** ** Fields of bits *)

Definition clipEnd (width begin fin : Z) (a : BitArray) : Z :=
  Z.min (Z.min fin (begin + width)) (lenBits a).

(** [setBits(begin,end,bitmask)]: [mask <<= 1] in an [unsigned int]. *)
Fixpoint setBits_loop (n : nat) (i mask bitmask : Z) (a : BitArray) : BitArray :=
  match n with
  | O => a
  | S n => setBits_loop n (i + 1) (u32 (Z.shiftl mask 1)) bitmask
             (setBit i (negb (Z.land mask bitmask =? 0)) a)
  end.

Definition setBits (begin fin bitmask : Z) (a : BitArray) : BitArray :=
  setBits_loop (Z.to_nat (clipEnd 32 begin fin a - begin)) begin 1 bitmask a.

(** The mask is an [unsigned int] here too. *)
Definition setBits64 (begin fin bitmask : Z) (a : BitArray) : BitArray :=
  setBits_loop (Z.to_nat (clipEnd 64 begin fin a - begin)) begin 1 bitmask a.

(** [res <<= 8; res |= byte] from the highest byte, in [w] bits. *)
Fixpoint joinBytes (w : Z) (l : list Z) : Z :=
  match l with
  | [] => 0
  | b :: l => Z.lor (Z.shiftl (joinBytes w l) 8 mod 2 ^ w) b
  end.

(** [if (getBit(i)) res |= mask; mask <<= 1] *)
Fixpoint getBits_loop (w : Z) (n : nat) (i mask res : Z) (a : BitArray) : Z :=
  match n with
  | O => res
  | S n => getBits_loop w n (i + 1) (Z.shiftl mask 1 mod 2 ^ w)
             (if getBit i a then Z.lor res mask else res) a
  end.

Definition getBits_w (w begin fin : Z) (a : BitArray) : Z :=
  let fin := clipEnd w begin fin a in
  if fin <=? begin then 0
  else if begin mod 8 =? 0 then
    let nb := (fin - begin + 7) / 8 in
    let bmask := if fin mod 8 =? 0 then 255 else Z.shiftr 255 (8 - fin mod 8) in
    let bytes := take (Z.to_nat nb) (drop (Z.to_nat (begin / 8)) (bits a)) in
    joinBytes w (take (Z.to_nat nb - 1) bytes ++
                 map (Z.land bmask) (drop (Z.to_nat nb - 1) bytes))
  else getBits_loop w (Z.to_nat (fin - begin)) begin 1 0 a.

Definition getBits (begin fin : Z) (a : BitArray) : Z := getBits_w 32 begin fin a.

Definition getBits64 (begin fin : Z) (a : BitArray) : Z := s64 (getBits_w 64 begin fin a).

(** ** Comparison and bitwise operators *)

(** [for (int k = 0; k < n; k++) mask |= k << 1;] *)
Definition partialMask (n : Z) : Z :=
  foldl (fun mask k => u8 (Z.lor mask (Z.shiftl (Z.of_nat k) 1))) 0 (seq 0 (Z.to_nat n)).

(** [lbit] and [lbyte] of two operands. *)
Definition commonLen (x y : BitArray) : Z * Z :=
  let lbit := Z.min (lenBits x) (lenBits y) in
  let lbyte := Z.min (lenBytes x) (lenBytes y) in
  (lbit, if lbit mod 8 =? 0 then lbyte else lbyte - 1).

Definition bit_eq (x y : BitArray) : bool :=
  let '(lbit, lbyte) := commonLen x y in
  bool_decide (take (Z.to_nat lbyte) (bits x) = take (Z.to_nat lbyte) (bits y)) &&
  ((lbit mod 8 =? 0) ||
   let mask := partialMask (lbit mod 8) in
   Z.land mask (byteAt x lbyte) =? Z.land mask (byteAt y lbyte)).

(** [x | y], [x & y], [x ^ y] with [op] on bytes: [None] when a byte is
    stored outside the result. *)
Definition bit_op (op : Z -> Z -> Z) (x y : BitArray) : option BitArray :=
  let '(lbit, lbyte) := commonLen x y in
  let res := newBitArray lbit in
  let whole := zip_with op (take (Z.to_nat lbyte) (bits x)) (take (Z.to_nat lbyte) (bits y)) in
  let stored := whole ++ (if lbit mod 8 =? 0 then []
     else [Z.land (partialMask (lbit mod 8)) (op (byteAt x lbyte) (byteAt y lbyte))]) in
  if zlen stored <=? lenBytes res
  then Some (mkBitArray (stored ++ drop (length stored) (bits res)) lbit)
  else None.

Definition bit_or := bit_op Z.lor.
Definition bit_and := bit_op Z.land.
Definition bit_xor := bit_op Z.lxor.

(** [x |= y], [x &= y], [x ^= y]: [opPartial mask] is what happens to the
    partial byte. *)
Definition bit_assign_op (op : Z -> Z -> Z) (opPartial : Z -> Z -> Z -> Z) (x y : BitArray) : BitArray :=
  let '(lbit, lbyte) := commonLen x y in
  let whole := zip_with op (take (Z.to_nat lbyte) (bits x)) (take (Z.to_nat lbyte) (bits y)) in
  let stored := whole ++ (if lbit mod 8 =? 0 then []
     else [opPartial (partialMask (lbit mod 8)) (byteAt x lbyte) (byteAt y lbyte)]) in
  mkBitArray (stored ++ drop (length stored) (bits x)) (lenBits x).

Definition bit_or_assign := bit_assign_op Z.lor (fun mask a b => Z.lor a (Z.land mask b)).
Definition bit_and_assign := bit_assign_op Z.land (fun mask a b => Z.land a (Z.land mask b)).
Definition bit_xor_assign := bit_assign_op Z.lxor (fun mask a b => Z.land mask (Z.lxor a b)).

(** [any(begin,end)], [all(begin,end)] *)
Definition anyBits (begin fin : Z) (a : BitArray) : bool :=
  existsb (fun k => getBit (begin + Z.of_nat k) a)
    (seq 0 (Z.to_nat (Z.min fin (lenBits a) - begin))).
Definition allBits (begin fin : Z) (a : BitArray) : bool :=
  forallb (fun k => getBit (begin + Z.of_nat k) a)
    (seq 0 (Z.to_nat (Z.min fin (lenBits a) - begin))).

(** ** Well-formed arrays *)

Definition bits_wf (a : BitArray) : Prop :=
  0 <= lenBits a <= lenBytes a * 8 /\ Forall is_byte (bits a).

Lemma newBitArray_wf n : 0 <= n -> bits_wf (newBitArray n).
Proof.
  intros Hn. unfold newBitArray, setAll, bits_wf, lenBytes. cbn [andb lenBits bits].
  rewrite length_replicate. unfold zlen. rewrite length_replicate. split; [dlia|].
  apply Forall_replicate. unfold is_byte; lia.
Qed.

Lemma land_bit x k : 0 <= k -> negb (Z.land x (Z.shiftl 1 k) =? 0) = Z.testbit x k.
Proof.
  intros Hk. destruct (Z.testbit x k) eqn:E.
  - apply negb_true_iff, Z.eqb_neq. intros H. apply (f_equal (fun z => Z.testbit z k)) in H.
    rewrite Z.land_spec, E, Z.shiftl_spec, Z.sub_diag, Z.bits_0 in H by lia. discriminate.
  - apply negb_false_iff, Z.eqb_eq. apply Z.bits_inj'. intros n Hn.
    rewrite Z.land_spec, Z.bits_0, Z.shiftl_spec by lia.
    destruct (Z.eq_dec n k) as [->|Hne]; [by rewrite E|].
    replace (Z.testbit 1 (n - k)) with false; [apply andb_false_r|].
    symmetry. destruct (Z.lt_ge_cases (n - k) 0); [by apply Z.testbit_neg_r|].
    apply (Z.bits_above_log2 1); cbn; lia.
Qed.

Lemma getBit_testbit num a : 0 <= num < lenBits a ->
  getBit num a = Z.testbit (byteAt a (num / 8)) (num mod 8).
Proof.
  intros H. unfold getBit. destruct (Z.leb_spec (lenBits a) num); [lia|].
  apply land_bit. apply Z.mod_pos_bound. lia.
Qed.

Lemma byteAt_is_byte a i : bits_wf a -> is_byte (byteAt a i).
Proof.
  intros [_ H]. unfold byteAt. destruct (lookup_lt_is_Some (bits a) (Z.to_nat i)) as [_ Hl].
  destruct (le_lt_dec (length (bits a)) (Z.to_nat i)) as [Hge|Hlt].
  - rewrite nth_overflow by done. unfold is_byte; lia.
  - destruct (Hl Hlt) as [x Hx]. rewrite (nth_lookup_Some _ _ _ _ Hx).
    rewrite Forall_forall in H. apply H. by eapply list_elem_of_lookup_2.
Qed.

Lemma setBit_byte num value a i : bits_wf a -> 0 <= num < lenBits a -> 0 <= i ->
  byteAt (setBit num value a) i =
    if i =? num / 8 then u8 (if value then Z.lor (byteAt a i) (Z.shiftl 1 (num mod 8))
                             else Z.ldiff (byteAt a i) (Z.shiftl 1 (num mod 8)))
    else byteAt a i.
Proof.
  intros [Hl _] Hn Hi. unfold setBit. destruct (Z.ltb_spec num 0); [lia|].
  destruct (Z.leb_spec (lenBits a) num); [lia|]. cbn [orb]. unfold byteAt at 1. cbn [bits].
  assert (Hlt : (Z.to_nat (num / 8) < length (bits a))%nat) by (unfold lenBytes, zlen in Hl; dlia).
  destruct (Z.eqb_spec i (num / 8)) as [->|Hne].
  - apply nth_lookup_Some. by apply list_lookup_insert_eq.
  - unfold byteAt. rewrite !nth_lookup, list_lookup_insert_ne; [done|].
    intros E. apply Hne. assert (0 <= num / 8) by dlia. lia.
Qed.

Lemma setBit_wf num value a : bits_wf a -> bits_wf (setBit num value a).
Proof.
  intros [Hl Hb]. unfold setBit. destruct (_ || _); [done|].
  unfold bits_wf, lenBytes, zlen in *. cbn [bits lenBits]. rewrite length_insert. split; [done|].
  apply Forall_insert; [done|]. unfold is_byte, u8. apply Z.mod_pos_bound. lia.
Qed.

Lemma setBit_len num value a : lenBits (setBit num value a) = lenBits a.
Proof. unfold setBit. by destruct (_ || _). Qed.

Lemma testbit_one_shift k n : 0 <= k -> 0 <= n -> Z.testbit (Z.shiftl 1 k) n = (n =? k).
Proof.
  intros Hk Hn. rewrite Z.shiftl_spec by lia. destruct (Z.eqb_spec n k) as [->|Hne].
  - by rewrite Z.sub_diag.
  - destruct (Z.lt_ge_cases (n - k) 0); [by apply Z.testbit_neg_r|].
    apply (Z.bits_above_log2 1); cbn; lia.
Qed.

(** A bit after [setBit]. *)
Lemma getBit_setBit num value a k : bits_wf a -> 0 <= num < lenBits a -> 0 <= k < lenBits a ->
  getBit k (setBit num value a) = if k =? num then value else getBit k a.
Proof.
  intros Hw Hn Hk. rewrite !getBit_testbit by (rewrite ?setBit_len; lia).
  rewrite setBit_byte by (done || dlia).
  assert (Hm : 0 <= k mod 8 < 8 /\ 0 <= num mod 8 < 8) by (split; apply Z.mod_pos_bound; lia).
  destruct (Z.eqb_spec (k / 8) (num / 8)) as [Eb|Eb].
  - unfold u8. rewrite Z.mod_pow2_bits_low by lia.
    destruct (Z.eqb_spec k num) as [->|Hne].
    + destruct value; [rewrite Z.lor_spec|rewrite Z.ldiff_spec]; rewrite testbit_one_shift, Z.eqb_refl by lia;
        [apply orb_true_r|apply andb_false_r].
    + assert (k mod 8 <> num mod 8) by (intros E; apply Hne; rewrite (Z.div_mod k 8), (Z.div_mod num 8) by lia; lia).
      destruct value; [rewrite Z.lor_spec|rewrite Z.ldiff_spec]; rewrite testbit_one_shift by lia;
        destruct (Z.eqb_spec (k mod 8) (num mod 8)); try done; [apply orb_false_r|apply andb_true_r].
  - by destruct (Z.eqb_spec k num) as [->|].
Qed.

(** ** Fields *)

(** [mask] after [j] doublings in [w] bits. *)
Definition maskAt (w j : Z) : Z := if j <? w then 2 ^ j else 0.

Lemma maskAt_S w j : 0 < w -> 0 <= j -> Z.shiftl (maskAt w j) 1 mod 2 ^ w = maskAt w (j + 1).
Proof.
  intros Hw Hj. unfold maskAt. rewrite Z.shiftl_mul_pow2 by lia.
  destruct (Z.ltb_spec j w); [|destruct (Z.ltb_spec (j + 1) w); [lia|done]].
  rewrite <- Z.pow_add_r by lia. destruct (Z.ltb_spec (j + 1) w).
  - apply Z.mod_small. split; [apply Z.pow_nonneg; lia|]. apply Z.pow_lt_mono_r; lia.
  - replace (j + 1) with w by lia. apply Z_mod_same_full.
Qed.

Lemma land_maskAt w j v : 0 <= j -> negb (Z.land (maskAt w j) v =? 0) = (j <? w) && Z.testbit v j.
Proof.
  intros Hj. unfold maskAt. destruct (j <? w); [|done]. cbn [andb].
  rewrite Z.land_comm, <- (Z.mul_1_l (2 ^ j)), <- Z.shiftl_mul_pow2 by lia. by apply land_bit.
Qed.

Lemma setBits_loop_spec v n : forall i j a,
  bits_wf a -> 0 <= i -> i + Z.of_nat n <= lenBits a -> 0 <= j ->
  let a' := setBits_loop n i (maskAt 32 j) v a in
  bits_wf a' /\ lenBits a' = lenBits a /\
  forall k, 0 <= k < lenBits a -> getBit k a' =
    if (i <=? k) && (k <? i + Z.of_nat n) then (j + (k - i) <? 32) && Z.testbit v (j + (k - i)) else getBit k a.
Proof.
  induction n as [|n IH]; intros i j a Hw Hi Hl Hj; cbn [setBits_loop].
  - split; [done|]. split; [done|]. intros k Hk.
    destruct (Z.leb_spec i k), (Z.ltb_spec k (i + Z.of_nat 0)); cbn [andb]; try done; lia.
  - unfold u32. rewrite maskAt_S, land_maskAt by lia.
    set (a1 := setBit i _ a).
    assert (Hl1 : lenBits a1 = lenBits a) by apply setBit_len.
    destruct (IH (i + 1) (j + 1) a1) as (W & L & G); [by apply setBit_wf | lia | rewrite Hl1; lia | lia |].
    split; [done|]. split; [congruence|]. intros k Hk. rewrite G by (rewrite Hl1; lia).
    unfold a1. rewrite getBit_setBit by (done || lia).
    destruct (Z.leb_spec (i + 1) k), (Z.ltb_spec k (i + 1 + Z.of_nat n)), (Z.leb_spec i k),
      (Z.ltb_spec k (i + Z.of_nat (S n))), (Z.eqb_spec k i); cbn [andb]; try lia; try done.
    + do 2 f_equal; lia.
    + subst k. replace (j + (i - i)) with j by lia. done.
Qed.

Lemma joinBytes_bits w l k : 8 <= w -> Forall is_byte l -> 0 <= k ->
  Z.testbit (joinBytes w l) k = (k <? w) && Z.testbit (nth (Z.to_nat (k / 8)) l 0) (k mod 8).
Proof.
  intros Hw Hl. revert k. induction Hl as [|b l Hb _ IH]; intros k Hk; cbn [joinBytes].
  - rewrite Z.bits_0. destruct (Z.to_nat (k / 8)); cbn; by rewrite Z.bits_0, andb_false_r.
  - rewrite Z.lor_spec.
    assert (Hbk : 8 <= k -> Z.testbit b k = false).
    { intros H8. unfold is_byte in Hb. rewrite <- (Z.mod_small b (2 ^ 8)) by lia.
      apply Z.mod_pow2_bits_high. lia. }
    destruct (Z.lt_ge_cases k 8) as [H8|H8].
    + rewrite (Z.div_small k 8), (Z.mod_small k 8) by lia. cbn [nth Z.to_nat].
      destruct (Z.ltb_spec k w); [|lia]. cbn [andb].
      rewrite Z.mod_pow2_bits_low, Z.shiftl_spec_low by lia. done.
    + rewrite Hbk, orb_false_r by done. destruct (Z.ltb_spec k w) as [Hkw|Hkw]; cbn [andb].
      * rewrite Z.mod_pow2_bits_low, Z.shiftl_spec_high, IH by lia.
        replace (k / 8) with ((k - 8) / 8 + 1) by dlia.
        replace (k mod 8) with ((k - 8) mod 8) by dlia.
        destruct (Z.ltb_spec (k - 8) w); [|lia]. cbn [andb].
        replace (Z.to_nat ((k - 8) / 8 + 1)) with (S (Z.to_nat ((k - 8) / 8))) by dlia. done.
      * apply Z.mod_pow2_bits_high. lia.
Qed.

Lemma getBits_loop_spec w a n : forall i j res k,
  0 < w -> 0 <= j -> 0 <= k ->
  Z.testbit (getBits_loop w n i (maskAt w j) res a) k =
    Z.testbit res k || ((j <=? k) && (k <? j + Z.of_nat n) && (k <? w) && getBit (i + (k - j)) a).
Proof.
  induction n as [|n IH]; intros i j res k Hw Hj Hk; cbn [getBits_loop].
  - destruct (Z.leb_spec j k), (Z.ltb_spec k (j + Z.of_nat 0)); cbn [andb]; try lia; by rewrite orb_false_r.
  - rewrite maskAt_S, IH by lia.
    assert (Hres : Z.testbit (if getBit i a then Z.lor res (maskAt w j) else res) k =
              Z.testbit res k || ((k =? j) && (k <? w) && getBit i a)).
    { destruct (getBit i a); [|by rewrite andb_false_r, orb_false_r].
      rewrite Z.lor_spec, andb_true_r. f_equal. unfold maskAt. destruct (Z.ltb_spec j w).
      - rewrite Z.pow2_bits_eqb, Z.eqb_sym by lia. destruct (Z.eqb_spec k j); [|done].
        destruct (Z.ltb_spec k w); [done|lia].
      - rewrite Z.bits_0. destruct (Z.eqb_spec k j), (Z.ltb_spec k w); try done. lia. }
    rewrite Hres, <- orb_assoc. f_equal.
    destruct (Z.eqb_spec k j) as [->|Hne].
    + destruct (Z.leb_spec (j + 1) j); [lia|]. cbn [andb]. rewrite orb_false_r, Z.leb_refl.
      destruct (Z.ltb_spec j (j + Z.of_nat (S n))); [|lia]. cbn [andb].
      by replace (i + (j - j)) with i by lia.
    + cbn [andb orb]. destruct (Z.leb_spec (j + 1) k), (Z.leb_spec j k); cbn [andb]; try lia; try done.
      replace (j + 1 + Z.of_nat n) with (j + Z.of_nat (S n)) by lia.
      by replace (i + 1 + (k - (j + 1))) with (i + (k - j)) by lia.
Qed.

(** The bytes the aligned case joins. *)
Lemma aligned_nth a first nb bmask q :
  (first + nb <= length (bits a))%nat -> (1 <= nb)%nat ->
  let bytes := take nb (drop first (bits a)) in
  nth q (take (nb - 1) bytes ++ map (Z.land bmask) (drop (nb - 1) bytes)) 0 =
    if decide (q < nb - 1)%nat then nth (first + q) (bits a) 0
    else if decide (q = nb - 1)%nat then Z.land bmask (nth (first + q) (bits a) 0) else 0.
Proof.
  intros Hl Hn. cbn zeta.
  assert (Hlen : length (take nb (drop first (bits a))) = nb) by (rewrite length_take, length_drop; lia).
  assert (Hnth : forall r, (r < nb)%nat -> nth r (take nb (drop first (bits a))) 0 = nth (first + r) (bits a) 0).
  { intros r Hr. rewrite !nth_lookup, lookup_take_lt, lookup_drop by lia. done. }
  case_decide as H1.
  - rewrite app_nth1 by (rewrite length_take; lia). rewrite <- Hnth by lia.
    rewrite !nth_lookup. by rewrite lookup_take_lt by lia.
  - rewrite app_nth2 by (rewrite length_take; lia). rewrite length_take, Hlen, Nat.min_l by lia.
    case_decide as H2.
    + subst q. rewrite Nat.sub_diag, <- Hnth by lia.
      destruct (drop (nb - 1) (take nb (drop first (bits a)))) as [|x l] eqn:E.
      * apply (f_equal length) in E. rewrite length_drop, Hlen in E. cbn in E. lia.
      * cbn. f_equal. assert (Hx : take nb (drop first (bits a)) !! (nb - 1)%nat = Some x)
          by (rewrite <- (Nat.add_0_r (nb - 1)), <- lookup_drop, E; done).
        by rewrite (nth_lookup_Some _ _ _ _ Hx).
    + apply nth_overflow. rewrite length_map, length_drop, Hlen. lia.
Qed.

Lemma land_byte b c : is_byte b -> 0 <= c -> is_byte (Z.land c b).
Proof.
  unfold is_byte. intros Hb Hc. split; [apply Z.land_nonneg; lia|].
  destruct (Z.eq_dec (Z.land c b) 0) as [->|Hne]; [lia|].
  apply Z.log2_lt_cancel. apply Z.le_lt_trans with (Z.min (Z.log2 c) (Z.log2 b)); [by apply Z.log2_land; lia|].
  apply Z.le_lt_trans with (Z.log2 b); [lia|]. destruct (Z.eq_dec b 0) as [->|]; [cbn; lia|].
  apply Z.le_lt_trans with 7; [apply Z.lt_succ_r, Z.log2_lt_pow2; lia|cbn; lia].
Qed.

(** The mask for the last byte keeps its low bits. *)
Lemma bmask_bits fin k b : 0 <= fin -> 0 <= k < 8 ->
  Z.testbit (Z.land (if fin mod 8 =? 0 then 255 else Z.shiftr 255 (8 - fin mod 8)) b) k =
  ((fin mod 8 =? 0) || (k <? fin mod 8)) && Z.testbit b k.
Proof.
  intros Hf Hk. assert (Hm : 0 <= fin mod 8 < 8) by (apply Z.mod_pos_bound; lia).
  rewrite Z.land_spec. f_equal. destruct (fin mod 8 =? 0) eqn:E; cbn [orb].
  - change 255 with (Z.ones 8). rewrite Z.testbit_ones_nonneg by lia. apply Z.ltb_lt. lia.
  - apply Z.eqb_neq in E. rewrite Z.shiftr_spec by lia. change 255 with (Z.ones 8).
    rewrite Z.testbit_ones_nonneg by lia. destruct (Z.ltb_spec k (fin mod 8)); [apply Z.ltb_lt|apply Z.ltb_ge]; lia.
Qed.

(** The bits of [getBits]: both its cases agree with the single bits. *)
Lemma getBits_w_bits w begin fin a k :
  8 <= w -> bits_wf a -> 0 <= begin -> 0 <= k ->
  Z.testbit (getBits_w w begin fin a) k =
    (k <? clipEnd w begin fin a - begin) && getBit (begin + k) a.
Proof.
  intros Hw Ha Hb Hk. unfold getBits_w. set (f := clipEnd w begin fin a).
  assert (Hf : f <= begin + w /\ f <= lenBits a) by (unfold f, clipEnd; lia).
  destruct (Z.leb_spec f begin) as [Hle|Hlt].
  { rewrite Z.bits_0. destruct (Z.ltb_spec k (f - begin)); [lia|done]. }
  destruct (Z.eqb_spec (begin mod 8) 0) as [Hal|Hal].
  - set (nb := (f - begin + 7) / 8).
    assert (Hnb : 1 <= nb /\ begin / 8 + nb <= lenBytes a /\ 8 * (nb - 1) < f - begin <= 8 * nb).
    { destruct Ha as [Hl _]. subst nb. split; [dlia|]. split; [|dlia]. clearbody f. dlia. }
    unfold lenBytes, zlen in Hnb.
    assert (H8 : 0 <= k mod 8 < 8) by (apply Z.mod_pos_bound; lia).
    assert (Hfin : (f - begin) mod 8 = f mod 8) by (clearbody f; dlia).
    assert (Hbyte : forall x, x ∈ bits a -> is_byte x) by (destruct Ha as [_ Hall]; by rewrite Forall_forall in Hall).
    rewrite joinBytes_bits; [|lia| |lia].
    2: { apply Forall_app. split.
         - apply Forall_take, Forall_take, Forall_drop. apply Ha.
         - apply Forall_map, Forall_drop, Forall_take, Forall_drop. eapply Forall_impl; [apply Ha|].
           intros x Hx. apply land_byte; [done|]. destruct (_ =? 0); [lia|]. apply Z.shiftr_nonneg. lia. }
    rewrite (aligned_nth a (Z.to_nat (begin / 8)) (Z.to_nat nb)) by (clearbody nb; dlia).
    assert (Hpos : Z.testbit (nth (Z.to_nat (begin / 8) + Z.to_nat (k / 8)) (bits a) 0) (k mod 8) =
              Z.testbit (byteAt a ((begin + k) / 8)) ((begin + k) mod 8)).
    { unfold byteAt. f_equal; [f_equal; dlia|dlia]. }
    assert (Hget : k < f - begin -> getBit (begin + k) a =
              Z.testbit (byteAt a ((begin + k) / 8)) ((begin + k) mod 8))
      by (intros; apply getBit_testbit; lia).
    destruct (Z.ltb_spec k (f - begin)) as [Hin|Hout]; cbn [andb].
    + rewrite Hget by lia. destruct (Z.ltb_spec k w); [|lia]. cbn [andb]. rewrite <- Hpos.
      case_decide as D1; [done|]. case_decide as D2; [|clearbody nb; dlia].
      rewrite bmask_bits by lia. destruct (Z.eqb_spec (f mod 8) 0); cbn [orb andb]; [done|].
      destruct (Z.ltb_spec (k mod 8) (f mod 8)); [done|]. exfalso. clearbody nb f. dlia.
    + destruct (k <? w); [|done]. cbn [andb].
      case_decide as D1; [exfalso; clearbody nb; dlia|]. case_decide as D2; [|by rewrite Z.bits_0].
      rewrite bmask_bits by lia. destruct (Z.eqb_spec (f mod 8) 0); cbn [orb andb]; [exfalso; clearbody nb f; dlia|].
      destruct (Z.ltb_spec (k mod 8) (f mod 8)); [|done]. exfalso. clearbody nb f. dlia.
  - replace (getBits_loop w (Z.to_nat (f - begin)) begin 1 0 a)
      with (getBits_loop w (Z.to_nat (f - begin)) begin (maskAt w 0) 0 a)
      by (unfold maskAt; destruct (Z.ltb_spec 0 w); [done|lia]).
    rewrite getBits_loop_spec by lia. rewrite Z.bits_0. cbn [orb].
    destruct (Z.leb_spec 0 k); [|lia]. cbn [andb]. rewrite Z.sub_0_r.
    destruct (Z.ltb_spec k (0 + Z.of_nat (Z.to_nat (f - begin)))), (Z.ltb_spec k (f - begin)); cbn [andb]; try lia; try done.
    destruct (Z.ltb_spec k w); [done|lia].
Qed.

(** A whole byte of the two operands. *)
Lemma byteAt_zip (op : Z -> Z -> Z) x y n i l :
  (Z.to_nat i < n)%nat -> (n <= length (bits x))%nat -> (n <= length (bits y))%nat ->
  byteAt (mkBitArray (zip_with op (take n (bits x)) (take n (bits y)) ++ l) (lenBits x)) i =
  op (byteAt x i) (byteAt y i).
Proof.
  intros Hi Hx Hy. unfold byteAt. cbn [bits].
  rewrite app_nth1 by (rewrite length_zip_with, !length_take; lia).
  destruct (lookup_lt_is_Some_2 (bits x) (Z.to_nat i) ltac:(lia)) as [u Hu].
  destruct (lookup_lt_is_Some_2 (bits y) (Z.to_nat i) ltac:(lia)) as [v Hv].
  rewrite (nth_lookup_Some _ _ _ _ Hu), (nth_lookup_Some _ _ _ _ Hv).
  apply nth_lookup_Some. rewrite lookup_zip_with, !lookup_take_lt, Hu, Hv by lia. done.
Qed.

(** ** Properties *)

(** [getBits] is the field of bits, whether it is read byte by byte
    (aligned start) or bit by bit: bit [k] of the result is bit [begin + k]
    of the array, up to the end, 32 bits and the length of the array. *)
Theorem getBits_field begin fin a k :
  bits_wf a -> 0 <= begin -> 0 <= k ->
  Z.testbit (getBits begin fin a) k =
    (k <? Z.min (Z.min fin (begin + 32)) (lenBits a) - begin) && getBit (begin + k) a.
Proof. intros. by apply getBits_w_bits. Qed.

(** What [setBits] writes, [getBits] reads back, in the part of the
    field inside the array; all other bits keep their value. *)
Theorem setBits_getBits begin fin v a :
  bits_wf a -> 0 <= begin -> 0 <= v < 2 ^ 32 ->
  let e := Z.min (Z.min fin (begin + 32)) (lenBits a) in
  begin <= e ->
  getBits begin fin (setBits begin fin v a) = v mod 2 ^ (e - begin) /\
  (forall k, 0 <= k < lenBits a -> ~ (begin <= k < e) ->
     getBit k (setBits begin fin v a) = getBit k a) /\
  bits_wf (setBits begin fin v a).
Proof.
  intros Hw Hb Hv e He. change e with (clipEnd 32 begin fin a) in *. clear e.
  set (e := clipEnd 32 begin fin a) in *.
  assert (Hc : e <= begin + 32 /\ e <= lenBits a) by (unfold e, clipEnd; lia).
  destruct (setBits_loop_spec v (Z.to_nat (e - begin)) begin 0 a Hw Hb) as (W & L & G); [lia|lia|].
  change (setBits_loop (Z.to_nat (e - begin)) begin (maskAt 32 0) v a) with (setBits begin fin v a) in *.
  split; [|split; [|done]].
  - apply Z.bits_inj'. intros k Hk. unfold getBits. rewrite getBits_w_bits by (done || lia).
    assert (Ee : clipEnd 32 begin fin (setBits begin fin v a) = e) by (unfold clipEnd, e; by rewrite L).
    rewrite Ee. destruct (Z.ltb_spec k (e - begin)) as [Hin|Hout]; cbn [andb].
    + rewrite Z.mod_pow2_bits_low, G by lia.
      destruct (Z.leb_spec begin (begin + k)), (Z.ltb_spec (begin + k) (begin + Z.of_nat (Z.to_nat (e - begin)))); try lia.
      cbn [andb]. replace (0 + (begin + k - begin)) with k by lia. destruct (Z.ltb_spec k 32); [done|lia].
    + symmetry. apply Z.mod_pow2_bits_high. lia.
  - intros k Hk Hout. rewrite G by lia.
    destruct (Z.leb_spec begin k), (Z.ltb_spec k (begin + Z.of_nat (Z.to_nat (e - begin)))); cbn [andb]; try done. lia.
Qed.

(** [setBits64] never sets a bit beyond the first 32 of its field: its
    mask is a 32-bit integer, and the later bits are cleared instead. *)
Theorem setBits64_clears_high_bits begin fin v a k :
  bits_wf a -> 0 <= begin -> 32 <= k -> begin + k < Z.min (Z.min fin (begin + 64)) (lenBits a) ->
  getBit (begin + k) (setBits64 begin fin v a) = false.
Proof.
  intros Hw Hb Hk He. change (Z.min _ _) with (clipEnd 64 begin fin a) in He. unfold setBits64.
  assert (Hc : clipEnd 64 begin fin a <= lenBits a) by (unfold clipEnd; lia).
  destruct (setBits_loop_spec v (Z.to_nat (clipEnd 64 begin fin a - begin)) begin 0 a Hw Hb) as (_ & _ & G); [lia|lia|].
  change (maskAt 32 0) with 1 in G. rewrite G by lia.
  destruct (Z.leb_spec begin (begin + k)); [|lia].
  destruct (Z.ltb_spec (begin + k) (begin + Z.of_nat (Z.to_nat (clipEnd 64 begin fin a - begin)))); [|lia].
  cbn [andb]. destruct (Z.ltb_spec (0 + (begin + k - begin)) 32); [lia|done].
Qed.

(** The bitwise operators work on arrays of whole bytes: for operands
    whose common length is a multiple of eight, with no spare bytes, every
    bit of the result is the operator applied to the operands' bits, and two
    such arrays of equal length compare equal exactly when their bits do. *)
Theorem bit_operators_whole_bytes (op : Z -> Z -> Z) (bop : bool -> bool -> bool) x y :
  (forall a b k, Z.testbit (op a b) k = bop (Z.testbit a k) (Z.testbit b k)) ->
  bits_wf x -> bits_wf y -> lenBits x = lenBytes x * 8 -> lenBits y = lenBits x -> lenBytes y = lenBytes x ->
  (exists r, bit_op op x y = Some r /\ lenBits r = lenBits x /\
     forall k, 0 <= k < lenBits x -> getBit k r = bop (getBit k x) (getBit k y)) /\
  (bit_eq x y = true <-> bits x = bits y).
Proof.
  intros Hop Hx Hy Elx Ely Eby.
  assert (Hmod : (Z.min (lenBits x) (lenBits y) mod 8 =? 0) = true)
    by (apply Z.eqb_eq; rewrite Ely, Z.min_id, Elx; apply Z_mod_mult).
  assert (Enat : length (bits y) = length (bits x)) by (unfold lenBytes, zlen in Eby; lia).
  assert (Hnew : lenBytes (newBitArray (lenBits x)) = lenBytes x).
  { unfold newBitArray, setAll, lenBytes. cbn [andb bits]. unfold zlen.
    rewrite !length_replicate. rewrite Elx. unfold lenBytes, zlen. dlia. }
  unfold bit_op, bit_eq, commonLen. rewrite Hmod. cbn [orb].
  rewrite Ely, Eby, !Z.min_id.
  assert (Htx : take (Z.to_nat (lenBytes x)) (bits x) = bits x) by (apply take_ge; unfold lenBytes, zlen; lia).
  assert (Hty : take (Z.to_nat (lenBytes x)) (bits y) = bits y) by (apply take_ge; unfold lenBytes, zlen; lia).
  rewrite Htx, Hty. split.
  - rewrite app_nil_r. set (z := zip_with op (bits x) (bits y)).
    assert (Hz : zlen z = lenBytes x) by (unfold z, lenBytes, zlen; rewrite length_zip_with; lia).
    rewrite Hnew, Hz, Z.leb_refl. eexists. split; [done|]. split; [done|].
    intros k Hk. assert (Hk8 : 0 <= k mod 8 < 8) by (apply Z.mod_pos_bound; lia).
    rewrite !getBit_testbit by (cbn [lenBits]; lia). rewrite <- Hop. f_equal.
    rewrite <- (byteAt_zip op x y (length (bits x)) _ (drop (length z) (bits (newBitArray (lenBits x))))) by
      (try lia; rewrite Elx in Hk; unfold lenBytes, zlen in Hk; dlia).
    by rewrite !take_ge by lia.
  - rewrite andb_true_r, bool_decide_eq_true. done.
Qed.

(** On a partial last byte the operators and the comparison are wrong:
    the mask is built from [k << 1] instead of [1 << k], so that a set bit 0
    vanishes from [x | x], [x & x] and [x ^ 0], and arrays that differ in it
    compare equal; and [setBits(true)] does not clear the bits past the end. *)
Theorem partial_byte_mask_wrong :
  let one := setBit 0 true (newBitArray 3) in
  let zero := newBitArray 3 in
  getBit 0 one = true /\
  option_map (getBit 0) (bit_or one one) = Some false /\
  option_map (getBit 0) (bit_and one one) = Some false /\
  option_map (getBit 0) (bit_xor one zero) = Some false /\
  bit_eq one zero = true /\
  bits (setAll true zero) = [255].
Proof. vm_compute. split_and!; reflexivity. Qed.

(** After an assignment from a shorter array the operators store a byte
    outside their result: the spare byte is counted in [lenBytes]. *)
Theorem assigned_array_overrun :
  let a := assign (newBitArray 16) (newBitArray 3) in
  lenBytes a = 2 /\ lenBits a = 3 /\ bit_or a a = None.
Proof. vm_compute. split_and!; reflexivity. Qed.

(** ** Witnesses *)

Definition witness_array : BitArray := mkBitArray [0xa5; 0x3c; 0x0f] 20.

Lemma witness_array_wf : bits_wf witness_array.
Proof. split; [vm_compute; split; congruence|]. repeat constructor; vm_compute; congruence. Qed.

Lemma getBits_field_witness : Z.testbit (getBits 8 15 witness_array) 2 = true.
Proof. rewrite getBits_field; [reflexivity | apply witness_array_wf | lia | lia]. Defined.

Lemma setBits_getBits_witness : getBits 3 9 (setBits 3 9 45 witness_array) = 45.
Proof.
  rewrite (proj1 (setBits_getBits 3 9 45 witness_array witness_array_wf ltac:(lia) ltac:(lia)
    ltac:(cbn; lia))). reflexivity.
Defined.

Lemma setBits64_clears_high_bits_witness :
  getBit 40 (setBits64 0 48 (2 ^ 48 - 1) (newBitArray 48)) = false.
Proof.
  apply (setBits64_clears_high_bits 0 48 (2 ^ 48 - 1) (newBitArray 48) 40);
    [apply newBitArray_wf; lia | lia | lia | vm_compute; reflexivity].
Defined.

Lemma bit_operators_whole_bytes_witness :
  exists r, bit_op Z.lor (mkBitArray [1] 8) (mkBitArray [2] 8) = Some r /\ getBit 1 r = true.
Proof.
  destruct (bit_operators_whole_bytes Z.lor orb (mkBitArray [1] 8) (mkBitArray [2] 8)) as [(r & E & _ & H) _];
    try reflexivity.
  - intros. apply Z.lor_spec.
  - split; [vm_compute; split; congruence|]. repeat constructor; vm_compute; congruence.
  - split; [vm_compute; split; congruence|]. repeat constructor; vm_compute; congruence.
  - exists r. split; [exact E|]. rewrite H by (cbn; lia). reflexivity.
Defined.
