(* ===== verification/IOStream.v ===== *)
(** * Buffered input and output.

    [IOStream] of [src/src/nidas/core/IOStream.h] and [IOStream.cc]: the
    buffer between the sample streams and an [IOChannel] (a file set or a
    socket).  The channel is the environment: what it returns for each
    physical read or write is a script, any script. *)

From S2P Require Import Prelude.

(** ** Channels

    An input channel is the sequence of its physical reads: the bytes, and
    whether they are the first of a newly opened file ([isNewInput]).  No
    bytes is a non-blocking read without data; after the last one,
    [read] throws [EOFException].  A read never returns more than it was
    asked for. *)
Record Channel := mkChannel {
  ch_events : list (bool * list Z);
  ch_new : bool
}.

Definition chan_read (len : Z) (c : Channel) : option (list Z * Channel) :=
  match ch_events c with
  | [] => None
  | (new, bs) :: rest =>
      if zlen bs <=? len then Some (bs, mkChannel rest new)
      else Some (take (Z.to_nat len) bs, mkChannel ((false, drop (Z.to_nat len) bs) :: rest) new)
  end.

(** The bytes a channel still has to give. *)
Definition ch_bytes (c : Channel) : list Z := concat (map snd (ch_events c)).

(** A physical write stores part of the bytes, or throws: [EAGAIN], or
    another error.  When the script ends the device takes everything. *)
Inductive wres := Wrote (n : Z) | Again | Failed.

Record OutChannel := mkOutChannel {
  oc_script : list wres;
  oc_bytes : list Z
}.

Definition chan_write (bs : list Z) (c : OutChannel) : wres * OutChannel :=
  match oc_script c with
  | [] => (Wrote (zlen bs), mkOutChannel [] (oc_bytes c ++ bs))
  | Wrote n :: rest =>
      let n := Z.max 0 (Z.min n (zlen bs)) in
      (Wrote n, mkOutChannel rest (oc_bytes c ++ take (Z.to_nat n) bs))
  | r :: rest => (r, mkOutChannel rest (oc_bytes c))
  end.

(** ** State

    [io_buffer] is the part of [_buffer] below [_head]; [_tail] is an
    offset. *)
Record IOStream := mkIOStream {
  io_buffer : list Z;
  io_tail : Z;
  _buflen : Z;
  _newInput : bool;
  _nbytesIn : Z;
  _nbytesOut : Z;
  _nEAGAIN : Z
}.

Definition io_head (s : IOStream) : Z := zlen (io_buffer s).
Definition _halflen (s : IOStream) : Z := _buflen s / 2.

Definition available (s : IOStream) : Z := io_head s - io_tail s.

(** The bytes between [_tail] and [_head]. *)
Definition io_unread (s : IOStream) : list Z := drop (Z.to_nat (io_tail s)) (io_buffer s).

Definition with_io (s : IOStream) (buf : list Z) (tail : Z) : IOStream :=
  mkIOStream buf tail (_buflen s) (_newInput s) (_nbytesIn s) (_nbytesOut s) (_nEAGAIN s).

Definition with_newInput (s : IOStream) (b : bool) : IOStream :=
  mkIOStream (io_buffer s) (io_tail s) (_buflen s) b (_nbytesIn s) (_nbytesOut s) (_nEAGAIN s).

Definition with_nbytesIn (s : IOStream) (n : Z) : IOStream :=
  mkIOStream (io_buffer s) (io_tail s) (_buflen s) (_newInput s) n (_nbytesOut s) (_nEAGAIN s).

Definition reallocateBuffer (len : Z) (s : IOStream) : IOStream :=
  let wlen := Z.min (available s) len in
  mkIOStream (take (Z.to_nat wlen) (io_unread s)) 0 len (_newInput s) (_nbytesIn s)
    (_nbytesOut s) (_nEAGAIN s).

Definition newIOStream (blen : Z) : IOStream := mkIOStream [] 0 (blen * 2) true 0 0 0.

(** ** Input *)

(** [read()]: [None] is the [EOFException]. *)
Definition io_read (s : IOStream) (c : Channel) : option Z * IOStream * Channel :=
  let s := with_newInput s false in
  if 0 <? available s then (Some 0, s, c)
  else
    match chan_read (_buflen s) c with
    | None => (None, with_io s [] 0, c)
    | Some (bs, c') =>
        let s := with_io s bs 0 in
        (Some (zlen bs), if ch_new c' then with_nbytesIn (with_newInput s true) 0 else s, c')
    end.

(** [readBuf(buf,len)]; [addNumInputBytes] takes an [int]. *)
Definition readBuf (len : Z) (s : IOStream) : list Z * IOStream :=
  let l := Z.min len (available s) in
  (take (Z.to_nat l) (io_unread s),
   with_nbytesIn (with_io s (io_buffer s) (io_tail s + l)) (_nbytesIn s + s32 l)).

(** [read(buf,len)]: the bytes stored and whether [EOFException] was thrown. *)
Fixpoint readInto_loop (fuel : nat) (len : Z) (out : list Z) (s : IOStream) (c : Channel) :
    list Z * bool * IOStream * Channel :=
  match fuel with
  | O => (out, false, s, c)
  | S fuel =>
      if len <=? 0 then (out, false, s, c)
      else if available s =? 0 then
        match io_read s c with
        | (None, s, c) => (out, true, s, c)
        | (Some 0, s, c) => (out, false, s, c)
        | (Some _, s, c) =>
            let s := if _newInput s then s else with_newInput s (ch_new c) in
            let '(bs, s) := readBuf len s in
            readInto_loop fuel (len - zlen bs) (out ++ bs) s c
        end
      else
        let '(bs, s) := readBuf len s in
        readInto_loop fuel (len - zlen bs) (out ++ bs) s c
  end.

Definition readInto (len : Z) (s : IOStream) (c : Channel) : list Z * bool * IOStream * Channel :=
  readInto_loop (Z.to_nat len) len [] (with_newInput s false) c.

(** [skip(len)] *)
Definition skip (len : Z) (s : IOStream) (c : Channel) : option Z * IOStream * Channel :=
  match (if available s =? 0 then io_read s c else (Some 0, s, c)) with
  | (None, s, c) => (None, s, c)
  | (Some _, s, c) =>
      let s := with_newInput s false in
      let l := Z.min len (available s) in
      (Some l, with_nbytesIn (with_io s (io_buffer s) (io_tail s + l)) (_nbytesIn s + l), c)
  end.

(** The character loop of [readUntil]: what is stored, how many characters
    were taken, whether it is done.  [room] is [eout - outp]. *)
Fixpoint untilChars (term room : Z) (out rest : list Z) (n : nat) : list Z * nat * bool :=
  match rest with
  | [] => (out, n, false)
  | ch :: rest =>
      if room =? 0 then (out, n, true)
      else if ch =? term then (out ++ [ch], S n, true)
      else untilChars term (room - 1) (out ++ [ch]) rest (S n)
  end.

(** [readUntil(buf,len,term)], with a bound on the physical reads; [None] is
    the [EOFException] (or the bound). *)
Fixpoint readUntil_loop (fuel : nat) (len term : Z) (out : list Z) (s : IOStream) (c : Channel) :
    option (list Z) * IOStream * Channel :=
  match fuel with
  | O => (None, s, c)
  | S fuel =>
      let '(r, s, c) :=
        if available s =? 0 then
          match io_read s c with
          | (None, s, c) => (None, s, c)
          | (Some l, s, c) => (Some l, if _newInput s then s else with_newInput s (ch_new c), c)
          end
        else (Some 1, s, c) in
      match r with
      | None => (None, s, c)
      | Some l =>
          let out := if l =? 0 then [] else out in
          let '(out, n, done) := untilChars term (len - 1 - zlen out) out (io_unread s) 0 in
          let s := with_io s (io_buffer s) (io_tail s + Z.of_nat n) in
          if done then (Some out, with_nbytesIn s (_nbytesIn s + zlen out), c)
          else readUntil_loop fuel len term out s c
      end
  end.

Definition readUntil (fuel : nat) (len term : Z) (s : IOStream) (c : Channel) :
    option (list Z) * IOStream * Channel :=
  readUntil_loop fuel len term [] (with_newInput s false) c.

(** [backup(len)], [backup()] *)
Definition backup (len : Z) (s : IOStream) : Z * IOStream :=
  let len := Z.min len (io_tail s) in
  (len, with_nbytesIn (with_io s (io_buffer s) (io_tail s - len)) (_nbytesIn s - len)).

Definition backupAll (s : IOStream) : Z * IOStream := backup (io_tail s) s.

(** ** Output *)

(** The physical write of the waiting bytes; [write] counts the [EAGAIN]s. *)
Definition io_send (count : Z) (s : IOStream) (c : OutChannel) : option IOStream * OutChannel :=
  let '(r, c) := chan_write (io_unread s) c in
  let sent l nagain :=
    let tail := io_tail s + l in
    Some (if tail =? io_head s
          then mkIOStream [] 0 (_buflen s) (_newInput s) (_nbytesIn s) (_nbytesOut s + s32 l) nagain
          else mkIOStream (io_buffer s) tail (_buflen s) (_newInput s) (_nbytesIn s)
                 (_nbytesOut s + s32 l) nagain) in
  match r with
  | Wrote l => (sent l (_nEAGAIN s), c)
  | Again => (sent 0 (_nEAGAIN s + count), c)
  | Failed => (None, c)
  end.

(** Make room at the end of the buffer by moving the waiting bytes down. *)
Definition shiftDown (tlen : Z) (s : IOStream) : IOStream :=
  if (_buflen s - io_head s <? tlen) && (available s + tlen <=? _buflen s) && negb (io_tail s =? 0)
  then with_io s (io_unread s) 0 else s.

(** The attempts of [write]: whether the user's bytes were copied. *)
Fixpoint write_loop (attempts : nat) (bytes : list Z) (flush : bool) (s : IOStream) (c : OutChannel) :
    option bool * IOStream * OutChannel :=
  match attempts with
  | O => (Some false, s, c)
  | S attempts =>
      let s := shiftDown (zlen bytes) s in
      let fits := zlen bytes <=? _buflen s - io_head s in
      let s := if fits then with_io s (io_buffer s ++ bytes) (io_tail s) else s in
      if negb fits || (_halflen s <=? available s) || flush then
        match io_send 1 s c with
        | (None, c) => (None, s, c)
        | (Some s, c) => if fits then (Some true, s, c) else write_loop attempts bytes flush s c
        end
      else (Some true, s, c)
  end.

(** [write(iov,nbufs,flush)], at least one buffer: [None] is an exception
    other than [EAGAIN], otherwise the return value. *)
Definition io_write (iov : list (list Z)) (flush : bool) (s : IOStream) (c : OutChannel) :
    option Z * IOStream * OutChannel :=
  let bytes := concat iov in
  let tlen := zlen bytes in
  let s := if _buflen s <? tlen then reallocateBuffer tlen s else s in
  match write_loop 2 bytes flush s c with
  | (None, s, c) => (None, s, c)
  | (Some true, s, c) => (Some tlen, s, c)
  | (Some false, s, c) => (Some 0, s, c)
  end.

(** [flush()] up to the channel's own flush: whether it was exception free. *)
Fixpoint flush_loop (ntry : nat) (s : IOStream) (c : OutChannel) : bool * IOStream * OutChannel :=
  match ntry with
  | O => (true, s, c)
  | S ntry =>
      if 0 <? available s then
        match io_send 0 s c with
        | (None, c) => (false, s, c)
        | (Some s, c) => flush_loop ntry s c
        end
      else (true, s, c)
  end.

Definition io_flush (s : IOStream) (c : OutChannel) : bool * IOStream * OutChannel := flush_loop 5 s c.

(** ** Invariant *)

Definition io_wf (s : IOStream) : Prop := 0 <= io_tail s <= io_head s /\ io_head s <= _buflen s /\ 0 < _buflen s.

Lemma available_unread s : io_wf s -> available s = zlen (io_unread s).
Proof. intros (H & _). unfold available, io_unread, io_head, zlen in *. rewrite length_drop. lia. Qed.

Lemma newIOStream_wf blen : 0 < blen -> io_wf (newIOStream blen).
Proof. intros. unfold io_wf, io_head, newIOStream. cbn [io_tail io_buffer _buflen]. rewrite (@zlen_nil Z). lia. Qed.

Lemma io_unread_nil s : io_wf s -> available s = 0 -> io_unread s = [].
Proof. intros H E. rewrite available_unread in E by done. by apply zlen_0_nil. Qed.

Lemma with_newInput_wf s b : io_wf s -> io_wf (with_newInput s b).
Proof. done. Qed.

Lemma with_nbytesIn_wf s n : io_wf s -> io_wf (with_nbytesIn s n).
Proof. done. Qed.

(** ** Input: nothing is lost or reordered *)

Lemma chan_read_spec len c bs c' :
  0 < len -> chan_read len c = Some (bs, c') ->
  bs ++ ch_bytes c' = ch_bytes c /\ zlen bs <= len /\
  (Forall (fun e => snd e <> []) (ch_events c) -> bs <> [] /\ Forall (fun e => snd e <> []) (ch_events c')).
Proof.
  unfold chan_read, ch_bytes. intros Hl. destruct (ch_events c) as [|[new b] rest]; [done|].
  destruct (Z.leb_spec (zlen b) len) as [Hle|Hgt]; intros [= <- <-]; cbn [ch_events map concat snd].
  - split; [done|]. split; [done|]. intros [H1 H2]%Forall_cons. done.
  - rewrite app_assoc, take_drop. split; [done|]. unfold zlen in *. split; [rewrite length_take; lia|].
    intros [_ H2]%Forall_cons. split.
    + intros E%(f_equal length). rewrite length_take in E. cbn in E. lia.
    + constructor; [|done]. cbn. intros E%(f_equal length). rewrite length_drop in E. cbn in E. lia.
Qed.

Lemma readBuf_spec len s bs s' :
  io_wf s -> 0 <= len -> readBuf len s = (bs, s') ->
  io_wf s' /\ bs ++ io_unread s' = io_unread s /\ zlen bs = Z.min len (available s) /\
  available s' = available s - zlen bs /\ _newInput s' = _newInput s /\ _buflen s' = _buflen s.
Proof.
  intros Hw Hl [= <- <-]. pose proof Hw as (H1 & H2 & H3).
  pose proof (available_unread s Hw) as Ha. pose proof (zlen_nonneg (io_unread s)).
  set (l := Z.min len (available s)). assert (Hll : 0 <= l <= available s) by lia.
  assert (Hz : zlen (take (Z.to_nat l) (io_unread s)) = l).
  { unfold zlen. rewrite length_take. unfold zlen in Ha. lia. }
  assert (Hw' : io_wf (with_io s (io_buffer s) (io_tail s + l))).
  { unfold io_wf, io_head, available in *. cbn. unfold io_head in *. lia. }
  split; [by apply with_nbytesIn_wf|]. split.
  - unfold io_unread at 2. cbn [with_nbytesIn with_io io_tail io_buffer].
    replace (Z.to_nat (io_tail s + l)) with (Z.to_nat (io_tail s) + Z.to_nat l)%nat by lia.
    rewrite <- drop_drop. fold (io_unread s). by rewrite take_drop.
  - split; [done|]. rewrite Hz. unfold available, io_head. cbn. split_and!; [lia|done|done].
Qed.

Lemma io_read_spec s c r s' c' :
  io_wf s -> io_read s c = (r, s', c') ->
  io_wf s' /\ io_unread s' ++ ch_bytes c' = io_unread s ++ ch_bytes c /\ _buflen s' = _buflen s /\
  (Forall (fun e => snd e <> []) (ch_events c) -> Forall (fun e => snd e <> []) (ch_events c')) /\
  match r with
  | None => io_unread s = [] /\ ch_events c = [] /\ io_unread s' = [] /\ c' = c
  | Some n => if 0 <? available s then n = 0 /\ c' = c /\ io_unread s' = io_unread s
              else n = zlen (io_unread s') /\
                   (Forall (fun e => snd e <> []) (ch_events c) -> 0 < n)
  end.
Proof.
  intros Hw. unfold io_read. change (available (with_newInput s false)) with (available s).
  destruct (Z.ltb_spec 0 (available s)) as [Ha|Ha]; [by intros [= <- <- <-]|].
  pose proof (available_unread s Hw) as Ea. pose proof (zlen_nonneg (io_unread s)) as Hn.
  assert (Eu : io_unread s = []) by (apply io_unread_nil; [done|lia]).
  change (_buflen (with_newInput s false)) with (_buflen s).
  destruct Hw as (H1 & H2 & H3).
  assert (Hw0 : forall bs, zlen bs <= _buflen s -> io_wf (with_io (with_newInput s false) bs 0)).
  { intros bs Hb. unfold io_wf, io_head. cbn. pose proof (zlen_nonneg bs). lia. }
  destruct (chan_read (_buflen s) c) as [[bs c1]|] eqn:E.
  - destruct (chan_read_spec _ _ _ _ H3 E) as (Eb & El & Ef). intros [= <- <- <-].
    assert (Hp : bs <> [] -> 0 < zlen bs) by (destruct bs; [done|rewrite zlen_cons; pose proof (zlen_nonneg bs); lia]).
    rewrite Eu. cbn [app]. rewrite <- Eb.
    destruct (ch_new c1); (split; [by apply Hw0|]; split; [done|]; split; [done|]; split; [tauto|]; split; [done|tauto]).
  - intros [= <- <- <-]. rewrite Eu. split; [apply Hw0; rewrite zlen_nil; lia|].
    unfold chan_read in E. destruct (ch_events c) as [|[? ?] ?] eqn:E2; [|by case_match]. done.
Qed.

(** What a [read(buf,len)] from a state leaves, and how it ends. *)
Definition read_post (len : Z) (s : IOStream) (c : Channel)
    (res : list Z * bool * IOStream * Channel) : Prop :=
  let '(bs, eof, s', c') := res in
  io_wf s' /\ bs ++ io_unread s' ++ ch_bytes c' = io_unread s ++ ch_bytes c /\ zlen bs <= len /\
  _buflen s' = _buflen s /\
  (Forall (fun e => snd e <> []) (ch_events c) ->
     Forall (fun e => snd e <> []) (ch_events c') /\
     (eof = true -> io_unread s' = [] /\ ch_events c' = [] /\ zlen bs < len) /\
     (eof = false -> zlen bs = len)).

Lemma readInto_loop_spec fuel : forall len out s c,
  io_wf s -> 0 <= len -> (Z.to_nat len <= fuel)%nat ->
  exists bs, (readInto_loop fuel len out s c).1.1.1 = out ++ bs /\
    read_post len s c (bs, (readInto_loop fuel len out s c).1.1.2,
                       (readInto_loop fuel len out s c).1.2, (readInto_loop fuel len out s c).2).
Proof.
  induction fuel as [|fuel IH]; intros len out s c Hw Hl Hf; cbn [readInto_loop].
  { exists []. rewrite app_nil_r. cbn. unfold zlen. cbn. split_and!; try done; try lia. intros. split_and!; [done|done|lia]. }
  destruct (Z.leb_spec len 0) as [Hz|Hz].
  { exists []. rewrite app_nil_r. cbn. unfold zlen. cbn. split_and!; try done; try lia. intros. split_and!; [done|done|lia]. }
  assert (Hstep : forall s1 c1, io_wf s1 -> 0 < available s1 -> _buflen s1 = _buflen s ->
     io_unread s1 ++ ch_bytes c1 = io_unread s ++ ch_bytes c ->
     (Forall (fun e => snd e <> []) (ch_events c) -> Forall (fun e => snd e <> []) (ch_events c1)) ->
     let '(bs, s2) := readBuf len s1 in
     exists bs', (readInto_loop fuel (len - zlen bs) (out ++ bs) s2 c1).1.1.1 = out ++ bs' /\
       read_post len s c (bs', (readInto_loop fuel (len - zlen bs) (out ++ bs) s2 c1).1.1.2,
         (readInto_loop fuel (len - zlen bs) (out ++ bs) s2 c1).1.2,
         (readInto_loop fuel (len - zlen bs) (out ++ bs) s2 c1).2)).
  { intros s1 c1 Hw1 Ha1 El1 Eb1 Ef1. destruct (readBuf len s1) as [bs s2] eqn:E.
    destruct (readBuf_spec len s1 bs s2 Hw1 Hl E) as (Hw2 & Eb2 & Ez & Ea & En & El2).
    destruct (IH (len - zlen bs) (out ++ bs) s2 c1 Hw2 ltac:(lia) ltac:(lia)) as (bs' & E1 & E2).
    exists (bs ++ bs'). rewrite E1, app_assoc. split; [done|].
    cbn [read_post] in *. destruct E2 as (P1 & P2 & P3 & P5 & P4). split; [done|].
    split; [by rewrite <- Eb1, <- Eb2, <- !app_assoc, P2|]. rewrite zlen_app.
    split; [lia|]. split; [congruence|]. intros HF. specialize (P4 (Ef1 HF)) as (Q1 & Q2 & Q3).
    split; [done|]. split; [intros Q; destruct (Q2 Q) as (? & ? & ?); split_and!; [done|done|lia]|].
    intros Q. specialize (Q3 Q). lia. }
  destruct (Z.eqb_spec (available s) 0) as [Ha|Ha].
  - destruct (io_read s c) as [[[n|] s1] c1] eqn:E.
    + destruct (io_read_spec _ _ _ _ _ Hw E) as (Hw1 & Eb & El1 & Ef & Er).
      rewrite Ha in Er. cbn in Er. destruct Er as [Er Er2]. pose proof (available_unread _ Hw1) as Ha1.
      destruct n as [|n|n].
      * exists []. rewrite app_nil_r. cbn. split; [done|]. split; [done|]. split; [done|].
        split; [unfold zlen; cbn; lia|]. split; [done|]. intros HF. specialize (Er2 HF). lia.
      * assert (Hs : forall b, io_wf (with_newInput s1 b)) by (intros; by apply with_newInput_wf).
        destruct (_newInput s1).
        -- apply (Hstep s1 c1); try done. lia.
        -- apply (Hstep (with_newInput s1 (ch_new c1)) c1); try done.
           change (available (with_newInput s1 (ch_new c1))) with (available s1). lia.
      * pose proof (zlen_nonneg (io_unread s1)). lia.
    + destruct (io_read_spec _ _ _ _ _ Hw E) as (Hw1 & Eb & El1 & Ef & Er & Er2 & Er3 & Er4).
      exists []. rewrite app_nil_r. cbn. split; [done|]. split; [done|]. split; [done|].
      split; [unfold zlen; cbn; lia|]. split; [done|]. intros HF. subst c1. split; [done|].
      split; [intros _; split_and!; [done|done|unfold zlen; cbn; lia]|done].
  - pose proof (Hstep s c Hw) as H. pose proof (available_unread _ Hw). pose proof (zlen_nonneg (io_unread s)).
    apply H; try done; lia.
Qed.

Lemma readInto_spec len s c :
  io_wf s -> 0 <= len -> read_post len s c (readInto len s c).
Proof.
  intros Hw Hl. unfold readInto.
  destruct (readInto_loop_spec (Z.to_nat len) len [] (with_newInput s false) c) as (bs & E & H);
    [done|lia|lia|]. destruct (readInto_loop _ _ _ _ _) as [[[o e] s'] c']. cbn in E, H. subst o. done.
Qed.

(** ** One input: no new file *)

Definition one_input (c : Channel) : Prop := Forall (fun e => fst e = false /\ snd e <> []) (ch_events c).

Lemma one_input_nonempty c : one_input c -> Forall (fun e => snd e <> []) (ch_events c).
Proof. intros H. eapply Forall_impl; [exact H|]. by intros ? []. Qed.

Lemma chan_read_one len c bs c' :
  0 < len -> one_input c -> chan_read len c = Some (bs, c') -> one_input c' /\ ch_new c' = false.
Proof.
  unfold one_input, chan_read. intros Hl. destruct (ch_events c) as [|[new b] rest]; [done|].
  intros [[H1 H2] H3]%Forall_cons. cbn in H1, H2.
  destruct (Z.leb_spec (zlen b) len) as [Hle|Hgt]; intros [= <- <-]; cbn [ch_events ch_new]; [done|].
  split; [|done]. constructor; [|done]. cbn. split; [done|].
  intros E%(f_equal length). rewrite length_drop in E. cbn in E. unfold zlen in *. lia.
Qed.

Lemma io_read_one s c r s' c' :
  io_wf s -> one_input c -> io_read s c = (r, s', c') ->
  one_input c' /\ _newInput s' = false /\ (available s = 0 -> is_Some r -> ch_new c' = false).
Proof.
  intros Hw Hc. unfold io_read. change (available (with_newInput s false)) with (available s).
  destruct (Z.ltb_spec 0 (available s)); [intros [= <- <- <-]; split_and!; [done|done|lia]|].
  destruct (chan_read _ c) as [[bs c1]|] eqn:E; [|intros [= <- <- <-]; split_and!; [done|done|by intros _ [? ?]]].
  destruct (chan_read_one _ _ _ _ (proj2 (proj2 Hw)) Hc E) as [H1 H2]. rewrite H2. by intros [= <- <- <-].
Qed.

Lemma readInto_loop_one fuel : forall len out s c bs eof s' c',
  io_wf s -> one_input c -> _newInput s = false -> 0 <= len ->
  readInto_loop fuel len out s c = (bs, eof, s', c') -> one_input c' /\ _newInput s' = false.
Proof.
  induction fuel as [|fuel IH]; intros len out s c bs eof s' c' Hw Hc Hn Hl; cbn [readInto_loop].
  { by intros [= <- <- <- <-]. }
  destruct (Z.leb_spec len 0); [by intros [= <- <- <- <-]|].
  assert (Hrec : forall s1 c1, io_wf s1 -> one_input c1 -> _newInput s1 = false ->
    (let '(b, s2) := readBuf len s1 in readInto_loop fuel (len - zlen b) (out ++ b) s2 c1) = (bs, eof, s', c') ->
    one_input c' /\ _newInput s' = false).
  { intros s1 c1 H1 H2 H3. destruct (readBuf len s1) as [b s2] eqn:E.
    destruct (readBuf_spec len s1 b s2 H1 Hl E) as (W & _ & L & _ & N & _). apply IH; [done|done|congruence|lia]. }
  destruct (Z.eqb_spec (available s) 0) as [Ha|Ha]; [|by apply Hrec].
  destruct (io_read s c) as [[[n|] s1] c1] eqn:E; destruct (io_read_one _ _ _ _ _ Hw Hc E) as (O1 & N1 & C1).
  - destruct (io_read_spec _ _ _ _ _ Hw E) as (W & _). rewrite N1, (C1 Ha (mk_is_Some _ _ eq_refl)).
    destruct n as [|n|n]; [by intros [= <- <- <- <-]|by apply Hrec|by apply Hrec].
  - by intros [= <- <- <- <-].
Qed.

(** Reading from one input: the bytes wanted, or the end of it. *)
Lemma readInto_one len s c :
  io_wf s -> one_input c -> 0 <= len ->
  exists bs eof s' c', readInto len s c = (bs, eof, s', c') /\ io_wf s' /\ one_input c' /\ _newInput s' = false /\
    bs ++ io_unread s' ++ ch_bytes c' = io_unread s ++ ch_bytes c /\
    (if eof then zlen (io_unread s ++ ch_bytes c) < len /\ io_unread s' ++ ch_bytes c' = [] else zlen bs = len).
Proof.
  intros Hw Hc Hl. pose proof (readInto_spec len s c Hw Hl) as H.
  destruct (readInto len s c) as [[[bs eof] s'] c'] eqn:E. exists bs, eof, s', c'.
  destruct H as (W & B & L & _ & F). destruct (F (one_input_nonempty c Hc)) as (_ & F1 & F2).
  destruct (readInto_loop_one _ _ _ _ _ _ _ _ _ (with_newInput_wf s false Hw) Hc eq_refl Hl E) as [O N].
  split; [done|]. split; [done|]. split; [done|]. split; [done|]. split; [done|].
  destruct eof; [|auto]. destruct (F1 eq_refl) as (E1 & E2 & E3). rewrite <- B, E1.
  unfold ch_bytes. rewrite E2. cbn. rewrite app_nil_r. done.
Qed.

(** Reads do not add to what a channel has to give. *)
Lemma io_read_events s c r s' c' : io_read s c = (r, s', c') -> (length (ch_events c') <= length (ch_events c))%nat.
Proof.
  unfold io_read. destruct (0 <? _); [by intros [= _ _ <-]|]. unfold chan_read. destruct (ch_events c) as [|[new b] rest] eqn:E.
  - intros [= _ _ <-]. by rewrite E.
  - destruct (zlen b <=? _); intros [= _ _ <-]; cbn; lia.
Qed.

Lemma readInto_loop_events fuel : forall len out s c bs eof s' c',
  readInto_loop fuel len out s c = (bs, eof, s', c') -> (length (ch_events c') <= length (ch_events c))%nat.
Proof.
  induction fuel as [|fuel IH]; intros len out s c bs eof s' c'; cbn [readInto_loop]; [by intros [= _ _ _ <-]|].
  destruct (len <=? 0); [by intros [= _ _ _ <-]|]. destruct (available s =? 0).
  - destruct (io_read s c) as [[[n|] s1] c1] eqn:E; apply io_read_events in E; [|by intros [= _ _ _ <-]].
    destruct n as [|n|n]; [by intros [= _ _ _ <-]|..]; destruct (readBuf len _) as [b s2]; intros H%IH; lia.
  - destruct (readBuf len s) as [b s2]. apply IH.
Qed.

(** ** Several files: one input followed by others

    A read that is satisfied by the first of the events does not see those
    behind them. *)

Definition then_events (c : Channel) (tail : list (bool * list Z)) : Channel :=
  mkChannel (ch_events c ++ tail) (ch_new c).

Lemma chan_read_then len c tail r : chan_read len c = Some r -> chan_read len (then_events c tail) = Some (r.1, then_events r.2 tail).
Proof.
  unfold chan_read, then_events. destruct (ch_events c) as [|[new b] rest]; cbn [app ch_events]; [done|].
  destruct (zlen b <=? len); by intros [= <-].
Qed.

Lemma io_read_then s c tail n s' c' :
  io_read s c = (Some n, s', c') -> io_read s (then_events c tail) = (Some n, s', then_events c' tail).
Proof.
  unfold io_read. destruct (0 <? _); [by intros [= <- <- <-]|].
  destruct (chan_read _ c) as [[bs c1]|] eqn:E; [|done]. rewrite (chan_read_then _ _ tail _ E). cbn [fst snd].
  change (ch_new (then_events c1 tail)) with (ch_new c1). by intros [= <- <- <-].
Qed.

Lemma readInto_loop_then fuel tail : forall len out s c bs s' c',
  readInto_loop fuel len out s c = (bs, false, s', c') ->
  readInto_loop fuel len out s (then_events c tail) = (bs, false, s', then_events c' tail).
Proof.
  induction fuel as [|fuel IH]; intros len out s c bs s' c'; cbn [readInto_loop]; [by intros [= <- <- <-]|].
  destruct (len <=? 0); [by intros [= <- <- <-]|]. destruct (available s =? 0).
  - destruct (io_read s c) as [[[n|] s1] c1] eqn:E; [|done]. rewrite (io_read_then _ _ tail _ _ _ E).
    change (ch_new (then_events c1 tail)) with (ch_new c1).
    destruct n as [|n|n]; [by intros [= <- <- <-]|..]; destruct (readBuf len _); apply IH.
  - destruct (readBuf len s) as [b s2]. apply IH.
Qed.

Lemma io_read_buflen s c : _buflen (io_read s c).1.2 = _buflen s.
Proof. unfold io_read. destruct (0 <? _); [done|]. destruct (chan_read _ c) as [[bs c1]|]; [|done]. by destruct (ch_new c1). Qed.

(** The reads that the channel makes of a file: the first one, of a new
    input, and the one that finds the end. *)
Definition fileEvents (d : list Z) : list (bool * list Z) :=
  match d with [] => [(true, [])] | _ => [(true, d); (false, [])] end.

(** ** Output: bytes leave in the order they were accepted *)

Lemma chan_write_spec bs c r c' :
  chan_write bs c = (r, c') ->
  match r with
  | Wrote n => 0 <= n <= zlen bs /\ oc_bytes c' = oc_bytes c ++ take (Z.to_nat n) bs
  | _ => oc_bytes c' = oc_bytes c /\ oc_script c <> []
  end /\ (oc_script c = [] -> r = Wrote (zlen bs) /\ oc_script c' = []).
Proof.
  unfold chan_write. pose proof (zlen_nonneg bs).
  destruct (oc_script c) as [|[n| |] rest]; intros [= <- <-]; cbn [oc_bytes oc_script]; try done.
  - split; [|done]. split; [lia|]. unfold zlen. by rewrite Nat2Z.id, take_ge by lia.
  - split; [|done]. split; [lia|done].
Qed.

Lemma io_send_spec k s c r c' :
  io_wf s -> io_send k s c = (r, c') ->
  match r with
  | Some s' => io_wf s' /\ oc_bytes c' ++ io_unread s' = oc_bytes c ++ io_unread s /\
      _buflen s' = _buflen s /\ (oc_script c = [] -> oc_script c' = [] /\ io_buffer s' = [] /\ io_tail s' = 0)
  | None => oc_bytes c' = oc_bytes c /\ oc_script c <> []
  end.
Proof.
  intros Hw. unfold io_send. destruct (chan_write (io_unread s) c) as [r0 c0] eqn:E.
  apply chan_write_spec in E as [E1 E2]. pose proof (available_unread s Hw) as Ha.
  destruct Hw as (H1 & H2 & H3). unfold available in Ha.
  assert (Hsent : forall l na, 0 <= l <= zlen (io_unread s) ->
    oc_bytes c0 = oc_bytes c ++ take (Z.to_nat l) (io_unread s) -> (oc_script c = [] -> l = zlen (io_unread s)) ->
    let s' := if io_tail s + l =? io_head s
          then mkIOStream [] 0 (_buflen s) (_newInput s) (_nbytesIn s) (_nbytesOut s + s32 l) na
          else mkIOStream (io_buffer s) (io_tail s + l) (_buflen s) (_newInput s) (_nbytesIn s)
                 (_nbytesOut s + s32 l) na in
    io_wf s' /\ oc_bytes c0 ++ io_unread s' = oc_bytes c ++ io_unread s /\ _buflen s' = _buflen s /\
    (oc_script c = [] -> io_buffer s' = [] /\ io_tail s' = 0)).
  { intros l na Hl Eb Es. rewrite Eb. unfold io_wf, io_head, io_unread in *.
    destruct (Z.eqb_spec (io_tail s + l) (zlen (io_buffer s))) as [E|E]; cbn [io_tail io_buffer _buflen].
    - rewrite (@zlen_nil Z). split; [lia|]. split; [|done]. rewrite take_ge, drop_nil, app_nil_r; [done|].
      unfold zlen in *. lia.
    - split; [lia|]. split; [|split; [done|]; intros Q; specialize (Es Q); unfold zlen in *; lia].
      replace (Z.to_nat (io_tail s + l)) with (Z.to_nat (io_tail s) + Z.to_nat l)%nat by lia.
      by rewrite <- drop_drop, <- app_assoc, take_drop. }
  destruct r0 as [n| |]; intros [= <- <-].
  - destruct E1 as [E1 E3]. destruct (Hsent n (_nEAGAIN s)) as (W & B & L & F); [done|done| |].
    + intros Q. destruct (E2 Q) as [[= ->] _]. done.
    + split_and!; try done. intros Q. destruct (E2 Q) as [_ ?]. destruct (F Q). done.
  - destruct E1 as [E1 E3]. destruct (Hsent 0 (_nEAGAIN s + k)) as (W & B & L & F).
    + split; [lia|apply zlen_nonneg].
    + by rewrite E1, app_nil_r.
    + done.
    + split_and!; try done.
  - done.
Qed.

Lemma shiftDown_spec n s :
  io_wf s -> io_wf (shiftDown n s) /\ io_unread (shiftDown n s) = io_unread s /\
  _buflen (shiftDown n s) = _buflen s /\ io_tail (shiftDown n s) <= io_tail s /\
  (io_unread s = [] -> n <= _buflen s -> n <= _buflen s - io_head (shiftDown n s)).
Proof.
  intros Hw. unfold shiftDown. pose proof (available_unread s Hw) as Ha. unfold available in *.
  destruct Hw as (H1 & H2 & H3). pose proof (zlen_nonneg (io_unread s)) as Hn.
  destruct (_ && _) eqn:E.
  - apply andb_true_iff in E as [[E1 E2]%andb_true_iff E3]. apply Z.leb_le in E2.
    unfold io_wf, io_head in *. cbn [with_io io_buffer io_tail _buflen]. split; [lia|].
    split; [unfold io_unread at 1; cbn; by rewrite drop_0|]. split; [done|]. split; [lia|].
    intros -> Hle. rewrite (@zlen_nil Z). lia.
  - split; [done|]. split; [done|]. split; [done|]. split; [lia|]. intros En Hle.
    rewrite En, (@zlen_nil Z) in Ha. destruct (Z.ltb_spec (_buflen s - io_head s) n); [|lia].
    cbn [andb] in E. destruct (Z.leb_spec (io_head s - io_tail s + n) (_buflen s)); [|lia].
    cbn [andb] in E. apply negb_false_iff, Z.eqb_eq in E. lia.
Qed.

(** The attempts of [write]: all bytes behind the waiting ones, or none. *)
Lemma write_loop_spec attempts : forall bytes flush s c r s' c',
  io_wf s -> zlen bytes <= _buflen s -> write_loop attempts bytes flush s c = (r, s', c') ->
  io_wf s' /\ _buflen s' = _buflen s /\
  match r with
  | Some true => oc_bytes c' ++ io_unread s' = oc_bytes c ++ io_unread s ++ bytes
  | Some false => oc_bytes c' ++ io_unread s' = oc_bytes c ++ io_unread s
  | None => oc_bytes c' ++ io_unread s' = oc_bytes c ++ io_unread s \/
            oc_bytes c' ++ io_unread s' = oc_bytes c ++ io_unread s ++ bytes
  end /\
  (oc_script c = [] -> oc_script c' = [] /\
     (((1 <= attempts)%nat /\ io_unread s = []) \/ (2 <= attempts)%nat -> r = Some true)).
Proof.
  induction attempts as [|attempts IH]; intros bytes flush s c r s' c' Hw Hb E; cbn [write_loop] in E.
  { injection E as <- <- <-. split_and!; try done. intros Q. split; [done|]. lia. }
  destruct (shiftDown_spec (zlen bytes) s Hw) as (W1 & U1 & L1 & T1 & R1).
  set (s1 := shiftDown (zlen bytes) s) in *. destruct (Z.leb_spec (zlen bytes) (_buflen s1 - io_head s1)) as [Hfit|Hno].
  - set (s2 := with_io s1 (io_buffer s1 ++ bytes) (io_tail s1)) in *.
    assert (W2 : io_wf s2).
    { destruct W1 as (A & B & C). unfold io_wf, io_head in *. cbn [s2 with_io io_buffer io_tail _buflen].
      rewrite zlen_app. pose proof (zlen_nonneg bytes). lia. }
    assert (U2 : io_unread s2 = io_unread s ++ bytes).
    { rewrite <- U1. unfold io_unread. cbn [s2 with_io io_buffer io_tail]. rewrite drop_app_le; [done|].
      destruct W1 as (A & _). unfold io_head, zlen in A. lia. }
    cbn [negb orb] in E. destruct (_ || _).
    + destruct (io_send 1 s2 c) as [[s3|] c3] eqn:E3; injection E as <- <- <-;
        pose proof (io_send_spec _ _ _ _ _ W2 E3) as S3.
      * destruct S3 as (W3 & B3 & L3 & F3). split; [done|]. split; [by rewrite L3|]. split; [by rewrite B3, U2|].
        intros Q. destruct (F3 Q). done.
      * destruct S3 as (B3 & F3). split; [done|]. split; [done|]. split; [|done]. right. by rewrite B3, U2.
    + injection E as <- <- <-. split; [done|]. split; [done|]. split; [by rewrite U2|]. done.
  - cbn [negb orb] in E. destruct (io_send 1 s1 c) as [[s3|] c3] eqn:E3;
      pose proof (io_send_spec _ _ _ _ _ W1 E3) as S3.
    + destruct S3 as (W3 & B3 & L3 & F3).
      destruct (IH bytes flush s3 c3 r s' c' W3 ltac:(lia) E) as (P1 & P2 & P3 & P4).
      rewrite U1 in B3. split; [done|]. split; [congruence|]. split.
      { rewrite !app_assoc in P3 |- *. by rewrite <- B3. }
      intros Q. destruct (F3 Q) as (Q1 & Q2 & Q3). destruct (P4 Q1) as [P5 P6]. split; [done|].
      intros Hor. apply P6. left. split.
      * destruct Hor as [[_ Hn]|Hn]; [|lia]. specialize (R1 Hn). lia.
      * unfold io_unread. by rewrite Q2, drop_nil.
    + injection E as <- <- <-. destruct S3 as (B3 & F3). split; [done|]. split; [done|]. split; [|done].
      left. by rewrite B3, U1.
Qed.

Lemma reallocateBuffer_spec n s :
  io_wf s -> _buflen s < n ->
  io_wf (reallocateBuffer n s) /\ io_unread (reallocateBuffer n s) = io_unread s /\
  _buflen (reallocateBuffer n s) = n.
Proof.
  intros Hw Hn. pose proof (available_unread s Hw) as Ha. destruct Hw as (H1 & H2 & H3).
  assert (Hle : available s <= n) by (unfold available; lia).
  unfold reallocateBuffer. rewrite Z.min_l by lia.
  assert (Et : take (Z.to_nat (available s)) (io_unread s) = io_unread s)
    by (rewrite Ha; unfold zlen; by rewrite Nat2Z.id, take_ge by lia).
  rewrite Et. unfold io_wf, io_head. cbn [io_buffer io_tail _buflen].
  pose proof (zlen_nonneg (io_unread s)). split; [lia|]. split; [|done].
  unfold io_unread at 1. cbn. by rewrite drop_0.
Qed.

Lemma io_write_spec iov flush s c r s' c' :
  io_wf s -> io_write iov flush s c = (r, s', c') ->
  io_wf s' /\
  match r with
  | Some n => (n = zlen (concat iov) /\ oc_bytes c' ++ io_unread s' = (oc_bytes c ++ io_unread s) ++ concat iov) \/
              (n = 0 /\ oc_bytes c' ++ io_unread s' = oc_bytes c ++ io_unread s)
  | None => oc_bytes c' ++ io_unread s' = oc_bytes c ++ io_unread s \/
            oc_bytes c' ++ io_unread s' = (oc_bytes c ++ io_unread s) ++ concat iov
  end /\
  (oc_script c = [] -> oc_script c' = [] /\ r = Some (zlen (concat iov))).
Proof.
  intros Hw. unfold io_write. set (tlen := zlen (concat iov)).
  set (s0 := if _buflen s <? tlen then reallocateBuffer tlen s else s).
  assert (H0 : io_wf s0 /\ io_unread s0 = io_unread s /\ tlen <= _buflen s0).
  { unfold s0. destruct (Z.ltb_spec (_buflen s) tlen) as [Hlt|Hge]; [|done].
    destruct (reallocateBuffer_spec tlen s Hw Hlt) as (? & ? & ->). split_and!; [done|done|lia]. }
  destruct H0 as (W0 & U0 & L0). destruct (write_loop 2 (concat iov) flush s0 c) as [[r0 s1] c1] eqn:E.
  destruct (write_loop_spec _ _ _ _ _ _ _ _ W0 L0 E) as (W1 & _ & P & F). rewrite U0 in P.
  destruct r0 as [[|]|]; intros [= <- <- <-]; rewrite <- !app_assoc; (split; [done|]; split; [tauto|]);
    intros Q; destruct (F Q) as [F1 F2]; specialize (F2 ltac:(lia)); done.
Qed.

(** When nothing waits, a write is not refused. *)
Lemma io_write_empty iov flush s c n s' c' :
  io_wf s -> io_unread s = [] -> io_write iov flush s c = (Some n, s', c') -> n = zlen (concat iov).
Proof.
  intros Hw Hu. unfold io_write. set (tlen := zlen (concat iov)).
  set (s0 := if _buflen s <? tlen then reallocateBuffer tlen s else s).
  assert (H0 : io_wf s0 /\ io_unread s0 = [] /\ tlen <= _buflen s0).
  { unfold s0. destruct (Z.ltb_spec (_buflen s) tlen) as [Hlt|Hge]; [|done].
    destruct (reallocateBuffer_spec tlen s Hw Hlt) as (? & -> & ->). split_and!; [done|done|lia]. }
  destruct H0 as (W0 & U0 & L0). cbn [write_loop]. fold tlen.
  destruct (shiftDown_spec tlen s0 W0) as (_ & _ & L1 & _ & R1). specialize (R1 U0 L0).
  destruct (Z.leb_spec tlen (_buflen (shiftDown tlen s0) - io_head (shiftDown tlen s0))); [|lia].
  cbn [negb]. destruct (_ || _); [|by intros [= <- _ _]].
  destruct (io_send _ _ _) as [[s3|] c3]; [by intros [= <- _ _]|done].
Qed.

Lemma flush_loop_spec n : forall s c ok s' c',
  io_wf s -> flush_loop n s c = (ok, s', c') ->
  io_wf s' /\ oc_bytes c' ++ io_unread s' = oc_bytes c ++ io_unread s /\
  (oc_script c = [] -> (1 <= n)%nat -> ok = true /\ io_unread s' = []).
Proof.
  induction n as [|n IH]; intros s c ok s' c' Hw E; cbn [flush_loop] in E.
  { injection E as <- <- <-. split_and!; try done; lia. }
  destruct (Z.ltb_spec 0 (available s)) as [Ha|Ha].
  - destruct (io_send 0 s c) as [[s1|] c1] eqn:E1; pose proof (io_send_spec _ _ _ _ _ Hw E1) as S1.
    + destruct S1 as (W1 & B1 & _ & F1). destruct (IH _ _ _ _ _ W1 E) as (W2 & B2 & F2).
      split; [done|]. split; [congruence|]. intros Q Hn. destruct (F1 Q) as (Q1 & Q2 & Q3).
      assert (Hz : io_unread s1 = []) by (unfold io_unread; by rewrite Q2, drop_nil).
      destruct n as [|n]; [injection E as <- <- <-; done|]. apply F2; [done|lia].
    + injection E as <- <- <-. destruct S1 as [-> ?]. done.
  - injection E as <- <- <-. split; [done|]. split; [done|]. intros _ _. split; [done|].
    apply io_unread_nil; [done|]. rewrite available_unread in * by done. pose proof (zlen_nonneg (io_unread s)). lia.
Qed.

(** The use of an output stream: writes and flushes until one throws, with
    the bytes of the writes that were not refused. *)
Inductive out_run : IOStream -> OutChannel -> list Z -> Prop :=
| or_start blen script : 0 < blen -> out_run (newIOStream blen) (mkOutChannel script []) []
| or_write s c acc iov flush n s' c' :
    out_run s c acc -> io_write iov flush s c = (Some n, s', c') ->
    out_run s' c' (acc ++ if n =? 0 then [] else concat iov)
| or_flush s c acc ok s' c' :
    out_run s c acc -> io_flush s c = (ok, s', c') -> out_run s' c' acc.

Lemma out_run_inv s c acc : out_run s c acc -> io_wf s /\ oc_bytes c ++ io_unread s = acc.
Proof.
  induction 1 as [blen script Hb | s c acc iov flush n s' c' _ [Hw Eb] E | s c acc ok s' c' _ [Hw Eb] E].
  - split; [by apply newIOStream_wf|done].
  - destruct (io_write_spec _ _ _ _ _ _ _ Hw E) as (W & P & _). split; [done|]. rewrite Eb in P.
    destruct P as [[-> P]|[-> P]]; [|by rewrite app_nil_r].
    destruct (Z.eqb_spec (zlen (concat iov)) 0) as [E0|E0]; [|done].
    apply zlen_0_nil in E0. by rewrite E0 in P.
  - destruct (flush_loop_spec _ _ _ _ _ _ Hw E) as (W & P & _). split; [done|congruence].
Qed.

(** ** Properties *)

(** C23: buffered output is atomic and in order.  However the device takes
    the bytes (part of them, none, errors), what it got followed by what
    waits in the buffer is exactly the writes that were accepted, in their
    order; a write is copied whole or, when it returns 0, not at all; even a
    write that throws is in the stream whole or not at all.  A device that
    takes all it is given never makes a write fail, and is up to date after a
    flush. *)
Theorem output_atomic s c acc iov flush :
  out_run s c acc ->
  oc_bytes c ++ io_unread s = acc /\
  (let '(r, s', c') := io_write iov flush s c in
   match r with
   | Some n => n = zlen (concat iov) /\ oc_bytes c' ++ io_unread s' = acc ++ concat iov \/
               n = 0 /\ oc_bytes c' ++ io_unread s' = acc
   | None => oc_bytes c' ++ io_unread s' = acc \/ oc_bytes c' ++ io_unread s' = acc ++ concat iov
   end /\ (oc_script c = [] -> r = Some (zlen (concat iov)))) /\
  (oc_script c = [] -> let '(ok, s', c') := io_flush s c in ok = true /\ oc_bytes c' = acc).
Proof.
  intros [Hw <-]%out_run_inv. split; [done|]. split.
  - destruct (io_write iov flush s c) as [[r s'] c'] eqn:E.
    destruct (io_write_spec _ _ _ _ _ _ _ Hw E) as (_ & P & F). destruct r; (split; [done|tauto]).
  - intros Q. destruct (io_flush s c) as [[ok s'] c'] eqn:E.
    destruct (flush_loop_spec _ _ _ _ _ _ Hw E) as (_ & P & F). destruct (F Q ltac:(lia)) as [-> U].
    split; [done|]. by rewrite <- P, U, app_nil_r.
Qed.

(** [read(buf,len)] delivers the channel's bytes in order, without loss,
    whatever the sizes of the physical reads and of the buffer; on a blocking
    channel (every read gives something) it returns [len] bytes unless the
    channel ends, and then everything the channel had has been delivered. *)
Theorem input_ordered len s c :
  io_wf s -> 0 <= len ->
  let '(bs, eof, s', c') := readInto len s c in
  io_wf s' /\ bs ++ io_unread s' ++ ch_bytes c' = io_unread s ++ ch_bytes c /\ zlen bs <= len /\
  (Forall (fun e => snd e <> []) (ch_events c) ->
     if eof then bs = io_unread s ++ ch_bytes c /\ zlen bs < len else zlen bs = len).
Proof.
  intros Hw Hl. pose proof (readInto_spec len s c Hw Hl) as H.
  destruct (readInto len s c) as [[[bs eof] s'] c']. destruct H as (W & B & L & _ & F).
  split; [done|]. split; [done|]. split; [done|]. intros HF. destruct (F HF) as (_ & F1 & F2).
  destruct eof; [|auto]. destruct (F1 eq_refl) as (E1 & E2 & E3). split; [|done].
  rewrite <- B, E1. unfold ch_bytes. rewrite E2. cbn. by rewrite app_nil_r.
Qed.

(** The new-input flag is lost.  A [read(buf,len)] that runs into a new
    file whose first physical read gives fewer bytes than are still wanted
    reads again, and the second read clears [_newInput]: the caller gets the
    old file's bytes joined to the new file's and is not told. *)
Theorem new_input_flag_lost :
  let events := [(true, [1; 2; 3]); (true, [4]); (false, [5; 6])] in
  let '(_, _, s1, c1) := readInto 2 (newIOStream 8) (mkChannel events false) in
  let '(bs, eof, s2, _) := readInto 4 s1 c1 in
  _newInput s1 = true /\ bs = [3; 4; 5; 6] /\ eof = false /\ _newInput s2 = false.
Proof. vm_compute. split_and!; reflexivity. Qed.

(** ** Witnesses *)

Lemma output_atomic_witness :
  exists s c, out_run s c [1; 2] /\ oc_bytes c ++ io_unread s = [1; 2].
Proof.
  set (w := io_write [[1]; [2]] false (newIOStream 4) (mkOutChannel [] [])).
  assert (H : out_run w.1.2 w.2 [1; 2]).
  { apply (or_write (newIOStream 4) (mkOutChannel [] []) [] [[1]; [2]] false 2);
      [apply (or_start 4 []); lia | vm_compute; reflexivity]. }
  exists w.1.2, w.2. split; [exact H|]. exact (proj1 (output_atomic _ _ _ [] false H)).
Defined.

Lemma input_ordered_witness :
  exists bs eof s' c', readInto 3 (newIOStream 2) (mkChannel [(true, [1; 2]); (false, [3; 4])] false) =
    (bs, eof, s', c') /\ bs ++ io_unread s' ++ ch_bytes c' = [1; 2; 3; 4].
Proof.
  pose proof (input_ordered 3 (newIOStream 2) (mkChannel [(true, [1; 2]); (false, [3; 4])] false)
    (newIOStream_wf 2 ltac:(lia)) ltac:(lia)) as H.
  destruct (readInto _ _ _) as [[[bs eof] s'] c']. exists bs, eof, s', c'.
  split; [reflexivity|]. exact (proj1 (proj2 H)).
Defined.
