(* ===== verification/InputHeader.v ===== *)
(** * The text header of an archive.

    [SampleInputHeader] of [src/src/nidas/core/SampleInputHeader.h] and
    [SampleInputHeader.cc]: every file of samples begins with a magic string
    and lines of the form [tag: value], up to an end tag.  The parser is
    resumable: it takes what an [IOStream] has in its buffer and can be called
    again after the next read.  Characters are bytes. *)

From Stdlib Require Import Ascii String.
From S2P Require Import Prelude StringUtil IOStream.
Open Scope list_scope.

Definition NL : Z := 10.
Definition SP : Z := 32.

(** ** Data *)

Inductive headerField :=
| ArchiveVersion | SoftwareVersion | ProjectName | SystemName | ConfigName | ConfigVersion | Dummy.

(** [headers[]]: tag, set/get functions (none for the end tag), obsolete. *)
Definition headers : list (list Z * option headerField * bool) :=
  [ (bytes_of "archive version:", Some ArchiveVersion, false);
    (bytes_of "software version:", Some SoftwareVersion, false);
    (bytes_of "project name:", Some ProjectName, false);
    (bytes_of "system name:", Some SystemName, false);
    (bytes_of "config name:", Some ConfigName, false);
    (bytes_of "config version:", Some ConfigVersion, false);
    (bytes_of "site name:", Some SystemName, true);
    (bytes_of "observation period name:", Some Dummy, true);
    (bytes_of "xml name:", Some Dummy, true);
    (bytes_of "xml version:", Some Dummy, true);
    (bytes_of "end header" ++ [NL], None, false) ].

Definition magicStrings : list (list Z) :=
  [ bytes_of "NIDAS (ncar.ucar.edu)" ++ [NL]; bytes_of "NCAR ADS3" ++ [NL] ].

Definition HEADER_BUF_LEN : Z := 256.

(** [_minMagicLen] *)
Definition minMagicLen : Z := foldr Z.min INT_MAX (map zlen magicStrings).

Inductive parseStage := PARSE_START | PARSE_MAGIC | PARSE_TAG | PARSE_VALUE | PARSE_DONE.

#[export] Instance parseStage_eq_dec : EqDecision parseStage.
Proof. solve_decision. Defined.

(** [hd_buf] is the part of [_buf] below [_headPtr]; [_tagMatch] is an index
    in [headers], [None] for [-1]. *)
Record InputHeader := mkInputHeader {
  _archiveVersion : list Z;
  _softwareVersion : list Z;
  _projectName : list Z;
  _systemName : list Z;
  _configName : list Z;
  _configVersion : list Z;
  _tagMatch : option nat;
  _size : Z;
  hd_buf : list Z;
  _stage : parseStage
}.

Definition newInputHeader : InputHeader :=
  mkInputHeader [] [] [] [] [] [] None 0 [] PARSE_START.

Definition with_parser (h : InputHeader) (tag : option nat) (size : Z) (buf : list Z)
    (st : parseStage) : InputHeader :=
  mkInputHeader (_archiveVersion h) (_softwareVersion h) (_projectName h) (_systemName h)
    (_configName h) (_configVersion h) tag size buf st.

(** The set functions; [setDummyString] does nothing. *)
Definition setField (f : headerField) (v : list Z) (h : InputHeader) : InputHeader :=
  let mk av sv pn sn cn cv :=
    mkInputHeader av sv pn sn cn cv (_tagMatch h) (_size h) (hd_buf h) (_stage h) in
  let '(av, sv, pn, sn, cn, cv) := (_archiveVersion h, _softwareVersion h, _projectName h,
                                    _systemName h, _configName h, _configVersion h) in
  match f with
  | ArchiveVersion => mk v sv pn sn cn cv
  | SoftwareVersion => mk av v pn sn cn cv
  | ProjectName => mk av sv v sn cn cv
  | SystemName => mk av sv pn v cn cv
  | ConfigName => mk av sv pn sn v cv
  | ConfigVersion => mk av sv pn sn cn v
  | Dummy => h
  end.

Definition getField (f : headerField) (h : InputHeader) : list Z :=
  match f with
  | ArchiveVersion => _archiveVersion h
  | SoftwareVersion => _softwareVersion h
  | ProjectName => _projectName h
  | SystemName => _systemName h
  | ConfigName => _configName h
  | ConfigVersion => _configVersion h
  | Dummy => []
  end.

(** ** Parsing *)

(** The end of a parse step: finished, the buffer is used up, an exception,
    or the bound on iterations was too small (never, see [parse_run]). *)
Inductive outcome := Parsed | More | ParseError | ParseFuel.

(** The exceptional exits: the stream is backed up, the parser reset. *)
Definition parse_error (h : InputHeader) (s : IOStream) : outcome * InputHeader * IOStream :=
  (ParseError, with_parser h (_tagMatch h) (_size h) [] PARSE_START, snd (backupAll s)).

(** Append up to [rlen] characters of the stream to the buffer. *)
Definition fill (rlen : Z) (h : InputHeader) (s : IOStream) : Z * InputHeader * IOStream :=
  let '(bs, s) := readBuf rlen s in
  (zlen bs, with_parser h (_tagMatch h) (_size h + zlen bs) (hd_buf h ++ bs) (_stage h), s).

(** The loop over the magic strings. *)
Fixpoint magic_loop (ms : list (list Z)) (h : InputHeader) (s : IOStream) :
    outcome * InputHeader * IOStream :=
  match ms with
  | [] => parse_error h s
  | m :: ms =>
      if bool_decide (take (Z.to_nat minMagicLen) (hd_buf h) = take (Z.to_nat minMagicLen) m) then
        let rlen := zlen m - zlen (hd_buf h) in
        let '(len, h, s) := if 0 <? rlen then fill rlen h s else (rlen, h, s) in
        if len <? rlen then (More, h, s)
        else if bool_decide (take (length m) (hd_buf h) = m) then
          (Parsed, with_parser h (_tagMatch h) (_size h) (drop (length m) (hd_buf h)) PARSE_TAG, s)
        else magic_loop ms h s
      else magic_loop ms h s
  end.

Definition parseMagic (h : InputHeader) (s : IOStream) : outcome * InputHeader * IOStream :=
  let rlen := minMagicLen - zlen (hd_buf h) in
  let '(len, h, s) := if 0 <? rlen then fill rlen h s else (rlen, h, s) in
  if len <? rlen then (More, h, s) else magic_loop magicStrings h s.

(** The search for a tag that begins with the buffer: [None] if there is
    none, otherwise the tag if it is complete. *)
Fixpoint find_tag (i : nat) (tags : list (list Z * option headerField * bool)) (buf : list Z) :
    option (option nat) :=
  match tags with
  | [] => None
  | (tag, _, _) :: tags =>
      if zlen tag <? zlen buf then find_tag (S i) tags buf
      else if bool_decide (take (length buf) tag = buf) then
        Some (if zlen buf =? zlen tag then Some i else None)
      else find_tag (S i) tags buf
  end.

Definition is_end (i : nat) : bool :=
  match headers !! i with Some (_, Some _, _) => false | _ => true end.

(** The loop of [parseTag]; [first] is [ntry == 0]. *)
Fixpoint tag_loop (fuel : nat) (first : bool) (h : InputHeader) (s : IOStream) :
    outcome * InputHeader * IOStream :=
  match fuel with
  | O => (ParseFuel, h, s)
  | S fuel =>
      let '(len, h, s) := if (zlen (hd_buf h) =? 0) || negb first then fill 1 h s else (1, h, s) in
      if len =? 0 then (More, h, s)
      else
        match find_tag 0 headers (hd_buf h) with
        | Some (Some i) =>
            (Parsed, with_parser h (Some i) (_size h) [] (if is_end i then PARSE_DONE else PARSE_VALUE), s)
        | Some None => tag_loop fuel false h s
        | None =>
            if match hd_buf h with c :: _ => isspace_byte c | [] => false end
            then tag_loop fuel false (with_parser h (_tagMatch h) (_size h) (tail (hd_buf h)) (_stage h)) s
            else
              let '(_, h, s) := if zlen (hd_buf h) <? 10 then fill 20 h s else (0, h, s) in
              parse_error h s
        end
  end.

Definition parseTag (h : InputHeader) (s : IOStream) : outcome * InputHeader * IOStream :=
  tag_loop (S (S (Z.to_nat (available s)))) true (with_parser h None (_size h) (hd_buf h) (_stage h)) s.

(** The value of a line: white space removed at both ends. *)
Definition lineValue (buf : list Z) : list Z := trimString (trim_rev buf).

Fixpoint value_loop (fuel : nat) (h : InputHeader) (s : IOStream) : outcome * InputHeader * IOStream :=
  match fuel with
  | O => (ParseFuel, h, s)
  | S fuel =>
      if HEADER_BUF_LEN <=? zlen (hd_buf h) then parse_error h s
      else
        match readBuf 1 s with
        | (c :: _, s) =>
            let h := with_parser h (_tagMatch h) (_size h + 1) (hd_buf h) (_stage h) in
            if c =? NL then
              let h' := match _tagMatch h ≫= (fun i => headers !! i) with
                        | Some (_, Some f, _) => setField f (lineValue (hd_buf h)) h
                        | _ => h
                        end in
              (Parsed, with_parser h' (_tagMatch h) (_size h) [] PARSE_TAG, s)
            else value_loop fuel (with_parser h (_tagMatch h) (_size h) (hd_buf h ++ [c]) (_stage h)) s
        | ([], s) => (More, h, s)
        end
  end.

Definition parseValue (h : InputHeader) (s : IOStream) : outcome * InputHeader * IOStream :=
  value_loop (S (Z.to_nat (available s))) h s.

(** Go on when a stage was completed, otherwise return. *)
Definition andThen (r : outcome * InputHeader * IOStream)
    (k : InputHeader -> IOStream -> outcome * InputHeader * IOStream) : outcome * InputHeader * IOStream :=
  match r with (Parsed, h, s) => k h s | _ => r end.

(** [parse(iostream)] *)
Fixpoint parse_loop (fuel : nat) (h : InputHeader) (s : IOStream) : outcome * InputHeader * IOStream :=
  match fuel with
  | O => (ParseFuel, h, s)
  | S fuel =>
      let next r := andThen r (fun h s => parse_loop fuel h s) in
      let magic h := andThen (parseMagic h s) (fun h s => next (parseTag h s)) in
      match _stage h with
      | PARSE_START => magic (with_parser h (_tagMatch h) 0 (hd_buf h) PARSE_MAGIC)
      | PARSE_MAGIC => magic h
      | PARSE_TAG => next (parseTag h s)
      | PARSE_VALUE => next (parseValue h s)
      | PARSE_DONE => (Parsed, with_parser h (_tagMatch h) (_size h) (hd_buf h) PARSE_START, s)
      end
  end.

Definition parse (h : InputHeader) (s : IOStream) : outcome * InputHeader * IOStream :=
  parse_loop (S (S (Z.to_nat (available s)))) h s.

(** [read(iostream)], with a bound on the physical reads: [None] is an
    exception. *)
Fixpoint header_read (fuel : nat) (h : InputHeader) (s : IOStream) (c : Channel) :
    option (InputHeader * IOStream * Channel) :=
  match fuel with
  | O => None
  | S fuel =>
      match parse h s with
      | (Parsed, h, s) => Some (h, s, c)
      | (More, h, s) =>
          match io_read s c with
          | (Some _, s, c) => header_read fuel h s c
          | (None, _, _) => None
          end
      | _ => None
      end
  end.

(** ** Printing: [toString()] *)

Definition header_line (h : InputHeader) (e : list Z * option headerField * bool) : list Z :=
  match e with
  | (_, _, true) => []
  | (tag, Some f, _) => tag ++ [SP] ++ getField f h ++ [NL]
  | (_, None, _) => []
  end.

Definition endTag : list Z := bytes_of "end header" ++ [NL].

Definition padding (size len : Z) : list Z :=
  let nout := if size =? 0 then len + 128 else size in
  let lim := nout - zlen endTag in
  replicate (Z.to_nat (lim - 1 - len)) SP ++ replicate (Z.to_nat (lim - Z.max len (lim - 1))) NL.

Definition toString (h : InputHeader) : list Z :=
  let text := hd [] magicStrings ++ concat (map (header_line h) headers) in
  text ++ padding (_size h) (zlen text) ++ endTag.

(** ** Reference: the header as a machine over single characters *)

Definition magic_for (buf : list Z) : option (list Z) :=
  List.find (fun m => bool_decide (take 10 buf = take 10 m)) magicStrings.

(** One character, [None] for an exception. *)
Definition hstep (h : InputHeader) (c : Z) : option InputHeader :=
  let buf := hd_buf h ++ [c] in
  let put tag b st := Some (with_parser h tag (_size h + 1) b st) in
  match _stage h with
  | PARSE_MAGIC =>
      if zlen buf <? 10 then put (_tagMatch h) buf PARSE_MAGIC
      else match magic_for buf with
           | None => None
           | Some m => if zlen buf <? zlen m then put (_tagMatch h) buf PARSE_MAGIC
                       else if bool_decide (buf = m) then put None [] PARSE_TAG else None
           end
  | PARSE_TAG =>
      match find_tag 0 headers buf with
      | Some (Some i) => put (Some i) [] (if is_end i then PARSE_DONE else PARSE_VALUE)
      | Some None => put None buf PARSE_TAG
      | None => if match buf with c :: _ => isspace_byte c | [] => false end
                then put None (tail buf) PARSE_TAG else None
      end
  | PARSE_VALUE =>
      if c =? NL then
        let h := with_parser h (_tagMatch h) (_size h + 1) (hd_buf h) (_stage h) in
        let h' := match _tagMatch h ≫= (fun i => headers !! i) with
                  | Some (_, Some f, _) => setField f (lineValue (hd_buf h)) h
                  | _ => h
                  end in
        Some (with_parser h' None (_size h) [] PARSE_TAG)
      else if zlen buf =? HEADER_BUF_LEN then None else put (_tagMatch h) buf PARSE_VALUE
  | _ => None
  end.

Fixpoint run (h : InputHeader) (bs : list Z) : outcome * InputHeader * list Z :=
  match bs with
  | [] => (More, h, [])
  | c :: r =>
      match hstep h c with
      | None => (ParseError, h, c :: r)
      | Some h' =>
          match _stage h' with
          | PARSE_DONE => (Parsed, with_parser h' (_tagMatch h') (_size h') (hd_buf h') PARSE_START, r)
          | _ => run h' r
          end
      end
  end.

(** What [parse] does before it looks at a character. *)
Definition start (h : InputHeader) : InputHeader :=
  match _stage h with
  | PARSE_START => with_parser h (_tagMatch h) 0 (hd_buf h) PARSE_MAGIC
  | PARSE_TAG => with_parser h None (_size h) (hd_buf h) PARSE_TAG
  | _ => h
  end.

(** ** Invariant of the parser between calls *)

Definition magic_incomplete (buf : list Z) : Prop :=
  zlen buf < 10 \/ exists m, magic_for buf = Some m /\ zlen buf < zlen m.

Definition hdr_wf (h : InputHeader) : Prop :=
  match _stage h with
  | PARSE_START => hd_buf h = []
  | PARSE_MAGIC => magic_incomplete (hd_buf h)
  | PARSE_TAG => hd_buf h = [] \/ find_tag 0 headers (hd_buf h) = Some None
  | PARSE_VALUE => zlen (hd_buf h) < HEADER_BUF_LEN
  | PARSE_DONE => False
  end.

Lemma minMagicLen_10 : minMagicLen = 10.
Proof. reflexivity. Qed.

Lemma magic_for_app b x : 10 <= zlen b -> magic_for (b ++ x) = magic_for b.
Proof.
  intros H. unfold magic_for, zlen in *. by rewrite take_app_le by lia.
Qed.

Lemma magic_for_in b m : magic_for b = Some m -> m ∈ magicStrings /\ take 10 b = take 10 m.
Proof.
  intros [H1 H2]%List.find_some. split; [by apply list_elem_of_In|]. by apply bool_decide_eq_true in H2.
Qed.

Lemma magic_len m : m ∈ magicStrings -> 10 <= zlen m <= 22.
Proof. intros H. repeat (apply elem_of_cons in H as [->|H]; [by vm_compute|]). by apply elem_of_nil in H. Qed.

Lemma magic_distinct m m' : m ∈ magicStrings -> m' ∈ magicStrings -> take 10 m = take 10 m' -> m = m'.
Proof.
  intros H H'. repeat (apply elem_of_cons in H as [->|H];
    [repeat (apply elem_of_cons in H' as [->|H']; [by vm_compute|]); by apply elem_of_nil in H'|]).
  by apply elem_of_nil in H.
Qed.

(** The outcome of the magic stage as a function of the buffer and what is
    available. *)
Definition magic_form (h : InputHeader) (xs : list Z) : outcome * InputHeader * list Z :=
  let all := hd_buf h ++ xs in
  let more := (More, with_parser h (_tagMatch h) (_size h + zlen xs) all PARSE_MAGIC, @nil Z) in
  if zlen all <? 10 then more
  else match magic_for all with
       | None => (ParseError, h, xs)
       | Some m =>
           if zlen all <? zlen m then more
           else if bool_decide (take (length m) all = m)
           then (Parsed, with_parser h (_tagMatch h) (_size h + (zlen m - zlen (hd_buf h))) [] PARSE_TAG,
                 drop (Z.to_nat (zlen m - zlen (hd_buf h))) xs)
           else (ParseError, h, xs)
       end.

(** The same exit, up to the state after an exception. *)
Definition agree (r : outcome * InputHeader * IOStream) (r' : outcome * InputHeader * list Z) : Prop :=
  r.1.1 = r'.1.1 /\ io_wf r.2 /\
  (r.1.1 = ParseError \/ r.1.2 = r'.1.2 /\ io_unread r.2 = r'.2).

Lemma with_parser_id h : with_parser h (_tagMatch h) (_size h) (hd_buf h) (_stage h) = h.
Proof. by destruct h. Qed.

Lemma with_parser_twice h t n b st t' n' b' st' :
  with_parser (with_parser h t n b st) t' n' b' st' = with_parser h t' n' b' st'.
Proof. done. Qed.

Lemma backupAll_wf s : io_wf s -> io_wf (snd (backupAll s)).
Proof.
  intros (H1 & H2 & H3). unfold backupAll, backup, io_wf, io_head in *. cbn. lia.
Qed.

Lemma fill_spec n h s : io_wf s -> 0 <= n ->
  exists len s', fill n h s = (len, with_parser h (_tagMatch h) (_size h + len)
      (hd_buf h ++ take (Z.to_nat n) (io_unread s)) (_stage h), s') /\
    len = Z.min n (zlen (io_unread s)) /\ io_wf s' /\ io_unread s' = drop (Z.to_nat n) (io_unread s).
Proof.
  intros Hw Hn. unfold fill. destruct (readBuf n s) as [bs s'] eqn:E.
  destruct (readBuf_spec _ _ _ _ Hw Hn E) as (W & B & L & _). rewrite available_unread in L by done.
  assert (Hb : bs = take (Z.to_nat n) (io_unread s) /\ io_unread s' = drop (Z.to_nat n) (io_unread s)).
  { rewrite <- B. unfold zlen in L. rewrite <- B, length_app in L.
    destruct (Nat.le_gt_cases (Z.to_nat n) (length bs)) as [Hle|Hgt].
    - assert (Hq : Z.to_nat n = length bs) by lia. by rewrite Hq, take_app_length, drop_app_length.
    - assert (Hz : io_unread s' = []) by (apply nil_length_inv; lia).
      by rewrite Hz, app_nil_r, take_ge, drop_ge by lia. }
  destruct Hb as [-> Hu]. exists (zlen (take (Z.to_nat n) (io_unread s))), s'. done.
Qed.

(** Case analysis on the two magic strings. *)
Lemma magic_cases b :
  magic_for b = if bool_decide (take 10 b = take 10 (bytes_of "NIDAS (ncar.ucar.edu)" ++ [NL]))
                then Some (bytes_of "NIDAS (ncar.ucar.edu)" ++ [NL])
                else if bool_decide (take 10 b = take 10 (bytes_of "NCAR ADS3" ++ [NL]))
                then Some (bytes_of "NCAR ADS3" ++ [NL]) else None.
Proof. reflexivity. Qed.

(** The loop over a list of magic strings none or one of which fits. *)
Lemma magic_loop_skip m ms h s :
  take 10 (hd_buf h) <> take 10 m -> magic_loop (m :: ms) h s = magic_loop ms h s.
Proof.
  intros Hm. cbn [magic_loop]. rewrite minMagicLen_10. change (Z.to_nat 10) with 10%nat.
  by rewrite bool_decide_eq_false_2.
Qed.

Lemma magic_loop_none ms h s :
  io_wf s -> (forall m, m ∈ ms -> take 10 (hd_buf h) <> take 10 m) -> agree (magic_loop ms h s) (ParseError, h, []).
Proof.
  intros Hw. induction ms as [|m ms IH]; intros Hm.
  - split; [done|]. split; [by apply backupAll_wf|by left].
  - rewrite magic_loop_skip by (apply Hm; by left). apply IH. intros m' Hm'. apply Hm. by right.
Qed.

Lemma take_all_split (b xs : list Z) n :
  (length b <= n)%nat -> take n (b ++ xs) = b ++ take (n - length b) xs.
Proof. intros. by rewrite take_app_ge by lia. Qed.

(** The magic string that fits the beginning of the buffer decides. *)
Lemma magic_match_form m ms h s :
  io_wf s -> _stage h = PARSE_MAGIC -> m ∈ magicStrings -> 10 <= zlen (hd_buf h) <= zlen m ->
  take 10 (hd_buf h) = take 10 m -> magic_for (hd_buf h) = Some m ->
  (forall m', m' ∈ ms -> m' ∈ magicStrings /\ m' <> m) ->
  agree (magic_loop (m :: ms) h s) (magic_form h (io_unread s)).
Proof.
  intros Hw Hst Hm Hlen E10 Emf Hms. cbn [magic_loop].
  rewrite minMagicLen_10. change (Z.to_nat 10) with 10%nat. rewrite bool_decide_eq_true_2 by done.
  set (rlen := zlen m - zlen (hd_buf h)). pose proof (zlen_nonneg (io_unread s)) as Hu.
  set (h' := with_parser h (_tagMatch h) (_size h + Z.min rlen (zlen (io_unread s)))
               (hd_buf h ++ take (Z.to_nat rlen) (io_unread s)) (_stage h)).
  assert (Hfill : exists s', (if 0 <? rlen then fill rlen h s else (rlen, h, s)) =
            (Z.min rlen (zlen (io_unread s)), h', s') /\ io_wf s' /\
            io_unread s' = drop (Z.to_nat rlen) (io_unread s)).
  { destruct (Z.ltb_spec 0 rlen) as [Hr|Hr].
    - destruct (fill_spec rlen h s Hw ltac:(lia)) as (len & s' & -> & -> & W & U). by exists s'.
    - assert (rlen = 0) as Hr0 by (unfold rlen in *; lia). exists s. unfold h'. rewrite Hr0.
      rewrite Z.min_l, Z.add_0_r by lia. cbn [Z.to_nat take]. rewrite app_nil_r, with_parser_id. done. }
  destruct Hfill as (s' & -> & W' & U'). unfold magic_form. rewrite zlen_app, magic_for_app, Emf by lia.
  destruct (Z.ltb_spec (zlen (hd_buf h) + zlen (io_unread s)) 10); [lia|].
  destruct (Z.ltb_spec (Z.min rlen (zlen (io_unread s))) rlen) as [Hshort|Hfull].
  - destruct (Z.ltb_spec (zlen (hd_buf h) + zlen (io_unread s)) (zlen m)); [|unfold rlen in *; lia].
    split; [done|]. split; [done|]. right. unfold h', zlen in *. rewrite Z.min_r by lia.
    rewrite take_ge by lia. rewrite Hst. split; [done|]. cbn [snd]. rewrite U', drop_ge by lia. done.
  - destruct (Z.ltb_spec (zlen (hd_buf h) + zlen (io_unread s)) (zlen m)); [unfold rlen in *; lia|].
    assert (Et : take (length m) (hd_buf h ++ io_unread s) = hd_buf h').
    { unfold h', rlen, zlen in *. cbn [hd_buf with_parser]. rewrite take_all_split by lia. f_equal. f_equal. lia. }
    assert (El : length (hd_buf h') = length m).
    { rewrite <- Et, length_take, length_app. unfold rlen, zlen in *. lia. }
    rewrite Et, take_ge by lia. case_bool_decide as Em.
    + split; [done|]. split; [done|]. right. cbn [fst snd]. rewrite drop_ge by lia. split; [|done].
      unfold h'. rewrite Z.min_l by lia. done.
    + destruct (magic_loop_none ms h' s' W') as (E1 & W1 & _).
      * intros m' Hm' Et'. destruct (Hms m' Hm') as [Hm1 Hm2]. apply Hm2. apply magic_distinct; [done|done|].
        rewrite <- Et', <- E10. unfold h'. cbn [hd_buf with_parser]. rewrite take_app_le; [done|]. unfold zlen in *. lia.
      * split; [done|]. split; [done|]. by left.
Qed.

Lemma magic_loop_form h s :
  io_wf s -> _stage h = PARSE_MAGIC -> magic_incomplete (hd_buf h) \/ zlen (hd_buf h) = 10 -> 10 <= zlen (hd_buf h) ->
  agree (magic_loop magicStrings h s) (magic_form h (io_unread s)).
Proof.
  intros Hw Hst Hinc Hlen.
  assert (Hle : forall m, magic_for (hd_buf h) = Some m -> zlen (hd_buf h) <= zlen m).
  { intros m Em. pose proof (magic_len m (proj1 (magic_for_in _ _ Em))).
    destruct Hinc as [[?|(m' & E & ?)]|?]; [lia| |lia]. rewrite Em in E. injection E as <-. lia. }
  pose proof (magic_cases (hd_buf h)) as Ec. unfold magicStrings.
  case_bool_decide as E1.
  - apply magic_match_form; try done; [by left|split; [done|by apply Hle]|].
    intros m' ->%list_elem_of_singleton. split; [right; by left|done].
  - rewrite magic_loop_skip by done. case_bool_decide as E2.
    + apply magic_match_form; try done; [right; by left|split; [done|by apply Hle]|].
      intros m' []%elem_of_nil.
    + rewrite magic_loop_skip by done. split; [|split; [by apply backupAll_wf|by left]].
      unfold magic_form. rewrite magic_for_app, Ec, zlen_app by done. pose proof (zlen_nonneg (io_unread s)).
      destruct (Z.ltb_spec (zlen (hd_buf h) + zlen (io_unread s)) 10); [lia|done].
Qed.

Lemma parseMagic_form h s :
  io_wf s -> _stage h = PARSE_MAGIC -> magic_incomplete (hd_buf h) ->
  agree (parseMagic h s) (magic_form h (io_unread s)).
Proof.
  intros Hw Hst Hinc. unfold parseMagic. rewrite minMagicLen_10. pose proof (zlen_nonneg (io_unread s)) as Hu.
  destruct (Z.ltb_spec 0 (10 - zlen (hd_buf h))) as [Hr|Hr].
  - destruct (fill_spec (10 - zlen (hd_buf h)) h s Hw ltac:(lia)) as (len & s' & -> & -> & W & U).
    set (n := 10 - zlen (hd_buf h)) in *.
    destruct (Z.ltb_spec (Z.min n (zlen (io_unread s))) n) as [Hs|Hs].
    + unfold magic_form. rewrite zlen_app. destruct (Z.ltb_spec (zlen (hd_buf h) + zlen (io_unread s)) 10); [|lia].
      split; [done|]. split; [done|]. right. unfold zlen in *. rewrite Z.min_r, take_ge, Hst by lia.
      split; [done|]. cbn [snd]. by rewrite U, drop_ge by lia.
    + rewrite Z.min_l by lia.
      set (h' := with_parser h (_tagMatch h) (_size h + n) (hd_buf h ++ take (Z.to_nat n) (io_unread s)) (_stage h)).
      assert (El : zlen (hd_buf h') = 10).
      { unfold h', zlen in *. cbn [hd_buf with_parser]. rewrite length_app, length_take. lia. }
      assert (Eall : hd_buf h' ++ io_unread s' = hd_buf h ++ io_unread s).
      { rewrite U. unfold h'. cbn [hd_buf with_parser]. by rewrite <- app_assoc, take_drop. }
      destruct (magic_loop_form h' s' W) as (P1 & P2 & P3); [done|by right|lia|].
      assert (Ez : zlen (io_unread s) = n + zlen (io_unread s')).
      { unfold zlen. rewrite U, length_drop. unfold zlen in *. lia. }
      revert P1 P3. unfold agree, magic_form. rewrite Eall. rewrite El.
      destruct (zlen (hd_buf h ++ io_unread s) <? 10); cbn [fst snd].
      { intros -> [?|[-> ->]]; [done|]. split; [done|]. split; [done|]. right. split; [|done].
        unfold h'. cbn [with_parser _size]. by rewrite Ez, Z.add_assoc. }
      destruct (magic_for _) as [m|] eqn:Em; [|intros ->; auto].
      destruct (zlen (hd_buf h ++ io_unread s) <? zlen m); cbn [fst snd].
      { intros -> [?|[-> ->]]; [done|]. split; [done|]. split; [done|]. right. split; [|done].
        unfold h'. cbn [with_parser _size]. by rewrite Ez, Z.add_assoc. }
      destruct (bool_decide _); cbn [fst snd]; [|intros ->; auto].
      intros -> [?|[-> ->]]; [done|]. split; [done|]. split; [done|]. right.
      pose proof (magic_len m (proj1 (magic_for_in _ _ Em))). split.
      * unfold h'. cbn [with_parser _size _tagMatch]. unfold with_parser. cbn. f_equal. lia.
      * rewrite U, drop_drop. f_equal. unfold n in *. lia.
  - destruct (Z.ltb_spec (10 - zlen (hd_buf h)) (10 - zlen (hd_buf h))); [lia|].
    apply magic_loop_form; [done|done|by left|lia].
Qed.

(** The machine until it leaves its stage. *)
Fixpoint stage_run (h : InputHeader) (bs : list Z) : outcome * InputHeader * list Z :=
  match bs with
  | [] => (More, h, [])
  | c :: r =>
      match hstep h c with
      | None => (ParseError, h, c :: r)
      | Some h' => if bool_decide (_stage h' = _stage h) then stage_run h' r else (Parsed, h', r)
      end
  end.

Lemma run_stage bs : forall h, _stage h <> PARSE_DONE ->
  run h bs = match stage_run h bs with
             | (Parsed, h', r) =>
                 match _stage h' with
                 | PARSE_DONE => (Parsed, with_parser h' (_tagMatch h') (_size h') (hd_buf h') PARSE_START, r)
                 | _ => run h' r
                 end
             | res => res
             end.
Proof.
  induction bs as [|c r IH]; intros h Hd; cbn [run stage_run]; [done|].
  destruct (hstep h c) as [h'|] eqn:E; [|done]. case_bool_decide as Es; [|done].
  rewrite <- Es in Hd. rewrite <- IH by done. by destruct (_stage h').
Qed.

Lemma stage_run_shorter bs : forall h h' r,
  stage_run h bs = (Parsed, h', r) -> (length r < length bs)%nat /\ _stage h' <> _stage h.
Proof.
  induction bs as [|c k IH]; intros h h' r; cbn [stage_run]; [done|].
  destruct (hstep h c) as [h1|] eqn:E; [|done]. case_bool_decide as Es; cbn [length].
  - intros Q. destruct (IH _ _ _ Q) as [? H]. rewrite Es in H. split; [lia|done].
  - intros [= <- <-]. split; [lia|done].
Qed.

(** *** Tags *)

Lemma find_tag_in tags buf : forall i x, find_tag i tags buf = Some x ->
  exists e, e ∈ tags /\ take (length buf) e.1.1 = buf.
Proof.
  induction tags as [|[[tag f] o] tags IH]; intros i x; cbn [find_tag]; [done|].
  destruct (zlen tag <? zlen buf).
  - intros (e & He & E)%IH. exists e. split; [by right|done].
  - case_bool_decide as E.
    + intros _. exists (tag, f, o). split; [by left|done].
    + intros (e & He & Ee)%IH. exists e. split; [by right|done].
Qed.

Lemma tag_not_space c b x : find_tag 0 headers (c :: b) = Some x -> isspace_byte c = false.
Proof.
  intros (e & He & E)%find_tag_in. revert E.
  assert (Hall : Forall (fun e : list Z * option headerField * bool =>
    match e.1.1 with c :: _ => isspace_byte c = false | [] => False end) headers) by (repeat constructor).
  rewrite Forall_forall in Hall. specialize (Hall e He). destruct e as [[[|c' tag] f] o]; [done|].
  cbn in *. by intros [= <- _].
Qed.

(** *** The invariant is kept *)

Lemma hstep_wf h c h' :
  hdr_wf h -> hstep h c = Some h' -> _stage h' = PARSE_DONE /\ hd_buf h' = [] \/ hdr_wf h'.
Proof.
  unfold hdr_wf, hstep. destruct (_stage h) eqn:Es; try done.
  - intros Hinc. destruct (Z.ltb_spec (zlen (hd_buf h ++ [c])) 10).
    { intros [= <-]. right. by left. }
    destruct (magic_for _) as [m|] eqn:Em; [|done].
    destruct (Z.ltb_spec (zlen (hd_buf h ++ [c])) (zlen m)).
    { intros [= <-]. right. cbn. right. by exists m. }
    case_bool_decide; [|done]. intros [= <-]. right. by left.
  - intros Hb. destruct (find_tag 0 headers (hd_buf h ++ [c])) as [[i|]|] eqn:Ef.
    + intros [= <-]. cbn [with_parser _stage hd_buf]. destruct (is_end i); [by left|right]. cbn. unfold HEADER_BUF_LEN. rewrite (@zlen_nil Z). lia.
    + intros [= <-]. right. by right.
    + destruct (hd_buf h) as [|c0 b] eqn:Eb; cbn [app tail].
      * destruct (isspace_byte c); [|done]. intros [= <-]. right. by left.
      * destruct Hb as [|Hb]; [done|]. apply tag_not_space in Hb. by rewrite Hb.
  - intros Hl. destruct (c =? NL).
    { intros [= <-]. right. by left. }
    rewrite zlen_app. change (zlen [c]) with 1.
    destruct (Z.eqb_spec (zlen (hd_buf h) + 1) HEADER_BUF_LEN); [done|]. intros [= <-]. right.
    cbn. rewrite zlen_app. change (zlen [c]) with 1. unfold HEADER_BUF_LEN in *. lia.
Qed.

Lemma stage_run_wf bs : forall h o h' r,
  hdr_wf h -> stage_run h bs = (o, h', r) ->
  match o with
  | More => hdr_wf h' /\ _stage h' = _stage h /\ r = []
  | Parsed => (_stage h' = PARSE_DONE /\ hd_buf h' = []) \/ hdr_wf h'
  | _ => True
  end.
Proof.
  induction bs as [|c k IH]; intros h o h' r Hw; cbn [stage_run]; [by intros [= <- <- <-]|].
  destruct (hstep h c) as [h1|] eqn:E; [|by intros [= <- _ _]].
  pose proof (hstep_wf _ _ _ Hw E) as H1. case_bool_decide as Es.
  - intros Q. destruct H1 as [[H1 _]|H1].
    + unfold hdr_wf in Hw. rewrite <- Es, H1 in Hw. done.
    + specialize (IH _ _ _ _ H1 Q). destruct o; try done. by rewrite <- Es.
  - by intros [= <- <- <-].
Qed.

(** *** Each stage of the parser is the machine's *)

(** The machine's result, with the tag index as [parseTag] will set it. *)
Definition agreeL (r r' : outcome * InputHeader * list Z) : Prop :=
  r.1.1 = r'.1.1 /\ (r.1.1 = ParseError \/ r.1.2 = r'.1.2 /\ r.2 = r'.2).

Definition clear_tag (r : outcome * InputHeader * list Z) : outcome * InputHeader * list Z :=
  match r with
  | (Parsed, h, l) => (Parsed, with_parser h None (_size h) (hd_buf h) (_stage h), l)
  | r => r
  end.

Lemma agreeL_trans r1 r2 r3 : agreeL r1 r2 -> agreeL r2 r3 -> agreeL r1 r3.
Proof. intros [E1 H1] [E2 H2]. split; [congruence|]. destruct H1 as [?|[-> ->]]; [by left|]. destruct H2 as [?|[-> ->]]; [left; congruence|by right]. Qed.

Lemma magic_form_cons h c r :
  _stage h = PARSE_MAGIC ->
  (forall m, magic_for (hd_buf h ++ c :: r) = Some m -> zlen (hd_buf h) < zlen m) ->
  agreeL (magic_form (with_parser h (_tagMatch h) (_size h + 1) (hd_buf h ++ [c]) PARSE_MAGIC) r)
         (magic_form h (c :: r)).
Proof.
  intros Hst Hm. unfold magic_form. cbn [hd_buf with_parser _size _tagMatch].
  rewrite <- app_assoc. cbn [app]. rewrite zlen_cons, Z.add_assoc.
  destruct (zlen (hd_buf h ++ c :: r) <? 10); [by split; [|right]|].
  destruct (magic_for _) as [m|]; [|by split; [|left]]. specialize (Hm m eq_refl).
  destruct (zlen (hd_buf h ++ c :: r) <? zlen m); [by split; [|right]|].
  destruct (bool_decide _); [|by split; [|left]]. split; [done|]. right. cbn [fst snd].
  rewrite zlen_app. change (zlen [c]) with 1. split.
  - unfold with_parser. cbn. f_equal. lia.
  - replace (Z.to_nat (zlen m - zlen (hd_buf h))) with (S (Z.to_nat (zlen m - (zlen (hd_buf h) + 1)))) by lia. done.
Qed.

Lemma stage_run_magic xs : forall h,
  _stage h = PARSE_MAGIC -> magic_incomplete (hd_buf h) ->
  agreeL (stage_run h xs) (clear_tag (magic_form h xs)).
Proof.
  induction xs as [|c r IH]; intros h Hst Hinc; cbn [stage_run].
  { unfold magic_form. rewrite app_nil_r. change (zlen (@nil Z)) with 0. rewrite Z.add_0_r, <- Hst, with_parser_id.
    destruct Hinc as [H|(m & Em & H)].
    - destruct (Z.ltb_spec (zlen (hd_buf h)) 10); [by split; [|right]|lia].
    - destruct (_ <? 10); [by split; [|right]|]. rewrite Em.
      destruct (Z.ltb_spec (zlen (hd_buf h)) (zlen m)); [by split; [|right]|lia]. }
  assert (Hlt : forall m, magic_for (hd_buf h ++ c :: r) = Some m -> zlen (hd_buf h) < zlen m).
  { intros m Em. pose proof (magic_len m (proj1 (magic_for_in _ _ Em))).
    destruct Hinc as [H1|(m' & Em' & H1)]; [lia|].
    destruct (Z.lt_ge_cases (zlen (hd_buf h)) 10); [lia|]. rewrite magic_for_app in Em by done. congruence. }
  assert (Hrec : magic_incomplete (hd_buf h ++ [c]) ->
    let h1 := with_parser h (_tagMatch h) (_size h + 1) (hd_buf h ++ [c]) PARSE_MAGIC in
    agreeL (stage_run h1 r) (clear_tag (magic_form h (c :: r)))).
  { intros Hi h1. eapply agreeL_trans; [by apply IH|].
    destruct (magic_form_cons h c r Hst Hlt) as [E H]. fold h1 in E, H.
    destruct (magic_form h1 r) as [[o1 h1'] r1], (magic_form h (c :: r)) as [[o2 h2'] r2]. cbn in E, H. subst o2.
    destruct H as [->|[-> ->]]; [by split; [|left]|by split; [|right]]. }
  unfold hstep. rewrite Hst.
  destruct (Z.ltb_spec (zlen (hd_buf h ++ [c])) 10) as [H10|H10].
  { cbn [_stage with_parser]. rewrite bool_decide_eq_true_2 by done. apply Hrec. by left. }
  assert (Hmf : magic_for (hd_buf h ++ c :: r) = magic_for (hd_buf h ++ [c])).
  { replace (hd_buf h ++ c :: r) with ((hd_buf h ++ [c]) ++ r) by by rewrite <- app_assoc. by apply magic_for_app. }
  assert (H10' : 10 <= zlen (hd_buf h ++ c :: r)).
  { rewrite zlen_app in *. rewrite zlen_cons in *. pose proof (zlen_nonneg r). change (zlen (@nil Z)) with 0 in H10. lia. }
  destruct (magic_for (hd_buf h ++ [c])) as [m|] eqn:Em.
  - destruct (Z.ltb_spec (zlen (hd_buf h ++ [c])) (zlen m)) as [Hs|Hs].
    { cbn [_stage with_parser]. rewrite bool_decide_eq_true_2 by done. apply Hrec. right. by exists m. }
    specialize (Hlt m Hmf). rewrite zlen_app in Hs. change (zlen [c]) with 1 in Hs.
    assert (Et : take (length m) (hd_buf h ++ c :: r) = hd_buf h ++ [c]).
    { unfold zlen in Hlt, Hs. rewrite take_all_split by lia.
      by replace (length m - length (hd_buf h))%nat with 1%nat by lia. }
    assert (Hge : zlen m <= zlen (hd_buf h ++ c :: r)).
    { rewrite zlen_app, zlen_cons. pose proof (zlen_nonneg r). lia. }
    unfold magic_form. rewrite Hmf, Et.
    destruct (Z.ltb_spec (zlen (hd_buf h ++ c :: r)) 10); [lia|].
    destruct (Z.ltb_spec (zlen (hd_buf h ++ c :: r)) (zlen m)); [lia|].
    case_bool_decide as Eb; [|by split; [|left]]. cbn [_stage with_parser].
    rewrite bool_decide_eq_false_2 by done. split; [done|]. right. cbn [clear_tag fst snd with_parser _size hd_buf _stage].
    split; [|by replace (Z.to_nat (zlen m - zlen (hd_buf h))) with 1%nat by lia].
    unfold with_parser. cbn. f_equal. lia.
  - unfold magic_form. rewrite Hmf. destruct (Z.ltb_spec (zlen (hd_buf h ++ c :: r)) 10); [lia|]. by split; [|left].
Qed.

Lemma readBuf_1 s : io_wf s ->
  match io_unread s with
  | [] => exists s', readBuf 1 s = ([], s') /\ io_wf s' /\ io_unread s' = []
  | c :: r => exists s', readBuf 1 s = ([c], s') /\ io_wf s' /\ io_unread s' = r
  end.
Proof.
  intros Hw. destruct (readBuf 1 s) as [bs s'] eqn:E.
  destruct (readBuf_spec 1 s bs s' Hw ltac:(lia) E) as (W & B & L & _). rewrite available_unread in L by done.
  destruct (io_unread s) as [|c r].
  - destruct bs; [|done]. cbn in B. by exists s'.
  - rewrite zlen_cons in L. pose proof (zlen_nonneg r). destruct bs as [|c' [|c2 bs]].
    + change (zlen (@nil Z)) with 0 in L. lia.
    + cbn in B. injection B as -> <-. by exists s'.
    + rewrite !zlen_cons in L. pose proof (zlen_nonneg bs). lia.
Qed.

(** Filling by one character, in terms of what is unread. *)
Lemma fill_1 h s : io_wf s ->
  match io_unread s with
  | [] => exists s', fill 1 h s = (0, h, s') /\ io_wf s' /\ io_unread s' = []
  | c :: r => exists s', fill 1 h s =
      (1, with_parser h (_tagMatch h) (_size h + 1) (hd_buf h ++ [c]) (_stage h), s') /\
      io_wf s' /\ io_unread s' = r
  end.
Proof.
  intros Hw. destruct (fill_spec 1 h s Hw ltac:(lia)) as (len & s' & E & El & W & U). rewrite E.
  destruct (io_unread s) as [|c r].
  - change (zlen (@nil Z)) with 0 in El. exists s'. subst len. split; [|done].
    change (take (Z.to_nat 1) (@nil Z)) with (@nil Z). by rewrite app_nil_r, Z.add_0_r, with_parser_id.
  - rewrite zlen_cons in El. pose proof (zlen_nonneg r). assert (len = 1) as -> by lia. exists s'. done.
Qed.

Lemma tag_loop_run fuel : forall (first : bool) h s,
  io_wf s -> _stage h = PARSE_TAG -> _tagMatch h = None -> hdr_wf h ->
  (length (io_unread s) + (if first then 2 else 1) <= fuel)%nat ->
  agree (tag_loop fuel first h s) (stage_run h (io_unread s)).
Proof.
  induction fuel as [|fuel IH]; intros first h s Hw Hst Htag Hwf Hf; [destruct first; lia|].
  cbn [tag_loop]. unfold hdr_wf in Hwf. rewrite Hst in Hwf.
  destruct ((zlen (hd_buf h) =? 0) || negb first) eqn:Eneed.
  - pose proof (fill_1 h s Hw) as Hfill. destruct (io_unread s) as [|c r] eqn:Eu.
    { destruct Hfill as (s' & -> & W & U). cbn [stage_run]. change (0 =? 0) with true. cbn match.
      split; [done|]. split; [done|by right]. }
    destruct Hfill as (s' & -> & W & U). change (1 =? 0) with false. cbn match. cbn [stage_run].
    unfold hstep. rewrite Hst. cbn [hd_buf with_parser]. rewrite Htag.
    destruct (find_tag 0 headers (hd_buf h ++ [c])) as [[i|]|] eqn:Ef; cbn [_stage with_parser _size].
    + rewrite bool_decide_eq_false_2 by (by destruct (is_end i)). split; [done|]. split; [done|by right].
    + rewrite bool_decide_eq_true_2 by done. rewrite <- U. apply IH; try done.
      * unfold hdr_wf. cbn. by right.
      * rewrite U. cbn [length] in Hf. destruct first; lia.
    + destruct (match hd_buf h ++ [c] with c0 :: _ => isspace_byte c0 | [] => false end) eqn:Esp.
      * cbn [_stage with_parser]. rewrite bool_decide_eq_true_2 by done. rewrite <- U.
        assert (Hb : hd_buf h = []).
        { destruct (hd_buf h) as [|c0 b] eqn:Eb; [done|]. destruct Hwf as [|Hb]; [done|].
          apply tag_not_space in Hb. cbn in Esp. congruence. }
        apply IH; try done.
        -- unfold hdr_wf. cbn. rewrite Hb. by left.
        -- rewrite U. cbn [length] in Hf. destruct first; lia.
      * destruct (zlen (hd_buf h ++ [c]) <? 10).
        -- destruct (fill_spec 20 (with_parser h None (_size h + 1) (hd_buf h ++ [c]) PARSE_TAG) s' W ltac:(lia))
             as (len & s'' & -> & _ & W' & _).
           split; [done|]. split; [by apply backupAll_wf|by left].
        -- split; [done|]. split; [by apply backupAll_wf|by left].
  - apply orb_false_iff in Eneed as [En Ef]. apply negb_false_iff in Ef. subst first.
    change (1 =? 0) with false. cbn match. destruct Hwf as [Hb|Hb].
    { rewrite Hb in En. done. }
    rewrite Hb. apply IH; try done; [|lia]. unfold hdr_wf. rewrite Hst. by right.
Qed.

Lemma parseTag_run h s :
  io_wf s -> _stage h = PARSE_TAG -> hdr_wf h ->
  agree (parseTag h s) (stage_run (start h) (io_unread s)).
Proof.
  intros Hw Hst Hwf. unfold parseTag, start. rewrite Hst. apply tag_loop_run; try done.
  - unfold hdr_wf in *. by rewrite Hst in Hwf.
  - rewrite available_unread by done. unfold zlen. lia.
Qed.

Lemma value_loop_run fuel : forall h s,
  io_wf s -> _stage h = PARSE_VALUE -> zlen (hd_buf h) < HEADER_BUF_LEN ->
  (length (io_unread s) < fuel)%nat ->
  let '(o, h', r) := stage_run h (io_unread s) in
  agree (value_loop fuel h s)
    (o, match o with Parsed => with_parser h' (_tagMatch h) (_size h') (hd_buf h') (_stage h') | _ => h' end, r).
Proof.
  induction fuel as [|fuel IH]; intros h s Hw Hst Hl Hf; [lia|]. cbn [value_loop].
  destruct (Z.leb_spec HEADER_BUF_LEN (zlen (hd_buf h))); [lia|]. pose proof (readBuf_1 s Hw) as Hr.
  destruct (io_unread s) as [|c r] eqn:Eu; cbn [stage_run].
  { destruct Hr as (s' & -> & W & U). split; [done|]. split; [done|by right]. }
  destruct Hr as (s' & -> & W & U). unfold hstep. rewrite Hst. destruct (c =? NL) eqn:Ec.
  { cbn [_stage with_parser]. rewrite bool_decide_eq_false_2 by done.
    split; [done|]. split; [done|]. right. split; [|done]. cbn [fst snd _tagMatch with_parser].
    destruct (_ ≫= _) as [[[? [f|]] ?]|]; reflexivity. }
  cbn [_stage with_parser _tagMatch _size hd_buf]. rewrite zlen_app. change (zlen [c]) with 1.
  destruct (Z.eqb_spec (zlen (hd_buf h) + 1) HEADER_BUF_LEN) as [E|E].
  - destruct fuel as [|fuel]; [cbn [length] in Hf; lia|]. cbn [value_loop].
    cbn [hd_buf with_parser]. rewrite zlen_app. change (zlen [c]) with 1. rewrite E, Z.leb_refl.
    split; [done|]. split; [by apply backupAll_wf|by left].
  - cbn [_stage with_parser]. rewrite bool_decide_eq_true_2 by done. rewrite <- U.
    specialize (IH (with_parser h (_tagMatch h) (_size h + 1) (hd_buf h ++ [c]) PARSE_VALUE) s' W eq_refl).
    cbn [hd_buf with_parser _tagMatch] in IH. rewrite zlen_app in IH. change (zlen [c]) with 1 in IH.
    apply IH; [unfold HEADER_BUF_LEN in *; lia|]. rewrite U. cbn [length] in Hf. lia.
Qed.

(** A stage of the parser followed by the rest, against the machine. *)
Lemma next_run fuel h0 r0 (res : outcome * InputHeader * IOStream) xs :
  (forall h s, io_wf s -> hdr_wf h -> (length (io_unread s) + 2 <= fuel)%nat ->
     agree (parse_loop fuel h s) (run (start h) (io_unread s))) ->
  (length xs + 2 <= S fuel)%nat -> hdr_wf h0 -> _stage h0 <> PARSE_DONE ->
  stage_run h0 xs = r0 ->
  agree res (r0.1.1, match r0.1.1 with
                     | Parsed => match _stage r0.1.2 with
                                 | PARSE_TAG => with_parser r0.1.2 (_tagMatch res.1.2) (_size r0.1.2) (hd_buf r0.1.2) PARSE_TAG
                                 | _ => r0.1.2
                                 end
                     | _ => r0.1.2 end, r0.2) ->
  (_stage r0.1.2 = PARSE_TAG -> r0.1.1 = Parsed -> _tagMatch r0.1.2 = None) ->
  agree (andThen res (fun h s => parse_loop fuel h s)) (run h0 xs).
Proof.
  intros IH Hf Hwf Hd E0 (E1 & W & E2) Htag. rewrite run_stage by done. rewrite E0.
  destruct r0 as [[o h1] r1], res as [[o' h'] s']. cbn [fst snd] in *. subst o'. unfold andThen.
  pose proof (stage_run_wf _ _ _ _ _ Hwf E0) as Hwf1. destruct o.
  - destruct E2 as [?|[E2 E3]]; [done|]. destruct (stage_run_shorter _ _ _ _ E0) as [Hlt _].
    destruct Hwf1 as [[Hd1 Hb1]|Hwf1].
    + rewrite Hd1 in *. subst h'. destruct fuel as [|fuel]; [lia|]. cbn [parse_loop]. rewrite Hd1.
      split; [done|]. split; [done|by right].
    + assert (Hne : _stage h1 <> PARSE_DONE) by (intros Q; unfold hdr_wf in Hwf1; by rewrite Q in Hwf1).
      assert (Hnst : _stage h1 <> PARSE_START).
      { clear -E0. revert h0 E0. induction xs as [|c k IHk]; intros h0; cbn [stage_run]; [done|].
        destruct (hstep h0 c) as [hh|] eqn:E; [|done]. case_bool_decide as Q; [apply IHk|].
        intros [= <- _]. clear Q IHk. unfold hstep in E. destruct (_stage h0); try done;
          repeat case_match; simplify_eq; done. }
      assert (Hst : start h' = h1 /\ hdr_wf h').
      { destruct (_stage h1) eqn:Es; try done; rewrite E2.
        - unfold start. by rewrite Es.
        - unfold start. cbn [with_parser _stage]. split.
          + etransitivity; [|apply with_parser_id]. by rewrite Es, (Htag eq_refl eq_refl).
          + unfold hdr_wf in *. rewrite Es in Hwf1. done.
        - unfold start. by rewrite Es. }
      destruct Hst as [Hst Hwf']. specialize (IH h' s' W Hwf'). rewrite E3, Hst in IH.
      destruct (_stage h1); try done; apply IH; lia.
  - split; [done|]. split; [done|]. by destruct E2 as [?|?]; [left|right].
  - split; [done|]. split; [done|]. by left.
  - split; [done|]. split; [done|]. by destruct E2 as [?|?]; [left|right].
Qed.

Lemma hstep_tag_none h c h' : hstep h c = Some h' -> _stage h' = PARSE_TAG -> _tagMatch h' = None.
Proof.
  unfold hstep. destruct (_stage h); try done; repeat case_match; intros; simplify_eq; try done;
    by destruct (is_end _).
Qed.

Lemma stage_run_tag_none xs : forall h h' r,
  stage_run h xs = (Parsed, h', r) -> _stage h' = PARSE_TAG -> _tagMatch h' = None.
Proof.
  induction xs as [|c k IH]; intros h h' r; cbn [stage_run]; [done|].
  destruct (hstep h c) as [h1|] eqn:E; [|done]. case_bool_decide; [apply IH|].
  intros [= <- <-]. by eapply hstep_tag_none.
Qed.

Lemma parse_loop_run fuel : forall h s,
  io_wf s -> hdr_wf h -> (length (io_unread s) + 2 <= fuel)%nat ->
  agree (parse_loop fuel h s) (run (start h) (io_unread s)).
Proof.
  induction fuel as [|fuel IH]; intros h s Hw Hwf Hf; [lia|]. cbn [parse_loop].
  assert (Htag : forall h s, io_wf s -> _stage h = PARSE_TAG -> hdr_wf h -> (length (io_unread s) + 2 <= S fuel)%nat ->
    agree (andThen (parseTag h s) (fun h s => parse_loop fuel h s)) (run (start h) (io_unread s))).
  { clear h s Hw Hwf Hf. intros h s Hw Hst Hwf Hf.
    assert (Es : start h = with_parser h None (_size h) (hd_buf h) PARSE_TAG) by (unfold start; by rewrite Hst).
    assert (Hwf' : hdr_wf (start h)) by (rewrite Es; unfold hdr_wf in *; by rewrite Hst in Hwf).
    eapply next_run; [exact IH|done|done|by rewrite Es|reflexivity| |].
    - destruct (parseTag_run h s Hw Hst Hwf) as (E1 & W & E2). split; [done|]. split; [done|].
      destruct (stage_run (start h) (io_unread s)) as [[o h1] r1] eqn:E. cbn [fst snd] in *.
      destruct E2 as [?|[E2 E3]]; [by left|right]. split; [|done]. destruct o; try done.
      destruct (_stage h1) eqn:Es1; try done. exfalso.
      destruct (stage_run_shorter _ _ _ _ E) as [_ Hne]. rewrite Es in Hne. cbn in Hne. congruence.
    - intros H1 H2. destruct (stage_run _ _) as [[o h1] r1] eqn:E. cbn in *. subst o. by eapply stage_run_tag_none. }
  assert (Hmagic : forall h s, io_wf s -> _stage h = PARSE_MAGIC -> hdr_wf h -> (length (io_unread s) + 2 <= S fuel)%nat ->
    agree (andThen (parseMagic h s) (fun h s => andThen (parseTag h s) (fun h s => parse_loop fuel h s)))
      (run h (io_unread s))).
  { clear h s Hw Hwf Hf. intros h s Hw Hst Hwf Hf.
    assert (Hinc : magic_incomplete (hd_buf h)) by (unfold hdr_wf in Hwf; by rewrite Hst in Hwf).
    destruct (parseMagic_form h s Hw Hst Hinc) as (E1 & W & E2). unfold andThen at 1.
    destruct (stage_run_magic (io_unread s) h Hst Hinc) as (F1 & F2).
    rewrite run_stage by (by rewrite Hst).
    destruct (parseMagic h s) as [[o hm] sm], (magic_form h (io_unread s)) as [[o' hf] rf] eqn:Ef,
      (stage_run h (io_unread s)) as [[o'' hr] rr] eqn:Er.
    cbn [fst snd] in *. subst o'. destruct o; cbn [clear_tag fst snd] in *; subst o''.
    - destruct E2 as [?|[-> E3]]; [done|]. destruct F2 as [?|[-> ->]]; [done|].
      pose proof (stage_run_wf _ _ _ _ _ Hwf Er) as Hwf1. destruct (stage_run_shorter _ _ _ _ Er) as [Hlt _].
      assert (Est : _stage hf = PARSE_TAG).
      { revert Ef. unfold magic_form. destruct (_ <? 10); [done|]. destruct (magic_for _); [|done].
        destruct (_ <? _); [done|]. destruct (bool_decide _); [|done]. by intros [= <- _]. }
      rewrite Est in *. cbn [with_parser _stage] in *. destruct Hwf1 as [[? _]|Hwf1]; [done|].
      specialize (Htag hf sm W Est). rewrite E3 in Htag.
      assert (Hs : start hf = with_parser hf None (_size hf) (hd_buf hf) PARSE_TAG) by (unfold start; by rewrite Est).
      rewrite Hs in Htag. apply Htag; [|lia]. unfold hdr_wf in *. by rewrite Est.
    - split; [done|]. split; [done|]. right. destruct E2 as [?|[-> E3]]; [done|]. destruct F2 as [?|[-> ->]]; done.
    - split; [done|]. split; [done|by left].
    - split; [done|]. split; [done|]. right. destruct E2 as [?|[-> E3]]; [done|]. destruct F2 as [?|[-> ->]]; done. }
  unfold start. unfold hdr_wf in Hwf. destruct (_stage h) eqn:Est.
  - apply Hmagic; try done. unfold hdr_wf. cbn. rewrite Hwf. by left.
  - apply Hmagic; try done. unfold hdr_wf. by rewrite Est.
  - assert (Hs : start h = with_parser h None (_size h) (hd_buf h) PARSE_TAG) by (unfold start; by rewrite Est).
    rewrite <- Hs. apply Htag; try done. unfold hdr_wf. by rewrite Est.
  - eapply (next_run fuel h); [exact IH|done|unfold hdr_wf; by rewrite Est|by rewrite Est|reflexivity| |].
    + unfold parseValue. pose proof (value_loop_run (S (Z.to_nat (available s))) h s Hw Est Hwf) as Hv.
      destruct (stage_run h (io_unread s)) as [[o h1] r1] eqn:E. cbn [fst snd].
      destruct Hv as (E1 & W & E2); [rewrite available_unread by done; unfold zlen; lia|].
      split; [done|]. split; [done|]. cbn [fst snd] in *. destruct E2 as [?|[E2 E3]]; [by left|right].
      split; [|done]. rewrite E2. destruct o; try done. cbn [with_parser _tagMatch].
      assert (Hs1 : _stage h1 = PARSE_TAG).
      { clear -E Est. revert h E Est. induction (io_unread s) as [|c k IHk]; intros h; cbn [stage_run]; [done|].
        destruct (hstep h c) as [hh|] eqn:E; [|done]. intros Q Est. case_bool_decide as Qs; [eapply IHk; [exact Q|congruence]|].
        injection Q as <- _. unfold hstep in E. rewrite Est in E. repeat case_match; simplify_eq; try done. }
      by rewrite Hs1.
    + intros H1 H2. destruct (stage_run _ _) as [[o h1] r1] eqn:E. cbn in *. subst o. by eapply stage_run_tag_none.
  - done.
Qed.

Lemma parse_agree h s : io_wf s -> hdr_wf h -> agree (parse h s) (run (start h) (io_unread s)).
Proof. intros. apply parse_loop_run; [done|done|]. rewrite available_unread by done. unfold zlen. lia. Qed.

(** Parsing keeps the size of the stream's buffer. *)
Lemma fill_buflen n h s : _buflen (fill n h s).2 = _buflen s.
Proof. done. Qed.

Lemma magic_loop_buflen ms : forall h s, _buflen (magic_loop ms h s).2 = _buflen s.
Proof.
  induction ms as [|m ms IH]; intros h s; cbn [magic_loop]; [done|].
  case_bool_decide; [|apply IH]. destruct (0 <? zlen m - zlen (hd_buf h)).
  - pose proof (fill_buflen (zlen m - zlen (hd_buf h)) h s) as Hf. destruct (fill _ h s) as [[len h1] s1]. cbn [snd] in Hf.
    destruct (len <? _); [done|]. case_bool_decide; [done|]. by rewrite IH.
  - destruct (_ <? _); [done|]. case_bool_decide; [done|]. by rewrite IH.
Qed.

Lemma parseMagic_buflen h s : _buflen (parseMagic h s).2 = _buflen s.
Proof.
  unfold parseMagic. destruct (0 <? _).
  - pose proof (fill_buflen (minMagicLen - zlen (hd_buf h)) h s) as Hf. destruct (fill _ h s) as [[len h1] s1]. cbn [snd] in Hf.
    destruct (len <? _); [done|]. by rewrite magic_loop_buflen.
  - destruct (_ <? _); [done|]. by rewrite magic_loop_buflen.
Qed.

Lemma tag_loop_buflen fuel : forall first h s, _buflen (tag_loop fuel first h s).2 = _buflen s.
Proof.
  induction fuel as [|fuel IH]; intros first h s; cbn [tag_loop]; [done|].
  assert (G : forall len h1 s1, _buflen s1 = _buflen s -> _buflen
    (if len =? 0 then (More, h1, s1)
     else match find_tag 0 headers (hd_buf h1) with
          | Some (Some i) => (Parsed, with_parser h1 (Some i) (_size h1) [] (if is_end i then PARSE_DONE else PARSE_VALUE), s1)
          | Some None => tag_loop fuel false h1 s1
          | None => if match hd_buf h1 with c :: _ => isspace_byte c | [] => false end
                    then tag_loop fuel false (with_parser h1 (_tagMatch h1) (_size h1) (tail (hd_buf h1)) (_stage h1)) s1
                    else let '(_, h2, s2) := if zlen (hd_buf h1) <? 10 then fill 20 h1 s1 else (0, h1, s1) in parse_error h2 s2
          end).2 = _buflen s).
  { intros len h1 s1 E. destruct (len =? 0); [done|]. destruct (find_tag _ _ _) as [[i|]|]; [done|by rewrite IH|].
    destruct (match hd_buf h1 with [] => _ | _ => _ end); [by rewrite IH|].
    pose proof (fill_buflen 20 h1 s1) as Hf. destruct (zlen _ <? 10); [|done]. destruct (fill 20 h1 s1) as [[? ?] ?]. cbn in *. congruence. }
  destruct (_ || _); [|by apply G]. pose proof (fill_buflen 1 h s) as Hf. destruct (fill 1 h s) as [[len h1] s1]. by apply G.
Qed.

Lemma value_loop_buflen fuel : forall h s, _buflen (value_loop fuel h s).2 = _buflen s.
Proof.
  induction fuel as [|fuel IH]; intros h s; cbn [value_loop]; [done|]. destruct (_ <=? _); [done|].
  destruct (readBuf 1 s) as [bs s1] eqn:E. assert (Es : _buflen s1 = _buflen s) by (injection E as _ <-; done).
  destruct bs as [|c bs]; [done|]. destruct (c =? NL); [done|]. by rewrite IH.
Qed.

Lemma parse_loop_buflen fuel : forall h s, _buflen (parse_loop fuel h s).2 = _buflen s.
Proof.
  induction fuel as [|fuel IH]; intros h s; cbn [parse_loop]; [done|].
  assert (N : forall r, _buflen r.2 = _buflen s -> _buflen (andThen r (fun h s => parse_loop fuel h s)).2 = _buflen s).
  { intros [[o h1] s1] E. unfold andThen. destruct o; try done. by rewrite IH. }
  assert (M : forall h, _buflen (andThen (parseMagic h s) (fun h s => andThen (parseTag h s) (fun h s => parse_loop fuel h s))).2 = _buflen s).
  { intros h1. pose proof (parseMagic_buflen h1 s) as E. destruct (parseMagic h1 s) as [[o h2] s2]. cbn [snd] in E.
    destruct o; cbn [andThen]; try done. rewrite <- E in N |- *. apply N, tag_loop_buflen. }
  destruct (_stage h); [apply M|apply M|apply N, tag_loop_buflen|apply N, value_loop_buflen|done].
Qed.

(** ** Resuming *)

Lemma run_app xs ys : forall h,
  run h (xs ++ ys) = match run h xs with
                     | (More, h', _) => run h' ys
                     | (o, h', r) => (o, h', r ++ ys)
                     end.
Proof.
  induction xs as [|c r IH]; intros h; cbn [app run]; [done|].
  destruct (hstep h c) as [h'|]; [|done]. destruct (_stage h'); try apply IH. done.
Qed.

Lemma start_start h : start (start h) = start h.
Proof. unfold start. destruct (_stage h) eqn:E; cbn; rewrite ?E; done. Qed.

Lemma start_wf h : hdr_wf h -> hdr_wf (start h).
Proof. unfold hdr_wf, start. destruct (_stage h) eqn:E; cbn; rewrite ?E; try done. intros ->. by left. Qed.

Lemma hstep_start h c h' : hstep h c = Some h' -> start h' = h' \/ _stage h' = PARSE_DONE.
Proof.
  intros E. pose proof (hstep_tag_none _ _ _ E) as Ht. unfold start. destruct (_stage h') eqn:Es; auto.
  - exfalso. unfold hstep in E. destruct (_stage h); try done; repeat case_match; simplify_eq; cbn in Es; try done;
      by destruct (is_end _).
  - left. etransitivity; [|apply with_parser_id]. by rewrite Es, (Ht eq_refl).
Qed.

Lemma run_more xs : forall h h' r,
  start h = h -> hdr_wf h -> run h xs = (More, h', r) -> start h' = h' /\ hdr_wf h'.
Proof.
  induction xs as [|c k IH]; intros h h' r Hs Hw; cbn [run]; [by intros [= <- _]|].
  destruct (hstep h c) as [h1|] eqn:E; [|done].
  pose proof (hstep_wf _ _ _ Hw E) as H1. pose proof (hstep_start _ _ _ E) as H2.
  destruct (_stage h1) eqn:Es; try done; (destruct H1 as [[? _]|H1]; [congruence|]);
    (destruct H2 as [H2|]; [|congruence]); by apply IH.
Qed.

Lemma run_more_rest xs : forall h h' r, run h xs = (More, h', r) -> r = [].
Proof.
  induction xs as [|c k IH]; intros h h' r; cbn [run]; [by intros [= _ <-]|].
  destruct (hstep h c) as [hh|]; [|done]. destruct (_stage hh); try apply IH. done.
Qed.

Lemma run_shorter xs : forall h o h' r, run h xs = (o, h', r) -> (length r <= length xs)%nat.
Proof.
  induction xs as [|c k IH]; intros h o h' r; cbn [run]; [intros [= _ _ <-]; done|].
  destruct (hstep h c) as [hh|]; [|intros [= _ _ <-]; cbn; lia].
  destruct (_stage hh); try (intros H%IH; cbn; lia). intros [= _ _ <-]. cbn. lia.
Qed.

(** The loop of [read()] ends with what the machine gives on the whole
    input, however the reads cut it. *)
Lemma header_read_run fuel : forall h s c h' r,
  io_wf s -> hdr_wf h -> Forall (fun e => snd e <> []) (ch_events c) ->
  (length (ch_bytes c) < fuel)%nat ->
  run (start h) (io_unread s ++ ch_bytes c) = (Parsed, h', r) ->
  exists s' c', header_read fuel h s c = Some (h', s', c') /\ io_wf s' /\
    io_unread s' ++ ch_bytes c' = r.
Proof.
  induction fuel as [|fuel IH]; intros h s c h' r Hw Hwf Hne Hf Hrun; [lia|]. cbn [header_read].
  destruct (parse_agree h s Hw Hwf) as (E1 & W & E2). rewrite run_app in Hrun.
  destruct (parse h s) as [[o h1] s1], (run (start h) (io_unread s)) as [[o' h2] r2] eqn:Er.
  cbn [fst snd] in *. subst o'. destruct o; try done.
  - injection Hrun as <- <-. destruct E2 as [?|[-> E3]]; [done|]. exists s1, c. by rewrite E3.
  - destruct E2 as [?|[-> E3]]; [done|].
    destruct (run_more _ _ _ _ (start_start h) (start_wf h Hwf) Er) as [Hs2 Hw2].
    apply run_more_rest in Er as ->.
    destruct (io_read s1 c) as [[[n|] s2] c2] eqn:Ei;
      destruct (io_read_spec _ _ _ _ _ W Ei) as (W2 & B2 & _ & F2 & P2); rewrite E3 in *; cbn [app] in B2.
    + assert (Ha : available s1 = 0) by (rewrite available_unread, E3 by done; done).
      rewrite Ha in P2. cbn in P2. destruct P2 as [P2 P3]. specialize (P3 Hne).
      apply (IH h2 s2 c2 h' r); try done; [by apply F2| |by rewrite Hs2, B2].
      rewrite <- B2, length_app in Hf. unfold zlen in P2. lia.
    + exfalso. destruct P2 as (_ & P2 & _). unfold ch_bytes in Hrun. by rewrite P2 in Hrun.
Qed.

(** ** The machine on a printed header *)

Definition clean (v : list Z) : Prop := (NL ∉ v) /\ lineValue v = v /\ zlen v < 255.

Lemma run_steps_tag tag i : forall pre post xs h,
  tag = pre ++ post -> post <> [] ->
  (forall k, (length pre < k < length tag)%nat -> find_tag 0 headers (take k tag) = Some None) ->
  find_tag 0 headers tag = Some (Some i) ->
  _stage h = PARSE_TAG -> _tagMatch h = None -> hd_buf h = pre ->
  run h (post ++ xs) =
    if is_end i then (Parsed, with_parser h (Some i) (_size h + zlen post) [] PARSE_START, xs)
    else run (with_parser h (Some i) (_size h + zlen post) [] PARSE_VALUE) xs.
Proof.
  intros pre post. revert pre. induction post as [|c post IH]; intros pre xs h Et Hp Hk Hf Hst Htag Hb; [done|].
  cbn [app run]. unfold hstep. rewrite Hst, Hb. destruct post as [|c2 post].
  - rewrite <- Et, Hf. cbn [_stage with_parser]. by destruct (is_end i).
  - assert (Ek : pre ++ [c] = take (S (length pre)) tag).
    { rewrite Et, take_all_split by lia. by replace (S (length pre) - length pre)%nat with 1%nat by lia. }
    rewrite Ek, Hk by (rewrite Et, length_app; cbn; lia). cbn [_stage with_parser].
    rewrite (IH (pre ++ [c])); try done; cbn [_size with_parser].
    + rewrite with_parser_twice. rewrite (zlen_cons c), Z.add_assoc. done.
    + rewrite Et, <- app_assoc. done.
    + intros k Hk'. apply Hk. rewrite length_app in Hk'. cbn in Hk'. lia.
Qed.

Lemma run_value v : forall xs h f tag o i,
  headers !! i = Some (tag, Some f, o) -> NL ∉ v -> zlen (hd_buf h) + zlen v < HEADER_BUF_LEN ->
  _stage h = PARSE_VALUE -> _tagMatch h = Some i ->
  run h (v ++ NL :: xs) =
    run (with_parser (setField f (lineValue (hd_buf h ++ v)) h) None (_size h + zlen v + 1) [] PARSE_TAG) xs.
Proof.
  induction v as [|c v IH]; intros xs h f tag o i Hi Hn Hl Hst Htag; cbn [app run]; unfold hstep; rewrite Hst.
  - change (NL =? NL) with true. cbn match. rewrite Htag. cbn [with_parser _tagMatch mbind option_bind _stage].
    rewrite Hi. cbn [_stage with_parser]. rewrite app_nil_r. change (zlen (@nil Z)) with 0. rewrite Z.add_0_r.
    destruct f; reflexivity.
  - rewrite zlen_cons in Hl. pose proof (zlen_nonneg v). apply not_elem_of_cons in Hn as [Hc Hn].
    destruct (Z.eqb_spec c NL) as [->|_]; [done|]. rewrite zlen_app. change (zlen [c]) with 1.
    destruct (Z.eqb_spec (zlen (hd_buf h) + 1) HEADER_BUF_LEN); [lia|]. cbn [_stage with_parser].
    erewrite IH; try done; cbn [hd_buf with_parser _size _tagMatch]; [|rewrite zlen_app; change (zlen [c]) with 1; lia].
    rewrite <- app_assoc. cbn [app]. rewrite (zlen_cons c). 
    replace (_size h + 1 + zlen v + 1) with (_size h + (1 + zlen v) + 1) by lia. destruct f; reflexivity.
Qed.

Lemma run_space ws : forall xs h,
  Forall (fun c => isspace_byte c = true) ws -> _stage h = PARSE_TAG -> _tagMatch h = None -> hd_buf h = [] ->
  run h (ws ++ xs) = run (with_parser h None (_size h + zlen ws) [] PARSE_TAG) xs.
Proof.
  induction ws as [|c ws IH]; intros xs h Hws Hst Htag Hb; cbn [app].
  - change (zlen (@nil Z)) with 0. rewrite Z.add_0_r. f_equal. symmetry. etransitivity; [|apply with_parser_id].
    by rewrite Hst, Htag, Hb.
  - apply Forall_cons in Hws as [Hc Hws]. cbn [run]. unfold hstep. rewrite Hst, Hb. cbn [app].
    destruct (find_tag 0 headers [c]) as [x|] eqn:E; [apply tag_not_space in E; congruence|].
    rewrite Hc. cbn [_stage with_parser tail]. rewrite IH by done. cbn [_size with_parser].
    by rewrite with_parser_twice, zlen_cons, Z.add_assoc.
Qed.

(** Every proper beginning of a tag is recognised as such. *)
Definition prefixes_partial (tag : list Z) : bool :=
  forallb (fun k => match find_tag 0 headers (take k tag) with Some None => true | _ => false end)
    (seq 1 (length tag - 1)).

Lemma prefixes_partial_spec tag k :
  prefixes_partial tag = true -> (0 < k < length tag)%nat -> find_tag 0 headers (take k tag) = Some None.
Proof.
  unfold prefixes_partial. rewrite forallb_forall. intros H Hk. specialize (H k).
  destruct (find_tag _ _ _) as [[|]|]; try done; by discriminate H; apply in_seq; lia.
Qed.

Lemma tags_recognised :
  forallb (fun i => match headers !! i with
     | Some (tag, _, _) => prefixes_partial tag && bool_decide (find_tag 0 headers tag = Some (Some i)) &&
         negb (bool_decide (tag = []))
     | None => false end) (seq 0 (length headers)) = true.
Proof. vm_compute. reflexivity. Qed.

Lemma tag_recognised i tag f o :
  headers !! i = Some (tag, f, o) ->
  prefixes_partial tag = true /\ find_tag 0 headers tag = Some (Some i) /\ tag <> [].
Proof.
  intros Hi. pose proof tags_recognised as H. rewrite forallb_forall in H.
  specialize (H i (proj2 (in_seq _ _ _) (conj (Nat.le_0_l i) (lookup_lt_Some _ _ _ Hi)))). rewrite Hi in H.
  apply andb_true_iff in H as [[H1 H2]%andb_true_iff H3].
  apply bool_decide_eq_true in H2. apply negb_true_iff, bool_decide_eq_false in H3. done.
Qed.

Definition put_field (f : headerField) (v : list Z) (n : Z) (h : InputHeader) : InputHeader :=
  with_parser (setField f v h) None (_size h + n) [] PARSE_TAG.

Lemma line_run i tag f o h v xs :
  headers !! i = Some (tag, Some f, o) -> clean v ->
  _stage h = PARSE_TAG -> _tagMatch h = None -> hd_buf h = [] ->
  run h ((tag ++ [SP] ++ v ++ [NL]) ++ xs) = run (put_field f v (zlen tag + zlen v + 2) h) xs.
Proof.
  intros Hi (Hn & Hv & Hl) Hst Htag Hb. destruct (tag_recognised _ _ _ _ Hi) as (H1 & H2 & H3).
  rewrite <- app_assoc, (run_steps_tag tag i []); try done.
  2: { intros k Hk. apply prefixes_partial_spec; [done|cbn in Hk; lia]. }
  unfold is_end. rewrite Hi, <- !app_assoc. cbn [app].
  change (SP :: v ++ NL :: xs) with ((SP :: v) ++ NL :: xs).
  erewrite run_value; [|exact Hi| | |done|done]; cbn [hd_buf with_parser _size app].
  - unfold put_field. rewrite zlen_cons. change (lineValue (SP :: v)) with (lineValue v). rewrite Hv.
    replace (_size h + zlen tag + (1 + zlen v) + 1) with (_size h + (zlen tag + zlen v + 2)) by lia.
    destruct f; reflexivity.
  - apply not_elem_of_cons. done.
  - rewrite zlen_cons. change (zlen (@nil Z)) with 0. unfold HEADER_BUF_LEN. lia.
Qed.

Lemma end_run h xs :
  _stage h = PARSE_TAG -> _tagMatch h = None -> hd_buf h = [] ->
  run h (endTag ++ xs) = (Parsed, with_parser h (Some 10%nat) (_size h + zlen endTag) [] PARSE_START, xs).
Proof.
  intros Hst Ht Hb. destruct (tag_recognised 10 endTag None false eq_refl) as (H1 & H2 & H3).
  rewrite (run_steps_tag endTag 10 []); try done.
  intros k Hk. apply prefixes_partial_spec; [done|exact Hk].
Qed.

Lemma magic_run h xs :
  _stage h = PARSE_MAGIC -> hd_buf h = [] ->
  run h (hd [] magicStrings ++ xs) = run (with_parser h None (_size h + 22) [] PARSE_TAG) xs.
Proof.
  intros Hst Hb. rewrite run_stage by (by rewrite Hst).
  destruct (stage_run_magic (hd [] magicStrings ++ xs) h Hst) as [E1 E2]; [rewrite Hb; by left|].
  destruct (stage_run h (hd [] magicStrings ++ xs)) as [[o h'] r].
  assert (Ef : magic_form h (hd [] magicStrings ++ xs) =
    (Parsed, with_parser h (_tagMatch h) (_size h + 22) [] PARSE_TAG, xs)).
  { unfold magic_form. rewrite Hb. cbn [app]. rewrite magic_for_app by by vm_compute.
    change (magic_for (hd [] magicStrings)) with (Some (hd [] magicStrings)). rewrite zlen_app.
    pose proof (zlen_nonneg xs). change (zlen (hd [] magicStrings)) with 22. change (zlen (@nil Z)) with 0.
    destruct (Z.ltb_spec (22 + zlen xs) 10); [lia|]. destruct (Z.ltb_spec (22 + zlen xs) 22); [lia|].
    rewrite take_app_length, bool_decide_eq_true_2 by done. done. }
  rewrite Ef in E1, E2. cbn [clear_tag fst snd] in E1, E2. subst o. destruct E2 as [?|[-> ->]]; [done|]. done.
Qed.

Lemma padding_space size len : Forall (fun c => isspace_byte c = true) (padding size len).
Proof. unfold padding. apply Forall_app. split; apply Forall_replicate; reflexivity. Qed.

Definition same_values (h h' : InputHeader) : Prop :=
  _archiveVersion h' = _archiveVersion h /\ _softwareVersion h' = _softwareVersion h /\
  _projectName h' = _projectName h /\ _systemName h' = _systemName h /\
  _configName h' = _configName h /\ _configVersion h' = _configVersion h.

Definition clean_header (h : InputHeader) : Prop :=
  clean (_archiveVersion h) /\ clean (_softwareVersion h) /\ clean (_projectName h) /\
  clean (_systemName h) /\ clean (_configName h) /\ clean (_configVersion h).

(** The machine on a printed header. *)
Lemma run_toString h h0 rest :
  clean_header h -> _stage h0 = PARSE_START -> hd_buf h0 = [] ->
  exists h', run (start h0) (toString h ++ rest) = (Parsed, h', rest) /\
    same_values h h' /\ _size h' = zlen (toString h) /\ _stage h' = PARSE_START /\ hd_buf h' = [].
Proof.
  intros (C1 & C2 & C3 & C4 & C5 & C6) Hst Hb. unfold toString.
  set (text := hd [] magicStrings ++ concat (map (header_line h) headers)).
  set (pad := padding (_size h) (zlen text)).
  assert (Hpad : Forall (fun c => isspace_byte c = true) pad) by apply padding_space.
  assert (Htext : text = hd [] magicStrings ++
    (bytes_of "archive version:" ++ [SP] ++ _archiveVersion h ++ [NL]) ++
    (bytes_of "software version:" ++ [SP] ++ _softwareVersion h ++ [NL]) ++
    (bytes_of "project name:" ++ [SP] ++ _projectName h ++ [NL]) ++
    (bytes_of "system name:" ++ [SP] ++ _systemName h ++ [NL]) ++
    (bytes_of "config name:" ++ [SP] ++ _configName h ++ [NL]) ++
    (bytes_of "config version:" ++ [SP] ++ _configVersion h ++ [NL]) ++ []) by reflexivity.
  assert (Hs : start h0 = with_parser h0 (_tagMatch h0) 0 (hd_buf h0) PARSE_MAGIC) by (unfold start; by rewrite Hst).
  clearbody pad text. rewrite Hs. clear Hs. subst text.
  repeat match goal with
    | |- context [(bytes_of ?t ++ [SP] ++ ?v h ++ [NL]) ++ _] =>
        let L := fresh "L" in let E := fresh "E" in remember (bytes_of t ++ [SP] ++ v h ++ [NL]) as L eqn:E
    end.
  rewrite <- !app_assoc. rewrite magic_run by done. cbn [app].
  rewrite E, (line_run 0 _ ArchiveVersion false) by done.
  rewrite E0, (line_run 1 _ SoftwareVersion false) by done.
  rewrite E1, (line_run 2 _ ProjectName false) by done.
  rewrite E2, (line_run 3 _ SystemName false) by done.
  rewrite E3, (line_run 4 _ ConfigName false) by done.
  rewrite E4, (line_run 5 _ ConfigVersion false) by done.
  rewrite run_space, end_run by done. eexists. split; [reflexivity|]. split; [by split_and!|].
  split; [|done]. subst. cbn [put_field with_parser setField _size].
  rewrite !zlen_app, !zlen_cons. change (zlen (@nil Z)) with 0. 
  change (zlen (hd [] magicStrings)) with 22. lia.
Qed.

(** ** Properties *)

(** C24: a printed header reads back.  Whatever the sizes of the physical
    reads and of the stream's buffer, and whatever the parser held before,
    [read()] on a stream that begins with the text of a header whose values
    are clean (one line, no white space at the ends, fewer than 255
    characters) ends, gives the six values and the length of the text, and
    leaves the stream at the first byte after the header. *)
Theorem header_round_trip h h0 s c rest fuel :
  clean_header h -> _stage h0 = PARSE_START -> hd_buf h0 = [] ->
  io_wf s -> Forall (fun e => snd e <> []) (ch_events c) ->
  io_unread s ++ ch_bytes c = toString h ++ rest -> (length (ch_bytes c) < fuel)%nat ->
  exists h' s' c', header_read fuel h0 s c = Some (h', s', c') /\
    same_values h h' /\ _size h' = zlen (toString h) /\
    io_unread s' ++ ch_bytes c' = rest.
Proof.
  intros Hc Hst Hb Hw Hne Hin Hf. destruct (run_toString h h0 rest Hc Hst Hb) as (h' & Hr & Hv & Hsz & _).
  assert (Hwf : hdr_wf h0) by (unfold hdr_wf; by rewrite Hst).
  rewrite <- Hin in Hr. destruct (header_read_run fuel h0 s c h' rest Hw Hwf Hne Hf Hr) as (s' & c' & E & _ & Ec).
  by exists h', s', c'.
Qed.

(** C30: the resumable block parser is the character machine.  From every
    state between calls, [parse] ends (its bounds suffice), has the outcome
    of the machine on the available characters, and, unless it throws, its
    state and position; and the state it leaves when more input is needed
    continues the machine on whatever comes next. *)
Theorem parse_is_machine h s more :
  io_wf s -> hdr_wf h ->
  let '(o, h', s') := parse h s in
  let '(o', hm, r) := run (start h) (io_unread s) in
  o = o' /\ o <> ParseFuel /\ io_wf s' /\
  (o <> ParseError -> h' = hm /\ io_unread s' = r) /\
  (o = More -> hdr_wf h' /\ run (start h) (io_unread s ++ more) = run (start h') more).
Proof.
  intros Hw Hwf. destruct (parse_agree h s Hw Hwf) as (E1 & W & E2). rewrite run_app.
  destruct (parse h s) as [[o h'] s'], (run (start h) (io_unread s)) as [[o' hm] r] eqn:Er.
  cbn [fst snd] in *. subst o'. split; [done|].
  split.
  { intros ->. clear -Er. revert Er. generalize (start h). induction (io_unread s) as [|c k IH]; intros g; cbn [run]; [done|].
    destruct (hstep g c) as [g'|]; [|done]. destruct (_stage g'); try apply IH. done. }
  split; [done|]. split; [intros; by destruct E2|]. intros ->. destruct E2 as [?|[-> _]]; [done|].
  destruct (run_more _ _ _ _ (start_start h) (start_wf h Hwf) Er) as [-> ?]. done.
Qed.

(** ** Witnesses *)

Definition witness_header : InputHeader :=
  mkInputHeader (bytes_of "1") (bytes_of "v1.2") (bytes_of "TEST") (bytes_of "a b") [] (bytes_of "0") None 0 [] PARSE_START.

Lemma witness_header_clean : clean_header witness_header.
Proof.
  repeat split; try reflexivity; cbn; repeat (apply not_elem_of_cons; split; [done|]); apply not_elem_of_nil.
Qed.

Lemma header_round_trip_witness :
  exists h' s' c', header_read 400 newInputHeader (newIOStream 8)
      (mkChannel [(true, toString witness_header ++ [7; 8])] false) = Some (h', s', c') /\
    _systemName h' = bytes_of "a b" /\ io_unread s' ++ ch_bytes c' = [7; 8].
Proof.
  destruct (header_round_trip witness_header newInputHeader (newIOStream 8)
    (mkChannel [(true, toString witness_header ++ [7; 8])] false) [7; 8] 400)
    as (h' & s' & c' & E & (_ & _ & _ & Hn & _) & _ & Hr).
  - exact witness_header_clean.
  - reflexivity.
  - reflexivity.
  - apply newIOStream_wf. lia.
  - repeat constructor. discriminate.
  - vm_compute. reflexivity.
  - vm_compute. lia.
  - exists h', s', c'. split; [exact E|]. split; [exact Hn|exact Hr].
Defined.

Lemma parse_is_machine_witness :
  let s := snd (fst (io_read (newIOStream 8) (mkChannel [(true, bytes_of "NIDAS (nc")] false))) in
  exists h' s', parse newInputHeader s = (More, h', s') /\ hdr_wf h'.
Proof.
  intros s.
  pose proof (parse_is_machine newInputHeader s [] ltac:(vm_compute; split_and!; congruence) ltac:(reflexivity)) as H.
  destruct (parse newInputHeader s) as [[o h'] s'] eqn:E.
  destruct (run (start newInputHeader) (io_unread s)) as [[o' hm] r] eqn:Er. destruct H as (Ho & _ & _ & _ & Hm).
  assert (o = More) as -> by (vm_compute in Er; injection Er as <- _ _; exact Ho).
  exists h', s'. split; [reflexivity|]. exact (proj1 (Hm eq_refl)).
Defined.
