(* ===== verification/SampleId.v ===== *)
(** * The packed sample identifier and the sample header.

    [src/src/nidas/core/Sample.h]: the [GET_*]/[SET_*] macros over the 32 bit
    [_tid] word (6 bits of sample type, 10 bits of DSM id, 16 bits of
    sensor-plus-sample id), the class [SampleHeader] with its accessors, and
    the sample type enumeration of [sample_type_traits.h]. *)

From S2P Require Import Prelude.

(** ** The macros *)

Definition GET_SAMPLE_TYPE (tid : Z) : Z := Z.shiftr tid 26.
Definition SET_SAMPLE_TYPE (tid val : Z) : Z :=
  Z.lor (Z.land tid 0x03ffffff) (u32 (Z.shiftl (u32 val) 26)).

Definition GET_FULL_ID (tid : Z) : Z := Z.land tid 0x03ffffff.
Definition SET_FULL_ID (tid val : Z) : Z :=
  Z.lor (Z.land tid 0xfc000000) (Z.land val 0x03ffffff).

Definition GET_DSM_ID (tid : Z) : Z := Z.shiftr (Z.land tid 0x03ff0000) 16.
Definition SET_DSM_ID (tid val : Z) : Z :=
  Z.lor (Z.land tid 0xfc00ffff) (u32 (Z.shiftl (Z.land (u32 val) 0x3ff) 16)).

Definition GET_SPS_ID (tid : Z) : Z := Z.land tid 0xffff.
Definition GET_SHORT_ID (tid : Z) : Z := Z.land tid 0xffff.

Definition SET_SPS_ID (tid val : Z) : Z :=
  Z.lor (Z.land tid 0xffff0000) (Z.land val 0xffff).
Definition SET_SHORT_ID (tid val : Z) : Z :=
  Z.lor (Z.land tid 0xffff0000) (Z.land val 0xffff).

(** ** Sample types *)

Inductive sampleType :=
| CHAR_ST | UCHAR_ST | SHORT_ST | USHORT_ST | INT32_ST | UINT32_ST
| FLOAT_ST | DOUBLE_ST | INT64_ST | UNKNOWN_ST.

#[export] Instance sampleType_eq_dec : EqDecision sampleType.
Proof. solve_decision. Defined.

(** The value of the enumerator. *)
Definition sampleType_enum (t : sampleType) : Z :=
  match t with
  | CHAR_ST => 0 | UCHAR_ST => 1 | SHORT_ST => 2 | USHORT_ST => 3
  | INT32_ST => 4 | UINT32_ST => 5 | FLOAT_ST => 6 | DOUBLE_ST => 7
  | INT64_ST => 8 | UNKNOWN_ST => 9
  end.

(** [(sampleType) getType()]: the enumerator of a 6 bit type field; every
    value past [INT64_ST] falls in the [default] branch of a switch. *)
Definition sampleType_of_enum (n : Z) : sampleType :=
  if n =? 0 then CHAR_ST else if n =? 1 then UCHAR_ST else
  if n =? 2 then SHORT_ST else if n =? 3 then USHORT_ST else
  if n =? 4 then INT32_ST else if n =? 5 then UINT32_ST else
  if n =? 6 then FLOAT_ST else if n =? 7 then DOUBLE_ST else
  if n =? 8 then INT64_ST else UNKNOWN_ST.

(** ** class SampleHeader *)

Record SampleHeader := mkSampleHeader {
  _tt : Z;       (** [dsm_time_t], microseconds since 1970 *)
  _length : Z;   (** [dsm_sample_length_t], bytes of data *)
  _tid : Z       (** packed type, DSM id and sps id *)
}.

#[export] Instance SampleHeader_eq_dec : EqDecision SampleHeader.
Proof. solve_decision. Defined.

Definition newSampleHeader (t : sampleType) : SampleHeader :=
  mkSampleHeader 0 0 (u32 (Z.shiftl (sampleType_enum t) 26)).

Definition setTimeTag (h : SampleHeader) (val : Z) :=
  mkSampleHeader val (_length h) (_tid h).
Definition setDataByteLength (h : SampleHeader) (val : Z) :=
  mkSampleHeader (_tt h) (u32 val) (_tid h).
Definition getId (h : SampleHeader) : Z := GET_FULL_ID (_tid h).
Definition setId (h : SampleHeader) (val : Z) :=
  mkSampleHeader (_tt h) (_length h) (SET_FULL_ID (_tid h) val).
Definition setRawId (h : SampleHeader) (val : Z) :=
  mkSampleHeader (_tt h) (_length h) (u32 val).
Definition getDSMId (h : SampleHeader) : Z := GET_DSM_ID (_tid h).
Definition setDSMId (h : SampleHeader) (val : Z) :=
  mkSampleHeader (_tt h) (_length h) (SET_DSM_ID (_tid h) val).
Definition getSpSId (h : SampleHeader) : Z := GET_SPS_ID (_tid h).
Definition setSpSId (h : SampleHeader) (val : Z) :=
  mkSampleHeader (_tt h) (_length h) (SET_SPS_ID (_tid h) val).
Definition getType (h : SampleHeader) : Z := u8 (GET_SAMPLE_TYPE (_tid h)).

(** [sizeof(SampleHeader)]: 8 + 4 + 4 bytes, no padding. *)
Definition SIZEOF_SAMPLE_HEADER : Z := 16.

(** ** Arithmetic reading of the macros *)

Create Rewrite HintDb nidas_tid.

Lemma GET_FULL_ID_mod tid : GET_FULL_ID tid = tid mod 2 ^ 26.
Proof. apply (Z.land_ones tid 26); lia. Qed.

Lemma GET_SPS_ID_mod tid : GET_SPS_ID tid = tid mod 2 ^ 16.
Proof. apply (Z.land_ones tid 16); lia. Qed.

Lemma GET_DSM_ID_mod tid : GET_DSM_ID tid = (tid / 2 ^ 16) mod 2 ^ 10.
Proof.
  unfold GET_DSM_ID. rewrite <- Z.land_ones, <- Z.shiftr_div_pow2 by lia.
  by rewrite Z.shiftr_land.
Qed.

Lemma GET_SAMPLE_TYPE_div tid : GET_SAMPLE_TYPE tid = tid / 2 ^ 26.
Proof. apply Z.shiftr_div_pow2; lia. Qed.

(** A field of [k] bits above bit [n], selected in place. *)
Lemma land_field a n k :
  0 <= n -> 0 <= k ->
  Z.land a (Z.shiftl (Z.ones k) n) = (a / 2 ^ n) mod 2 ^ k * 2 ^ n.
Proof.
  intros. rewrite <- Z.land_ones, <- Z.shiftr_div_pow2, <- Z.shiftl_mul_pow2 by lia.
  apply Z.bits_inj'; intros i Hi.
  rewrite Z.land_spec, !Z.shiftl_spec, Z.land_spec by lia.
  destruct (Z.lt_ge_cases i n).
  - rewrite (Z.testbit_neg_r (Z.ones k)) by lia. by rewrite !andb_false_r.
  - rewrite Z.shiftr_spec by lia. by rewrite Z.sub_add.
Qed.

(** The union of a part above bit [n] and a part below it is their sum. *)
Lemma lor_disjoint a b n :
  0 <= n -> a mod 2 ^ n = 0 -> 0 <= b < 2 ^ n -> Z.lor a b = a + b.
Proof.
  intros Hn Ha Hb. rewrite <- Z.land_ones in Ha by lia.
  assert (Hab : Z.land a b = 0).
  { apply Z.bits_inj'; intros i Hi. rewrite Z.land_spec, Z.bits_0.
    destruct (Z.lt_ge_cases i n) as [Hin|Hin].
    - apply (f_equal (fun z => Z.testbit z i)) in Ha.
      rewrite Z.land_spec, Z.ones_spec_low, Z.bits_0, andb_true_r in Ha by lia.
      by rewrite Ha.
    - destruct (Z.eq_dec b 0) as [->|]; [by rewrite Z.bits_0, andb_false_r|].
      rewrite (Z.bits_above_log2 b i), andb_false_r; [done | lia |].
      apply Z.lt_le_trans with n; [apply Z.log2_lt_pow2; lia | done]. }
  by rewrite (Z.add_nocarry_lxor _ _ Hab), (Z.lxor_lor _ _ Hab).
Qed.

Lemma SET_SPS_ID_arith tid val :
  0 <= tid < 2 ^ 32 ->
  SET_SPS_ID tid val = tid / 2 ^ 16 * 2 ^ 16 + val mod 2 ^ 16.
Proof.
  intros. unfold SET_SPS_ID.
  change 0xffff0000 with (Z.shiftl (Z.ones 16) 16). change 0xffff with (Z.ones 16).
  rewrite (land_field tid 16 16), (Z.land_ones val 16) by lia.
  rewrite (lor_disjoint _ _ 16) by dlia. dlia.
Qed.

Lemma SET_FULL_ID_arith tid val :
  0 <= tid < 2 ^ 32 ->
  SET_FULL_ID tid val = tid / 2 ^ 26 * 2 ^ 26 + val mod 2 ^ 26.
Proof.
  intros. unfold SET_FULL_ID.
  change 0xfc000000 with (Z.shiftl (Z.ones 6) 26). change 0x03ffffff with (Z.ones 26).
  rewrite (land_field tid 26 6), (Z.land_ones val 26) by lia.
  rewrite (lor_disjoint _ _ 26) by dlia. dlia.
Qed.

Lemma SET_DSM_ID_arith tid val :
  0 <= tid < 2 ^ 32 ->
  SET_DSM_ID tid val =
    tid / 2 ^ 26 * 2 ^ 26 + val mod 2 ^ 10 * 2 ^ 16 + tid mod 2 ^ 16.
Proof.
  intros. unfold SET_DSM_ID.
  change 0xfc00ffff with (Z.lor (Z.shiftl (Z.ones 6) 26) (Z.ones 16)).
  change 0x3ff with (Z.ones 10).
  rewrite Z.land_lor_distr_r, (land_field tid 26 6), (Z.land_ones tid 16) by lia.
  rewrite (Z.land_ones (u32 val) 10), Z.shiftl_mul_pow2 by lia.
  assert (Hv : u32 val mod 2 ^ 10 = val mod 2 ^ 10).
  { unfold u32. change (2 ^ 32) with (2 ^ 10 * 2 ^ 22).
    rewrite Z.rem_mul_r by lia. dlia. }
  rewrite Hv, u32_small by dlia.
  rewrite <- Z.lor_assoc, (Z.lor_comm (tid mod _)).
  rewrite (lor_disjoint _ (tid mod 2 ^ 16) 16) by dlia.
  rewrite (lor_disjoint _ _ 26) by dlia. dlia.
Qed.

Lemma SET_SAMPLE_TYPE_arith tid val :
  0 <= val < 64 ->
  SET_SAMPLE_TYPE tid val = val * 2 ^ 26 + tid mod 2 ^ 26.
Proof.
  intros. unfold SET_SAMPLE_TYPE. change 0x03ffffff with (Z.ones 26).
  rewrite (Z.land_ones tid 26), Z.shiftl_mul_pow2, (u32_small val), u32_small by lia.
  rewrite Z.lor_comm, (lor_disjoint _ _ 26) by dlia. done.
Qed.

#[export] Hint Rewrite GET_FULL_ID_mod GET_SPS_ID_mod GET_DSM_ID_mod
  GET_SAMPLE_TYPE_div : nidas_tid.
#[export] Hint Rewrite SET_SPS_ID_arith SET_FULL_ID_arith SET_DSM_ID_arith
  SET_SAMPLE_TYPE_arith using dlia : nidas_tid.

(** Decide a goal over the fields of a 32 bit id word. *)
Ltac tid_arith := autorewrite with nidas_tid; dlia.

(** ** Properties *)

(** The three fields of an id word are independent coordinates: the word
    is determined by them (each within its documented range), and every
    setter of the header changes exactly its own field, truncating the value
    to the width of the field and leaving the others and the word's 32 bit
    range alone. *)
Theorem tid_fields_independent tid val :
  0 <= tid < 2 ^ 32 ->
  (tid = GET_SAMPLE_TYPE tid * 2 ^ 26 + GET_DSM_ID tid * 2 ^ 16 + GET_SPS_ID tid
   /\ 0 <= GET_SAMPLE_TYPE tid < 64 /\ 0 <= GET_DSM_ID tid < 1024
   /\ 0 <= GET_SPS_ID tid < 65536) /\
  (let t := SET_DSM_ID tid val in
   0 <= t < 2 ^ 32 /\ GET_DSM_ID t = val mod 1024 /\
   GET_SPS_ID t = GET_SPS_ID tid /\ GET_SAMPLE_TYPE t = GET_SAMPLE_TYPE tid) /\
  (let t := SET_SPS_ID tid val in
   0 <= t < 2 ^ 32 /\ GET_SPS_ID t = val mod 65536 /\
   GET_DSM_ID t = GET_DSM_ID tid /\ GET_SAMPLE_TYPE t = GET_SAMPLE_TYPE tid) /\
  (let t := SET_FULL_ID tid val in
   0 <= t < 2 ^ 32 /\ GET_FULL_ID t = val mod 2 ^ 26 /\
   GET_SAMPLE_TYPE t = GET_SAMPLE_TYPE tid).
Proof.
  intros H. cbv zeta. autorewrite with nidas_tid; [|done..].
  repeat split; dlia.
Qed.

Lemma tid_fields_independent_witness :
  GET_DSM_ID (SET_DSM_ID 0x08030007 1029) = 5 /\
  GET_SPS_ID (SET_DSM_ID 0x08030007 1029) = 7.
Proof.
  destruct (tid_fields_independent 0x08030007 1029 ltac:(lia)) as (_ & H & _).
  destruct H as (_ & Hd & Hs & _). split; [exact Hd | exact Hs].
Defined.
