(* ===== verification/Sample.v ===== *)
(** * Samples: typed data with a header and a reference count.

    [src/src/nidas/core/Sample.h] and [Sample.cc]: the class template
    [SampleT<DataT>] with its allocation, resizing and length operations, the
    exception [SampleLengthException], and the function
    [getSample(sampleType,len)] that makes a sample of an enumerated type from
    a byte length.  Freshly allocated memory ([new DataT[n]]) holds
    indeterminate values, written [None] in the data of the model. *)

From S2P Require Import Prelude SampleId.

(** [throw SampleLengthException(msg,val,maxVal)]. *)
Record SampleLengthException := mkSampleLengthException {
  sle_val : Z; sle_max : Z }.

(** ** class SampleT<DataT> *)

Section SampleT.

(** [DataT] and [sizeof(DataT)]: one of 1, 2, 4, 8. *)
Context {DataT : Type} (sizeof : Z).

Record SampleT := mkSampleT {
  _header : SampleHeader;
  _refCount : Z;
  _data : list (option DataT);
  _allocLen : Z           (** bytes allocated in [_data] *)
}.

(** [SampleT()]: no data, one reference. *)
Definition newSampleT (t : sampleType) : SampleT :=
  mkSampleT (newSampleHeader t) 1 [] 0.

Definition getAllocLength (s : SampleT) : Z := _allocLen s / sizeof.
Definition getAllocByteLength (s : SampleT) : Z := _allocLen s.
Definition getDataByteLength (s : SampleT) : Z := _length (_header s).
Definition getDataLength (s : SampleT) : Z := getDataByteLength s / sizeof.

(** [SampleHeader::getMaxDataLength()] and [SampleT::getMaxDataLength()]. *)
Definition header_getMaxDataLength : Z := UINT_MAX.
Definition getMaxDataLength : Z := header_getMaxDataLength / sizeof.

Definition with_header (s : SampleT) (h : SampleHeader) : SampleT :=
  mkSampleT h (_refCount s) (_data s) (_allocLen s).

Definition setDataLength (val : Z) (s : SampleT) : SampleLengthException + SampleT :=
  if getAllocLength s <? val
  then inl (mkSampleLengthException val (getAllocLength s))
  else inr (with_header s (setDataByteLength (_header s) (val * sizeof))).

Definition allocateData (val : Z) (s : SampleT) : SampleLengthException + SampleT :=
  if getMaxDataLength <? val
  then inl (mkSampleLengthException val getMaxDataLength)
  else if _allocLen s <? val * sizeof then
    setDataLength 0
      (mkSampleT (_header s) (_refCount s) (replicate (Z.to_nat val) None)
         (u32 (val * sizeof)))
  else inr s.

Definition reallocateData (val : Z) (s : SampleT) : SampleLengthException + SampleT :=
  if getMaxDataLength <? val
  then inl (mkSampleLengthException val getMaxDataLength)
  else if _allocLen s <? val * sizeof then
    inr (mkSampleT (_header s) (_refCount s)
           (_data s ++ replicate (Z.to_nat val - length (_data s)) None)
           (u32 (val * sizeof)))
  else inr s.

(** Write [_data[i++] = v] for each [v]. *)
Definition storeValues (values : list DataT) (s : SampleT) : SampleT :=
  mkSampleT (_header s) (_refCount s)
    (map Some values ++ drop (length values) (_data s)) (_allocLen s).

Definition setValues (values : list DataT) (s : SampleT) : SampleLengthException + SampleT :=
  match allocateData (zlen values) s with
  | inl e => inl e
  | inr s1 =>
      match setDataLength (zlen values) s1 with
      | inl e => inl e
      | inr s2 => inr (storeValues values s2)
      end
  end.

Definition holdReference (s : SampleT) : SampleT :=
  mkSampleT (_header s) (_refCount s + 1) (_data s) (_allocLen s).

(** ** Well-formed samples

    The byte count allocated matches the elements held, the data length of
    the header never exceeds it and is a whole number of elements. *)

Definition sample_wf (s : SampleT) : Prop :=
  _allocLen s = zlen (_data s) * sizeof /\ _allocLen s <= UINT_MAX /\
  0 <= getDataByteLength s <= _allocLen s /\ getDataByteLength s mod sizeof = 0.

Context (Hsizeof : 0 < sizeof).

Lemma newSampleT_wf t : sample_wf (newSampleT t).
Proof. unfold sample_wf; cbn. unfold UINT_MAX, zlen; simpl. by rewrite Zmod_0_l. Qed.

Lemma max_bytes val : val <= getMaxDataLength -> val * sizeof <= UINT_MAX.
Proof.
  unfold getMaxDataLength, header_getMaxDataLength. intros H.
  pose proof (Z.mul_div_le UINT_MAX sizeof Hsizeof). nia.
Qed.

Lemma setDataLength_ok val s :
  sample_wf s -> 0 <= val <= getAllocLength s ->
  exists s', setDataLength val s = inr s' /\ sample_wf s' /\
    getDataByteLength s' = val * sizeof /\ _data s' = _data s /\
    _allocLen s' = _allocLen s /\ _refCount s' = _refCount s /\
    _tid (_header s') = _tid (_header s).
Proof.
  intros (Ha & Hm & Hd & Hz) Hv. unfold setDataLength.
  destruct (Z.ltb_spec (getAllocLength s) val); [lia|].
  unfold getAllocLength in *.
  assert (val * sizeof <= _allocLen s).
  { pose proof (Z.mul_div_le (_allocLen s) sizeof Hsizeof). nia. }
  eexists; split; [done|]. unfold sample_wf, getDataByteLength; cbn.
  rewrite u32_small by (unfold UINT_MAX in *; nia).
  rewrite Z_mod_mult. repeat split; try done; nia.
Qed.

Lemma getAllocLength_wf s : sample_wf s -> getAllocLength s = zlen (_data s).
Proof. intros (Ha & _). unfold getAllocLength. rewrite Ha. apply Z.div_mul; lia. Qed.

Lemma allocateData_ok val s :
  sample_wf s -> 0 <= val <= getMaxDataLength ->
  exists s', allocateData val s = inr s' /\ sample_wf s' /\
    val <= getAllocLength s' /\ _refCount s' = _refCount s /\
    _tid (_header s') = _tid (_header s) /\
    (getAllocLength s < val -> getAllocLength s' = val) /\
    (val <= getAllocLength s -> s' = s).
Proof.
  intros Hw Hv. pose proof (max_bytes val (proj2 Hv)) as Hb.
  pose proof (getAllocLength_wf s Hw) as HL. destruct (Hw) as (Ha & _).
  unfold allocateData. destruct (Z.ltb_spec getMaxDataLength val); [lia|].
  destruct (Z.ltb_spec (_allocLen s) (val * sizeof)) as [Hlt|Hge].
  - set (s0 := mkSampleT _ _ _ _).
    assert (Hz : zlen (_data s0) = val) by (unfold zlen; cbn; rewrite length_replicate; lia).
    assert (Hu : _allocLen s0 = val * sizeof).
    { cbn. apply u32_small. unfold UINT_MAX in Hb. nia. }
    assert (HL0 : getAllocLength s0 = val)
      by (unfold getAllocLength; rewrite Hu; apply Z.div_mul; lia).
    unfold setDataLength. rewrite HL0. destruct (Z.ltb_spec val 0); [lia|].
    eexists; split; [done|].
    unfold sample_wf, getAllocLength, getDataByteLength, with_header.
    cbn [_allocLen _data _header _length _refCount setDataByteLength].
    rewrite Hu, Hz, Z.div_mul, Z.mul_0_l by lia. change (u32 0) with 0.
    rewrite Z.mod_0_l by lia. unfold getAllocLength in HL.
    repeat split; try done; try nia; intros; exfalso; nia.
  - exists s. repeat split; try done; try apply Hw; nia.
Qed.

Lemma reallocateData_ok val s :
  sample_wf s -> 0 <= val <= getMaxDataLength ->
  exists s', reallocateData val s = inr s' /\ sample_wf s' /\
    val <= getAllocLength s' /\ _header s' = _header s /\
    take (length (_data s)) (_data s') = _data s.
Proof.
  intros Hw Hv. pose proof (max_bytes val (proj2 Hv)) as Hb.
  pose proof (getAllocLength_wf s Hw) as HL. destruct (Hw) as (Ha & Hm & Hd & Hz).
  unfold reallocateData. destruct (Z.ltb_spec getMaxDataLength val); [lia|].
  destruct (Z.ltb_spec (_allocLen s) (val * sizeof)) as [Hlt|Hge].
  - eexists; split; [done|].
    unfold sample_wf, getAllocLength, getDataByteLength in *; cbn.
    assert (HU : u32 (val * sizeof) = val * sizeof).
    { apply u32_small. unfold UINT_MAX in Hb. nia. }
    rewrite HU, Z.div_mul, zlen_app by lia.
    unfold zlen in *. rewrite length_replicate, take_app_length.
    repeat split; try done; nia.
  - exists s. rewrite take_ge by lia. repeat split; try done; try apply Hw; nia.
Qed.

Lemma setValues_ok values s :
  sample_wf s -> zlen values <= getMaxDataLength ->
  exists s', setValues values s = inr s' /\ sample_wf s' /\
    getDataLength s' = zlen values /\
    take (length values) (_data s') = map Some values.
Proof.
  intros Hw Hv. unfold setValues.
  destruct (allocateData_ok (zlen values) s Hw) as (s1 & -> & Hw1 & Hl & _);
    [pose proof (zlen_nonneg values); lia|].
  destruct (setDataLength_ok (zlen values) s1 Hw1) as (s2 & -> & Hw2 & Hd & Hdat & Hal & _);
    [pose proof (zlen_nonneg values); lia|].
  eexists; split; [done|]. destruct Hw2 as (Ha & Hm & Hr & Hz).
  rewrite (getAllocLength_wf s1 Hw1) in Hl. unfold getDataLength.
  change (getDataByteLength (storeValues values s2)) with (getDataByteLength s2).
  rewrite Hd, Z.div_mul by lia. split; [|split; [done|]].
  - unfold sample_wf, storeValues in *; cbn in *.
    assert (zlen (map Some values ++ drop (length values) (_data s2)) = zlen (_data s2)) as ->.
    { unfold zlen in *. rewrite length_app, length_map, length_drop, Hdat. lia. }
    done.
  - cbn. rewrite <- (length_map Some values) at 1. apply take_app_length.
Qed.

Lemma lengths_throw val s :
  (getMaxDataLength < val -> allocateData val s = inl (mkSampleLengthException val getMaxDataLength) /\
                             reallocateData val s = inl (mkSampleLengthException val getMaxDataLength)) /\
  (getAllocLength s < val -> setDataLength val s = inl (mkSampleLengthException val (getAllocLength s))).
Proof.
  unfold allocateData, reallocateData, setDataLength.
  split; intros H; apply Z.ltb_lt in H; by rewrite H.
Qed.

End SampleT.

Arguments SampleT : clear implicits.
Arguments newSampleT {DataT} t.

(** ** getSample(sampleType type, unsigned int len)

    [SamplePool::getSample(n)] gives a sample of at least [n] elements and sets
    its data length to [n]; here only its failure and its data byte length
    matter, the pool itself is in [SamplePool]. *)

Definition sizeofType (t : sampleType) : Z :=
  match t with
  | CHAR_ST | UCHAR_ST => 1
  | SHORT_ST | USHORT_ST => 2
  | INT32_ST | UINT32_ST | FLOAT_ST => 4
  | DOUBLE_ST | INT64_ST => 8
  | UNKNOWN_ST => 0
  end.

(** A fresh sample of [len] elements, as the template
    [getSample<T>(unsigned int len)] returns it. *)
Definition getSampleT {DataT} (t : sampleType) (len : Z) :
    SampleLengthException + SampleT DataT :=
  match allocateData (sizeofType t) len (newSampleT t) with
  | inl e => inl e
  | inr s => setDataLength (sizeofType t) len s
  end.

(** [None] is the null pointer: unknown type, a length that is not a whole
    number of elements, or a caught [SampleLengthException]. *)
Definition getSample {DataT} (type : sampleType) (len : Z) : option (SampleT DataT) :=
  let lin := len in
  match type with
  | UNKNOWN_ST => None
  | _ =>
      let n := len / sizeofType type in
      if negb (n * sizeofType type =? lin) then None
      else match getSampleT type n with inl _ => None | inr s => Some s end
  end.

Lemma getSampleT_ok {DataT} (t : sampleType) (n : Z) :
  0 < sizeofType t -> 0 <= n <= getMaxDataLength (sizeofType t) ->
  exists s : SampleT DataT, getSampleT t n = inr s /\ sample_wf (sizeofType t) s /\
    getDataByteLength s = n * sizeofType t /\ _refCount s = 1 /\
    getType (_header s) = sampleType_enum t.
Proof.
  intros Hs Hn. unfold getSampleT.
  destruct (allocateData_ok (DataT := DataT) (sizeofType t) Hs n (newSampleT t))
    as (s1 & -> & Hw1 & Hl & Hr1 & Ht1 & _); [by apply newSampleT_wf | done |].
  destruct (setDataLength_ok (sizeofType t) Hs n s1 Hw1)
    as (s2 & -> & Hw2 & Hd & _ & _ & Hr2 & Ht2); [lia|].
  exists s2. do 4 (split; [solve [done | exact Hd | rewrite Hr2, Hr1; done]|]).
  unfold getType. rewrite Ht2, Ht1. by destruct t.
Qed.

(** ** Properties *)

(** Every operation of [SampleT] keeps a sample well formed and does
    what it says: [allocateData] and [reallocateData] give room for [val]
    elements (the latter keeping the header and the old contents),
    [setDataLength] records a length that fits, [setValues] stores exactly
    the given values; and each of them throws [SampleLengthException] with
    the offending and the maximum length precisely when the length is out of
    range. *)
Theorem SampleT_operations {DataT} (sizeof : Z) (s : SampleT DataT) (val : Z) :
  0 < sizeof -> sample_wf sizeof s -> 0 <= val ->
  (if val <=? getMaxDataLength sizeof then
     (exists s', allocateData sizeof val s = inr s' /\ sample_wf sizeof s' /\
        val <= getAllocLength sizeof s') /\
     (exists s', reallocateData sizeof val s = inr s' /\ sample_wf sizeof s' /\
        val <= getAllocLength sizeof s' /\ _header s' = _header s /\
        take (length (_data s)) (_data s') = _data s)
   else allocateData sizeof val s = inl (mkSampleLengthException val (getMaxDataLength sizeof)) /\
        reallocateData sizeof val s = inl (mkSampleLengthException val (getMaxDataLength sizeof))) /\
  (if val <=? getAllocLength sizeof s then
     exists s', setDataLength sizeof val s = inr s' /\ sample_wf sizeof s' /\
       getDataLength sizeof s' = val /\ _data s' = _data s
   else setDataLength sizeof val s = inl (mkSampleLengthException val (getAllocLength sizeof s))) /\
  (forall values, zlen values <= getMaxDataLength sizeof ->
     exists s', setValues sizeof values s = inr s' /\ sample_wf sizeof s' /\
       getDataLength sizeof s' = zlen values /\
       take (length values) (_data s') = map Some values).
Proof.
  intros Hs Hw Hv. split; [|split].
  - destruct (Z.leb_spec val (getMaxDataLength sizeof)); [split|].
    + destruct (allocateData_ok sizeof Hs val s Hw) as (s' & ? & ? & ? & _); [lia|eauto].
    + apply (reallocateData_ok sizeof Hs val s Hw); lia.
    + by apply lengths_throw.
  - destruct (Z.leb_spec val (getAllocLength sizeof s)); [|by apply lengths_throw].
    destruct (setDataLength_ok sizeof Hs val s Hw) as (s' & -> & Hw' & Hd & Hdat & _); [lia|].
    exists s'. unfold getDataLength. rewrite Hd, Z.div_mul by lia. done.
  - intros values Hz. by apply (setValues_ok sizeof Hs values s Hw).
Qed.

Lemma SampleT_operations_witness :
  exists s', setValues 2 [7; 8; 9] (newSampleT SHORT_ST) = inr s' /\
    getDataLength 2 s' = 3 /\ take 3 (_data s') = [Some 7; Some 8; Some 9].
Proof.
  destruct (SampleT_operations (DataT := Z) 2 (newSampleT SHORT_ST) 3 ltac:(lia)
              (newSampleT_wf 2 SHORT_ST) ltac:(lia)) as (_ & _ & H).
  destruct (H [7; 8; 9] ltac:(vm_compute; congruence)) as (s' & E & _ & Hl & Hd).
  exists s'. repeat split; [exact E | exact Hl | exact Hd].
Defined.

(** [getSample(type,len)] returns null exactly when the type is unknown
    or the byte length is not a whole number of elements; otherwise the
    sample has one reference, a data byte length of exactly [len] and the
    type in its header: no exception escapes for any [unsigned int]. *)
Theorem getSample_spec {DataT} (type : sampleType) (len : Z) :
  0 <= len <= UINT_MAX ->
  match @getSample DataT type len with
  | None => type = UNKNOWN_ST \/ len mod sizeofType type <> 0
  | Some s => type <> UNKNOWN_ST /\ len mod sizeofType type = 0 /\
      sample_wf (sizeofType type) s /\ getDataByteLength s = len /\
      _refCount s = 1 /\ getType (_header s) = sampleType_enum type
  end.
Proof.
  intros Hl. unfold getSample.
  assert (Hs : type = UNKNOWN_ST \/ type <> UNKNOWN_ST /\ 0 < sizeofType type)
    by (destruct type; cbn; auto with lia).
  destruct Hs as [->|[Ht Hs]]; [by left|].
  set (sz := sizeofType type) in *.
  assert (Hdm : len = sz * (len / sz) + len mod sz) by (apply Z.div_mod; lia).
  assert (HM : 0 <= len / sz <= getMaxDataLength sz).
  { unfold getMaxDataLength, header_getMaxDataLength.
    split; [apply Z.div_pos | apply Z.div_le_mono]; lia. }
  destruct (getSampleT_ok (DataT := DataT) type (len / sz) Hs HM)
    as (s & E & Hw & Hd & Hr & Hty).
  assert (Hres : match (if negb (len / sz * sz =? len) then None
            else match @getSampleT DataT type (len / sz) with inl _ => None | inr s => Some s end)
          with None => len mod sz <> 0
          | Some s => len mod sz = 0 /\ sample_wf sz s /\ getDataByteLength s = len /\
             _refCount s = 1 /\ getType (_header s) = sampleType_enum type end).
  { destruct (Z.eqb_spec (len / sz * sz) len) as [He|He]; cbn [negb]; [|nia].
    rewrite E. fold sz in Hw, Hd. split; [nia|]. split; [done|]. split; [nia|done]. }
  destruct type; try done;
    match goal with |- match ?o with _ => _ end => destruct o end;
    try (right; exact Hres); (split; [congruence | exact Hres]).
Qed.

Lemma getSample_spec_witness :
  exists s : SampleT Z, getSample USHORT_ST 6 = Some s /\ getDataByteLength s = 6.
Proof.
  pose proof (getSample_spec (DataT := Z) USHORT_ST 6 ltac:(unfold UINT_MAX; lia)) as H.
  revert H. vm_compute (getSample USHORT_ST 6). intros (_ & _ & _ & H & _).
  eexists; split; [reflexivity | exact H].
Defined.
