(* ===== verification/SamplePool.v ===== *)
(** * The sample pools and reference counting.

    [src/src/nidas/core/SamplePool.h] and the reference counting of
    [Sample.h].  A pool keeps three stacks of unused samples, segregated by
    their allocated length, and hands samples out by pointer; pointers are
    numbers, the objects they point to live in a finite map.  The class mutex
    [_poolLock] (and [_refLock] of a sample) makes each operation atomic, so
    concurrent use of a pool is a sequence of the steps below.  The [int]
    counts of references and of samples are not bounded here: they stay below
    the number of pointers that a program can hold.  [freeReference] takes
    the last reference and returns the sample in one step: a thread that
    still used the sample in between would hold a reference. *)

From S2P Require Import Prelude SampleId Sample.

Inductive poolClass := Small | Medium | Large.

#[export] Instance poolClass_eq_dec : EqDecision poolClass.
Proof. solve_decision. Defined.

(** What can go wrong: a failed [assert], an exception passed on to the
    caller, a store past the end of a vector, a pointer to nothing. *)
Inductive pool_error :=
| AssertFailed | LengthExc (e : SampleLengthException) | OutOfBounds | BadPointer.

Definition SMALL_SAMPLE_MAXSIZE : Z := 64.
Definition MEDIUM_SAMPLE_MAXSIZE : Z := 512.

Section SamplePool.

(** The template parameter [SampleType = SampleT<DataT>]: its type tag, its
    element size, and the marker stored one past the end of a reused sample
    ('\x80' for bytes, a NaN converted to [DataT] otherwise). *)
Context {DataT : Type} (stype : sampleType) (weird : DataT).

Abbreviation sizeof := (sizeofType stype).

Record SamplePool := mkSamplePool {
  heap : gmap nat (SampleT DataT);
  _smallSamples : list nat;    (** the first [_nsmall] entries *)
  _mediumSamples : list nat;
  _largeSamples : list nat;
  _smallSize : Z;              (** entries allocated in the vector *)
  _mediumSize : Z;
  _largeSize : Z;
  _nsamplesOut : Z;
  _nsamplesAlloc : Z;
  brk : nat                    (** next unused address *)
}.

Definition vec (p : SamplePool) (w : poolClass) : list nat :=
  match w with
  | Small => _smallSamples p | Medium => _mediumSamples p | Large => _largeSamples p
  end.

Definition vecSize (p : SamplePool) (w : poolClass) : Z :=
  match w with Small => _smallSize p | Medium => _mediumSize p | Large => _largeSize p end.

Definition with_vec (p : SamplePool) (w : poolClass) (l : list nat) (n : Z) : SamplePool :=
  match w with
  | Small => mkSamplePool (heap p) l (_mediumSamples p) (_largeSamples p)
      n (_mediumSize p) (_largeSize p) (_nsamplesOut p) (_nsamplesAlloc p) (brk p)
  | Medium => mkSamplePool (heap p) (_smallSamples p) l (_largeSamples p)
      (_smallSize p) n (_largeSize p) (_nsamplesOut p) (_nsamplesAlloc p) (brk p)
  | Large => mkSamplePool (heap p) (_smallSamples p) (_mediumSamples p) l
      (_smallSize p) (_mediumSize p) n (_nsamplesOut p) (_nsamplesAlloc p) (brk p)
  end.

Definition with_counts (p : SamplePool) (h : gmap nat (SampleT DataT))
    (out alloc : Z) (b : nat) : SamplePool :=
  mkSamplePool h (_smallSamples p) (_mediumSamples p) (_largeSamples p)
    (_smallSize p) (_mediumSize p) (_largeSize p) out alloc b.

Definition _nsmall (p : SamplePool) : Z := zlen (_smallSamples p).
Definition _nmedium (p : SamplePool) : Z := zlen (_mediumSamples p).
Definition _nlarge (p : SamplePool) : Z := zlen (_largeSamples p).

(** ** Constructor

    [objsize] is [sizeof(SampleType)]. *)
Definition newSamplePool (objsize : Z) : SamplePool :=
  let small := 16384 / (objsize + SMALL_SAMPLE_MAXSIZE * sizeof) in
  let small := if small <? 2 then 2 else small in
  let medium := small / (MEDIUM_SAMPLE_MAXSIZE / SMALL_SAMPLE_MAXSIZE) in
  let medium := if medium <? 2 then 2 else medium in
  let large := medium / 2 in
  let large := if large <? 2 then 2 else large in
  mkSamplePool ∅ [] [] [] small medium large 0 0 0.

(** ** getSample *)

(** The marker values past the end of a reused sample. *)
Definition poison (len : Z) (s : SampleT DataT) : SampleT DataT :=
  let nb := if sizeof =? 1 then Z.min 4 (getAllocLength sizeof s - len) else 1 in
  mkSampleT (_header s) (_refCount s)
    (list_inserts (Z.to_nat len) (replicate (Z.to_nat nb) (Some weird)) (_data s))
    (_allocLen s).

(** [getSample(SampleType** vec, int *n, unsigned int len)] *)
Definition getSampleFrom (w : poolClass) (len : Z) (p : SamplePool) :
    (pool_error + nat) * SamplePool :=
  match last (vec p w) with
  | Some ptr =>
      match heap p !! ptr with
      | None => (inl BadPointer, p)
      | Some s =>
          match (if getAllocLength sizeof s <? len then allocateData sizeof len s
                 else inr (if len <? getAllocLength sizeof s then poison len s else s)) with
          | inl e => (inl (LengthExc e), p)
          | inr s1 =>
              match setDataLength sizeof len s1 with
              | inl e => (inl (LengthExc e), p)
              | inr s2 =>
                  let p1 := with_vec p w (take (length (vec p w) - 1) (vec p w)) (vecSize p w) in
                  (inr ptr, with_counts p1 (<[ptr := holdReference s2]> (heap p))
                              (_nsamplesOut p + 1) (_nsamplesAlloc p) (brk p))
              end
          end
      end
  | None =>
      match allocateData sizeof len (newSampleT stype) with
      | inl e => (inl (LengthExc e), p)
      | inr s1 =>
          match setDataLength sizeof len s1 with
          | inl e => (inl (LengthExc e), p)
          | inr s2 =>
              (inr (brk p), with_counts p (<[brk p := s2]> (heap p))
                 (_nsamplesOut p + 1) (_nsamplesAlloc p + 1) (S (brk p)))
          end
      end
  end.

(** The two assertions at the top of [getSample] and [putSample]. *)
Definition pool_asserts (p : SamplePool) : bool :=
  (0 <=? _nsamplesOut p) &&
  (_nsamplesAlloc p =? _nsmall p + _nmedium p + _nlarge p + _nsamplesOut p).

Definition getSampleP (len : Z) (p : SamplePool) : (pool_error + nat) * SamplePool :=
  if negb (pool_asserts p) then (inl AssertFailed, p)
  else if (len <? SMALL_SAMPLE_MAXSIZE) && ((0 <? _nsmall p) || (_nmedium p + _nlarge p <? 4))
  then getSampleFrom Small len p
  else if (len <? MEDIUM_SAMPLE_MAXSIZE) && ((0 <? _nmedium p) || (_nlarge p <? 2))
  then getSampleFrom Medium len p
  else getSampleFrom Large len p.

(** ** putSample *)

(** [putSample(sample, SampleType*** vec, int *n, int *nalloc)]: grow by half
    when full, store, count. *)
Definition putSampleTo (w : poolClass) (ptr : nat) (p : SamplePool) :
    (pool_error + unit) * SamplePool :=
  let n := zlen (vec p w) in
  let nalloc := vecSize p w in
  let nalloc' := if n =? nalloc then s32 (nalloc + Z.shiftr nalloc 1) else nalloc in
  if n <? nalloc' then
    (inr tt, with_counts (with_vec p w (vec p w ++ [ptr]) nalloc') (heap p)
               (_nsamplesOut p - 1) (_nsamplesAlloc p) (brk p))
  else (inl OutOfBounds, p).

(** The pool a sample of a given allocated length is returned to. *)
Definition classOf (len : Z) : poolClass :=
  if len <? SMALL_SAMPLE_MAXSIZE then Small
  else if len <? MEDIUM_SAMPLE_MAXSIZE then Medium else Large.

Definition putSample (ptr : nat) (p : SamplePool) : (pool_error + unit) * SamplePool :=
  if negb (pool_asserts p) then (inl AssertFailed, p)
  else match heap p !! ptr with
       | None => (inl BadPointer, p)
       | Some s => putSampleTo (classOf (getAllocLength sizeof s)) ptr p
       end.

(** ** Reference counting *)

Definition holdReferenceP (ptr : nat) (p : SamplePool) : (pool_error + unit) * SamplePool :=
  match heap p !! ptr with
  | None => (inl BadPointer, p)
  | Some s => (inr tt, with_counts p (<[ptr := holdReference s]> (heap p))
                         (_nsamplesOut p) (_nsamplesAlloc p) (brk p))
  end.

Definition freeReference (ptr : nat) (p : SamplePool) : (pool_error + unit) * SamplePool :=
  match heap p !! ptr with
  | None => (inl BadPointer, p)
  | Some s =>
      let rc := _refCount s - 1 in
      let s' := mkSampleT (_header s) rc (_data s) (_allocLen s) in
      let p' := with_counts p (<[ptr := s']> (heap p))
                  (_nsamplesOut p) (_nsamplesAlloc p) (brk p) in
      let ref0 := rc =? 0 in
      if rc <? 0 then (inl AssertFailed, p')
      else if ref0 then putSample ptr p' else (inr tt, p')
  end.

(** ** The pool invariant *)

Definition pooled (p : SamplePool) : list nat :=
  _smallSamples p ++ _mediumSamples p ++ _largeSamples p.

(** Unused samples are exactly those without a reference, each is in the
    stack of its size class once, every sample is well formed, the counters
    conserve the samples, and every vector has room for its entries and can
    grow. *)
Record pool_wf (p : SamplePool) : Prop := {
  pw_nodup : NoDup (pooled p);
  pw_zero : forall ptr, ptr ∈ pooled p <->
      exists s, heap p !! ptr = Some s /\ _refCount s = 0;
  pw_sample : forall ptr s, heap p !! ptr = Some s ->
      sample_wf sizeof s /\ 0 <= _refCount s /\ (ptr < brk p)%nat;
  pw_class : forall w ptr s, ptr ∈ vec p w -> heap p !! ptr = Some s ->
      classOf (getAllocLength sizeof s) = w;
  pw_alloc : _nsamplesAlloc p = Z.of_nat (size (heap p));
  pw_out : _nsamplesOut p = _nsamplesAlloc p - zlen (pooled p);
  pw_room : forall w, 2 <= vecSize p w < 2 ^ 31 /\ zlen (vec p w) <= vecSize p w
}.

Lemma pooled_push p w x n :
  pooled (with_vec p w (vec p w ++ [x]) n) ≡ₚ x :: pooled p.
Proof.
  destruct w; unfold pooled; cbn.
  - rewrite <- app_assoc. symmetry. apply Permutation_middle.
  - rewrite <- app_assoc, app_assoc, (app_assoc (_smallSamples p)).
    symmetry. apply Permutation_middle.
  - rewrite !app_assoc. symmetry. apply Permutation_cons_append.
Qed.

Lemma last_take {A} (l : list A) x :
  last l = Some x -> l = take (length l - 1) l ++ [x].
Proof.
  intros H. apply last_Some in H as [k ->].
  rewrite length_app; cbn. by rewrite Nat.add_sub, take_app_length.
Qed.

Lemma with_vec_vec p w : with_vec p w (vec p w) (vecSize p w) = p.
Proof. by destruct p, w. Qed.

Lemma pooled_pop p w x n :
  last (vec p w) = Some x ->
  pooled p ≡ₚ x :: pooled (with_vec p w (take (length (vec p w) - 1) (vec p w)) n).
Proof.
  intros H. pose proof (last_take _ _ H) as E. revert E.
  generalize (take (length (vec p w) - 1) (vec p w)). intros l E.
  rewrite <- (pooled_push (with_vec p w l n) w x n).
  rewrite <- (with_vec_vec p w) at 1. rewrite E. by destruct p, w.
Qed.

Lemma vec_pooled p w x : x ∈ vec p w -> x ∈ pooled p.
Proof. destruct w; unfold pooled; cbn; rewrite !elem_of_app; tauto. Qed.

Lemma pool_wf_asserts p : pool_wf p -> pool_asserts p = true.
Proof.
  intros H. unfold pool_asserts. pose proof (pw_out p H) as Ho.
  assert (Hle : zlen (pooled p) <= _nsamplesAlloc p).
  { rewrite (pw_alloc p H). unfold zlen.
    rewrite <- (size_dom (D := gset nat) (heap p)).
    rewrite <- (size_list_to_set (C := gset nat) (pooled p)) by apply (pw_nodup p H).
    apply inj_le, subseteq_size. intros x Hx%elem_of_list_to_set.
    apply (pw_zero p H) in Hx as (s & Hs & _). apply elem_of_dom. eauto. }
  apply andb_true_iff; split; [apply Z.leb_le; lia|].
  apply Z.eqb_eq. unfold pooled, _nsmall, _nmedium, _nlarge in *.
  autorewrite with nidas_len in Ho. lia.
Qed.

Context (Hsizeof : 0 < sizeof).

Lemma sizeof_le8 : sizeof <= 8.
Proof. destruct stype; cbn; lia. Qed.

Lemma newSamplePool_wf objsize : 0 <= objsize -> pool_wf (newSamplePool objsize).
Proof.
  intros Ho. unfold newSamplePool, SMALL_SAMPLE_MAXSIZE, MEDIUM_SAMPLE_MAXSIZE.
  pose proof sizeof_le8.
  set (small := 16384 / _). assert (0 <= small <= 16384).
  { split; [apply Z.div_pos | apply Z.div_le_upper_bound]; nia. }
  clearbody small. change (512 / 64) with 8.
  split.
  - constructor.
  - intros ptr. split; [intros H'; inversion H' | intros (s & H' & _)].
    cbn in H'. by rewrite lookup_empty in H'.
  - intros ptr s. cbn. by rewrite lookup_empty.
  - intros w ? ? Hin. destruct w; cbn in Hin; inversion Hin.
  - done.
  - done.
  - intros w; destruct w; cbn; bdestr; change (zlen []) with 0; dlia.
Qed.

(** *** Transfer of the invariant through the three kinds of update *)

Lemma vec_with_vec p w w' l n :
  vec (with_vec p w l n) w' = if decide (w = w') then l else vec p w'.
Proof. by destruct w, w'. Qed.

Lemma vecSize_with_vec p w w' l n :
  vecSize (with_vec p w l n) w' = if decide (w = w') then n else vecSize p w'.
Proof. by destruct w, w'. Qed.

Lemma heap_with_vec p w l n : heap (with_vec p w l n) = heap p.
Proof. by destruct w. Qed.

(** A held sample is changed into another held sample. *)
Lemma pool_wf_modify p ptr s s' :
  pool_wf p -> heap p !! ptr = Some s -> 0 < _refCount s ->
  sample_wf sizeof s' -> 0 < _refCount s' ->
  pool_wf (with_counts p (<[ptr := s']> (heap p)) (_nsamplesOut p) (_nsamplesAlloc p) (brk p)).
Proof.
  intros H Hp Hr Hw' Hr'.
  assert (Hnp : ptr ∉ pooled p).
  { intros (s0 & Hs0 & ?)%(pw_zero p H). simplify_eq. lia. }
  split.
  - apply (pw_nodup p H).
  - intros q. change (pooled _) with (pooled p). rewrite (pw_zero p H q).
    cbn [heap with_counts]. destruct (decide (q = ptr)) as [->|Hq].
    + rewrite lookup_insert_eq. split; intros (s0 & ? & ?); simplify_eq; lia.
    + by rewrite lookup_insert_ne by done.
  - cbn [heap with_counts brk]. intros q sq. destruct (decide (q = ptr)) as [->|Hq].
    + rewrite lookup_insert_eq. intros [= <-].
      destruct (pw_sample p H ptr s Hp) as (_ & _ & ?). auto with lia.
    + rewrite lookup_insert_ne by done. apply (pw_sample p H).
  - cbn [heap with_counts]. intros w q sq Hq.
    change (vec _ w) with (vec p w) in Hq.
    rewrite lookup_insert_ne; [by apply (pw_class p H)|].
    intros ->. apply Hnp. by eapply vec_pooled.
  - cbn. rewrite (pw_alloc p H), map_size_insert_Some; eauto.
  - apply (pw_out p H).
  - apply (pw_room p H).
Qed.

(** The sample on top of a stack is taken out and held. *)
Lemma pool_wf_pop p w ptr s' :
  pool_wf p -> last (vec p w) = Some ptr -> sample_wf sizeof s' -> 0 < _refCount s' ->
  pool_wf (with_counts
    (with_vec p w (take (length (vec p w) - 1) (vec p w)) (vecSize p w))
    (<[ptr := s']> (heap p)) (_nsamplesOut p + 1) (_nsamplesAlloc p) (brk p)).
Proof.
  intros H Hl Hw' Hr'. set (p1 := with_vec _ _ _ _).
  pose proof (pooled_pop p w ptr (vecSize p w) Hl) as Hperm. fold p1 in Hperm.
  pose proof (pw_nodup p H) as Hnd. rewrite Hperm in Hnd. apply NoDup_cons in Hnd as [Hni Hnd].
  assert (Hin : ptr ∈ pooled p) by (rewrite Hperm; left).
  destruct (proj1 (pw_zero p H ptr) Hin) as (s & Hs & Hs0).
  split.
  - apply Hnd.
  - intros q. change (pooled _) with (pooled p1). cbn [heap with_counts].
    destruct (decide (q = ptr)) as [->|Hq].
    + rewrite lookup_insert_eq. split; [done | intros (s0 & ? & ?); simplify_eq; lia].
    + rewrite lookup_insert_ne by done. rewrite <- (pw_zero p H q), Hperm.
      split; [by right | intros [|]%elem_of_cons; done].
  - cbn [heap with_counts brk]. intros q sq. destruct (decide (q = ptr)) as [->|Hq].
    + rewrite lookup_insert_eq. intros [= <-].
      destruct (pw_sample p H ptr s Hs) as (_ & _ & ?). auto with lia.
    + rewrite lookup_insert_ne by done. apply (pw_sample p H).
  - cbn [heap with_counts]. intros w' q sq Hq. change (vec _ w') with (vec p1 w') in Hq.
    assert (q <> ptr) by (intros ->; apply Hni; by eapply vec_pooled).
    rewrite lookup_insert_ne by done. apply (pw_class p H).
    unfold p1 in Hq. rewrite vec_with_vec in Hq. case_decide; [subst w'|done].
    apply list_elem_of_In. apply list_elem_of_In in Hq.
    rewrite (last_take _ _ Hl). apply in_or_app. by left.
  - cbn. rewrite (pw_alloc p H), map_size_insert_Some; eauto.
  - cbn [_nsamplesOut _nsamplesAlloc with_counts].
    change (pooled (with_counts _ _ _ _ _)) with (pooled p1).
    rewrite (pw_out p H). unfold zlen. rewrite Hperm. cbn [length]. lia.
  - intros w'. pose proof (pw_room p H w') as Hrm. cbn.
    change (vecSize _ w') with (vecSize p1 w'). change (vec _ w') with (vec p1 w').
    unfold p1. rewrite vec_with_vec, vecSize_with_vec. case_decide; [subst|done].
    unfold zlen in *. rewrite length_take. lia.
Qed.

(** A sample whose last reference is gone is pushed on its stack. *)
Lemma pool_wf_push p w ptr s s' n :
  pool_wf p -> heap p !! ptr = Some s -> 0 < _refCount s ->
  sample_wf sizeof s' -> _refCount s' = 0 ->
  classOf (getAllocLength sizeof s') = w ->
  zlen (vec p w) + 1 <= n -> 2 <= n < 2 ^ 31 ->
  pool_wf (with_counts (with_vec p w (vec p w ++ [ptr]) n)
    (<[ptr := s']> (heap p)) (_nsamplesOut p - 1) (_nsamplesAlloc p) (brk p)).
Proof.
  intros H Hp Hr Hw' Hr' Hc Hn Hn2. set (p1 := with_vec _ _ _ _).
  pose proof (pooled_push p w ptr n) as Hperm. fold p1 in Hperm.
  assert (Hnp : ptr ∉ pooled p).
  { intros (s0 & Hs0 & ?)%(pw_zero p H). simplify_eq. lia. }
  split.
  - change (NoDup (pooled p1)). rewrite Hperm. apply NoDup_cons. split; [done|apply (pw_nodup p H)].
  - intros q. change (pooled _) with (pooled p1). cbn [heap with_counts].
    rewrite Hperm, elem_of_cons. destruct (decide (q = ptr)) as [->|Hq].
    + rewrite lookup_insert_eq. split; [eauto | by left].
    + rewrite lookup_insert_ne by done. rewrite <- (pw_zero p H q). tauto.
  - cbn [heap with_counts brk]. intros q sq. destruct (decide (q = ptr)) as [->|Hq].
    + rewrite lookup_insert_eq. intros [= <-].
      destruct (pw_sample p H ptr s Hp) as (_ & _ & ?). auto with lia.
    + rewrite lookup_insert_ne by done. apply (pw_sample p H).
  - cbn [heap with_counts]. intros w' q sq Hq. change (vec _ w') with (vec p1 w') in Hq.
    unfold p1 in Hq. rewrite vec_with_vec in Hq.
    destruct (decide (q = ptr)) as [->|Hne].
    + rewrite lookup_insert_eq. intros [= <-]. case_decide; [congruence|].
      exfalso. apply Hnp. by eapply vec_pooled.
    + rewrite lookup_insert_ne by done. apply (pw_class p H).
      case_decide; [subst w'|done]. apply elem_of_app in Hq as [|Hq]; [done|].
      apply list_elem_of_singleton in Hq. done.
  - cbn. rewrite (pw_alloc p H), map_size_insert_Some; eauto.
  - cbn [_nsamplesOut _nsamplesAlloc with_counts].
    change (pooled (with_counts _ _ _ _ _)) with (pooled p1).
    rewrite (pw_out p H). unfold zlen. rewrite Hperm. cbn [length]. lia.
  - intros w'. pose proof (pw_room p H w') as Hrm. cbn.
    change (vecSize _ w') with (vecSize p1 w'). change (vec _ w') with (vec p1 w').
    unfold p1. rewrite vec_with_vec, vecSize_with_vec. case_decide; [subst w'|done].
    rewrite zlen_app, zlen_cons, zlen_nil. lia.
Qed.

(** A sample allocated at an unused address is held. *)
Lemma pool_wf_fresh p s' :
  pool_wf p -> sample_wf sizeof s' -> 0 < _refCount s' ->
  heap p !! brk p = None /\
  pool_wf (with_counts p (<[brk p := s']> (heap p))
             (_nsamplesOut p + 1) (_nsamplesAlloc p + 1) (S (brk p))).
Proof.
  intros H Hw' Hr'.
  assert (Hfresh : heap p !! brk p = None).
  { destruct (heap p !! brk p) as [s0|] eqn:E; [|done].
    destruct (pw_sample p H _ _ E) as (_ & _ & ?). lia. }
  split; [done|]. split; cbn [heap with_counts brk _nsamplesOut _nsamplesAlloc].
  - apply (pw_nodup p H).
  - intros q. change (pooled _) with (pooled p). rewrite (pw_zero p H q).
    destruct (decide (q = brk p)) as [->|Hq].
    + rewrite lookup_insert_eq, Hfresh. split; intros (s0 & ? & ?); simplify_eq. lia.
    + by rewrite lookup_insert_ne by done.
  - intros q sq. destruct (decide (q = brk p)) as [->|Hq].
    + rewrite lookup_insert_eq. intros [= <-]. auto with lia.
    + rewrite lookup_insert_ne by done. intros Hsq.
      destruct (pw_sample p H _ _ Hsq) as (? & ? & ?). auto with lia.
  - intros w' q sq Hq. change (vec _ w') with (vec p w') in Hq.
    destruct (decide (q = brk p)) as [->|Hne].
    + apply vec_pooled in Hq. apply (pw_zero p H) in Hq as (? & ? & _). congruence.
    + rewrite lookup_insert_ne by done. by apply (pw_class p H).
  - rewrite (pw_alloc p H), map_size_insert_None by done. lia.
  - change (pooled _) with (pooled p). rewrite (pw_out p H). lia.
  - apply (pw_room p H).
Qed.

(** *** The operations *)

Lemma poison_wf len s : 0 <= len < getAllocLength sizeof s -> sample_wf sizeof s ->
  sample_wf sizeof (poison len s) /\ getAllocLength sizeof (poison len s) = getAllocLength sizeof s.
Proof.
  intros Hl (Ha & Hm & Hd). split; [|done]. unfold sample_wf, poison; cbn.
  unfold zlen in *. rewrite length_inserts. done.
Qed.

(** The sample handed out by a pool: one reference, the requested length. *)
Definition handed_out (len : Z) (s : SampleT DataT) : Prop :=
  _refCount s = 1 /\ getDataLength sizeof s = len /\ len <= getAllocLength sizeof s.

Lemma prepare_ok len s :
  sample_wf sizeof s -> 0 <= len <= getMaxDataLength sizeof ->
  exists s1 s2, (if getAllocLength sizeof s <? len then allocateData sizeof len s
     else inr (if len <? getAllocLength sizeof s then poison len s else s)) = inr s1 /\
    setDataLength sizeof len s1 = inr s2 /\ sample_wf sizeof s2 /\
    _refCount s2 = _refCount s /\ getDataLength sizeof s2 = len /\ len <= getAllocLength sizeof s2.
Proof.
  intros Hw Hl.
  assert (exists s1, (if getAllocLength sizeof s <? len then allocateData sizeof len s
     else inr (if len <? getAllocLength sizeof s then poison len s else s)) = inr s1 /\
     sample_wf sizeof s1 /\ _refCount s1 = _refCount s /\ len <= getAllocLength sizeof s1)
    as (s1 & -> & Hw1 & Hr1 & Hl1).
  { destruct (Z.ltb_spec (getAllocLength sizeof s) len).
    - destruct (allocateData_ok sizeof Hsizeof len s Hw Hl) as (s1 & ? & ? & ? & ? & _); eauto.
    - eexists; split; [done|]. destruct (Z.ltb_spec len (getAllocLength sizeof s)).
      + destruct (poison_wf len s) as [? ->]; [lia | done | auto with lia].
      + auto with lia. }
  destruct (setDataLength_ok sizeof Hsizeof len s1 Hw1) as (s2 & E & Hw2 & Hd & _ & Hal & Hr2 & _); [lia|].
  exists s1, s2. split; [done|]. split; [done|]. split; [done|]. split; [congruence|].
  unfold getDataLength, getAllocLength in *. rewrite Hd, Hal, Z.div_mul by lia. done.
Qed.

Lemma getSampleFrom_ok w len p :
  pool_wf p -> 0 <= len <= getMaxDataLength sizeof ->
  exists ptr p' s, getSampleFrom w len p = (inr ptr, p') /\ pool_wf p' /\
    heap p' !! ptr = Some s /\ handed_out len s /\
    (forall s0, heap p !! ptr = Some s0 -> _refCount s0 = 0) /\
    (forall q, q <> ptr -> heap p' !! q = heap p !! q).
Proof.
  intros H Hl. unfold getSampleFrom. destruct (last (vec p w)) as [ptr|] eqn:Elast.
  - assert (Hin : ptr ∈ pooled p).
    { apply (vec_pooled p w). apply list_elem_of_In. rewrite (last_take _ _ Elast).
      apply in_or_app. right. by left. }
    destruct (proj1 (pw_zero p H ptr) Hin) as (s & Hs & Hs0). rewrite Hs.
    destruct (pw_sample p H ptr s Hs) as (Hw & _ & _).
    destruct (prepare_ok len s Hw Hl) as (s1 & s2 & -> & -> & Hw2 & Hr2 & Hd2 & Hl2).
    eexists ptr, _, (holdReference s2). split; [done|]. split.
    + apply pool_wf_pop; try done. cbn. lia.
    + cbn [heap with_counts]. rewrite lookup_insert_eq. split; [done|].
      split; [unfold handed_out; cbn; auto with lia|].
      split; [intros; simplify_eq; done|]. intros q Hq. by rewrite lookup_insert_ne.
  - destruct (allocateData_ok (DataT := DataT) sizeof Hsizeof len (newSampleT stype))
      as (s1 & -> & Hw1 & Hl1 & Hr1 & _); [by apply newSampleT_wf | done |].
    destruct (setDataLength_ok sizeof Hsizeof len s1 Hw1)
      as (s2 & -> & Hw2 & Hd & _ & Hal & Hr2 & _); [lia|].
    destruct (pool_wf_fresh p s2 H Hw2) as [Hfresh Hp']; [rewrite Hr2, Hr1; done|].
    eexists (brk p), _, s2. split; [done|]. split; [done|].
    cbn [heap with_counts]. rewrite lookup_insert_eq. split; [done|].
    unfold handed_out, getDataLength, getAllocLength in *.
    rewrite Hd, Hal, Hr2, Hr1, Z.div_mul by lia.
    split; [done|]. split; [congruence|]. intros q Hq. by rewrite lookup_insert_ne.
Qed.

(** A full vector grows, and a vector always has room for one more entry. *)
Lemma grown_room p w :
  pool_wf p -> _nsamplesAlloc p < 2 ^ 30 ->
  let n' := if zlen (vec p w) =? vecSize p w
            then s32 (vecSize p w + Z.shiftr (vecSize p w) 1) else vecSize p w in
  zlen (vec p w) + 1 <= n' /\ 2 <= n' < 2 ^ 31.
Proof.
  intros H Hbound. destruct (pw_room p H w) as [Hsz Hroom].
  assert (Hlen : zlen (vec p w) <= _nsamplesAlloc p).
  { pose proof (pool_wf_asserts p H) as Hb. unfold pool_asserts in Hb.
    apply andb_true_iff in Hb as [Hb1%Z.leb_le Hb2%Z.eqb_eq].
    unfold _nsmall, _nmedium, _nlarge in Hb2.
    pose proof (zlen_nonneg (_smallSamples p)). pose proof (zlen_nonneg (_mediumSamples p)).
    pose proof (zlen_nonneg (_largeSamples p)). destruct w; cbn; lia. }
  cbv zeta. rewrite Z.shiftr_div_pow2 by lia. change (2 ^ 1) with 2.
  destruct (Z.eqb_spec (zlen (vec p w)) (vecSize p w)); [rewrite s32_small|]; dlia.
Qed.

Lemma putSample_ok ptr p s s' :
  pool_wf p -> heap p !! ptr = Some s -> 0 < _refCount s ->
  sample_wf sizeof s' -> _refCount s' = 0 -> _nsamplesAlloc p < 2 ^ 30 ->
  exists p', putSample ptr (with_counts p (<[ptr := s']> (heap p))
               (_nsamplesOut p) (_nsamplesAlloc p) (brk p)) = (inr tt, p') /\
    pool_wf p' /\ heap p' = <[ptr := s']> (heap p) /\
    vec p' (classOf (getAllocLength sizeof s')) =
      vec p (classOf (getAllocLength sizeof s')) ++ [ptr].
Proof.
  intros H Hp Hr Hw' Hr' Hbound. unfold putSample. set (p1 := with_counts _ _ _ _ _).
  assert (Hpa : pool_asserts p1 = true) by apply (pool_wf_asserts p H).
  rewrite Hpa. cbn [negb heap with_counts p1]. rewrite lookup_insert_eq.
  set (w := classOf _). unfold putSampleTo.
  change (vec p1 w) with (vec p w). change (vecSize p1 w) with (vecSize p w).
  pose proof (grown_room p w H Hbound) as Hn'. cbv zeta in Hn' |- *.
  set (n' := if zlen (vec p w) =? vecSize p w then _ else _) in *.
  destruct (Z.ltb_spec (zlen (vec p w)) n'); [|lia].
  eexists. split; [done|]. split; [|by destruct w].
  assert (E : with_counts (with_vec p1 w (vec p w ++ [ptr]) n') (heap p1)
                (_nsamplesOut p1 - 1) (_nsamplesAlloc p1) (brk p1) =
              with_counts (with_vec p w (vec p w ++ [ptr]) n') (<[ptr:=s']> (heap p))
                (_nsamplesOut p - 1) (_nsamplesAlloc p) (brk p)) by by destruct w.
  rewrite E. eapply pool_wf_push; eauto; lia.
Qed.

Lemma freeReference_ok ptr p s :
  pool_wf p -> heap p !! ptr = Some s -> 0 < _refCount s -> _nsamplesAlloc p < 2 ^ 30 ->
  exists p' s', freeReference ptr p = (inr tt, p') /\ pool_wf p' /\
    heap p' !! ptr = Some s' /\ _refCount s' = _refCount s - 1 /\
    (_refCount s = 1 -> last (vec p' (classOf (getAllocLength sizeof s))) = Some ptr) /\
    (forall q, q <> ptr -> heap p' !! q = heap p !! q).
Proof.
  intros H Hp Hr Hbound. unfold freeReference. rewrite Hp.
  set (s' := mkSampleT _ _ _ _).
  destruct (pw_sample p H ptr s Hp) as (Hw & _ & _).
  destruct (Z.ltb_spec (_refCount s - 1) 0); [lia|].
  destruct (Z.eqb_spec (_refCount s - 1) 0) as [Hz|Hnz].
  - destruct (putSample_ok ptr p s s' H Hp Hr Hw Hz Hbound) as (p' & -> & Hp' & Hh & Hv).
    change (getAllocLength sizeof s') with (getAllocLength sizeof s) in Hv.
    exists p', s'. rewrite Hh, lookup_insert_eq, Hv, last_snoc.
    repeat (split; [done|]). intros q Hq. by rewrite lookup_insert_ne.
  - eexists _, s'. split; [done|]. split; [eapply pool_wf_modify; eauto; cbn; lia|].
    cbn [heap with_counts]. rewrite lookup_insert_eq. split; [done|]. split; [done|].
    split; [lia|]. intros q Hq. by rewrite lookup_insert_ne.
Qed.

(** The pool an incoming request is served from. *)
Lemma getSampleP_ok len p :
  pool_wf p -> 0 <= len <= getMaxDataLength sizeof ->
  exists ptr p' s, getSampleP len p = (inr ptr, p') /\ pool_wf p' /\
    heap p' !! ptr = Some s /\ handed_out len s /\
    (forall s0, heap p !! ptr = Some s0 -> _refCount s0 = 0) /\
    (forall q, q <> ptr -> heap p' !! q = heap p !! q).
Proof.
  intros H Hl. unfold getSampleP. rewrite (pool_wf_asserts p H). cbn [negb].
  repeat case_match; by apply getSampleFrom_ok.
Qed.

(** ** Use of a pool as a sequence of atomic steps

    A client may request a sample, and, on a sample it holds, take another
    reference, release one, or change the sample (fill it in, set its time
    tag, reallocate its data) without touching its reference count. *)

Inductive pool_step (p : SamplePool) : SamplePool -> Prop :=
| step_get len r p' :
    0 <= len <= UINT_MAX -> getSampleP len p = (r, p') -> pool_step p p'
| step_hold ptr s r p' :
    heap p !! ptr = Some s -> 0 < _refCount s ->
    holdReferenceP ptr p = (r, p') -> pool_step p p'
| step_free ptr s r p' :
    heap p !! ptr = Some s -> 0 < _refCount s -> _nsamplesAlloc p < 2 ^ 30 ->
    freeReference ptr p = (r, p') -> pool_step p p'
| step_use ptr s s' :
    heap p !! ptr = Some s -> 0 < _refCount s ->
    sample_wf sizeof s' -> _refCount s' = _refCount s ->
    pool_step p (with_counts p (<[ptr := s']> (heap p))
                   (_nsamplesOut p) (_nsamplesAlloc p) (brk p)).

Inductive pool_reachable (objsize : Z) : SamplePool -> Prop :=
| reach_new : pool_reachable objsize (newSamplePool objsize)
| reach_step p p' : pool_reachable objsize p -> pool_step p p' -> pool_reachable objsize p'.

Lemma getSampleFrom_throw w len p :
  getMaxDataLength sizeof < len -> pool_wf p ->
  exists e, getSampleFrom w len p = (inl (LengthExc e), p).
Proof.
  intros Hl H. unfold getSampleFrom.
  destruct (last (vec p w)) as [ptr|] eqn:Elast.
  - assert (Hin : ptr ∈ pooled p).
    { apply (vec_pooled p w). apply list_elem_of_In. rewrite (last_take _ _ Elast).
      apply in_or_app. right. by left. }
    destruct (proj1 (pw_zero p H ptr) Hin) as (s & Hs & _). rewrite Hs.
    destruct (pw_sample p H ptr s Hs) as ((Ha & Hm & _) & _).
    assert (getAllocLength sizeof s < len).
    { unfold getAllocLength, getMaxDataLength, header_getMaxDataLength in *.
      apply Z.le_lt_trans with (UINT_MAX / sizeof); [apply Z.div_le_mono; lia | done]. }
    destruct (Z.ltb_spec (getAllocLength sizeof s) len); [|lia].
    rewrite (proj1 (proj1 (lengths_throw sizeof len s) Hl)). eauto.
  - rewrite (proj1 (proj1 (lengths_throw sizeof len (newSampleT stype)) Hl)). eauto.
Qed.

Lemma pool_step_wf p p' : pool_wf p -> pool_step p p' -> pool_wf p'.
Proof.
  intros H [len r p1 Hl E | ptr s r p1 Hs Hr E | ptr s r p1 Hs Hr Hb E | ptr s s' Hs Hr Hw' Hr'].
  - destruct (Z.le_gt_cases len (getMaxDataLength sizeof)) as [Hle|Hgt].
    + destruct (getSampleP_ok len p H) as (? & ? & ? & E' & ? & _); [lia|].
      rewrite E in E'. by simplify_eq.
    + unfold getSampleP in E. rewrite (pool_wf_asserts p H) in E. cbn [negb] in E.
      repeat case_match;
        match type of E with getSampleFrom ?w _ _ = _ =>
          destruct (getSampleFrom_throw w len p Hgt H) as [e E'] end;
        rewrite E' in E; by simplify_eq.
  - unfold holdReferenceP in E. rewrite Hs in E. simplify_eq.
    destruct (pw_sample p H ptr s Hs) as (Hw & _ & _).
    eapply pool_wf_modify; eauto; cbn; lia.
  - destruct (freeReference_ok ptr p s H Hs Hr Hb) as (? & ? & E' & ? & _).
    rewrite E in E'. by simplify_eq.
  - eapply pool_wf_modify; eauto; lia.
Qed.

Lemma pool_reachable_wf objsize p : 0 <= objsize -> pool_reachable objsize p -> pool_wf p.
Proof.
  intros Ho. induction 1 as [|p p' _ IH Hstep]; [by apply newSamplePool_wf|].
  by eapply pool_step_wf.
Qed.

End SamplePool.

(** ** Properties *)

(** C25: conservation and safety of a pool under any sequence of steps.  In
    every reachable state the assertions of [getSample]/[putSample] hold
    (allocated = pooled + handed out, nothing returned twice), an unused
    sample is in exactly one stack and has no reference, a used one is in
    none; a request within range always yields a sample that nobody held,
    with one reference and the requested length, and leaves every other
    sample alone. *)
Theorem pool_safe {DataT} (stype : sampleType) (weird : DataT) (objsize : Z)
    (p : SamplePool) (len : Z) :
  0 < sizeofType stype -> 0 <= objsize ->
  pool_reachable stype weird objsize p -> 0 <= len <= getMaxDataLength (sizeofType stype) ->
  pool_asserts p = true /\ NoDup (pooled p) /\
  (forall ptr, ptr ∈ pooled p <-> exists s, heap p !! ptr = Some s /\ _refCount s = 0) /\
  exists ptr p' s, getSampleP stype weird len p = (inr ptr, p') /\
    heap p' !! ptr = Some s /\ _refCount s = 1 /\
    getDataLength (sizeofType stype) s = len /\ len <= getAllocLength (sizeofType stype) s /\
    (forall s0, heap p !! ptr = Some s0 -> _refCount s0 = 0) /\
    (forall q, q <> ptr -> heap p' !! q = heap p !! q).
Proof.
  intros Hs Ho Hr Hl. pose proof (pool_reachable_wf stype weird Hs objsize p Ho Hr) as Hw.
  split; [by apply (pool_wf_asserts stype)|]. split; [apply (pw_nodup stype p Hw)|].
  split; [apply (pw_zero stype p Hw)|].
  destruct (getSampleP_ok stype weird Hs len p Hw Hl)
    as (ptr & p' & s & E & _ & Hp' & (? & ? & ?) & ? & ?).
  exists ptr, p', s. by split_and!.
Qed.

(** Releasing a reference never trips an assertion or writes past a
    vector (which grows when full); when it was the last one the sample is on
    top of the stack of its size class with no references, and the next
    request that this stack serves gets it back. *)
Theorem free_then_reuse {DataT} (stype : sampleType) (weird : DataT) (objsize : Z)
    (p : SamplePool) (ptr : nat) (s : SampleT DataT) (len : Z) :
  0 < sizeofType stype -> 0 <= objsize -> pool_reachable stype weird objsize p ->
  heap p !! ptr = Some s -> _refCount s = 1 -> _nsamplesAlloc p < 2 ^ 30 ->
  0 <= len <= getMaxDataLength (sizeofType stype) ->
  exists p', freeReference stype ptr p = (inr tt, p') /\
    pool_asserts p' = true /\ ptr ∈ pooled p' /\ _nsamplesOut p' = _nsamplesOut p - 1 /\
    fst (getSampleFrom stype weird (classOf (getAllocLength (sizeofType stype) s)) len p') = inr ptr.
Proof.
  intros Hs Ho Hr Hp H1 Hb Hl.
  pose proof (pool_reachable_wf stype weird Hs objsize p Ho Hr) as Hw.
  destruct (freeReference_ok stype ptr p s Hw Hp) as (p' & s' & E & Hw' & Hp' & Hr' & Hlast & Hq);
    [lia | done |].
  assert (Hz : ptr ∈ pooled p') by (apply (pw_zero stype p' Hw'); exists s'; split; [done | lia]).
  exists p'. split; [done|]. split; [by apply (pool_wf_asserts stype)|]. split; [done|]. split.
  - revert E. unfold freeReference, putSample, putSampleTo. rewrite Hp, H1. cbn.
    rewrite lookup_insert_eq. repeat case_match; try done; intros [= <-]; by destruct (classOf _).
  - destruct (getSampleFrom_ok stype weird Hs (classOf (getAllocLength (sizeofType stype) s)) len p' Hw' Hl)
      as (ptr' & p2 & s2 & E2 & _). rewrite E2. cbn. f_equal.
    unfold getSampleFrom in E2. rewrite (Hlast H1), Hp' in E2. repeat case_match; by simplify_eq.
Qed.

Lemma pool_safe_witness :
  exists ptr p', getSampleP CHAR_ST 0x80 3 (newSamplePool CHAR_ST 48) = (inr ptr, p').
Proof.
  destruct (pool_safe CHAR_ST 0x80 48 (newSamplePool CHAR_ST 48) 3 ltac:(done) ltac:(lia)
              (reach_new CHAR_ST 0x80 48) ltac:(vm_compute; split; congruence))
    as (_ & _ & _ & ptr & p' & s & E & _).
  exists ptr, p'. exact E.
Defined.

Lemma free_then_reuse_witness :
  exists p', freeReference CHAR_ST 0 (snd (getSampleP CHAR_ST 0x80 3 (newSamplePool CHAR_ST 48)))
    = (inr tt, p') /\ fst (getSampleFrom CHAR_ST 0x80 Small 2 p') = inr 0%nat.
Proof.
  destruct (free_then_reuse CHAR_ST 0x80 48
              (snd (getSampleP CHAR_ST 0x80 3 (newSamplePool CHAR_ST 48))) 0
              (mkSampleT (mkSampleHeader 0 3 0) 1 [None; None; None] 3) 2
              ltac:(done) ltac:(lia))
    as (p' & E & _ & _ & _ & H).
  - eapply reach_step; [apply reach_new|].
    eapply (step_get _ _ _ 3); [vm_compute; split; congruence | apply surjective_pairing].
  - vm_compute. reflexivity.
  - reflexivity.
  - vm_compute. reflexivity.
  - vm_compute. split; congruence.
  - exists p'. split; [exact E | exact H].
Defined.
