(* ===== verification/SampleSets.v ===== *)
(** * Sorted sets of samples.

    [src/src/nidas/core/SortedSampleSet.h]: the three orderings of samples
    (time tag; time tag, id and length; the same followed by the data) and the
    [std::multiset] / [std::set] types over them.  The containers are sorted
    lists; their operations are those the program uses: [multiset::insert],
    [multiset::lower_bound] and [set::insert] with its success flag. *)

From S2P Require Import Prelude.

(** ** What the containers see of a sample *)

Record sample := mkSample {
  s_tt : Z;            (** [getTimeTag()] *)
  s_id : Z;            (** [getId()] *)
  s_elsize : Z;        (** [sizeof(DataT)] of the sample's type *)
  s_data : list Z      (** the bytes of the data portion *)
}.

#[export] Instance sample_eq_dec : EqDecision sample.
Proof. solve_decision. Defined.

Definition s_bytes (s : sample) : Z := zlen (s_data s).
Definition s_len (s : sample) : Z := s_bytes s / s_elsize s.

(** ** The comparators *)

Definition SampleTimetagComparator (x y : sample) : bool := s_tt x <? s_tt y.

Definition SampleHeaderComparator (x y : sample) : bool :=
  if s_tt y <? s_tt x then false else
  if s_tt x =? s_tt y then
    if s_id y <? s_id x then false else
    if s_id x =? s_id y then s_len x <? s_len y
    else true
  else true.

(** [memcmp(a,b,n)]: the sign of the first differing unsigned byte. *)
Fixpoint memcmp (a b : list Z) (n : nat) : Z :=
  match n with
  | O => 0
  | S n =>
      match a, b with
      | x :: a, y :: b => if x <? y then -1 else if y <? x then 1 else memcmp a b n
      | _, _ => 0
      end
  end.

Definition FullSampleComparator (x y : sample) : bool :=
  if s_tt y <? s_tt x then false else
  if s_tt x =? s_tt y then
    if s_id y <? s_id x then false else
    if s_id x =? s_id y then
      if s_len y <? s_len x then false else
      if s_len x =? s_len y then memcmp (s_data x) (s_data y) (Z.to_nat (s_len x)) <? 0
      else true
    else true
  else true.

(** ** Containers over an ordering *)

Lemma filter_none {A} (f : A -> bool) l :
  Forall (fun x => f x = false) l -> List.filter f l = [].
Proof. induction 1 as [|x k Hx _ IH]; cbn; [done|]. by rewrite Hx. Qed.

(** The requirement of the C++ containers on their comparator. *)
Class StrictWeakOrder {A} (lt : A -> A -> bool) : Prop := {
  swo_irrefl : forall x, lt x x = false;
  swo_trans : forall x y z, lt x y = true -> lt y z = true -> lt x z = true;
  swo_equiv : forall x y z, lt x y = false -> lt y z = false -> lt x z = false
}.

Section Containers.
Context {A : Type} (lt : A -> A -> bool).

(** [multiset::insert(end(), x)]: after the elements not greater than [x]. *)
Fixpoint multiset_insert (x : A) (l : list A) : list A :=
  match l with
  | [] => [x]
  | y :: k => if lt x y then x :: l else y :: multiset_insert x k
  end.

(** [lower_bound(x)]: the elements before the iterator and those from it on. *)
Fixpoint lower_bound (x : A) (l : list A) : list A * list A :=
  match l with
  | [] => ([], [])
  | y :: k => if lt y x then let (a, b) := lower_bound x k in (y :: a, b) else ([], l)
  end.

(** [set::insert(x)]: no insertion when an equivalent element is present. *)
Fixpoint set_insert (x : A) (l : list A) : list A * bool :=
  match l with
  | [] => ([x], true)
  | y :: k =>
      if lt x y then (x :: l, true)
      else if lt y x then let (k', b) := set_insert x k in (y :: k', b)
      else (l, false)
  end.

(** Ascending order: nothing is followed by a smaller element. *)
Definition ascending : list A -> Prop := StronglySorted (fun x y => lt y x = false).
(** Strictly ascending: every element is followed by greater ones. *)
Definition strictly_ascending : list A -> Prop := StronglySorted (fun x y => lt x y = true).

(** [x] and [y] are equivalent for the container. *)
Definition equivalent (x y : A) : bool := negb (lt x y) && negb (lt y x).

Lemma multiset_insert_perm x l : multiset_insert x l ≡ₚ x :: l.
Proof.
  induction l as [|y k IH]; cbn; [done|]. destruct (lt x y); [done|].
  rewrite IH. apply Permutation_swap.
Qed.

Lemma lower_bound_app x l : fst (lower_bound x l) ++ snd (lower_bound x l) = l.
Proof.
  induction l as [|y k IH]; cbn; [done|]. destruct (lt y x); [|done].
  destruct (lower_bound x k) as [a b]; cbn in *. by rewrite IH.
Qed.

Lemma lower_bound_before x l : Forall (fun y => lt y x = true) (fst (lower_bound x l)).
Proof.
  induction l as [|y k IH]; cbn; [done|]. destruct (lt y x) eqn:E; [|done].
  destruct (lower_bound x k) as [a b]; cbn in *. by constructor.
Qed.

Context `{!StrictWeakOrder lt}.

Lemma swo_asym x y : lt x y = true -> lt y x = false.
Proof.
  intros H. destruct (lt y x) eqn:E; [|done].
  pose proof (swo_trans x y x H E) as C. by rewrite swo_irrefl in C.
Qed.

(** [x < y] and [z] not less than [y] give [x < z]. *)
Lemma swo_lt_le x y z : lt x y = true -> lt z y = false -> lt x z = true.
Proof.
  intros H1 H2. destruct (lt x z) eqn:E; [done|].
  by rewrite (swo_equiv x z y E H2) in H1.
Qed.

Lemma multiset_insert_ascending x l : ascending l -> ascending (multiset_insert x l).
Proof.
  unfold ascending. induction 1 as [|y k Hk IH Hy]; cbn.
  - by repeat constructor.
  - destruct (lt x y) eqn:E.
    + constructor; [by constructor|]. constructor; [by apply swo_asym|].
      eapply Forall_impl; [exact Hy|]. intros z Hz. cbn in Hz.
      apply swo_asym. by eapply swo_lt_le.
    + constructor; [done|]. rewrite multiset_insert_perm. by constructor.
Qed.

Lemma lower_bound_after x l :
  ascending l -> Forall (fun y => lt y x = false) (snd (lower_bound x l)).
Proof.
  unfold ascending. induction 1 as [|y k Hk IH Hy]; cbn; [done|].
  destruct (lt y x) eqn:E; [by destruct (lower_bound x k)|].
  constructor; [done|]. eapply Forall_impl; [exact Hy|]. intros z Hz. cbn in Hz.
  by eapply swo_equiv.
Qed.

Lemma lt_not_equivalent x z w :
  lt x w = true -> equivalent z x = true -> equivalent z w = false.
Proof.
  unfold equivalent. intros Hxw (Hzx & Hxz)%andb_true_iff.
  apply negb_true_iff in Hzx, Hxz. destruct (lt z w) eqn:E; [done|].
  by rewrite (swo_equiv x z w Hxz E) in Hxw.
Qed.

(** Stability: the elements equivalent to any [z] keep their arrival order. *)
Lemma multiset_insert_stable x z l :
  ascending l ->
  List.filter (equivalent z) (multiset_insert x l) =
  List.filter (equivalent z) l ++ List.filter (equivalent z) [x].
Proof.
  unfold ascending. induction 1 as [|y k Hk IH Hy]; [done|].
  cbn [multiset_insert]. destruct (lt x y) eqn:E.
  - cbn [List.filter]. destruct (equivalent z x) eqn:Ezx; [|by rewrite app_nil_r].
    assert (Hn : forall w, lt x w = true -> equivalent z w = false)
      by (intros w Hw; by eapply lt_not_equivalent).
    rewrite (Hn y E), filter_none; [done|].
    eapply Forall_impl; [exact Hy|]. intros w Hw. apply Hn. by eapply swo_lt_le.
  - cbn [List.filter]. rewrite IH. by destruct (equivalent z y).
Qed.

Lemma set_insert_strict x l :
  strictly_ascending l -> strictly_ascending (fst (set_insert x l)) /\
  (snd (set_insert x l) = true -> fst (set_insert x l) ≡ₚ x :: l) /\
  (snd (set_insert x l) = false ->
     fst (set_insert x l) = l /\ exists y, y ∈ l /\ equivalent x y = true).
Proof.
  unfold strictly_ascending. induction 1 as [|y k Hk IH Hy]; cbn; [by repeat constructor|].
  destruct (lt x y) eqn:E1; [|destruct (lt y x) eqn:E2]; cbn.
  - split; [|done]. constructor; [by constructor|]. constructor; [done|].
    eapply Forall_impl; [exact Hy|]. intros z Hz. by eapply swo_trans.
  - destruct (set_insert x k) as [k' b] eqn:Ek; cbn in *. destruct IH as (IH1 & IH2 & IH3).
    destruct b; cbn.
    + specialize (IH2 eq_refl). split; [|split; [|done]].
      * constructor; [done|]. rewrite IH2. by constructor.
      * intros _. rewrite IH2. apply Permutation_swap.
    + destruct (IH3 eq_refl) as (-> & w & Hw & Hxw). split; [by constructor|].
      split; [done|]. intros _. split; [done|]. exists w. split; [by right|done].
  - split; [by constructor|]. split; [done|]. intros _. split; [done|].
    exists y. split; [by left|]. unfold equivalent. by rewrite E1, E2.
Qed.

End Containers.

(** ** The comparators are orders of keys

    Each comparator compares a list of numbers lexicographically. *)

Definition headerKey (s : sample) : list Z := [s_tt s; s_id s; s_len s].
Definition fullKey (s : sample) : list Z :=
  headerKey s ++ take (Z.to_nat (s_len s)) (s_data s).

Lemma lexlt_swo {A} (key : A -> list Z) (lt : A -> A -> bool) :
  (forall x y, lt x y = lexlt (key x) (key y)) -> StrictWeakOrder lt.
Proof.
  intros H. split; intros *; rewrite !H.
  - apply lexlt_irrefl.
  - apply lexlt_trans.
  - intros H1 H2. destruct (lexlt (key x) (key z)) eqn:E; [|done]. exfalso.
    destruct (lexlt (key y) (key x)) eqn:E1.
    + by rewrite (lexlt_trans _ _ _ E1 E) in H2.
    + rewrite (lexlt_total _ _ H1 E1) in E. congruence.
Qed.

Lemma memcmp_lexlt n a b :
  length a = n -> length b = n -> (memcmp a b n <? 0) = lexlt a b.
Proof.
  revert a b; induction n as [|n IH]; intros [|x a] [|y b] Ha Hb; cbn in *; try lia; try done.
  injection Ha as Ha. injection Hb as Hb. specialize (IH a b Ha Hb).
  destruct (x <? y), (y <? x); done.
Qed.

Lemma memcmp_take n a b : memcmp a b n = memcmp (take n a) (take n b) n.
Proof.
  revert a b; induction n as [|n IH]; intros [|x a] [|y b]; cbn; try done.
  by rewrite IH.
Qed.

(** The data of a sample holds at least [getDataLength()] bytes. *)
Definition sample_ok (s : sample) : Prop := 1 <= s_elsize s.

Lemma s_len_bytes s : sample_ok s -> (Z.to_nat (s_len s) <= length (s_data s))%nat.
Proof.
  unfold sample_ok, s_len, s_bytes, zlen. intros H.
  assert (Z.of_nat (length (s_data s)) / s_elsize s <= Z.of_nat (length (s_data s)))
    by (apply Z.div_le_upper_bound; nia). lia.
Qed.

Lemma timetag_key x y : SampleTimetagComparator x y = lexlt [s_tt x] [s_tt y].
Proof. unfold SampleTimetagComparator; cbn. by bdestr. Qed.

Lemma header_key x y : SampleHeaderComparator x y = lexlt (headerKey x) (headerKey y).
Proof. unfold SampleHeaderComparator, headerKey; cbn. bdestr; try lia; done. Qed.

Lemma full_key x y : sample_ok x -> sample_ok y ->
  FullSampleComparator x y = lexlt (fullKey x) (fullKey y).
Proof.
  intros Hx Hy. unfold FullSampleComparator, fullKey, headerKey. cbn [app lexlt].
  assert (Hm : s_len x = s_len y ->
    (memcmp (s_data x) (s_data y) (Z.to_nat (s_len x)) <? 0) =
    lexlt (take (Z.to_nat (s_len x)) (s_data x)) (take (Z.to_nat (s_len y)) (s_data y))).
  { intros E. pose proof (s_len_bytes x Hx). pose proof (s_len_bytes y Hy).
    rewrite memcmp_take, memcmp_lexlt, E; rewrite ?length_take; [done | lia..]. }
  generalize dependent (memcmp (s_data x) (s_data y) (Z.to_nat (s_len x)) <? 0).
  intros m Hm. bdestr; try lia; try done. by apply Hm.
Qed.

#[export] Instance timetag_swo : StrictWeakOrder SampleTimetagComparator.
Proof. apply (lexlt_swo (fun s => [s_tt s])), timetag_key. Qed.

#[export] Instance header_swo : StrictWeakOrder SampleHeaderComparator.
Proof. apply (lexlt_swo headerKey), header_key. Qed.

(** Insertion of a sequence of samples, in order. *)
Definition insert_all (l acc : list sample) : list sample :=
  fold_left (fun acc s => multiset_insert SampleTimetagComparator s acc) l acc.

Lemma ascending_tt l :
  ascending SampleTimetagComparator l -> StronglySorted (fun a b => s_tt a <= s_tt b) l.
Proof.
  apply StronglySorted_mono. intros a b. unfold SampleTimetagComparator. bdestr; lia.
Qed.

Lemma tt_filter t k :
  List.filter (equivalent SampleTimetagComparator (mkSample t 0 1 [])) k =
  List.filter (fun s => s_tt s =? t) k.
Proof.
  apply filter_ext. intros a. unfold equivalent, SampleTimetagComparator; cbn.
  bdestr; cbn; lia.
Qed.

Lemma insert_all_spec l t acc :
  ascending SampleTimetagComparator acc ->
  ascending SampleTimetagComparator (insert_all l acc) /\ insert_all l acc ≡ₚ acc ++ l /\
  List.filter (fun s => s_tt s =? t) (insert_all l acc) =
  List.filter (fun s => s_tt s =? t) acc ++ List.filter (fun s => s_tt s =? t) l.
Proof.
  revert acc. induction l as [|x l IH]; intros acc Hacc; [by rewrite !app_nil_r|].
  change (insert_all (x :: l) acc) with
    (insert_all l (multiset_insert SampleTimetagComparator x acc)).
  destruct (IH (multiset_insert SampleTimetagComparator x acc)) as (H1 & H2 & H3);
    [exact (multiset_insert_ascending _ x acc Hacc)|].
  split; [done|]. split.
  - rewrite H2, multiset_insert_perm. apply Permutation_middle.
  - pose proof (multiset_insert_stable SampleTimetagComparator x (mkSample t 0 1 []) acc Hacc) as Hs.
    rewrite !tt_filter in Hs. rewrite H3, Hs, <- app_assoc. f_equal.
    cbn. by destruct (s_tt x =? t).
Qed.

(** ** Properties *)

(** The comparator of [SortedSampleSet3] is a strict weak ordering on
    samples (as [std::set] requires), but its equivalence is coarser than
    equality of the data: two samples are merged when time tag, id and length
    agree and the first [getDataLength()] BYTES agree, because [memcmp] is
    given a count of elements; so for 2-byte and wider elements different
    data can be taken for a duplicate. *)
Theorem full_comparator_equivalence x y z :
  sample_ok x -> sample_ok y -> sample_ok z ->
  FullSampleComparator x x = false /\
  (FullSampleComparator x y = true -> FullSampleComparator y z = true ->
     FullSampleComparator x z = true) /\
  (FullSampleComparator x y = false -> FullSampleComparator y z = false ->
     FullSampleComparator x z = false) /\
  (equivalent FullSampleComparator x y = true <->
     s_tt x = s_tt y /\ s_id x = s_id y /\ s_len x = s_len y /\
     take (Z.to_nat (s_len x)) (s_data x) = take (Z.to_nat (s_len x)) (s_data y)).
Proof.
  intros Hx Hy Hz. unfold equivalent. rewrite !full_key by done.
  destruct (lexlt_swo fullKey (fun a b => lexlt (fullKey a) (fullKey b)) ltac:(done)) as [I T E].
  split; [apply I|]. split; [apply T|]. split; [apply E|].
  rewrite andb_true_iff, !negb_true_iff. split.
  - intros [H1 H2]. pose proof (lexlt_total _ _ H1 H2) as H. unfold fullKey, headerKey in H.
    cbn in H. injection H as -> -> Hl Ht. rewrite <- Hl in Ht. auto.
  - intros (E1 & E2 & E3 & E4).
    assert (fullKey x = fullKey y) as ->.
    { unfold fullKey, headerKey. by rewrite E1, E2, <- E3, E4. }
    split; apply lexlt_irrefl.
Qed.

(** The first bytes agree, the second element does not. *)
Lemma full_comparator_equivalence_witness :
  let x := mkSample 5 1 4 [1; 0; 0; 0; 2; 0; 0; 0] in
  let y := mkSample 5 1 4 [1; 0; 0; 0; 3; 0; 0; 0] in
  x <> y /\ set_insert FullSampleComparator y [x] = ([x], false).
Proof.
  intros x y. split; [discriminate|].
  destruct (full_comparator_equivalence x y y) as (_ & _ & _ & H);
    [unfold sample_ok; cbn; lia .. |].
  assert (E : equivalent FullSampleComparator x y = true) by (apply H; vm_compute; auto).
  vm_compute in E |- *. reflexivity.
Defined.

(** Inserting samples one by one in a [SortedSampleSet] is a stable
    sort: the set is ascending in time, holds exactly the samples inserted,
    and samples with the same time tag stay in order of arrival. *)
Theorem multiset_stable_sort (l : list sample) (t : Z) :
  let out := insert_all l [] in
  StronglySorted (fun a b => s_tt a <= s_tt b) out /\ out ≡ₚ l /\
  List.filter (fun s => s_tt s =? t) out = List.filter (fun s => s_tt s =? t) l.
Proof.
  cbv zeta. destruct (insert_all_spec l t []) as (H1 & H2 & H3); [constructor|].
  split; [by apply ascending_tt|done].
Qed.
