(* ===== verification/Distribution.v ===== *)
(** * Distribution of samples to clients.

    [SampleClientList] and [SampleSourceSupport] of
    [src/src/nidas/core/SampleClientList.cc], [SampleSourceSupport.h] and
    [SampleSourceSupport.cc]: a source keeps a list of the clients of all its
    samples and lists of the clients of single sample ids, and passes each
    sample to them.  [SampleBuffer] of [SampleBuffer.h] and [SampleBuffer.cc]
    is a source in front of another one.

    Clients are pointers, that is numbers.  The lists are only touched under
    their locks, so an operation on a list is one step; a client may itself
    register or unregister from within [receive], while the distribution
    walks over copies of the lists. *)

From S2P Require Import Prelude StdMap SampleSets.

(** ** SampleClientList *)

Definition cl_add (c : Z) (l : list Z) : list Z := if bool_decide (c ∈ l) then l else l ++ [c].

Fixpoint cl_remove (c : Z) (l : list Z) : list Z :=
  match l with
  | [] => []
  | x :: l => if x =? c then l else x :: cl_remove c l
  end.

(** ** SampleSourceSupport *)

Record SampleStats := mkSampleStats { _nbytes : Z; _lastTT : Z; _nsamples : Z }.

(** A [SampleTag]: its address and its id. *)
Record tag := mkTag { tag_ptr : Z; tag_id : Z }.

Record Source := mkSource {
  _sampleTags : list tag;
  _clients : list Z;
  _clientsBySampleId : smap (list Z);
  _clientSet : gset Z;
  _stats : SampleStats;
  _raw : bool;
  _keepStats : bool
}.

Definition newSource (raw : bool) : Source := mkSource [] [] [] ∅ (mkSampleStats 0 0 0) raw false.

Definition with_clients (st : Source) (l : list Z) (m : smap (list Z)) (s : gset Z) : Source :=
  mkSource (_sampleTags st) l m s (_stats st) (_raw st) (_keepStats st).

Definition with_tags (st : Source) (l : list tag) : Source :=
  mkSource l (_clients st) (_clientsBySampleId st) (_clientSet st) (_stats st) (_raw st) (_keepStats st).

Definition setKeepStats (b : bool) (st : Source) : Source :=
  mkSource (_sampleTags st) (_clients st) (_clientsBySampleId st) (_clientSet st) (_stats st) (_raw st) b.

(** Tags are compared by address. *)
Definition addSampleTag (t : tag) (st : Source) : Source :=
  if existsb (fun x => tag_ptr x =? tag_ptr t) (_sampleTags st) then st else with_tags st (_sampleTags st ++ [t]).

Fixpoint erase_tag (t : tag) (l : list tag) : list tag :=
  match l with
  | [] => []
  | x :: l => if tag_ptr x =? tag_ptr t then l else x :: erase_tag t l
  end.

Definition removeSampleTag (t : tag) (st : Source) : Source := with_tags st (erase_tag t (_sampleTags st)).

Definition addSampleClient (c : Z) (st : Source) : Source :=
  with_clients st (cl_add c (_clients st)) (_clientsBySampleId st) ({[c]} ∪ _clientSet st).

Definition removeSampleClient (c : Z) (st : Source) : Source :=
  with_clients st (cl_remove c (_clients st))
    (map (fun e => (e.1, cl_remove c e.2)) (_clientsBySampleId st)) (_clientSet st ∖ {[c]}).

Definition addSampleClientForTag (c : Z) (t : tag) (st : Source) : Source :=
  let m := _clientsBySampleId st in
  let l := default [] (sm_find (tag_id t) m) in
  with_clients st (_clients st) (sm_set (tag_id t) (cl_add c l) m) ({[c]} ∪ _clientSet st).

Definition removeSampleClientForTag (c : Z) (t : tag) (st : Source) : Source :=
  let m := _clientsBySampleId st in
  let m := match sm_find (tag_id t) m with
           | Some l => sm_set (tag_id t) (cl_remove c l) m
           | None => m
           end in
  with_clients st (_clients st) m (_clientSet st ∖ {[c]}).

Definition removeAllSampleClients (st : Source) : Source :=
  with_clients st [] (_clientsBySampleId st) ∅.

Definition getClientCount (st : Source) : Z := Z.of_nat (size (_clientSet st)).

(** The operations as data. *)
Inductive sop :=
| AddClient (c : Z)
| RemoveClient (c : Z)
| AddClientForTag (c : Z) (t : tag)
| RemoveClientForTag (c : Z) (t : tag)
| RemoveAllClients.

Definition apply_sop (o : sop) (st : Source) : Source :=
  match o with
  | AddClient c => addSampleClient c st
  | RemoveClient c => removeSampleClient c st
  | AddClientForTag c t => addSampleClientForTag c t st
  | RemoveClientForTag c t => removeSampleClientForTag c t st
  | RemoveAllClients => removeAllSampleClients st
  end.

Definition apply_sops (l : list sop) (st : Source) : Source := fold_left (fun st o => apply_sop o st) l st.

Section Distribute.

(** What a client does to the source from within [receive]. *)
Context (reaction : Z -> sample -> list sop).

(** The loop over a copied list. *)
Definition deliver (s : sample) (tmp : list Z) (st : Source) : Source :=
  fold_left (fun st c => apply_sops (reaction c s) st) tmp st.

Definition SIZEOF_HEADER : Z := 16.

(** [distribute(sample)]: the clients called, in order, and the source
    afterwards.  The reference to the sample is released at the end. *)
Definition distribute (s : sample) (st : Source) : list Z * Source :=
  let tmp := default [] (sm_find (s_id s) (_clientsBySampleId st)) in
  let st := deliver s tmp st in
  let tmp' := _clients st in
  let st := deliver s tmp' st in
  let st := if _keepStats st
            then mkSource (_sampleTags st) (_clients st) (_clientsBySampleId st) (_clientSet st)
                   (mkSampleStats (s64 (_nbytes (_stats st) + s32 (SIZEOF_HEADER + s_bytes s))) (s_tt s)
                      (u64 (_nsamples (_stats st) + 1))) (_raw st) (_keepStats st)
            else st in
  (tmp ++ tmp', st).

Fixpoint distribute_list (l : list sample) (st : Source) : list (Z * sample) * Source :=
  match l with
  | [] => ([], st)
  | s :: l =>
      let '(cs, st) := distribute s st in
      let '(rest, st) := distribute_list l st in
      (map (fun c => (c, s)) cs ++ rest, st)
  end.

(** ** SampleBuffer

    The two vectors, the heap accounting and the source.  [sb_out] are the
    calls of [receive] made so far. *)
Record SampleBuffer := mkSampleBuffer {
  _inserterBuf : list sample;
  _consumerBuf : list sample;
  sb_source : Source;
  _heapMax : Z;
  _heapSize : Z;
  _heapBlock : bool;
  sb_interrupted : bool;
  sb_out : list (Z * sample)
}.

Definition newSampleBuffer (raw : bool) : SampleBuffer :=
  mkSampleBuffer [] [] (newSource raw) 50000000 0 false false [].

Definition with_source (b : SampleBuffer) (st : Source) (out : list (Z * sample)) : SampleBuffer :=
  mkSampleBuffer (_inserterBuf b) (_consumerBuf b) st (_heapMax b) (_heapSize b) (_heapBlock b) (sb_interrupted b) out.

(** [receive(s)]: under the lock the sample is distributed at once. *)
Definition sb_receive (s : sample) (b : SampleBuffer) : SampleBuffer :=
  let '(cs, st) := distribute s (sb_source b) in
  with_source b st (sb_out b ++ map (fun c => (c, s)) cs).

Definition sb_heapDecrement (bytes : Z) (b : SampleBuffer) : SampleBuffer :=
  mkSampleBuffer (_inserterBuf b) (_consumerBuf b) (sb_source b) (_heapMax b) (u64 (_heapSize b - bytes))
    (_heapBlock b) (sb_interrupted b) (sb_out b).

Definition sb_interrupt (b : SampleBuffer) : SampleBuffer :=
  mkSampleBuffer (_inserterBuf b) (_consumerBuf b) (sb_source b) (_heapMax b) (_heapSize b) (_heapBlock b) true (sb_out b).

(** What one turn of [run] does. *)
Inductive sb_turn := SbWait | SbExit (b : SampleBuffer) | SbAgain (b : SampleBuffer) | SbAssert.

Definition sb_run (b : SampleBuffer) : sb_turn :=
  if sb_interrupted b then
    SbExit (mkSampleBuffer [] [] (sb_source b) (_heapMax b) (_heapSize b) (_heapBlock b) true (sb_out b))
  else
    match _consumerBuf b, _inserterBuf b with
    | _ :: _, _ => SbAssert
    | [], [] => SbWait
    | [], l =>
        let '(calls, st) := distribute_list l (sb_source b) in
        let ssum := foldr (fun s n => u64 (s_bytes s + SIZEOF_HEADER + n)) 0 l in
        SbAgain (sb_heapDecrement ssum
          (mkSampleBuffer [] [] st (_heapMax b) (_heapSize b) (_heapBlock b) (sb_interrupted b) (sb_out b ++ calls)))
    end.

End Distribute.

(** ** Registrations: the abstract source

    A registration is a client with the sample id it asked for, or with no
    id when it asked for all samples. *)
Definition registrations := gset (Z * option Z).

Definition spec_sop (o : sop) (R : registrations) : registrations :=
  match o with
  | AddClient c => {[(c, None)]} ∪ R
  | RemoveClient c => filter (fun p => p.1 <> c) R
  | AddClientForTag c t => {[(c, Some (tag_id t))]} ∪ R
  | RemoveClientForTag c t => R ∖ {[(c, Some (tag_id t))]}
  | RemoveAllClients => filter (fun p => p.2 <> None) R
  end.

Definition spec_sops (l : list sop) (R : registrations) : registrations := fold_left (fun R o => spec_sop o R) l R.

Definition registered (st : Source) (c : Z) (o : option Z) : Prop :=
  match o with
  | None => c ∈ _clients st
  | Some id => c ∈ default [] (sm_find id (_clientsBySampleId st))
  end.

Definition lists_ok (st : Source) : Prop :=
  NoDup (_clients st) /\ sm_wf (_clientsBySampleId st) /\
  forall id, NoDup (default [] (sm_find id (_clientsBySampleId st))).

Definition refines (st : Source) (R : registrations) : Prop :=
  lists_ok st /\ forall c o, registered st c o <-> (c, o) ∈ R.

Lemma cl_add_elem c x l : x ∈ cl_add c l <-> x = c \/ x ∈ l.
Proof.
  unfold cl_add. case_bool_decide as H; [|set_solver]. split; [auto|]. by intros [->|?].
Qed.

Lemma cl_add_nodup c l : NoDup l -> NoDup (cl_add c l).
Proof.
  intros Hl. unfold cl_add. case_bool_decide as H; [done|]. apply NoDup_app. split; [done|].
  split; [|apply NoDup_singleton]. intros x Hx ->%list_elem_of_singleton. done.
Qed.

Lemma cl_remove_elem c x l : NoDup l -> (x ∈ cl_remove c l <-> x ∈ l /\ x <> c).
Proof.
  induction l as [|y l IH]; cbn; [set_solver|]. intros [Hy Hl]%NoDup_cons.
  destruct (Z.eqb_spec y c) as [->|Hc].
  - split; [|set_solver]. intros Hx. split; [by right|]. by intros ->.
  - rewrite elem_of_cons, IH, elem_of_cons by done. naive_solver.
Qed.

Lemma cl_remove_nodup c l : NoDup l -> NoDup (cl_remove c l).
Proof.
  induction l as [|y l IH]; cbn; [done|]. intros [Hy Hl]%NoDup_cons. destruct (y =? c); [done|].
  constructor; [|by apply IH]. rewrite cl_remove_elem by done. tauto.
Qed.

Lemma sm_map_wf {A} (f : A -> A) (m : smap A) : sm_wf m -> sm_wf (map (fun e => (e.1, f e.2)) m).
Proof. unfold sm_wf. by rewrite map_map. Qed.

(** Every operation refines its effect on the registrations. *)
Lemma apply_sop_refines o st R : refines st R -> refines (apply_sop o st) (spec_sop o R).
Proof.
  intros [(N1 & W & N2) H]. destruct o as [c|c|c t|c t|]; cbn [apply_sop spec_sop].
  - split.
    + split; [by apply cl_add_nodup|]. done.
    + intros x o. rewrite elem_of_union, elem_of_singleton, <- H. destruct o as [id|]; cbn; [naive_solver|].
      rewrite cl_add_elem. naive_solver.
  - split.
    + split; [by apply cl_remove_nodup|]. split; [by apply sm_map_wf|]. intros id. cbn. rewrite sm_find_map.
      specialize (N2 id). destruct (sm_find id _); cbn in *; [by apply cl_remove_nodup|constructor].
    + intros x o. rewrite elem_of_filter, <- H. destruct o as [id|]; cbn.
      * rewrite sm_find_map. specialize (N2 id). destruct (sm_find id _); cbn in *; [|set_solver].
        rewrite cl_remove_elem by done. tauto.
      * rewrite cl_remove_elem by done. tauto.
  - split.
    + split; [done|]. split; [by apply sm_set_wf|]. intros id. cbn. rewrite sm_find_set.
      destruct (_ =? _); [by apply cl_add_nodup|done].
    + intros x o. rewrite elem_of_union, elem_of_singleton, <- H. destruct o as [id|]; cbn; [|naive_solver].
      rewrite sm_find_set. destruct (Z.eqb_spec id (tag_id t)) as [->|E]; cbn; [rewrite cl_add_elem|]; naive_solver.
  - assert (Hf : forall id, default [] (sm_find id (_clientsBySampleId (removeSampleClientForTag c t st))) =
      if id =? tag_id t then cl_remove c (default [] (sm_find id (_clientsBySampleId st)))
      else default [] (sm_find id (_clientsBySampleId st))).
    { intros id. cbn. destruct (sm_find (tag_id t) (_clientsBySampleId st)) as [l|] eqn:E.
      - rewrite sm_find_set. destruct (Z.eqb_spec id (tag_id t)) as [->|]; [by rewrite E|done].
      - destruct (Z.eqb_spec id (tag_id t)) as [->|]; [by rewrite E|done]. }
    split.
    + split; [done|]. split; [cbn; destruct (sm_find (tag_id t) _); [by apply sm_set_wf|done]|].
      intros id. rewrite Hf. destruct (_ =? _); [by apply cl_remove_nodup|done].
    + intros x o. rewrite elem_of_difference, elem_of_singleton, <- H. destruct o as [id|]; [|cbn; naive_solver].
      unfold registered. rewrite Hf. destruct (Z.eqb_spec id (tag_id t)) as [->|]; [rewrite cl_remove_elem by done|]; naive_solver.
  - split; [split; [constructor|done]|]. intros x o. rewrite elem_of_filter, <- H.
    destruct o as [id|]; cbn; [naive_solver|]. set_solver.
Qed.

Lemma apply_sops_refines l : forall st R, refines st R -> refines (apply_sops l st) (spec_sops l R).
Proof.
  induction l as [|o l IH]; intros st R H; cbn; [done|]. by apply IH, apply_sop_refines.
Qed.

Lemma newSource_refines raw : refines (newSource raw) ∅.
Proof.
  split; [split; [constructor|]; split; [constructor|]; intros; constructor|].
  intros c [id|]; cbn; set_solver.
Qed.

(** ** Who gets a sample *)

(** A client only registers and unregisters itself. *)
Definition op_of (c : Z) (o : sop) : Prop :=
  match o with
  | AddClient x | RemoveClient x | AddClientForTag x _ | RemoveClientForTag x _ => x = c
  | RemoveAllClients => False
  end.

Lemma spec_sops_other c l : Forall (op_of c) l -> forall R x o, x <> c -> ((x, o) ∈ spec_sops l R <-> (x, o) ∈ R).
Proof.
  induction 1 as [|op l Hop _ IH]; intros R x o Hx; cbn; [done|]. rewrite IH by done.
  destruct op; cbn in Hop; subst; cbn; set_solver.
Qed.

Section Receivers.

Context (reaction : Z -> sample -> list sop).
Context (Hown : forall c s, Forall (op_of c) (reaction c s)).

Lemma deliver_refines s tmp : forall st R, NoDup tmp -> refines st R ->
  exists R', refines (deliver reaction s tmp st) R' /\
    (forall x o, x ∉ tmp -> ((x, o) ∈ R' <-> (x, o) ∈ R)) /\
    (forall x o, x ∈ tmp -> ((x, o) ∈ R' <-> (x, o) ∈ spec_sops (reaction x s) R)).
Proof.
  induction tmp as [|c tmp IH]; intros st R Hn H; cbn.
  { exists R. split; [done|]. split; [done|]. by intros x o ?%elem_of_nil. }
  apply NoDup_cons in Hn as [Hc Hn].
  destruct (IH _ _ Hn (apply_sops_refines (reaction c s) st R H)) as (R' & H1 & H2 & H3).
  exists R'. split; [done|]. split.
  - intros x o [Hx Ht]%not_elem_of_cons. rewrite H2 by done. by apply spec_sops_other with c.
  - intros x o [->|Hx]%elem_of_cons; [by apply H2|]. assert (Hxc : x <> c) by (by intros ->).
    rewrite H3 by done. clear -Hown Hxc. generalize (Hown x s).
    generalize (reaction x s). intros l Hl. revert R. 
    induction l as [|op l IHl] using rev_ind; intros R; [cbn; by apply spec_sops_other with c|].
    apply Forall_app in Hl as [Hl Hop]. apply Forall_singleton in Hop. unfold spec_sops at 1 3. rewrite !fold_left_app. cbn.
    fold (spec_sops l R). fold (spec_sops l (spec_sops (reaction c s) R)).
    specialize (IHl Hl R). destruct op; cbn in Hop; subst; cbn; set_solver.
Qed.

End Receivers.

(** How often a client is called. *)
Definition calls (c : Z) (l : list Z) : nat := count_occ Z.eq_dec l c.

Lemma calls_nodup c l : NoDup l -> calls c l = if bool_decide (c ∈ l) then 1%nat else 0%nat.
Proof.
  intros Hl. unfold calls. case_bool_decide as H.
  - apply NoDup_ListNoDup in Hl. apply (NoDup_count_occ' Z.eq_dec); [done|]. by apply list_elem_of_In.
  - apply count_occ_not_In. by rewrite <- list_elem_of_In.
Qed.

Lemma keep_refines (b : bool) st stats R :
  refines st R ->
  refines (if b then mkSource (_sampleTags st) (_clients st) (_clientsBySampleId st) (_clientSet st) stats (_raw st) (_keepStats st)
           else st) R.
Proof. by destruct b. Qed.

(** ** Properties *)

(** C17: distribution refines the set of registrations.  After any sequence of
    registrations and removals, a sample is passed to a client once for its
    registration for the sample's id and once for its registration for all
    samples, and to nobody else, in the presence of clients that register
    or unregister themselves from within [receive]: the second call is
    decided by the registrations after the client's own reaction to the
    first.  Registrations of clients that are not called do not change. *)
Theorem distribution_refines reaction raw keep ops s :
  (forall c s, Forall (op_of c) (reaction c s)) ->
  let R := spec_sops ops ∅ in
  let '(log, st') := distribute reaction s (setKeepStats keep (apply_sops ops (newSource raw))) in
  (forall c, calls c log =
     ((if bool_decide ((c, Some (s_id s)) ∈ R) then 1 else 0) +
      (if bool_decide ((c, None) ∈ (if bool_decide ((c, Some (s_id s)) ∈ R) then spec_sops (reaction c s) R else R))
       then 1 else 0))%nat) /\
  exists R', refines st' R' /\ forall c o, c ∉ log -> ((c, o) ∈ R' <-> (c, o) ∈ R).
Proof.
  intros Hown R. assert (H0 : refines (setKeepStats keep (apply_sops ops (newSource raw))) R).
  { pose proof (apply_sops_refines ops _ _ (newSource_refines raw)) as H. exact H. }
  set (st := setKeepStats _ _) in *. unfold distribute. set (tmp := default [] _).
  pose proof H0 as [(N1 & W & N2) Hreg].
  assert (Hn1 : NoDup tmp) by apply N2. assert (Ht : forall c, c ∈ tmp <-> (c, Some (s_id s)) ∈ R) by (intros c; apply (Hreg c (Some _))).
  destruct (deliver_refines reaction Hown s tmp st R Hn1 H0) as (R1 & H1 & K1 & K2).
  set (st1 := deliver reaction s tmp st) in *. pose proof H1 as [(N3 & _) Hreg1].
  destruct (deliver_refines reaction Hown s (_clients st1) st1 R1 N3 H1) as (R2 & H2 & K3 & K4).
  split.
  - intros c. unfold calls. rewrite count_occ_app. fold (calls c tmp) (calls c (_clients st1)).
    rewrite !calls_nodup by done. f_equal.
    + by rewrite (bool_decide_ext _ _ (Ht c)).
    + rewrite (bool_decide_ext _ _ (Hreg1 c None)).
      destruct (bool_decide_reflect ((c, Some (s_id s)) ∈ R)) as [Hc|Hc].
      * by rewrite (bool_decide_ext _ _ (K2 c None (proj2 (Ht c) Hc))).
      * rewrite <- Ht in Hc. by rewrite (bool_decide_ext _ _ (K1 c None Hc)).
  - exists R2. split; [by apply keep_refines|]. intros c o [Hc1 Hc2]%not_elem_of_app. by rewrite K3, K1.
Qed.

(** ** The buffer *)

(** The use of a [SampleBuffer]: calls of [receive], and turns of its
    thread. *)
Inductive sb_step (reaction : Z -> sample -> list sop) : SampleBuffer -> SampleBuffer -> Prop :=
| sbs_receive b s : sb_step reaction b (sb_receive reaction s b)
| sbs_again b b' : sb_run reaction b = SbAgain b' -> sb_step reaction b b'
| sbs_exit b b' : sb_run reaction b = SbExit b' -> sb_step reaction b b'
| sbs_client b o : sb_step reaction b (with_source b (apply_sop o (sb_source b)) (sb_out b))
| sbs_interrupt b : sb_step reaction b (sb_interrupt b).

(** The sample buffer does not buffer.  Whatever is done with it, the
    vectors of a [SampleBuffer] stay empty and its heap size 0, its thread
    never finds a sample and never fails an assertion, and [receive] passes
    the sample on before it returns, after all samples received before. *)
Theorem buffer_synchronous reaction raw b s :
  rtc (sb_step reaction) (newSampleBuffer raw) b ->
  _inserterBuf b = [] /\ _consumerBuf b = [] /\ _heapSize b = 0 /\
  (sb_run reaction b = SbWait \/ exists b', sb_run reaction b = SbExit b') /\
  sb_out (sb_receive reaction s b) =
    sb_out b ++ map (fun c => (c, s)) (distribute reaction s (sb_source b)).1.
Proof.
  intros Hr. assert (H : _inserterBuf b = [] /\ _consumerBuf b = [] /\ _heapSize b = 0).
  { remember (newSampleBuffer raw) as b0 eqn:E0.
    assert (H0 : _inserterBuf b0 = [] /\ _consumerBuf b0 = [] /\ _heapSize b0 = 0) by (by rewrite E0). clear E0.
    induction Hr as [|x y z Hst _ IH]; [done|]. apply IH. clear IH. destruct H0 as (E1 & E2 & E3).
    destruct Hst as [b s0|b b' E|b b' E|b o|b]; cbn; try done.
    - unfold sb_run in E. rewrite E1, E2 in E. by destruct (sb_interrupted b).
    - unfold sb_run in E. rewrite E1, E2 in E. destruct (sb_interrupted b); [|done]. by injection E as <-. }
  destruct H as (E1 & E2 & E3). split; [done|]. split; [done|]. split; [done|]. split.
  - unfold sb_run. rewrite E1, E2. destruct (sb_interrupted b); [right; by eexists|by left].
  - unfold sb_receive. by destruct (distribute reaction s (sb_source b)).
Qed.

(** The number of clients is wrong after a registration for a tag is
    removed: the client is still called. *)
Lemma client_count_wrong :
  let t := mkTag 7 3 in
  let st := apply_sops [AddClient 5; AddClientForTag 5 t; RemoveClientForTag 5 t] (newSource true) in
  getClientCount st = 0 /\ (distribute (fun _ _ => []) (mkSample 0 3 1 []) st).1 = [5].
Proof. vm_compute. split; reflexivity. Qed.

(** Clients of single ids are not removed by [removeAllSampleClients]. *)
Lemma remove_all_leaves_tag_clients :
  let st := apply_sops [AddClientForTag 5 (mkTag 7 3); RemoveAllClients] (newSource true) in
  (distribute (fun _ _ => []) (mkSample 0 3 1 []) st).1 = [5].
Proof. vm_compute. reflexivity. Qed.

(** ** Witnesses *)

Lemma distribution_refines_witness :
  let reaction (c : Z) (_ : sample) := if c =? 5 then [RemoveClient 5] else [] in
  let ops := [AddClient 5; AddClientForTag 5 (mkTag 7 3); AddClient 6] in
  exists log, (distribute reaction (mkSample 0 3 1 []) (setKeepStats true (apply_sops ops (newSource true)))).1 = log /\
    calls 5 log = 1%nat /\ calls 6 log = 1%nat.
Proof.
  intros reaction ops.
  pose proof (distribution_refines reaction true true ops (mkSample 0 3 1 [])) as H.
  destruct (distribute _ _ _) as [log st']. exists log. split; [reflexivity|].
  destruct H as [H _]; [|split; rewrite H; vm_compute; reflexivity].
  intros c s. unfold reaction. destruct (Z.eqb_spec c 5) as [->|]; repeat constructor.
Defined.

Lemma buffer_synchronous_witness :
  exists b, rtc (sb_step (fun _ _ => [])) (newSampleBuffer true) b /\ _inserterBuf b = [].
Proof.
  set (b := sb_receive (fun _ _ => []) (mkSample 0 3 1 []) (newSampleBuffer true)).
  assert (H : rtc (sb_step (fun _ _ => [])) (newSampleBuffer true) b) by (apply rtc_once; constructor).
  exists b. split; [exact H|]. exact (proj1 (buffer_synchronous _ true b (mkSample 0 3 1 []) H)).
Defined.
