(* ===== verification/SampleClock.v ===== *)
(** * Dating of driver samples.

    [src/src/nidas/core/SampleClock.cc]: device drivers tag samples with the
    time since midnight UTC; [SampleClock::addSampleDate] adds the date,
    correcting for the roll-over at midnight, and refuses tags that are not
    close to the system clock.  [timeFloor] and [timeCeiling] are from
    [src/src/nidas/util/UTime.h].  The reading of the system clock is the
    argument [now] of the operations. *)

From S2P Require Import Prelude.

(** C division truncates towards zero. *)
Definition timeFloor (t delta : Z) : Z := Z.quot t delta * delta.
Definition timeCeiling (t delta : Z) : Z := (Z.quot t delta + 1) * delta.

Inductive status_t := NO_CLOCK | OUT_OF_SPEC | OK.

Record SampleClock := mkSampleClock {
  _maxClockDiffSec : Z;
  _t0day : Z;
  _clockTime : Z
}.

Definition newSampleClock (now : Z) : SampleClock :=
  mkSampleClock 180 (timeFloor now USECS_PER_DAY) now.

Definition setMaxClockDiff (val : Z) (c : SampleClock) : SampleClock :=
  mkSampleClock val (_t0day c) (_clockTime c).

Definition setTime (now : Z) (c : SampleClock) : SampleClock :=
  mkSampleClock (_maxClockDiffSec c) (timeFloor now USECS_PER_DAY) now.

(** [int tdiff = (sampleTime - _clockTime) / USECS_PER_SEC] *)
Definition tdiffSec (sampleTime : Z) (c : SampleClock) : Z :=
  s32 (Z.quot (sampleTime - _clockTime c) USECS_PER_SEC).

(** The status, the new time tag (unchanged unless [OK]) and the clock. *)
Definition addSampleDate (now tt : Z) (c : SampleClock) : status_t * Z * SampleClock :=
  let sampleTime := _t0day c + tt in
  let c' := if _maxClockDiffSec c <? Z.abs (tdiffSec sampleTime c)
            then setTime now c else c in
  let tdiff := tdiffSec sampleTime c' in
  if _maxClockDiffSec c <? Z.abs tdiff then
    if Z.abs (tdiff + SECS_PER_DAY) <? _maxClockDiffSec c
    then (OK, sampleTime + USECS_PER_DAY, c')
    else if Z.abs (tdiff - SECS_PER_DAY) <? _maxClockDiffSec c
    then (OK, sampleTime - USECS_PER_DAY, c')
    else (OUT_OF_SPEC, tt, c')
  else (OK, sampleTime, c').

(** ** Lemmas *)

Ltac day_unfold := unfold USECS_PER_DAY, SECS_PER_DAY, USECS_PER_SEC in *.
Ltac day_lia := day_unfold; dlia.

Lemma timeFloor_nonneg t delta :
  0 <= t -> 0 < delta -> timeFloor t delta = t / delta * delta.
Proof. intros. unfold timeFloor. by rewrite Z.quot_div_nonneg by lia. Qed.

(** The midnight kept in a clock is the one before its time. *)
Definition clock_wf (c : SampleClock) : Prop :=
  0 <= _clockTime c /\ _t0day c = timeFloor (_clockTime c) USECS_PER_DAY /\
  0 < _maxClockDiffSec c <= 3600.

Lemma setTime_wf now c : 0 <= now -> clock_wf c -> clock_wf (setTime now c).
Proof. intros H (? & ? & ?). unfold clock_wf, setTime; cbn. done. Qed.

Lemma addSampleDate_wf now tt c :
  0 <= now -> clock_wf c -> clock_wf (snd (addSampleDate now tt c)).
Proof.
  intros Hn Hc. unfold addSampleDate. repeat case_match; cbn; auto using setTime_wf.
Qed.

(** Bounds of a time from the whole seconds between it and another time. *)
Lemma quot_sec_bound d n :
  0 <= n -> Z.abs (Z.quot d USECS_PER_SEC) <= n <-> Z.abs d < (n + 1) * USECS_PER_SEC.
Proof. unfold USECS_PER_SEC. intros. split; intros; dlia. Qed.

(** No narrowing loss for clocks and tags within 35 years of each other. *)
Lemma tdiffSec_exact t c :
  Z.abs (t - _clockTime c) < 2 ^ 50 + 2 ^ 41 ->
  tdiffSec t c = Z.quot (t - _clockTime c) USECS_PER_SEC.
Proof. intros. unfold tdiffSec. apply s32_small. unfold USECS_PER_SEC. dlia. Qed.

Lemma clock_wf_t0day c :
  clock_wf c -> exists k, _t0day c = k * USECS_PER_DAY /\
    _t0day c <= _clockTime c < _t0day c + USECS_PER_DAY.
Proof.
  intros (H0 & -> & _). rewrite timeFloor_nonneg by (unfold USECS_PER_DAY, SECS_PER_DAY, USECS_PER_SEC; lia).
  eexists. split; [done|]. unfold USECS_PER_DAY, SECS_PER_DAY, USECS_PER_SEC. dlia.
Qed.

(** The clock used for the second comparison. *)
Definition dateClock (now tt : Z) (c : SampleClock) : SampleClock :=
  if _maxClockDiffSec c <? Z.abs (tdiffSec (_t0day c + tt) c) then setTime now c else c.

Lemma dateClock_max now tt c : _maxClockDiffSec (dateClock now tt c) = _maxClockDiffSec c.
Proof. unfold dateClock. by case_match. Qed.

Lemma dateClock_exact now tt c :
  clock_wf c -> Z.abs (now - _clockTime c) < 2 ^ 50 -> 0 <= tt < 2 ^ 40 ->
  tdiffSec (_t0day c + tt) (dateClock now tt c) =
    Z.quot (_t0day c + tt - _clockTime (dateClock now tt c)) USECS_PER_SEC.
Proof.
  intros Hc Hn Htt. destruct (clock_wf_t0day c Hc) as (k & _ & Hk).
  apply tdiffSec_exact. unfold dateClock.
  case_match; cbn; unfold USECS_PER_DAY, SECS_PER_DAY, USECS_PER_SEC in *; lia.
Qed.

(** ** Properties *)

(** A sample that is accepted has a time tag congruent to the driver's
    tag modulo one day, and within the allowed difference of the clock
    (rounded up to whole seconds); a rejected one keeps its tag.  The state
    of the clock stays consistent. *)
Theorem addSampleDate_sound now tt c :
  0 <= now -> clock_wf c -> Z.abs (now - _clockTime c) < 2 ^ 50 -> 0 <= tt < 2 ^ 40 ->
  let '(st, tt', c') := addSampleDate now tt c in
  clock_wf c' /\
  match st with
  | OK => (tt' - tt) mod USECS_PER_DAY = 0 /\
          Z.abs (tt' - _clockTime c') < (_maxClockDiffSec c + 1) * USECS_PER_SEC
  | _ => tt' = tt
  end.
Proof.
  intros Hn Hc Hd Htt.
  pose proof (addSampleDate_wf now tt c Hn Hc) as Hwf'.
  pose proof (dateClock_exact now tt c Hc Hd Htt) as Hex.
  destruct (clock_wf_t0day c Hc) as (k & Hk & _). destruct Hc as (_ & _ & Hmax).
  revert Hwf'. unfold addSampleDate. fold (dateClock now tt c). rewrite Hex.
  set (c' := dateClock now tt c) in *.
  assert (Hmod : forall j, (k * USECS_PER_DAY + tt + j * USECS_PER_DAY - tt) mod USECS_PER_DAY = 0).
  { intros j. replace (_ - tt) with ((k + j) * USECS_PER_DAY) by lia. apply Z_mod_mult. }
  rewrite Hk. destruct (Z.ltb_spec (_maxClockDiffSec c) (Z.abs (Z.quot (k * USECS_PER_DAY + tt - _clockTime c') USECS_PER_SEC)));
    [case_match; [|case_match]|]; cbn; intros Hw; (split; [done|]); try done.
  - split; [rewrite <- (Hmod 1); f_equal; lia|].
    unfold USECS_PER_DAY, SECS_PER_DAY, USECS_PER_SEC in *. bdestr; dlia.
  - split; [rewrite <- (Hmod (-1)); f_equal; lia|].
    unfold USECS_PER_DAY, SECS_PER_DAY, USECS_PER_SEC in *. bdestr; dlia.
  - split; [rewrite <- (Hmod 0); f_equal; lia|]. apply quot_sec_bound; lia.
Qed.

(** C27: correct dating across midnight: a sample taken at time [T], which the
    system clock reads as [now] within the allowed difference, and tagged by
    the driver with the time since [T]'s midnight, gets back exactly the time
    [T], whatever side of midnight [T], [now] and the last clock setting are
    on, provided the clock was set less than 22 hours ago. *)
Theorem addSampleDate_complete now T c :
  clock_wf c -> _maxClockDiffSec c <= 1800 ->
  _clockTime c <= now < _clockTime c + 22 * 3600 * USECS_PER_SEC ->
  0 <= T -> Z.abs (T - now) < (_maxClockDiffSec c - 1) * USECS_PER_SEC ->
  fst (addSampleDate now (T mod USECS_PER_DAY) c) = (OK, T).
Proof.
  intros Hc Hmx Hn HT Hd.
  pose proof (Z.mod_pos_bound T USECS_PER_DAY ltac:(done)) as Hm.
  assert (HTd : T = T / USECS_PER_DAY * USECS_PER_DAY + T mod USECS_PER_DAY)
    by (rewrite Z.mul_comm; by apply Z.div_mod).
  destruct (clock_wf_t0day c Hc) as (k & Hk & Hk').
  assert (Hbig : 2 * _maxClockDiffSec c < 86400 /\ 0 < _maxClockDiffSec c)
    by (destruct Hc as (_ & _ & ?); lia).
  assert (Hex := dateClock_exact now (T mod USECS_PER_DAY) c Hc).
  revert Hm HTd Hex. generalize (T mod USECS_PER_DAY) as m, (T / USECS_PER_DAY) as D.
  intros m D Hm HTd Hex.
  assert (Hnow : dateClock now m c = setTime now c \/ dateClock now m c = c /\
    Z.abs (Z.quot (_t0day c + m - _clockTime c) USECS_PER_SEC) <= _maxClockDiffSec c).
  { unfold dateClock in *. rewrite tdiffSec_exact by day_lia. bdestr; auto. }
  unfold addSampleDate. fold (dateClock now m c). rewrite Hex by day_lia.
  assert (HD : D = k - 1 \/ D = k \/ D = k + 1) by day_lia.
  destruct Hnow as [-> | [-> Hq]]; cbn [_clockTime setTime].
  - destruct HD as [->|[->| ->]]; day_unfold; bdestr; cbn; repeat f_equal; dlia.
  - destruct HD as [->|[->| ->]]; day_unfold; bdestr; cbn; repeat f_equal; dlia.
Qed.

(** For times since 1970, [timeFloor] is the greatest multiple of
    [delta] not after [t] and [timeCeiling] the least one strictly after it. *)
Theorem timeFloor_timeCeiling_spec t delta :
  0 <= t -> 0 < delta ->
  (exists k, timeFloor t delta = k * delta) /\ timeFloor t delta <= t /\
  (exists k, timeCeiling t delta = k * delta) /\ t < timeCeiling t delta /\
  (forall k, k * delta <= t -> k * delta <= timeFloor t delta) /\
  (forall k, t < k * delta -> timeCeiling t delta <= k * delta).
Proof.
  intros Ht Hd. unfold timeFloor, timeCeiling. rewrite Z.quot_div_nonneg by lia.
  pose proof (Z.div_mod t delta ltac:(lia)). pose proof (Z.mod_pos_bound t delta Hd).
  split; [eauto|]. split; [nia|]. split; [eauto|]. split; [nia|]. split; intros k Hk.
  - assert (k <= t / delta) by (apply Z.div_le_lower_bound; lia). nia.
  - assert (t / delta < k) by (apply Z.div_lt_upper_bound; lia). nia.
Qed.

Lemma timeFloor_timeCeiling_spec_witness :
  timeFloor 1700000000500000 1000000 <= 1700000000500000 < timeCeiling 1700000000500000 1000000.
Proof.
  destruct (timeFloor_timeCeiling_spec 1700000000500000 1000000 ltac:(lia) ltac:(lia))
    as (_ & H1 & _ & H2 & _). split; [exact H1 | exact H2].
Defined.

(** Before 1970 truncation rounds towards zero: the floor is after its
    argument and the ceiling is not the next multiple. *)
Example timeFloor_negative : timeFloor (-1) 10 = 0 /\ timeCeiling (-1) 10 = 10.
Proof. done. Qed.

Lemma addSampleDate_sound_witness :
  let c := newSampleClock 1700000000000000 in
  let '(st, tt', _) := addSampleDate 1700000000500000 80000000000 c in
  match st with OK => (tt' - 80000000000) mod USECS_PER_DAY = 0 | _ => True end.
Proof.
  pose proof (addSampleDate_sound 1700000000500000 80000000000
    (newSampleClock 1700000000000000) ltac:(lia)
    ltac:(vm_compute; intuition congruence) ltac:(vm_compute; congruence) ltac:(lia)) as H.
  cbv zeta. destruct (addSampleDate _ _ _) as [[st tt'] c']. destruct H as [_ H].
  destruct st; try exact I. exact (proj1 H).
Defined.

(** One second past midnight by the clock, two seconds before it by the sample. *)
Lemma addSampleDate_complete_witness :
  fst (addSampleDate 1700006401000000 86398000000 (newSampleClock 1700006300000000))
    = (OK, 1700006398000000).
Proof.
  apply (addSampleDate_complete 1700006401000000 1700006398000000).
  - vm_compute; intuition congruence.
  - vm_compute; congruence.
  - vm_compute; split; congruence.
  - lia.
  - vm_compute; reflexivity.
Defined.
