(* ===== verification/SampleScanner.v ===== *)
(** * Reading a sensor and scanning driver samples and datagrams.

    [src/src/nidas/core/SampleScanner.h] and [SampleScanner.cc]: the buffer
    and statistics of the base class [SampleScanner], and the scanners whose
    framing comes from the device: [DriverSampleScanner] (samples formatted by
    a kernel driver, a header of time tag and length before the data) and
    [DatagramSampleScanner] (one sample per packet).  What the device returns
    on a read is an argument of the operations. *)

From S2P Require Import Prelude SampleId SampleSets SampleClock.

(** ** class SampleScanner: statistics *)

Record ScanStats := mkScanStats {
  _minSampleLength : Z * Z;    (** the two-element arrays *)
  _maxSampleLength : Z * Z;
  _currentIndex : bool;        (** [false] is index 0 *)
  _reportIndex : bool;
  _nsamples : Z;
  _nbytes : Z;
  _badTimeTags : Z
}.

Definition getAt (a : Z * Z) (i : bool) : Z := if i then snd a else fst a.
Definition setAt (a : Z * Z) (i : bool) (v : Z) : Z * Z :=
  if i then (fst a, v) else (v, snd a).

Definition resetStatistics : ScanStats :=
  mkScanStats (UINT_MAX, UINT_MAX) (0, 0) false false 0 0 0.

(** The counters at the end of a period; the observed rates are the quotients
    of the counts returned here by the period. *)
Definition calcStatistics (st : ScanStats) : ScanStats * (Z * Z) :=
  let cur := negb (_currentIndex st) in
  (mkScanStats (setAt (_minSampleLength st) cur UINT_MAX)
               (setAt (_maxSampleLength st) cur 0)
               cur (_currentIndex st) 0 0 (_badTimeTags st),
   (_nsamples st, _nbytes st)).

Definition getMaxSampleLength (st : ScanStats) : Z :=
  getAt (_maxSampleLength st) (_reportIndex st).

Definition getMinSampleLength (st : ScanStats) : Z :=
  if getAt (_maxSampleLength st) (_reportIndex st) =? 0 then 0
  else getAt (_minSampleLength st) (_reportIndex st).

Definition addNumBytesToStats (val : Z) (st : ScanStats) : ScanStats :=
  mkScanStats (_minSampleLength st) (_maxSampleLength st) (_currentIndex st)
    (_reportIndex st) (_nsamples st) (u64 (_nbytes st + val)) (_badTimeTags st).

Definition addSampleToStats (val : Z) (st : ScanStats) : ScanStats :=
  let i := _currentIndex st in
  mkScanStats (setAt (_minSampleLength st) i (Z.min (getAt (_minSampleLength st) i) val))
    (setAt (_maxSampleLength st) i (Z.max (getAt (_maxSampleLength st) i) val))
    i (_reportIndex st) (u64 (_nsamples st + 1)) (_nbytes st) (_badTimeTags st).

Definition incrementBadTimeTags (st : ScanStats) : ScanStats :=
  mkScanStats (_minSampleLength st) (_maxSampleLength st) (_currentIndex st)
    (_reportIndex st) (_nsamples st) (_nbytes st) (u32 (_badTimeTags st + 1)).

(** ** class SampleScanner: the buffer

    [_buffer] holds the first [_bufhead] bytes of the array; the bytes after
    them are never read. *)

Record ScanBuf := mkScanBuf {
  BUFSIZE : Z;
  _buffer : list Z;
  _buftail : Z;
  _stats : ScanStats
}.

Definition _bufhead (b : ScanBuf) : Z := zlen (_buffer b).

Definition newScanBuf (bufsize : Z) : ScanBuf := mkScanBuf bufsize [] 0 resetStatistics.

(** The bytes between [_buftail] and [_bufhead]. *)
Definition unread (b : ScanBuf) : list Z := drop (Z.to_nat (_buftail b)) (_buffer b).

Definition getBytesInBuffer (b : ScanBuf) : Z := _bufhead b - _buftail b.

Definition clearBuffer (b : ScanBuf) : ScanBuf :=
  mkScanBuf (BUFSIZE b) [] 0 (_stats b).

Definition with_tail (b : ScanBuf) (t : Z) : ScanBuf :=
  mkScanBuf (BUFSIZE b) (_buffer b) t (_stats b).

Definition with_stats (b : ScanBuf) (st : ScanStats) : ScanBuf :=
  mkScanBuf (BUFSIZE b) (_buffer b) (_buftail b) st.

(** [readBuffer(sensor,exhausted)]: shift the unread bytes down, read what
    fits; [read len] is what [sensor->read(ptr,len)] stores.  The bytes read
    and [exhausted]. *)
Definition readBuffer (read : Z -> list Z) (b : ScanBuf) : ScanBuf * Z * bool :=
  let rest := unread b in
  let len := BUFSIZE b - zlen rest in
  if len =? 0 then (mkScanBuf (BUFSIZE b) rest 0 (_stats b), 0, false)
  else
    let bytes := read len in
    let rlen := zlen bytes in
    (mkScanBuf (BUFSIZE b) (rest ++ bytes) 0 (addNumBytesToStats rlen (_stats b)),
     rlen, rlen <? len).

(** [read(ptr,len)] of a device stores at most [len] bytes. *)
Definition read_ok (read : Z -> list Z) : Prop := forall len, 0 <= len -> zlen (read len) <= len.

Definition buf_wf (b : ScanBuf) : Prop :=
  0 <= _buftail b <= _bufhead b /\ _bufhead b <= BUFSIZE b.

Lemma unread_shifted n l st : unread (mkScanBuf n l 0 st) = l.
Proof. done. Qed.

Lemma unread_len b : buf_wf b -> zlen (unread b) = getBytesInBuffer b.
Proof.
  intros [H _]. unfold unread, getBytesInBuffer, _bufhead, zlen in *. rewrite length_drop. lia.
Qed.

Lemma readBuffer_spec read b :
  read_ok read -> buf_wf b ->
  let '(b', rlen, ex) := readBuffer read b in
  buf_wf b' /\ BUFSIZE b' = BUFSIZE b /\ 0 <= rlen <= BUFSIZE b - getBytesInBuffer b /\
  (exists bytes, unread b' = unread b ++ bytes /\ zlen bytes = rlen) /\
  (ex = true <-> rlen < BUFSIZE b - getBytesInBuffer b).
Proof.
  intros Hr Hb. pose proof (unread_len b Hb) as Hu. unfold readBuffer.
  pose proof (zlen_nonneg (unread b)). destruct Hb as [Ht Hs].
  assert (Hle : zlen (unread b) <= BUFSIZE b) by (unfold getBytesInBuffer in *; lia).
  rewrite <- Hu. destruct (Z.eqb_spec (BUFSIZE b - zlen (unread b)) 0).
  - rewrite unread_shifted. unfold buf_wf, _bufhead. cbn [_buffer _buftail BUFSIZE].
    split; [lia|]. split; [done|]. split; [lia|].
    split; [exists []; by rewrite app_nil_r|]. split; [done|lia].
  - set (bytes := read _). assert (zlen bytes <= BUFSIZE b - zlen (unread b)) by (apply Hr; lia).
    pose proof (zlen_nonneg bytes).
    rewrite unread_shifted. unfold buf_wf, _bufhead. cbn [_buffer _buftail BUFSIZE].
    rewrite zlen_app. split; [lia|]. split; [done|]. split; [lia|].
    split; [by exists bytes|]. rewrite Z.ltb_lt. lia.
Qed.

(** ** class DriverSampleScanner

    [d_out] is what has been copied so far to [_outSampDataPtr], so that
    [_outSampRead] is its length; [d_osamp] is the sample being filled, with
    the time tag and length from its header, or [None] while the header itself
    is being read. *)

Definition SIZEOF_DSM_SAMPLE_HEADER : Z := 8.

Record DriverScanner := mkDriverScanner {
  d_buf : ScanBuf;
  d_osamp : option (Z * Z);
  d_out : list Z;
  d_toRead : Z            (** [_outSampToRead] *)
}.

Definition newDriverScanner (bufsize : Z) : DriverScanner :=
  mkDriverScanner (newScanBuf bufsize) None [] SIZEOF_DSM_SAMPLE_HEADER.

(** [int timetag] and [uint32_t length] of [struct dsm_sample], little endian. *)
Definition header_timetag (hdr : list Z) : Z := s32 (little_endian_to_Z 8 (take 4 hdr)).
Definition header_length (hdr : list Z) : Z := u32 (little_endian_to_Z 8 (take 4 (drop 4 hdr))).

(** [memcpy] of the available part of what is wanted. *)
Definition copyOut (d : DriverScanner) : DriverScanner :=
  let len := Z.min (d_toRead d) (getBytesInBuffer (d_buf d)) in
  mkDriverScanner (with_tail (d_buf d) (_buftail (d_buf d) + len)) (d_osamp d)
    (d_out d ++ take (Z.to_nat len) (unread (d_buf d))) (d_toRead d - len).

(** What a call does with the input: nothing complete yet, a complete sample
    whose time tag was refused, or a sample for the caller. *)
Inductive driver_event :=
| Incomplete | Refused (tag : Z) (data : list Z) | Complete (tag : Z) (s : sample).

(** The second half of [nextSample]: read into the sample, and when it is
    complete, count it and add the date. *)
Definition driver_fill (id now : Z) (clock : SampleClock) (d0 : DriverScanner) (tag len : Z) :
    DriverScanner * driver_event * SampleClock :=
  let d := copyOut d0 in
  if d_toRead d =? 0 then
    let st1 := addSampleToStats len (_stats (d_buf d)) in
    let '(status, ttag, clock') := addSampleDate now tag clock in
    match status with
    | OK => (mkDriverScanner (with_stats (d_buf d) st1) None [] SIZEOF_DSM_SAMPLE_HEADER,
             Complete tag (mkSample ttag id 1 (d_out d)), clock')
    | _ => (mkDriverScanner (with_stats (d_buf d) (incrementBadTimeTags st1)) None []
              SIZEOF_DSM_SAMPLE_HEADER,
            Refused tag (d_out d), clock')
    end
  else (d, Incomplete, clock).

(** [nextSample(sensor)], with [sensor->getDriverTimeTagUsecs()],
    [sensor->getId()], the sample clock and the system time. *)
Definition driver_nextEvent (usecs id now : Z) (clock : SampleClock) (d : DriverScanner) :
    DriverScanner * driver_event * SampleClock :=
  match d_osamp d with
  | None =>
      let d := copyOut d in
      if negb (d_toRead d =? 0) then (d, Incomplete, clock)
      else
        let len := header_length (d_out d) in
        let tag := header_timetag (d_out d) * usecs in
        driver_fill id now clock (mkDriverScanner (d_buf d) (Some (tag, len)) [] len) tag len
  | Some (tag, len) => driver_fill id now clock d tag len
  end.

Definition driver_nextSample (usecs id now : Z) (clock : SampleClock) (d : DriverScanner) :
    DriverScanner * option sample * SampleClock :=
  let '(d', ev, clock') := driver_nextEvent usecs id now clock d in
  (d', match ev with Complete _ s => Some s | _ => None end, clock').

(** ** class DatagramSampleScanner *)

Record DatagramScanner := mkDatagramScanner {
  g_buf : ScanBuf;
  _packetLengths : list Z;
  _packetTimes : list Z;
  _nullTerminate : bool
}.

(** [readBuffer]: the loop over the packets the socket delivers, each with the
    system time before its read, the bytes [read] stored (an [EOFException] is
    a packet of length zero) and the [getBytesAvailable()] after it.  The
    loop leaves at the first packet after which nothing (or too much) is
    available, so the list ends with such a packet. *)
Fixpoint datagram_loop (packets : list (Z * list Z * Z)) (g : DatagramScanner) :
    DatagramScanner * bool :=
  match packets with
  | [] => (g, true)
  | (tpacket, bytes, avail) :: more =>
      let bytes := take (Z.to_nat (BUFSIZE (g_buf g) - _bufhead (g_buf g))) bytes in
      let b := mkScanBuf (BUFSIZE (g_buf g)) (_buffer (g_buf g) ++ bytes) (_buftail (g_buf g))
                 (addNumBytesToStats (zlen bytes) (_stats (g_buf g))) in
      let g := mkDatagramScanner b (_packetLengths g ++ [zlen bytes])
                 (_packetTimes g ++ [tpacket]) (_nullTerminate g) in
      if avail =? 0 then (g, true)
      else if BUFSIZE b <? avail + _bufhead b then (g, false)
      else datagram_loop more g
  end.

Definition datagram_readBuffer (avail0 : Z) (packets : list (Z * list Z * Z))
    (g : DatagramScanner) : DatagramScanner * Z * bool :=
  let g0 := mkDatagramScanner (clearBuffer (g_buf g)) [] [] (_nullTerminate g) in
  let '(g', exhstd) := datagram_loop packets g0 in
  let exhstd := if BUFSIZE (g_buf g) <? avail0 then false else exhstd in
  (g', _bufhead (g_buf g'), exhstd).

Definition datagram_nextSample (id : Z) (g : DatagramScanner) :
    DatagramScanner * option sample :=
  match _packetLengths g, _packetTimes g with
  | plen :: lens, ttag :: times =>
      let data := take (Z.to_nat plen) (unread (g_buf g)) ++
                  (if _nullTerminate g then [0] else []) in
      let b := with_stats (with_tail (g_buf g) (_buftail (g_buf g) + plen))
                 (addSampleToStats (zlen data) (_stats (g_buf g))) in
      (mkDatagramScanner b lens times (_nullTerminate g), Some (mkSample ttag id 1 data))
  | _, _ => (g, None)
  end.

(** ** Framing of driver samples *)

(** The bytes consumed since the end of the last complete sample. *)
Definition driver_partial (usecs : Z) (d : DriverScanner) (bs : list Z) : Prop :=
  0 < d_toRead d /\
  match d_osamp d with
  | None => bs = d_out d /\ d_toRead d = 8 - zlen bs
  | Some (tag, len) =>
      exists hdr, bs = hdr ++ d_out d /\ zlen hdr = 8 /\
        tag = header_timetag hdr * usecs /\ len = header_length hdr /\
        d_toRead d = len - zlen (d_out d)
  end.

(** A byte string that is one driver sample: header and as much data as it
    announces. *)
Definition driver_frame (bs : list Z) (rawtag : Z) (data : list Z) : Prop :=
  exists hdr, bs = hdr ++ data /\ zlen hdr = 8 /\
    rawtag = header_timetag hdr /\ zlen data = header_length hdr.

Definition encode_driver (rawtag : Z) (data : list Z) : list Z :=
  Z_to_little_endian 4 8 (u32 rawtag) ++ Z_to_little_endian 4 8 (zlen data) ++ data.

Lemma take_split_unread b n :
  buf_wf b -> 0 <= n <= getBytesInBuffer b ->
  unread b = take (Z.to_nat n) (unread b) ++ unread (with_tail b (_buftail b + n)) /\
  zlen (take (Z.to_nat n) (unread b)) = n /\ buf_wf (with_tail b (_buftail b + n)).
Proof.
  intros Hb Hn. pose proof (unread_len b Hb) as Hl. split_and!.
  - rewrite <- (take_drop (Z.to_nat n) (unread b)) at 1. f_equal.
    unfold unread, with_tail; cbn. rewrite drop_drop. f_equal. destruct Hb. lia.
  - unfold zlen in *. rewrite length_take. lia.
  - unfold buf_wf, getBytesInBuffer, _bufhead, with_tail in *; cbn. lia.
Qed.

Lemma unread_nil b : buf_wf b -> getBytesInBuffer b = 0 -> unread b = [].
Proof.
  intros Hb H. pose proof (unread_len b Hb) as Hl. unfold zlen in Hl.
  apply nil_length_inv. lia.
Qed.

Lemma copyOut_spec d :
  buf_wf (d_buf d) -> 0 <= d_toRead d ->
  let d' := copyOut d in
  exists c, unread (d_buf d) = c ++ unread (d_buf d') /\ d_out d' = d_out d ++ c /\
    d_toRead d' = d_toRead d - zlen c /\ 0 <= d_toRead d' /\ buf_wf (d_buf d') /\
    d_osamp d' = d_osamp d /\ (d_toRead d' <> 0 -> unread (d_buf d') = []).
Proof.
  intros Hb Ht. pose proof (unread_len _ Hb) as Hl.
  pose proof (zlen_nonneg (unread (d_buf d))).
  destruct (take_split_unread (d_buf d) (Z.min (d_toRead d) (getBytesInBuffer (d_buf d))) Hb)
    as (E1 & E2 & E3); [lia|].
  eexists. cbn. split; [exact E1|]. rewrite E2. split_and!; try done; [lia|].
  intros Hne. apply unread_nil; [done|].
  unfold getBytesInBuffer, _bufhead, with_tail in *. cbn. lia.
Qed.

(** What one call does to the bytes: it consumes a prefix of the unread bytes
    and either needs more, having used them all, or completes one frame. *)
Definition frame_step (usecs : Z) (d d' : DriverScanner) (bs : list Z) (ev : driver_event) : Prop :=
  buf_wf (d_buf d') /\ exists c, unread (d_buf d) = c ++ unread (d_buf d') /\
  match ev with
  | Incomplete => driver_partial usecs d' (bs ++ c) /\ unread (d_buf d') = []
  | Refused tag data => exists raw, driver_frame (bs ++ c) raw data /\
      tag = raw * usecs /\ driver_partial usecs d' []
  | Complete tag s => exists raw, driver_frame (bs ++ c) raw (s_data s) /\
      tag = raw * usecs /\ driver_partial usecs d' []
  end.

(** The second half of the call, once the header is known. *)
Lemma driver_fill_step usecs id now clock d tag len hdr bs :
  d_osamp d = Some (tag, len) -> bs = hdr ++ d_out d -> zlen hdr = 8 ->
  tag = header_timetag hdr * usecs -> len = header_length hdr ->
  d_toRead d = len - zlen (d_out d) -> 0 <= d_toRead d -> buf_wf (d_buf d) ->
  let '(d', ev, _) := driver_fill id now clock d tag len in frame_step usecs d d' bs ev.
Proof.
  intros Eo Ebs Hh Etag Elen Er H0 Hb. unfold driver_fill.
  destruct (copyOut_spec d Hb H0) as (c & E1 & E2 & E3 & E4 & E5 & E6 & E7).
  set (d1 := copyOut d) in *. destruct (Z.eqb_spec (d_toRead d1) 0) as [Hz|Hz].
  - assert (Hf : driver_frame (bs ++ c) (header_timetag hdr) (d_out d1)).
    { exists hdr. rewrite Ebs, E2, <- app_assoc. split_and!; try done.
      rewrite zlen_app. lia. }
    assert (Hp : forall b st, driver_partial usecs
        (mkDriverScanner (with_stats b st) None [] SIZEOF_DSM_SAMPLE_HEADER) []).
    { intros. split; [done|]. split; done. }
    destruct (addSampleDate now tag clock) as [[st ttag] clock'].
    destruct st; (split; [exact E5|]); exists c; (split; [exact E1|]);
      exists (header_timetag hdr); by split_and!.
  - split; [exact E5|]. exists c. split; [done|]. split; [|by apply E7].
    split; [lia|]. rewrite E6, Eo. exists hdr. rewrite Ebs, E2, <- app_assoc.
    split_and!; try done. rewrite zlen_app. lia.
Qed.

Lemma driver_nextEvent_step usecs id now clock d bs :
  buf_wf (d_buf d) -> driver_partial usecs d bs ->
  let '(d', ev, _) := driver_nextEvent usecs id now clock d in frame_step usecs d d' bs ev.
Proof.
  intros Hb [H0 Hp]. destruct (d_osamp d) as [[tag len]|] eqn:Eo.
  - destruct Hp as (hdr & Ebs & Hh & Et & El & Er).
    unfold driver_nextEvent. rewrite Eo. eapply driver_fill_step; eauto. lia.
  - destruct Hp as [-> Er].
    destruct (copyOut_spec d Hb ltac:(lia)) as (c & E1 & E2 & E3 & E4 & E5 & E6 & E7).
    unfold driver_nextEvent. rewrite Eo. set (d1 := copyOut d) in *.
    destruct (Z.eqb_spec (d_toRead d1) 0) as [Hz|Hz]; cbn [negb].
    + pose proof (u32_range (little_endian_to_Z 8 (take 4 (drop 4 (d_out d1))))) as Hl.
      set (tag := header_timetag (d_out d1) * usecs). set (len := header_length (d_out d1)).
      set (d2 := mkDriverScanner (d_buf d1) (Some (tag, len)) [] len).
      assert (Hs : let '(d', ev, _) := driver_fill id now clock d2 tag len in
                   frame_step usecs d2 d' (d_out d1) ev).
      { apply (driver_fill_step usecs id now clock d2 tag len (d_out d1)); try done.
        - by rewrite app_nil_r.
        - rewrite E2, zlen_app. lia.
        - change (d_out d2) with (@nil Z). rewrite zlen_nil. cbn. lia.
        - apply Hl. }
      destruct (driver_fill id now clock d2 tag len) as [[d' ev] clock'].
      destruct Hs as (Hb' & c2 & Ec2 & Hev). split; [done|]. exists (c ++ c2).
      split; [rewrite E1; change (d_buf d2) with (d_buf d1) in Ec2; rewrite Ec2; by rewrite <- app_assoc|].
      rewrite E2 in Hev. by rewrite app_assoc.
    + split; [done|]. exists c. split; [done|]. split; [|by apply E7].
      split; [lia|]. rewrite E6, Eo. split; [done|]. rewrite zlen_app. lia.
Qed.

(** ** Runs of a driver scanner

    A run alternates, in any order, reads of the device and calls of
    [nextSample]; it records the bytes received and the samples completed
    (the tag from the driver in microseconds, and the data). *)
Inductive driver_run (usecs id : Z) :
    DriverScanner -> list Z -> list (Z * list Z) -> Prop :=
| run_new bufsize : 0 < bufsize -> driver_run usecs id (newDriverScanner bufsize) [] []
| run_read d received frames read :
    driver_run usecs id d received frames -> read_ok read ->
    driver_run usecs id
      (mkDriverScanner (fst (fst (readBuffer read (d_buf d)))) (d_osamp d) (d_out d) (d_toRead d))
      (received ++ drop (length (unread (d_buf d))) (unread (fst (fst (readBuffer read (d_buf d))))))
      frames
| run_wait d received frames now clock d' clock' :
    driver_run usecs id d received frames ->
    driver_nextEvent usecs id now clock d = (d', Incomplete, clock') ->
    driver_run usecs id d' received frames
| run_refused d received frames now clock d' tag data clock' :
    driver_run usecs id d received frames ->
    driver_nextEvent usecs id now clock d = (d', Refused tag data, clock') ->
    driver_run usecs id d' received (frames ++ [(tag, data)])
| run_sample d received frames now clock d' tag s clock' :
    driver_run usecs id d received frames ->
    driver_nextEvent usecs id now clock d = (d', Complete tag s, clock') ->
    driver_run usecs id d' received (frames ++ [(tag, s_data s)]).

(** The bytes of a completed sample. *)
Definition frames_as (usecs : Z) (bss : list (list Z)) (frames : list (Z * list Z)) : Prop :=
  Forall2 (fun bs f => exists raw, driver_frame bs raw (snd f) /\ fst f = raw * usecs) bss frames.

Lemma run_invariant usecs id d received frames :
  driver_run usecs id d received frames ->
  buf_wf (d_buf d) /\ exists bss bs, frames_as usecs bss frames /\
    driver_partial usecs d bs /\ received = concat bss ++ bs ++ unread (d_buf d).
Proof.
  induction 1 as [bufsize Hbs | d received frames read _ IH Hread
    | d received frames now clock d' clock' _ IH E
    | d received frames now clock d' tag data clock' _ IH E
    | d received frames now clock d' tag s clock' _ IH E].
  - split; [unfold buf_wf, _bufhead; cbn; change (zlen []) with 0; lia|].
    exists [], []. split; [constructor|]. split; [by split|done].
  - destruct IH as (Hb & bss & bs & Hf & Hp & ->).
    pose proof (readBuffer_spec read (d_buf d) Hread Hb) as Hs.
    destruct (readBuffer read (d_buf d)) as [[b' rlen] ex]. cbn [fst d_buf].
    destruct Hs as (Hb' & _ & _ & (bytes & Hu & _) & _). split; [done|].
    exists bss, bs. split; [done|]. split; [done|].
    rewrite Hu, drop_app_length. by rewrite <- !app_assoc.
  - destruct IH as (Hb & bss & bs & Hf & Hp & ->).
    pose proof (driver_nextEvent_step usecs id now clock d bs Hb Hp) as Hs. rewrite E in Hs.
    destruct Hs as (Hb' & c & Hc & Hp' & _). split; [done|]. exists bss, (bs ++ c).
    split; [done|]. split; [done|]. by rewrite Hc, <- app_assoc.
  - destruct IH as (Hb & bss & bs & Hf & Hp & ->).
    pose proof (driver_nextEvent_step usecs id now clock d bs Hb Hp) as Hs. rewrite E in Hs.
    destruct Hs as (Hb' & c & Hc & raw & Hfr & Ht & Hp'). split; [done|].
    exists (bss ++ [bs ++ c]), []. split; [|split; [done|]].
    + apply Forall2_app; [done|]. constructor; [by exists raw | constructor].
    + rewrite concat_app, Hc. cbn. by rewrite app_nil_r, <- !app_assoc.
  - destruct IH as (Hb & bss & bs & Hf & Hp & ->).
    pose proof (driver_nextEvent_step usecs id now clock d bs Hb Hp) as Hs. rewrite E in Hs.
    destruct Hs as (Hb' & c & Hc & raw & Hfr & Ht & Hp'). split; [done|].
    exists (bss ++ [bs ++ c]), []. split; [|split; [done|]].
    + apply Forall2_app; [done|]. constructor; [by exists raw | constructor].
    + rewrite concat_app, Hc. cbn. by rewrite app_nil_r, <- !app_assoc.
Qed.

(** A frame has at least the eight bytes of its header, and its header fixes
    its length, so that a byte string starts with at most one frame. *)
Lemma driver_frame_prefix bs1 bs2 r1 r2 x1 x2 k1 k2 :
  driver_frame bs1 r1 x1 -> driver_frame bs2 r2 x2 -> bs1 ++ k1 = bs2 ++ k2 ->
  bs1 = bs2 /\ r1 = r2 /\ x1 = x2 /\ k1 = k2.
Proof.
  intros (h1 & -> & Hl1 & -> & Hx1) (h2 & -> & Hl2 & -> & Hx2). rewrite <- !app_assoc.
  intros [-> E]%app_inj_1; [|unfold zlen in *; lia].
  apply app_inj_1 in E as [-> ->]; [done|unfold zlen in *; lia].
Qed.

Lemma encode_driver_frame rawtag data :
  - 2 ^ 31 <= rawtag < 2 ^ 31 -> zlen data < 2 ^ 32 ->
  driver_frame (encode_driver rawtag data) rawtag data.
Proof.
  intros Ht Hd. pose proof (zlen_nonneg data).
  exists (Z_to_little_endian 4 8 (u32 rawtag) ++ Z_to_little_endian 4 8 (zlen data)).
  assert (L : forall z, length (Z_to_little_endian 4 8 z) = 4%nat)
    by (intros; apply Nat2Z.inj; by rewrite length_Z_to_little_endian).
  assert (D : drop 4 (Z_to_little_endian 4 8 (u32 rawtag) ++ Z_to_little_endian 4 8 (zlen data))
     = Z_to_little_endian 4 8 (zlen data)) by (rewrite drop_app, L; by rewrite drop_ge by (rewrite L; lia)).
  split; [unfold encode_driver; by rewrite <- app_assoc|].
  split; [unfold zlen; rewrite length_app, !L; done|]. split.
  - unfold header_timetag. rewrite take_app_le, take_ge by (rewrite L; lia).
    rewrite little_endian_to_Z_to_little_endian by lia. unfold u32. mlia.
  - unfold header_length. rewrite D, take_ge by (rewrite L; lia).
    rewrite little_endian_to_Z_to_little_endian by lia.
    change (2 ^ (4 * 8)) with (2 ^ 32). mlia.
Qed.

Lemma frames_unique usecs : forall l1 l2 r1 r2,
  Forall (fun f => - 2 ^ 31 <= fst f < 2 ^ 31 /\ zlen (snd f) < 2 ^ 32) l2 ->
  frames_as usecs l1 r1 -> (length r1 <= length l2)%nat ->
  (exists k, concat l1 ++ k = concat (map (fun f => encode_driver (fst f) (snd f)) l2) ++ r2) ->
  r1 = map (fun f => (fst f * usecs, snd f)) (take (length r1) l2).
Proof.
  induction l1 as [|bs l1 IH]; intros l2 r1 r2 Hall Hf Hlen [k E].
  - apply Forall2_nil_inv_l in Hf as ->. done.
  - apply Forall2_cons_inv_l in Hf as ([tag data] & r1' & (raw & Hfr & Ht) & Hf & ->).
    destruct l2 as [|[raw2 data2] l2]; [cbn in Hlen; lia|].
    apply Forall_cons in Hall as [[H1 H2] Hall]. cbn in E, Hlen, H1, H2. rewrite <- !app_assoc in E.
    destruct (driver_frame_prefix _ _ _ _ _ _ _ _ Hfr (encode_driver_frame raw2 data2 H1 H2) E)
      as (_ & -> & Hd & E'). cbn in Hd, Ht. subst. cbn. f_equal.
    eapply (IH l2 r1' r2); eauto with lia.
Qed.

(** ** Properties *)

(** C26: framing of driver samples does not depend on how the device's reads
    cut the byte stream.  In every run, whatever the sequence of reads (of
    any sizes, the buffer shifting between them) and calls of [nextSample],
    the bytes received are exactly the completed samples' bytes in order,
    then the bytes of the unfinished one, then the unread buffer: nothing is
    lost, repeated or reordered.  If the device sent encoded samples, the
    scanner produces exactly those tags and data, in their order. *)
Theorem driver_framing usecs id d received frames sent rest :
  driver_run usecs id d received frames ->
  Forall (fun f => - 2 ^ 31 <= fst f < 2 ^ 31 /\ zlen (snd f) < 2 ^ 32) sent ->
  (length frames <= length sent)%nat ->
  (exists more, received ++ more = concat (map (fun f => encode_driver (fst f) (snd f)) sent) ++ rest) ->
  buf_wf (d_buf d) /\
  (exists bss bs, frames_as usecs bss frames /\ driver_partial usecs d bs /\
     received = concat bss ++ bs ++ unread (d_buf d)) /\
  frames = map (fun f => (fst f * usecs, snd f)) (take (length frames) sent).
Proof.
  intros Hr Hs Hl (more & E). destruct (run_invariant _ _ _ _ _ Hr) as (Hb & bss & bs & Hf & Hp & Er).
  split; [done|]. split; [by exists bss, bs|].
  eapply (frames_unique usecs bss sent frames rest); eauto.
  exists (bs ++ unread (d_buf d) ++ more). rewrite <- E, Er. by rewrite <- !app_assoc.
Qed.

(** ** Packets *)

(** [getBytesAvailable] after a read is the size of the next packet, zero
    when there is none. *)
Fixpoint consistent (packets : list (Z * list Z * Z)) : Prop :=
  match packets with
  | [] => True
  | (_, _, avail) :: more =>
      match more with
      | [] => avail = 0
      | (_, next, _) :: _ => avail = zlen next
      end /\ consistent more
  end.

(** What the buffer can hold of a packet that arrives when it is empty. *)
Definition stored (bufsize : Z) (p : Z * list Z * Z) : list Z :=
  take (Z.to_nat bufsize) (snd (fst p)).

Definition packet_sample (bufsize id : Z) (null : bool) (p : Z * list Z * Z) : sample :=
  mkSample (fst (fst p)) id 1 (stored bufsize p ++ (if null then [0] else [])).

(** Call [nextSample] until it returns null, at most [n] times. *)
Fixpoint datagram_drain (n : nat) (id : Z) (g : DatagramScanner) : list sample * DatagramScanner :=
  match n with
  | O => ([], g)
  | S n =>
      match datagram_nextSample id g with
      | (g', None) => ([], g')
      | (g', Some s) => let '(l, g'') := datagram_drain n id g' in (s :: l, g'')
      end
  end.

Lemma datagram_loop_spec packets : forall g,
  packets <> [] -> consistent packets -> _bufhead (g_buf g) <= BUFSIZE (g_buf g) ->
  match packets with
  | (_, bytes, _) :: _ => _bufhead (g_buf g) = 0 \/ zlen bytes <= BUFSIZE (g_buf g) - _bufhead (g_buf g)
  | [] => True
  end ->
  let '(g', ex) := datagram_loop packets g in
  let n := BUFSIZE (g_buf g) in
  exists k, (1 <= k <= length packets)%nat /\
    _buffer (g_buf g') = _buffer (g_buf g) ++ concat (map (stored n) (take k packets)) /\
    _packetLengths g' = _packetLengths g ++ map (fun p => zlen (stored n p)) (take k packets) /\
    _packetTimes g' = _packetTimes g ++ map (fun p => fst (fst p)) (take k packets) /\
    _buftail (g_buf g') = _buftail (g_buf g) /\ BUFSIZE (g_buf g') = n /\
    _nullTerminate g' = _nullTerminate g /\ _bufhead (g_buf g') <= n /\
    (if ex then k = length packets \/ exists p, packets !! k = Some p /\ snd (fst p) = []
     else exists p, packets !! k = Some p /\ n < _bufhead (g_buf g') + zlen (snd (fst p))).
Proof.
  induction packets as [|[[t bytes] avail] more IH]; intros g Hne Hc Hh Hfit; [done|].
  destruct Hc as [Ha Hc]. cbn [datagram_loop].
  assert (Ht : take (Z.to_nat (BUFSIZE (g_buf g) - _bufhead (g_buf g))) bytes =
               stored (BUFSIZE (g_buf g)) (t, bytes, avail)).
  { unfold stored; cbn. destruct Hfit as [->|Hfit]; [by rewrite Z.sub_0_r|].
    pose proof (zlen_nonneg (_buffer (g_buf g))). unfold _bufhead, zlen in *.
    rewrite !take_ge by lia. done. }
  rewrite Ht. set (st := stored _ _).
  assert (Hst : _bufhead (g_buf g) + zlen st <= BUFSIZE (g_buf g)).
  { subst st. rewrite <- Ht. unfold zlen at 1. rewrite length_take. lia. }
  set (b1 := mkScanBuf _ _ _ _). set (g1 := mkDatagramScanner b1 _ _ _).
  assert (Hb1 : _bufhead b1 = _bufhead (g_buf g) + zlen st).
  { unfold _bufhead, b1; cbn. by rewrite zlen_app. }
  assert (Hone : forall P : Prop, P -> exists k, (1 <= k <= S (length more))%nat /\ k = 1%nat /\ P)
    by (intros; exists 1%nat; split; [lia|done]).
  destruct (Z.eqb_spec avail 0) as [H0|H0];
    [|destruct (Z.ltb_spec (BUFSIZE b1) (avail + _bufhead b1)) as [Hlt|Hge]].
  - exists 1%nat. cbn [take map concat length]. rewrite app_nil_r.
    split_and!; try done; try lia. { cbn [g_buf g1]. lia. }
    destruct more as [|[[t2 next] a2] more]; [by left|]. right. eexists. split; [done|].
    cbn. rewrite Ha in H0. by apply nil_length_inv, Nat2Z.inj.
  - exists 1%nat. cbn [take map concat length]. rewrite app_nil_r.
    split_and!; try done; try lia. { cbn [g_buf g1]. lia. }
    destruct more as [|[[t2 next] a2] more]; [done|]. eexists. split; [done|].
    cbn [fst snd g_buf g1]. change (BUFSIZE b1) with (BUFSIZE (g_buf g)) in Hlt. lia.
  - destruct more as [|[[t2 next] a2] more]; [done|].
    change (BUFSIZE b1) with (BUFSIZE (g_buf g)) in Hge.
    specialize (IH g1 ltac:(done) Hc).
    destruct (datagram_loop _ g1) as [g' ex].
    destruct IH as (k & Hk & E1 & E2 & E3 & E4 & E5 & E6 & E7 & E8);
      [cbn [g_buf g1]; change (BUFSIZE b1) with (BUFSIZE (g_buf g)); lia
      |right; cbn [g_buf g1]; change (BUFSIZE b1) with (BUFSIZE (g_buf g)); lia|].
    exists (S k). split; [cbn [length] in *; lia|].
    cbn [take map concat]. rewrite E1, E2, E3. cbn [g_buf g1 _buffer b1 _packetLengths _packetTimes].
    rewrite <- !app_assoc. split_and!; try done.
    destruct ex; [|exact E8]. destruct E8 as [->|E8]; [by left|by right].
Qed.

(** The scanner holds exactly the packets [ps]. *)
Definition holds_packets (n : Z) (null : bool) (g : DatagramScanner) (ps : list (Z * list Z * Z)) : Prop :=
  0 <= _buftail (g_buf g) /\ BUFSIZE (g_buf g) = n /\ _nullTerminate g = null /\
  unread (g_buf g) = concat (map (stored n) ps) /\
  _packetLengths g = map (fun p => zlen (stored n p)) ps /\
  _packetTimes g = map (fun p => fst (fst p)) ps.

Lemma datagram_drain_spec n id null ps : forall g,
  holds_packets n null g ps ->
  let '(l, g') := datagram_drain (S (length ps)) id g in
  l = map (packet_sample n id null) ps /\ holds_packets n null g' [].
Proof.
  induction ps as [|p ps IH]; intros g H.
  - pose proof H as H'. destruct H as (_ & _ & _ & _ & El & Et). cbn. unfold datagram_nextSample.
    rewrite El. done.
  - destruct H as (Htl & En & Enull & Eu & El & Et). cbn [datagram_drain length].
    unfold datagram_nextSample at 1. rewrite El, Et. cbn [map]. cbv beta iota.
    rewrite Eu. cbn [map concat]. rewrite take_zlen_app.
    set (g1 := mkDatagramScanner _ _ _ _).
    assert (H1 : holds_packets n null g1 ps).
    { split; [cbn; unfold zlen; lia|]. split_and!; try done.
      cbn [g1 g_buf]. unfold unread in *. cbn. unfold zlen.
      rewrite Z2Nat.inj_add, Nat2Z.id by lia. rewrite <- drop_drop, Eu. cbn.
      by rewrite drop_app_length. }
    specialize (IH g1 H1). revert IH. cbn [datagram_drain].
    destruct (datagram_nextSample id g1) as [g2 [s|]].
    + destruct (datagram_drain (length ps) id g2) as [l g3]. intros [-> ?]. split; [|done].
      unfold packet_sample at 2. by rewrite Enull.
    + intros [<- ?]. split; [|done]. unfold packet_sample. by rewrite Enull.
Qed.

(** The datagram scanner turns each packet into one sample: after a
    [readBuffer], the calls of [nextSample] return, in order of arrival, the
    packets read, each with the system time of its read and all its bytes
    (only a packet longer than the whole buffer is cut), null-terminated when
    asked, and then null; a packet that does not fit behind the others is
    left for the next read and reported by [exhausted]. *)
Theorem datagram_packets t bytes avail more id g :
  let packets := (t, bytes, avail) :: more in
  consistent packets -> 0 <= BUFSIZE (g_buf g) ->
  let '(g', total, exhausted) := datagram_readBuffer (zlen bytes) packets g in
  exists k, (1 <= k <= length packets)%nat /\
    let '(samples, g'') := datagram_drain (S k) id g' in
    samples = map (packet_sample (BUFSIZE (g_buf g)) id (_nullTerminate g)) (take k packets) /\
    total = zlen (concat (map (stored (BUFSIZE (g_buf g))) (take k packets))) /\
    total <= BUFSIZE (g_buf g) /\ unread (g_buf g'') = [] /\
    (zlen bytes <= BUFSIZE (g_buf g) ->
     if exhausted then k = length packets \/ exists p, packets !! k = Some p /\ snd (fst p) = []
     else exists p, packets !! k = Some p /\ BUFSIZE (g_buf g) < total + zlen (snd (fst p))).
Proof.
  intros packets Hc Hn. unfold datagram_readBuffer. set (g0 := mkDatagramScanner _ _ _ _).
  pose proof (datagram_loop_spec packets g0 ltac:(done) Hc Hn (or_introl eq_refl)) as H.
  destruct (datagram_loop packets g0) as [g' ex].
  destruct H as (k & Hk & E1 & E2 & E3 & E4 & E5 & E6 & E7 & E8). exists k. split; [done|].
  assert (Hh : holds_packets (BUFSIZE (g_buf g)) (_nullTerminate g) g' (take k packets)).
  { unfold holds_packets, unread. rewrite E1, E2, E3, E4, E5, E6. done. }
  pose proof (datagram_drain_spec _ id _ _ g' Hh) as Hd. rewrite length_take, Nat.min_l in Hd by lia.
  destruct (datagram_drain (S k) id g') as [l g'']. destruct Hd as (-> & Hg).
  split; [done|]. split; [unfold _bufhead; by rewrite E1|]. split; [done|].
  split; [apply Hg|]. intros Hfit. destruct (Z.ltb_spec (BUFSIZE (g_buf g)) (zlen bytes)); [lia|done].
Qed.

(** The counters of a period while samples are added. *)
Definition period_is (s : ScanStats) (i : bool) (n mn mx bad : Z) : Prop :=
  _currentIndex s = i /\ _nsamples s = n /\ getAt (_minSampleLength s) i = mn /\
  getAt (_maxSampleLength s) i = mx /\ _badTimeTags s = bad.

Lemma addSampleToStats_period v s i n mn mx bad :
  period_is s i n mn mx bad -> 0 <= n < 2 ^ 64 - 1 ->
  period_is (addSampleToStats v s) i (n + 1) (Z.min mn v) (Z.max mx v) bad.
Proof.
  intros (Hi & Hn & Hmn & Hmx & Hb) H. unfold period_is; cbn. rewrite Hi.
  split_and!; try done; [rewrite Hn; mlia | subst mn; by destruct i | subst mx; by destruct i].
Qed.

Lemma fold_period lens : forall s i n mn mx bad,
  period_is s i n mn mx bad -> 0 <= n -> n + zlen lens < 2 ^ 64 ->
  period_is (foldl (fun s v => addSampleToStats v s) s lens) i (n + zlen lens)
    (foldl Z.min mn lens) (foldl Z.max mx lens) bad.
Proof.
  induction lens as [|v l IH]; intros s i n mn mx bad Hs Hn Hl.
  - by rewrite zlen_nil, Z.add_0_r.
  - rewrite zlen_cons in *. pose proof (zlen_nonneg l). cbn [foldl].
    replace (n + (1 + zlen l)) with (n + 1 + zlen l) by lia.
    apply IH; [apply addSampleToStats_period; [done|] | |]; lia.
Qed.

Lemma foldl_max_ge lens : forall m, m <= foldl Z.max m lens.
Proof. induction lens as [|v l IH]; intros m; cbn; [lia|]. specialize (IH (Z.max m v)). lia. Qed.

(** Statistics of a reporting period: after any sequence of samples, the
    report made by [calcStatistics] gives their number, and the smallest and
    largest length; an empty period reports zero lengths, and the next period
    starts from nothing. *)
Theorem statistics_period st lens :
  Forall (fun n => 0 < n <= UINT_MAX) lens -> zlen lens < 2 ^ 64 ->
  let st0 := fst (calcStatistics st) in
  let '(st', (nsamples, _)) := calcStatistics (foldl (fun s n => addSampleToStats n s) st0 lens) in
  nsamples = zlen lens /\
  getMaxSampleLength st' = foldl Z.max 0 lens /\
  (lens <> [] -> getMinSampleLength st' = foldl Z.min UINT_MAX lens) /\
  (lens = [] -> getMinSampleLength st' = 0) /\
  _badTimeTags st' = _badTimeTags st.
Proof.
  intros Hpos Hlen st0.
  assert (H0 : period_is st0 (negb (_currentIndex st)) 0 UINT_MAX 0 (_badTimeTags st))
    by (unfold period_is, st0; cbn; by destruct (_currentIndex st)).
  apply (fold_period lens) in H0; [|lia|lia]. cbv zeta.
  set (s' := foldl _ st0 lens) in *. destruct H0 as (Hi & Hn & Hmn & Hmx & Hb).
  assert (Hget : forall a v, getAt (setAt a (negb (_currentIndex s')) v) (_currentIndex s')
    = getAt a (_currentIndex s')) by (intros [? ?] ?; by destruct (_currentIndex s')).
  unfold calcStatistics, getMaxSampleLength, getMinSampleLength.
  cbn [_maxSampleLength _minSampleLength _reportIndex _badTimeTags].
  rewrite !Hget, Hi, Hmx, Hmn. split_and!; try done.
  - intros Hne. destruct lens as [|v l]; [done|]. apply Forall_cons in Hpos as [Hv _].
    pose proof (foldl_max_ge l (Z.max 0 v)). cbn [foldl] in *.
    destruct (Z.eqb_spec (foldl Z.max (Z.max 0 v) l) 0); [lia|done].
  - by intros ->.
Qed.

Lemma driver_framing_witness :
  let d0 := newDriverScanner 16 in
  let d1 := mkDriverScanner (fst (fst (readBuffer (fun _ => encode_driver 5 [7; 8] ++ [1]) (d_buf d0))))
              None [] 8 in
  match driver_nextEvent 1000 3 0 (newSampleClock 0) d1 with
  | (d2, Complete tag s, _) =>
      [(tag, s_data s)] = map (fun f => (fst f * 1000, snd f)) (take 1 [(5, [7; 8])])
  | _ => False
  end.
Proof.
  intros d0 d1. destruct (driver_nextEvent 1000 3 0 (newSampleClock 0) d1) as [[d2 ev] c2] eqn:E.
  assert (Hev : exists tag s, ev = Complete tag s).
  { vm_compute in E. injection E as _ <- _. eauto. }
  destruct Hev as (tag & s & ->).
  refine (proj2 (proj2 (driver_framing 1000 3 d2
    ([] ++ drop (length (unread (d_buf d0))) (unread (d_buf d1))) ([] ++ [(tag, s_data s)])
    [(5, [7; 8])] [1] _ _ _ _))).
  - eapply run_sample; [|exact E].
    apply (run_read 1000 3 d0 [] [] (fun len => take (Z.to_nat len) (encode_driver 5 [7; 8] ++ [1])));
      [by apply run_new|].
    intros len Hlen. unfold zlen. rewrite length_take. lia.
  - repeat constructor; cbn; lia.
  - cbn. lia.
  - exists []. vm_compute. reflexivity.
Defined.

Lemma datagram_packets_witness :
  let packets := [(10, [1; 2], 1); (20, [3], 0)] in
  let g' := fst (fst (datagram_readBuffer 2 packets (mkDatagramScanner (newScanBuf 16) [] [] true))) in
  exists k, (1 <= k <= 2)%nat /\
    fst (datagram_drain (S k) 9 g') = map (packet_sample 16 9 true) (take k packets).
Proof.
  pose proof (datagram_packets 10 [1; 2] 1 [(20, [3], 0)] 9
    (mkDatagramScanner (newScanBuf 16) [] [] true) ltac:(cbn; auto) ltac:(cbn; lia)) as H.
  cbv zeta in *. change (zlen [1; 2]) with 2 in H.
  destruct (datagram_readBuffer _ _ _) as [[g' total] ex]. destruct H as (k & Hk & H).
  exists k. split; [exact Hk|]. cbn [fst].
  destruct (datagram_drain (S k) 9 g') as [samples g'']. exact (proj1 H).
Defined.

Lemma statistics_period_witness :
  getMinSampleLength (fst (calcStatistics (foldl (fun s n => addSampleToStats n s)
    (fst (calcStatistics resetStatistics)) [5; 3; 9]))) = 3.
Proof.
  pose proof (statistics_period resetStatistics [5; 3; 9]
    ltac:(repeat constructor; unfold UINT_MAX; lia) ltac:(rewrite !zlen_cons, zlen_nil; lia)) as H.
  vm_compute in H. vm_compute. apply H. congruence.
Defined.
