(* ===== verification/MessageScanner.v ===== *)
(** * Splitting a character stream into messages.

    [MessageStreamScanner] of [src/src/nidas/core/SampleScanner.h] and
    [SampleScanner.cc]: the scanner of serial and TCP sensors, which cuts the
    bytes of the buffer of [SampleScanner.v] into samples at a separator
    string at the end ([nextSampleSepEOM]) or the beginning
    ([nextSampleSepBOM]) of a message, or by length alone
    ([nextSampleByLength]), and estimates the receipt time of each.

    Samples come from the shared pool of [SamplePool.v]; the scanner depends
    on it through the class [SampleSource]: the allocated length of the
    sample a request returns, which other users of the pool can influence
    from one request to the next.  Every write into a sample is checked
    against that length in the model: a write past the end is an [Overrun]. *)

From S2P Require Import Prelude StringUtil SampleId Sample SamplePool SampleSets SampleScanner.

(** ** The interface to the pool

    [allocOf k len] is the allocated length of the sample that the [k]-th
    request, [getSample<char>(len)], returns. *)
Class SampleSource := {
  allocOf : nat -> Z -> Z;
  allocOf_ge : forall k len, 0 <= len <= 2 ^ 31 -> len <= allocOf k len
}.

Definition MAX_MESSAGE_STREAM_SAMPLE_SIZE : Z := 8192.

(** A sample being filled: [_osamp] with its time tag, the first
    [_outSampRead] bytes behind [_outSampDataPtr], [_outSampLengthAlloc] and
    the data length that [getSample] gave it.  The handle is the number of the
    request that returned the sample. *)
Record OutSample := mkOutSample {
  o_handle : nat;
  o_tt : Z;
  o_len : Z;
  o_data : list Z;
  o_alloc : Z
}.

Definition _outSampRead (o : OutSample) : Z := zlen (o_data o).

Inductive sampleFunc := SepEOM | SepBOM | ByLength.

(** Set by [setMessageParameters], [setNullTerminate], [setUsecsPerByte]. *)
Record MsgParams := mkMsgParams {
  _separator : list Z;
  _messageLength : Z;
  _separatorAtEOM : bool;
  m_nullTerminate : bool;
  _nextSampleFunc : sampleFunc;
  _usecsPerByte : Z
}.

Definition _separatorLen (p : MsgParams) : Z := zlen (_separator p).

Record MsgTimes := mkMsgTimes {
  _tfirstchar : Z;
  _lastBufferTime : Z;
  _lastSampleTime : Z;
  _bomtt : Z;
  _stepBackwards : bool;
  _stepBackTimeTag : Z;
  _nonIncrTimeTag : Z
}.

Record MsgState := mkMsgState {
  m_buf : ScanBuf;
  m_osamp : option OutSample;
  _separatorCnt : Z;
  m_times : MsgTimes;
  _sampleLengthAlloc : Z;
  _nsmallSamples : Z;
  _sampleOverflows : Z;
  m_requests : nat;        (** samples requested from the pool so far *)
  m_freed : list nat       (** handles released by the scanner itself *)
}.

Definition newMsgState (bufsize : Z) : MsgState :=
  mkMsgState (newScanBuf bufsize) None 0
    (mkMsgTimes LONG_LONG_MIN LONG_LONG_MIN LONG_LONG_MIN LONG_LONG_MIN false 0 0) 0 0 0 0 [].

(** A write past the allocated length or before the start of the data, the
    exception of [setDataLength], a loop that did not end. *)
Inductive scan_error := Overrun | LengthExceeded | NoFuel.

(** A returned sample: its data length, the bytes stored in it, and
    [r_overflow] when it was cut for exceeding the maximum size rather than
    completed. *)
Record Returned := mkReturned {
  r_handle : nat;
  r_tt : Z;
  r_len : Z;
  r_data : list Z;
  r_overflow : bool
}.

Definition scan_result : Type := scan_error + MsgState * option Returned.

(** ** setMessageParameters

    [None] is the [InvalidParameterException].  [len] is unsigned and kept in
    the [int] [_messageLength]; sums are unsigned. *)
Definition setMessageParameters (len : Z) (sepText : list Z) (eom : bool)
    (p : MsgParams) (m : MsgState) : option (MsgParams * MsgState) :=
  let sepexp := replaceBackslashSequences sepText in
  let slen := zlen sepexp in
  if MAX_MESSAGE_STREAM_SAMPLE_SIZE <? u32 (len + slen) then None
  else if (slen =? 0) && (len =? 0) then None
  else
    let func := if 0 <? slen then (if eom then SepEOM else SepBOM) else ByLength in
    let nullTerm := match last sepexp with
      | Some c => if (c =? 13) || (c =? 10) then true else m_nullTerminate p
      | None => m_nullTerminate p
      end in
    let alloc := if len =? 0 then 16 else u32 (len + slen + (if nullTerm then 1 else 0)) in
    Some (mkMsgParams sepexp (s32 len) eom nullTerm func (_usecsPerByte p),
          mkMsgState (m_buf m) (m_osamp m) (_separatorCnt m) (m_times m) alloc
            (_nsmallSamples m) (_sampleOverflows m) (m_requests m) (m_freed m)).

(** ** readBuffer *)

Definition readTimes (tlastchar rlen usecs : Z) (t : MsgTimes) : MsgTimes :=
  mkMsgTimes (tlastchar - rlen * usecs) tlastchar (_lastSampleTime t) (_bomtt t)
    (tlastchar <? _lastBufferTime t) (_stepBackTimeTag t) (_nonIncrTimeTag t).

Definition msg_readBuffer (p : MsgParams) (now : Z) (read : Z -> list Z) (m : MsgState) :
    MsgState * Z * bool :=
  let '(b, rlen, exhausted) := readBuffer read (m_buf m) in
  (mkMsgState b (m_osamp m) (_separatorCnt m) (readTimes now rlen (_usecsPerByte p) (m_times m))
     (_sampleLengthAlloc m) (_nsmallSamples m) (_sampleOverflows m) (m_requests m) (m_freed m),
   rlen, exhausted).

(** ** Pieces shared by the three scanners *)

Section Scanner.
Context `{SampleSource} (p : MsgParams).

Abbreviation sep := (_separator p).
Abbreviation sepLen := (_separatorLen p).
Abbreviation msgLen := (_messageLength p).

Definition nterm : list Z := if m_nullTerminate p then [0] else [].

Definition with_osamp (m : MsgState) (o : option OutSample) : MsgState :=
  mkMsgState (m_buf m) o (_separatorCnt m) (m_times m) (_sampleLengthAlloc m)
    (_nsmallSamples m) (_sampleOverflows m) (m_requests m) (m_freed m).

Definition with_cnt (m : MsgState) (c : Z) : MsgState :=
  mkMsgState (m_buf m) (m_osamp m) c (m_times m) (_sampleLengthAlloc m)
    (_nsmallSamples m) (_sampleOverflows m) (m_requests m) (m_freed m).

Definition with_times (m : MsgState) (t : MsgTimes) : MsgState :=
  mkMsgState (m_buf m) (m_osamp m) (_separatorCnt m) t (_sampleLengthAlloc m)
    (_nsmallSamples m) (_sampleOverflows m) (m_requests m) (m_freed m).

(** [_buftail += n] *)
Definition advance (n : Z) (m : MsgState) : MsgState :=
  mkMsgState (with_tail (m_buf m) (_buftail (m_buf m) + n)) (m_osamp m) (_separatorCnt m)
    (m_times m) (_sampleLengthAlloc m) (_nsmallSamples m) (_sampleOverflows m)
    (m_requests m) (m_freed m).

Definition countSample (n : Z) (m : MsgState) : MsgState :=
  mkMsgState (with_stats (m_buf m) (addSampleToStats n (_stats (m_buf m)))) (m_osamp m)
    (_separatorCnt m) (m_times m) (_sampleLengthAlloc m) (_nsmallSamples m)
    (_sampleOverflows m) (m_requests m) (m_freed m).

(** Estimated receipt time of the character at [_buftail]. *)
Definition charTime (m : MsgState) : Z :=
  _tfirstchar (m_times m) + u32 (_buftail (m_buf m) * _usecsPerByte p).

(** Keep time tags increasing, unless the system clock was stepped back. *)
Definition nextTimeTag (ttag : Z) (t : MsgTimes) : Z * MsgTimes :=
  let set last back incr := mkMsgTimes (_tfirstchar t) (_lastBufferTime t) last (_bomtt t)
                              (_stepBackwards t) back incr in
  if ttag <=? _lastSampleTime t then
    if _stepBackwards t
    then (ttag, set ttag (u32 (_stepBackTimeTag t + 1)) (_nonIncrTimeTag t))
    else (_lastSampleTime t + 1,
          set (_lastSampleTime t + 1) (_stepBackTimeTag t) (u32 (_nonIncrTimeTag t + 1)))
  else (ttag, set ttag (_stepBackTimeTag t) (_nonIncrTimeTag t)).

(** [_osamp = getSample<char>(len)], empty. *)
Definition getOutSample (len : Z) (tt : Z) (m : MsgState) : MsgState :=
  mkMsgState (m_buf m) (Some (mkOutSample (m_requests m) tt len [] (allocOf (m_requests m) len)))
    (_separatorCnt m) (m_times m) (_sampleLengthAlloc m) (_nsmallSamples m)
    (_sampleOverflows m) (S (m_requests m)) (m_freed m).

(** Store bytes at [_outSampDataPtr + _outSampRead]. *)
Definition append (o : OutSample) (bytes : list Z) : scan_error + OutSample :=
  if _outSampRead o + zlen bytes <=? o_alloc o
  then inr (mkOutSample (o_handle o) (o_tt o) (o_len o) (o_data o ++ bytes) (o_alloc o))
  else inl Overrun.

(** [_osamp->setDataLength(_outSampRead); addSampleToStats(_outSampRead);] and
    give the sample away. *)
Definition ship (o : OutSample) (overflow : bool) (m : MsgState) : scan_result :=
  if o_alloc o <? _outSampRead o then inl LengthExceeded
  else inr (countSample (_outSampRead o) (with_osamp m None),
            Some (mkReturned (o_handle o) (o_tt o) (_outSampRead o) (o_data o) overflow)).

(** [requestBiggerSample(nc)]: a returned sample on overflow, otherwise the
    state with a bigger sample. *)
Definition requestBiggerSample (nc : Z) (o : OutSample) (m : MsgState) :
    scan_error + (MsgState * OutSample + MsgState * Returned) :=
  let n := _outSampRead o in
  if MAX_MESSAGE_STREAM_SAMPLE_SIZE <? n + nc then
    let m := mkMsgState (m_buf m) (m_osamp m) (_separatorCnt m) (m_times m)
               (_sampleLengthAlloc m) (_nsmallSamples m) (_sampleOverflows m + 1)
               (m_requests m) (m_freed m) in
    if m_nullTerminate p && (n =? 0) then inl Overrun
    else
      let data := if m_nullTerminate p then take (Z.to_nat (n - 1)) (o_data o) ++ [0]
                  else o_data o in
      match ship (mkOutSample (o_handle o) (o_tt o) (o_len o) data (o_alloc o)) true m with
      | inl e => inl e
      | inr (m', Some r) => inr (inr (m', r))
      | inr (_, None) => inl LengthExceeded
      end
  else
    let newlen := Z.min (Z.max (n + n / 2) (n + nc)) MAX_MESSAGE_STREAM_SAMPLE_SIZE in
    let newsamp := mkOutSample (m_requests m) (o_tt o) newlen (o_data o)
                     (allocOf (m_requests m) newlen) in
    if o_alloc newsamp <? n then inl Overrun
    else inr (inl (mkMsgState (m_buf m) (Some newsamp) (_separatorCnt m) (m_times m)
                     (_sampleLengthAlloc m) (_nsmallSamples m) (_sampleOverflows m)
                     (S (m_requests m)) (o_handle o :: m_freed m), newsamp)).

(** The guard [_outSampRead + nc > _outSampLengthAlloc &&
    (result = requestBiggerSample(nc))], before [k] continues. *)
Definition ensureRoom (nc : Z) (o : OutSample) (m : MsgState)
    (k : OutSample -> MsgState -> scan_result) : scan_result :=
  if o_alloc o <? _outSampRead o + nc then
    match requestBiggerSample nc o m with
    | inl e => inl e
    | inr (inr (m', r)) => inr (m', Some r)
    | inr (inl (m', o')) => k o' m'
    end
  else k o m.

(** Size of the next sample to request, after a sample of [n] bytes. *)
Definition adjustAlloc (n : Z) (m : MsgState) : MsgState :=
  let '(alloc, small) :=
    if _sampleLengthAlloc m <? n then (Z.min (n + 16) MAX_MESSAGE_STREAM_SAMPLE_SIZE, 0)
    else if (64 <? _sampleLengthAlloc m) && (n <? _sampleLengthAlloc m - 64) then
      if 100 <? _nsmallSamples m + 1 then (_sampleLengthAlloc m - 64, 0)
      else (_sampleLengthAlloc m, _nsmallSamples m + 1)
    else (_sampleLengthAlloc m, 0) in
  mkMsgState (m_buf m) (m_osamp m) (_separatorCnt m) (m_times m) alloc small
    (_sampleOverflows m) (m_requests m) (m_freed m).

(** [_separator[i]]; the index is always in range (see [msg_wf]). *)
Definition sepAt (i : Z) : Z := nth (Z.to_nat i) sep (-1).

(** [!memcmp(_separator,_separator+off,n)] *)
Definition sepRepeats (off n : Z) : bool :=
  bool_decide (take (Z.to_nat n) sep = take (Z.to_nat n) (drop (Z.to_nat off) sep)).

(** The block of up to [nc] bytes copied from the buffer by [memcpy], before
    [k] continues. *)
Definition copyBlock (nc : Z) (o : OutSample) (m : MsgState)
    (k : OutSample -> MsgState -> scan_result) : scan_result :=
  let nc := Z.min (getBytesInBuffer (m_buf m)) nc in
  if 0 <? nc then
    ensureRoom nc o m (fun o m =>
      match append o (take (Z.to_nat nc) (unread (m_buf m))) with
      | inl e => inl e
      | inr o => k o (advance nc (with_osamp m (Some o)))
      end)
  else k o m.

(** ** nextSampleSepEOM *)

(** [_separatorCnt] after the next character, [None] when the separator is
    complete. *)
Definition eomMatch (c cnt : Z) : option Z :=
  if c =? sepAt cnt then
    if cnt + 1 =? sepLen then None else Some (cnt + 1)
  else if 0 <? cnt then
    if (1 <? cnt) && sepRepeats 1 (cnt - 1) && (c =? sepAt (cnt - 1)) then Some cnt
    else
      let nrep := cnt / 2 in
      if (cnt mod 2 =? 0) && sepRepeats nrep nrep && (c =? sepAt nrep) then Some (nrep + 1)
      else if c =? sepAt 0 then Some 1 else Some 0
  else Some cnt.

(** The loop over the remaining characters. *)
Fixpoint eom_loop (rest : list Z) (o : OutSample) (m : MsgState) : scan_result :=
  match rest with
  | [] => inr (m, None)
  | c :: rest =>
      ensureRoom (1 + zlen nterm) o m (fun o m =>
        match append o [c] with
        | inl e => inl e
        | inr o =>
            let m := advance 1 (with_osamp m (Some o)) in
            match eomMatch c (_separatorCnt m) with
            | Some cnt => eom_loop rest o (with_cnt m cnt)
            | None =>
                match append o nterm with
                | inl e => inl e
                | inr o =>
                    match ship o false (with_cnt m sepLen) with
                    | inl e => inl e
                    | inr (m, r) => inr (adjustAlloc (_outSampRead o) m, r)
                    end
                end
            end
        end)
  end.

(** The part after the allocation of [_osamp]. *)
Definition eom_scan (o : OutSample) (m : MsgState) : scan_result :=
  copyBlock (msgLen - _outSampRead o) o m (fun o m => eom_loop (unread (m_buf m)) o m).

(** A new sample with the time of the next character. *)
Definition startSample (m : MsgState) : MsgState :=
  let '(ttag, t) := nextTimeTag (charTime m) (m_times m) in
  with_cnt (with_times (getOutSample (_sampleLengthAlloc m) ttag m) t) 0.

Definition nextSampleSepEOM (m : MsgState) : scan_result :=
  match m_osamp m with
  | Some o => eom_scan o m
  | None =>
      if getBytesInBuffer (m_buf m) =? 0 then inr (m, None)
      else let m := startSample m in
           match m_osamp m with Some o => eom_scan o m | None => inr (m, None) end
  end.

(** ** nextSampleSepBOM *)

Definition with_bomtt (m : MsgState) (tt : Z) : MsgState :=
  let t := m_times m in
  with_times m (mkMsgTimes (_tfirstchar t) (_lastBufferTime t) (_lastSampleTime t) tt
                  (_stepBackwards t) (_stepBackTimeTag t) (_nonIncrTimeTag t)).

(** After a complete separator: copy up to [getMessageLength()] characters
    and either return, the buffer being empty, or go on looking for the next
    separator. *)
Definition bom_block (o : OutSample) (m : MsgState)
    (k : OutSample -> MsgState -> scan_result) : scan_result :=
  if _separatorCnt m =? sepLen then
    let nc := msgLen - (_outSampRead o - _separatorCnt m) in
    let avail := getBytesInBuffer (m_buf m) in
    copyBlock nc o m (fun o m =>
      if (0 <? Z.min avail nc) && (getBytesInBuffer (m_buf m) =? 0) then inr (m, None)
      else k o (with_cnt m 0))
  else k o m.

(** How many characters of a partial match move to the sample when the next
    character does not match. *)
Definition bomShift (cnt : Z) : Z :=
  if (1 <? cnt) && sepRepeats 1 (cnt - 1) then 1
  else if (cnt mod 2 =? 0) && sepRepeats (cnt / 2) (cnt / 2) then cnt / 2
  else cnt.

(** The separator is complete: time tag and first bytes of the sample that
    it begins. *)
Definition bom_begin (o : OutSample) (m : MsgState) : scan_error + OutSample * MsgState :=
  let '(ttag, t) := nextTimeTag (_bomtt (m_times m)) (m_times m) in
  if o_alloc o <? sepLen then inl Overrun
  else
    let o := mkOutSample (o_handle o) ttag (o_len o) sep (o_alloc o) in
    inr (o, with_bomtt (with_times (with_osamp m (Some o)) t) ttag).

(** The previous sample is ready: ship it and get the next one. *)
Definition bom_ship (o : OutSample) (m : MsgState) : scan_error + (option Returned * OutSample * MsgState) :=
  match append o nterm with
  | inl e => inl e
  | inr o1 =>
      match ship o1 false m with
      | inl e => inl e
      | inr (m1, r) =>
          let m2 := adjustAlloc (_outSampRead o1) m1 in
          let m3 := getOutSample (_sampleLengthAlloc m2) 0 m2 in
          match m_osamp m3 with
          | Some o3 => inr (r, o3, m3)
          | None => inl Overrun
          end
      end
  end.

Fixpoint bom_loop (fuel : nat) (o : OutSample) (m : MsgState) : scan_result :=
  match fuel with
  | O => inl NoFuel
  | S fuel =>
      match unread (m_buf m) with
      | [] => inr (m, None)
      | c :: _ =>
          ensureRoom (sepLen + zlen nterm) o m (fun o m =>
            let cnt := _separatorCnt m in
            if c =? sepAt cnt then
              let m := if cnt =? 0 then with_bomtt m (charTime m) else m in
              let m := with_cnt (advance 1 m) (cnt + 1) in
              if cnt + 1 =? sepLen then
                if 0 <? _outSampRead o then
                  match bom_ship o m with
                  | inl e => inl e
                  | inr (r, o, m) =>
                      match bom_begin o m with
                      | inl e => inl e
                      | inr (_, m) => inr (m, r)
                      end
                  end
                else
                  match bom_begin o m with
                  | inl e => inl e
                  | inr (o, m) => bom_block o m (bom_loop fuel)
                  end
              else bom_loop fuel o m
            else if 0 <? cnt then
              let n := bomShift cnt in
              match append o (take (Z.to_nat n) sep) with
              | inl e => inl e
              | inr o => bom_loop fuel o (with_cnt (with_osamp m (Some o)) (cnt - n))
              end
            else
              match append o [c] with
              | inl e => inl e
              | inr o => bom_loop fuel o (advance 1 (with_osamp m (Some o)))
              end)
      end
  end.

(** Enough iterations for the loop: see [bom_loop_measure]. *)
Definition bom_fuel (m : MsgState) : nat :=
  S (2 * length (unread (m_buf m)) + Z.to_nat (_separatorCnt m)).

Definition bom_scan (o : OutSample) (m : MsgState) : scan_result :=
  bom_block o m (fun o m => bom_loop (bom_fuel m) o m).

Definition nextSampleSepBOM (m : MsgState) : scan_result :=
  match m_osamp m with
  | Some o => bom_scan o m
  | None =>
      if getBytesInBuffer (m_buf m) =? 0 then inr (m, None)
      else let m := startSample m in
           match m_osamp m with Some o => bom_scan o m | None => inr (m, None) end
  end.

(** ** nextSampleByLength *)

Definition bylength_scan (o : OutSample) (m : MsgState) : scan_result :=
  let '(o, m) :=
    if _outSampRead o =? 0 then
      let '(ttag, t) := nextTimeTag (charTime m) (m_times m) in
      let o := mkOutSample (o_handle o) ttag (o_len o) (o_data o) (o_alloc o) in
      (o, with_times (with_osamp m (Some o)) t)
    else (o, m) in
  copyBlock (msgLen - _outSampRead o) o m (fun o m =>
    if _outSampRead o =? msgLen then
      inr (countSample (_outSampRead o) (with_osamp m None),
           Some (mkReturned (o_handle o) (o_tt o) (o_len o) (o_data o) false))
    else inr (m, None)).

Definition nextSampleByLength (m : MsgState) : scan_result :=
  match m_osamp m with
  | Some o => bylength_scan o m
  | None =>
      let m := with_cnt (getOutSample (_sampleLengthAlloc m) 0 m) 0 in
      match m_osamp m with Some o => bylength_scan o m | None => inr (m, None) end
  end.

(** ** nextSample *)

Definition nextSample (m : MsgState) : scan_result :=
  match _nextSampleFunc p with
  | SepEOM => nextSampleSepEOM m
  | SepBOM => nextSampleSepBOM m
  | ByLength => nextSampleByLength m
  end.

End Scanner.

(** ** Invariants *)

Section Invariants.
Context `{SampleSource} (p : MsgParams).

Abbreviation sep := (_separator p).
Abbreviation sepLen := (_separatorLen p).
Abbreviation msgLen := (_messageLength p).
Abbreviation MAX := MAX_MESSAGE_STREAM_SAMPLE_SIZE.

(** What [setMessageParameters] accepts, with room for the null. *)
Record params_ok : Prop := {
  po_len : 0 <= msgLen;
  po_max : msgLen + sepLen <= MAX;
  po_null : sepLen + zlen (nterm p) <= MAX;
  po_func : match _nextSampleFunc p with
            | ByLength => sep = [] /\ 0 < msgLen
            | _ => 0 < sepLen
            end
}.

Definition osamp_handle (m : MsgState) : list nat :=
  match m_osamp m with Some o => [o_handle o] | None => [] end.

(** Every sample requested was either returned, released, or is the current
    one; none twice. *)
Definition handles_ok (outs : list Returned) (m : MsgState) : Prop :=
  map r_handle outs ++ m_freed m ++ osamp_handle m ≡ₚ seq 0 (m_requests m).

(** The tags returned so far increase, and the current sample is later. *)
Definition tags_ok (outs : list Returned) (m : MsgState) : Prop :=
  _stepBackwards (m_times m) = false /\
  StronglySorted Z.lt (map r_tt outs) /\
  Forall (fun r => r_tt r <= _lastSampleTime (m_times m)) outs /\
  match m_osamp m with
  | Some o => o_tt o = _lastSampleTime (m_times m) /\
              Forall (fun r => r_tt r < _lastSampleTime (m_times m)) outs
  | None => True
  end.

(** What holds in all three scanners when the returned samples are [outs];
    [steady] says that the system clock has not been stepped back. *)
Record base (outs : list Returned) (steady : bool) (m : MsgState) : Prop := {
  ba_buf : buf_wf (m_buf m);
  ba_alloc : 0 <= _sampleLengthAlloc m <= MAX + 1;
  ba_room : forall o, m_osamp m = Some o -> zlen (o_data o) <= o_alloc o;
  ba_handles : handles_ok outs m;
  ba_tags : steady = true -> tags_ok outs m
}.

(** *** requestBiggerSample *)

(** The bytes of an overflowed sample, its last one overwritten by a null
    when the scanner null-terminates. *)
Definition cut (d : list Z) : list Z :=
  if m_nullTerminate p then take (Z.to_nat (zlen d - 1)) d ++ [0] else d.

Lemma cut_len d : 0 < zlen d -> zlen (cut d) = zlen d.
Proof.
  intros Hd. unfold cut. destruct (m_nullTerminate p); [|done].
  rewrite zlen_app. unfold zlen in *. rewrite length_take. cbn. lia.
Qed.

(** Same sample, possibly moved to a bigger one. *)
Definition grown (o : OutSample) (m : MsgState) (o' : OutSample) (m' : MsgState) : Prop :=
  o' = o /\ m' = m \/
  exists len, o' = mkOutSample (m_requests m) (o_tt o) len (o_data o) (o_alloc o') /\
    m' = mkMsgState (m_buf m) (Some o') (_separatorCnt m) (m_times m)
           (_sampleLengthAlloc m) (_nsmallSamples m) (_sampleOverflows m)
           (S (m_requests m)) (o_handle o :: m_freed m).

Definition overflowed (nc : Z) (o : OutSample) (m m' : MsgState) (r : Returned) : Prop :=
  MAX < zlen (o_data o) + nc /\
  r = mkReturned (o_handle o) (o_tt o) (zlen (o_data o)) (cut (o_data o)) true /\
  m' = mkMsgState (with_stats (m_buf m) (addSampleToStats (zlen (o_data o)) (_stats (m_buf m))))
         None (_separatorCnt m) (m_times m) (_sampleLengthAlloc m) (_nsmallSamples m)
         (_sampleOverflows m + 1) (m_requests m) (m_freed m).

Lemma ensureRoom_spec (Q : scan_result -> Prop) nc o m k :
  zlen (o_data o) <= o_alloc o -> 0 < nc <= MAX ->
  (forall o' m', grown o m o' m' -> zlen (o_data o) + nc <= o_alloc o' -> Q (k o' m')) ->
  (forall m' r, overflowed nc o m m' r -> Q (inr (m', Some r))) ->
  Q (ensureRoom p nc o m k).
Proof.
  intros Hr Hnc Hk Ho. unfold ensureRoom, _outSampRead.
  pose proof (zlen_nonneg (o_data o)) as H0.
  destruct (Z.ltb_spec (o_alloc o) (zlen (o_data o) + nc)) as [Hlt|Hge];
    [|apply Hk; [by left|lia]].
  unfold requestBiggerSample, _outSampRead.
  destruct (Z.ltb_spec MAX (zlen (o_data o) + nc)) as [Hm|Hm].
  - destruct (Z.eqb_spec (zlen (o_data o)) 0) as [Hz|Hz]; [lia|]. rewrite andb_false_r.
    fold (cut (o_data o)). unfold ship, _outSampRead. cbn [o_alloc o_data o_handle o_tt].
    rewrite cut_len by lia. destruct (Z.ltb_spec (o_alloc o) (zlen (o_data o))); [lia|].
    apply Ho. split; [lia|]. by split.
  - set (newlen := Z.min _ _).
    assert (Hn : zlen (o_data o) + nc <= newlen <= MAX) by (unfold newlen; lia).
    unfold MAX_MESSAGE_STREAM_SAMPLE_SIZE in Hn.
    pose proof (allocOf_ge (m_requests m) newlen ltac:(lia)) as Ha. cbn [o_alloc].
    destruct (Z.ltb_spec (allocOf (m_requests m) newlen) (zlen (o_data o))); [lia|].
    apply Hk; [right; by exists newlen | cbn; lia].
Qed.

Lemma grown_data o m o' m' : grown o m o' m' -> o_data o' = o_data o.
Proof. by intros [[-> ->]|(len & -> & ->)]. Qed.

(** Everything else is untouched. *)
Lemma grown_same o m o' m' : grown o m o' m' ->
  m_osamp m = Some o -> m_osamp m' = Some o' /\ m_buf m' = m_buf m /\
  _separatorCnt m' = _separatorCnt m /\ m_times m' = m_times m /\
  _sampleLengthAlloc m' = _sampleLengthAlloc m /\ _nsmallSamples m' = _nsmallSamples m /\
  _sampleOverflows m' = _sampleOverflows m.
Proof. by intros [[-> ->]|(len & -> & ->)] ?. Qed.

Lemma handles_grow outs m o o' m' :
  handles_ok outs m -> m_osamp m = Some o -> grown o m o' m' -> handles_ok outs m'.
Proof.
  intros Hh Ho [[-> ->]|(len & -> & ->)]; [done|].
  unfold handles_ok, osamp_handle in *. rewrite Ho in Hh. cbn [m_freed m_osamp m_requests o_handle].
  rewrite seq_S, <- Hh. cbn [app]. rewrite <- !app_assoc. apply Permutation_app_head.
  rewrite (Permutation_app_comm (m_freed m) ([o_handle o] ++ _)). cbn [app].
  apply Permutation_skip. apply Permutation_app_comm.
Qed.

Lemma base_grown outs steady o m o' m' :
  base outs steady m -> m_osamp m = Some o -> grown o m o' m' ->
  zlen (o_data o') <= o_alloc o' -> base outs steady m'.
Proof.
  intros Hb Ho Hg Hr. pose proof (grown_same _ _ _ _ Hg Ho) as (E1 & E2 & _ & E4 & E5 & _).
  split.
  - rewrite E2. apply Hb.
  - rewrite E5. apply Hb.
  - intros o1. rewrite E1. by intros [= <-].
  - eapply handles_grow; [apply Hb | done | done].
  - intros Hs. destruct (ba_tags _ _ _ Hb Hs) as (T1 & T2 & T3 & T4). unfold tags_ok.
    rewrite E1, E4. rewrite Ho in T4. split_and!; try done; [|apply T4].
    destruct T4 as [T4 _]. destruct Hg as [[-> ->]|(len & -> & ->)]; done.
Qed.

(** A finished sample is handed to the caller. *)
Lemma base_return outs steady o m m' r :
  base outs steady m -> m_osamp m = Some o ->
  m_osamp m' = None -> buf_wf (m_buf m') -> m_times m' = m_times m ->
  0 <= _sampleLengthAlloc m' <= MAX + 1 -> m_freed m' = m_freed m ->
  m_requests m' = m_requests m -> r_handle r = o_handle o -> r_tt r = o_tt o ->
  base (outs ++ [r]) steady m'.
Proof.
  intros Hb Ho E1 E2 E3 E4 E5 E6 E7 E8. split; try done.
  - intros o1. by rewrite E1.
  - pose proof (ba_handles _ _ _ Hb) as Hh. unfold handles_ok, osamp_handle in *.
    rewrite Ho in Hh. rewrite E1, E5, E6, <- Hh, map_app, app_nil_r. cbn [map]. rewrite E7.
    rewrite <- !app_assoc. apply Permutation_app_head, Permutation_app_comm.
  - intros Hs. destruct (ba_tags _ _ _ Hb Hs) as (T1 & T2 & T3 & T4). rewrite Ho in T4.
    destruct T4 as [T4 T5]. unfold tags_ok. rewrite E1, E3. split; [done|]. split.
    + rewrite map_app. apply StronglySorted_app_iff. split; [done|].
      split; [cbn; repeat constructor|]. intros a b Ha Hb'.
      apply list_elem_of_fmap in Ha as (x & -> & Hx). cbn in Hb'. apply list_elem_of_singleton in Hb' as ->.
      rewrite E8, T4. rewrite Forall_forall in T5. by apply T5.
    + split; [|done]. apply Forall_app. split; [done|]. constructor; [|constructor]. lia.
Qed.

Lemma base_overflowed outs steady nc o m m' r :
  base outs steady m -> m_osamp m = Some o -> overflowed nc o m m' r ->
  base (outs ++ [r]) steady m'.
Proof.
  intros Hb Ho (_ & -> & ->). eapply base_return; try done; [apply Hb | apply Hb].
Qed.

(** Storing bytes that fit. *)
Lemma base_append outs steady o m bytes :
  base outs steady m -> m_osamp m = Some o -> zlen (o_data o) + zlen bytes <= o_alloc o ->
  exists o', append o bytes = inr o' /\ o_data o' = o_data o ++ bytes /\ o_alloc o' = o_alloc o /\
    o_handle o' = o_handle o /\ o_tt o' = o_tt o /\ o_len o' = o_len o /\
    base outs steady (with_osamp m (Some o')).
Proof.
  intros Hb Ho Hr. unfold append, _outSampRead.
  destruct (Z.leb_spec (zlen (o_data o) + zlen bytes) (o_alloc o)); [|lia].
  eexists. split; [done|]. cbn. do 5 (split; [done|]). split; try apply Hb.
  - intros o1 [= <-]. cbn. rewrite zlen_app. lia.
  - pose proof (ba_handles _ _ _ Hb) as Hh. unfold handles_ok, osamp_handle in *. by rewrite Ho in Hh.
  - intros Hs. destruct (ba_tags _ _ _ Hb Hs) as (T1 & T2 & T3 & T4). unfold tags_ok.
    rewrite Ho in T4. done.
Qed.

(** Updates that do not matter to [base]. *)
Lemma base_frame outs steady m m' :
  base outs steady m -> buf_wf (m_buf m') -> m_osamp m' = m_osamp m -> m_times m' = m_times m ->
  0 <= _sampleLengthAlloc m' <= MAX + 1 -> m_freed m' = m_freed m -> m_requests m' = m_requests m ->
  base outs steady m'.
Proof.
  intros Hb E1 E2 E3 E4 E5 E6. split; try done.
  - intros o. rewrite E2. apply Hb.
  - pose proof (ba_handles _ _ _ Hb) as Hh. unfold handles_ok, osamp_handle in *. by rewrite E2, E5, E6.
  - intros Hs. pose proof (ba_tags _ _ _ Hb Hs) as Ht. unfold tags_ok in *. by rewrite E2, E3.
Qed.

Lemma base_cnt outs steady m c : base outs steady m -> base outs steady (with_cnt m c).
Proof. intros Hb. eapply base_frame; try done; apply Hb. Qed.

Lemma base_advance outs steady m n :
  base outs steady m -> 0 <= n <= getBytesInBuffer (m_buf m) -> base outs steady (advance n m).
Proof.
  intros Hb Hn. eapply base_frame; try done; [|apply Hb].
  apply (take_split_unread (m_buf m) n); [apply Hb|done].
Qed.

Lemma adjustAlloc_range n m :
  0 <= _sampleLengthAlloc m <= MAX + 1 -> 0 <= n ->
  0 <= _sampleLengthAlloc (adjustAlloc n m) <= MAX + 1.
Proof.
  intros Ha Hn. unfold adjustAlloc, MAX_MESSAGE_STREAM_SAMPLE_SIZE in *.
  destruct (Z.ltb_spec (_sampleLengthAlloc m) n); cbn [_sampleLengthAlloc]; [lia|].
  destruct (Z.ltb_spec 64 (_sampleLengthAlloc m)); cbn [andb]; [|cbn; lia].
  destruct (n <? _sampleLengthAlloc m - 64); [destruct (100 <? _nsmallSamples m + 1)|]; cbn; lia.
Qed.

Lemma adjustAlloc_same n m :
  m_osamp (adjustAlloc n m) = m_osamp m /\ m_buf (adjustAlloc n m) = m_buf m /\
  _separatorCnt (adjustAlloc n m) = _separatorCnt m /\ m_times (adjustAlloc n m) = m_times m /\
  m_freed (adjustAlloc n m) = m_freed m /\ m_requests (adjustAlloc n m) = m_requests m /\
  _sampleOverflows (adjustAlloc n m) = _sampleOverflows m.
Proof. unfold adjustAlloc. by destruct (if _sampleLengthAlloc m <? n then _ else _). Qed.

Lemma nextTimeTag_spec x t :
  let '(tag, t') := nextTimeTag x t in
  _lastSampleTime t' = tag /\ _stepBackwards t' = _stepBackwards t /\ _bomtt t' = _bomtt t /\
  (_stepBackwards t = false -> _lastSampleTime t < tag).
Proof.
  unfold nextTimeTag. destruct (Z.leb_spec x (_lastSampleTime t));
    [destruct (_stepBackwards t)|]; cbn; split_and!; try done; lia.
Qed.

(** The history of tags without the sample being filled. *)
Definition past_tags (outs : list Returned) (m : MsgState) : Prop :=
  _stepBackwards (m_times m) = false /\ StronglySorted Z.lt (map r_tt outs) /\
  Forall (fun r => r_tt r <= _lastSampleTime (m_times m)) outs.

Lemma base_past outs steady m : base outs steady m -> steady = true -> past_tags outs m.
Proof. intros Hb Hs. destruct (ba_tags _ _ _ Hb Hs) as (? & ? & ? & _). by split_and!. Qed.

(** A sample gets its time tag. *)
Lemma base_tagged outs steady m m' o x tag t :
  buf_wf (m_buf m') -> 0 <= _sampleLengthAlloc m' <= MAX + 1 ->
  zlen (o_data o) <= o_alloc o -> handles_ok outs m' ->
  (steady = true -> past_tags outs m) ->
  nextTimeTag x (m_times m) = (tag, t) -> m_osamp m' = Some o -> o_tt o = tag ->
  _lastSampleTime (m_times m') = _lastSampleTime t ->
  _stepBackwards (m_times m') = _stepBackwards t ->
  base outs steady m'.
Proof.
  intros E1 E2 E3 E4 E5 E6 E7 E8 E9 E10. pose proof (nextTimeTag_spec x (m_times m)) as Ht.
  rewrite E6 in Ht. destruct Ht as (T1 & T2 & _ & T3). split; try done.
  - intros o1. rewrite E7. by intros [= <-].
  - intros Hs. destruct (E5 Hs) as (P1 & P2 & P3). unfold tags_ok.
    rewrite E7, E9, E10, T1, T2. specialize (T3 P1).
    split_and!; try done; eapply Forall_impl; try exact P3; cbn; lia.
Qed.

Lemma handles_new outs m len tt :
  handles_ok outs m -> m_osamp m = None -> handles_ok outs (getOutSample len tt m).
Proof.
  intros Hh Ho. unfold handles_ok, osamp_handle in *. rewrite Ho in Hh.
  cbn [m_osamp m_freed m_requests getOutSample o_handle].
  by rewrite seq_S, <- Hh, app_nil_r, <- app_assoc.
Qed.

(** The allocation at the top of [nextSampleSepEOM] and [nextSampleSepBOM]. *)
Lemma startSample_spec outs steady m :
  base outs steady m -> m_osamp m = None ->
  exists o, m_osamp (startSample p m) = Some o /\ o_data o = [] /\
    base outs steady (startSample p m) /\ m_buf (startSample p m) = m_buf m /\
    _separatorCnt (startSample p m) = 0 /\
    _sampleLengthAlloc (startSample p m) = _sampleLengthAlloc m /\
    _nsmallSamples (startSample p m) = _nsmallSamples m /\
    _sampleOverflows (startSample p m) = _sampleOverflows m.
Proof.
  intros Hb Ho. unfold startSample.
  destruct (nextTimeTag (charTime p m) (m_times m)) as [ttag t] eqn:E.
  pose proof (ba_alloc _ _ _ Hb) as Ha. unfold MAX_MESSAGE_STREAM_SAMPLE_SIZE in Ha.
  eexists. split; [done|]. split; [done|]. split; [|done].
  eapply (base_tagged outs steady m); try done; [apply Hb|..].
  - cbn [o_data o_alloc]. pose proof (allocOf_ge (m_requests m) (_sampleLengthAlloc m) ltac:(lia)). rewrite zlen_nil. lia.
  - apply (handles_new _ m (_sampleLengthAlloc m) ttag); [apply Hb|done].
  - by apply base_past.
Qed.

(** The block copy: the sample gets the first [nc] unread bytes, or all. *)
Lemma copyBlock_spec (Q : scan_result -> Prop) outs steady nc o m k :
  base outs steady m -> m_osamp m = Some o -> nc <= MAX ->
  (forall o' m' c, base outs steady m' -> m_osamp m' = Some o' ->
     o_data o' = o_data o ++ c -> unread (m_buf m) = c ++ unread (m_buf m') ->
     zlen c = Z.max 0 (Z.min (getBytesInBuffer (m_buf m)) nc) ->
     _separatorCnt m' = _separatorCnt m -> _sampleLengthAlloc m' = _sampleLengthAlloc m ->
     _nsmallSamples m' = _nsmallSamples m -> _sampleOverflows m' = _sampleOverflows m ->
     Q (k o' m')) ->
  (forall nc' m' r, nc' <= nc -> overflowed nc' o m m' r -> Q (inr (m', Some r))) ->
  Q (copyBlock p nc o m k).
Proof.
  intros Hb Ho Hnc Hk Hov. unfold copyBlock.
  pose proof (unread_len (m_buf m) (ba_buf _ _ _ Hb)) as Hl.
  pose proof (zlen_nonneg (unread (m_buf m))) as Hl0.
  set (n := Z.min (getBytesInBuffer (m_buf m)) nc) in *.
  assert (Hn : n <= getBytesInBuffer (m_buf m) /\ n <= nc) by (unfold n; lia). clearbody n.
  destruct (Z.ltb_spec 0 n) as [Hpos|Hneg].
  - apply ensureRoom_spec; [by apply Hb | lia | | intros; eapply (Hov n); [lia|done]].
    intros o1 m1 Hg Hroom. pose proof (grown_same _ _ _ _ Hg Ho) as (G1 & G2 & G3 & _ & G5 & G6 & G7).
    pose proof (grown_data _ _ _ _ Hg) as Gd. rewrite <- Gd in Hroom.
    destruct (take_split_unread (m_buf m) n (ba_buf _ _ _ Hb)) as (U1 & U2 & U3); [lia|].
    assert (Hb1 : base outs steady m1) by (eapply base_grown; eauto; lia).
    rewrite G2. destruct (base_append outs steady o1 m1 (take (Z.to_nat n) (unread (m_buf m))) Hb1 G1)
      as (o2 & -> & A1 & A2 & A3 & A4 & A5 & Hb2); [lia|].
    eapply (Hk _ _ (take (Z.to_nat n) (unread (m_buf m)))); try done.
    + apply base_advance; [done|]. cbn [m_buf with_osamp]. rewrite G2. lia.
    + by rewrite A1, Gd.
    + cbn. by rewrite G2.
    + rewrite U2. lia.
  - eapply (Hk o m []); try done; [by rewrite app_nil_r | rewrite zlen_nil; lia].
Qed.

(** *** The separator *)

Lemma take_sep_S k : 0 <= k < sepLen ->
  take (Z.to_nat k) sep ++ [sepAt p k] = take (Z.to_nat (k + 1)) sep.
Proof.
  intros Hk. unfold sepAt, _separatorLen, zlen in *.
  replace (Z.to_nat (k + 1)) with (S (Z.to_nat k)) by lia.
  symmetry. apply take_S_r. destruct (lookup_lt_is_Some_2 sep (Z.to_nat k) ltac:(lia)) as [x Hx].
  rewrite Hx. f_equal. symmetry. by apply nth_lookup_Some.
Qed.

Lemma sepRepeats_spec off n : 0 <= off -> 0 <= n -> sepRepeats p off n = true ->
  take (Z.to_nat (off + n)) sep = take (Z.to_nat off) sep ++ take (Z.to_nat n) sep.
Proof.
  intros Ho Hn Hr%bool_decide_eq_true. rewrite Hr, Z2Nat.inj_add by lia. symmetry. apply take_take_drop.
Qed.

Lemma eomMatch_spec c cnt : 0 <= cnt < sepLen ->
  match eomMatch p c cnt with
  | None => take (Z.to_nat cnt) sep ++ [c] = sep
  | Some cnt' => 0 <= cnt' < sepLen /\
      exists x, take (Z.to_nat cnt) sep ++ [c] = x ++ take (Z.to_nat cnt') sep
  end.
Proof.
  intros Hc. unfold eomMatch. destruct (Z.eqb_spec c (sepAt p cnt)) as [->|Hne].
  - rewrite take_sep_S by lia. destruct (Z.eqb_spec (cnt + 1) sepLen) as [E|E].
    + rewrite E. unfold _separatorLen, zlen. rewrite Nat2Z.id. by rewrite take_ge.
    + split; [lia|]. by exists [].
  - destruct (Z.ltb_spec 0 cnt) as [Hpos|]; [|split; [lia|]].
    2: { assert (cnt = 0) as -> by lia. exists [c]. cbn. done. }
    destruct (_ && _ && _) eqn:E1.
    + apply andb_true_iff in E1 as [[H1 H2]%andb_true_iff H3]. apply Z.eqb_eq in H3 as ->.
      apply Z.ltb_lt in H1. split; [lia|]. exists (take 1 sep).
      pose proof (sepRepeats_spec 1 (cnt - 1) ltac:(lia) ltac:(lia) H2) as Hr.
      replace (1 + (cnt - 1)) with cnt in Hr by lia. rewrite Hr at 1.
      rewrite <- app_assoc, take_sep_S by lia. by replace (cnt - 1 + 1) with cnt by lia.
    + clear E1. destruct (_ && _ && _) eqn:E2.
      * apply andb_true_iff in E2 as [[H1 H2]%andb_true_iff H3]. apply Z.eqb_eq in H3 as ->, H1.
        assert (Hn : cnt = cnt / 2 + cnt / 2 /\ 0 < cnt / 2) by dlia.
        split; [lia|]. exists (take (Z.to_nat (cnt / 2)) sep).
        pose proof (sepRepeats_spec (cnt / 2) (cnt / 2) ltac:(lia) ltac:(lia) H2) as Hr.
        rewrite <- (proj1 Hn) in Hr. rewrite Hr at 1. by rewrite <- app_assoc, take_sep_S by lia.
      * destruct (Z.eqb_spec c (sepAt p 0)) as [->|]; (split; [lia|]).
        -- exists (take (Z.to_nat cnt) sep). f_equal. apply (take_sep_S 0). lia.
        -- eexists. cbn. by rewrite app_nil_r.
Qed.

Lemma bomShift_spec cnt : 0 < cnt < sepLen ->
  0 < bomShift p cnt <= cnt /\
  take (Z.to_nat cnt) sep = take (Z.to_nat (bomShift p cnt)) sep ++ take (Z.to_nat (cnt - bomShift p cnt)) sep.
Proof.
  intros Hc. unfold bomShift. destruct (_ && _) eqn:E1.
  - apply andb_true_iff in E1 as [H1%Z.ltb_lt H2]. split; [lia|].
    rewrite <- sepRepeats_spec; [f_equal; lia | lia | lia | done].
  - clear E1. destruct (_ && _) eqn:E2.
    + apply andb_true_iff in E2 as [H1%Z.eqb_eq H2].
      assert (Hn : cnt = cnt / 2 + cnt / 2 /\ 0 < cnt / 2) by dlia. split; [lia|].
      rewrite <- sepRepeats_spec; [f_equal; lia | lia | lia |].
      by replace (cnt - cnt / 2) with (cnt / 2) by lia.
    + split; [lia|]. by rewrite Z.sub_diag, app_nil_r.
Qed.

(** *** What a call of [nextSample] guarantees *)

(** The bytes consumed from the buffer and not yet returned: those in the
    current sample, and for [nextSampleSepBOM] the partially matched
    separator. *)
Definition pending (m : MsgState) : list Z :=
  match m_osamp m with
  | None => []
  | Some o => o_data o ++
      match _nextSampleFunc p with
      | SepBOM => if _separatorCnt m =? sepLen then [] else take (Z.to_nat (_separatorCnt m)) sep
      | _ => []
      end
  end.

(** What is appended to the bytes of a message. *)
Definition terminator : list Z := match _nextSampleFunc p with ByLength => [] | _ => nterm p end.

(** The samples that start with the separator. *)
Definition started (m : MsgState) : bool :=
  match m_osamp m with Some o => bool_decide (sep `prefix_of` o_data o) | None => false end.

(** A message as the parameters describe it.  For a separator of one
    character, it ends at the first separator after the message length. *)
Definition message_shape (m : MsgState) (body : list Z) : Prop :=
  match _nextSampleFunc p with
  | SepEOM => exists b, body = b ++ sep /\ msgLen <= zlen b /\
                (sepLen = 1 -> sepAt p 0 ∉ drop (Z.to_nat msgLen) b)
  | SepBOM => body <> [] /\ (started m = true -> sep `prefix_of` body)
  | ByLength => zlen body = msgLen
  end.

(** The state of the sample being filled. *)
Definition osamp_wf (m : MsgState) : Prop :=
  match m_osamp m with
  | None => True
  | Some o =>
      match _nextSampleFunc p with
      | SepEOM => 0 <= _separatorCnt m < sepLen /\
          (exists pre, o_data o = pre ++ take (Z.to_nat (_separatorCnt m)) sep /\
             (0 < _separatorCnt m -> msgLen <= zlen pre)) /\
          (sepLen = 1 -> sepAt p 0 ∉ drop (Z.to_nat msgLen) (o_data o))
      | SepBOM => 0 <= _separatorCnt m <= sepLen /\
          (_separatorCnt m = sepLen -> sep `prefix_of` o_data o)
      | ByLength => zlen (o_data o) < msgLen
      end
  end.

(** The size of the next request has room for a separator: it only shrinks
    after many small samples, at most one of which, and one more after each
    overflow, does not start with a separator. *)
Definition alloc_wf (m : MsgState) : Prop :=
  _nextSampleFunc p = SepBOM ->
  sepLen <= _sampleLengthAlloc m /\ 0 <= _nsmallSamples m <= 100 /\ 0 <= _sampleOverflows m /\
  (_nsmallSamples m <= _sampleOverflows m + (if started m then 1 else 0) \/
   sepLen < _sampleLengthAlloc m - 64).

(** The outcome of a call whose input (pending and unread bytes) is [s]. *)
Definition call_post (outs : list Returned) (steady : bool) (m0 : MsgState) (s : list Z)
    (res : scan_result) : Prop :=
  exists m' r, res = inr (m', r) /\ osamp_wf m' /\ alloc_wf m' /\
  match r with
  | None => base outs steady m' /\ unread (m_buf m') = [] /\ pending m' = s /\
      (_nextSampleFunc p = SepBOM -> started m0 = true -> started m' = true)
  | Some r => base (outs ++ [r]) steady m' /\
      if r_overflow r then
        exists d lost, s = d ++ lost ++ unread (m_buf m') /\ r_data r = cut d /\
          lost `prefix_of` sep /\ MAX < zlen d + msgLen + sepLen + 1 /\ m_osamp m' = None /\
          (_nextSampleFunc p <> SepBOM -> lost = [])
      else
        exists body, r_data r = body ++ terminator /\ message_shape m0 body /\
          s = body ++ pending m' ++ unread (m_buf m') /\
          (_nextSampleFunc p = SepBOM -> started m' = true)
  end.

(** *** nextSampleSepEOM *)

Lemma eomMatch_one c : sepLen = 1 ->
  eomMatch p c 0 = if c =? sepAt p 0 then None else Some 0.
Proof. intros E. unfold eomMatch. rewrite E. by destruct (c =? sepAt p 0). Qed.

Lemma not_elem_drop_snoc (x c : Z) n (l : list Z) :
  x ∉ drop n l -> x <> c -> x ∉ drop n (l ++ [c]).
Proof.
  intros H1 H2. rewrite drop_app. rewrite elem_of_app. intros [?|H3]; [done|].
  destruct (n - length l)%nat; cbn in H3; [by apply list_elem_of_singleton in H3|].
  rewrite drop_nil in H3. inversion H3.
Qed.

Lemma eom_loop_ok (Hp : params_ok) (Hf : _nextSampleFunc p = SepEOM) m0 s outs steady rest : forall o m,
  base outs steady m -> m_osamp m = Some o -> osamp_wf m -> unread (m_buf m) = rest ->
  s = o_data o ++ rest -> (rest <> [] -> msgLen <= zlen (o_data o)) ->
  call_post outs steady m0 s (eom_loop p rest o m).
Proof.
  induction rest as [|c rest IH]; intros o m Hb Ho Hw Hu Hs Hl; cbn [eom_loop].
  - exists m, None. split_and!; try done; [by intros [=]%(eq_trans (eq_sym Hf))| |by rewrite Hf].
    unfold pending. by rewrite Ho, Hf, Hs.
  - pose proof (po_null Hp) as Hnull. pose proof (po_func Hp) as Hsep. rewrite Hf in Hsep.
    pose proof (zlen_nonneg (nterm p)) as Hn0.
    apply ensureRoom_spec; [by apply Hb | lia | |].
    + intros o1 m1 Hg Hroom.
      pose proof (grown_same _ _ _ _ Hg Ho) as (G1 & G2 & G3 & _).
      pose proof (grown_data _ _ _ _ Hg) as Gd. rewrite <- Gd in Hroom.
      assert (Hb1 : base outs steady m1) by (eapply base_grown; eauto; lia).
      destruct (base_append outs steady o1 m1 [c] Hb1 G1) as (o2 & -> & A1 & A2 & A3 & A4 & _ & Hb2);
        [rewrite zlen_cons, zlen_nil; lia|].
      unfold osamp_wf in Hw. rewrite Ho, Hf in Hw. destruct Hw as (Hc & (pre & Epre & Hpre) & Hone).
      cbn [_separatorCnt advance with_osamp]. rewrite G3.
      pose proof (take_split_unread (m_buf m) 1 (ba_buf _ _ _ Hb)) as Hsplit.
      rewrite <- unread_len, Hu in Hsplit by apply Hb. rewrite zlen_cons in Hsplit.
      destruct Hsplit as (U1 & _ & U3); [pose proof (zlen_nonneg rest); lia|].
      change (take (Z.to_nat 1) (c :: rest)) with [c] in U1. injection U1 as U1.
      assert (Hb3 : base outs steady (advance 1 (with_osamp m1 (Some o2)))).
      { apply base_advance; [done|]. cbn [m_buf with_osamp]. rewrite G2, <- unread_len by apply Hb.
        rewrite Hu, zlen_cons. pose proof (zlen_nonneg rest). lia. }
      specialize (Hl ltac:(done)). pose proof (eomMatch_spec c (_separatorCnt m) Hc) as Hm.
      assert (Eo2 : o_data o2 = pre ++ take (Z.to_nat (_separatorCnt m)) sep ++ [c])
        by (rewrite A1, Gd, Epre; by rewrite <- app_assoc).
      assert (Hx : forall x y, 0 < y -> o_data o = pre ++ take (Z.to_nat (_separatorCnt m)) sep ->
          take (Z.to_nat (_separatorCnt m)) sep ++ [c] = x ++ take (Z.to_nat y) sep ->
          y <= sepLen -> msgLen <= zlen (pre ++ x)).
      { intros x y Hy Hd Hxy Hyl. rewrite zlen_app.
        destruct (Z.ltb_spec 0 (_separatorCnt m)) as [Hpos|Hz].
        - specialize (Hpre Hpos). pose proof (zlen_nonneg x). lia.
        - assert (_separatorCnt m = 0) as E0 by lia. rewrite E0 in *. cbn in Hd. rewrite app_nil_r in Hd.
          subst pre. pose proof (zlen_nonneg x). lia. }
      destruct (eomMatch p c (_separatorCnt m)) as [cnt|] eqn:Em.
      * destruct Hm as (Hcnt & x & Ex). apply IH; try done; [by apply base_cnt| | | |].
        -- unfold osamp_wf. cbn [m_osamp with_cnt advance with_osamp _separatorCnt]. rewrite Hf.
           split; [done|]. split.
           ++ exists (pre ++ x). split; [by rewrite Eo2, Ex, app_assoc|]. intros. eapply Hx; eauto. lia.
           ++ intros E1. assert (E0 : _separatorCnt m = 0) by lia. rewrite E0, eomMatch_one in Em by done.
              rewrite A1, Gd. apply not_elem_drop_snoc; [by apply Hone|].
              destruct (Z.eqb_spec c (sepAt p 0)); [done|congruence].
        -- cbn [m_buf with_cnt advance with_osamp]. by rewrite G2.
        -- rewrite A1, Gd, <- app_assoc. exact Hs.
        -- intros _. rewrite A1, Gd, zlen_app, zlen_cons, zlen_nil. lia.
      * destruct (base_append outs steady o2 (advance 1 (with_osamp m1 (Some o2))) (nterm p) Hb3 eq_refl)
          as (o3 & -> & B1 & B2 & B3 & B4 & _ & Hb4);
          [rewrite A1, zlen_app, zlen_cons, zlen_nil, A2; lia|].
        unfold ship, _outSampRead.
        destruct (Z.ltb_spec (o_alloc o3) (zlen (o_data o3))) as [Hlt|_].
        { pose proof (ba_room _ _ _ Hb4 o3 eq_refl). lia. }
        match goal with |- context [adjustAlloc ?n ?m] =>
          pose proof (adjustAlloc_same n m) as (J1 & J2 & J3 & J4 & J5 & J6 & J7);
          pose proof (adjustAlloc_range n m) as Jr; set (mj := adjustAlloc n m) in * end.
        cbn [m_osamp m_buf m_times m_freed m_requests _sampleLengthAlloc countSample with_osamp
             with_cnt advance] in J1, J2, J4, J5, J6, Jr.
        eexists _, _. split; [reflexivity|]. split; [by unfold osamp_wf; rewrite J1|].
        split; [by intros [=]%(eq_trans (eq_sym Hf))|]. cbn [r_overflow r_data]. split.
        -- eapply (base_return _ _ o3); try exact Hb4; try done.
           ++ rewrite J2, G2. exact U3.
           ++ apply Jr; [apply Hb4|auto with nidas].
        -- exists (pre ++ sep). unfold terminator, message_shape. rewrite Hf. split; [|split; [|split; [|done]]].
           ++ by rewrite B1, Eo2, Hm.
           ++ exists pre. split; [done|]. split.
              ** rewrite <- (app_nil_r pre). apply (Hx [] sepLen); [done|done| |lia].
                 rewrite Hm. unfold _separatorLen, zlen. by rewrite Nat2Z.id, take_ge.
              ** intros E1. assert (E0 : _separatorCnt m = 0) by lia. rewrite E0 in Epre.
                 cbn in Epre. rewrite app_nil_r in Epre. rewrite <- Epre. by apply Hone.
           ++ rewrite Hs, Epre. unfold pending. rewrite J1, J2, G2.
              change (unread (with_stats ?b _)) with (unread b). rewrite <- U1.
              rewrite <- !app_assoc. f_equal. cbn [app].
              rewrite <- Hm at 2. by rewrite <- app_assoc.
    + intros m' r Hov. pose proof (base_overflowed outs steady _ _ _ _ _ Hb Ho Hov) as Hb'.
      destruct Hov as (Hmax & -> & ->). eexists _, _. split; [reflexivity|].
      split; [done|]. split; [by intros [=]%(eq_trans (eq_sym Hf))|]. split; [done|].
      cbn [r_overflow r_data]. exists (o_data o), []. cbn [m_buf].
      change (unread (with_stats ?b _)) with (unread b). rewrite Hu. split; [done|]. split; [done|].
      split; [apply prefix_nil|]. split; [|done].
      pose proof (po_len Hp). unfold nterm in *. destruct (m_nullTerminate p); cbn in *;
        rewrite ?zlen_cons, ?zlen_nil in *; lia.
Qed.

Lemma eom_scan_ok (Hp : params_ok) (Hf : _nextSampleFunc p = SepEOM) m0 outs steady o m :
  base outs steady m -> m_osamp m = Some o -> osamp_wf m ->
  call_post outs steady m0 (o_data o ++ unread (m_buf m)) (eom_scan p o m).
Proof.
  intros Hb Ho Hw. unfold eom_scan. pose proof (zlen_nonneg (o_data o)) as Hd0.
  pose proof (po_max Hp) as Hmax. pose proof (zlen_nonneg sep) as Hs0. unfold _separatorLen in Hmax.
  apply copyBlock_spec with (outs := outs) (steady := steady); [done | done | unfold _outSampRead; lia | |].
  - intros o' m' c Hb' Ho' Ed Eu Ec Ecnt Ea _ _.
    assert (Hlen : unread (m_buf m') <> [] -> msgLen <= zlen (o_data o')).
    { intros Hne. rewrite Ed, zlen_app, Ec. pose proof (f_equal zlen Eu) as El.
      rewrite zlen_app, unread_len, Ec in El by apply Hb. unfold _outSampRead in *.
      assert (0 < zlen (unread (m_buf m'))); [|lia].
      destruct (unread (m_buf m')); [done|]. rewrite zlen_cons. auto with nidas.
      pose proof (zlen_nonneg l). lia. }
    apply eom_loop_ok; try done.
    + unfold osamp_wf in *. rewrite Ho, Hf in Hw. rewrite Ho', Hf, Ecnt.
      destruct Hw as (H1 & (pre & H2 & H3) & H4). split; [done|].
      destruct (Z.le_gt_cases (msgLen - zlen (o_data o)) 0) as [Hle|Hgt].
      * assert (c = []) as -> by (apply zlen_0_nil; unfold _outSampRead in Ec; lia).
        rewrite Ed, app_nil_r. split; [by exists pre|done].
      * assert (_separatorCnt m = 0) as E0.
        { destruct (Z.eq_dec (_separatorCnt m) 0) as [|Hne]; [done|].
          specialize (H3 ltac:(lia)). rewrite H2, zlen_app in Hgt.
          pose proof (zlen_nonneg (take (Z.to_nat (_separatorCnt m)) sep)). lia. }
        rewrite E0. split; [exists (o_data o'); cbn; by rewrite app_nil_r|].
        intros _. rewrite drop_ge; [intros Hin; inversion Hin|].
        rewrite Ed. unfold _outSampRead, zlen in *. rewrite length_app. lia.
    + by rewrite Ed, <- app_assoc, <- Eu.
  - intros nc' m' r Hnc Hov. pose proof (base_overflowed outs steady _ _ _ _ _ Hb Ho Hov) as Hb'.
    destruct Hov as (Hov & -> & ->). eexists _, _. split; [reflexivity|]. split; [done|].
    split; [by intros [=]%(eq_trans (eq_sym Hf))|]. split; [done|]. cbn [r_overflow r_data].
    exists (o_data o), []. split; [done|]. split; [done|]. split; [apply prefix_nil|].
    split; [|done]. unfold _outSampRead, _separatorLen in *. lia.
Qed.

Lemma nextSampleSepEOM_ok (Hp : params_ok) (Hf : _nextSampleFunc p = SepEOM) outs steady m :
  base outs steady m -> osamp_wf m ->
  call_post outs steady m (pending m ++ unread (m_buf m)) (nextSampleSepEOM p m).
Proof.
  intros Hb Hw. unfold nextSampleSepEOM. destruct (m_osamp m) as [o|] eqn:Ho.
  - unfold pending. rewrite Ho, Hf, app_nil_r. by apply eom_scan_ok.
  - destruct (Z.eqb_spec (getBytesInBuffer (m_buf m)) 0) as [Hz|Hz].
    + exists m, None. rewrite unread_nil by (done || apply Hb). unfold pending. rewrite Ho.
      split_and!; try done; by rewrite ?Hf; intros [=]%(eq_trans (eq_sym Hf)).
    + destruct (startSample_spec outs steady m Hb Ho) as (o & So & Sd & Sb & Sbuf & Sc & _).
      rewrite So. unfold pending. rewrite Ho. cbn [app]. rewrite <- Sbuf.
      replace (unread (m_buf (startSample p m))) with (o_data o ++ unread (m_buf (startSample p m)))
        by (by rewrite Sd).
      apply eom_scan_ok; try done. unfold osamp_wf. rewrite So, Hf, Sc, Sd.
      pose proof (po_func Hp) as Hsep. rewrite Hf in Hsep. split; [lia|].
      split; [by exists []|]. intros _. rewrite drop_nil. intros Hin. inversion Hin.
Qed.

(** *** nextSampleByLength *)

Lemma bylength_scan_ok (Hp : params_ok) (Hf : _nextSampleFunc p = ByLength) m0 outs steady o m :
  buf_wf (m_buf m) -> 0 <= _sampleLengthAlloc m <= MAX + 1 ->
  zlen (o_data o) < msgLen -> zlen (o_data o) <= o_alloc o -> handles_ok outs m ->
  (steady = true -> past_tags outs m) -> m_osamp m = Some o ->
  (o_data o <> [] -> base outs steady m) ->
  call_post outs steady m0 (o_data o ++ unread (m_buf m)) (bylength_scan p o m).
Proof.
  intros Hbuf Ha Hlen Hroom Hh Hpast Ho Hbase. unfold bylength_scan.
  pose proof (po_max Hp) as Hmax. pose proof (zlen_nonneg sep) as Hs0. unfold _separatorLen in Hmax.
  pose proof (zlen_nonneg (o_data o)) as Hd0.
  assert (Hgo : forall o1 m1, base outs steady m1 -> m_osamp m1 = Some o1 ->
    o_data o1 = o_data o -> m_buf m1 = m_buf m ->
    call_post outs steady m0 (o_data o ++ unread (m_buf m))
      (copyBlock p (msgLen - _outSampRead o1) o1 m1 (fun o m =>
         if _outSampRead o =? msgLen then
           inr (countSample (_outSampRead o) (with_osamp m None),
                Some (mkReturned (o_handle o) (o_tt o) (o_len o) (o_data o) false))
         else inr (m, None)))).
  { intros o1 m1 Hb1 Ho1 Ed1 Em1.
    apply copyBlock_spec with (outs := outs) (steady := steady);
      [done | done | unfold _outSampRead; rewrite Ed1; lia | |].
    - intros o' m' c Hb' Ho' Ed Eu Ec _ _ _ _. unfold _outSampRead in *.
      pose proof (f_equal zlen Eu) as El. rewrite zlen_app, unread_len in El by apply Hb1.
      pose proof (zlen_nonneg (unread (m_buf m'))).
      assert (Ez : zlen (o_data o') = zlen (o_data o) + zlen c) by (by rewrite Ed, Ed1, zlen_app).
      destruct (Z.eqb_spec (zlen (o_data o')) msgLen) as [E|E].
      + eexists _, _. split; [reflexivity|]. split; [done|].
        split; [by intros [=]%(eq_trans (eq_sym Hf))|]. cbn [r_overflow r_data]. split.
        * eapply base_return; try done; apply Hb'.
        * exists (o_data o'). unfold terminator, message_shape, pending. rewrite Hf, app_nil_r.
          split; [done|]. split; [done|]. cbn [m_osamp m_buf countSample with_osamp app].
          change (unread (with_stats ?b _)) with (unread b). rewrite Ed, Ed1, <- app_assoc.
          split; [by rewrite <- Eu, Em1|done].
      + rewrite Ed1 in Ec. assert (Hnil : unread (m_buf m') = []) by (apply zlen_0_nil; lia).
        exists m', None. split; [done|]. unfold osamp_wf, pending. rewrite Ho', Hf. split; [lia|].
        split; [by intros [=]%(eq_trans (eq_sym Hf))|]. split; [done|]. split; [done|].
        split; [|done]. rewrite app_nil_r, <- Em1, Eu, Hnil, app_nil_r. by rewrite Ed, Ed1.
    - intros nc' m' r Hnc Hov. pose proof (base_overflowed outs steady _ _ _ _ _ Hb1 Ho1 Hov) as Hb'.
      destruct Hov as (Hov & -> & ->). eexists _, _. split; [reflexivity|]. split; [done|].
      split; [by intros [=]%(eq_trans (eq_sym Hf))|]. split; [done|]. cbn [r_overflow r_data].
      exists (o_data o1), []. cbn [m_buf]. rewrite Em1, Ed1. split; [done|]. split; [done|].
      split; [apply prefix_nil|]. unfold _outSampRead, _separatorLen in *. rewrite Ed1 in *. split; [lia|done]. }
  unfold _outSampRead at 1. destruct (Z.eqb_spec (zlen (o_data o)) 0) as [Hz|Hz].
  - destruct (nextTimeTag (charTime p m) (m_times m)) as [ttag t] eqn:Et.
    apply Hgo; [|reflexivity..]. eapply (base_tagged outs steady m _ (mkOutSample _ ttag _ _ _) _ ttag t); try done.
    unfold handles_ok, osamp_handle in *. by rewrite Ho in Hh.
  - apply Hgo; try done. apply Hbase. intros E. rewrite E in Hz. done.
Qed.

Lemma nextSampleByLength_ok (Hp : params_ok) (Hf : _nextSampleFunc p = ByLength) outs steady m :
  base outs steady m -> osamp_wf m ->
  call_post outs steady m (pending m ++ unread (m_buf m)) (nextSampleByLength p m).
Proof.
  intros Hb Hw. unfold nextSampleByLength, pending. pose proof (po_func Hp) as Hl. rewrite Hf in Hl.
  destruct (m_osamp m) as [o|] eqn:Ho.
  - unfold osamp_wf in Hw. rewrite Ho, Hf in Hw. rewrite Hf, app_nil_r.
    apply bylength_scan_ok; try done; try apply Hb; [done | by apply base_past].
  - cbn [m_osamp with_cnt getOutSample]. pose proof (ba_alloc _ _ _ Hb) as Ha.
    unfold MAX_MESSAGE_STREAM_SAMPLE_SIZE in Ha.
    pose proof (allocOf_ge (m_requests m) (_sampleLengthAlloc m) ltac:(lia)) as Hge.
    match goal with |- call_post _ _ _ _ (bylength_scan _ ?o ?m') =>
      pose proof (bylength_scan_ok Hp Hf m outs steady o m') as Hok end.
    apply Hok; clear Hok; try done.
    + apply Hb.
    + cbn [o_data]. rewrite zlen_nil. lia.
    + cbn [o_data o_alloc]. rewrite zlen_nil. lia.
    + apply (handles_new outs m (_sampleLengthAlloc m) 0); [apply Hb|done].
    + exact (base_past outs steady m Hb).
Qed.

(** *** nextSampleSepBOM *)

Lemma alloc_wf_mono m m' :
  alloc_wf m -> _sampleLengthAlloc m' = _sampleLengthAlloc m ->
  _nsmallSamples m' = _nsmallSamples m -> _sampleOverflows m' = _sampleOverflows m ->
  (started m = true -> started m' = true) -> alloc_wf m'.
Proof.
  intros Hw E1 E2 E3 Hs Hf. specialize (Hw Hf). rewrite E1, E2, E3.
  destruct (started m); [rewrite Hs by done; done|]. destruct (started m'); intuition lia.
Qed.

Lemma started_true m o : m_osamp m = Some o -> started m = true <-> sep `prefix_of` o_data o.
Proof. intros Ho. unfold started. rewrite Ho. apply bool_decide_eq_true. Qed.

(** After an overflow one more sample may come without a separator. *)
Lemma alloc_wf_overflow nc o m m' r :
  alloc_wf m -> overflowed nc o m m' r -> alloc_wf m'.
Proof.
  intros Hw (_ & _ & ->) Hf. specialize (Hw Hf). cbn. destruct (started m); intuition lia.
Qed.

(** What the scan for the next separator starts from, and keeps. *)
Record bomI (m0 : MsgState) (s : list Z) (outs : list Returned) (steady : bool)
    (o : OutSample) (m : MsgState) : Prop := {
  bi_base : base outs steady m;
  bi_osamp : m_osamp m = Some o;
  bi_cnt : 0 <= _separatorCnt m < sepLen;
  bi_alloc : alloc_wf m;
  bi_over : _sampleOverflows m < 99;
  bi_stream : s = o_data o ++ take (Z.to_nat (_separatorCnt m)) sep ++ unread (m_buf m);
  bi_start : started m0 = true -> sep `prefix_of` o_data o
}.

Lemma bom_overflow (Hp : params_ok) (Hf : _nextSampleFunc p = SepBOM) m0 s outs steady nc o m m' r lost :
  base outs steady m -> m_osamp m = Some o -> alloc_wf m -> overflowed nc o m m' r ->
  s = o_data o ++ lost ++ unread (m_buf m) -> lost `prefix_of` sep -> nc <= msgLen + sepLen + 1 ->
  call_post outs steady m0 s (inr (m', Some r)).
Proof.
  intros Hb Ho Ha Hov Hs Hl Hnc. pose proof (base_overflowed outs steady _ _ _ _ _ Hb Ho Hov) as Hb'.
  pose proof (alloc_wf_overflow _ _ _ _ _ Ha Hov) as Ha'.
  destruct Hov as (Hov & -> & ->). eexists _, _. split; [reflexivity|]. split; [done|].
  split; [done|]. split; [done|]. cbn [r_overflow r_data]. exists (o_data o), lost.
  split; [done|]. split; [done|]. split; [done|]. split; [lia|]. split; [done|]. by rewrite Hf.
Qed.

Lemma bom_block_ok (Hp : params_ok) (Hf : _nextSampleFunc p = SepBOM) m0 s outs steady o m k :
  base outs steady m -> m_osamp m = Some o -> osamp_wf m -> alloc_wf m ->
  _sampleOverflows m < 99 -> s = pending m ++ unread (m_buf m) ->
  (started m0 = true -> sep `prefix_of` o_data o) ->
  (forall o' m', bomI m0 s outs steady o' m' ->
     (length (unread (m_buf m')) <= length (unread (m_buf m)))%nat ->
     (_separatorCnt m = sepLen -> _separatorCnt m' = 0) ->
     (_separatorCnt m <> sepLen -> o' = o /\ m' = m) ->
     call_post outs steady m0 s (k o' m')) ->
  call_post outs steady m0 s (bom_block p o m k).
Proof.
  intros Hb Ho Hw Ha Hov Hs Hst Hk. pose proof (po_func Hp) as Hsep. rewrite Hf in Hsep.
  unfold osamp_wf in Hw. rewrite Ho, Hf in Hw. destruct Hw as [Hc Hpre].
  unfold pending in Hs. rewrite Ho, Hf in Hs. unfold bom_block.
  destruct (Z.eqb_spec (_separatorCnt m) sepLen) as [Ec|Ec].
  - specialize (Hpre Ec). rewrite app_nil_r in Hs.
    assert (Hge : sepLen <= zlen (o_data o)) by (apply prefix_length in Hpre; unfold _separatorLen, zlen; lia).
    pose proof (po_max Hp) as Hmax. pose proof (zlen_nonneg (o_data o)).
    apply copyBlock_spec with (outs := outs) (steady := steady); [done | done | unfold _outSampRead; lia | |].
    + intros o' m' c Hb' Ho' Ed Eu Elc Ecnt E1 E2 E3.
      assert (Hpre' : sep `prefix_of` o_data o') by (rewrite Ed; by apply prefix_app_r).
      assert (Ha' : alloc_wf m').
      { eapply alloc_wf_mono; try done. intros _. by apply (started_true m' o'). }
      assert (Hs' : s = o_data o' ++ unread (m_buf m')) by (by rewrite Hs, Eu, Ed, app_assoc).
      destruct (_ && _) eqn:Eret.
      * apply andb_true_iff in Eret as [_ Hz%Z.eqb_eq].
        assert (Hu : unread (m_buf m') = []) by (apply unread_nil; [apply Hb'|done]).
        exists m', None. split; [done|]. unfold osamp_wf, pending. rewrite Ho', Hf, Ecnt, Ec.
        split; [split; [lia|done]|]. split; [done|]. split; [done|]. split; [done|].
        rewrite Z.eqb_refl. rewrite Hu in Hs'. split; [by rewrite Hs'|].
        intros _ _. by apply (started_true m' o').
      * apply Hk.
        -- split; try done.
           ++ by apply base_cnt.
           ++ cbn. lia.
        -- cbn [m_buf with_cnt]. rewrite Eu, length_app. lia.
        -- done.
        -- done.
    + intros nc' m' r Hnc Hov'. eapply (bom_overflow Hp Hf _ _ _ _ _ _ _ _ _ []); try done;
        [apply prefix_nil|]. unfold _outSampRead in *. lia.
  - apply Hk; try done. split; try done; [lia|]. by rewrite Hs, <- app_assoc.
Qed.

(** The next request after a sample of [n] bytes has room for a separator. *)
Lemma adjustAlloc_bom (Hp : params_ok) (Hf : _nextSampleFunc p = SepBOM) m n :
  alloc_wf m -> _sampleOverflows m < 99 -> (started m = true -> sepLen <= n) ->
  let m' := adjustAlloc n m in
  sepLen <= _sampleLengthAlloc m' /\ 0 <= _nsmallSamples m' <= 100 /\
  (_nsmallSamples m' <= _sampleOverflows m + 1 \/ sepLen < _sampleLengthAlloc m' - 64).
Proof.
  intros Ha Hov Hst. specialize (Ha Hf). destruct Ha as (A1 & A2 & A3 & A4).
  pose proof (po_max Hp). pose proof (po_len Hp). unfold adjustAlloc.
  destruct (Z.ltb_spec (_sampleLengthAlloc m) n); cbn [_sampleLengthAlloc _nsmallSamples]; [lia|].
  destruct (Z.ltb_spec 64 (_sampleLengthAlloc m)); cbn [andb]; [|cbn; lia].
  destruct (Z.ltb_spec n (_sampleLengthAlloc m - 64)); [|cbn; lia].
  destruct (Z.ltb_spec 100 (_nsmallSamples m + 1)); cbn [_sampleLengthAlloc _nsmallSamples];
    destruct (started m); try specialize (Hst eq_refl); lia.
Qed.

Lemma bom_ship_ok (Hp : params_ok) (Hf : _nextSampleFunc p = SepBOM) outs steady o m :
  base outs steady m -> m_osamp m = Some o -> alloc_wf m -> _sampleOverflows m < 99 ->
  zlen (o_data o) + zlen (nterm p) <= o_alloc o ->
  exists r o3 m3, bom_ship p o m = inr (Some r, o3, m3) /\
    r_data r = o_data o ++ nterm p /\ r_overflow r = false /\
    m_osamp m3 = Some o3 /\ sepLen <= o_alloc o3 /\
    handles_ok (outs ++ [r]) m3 /\ (steady = true -> past_tags (outs ++ [r]) m3) /\
    buf_wf (m_buf m3) /\ unread (m_buf m3) = unread (m_buf m) /\
    0 <= _sampleLengthAlloc m3 <= MAX + 1 /\ sepLen <= _sampleLengthAlloc m3 /\
    0 <= _nsmallSamples m3 <= 100 /\ 0 <= _sampleOverflows m3 /\
    (_nsmallSamples m3 <= _sampleOverflows m3 + 1 \/ sepLen < _sampleLengthAlloc m3 - 64).
Proof.
  intros Hb Ho Ha Hov Hroom. unfold bom_ship.
  destruct (base_append outs steady o m (nterm p) Hb Ho Hroom)
    as (o1 & -> & B1 & B2 & B3 & B4 & _ & Hb1).
  unfold ship, _outSampRead.
  destruct (Z.ltb_spec (o_alloc o1) (zlen (o_data o1))) as [Hlt|_].
  { pose proof (ba_room _ _ _ Hb1 o1 eq_refl). lia. }
  cbv beta iota. set (m1 := countSample _ (with_osamp m None)). set (n := zlen (o_data o1)).
  pose proof (adjustAlloc_same n m1) as (J1 & J2 & J3 & J4 & J5 & J6 & J7).
  assert (Ha1 : let m' := adjustAlloc n m1 in sepLen <= _sampleLengthAlloc m' /\ 0 <= _nsmallSamples m' <= 100 /\
    (_nsmallSamples m' <= _sampleOverflows m + 1 \/ sepLen < _sampleLengthAlloc m' - 64)).
  { assert (Hn : started m = true -> sepLen <= n).
    { intros Hst. apply (started_true m o Ho) in Hst. apply prefix_length in Hst.
      unfold n. rewrite B1, zlen_app. pose proof (zlen_nonneg (nterm p)).
      unfold _separatorLen, zlen in *. lia. }
    pose proof (adjustAlloc_bom Hp Hf m n Ha Hov Hn) as Hadj.
    assert (E : forall f : MsgState -> Z, f = _sampleLengthAlloc \/ f = _nsmallSamples ->
              f (adjustAlloc n m1) = f (adjustAlloc n m)).
    { intros f Hf'. unfold adjustAlloc. cbn [_sampleLengthAlloc _nsmallSamples m1 countSample with_osamp].
      destruct (if _sampleLengthAlloc m <? n then _ else _). by destruct Hf' as [->| ->]. }
    cbn zeta in *. rewrite (E _sampleLengthAlloc), (E _nsmallSamples) by auto. exact Hadj. }
  cbn zeta in Ha1.
  pose proof (adjustAlloc_range n m1 (ba_alloc _ _ _ Hb1) (zlen_nonneg _)) as Jr.
  set (m2 := adjustAlloc n m1) in *. unfold MAX_MESSAGE_STREAM_SAMPLE_SIZE in Jr.
  pose proof (allocOf_ge (m_requests m2) (_sampleLengthAlloc m2) ltac:(lia)) as Hge.
  set (r := mkReturned _ _ _ _ _).
  assert (Hb2 : base (outs ++ [r]) steady m2).
  { eapply (base_return outs steady o1 (with_osamp m (Some o1))); try done.
    - rewrite J2. apply (ba_buf _ _ _ Hb). }
  destruct Ha as (_ & _ & Hov0 & _); [done|].
  eexists r, _, _. split; [reflexivity|]. split; [exact B1|]. split; [done|]. split; [done|].
  split; [cbn [o_alloc]; lia|].
  split; [apply (handles_new (outs ++ [r]) m2 _ 0); [apply Hb2 | exact J1]|].
  split; [intros Hs; exact (base_past _ _ m2 Hb2 Hs)|].
  split; [apply Hb2|]. split; [cbn [m_buf getOutSample]; by rewrite J2|].
  split; [exact Jr|]. split; [apply Ha1|]. split; [apply Ha1|].
  cbn [_sampleOverflows getOutSample _nsmallSamples _sampleLengthAlloc]. rewrite J7. split; [exact Hov0|].
  apply Ha1.
Qed.

(** The sample that begins with the separator just found. *)
Lemma bom_begin_ok (Hp : params_ok) (Hf : _nextSampleFunc p = SepBOM) outs steady o m :
  buf_wf (m_buf m) -> 0 <= _sampleLengthAlloc m <= MAX + 1 -> sepLen <= _sampleLengthAlloc m ->
  0 <= _nsmallSamples m <= 100 -> 0 <= _sampleOverflows m ->
  (_nsmallSamples m <= _sampleOverflows m + 1 \/ sepLen < _sampleLengthAlloc m - 64) ->
  sepLen <= o_alloc o -> handles_ok outs m -> m_osamp m = Some o ->
  (steady = true -> past_tags outs m) -> _separatorCnt m = sepLen ->
  exists o' m', bom_begin p o m = inr (o', m') /\ base outs steady m' /\ m_osamp m' = Some o' /\
    o_data o' = sep /\ osamp_wf m' /\ alloc_wf m' /\ m_buf m' = m_buf m /\
    _separatorCnt m' = sepLen /\ _sampleOverflows m' = _sampleOverflows m.
Proof.
  intros H1 H2 H3 H4 H5 H6 H7 H8 H9 H10 H11. unfold bom_begin.
  pose proof (zlen_nonneg sep) as Hs0.
  destruct (nextTimeTag (_bomtt (m_times m)) (m_times m)) as [ttag t] eqn:Et.
  destruct (Z.ltb_spec (o_alloc o) sepLen); [lia|].
  eexists _, _. split; [reflexivity|]. split.
  { eapply (base_tagged outs steady m _ (mkOutSample _ ttag _ _ _) _ ttag t); try done.
    unfold handles_ok, osamp_handle in *. by rewrite H9 in H8. }
  split; [done|]. split; [done|]. split.
  { unfold osamp_wf. cbn. rewrite Hf, H11. unfold _separatorLen. split; [lia|done]. }
  split; [|done]. intros _. unfold started. cbn. rewrite bool_decide_true by done. done.
Qed.

Lemma after_begin o' m' rest :
  m_osamp m' = Some o' -> o_data o' = sep -> _separatorCnt m' = sepLen -> _nextSampleFunc p = SepBOM ->
  pending m' ++ rest = sep ++ rest.
Proof. intros E1 E2 E3 Hf. unfold pending. by rewrite E1, Hf, E2, E3, Z.eqb_refl, app_nil_r. Qed.

(** A character that completes the separator. *)
Lemma sep_complete c cnt : 0 <= cnt -> c = sepAt p cnt -> cnt + 1 = sepLen ->
  take (Z.to_nat cnt) sep ++ [c] = sep.
Proof.
  intros H0 -> E. rewrite take_sep_S by lia. rewrite E. unfold _separatorLen, zlen.
  by rewrite Nat2Z.id, take_ge.
Qed.

Lemma bomI_grown m0 s outs steady o m o' m' :
  bomI m0 s outs steady o m -> grown o m o' m' -> zlen (o_data o) <= o_alloc o' ->
  bomI m0 s outs steady o' m'.
Proof.
  intros [Hb Ho Hc Ha Hov Hs Hst] Hg Hr.
  pose proof (grown_same _ _ _ _ Hg Ho) as (G1 & G2 & G3 & _ & G5 & G6 & G7).
  pose proof (grown_data _ _ _ _ Hg) as Gd. split; try done.
  - eapply base_grown; eauto. by rewrite Gd.
  - by rewrite G3.
  - eapply alloc_wf_mono; try done. rewrite (started_true m o), (started_true m' o') by done. by rewrite Gd.
  - by rewrite G7.
  - by rewrite Gd, G2, G3.
  - by rewrite Gd.
Qed.

(** Iterations left: every one consumes a character or shortens the match. *)
Definition bom_measure (m : MsgState) : nat :=
  2 * length (unread (m_buf m)) + Z.to_nat (_separatorCnt m).

Lemma unread_advance1 (b : ScanBuf) c rest :
  buf_wf b -> unread b = c :: rest ->
  unread (with_tail b (_buftail b + 1)) = rest /\ 1 <= getBytesInBuffer b.
Proof.
  intros Hb Hu. pose proof (unread_len b Hb) as Hl. rewrite Hu, zlen_cons in Hl.
  pose proof (zlen_nonneg rest). destruct (take_split_unread b 1 Hb) as (U & _); [lia|].
  rewrite Hu in U. injection U as U. split; [done|lia].
Qed.

Lemma bom_loop_ok (Hp : params_ok) (Hf : _nextSampleFunc p = SepBOM) m0 s outs steady fuel : forall o m,
  bomI m0 s outs steady o m -> (bom_measure m < fuel)%nat ->
  call_post outs steady m0 s (bom_loop p fuel o m).
Proof.
  pose proof (po_func Hp) as Hsep. rewrite Hf in Hsep. pose proof (po_null Hp) as Hnull.
  pose proof (po_len Hp) as Hlen0. pose proof (zlen_nonneg (nterm p)) as Hn0.
  induction fuel as [|fuel IH]; intros o m Hi Hm; [lia|]. cbn [bom_loop].
  destruct (unread (m_buf m)) as [|c rest] eqn:Hu.
  - destruct Hi as [Hb Ho Hc Ha Hov Hs Hst]. exists m, None. split; [done|].
    unfold osamp_wf, pending. rewrite Ho, Hf. split; [split; [lia|lia]|]. split; [done|].
    split; [done|]. split; [done|]. destruct (Z.eqb_spec (_separatorCnt m) sepLen); [lia|].
    split; [by rewrite Hs, Hu, app_nil_r|]. intros _ E. apply (started_true m o); [done|by apply Hst].
  - apply ensureRoom_spec; [apply Hi, Hi | lia | |].
    2: { intros m' r Hov'. destruct Hi as [Hb Ho Hc Ha Hov Hs Hst].
         eapply (bom_overflow Hp Hf); try done; [apply prefix_take|].
         unfold nterm in *. destruct (m_nullTerminate p); rewrite ?zlen_cons, ?zlen_nil in *; lia. }
    intros o1 m1 Hg Hroom.
    pose proof (grown_same _ _ _ _ Hg (bi_osamp _ _ _ _ _ _ Hi)) as (_ & G2 & G3 & _).
    pose proof (grown_data _ _ _ _ Hg) as Gd. rewrite <- Gd in Hroom.
    assert (Hi1 : bomI m0 s outs steady o1 m1) by (eapply bomI_grown; eauto; rewrite <- Gd; lia).
    unfold bom_measure in Hm. rewrite <- G2 in Hu, Hm. rewrite <- G3 in Hm. rewrite Hu in Hm. cbn [length] in Hm.
    clear Hi Hg G2 G3 Gd o m. rename o1 into o, m1 into m. rename Hi1 into Hi.
    destruct Hi as [Hb Ho Hc Ha Hov Hs Hst].
    destruct (unread_advance1 _ _ _ (ba_buf _ _ _ Hb) Hu) as [U1 U2]. cbv zeta.
    destruct (Z.eqb_spec c (sepAt p (_separatorCnt m))) as [Ematch|Enomatch].
    + set (m1 := if _separatorCnt m =? 0 then with_bomtt m (charTime p m) else m).
      assert (S1 : m_buf m1 = m_buf m /\ m_osamp m1 = m_osamp m /\ started m1 = started m /\
                _sampleLengthAlloc m1 = _sampleLengthAlloc m /\ _nsmallSamples m1 = _nsmallSamples m /\
                _sampleOverflows m1 = _sampleOverflows m /\ _separatorCnt m1 = _separatorCnt m)
        by (unfold m1; by destruct (_separatorCnt m =? 0)).
      destruct S1 as (S1 & S2 & S3 & S4 & S5 & S6 & S7).
      assert (Hb1 : base outs steady m1).
      { unfold m1. destruct (_separatorCnt m =? 0); [|done]. split; try apply Hb. }
      set (m2 := with_cnt (advance 1 m1) (_separatorCnt m + 1)).
      assert (Hb2 : base outs steady m2) by (apply base_cnt, base_advance; [done|rewrite S1; lia]).
      assert (Hu2 : unread (m_buf m2) = rest) by (cbn [m2 m_buf with_cnt advance]; by rewrite S1).
      assert (Ho2 : m_osamp m2 = Some o) by (cbn [m2 m_osamp with_cnt advance]; by rewrite S2).
      assert (Ha2 : alloc_wf m2) by (eapply (alloc_wf_mono m); try done; change (started m2) with (started m1); by rewrite S3).
      assert (Hov2 : _sampleOverflows m2 < 99) by (change (_sampleOverflows m1 < 99); lia).
      destruct (Z.eqb_spec (_separatorCnt m + 1) sepLen) as [Efull|Enfull].
      * pose proof (sep_complete c _ (proj1 Hc) Ematch Efull) as Hsepc.
        assert (Hs2 : s = o_data o ++ sep ++ rest).
        { rewrite Hs, Hu. f_equal. rewrite <- Hsepc at 2. by rewrite <- app_assoc. }
        assert (Hc2 : _separatorCnt m2 = sepLen) by exact Efull.
        destruct (Z.ltb_spec 0 (_outSampRead o)) as [Hne|He]; unfold _outSampRead in *.
        -- destruct (bom_ship_ok Hp Hf outs steady o m2 Hb2 Ho2 Ha2 Hov2)
             as (r & o3 & m3 & Eship & R1 & R2 & R3 & R4 & R5 & R6 & R7 & R8 & R9 & R10 & R11 & R12 & R13); [lia|].
           rewrite Eship.
           assert (Hc3 : _separatorCnt m3 = sepLen).
           { clear -Eship Hc2. unfold bom_ship, ship in Eship. destruct (append o (nterm p)); [done|].
             destruct (o_alloc o0 <? _outSampRead o0); [done|]. cbn in Eship. injection Eship as _ _ <-.
             cbn. destruct (adjustAlloc_same (_outSampRead o0) (countSample (_outSampRead o0) (with_osamp m2 None)))
               as (_ & _ & -> & _). exact Hc2. }
           destruct (bom_begin_ok Hp Hf (outs ++ [r]) steady o3 m3)
             as (o4 & m4 & -> & B1 & B2 & B3 & B4 & B5 & B6 & B7 & B8); try done.
           exists m4, (Some r). split; [done|]. split; [done|]. split; [done|]. split; [done|].
           rewrite R2. exists (o_data o). unfold terminator, message_shape. rewrite Hf.
           split; [done|]. split.
           ++ split; [|done]. intros E. rewrite E in Hne. done.
           ++ rewrite (after_begin o4 m4) by done. split; [by rewrite B6, R8, Hu2|].
              intros _. apply (started_true m4 o4); [done|by rewrite B3].
        -- assert (Ed : o_data o = []) by (apply zlen_0_nil; pose proof (zlen_nonneg (o_data o)); lia).
           destruct Ha2 as (A1 & A2 & A3 & A4); [done|].
           destruct (bom_begin_ok Hp Hf outs steady o m2) as (o4 & m4 & -> & B1 & B2 & B3 & B4 & B5 & B6 & B7 & B8);
             try done; try apply Hb2.
           { destruct (started m2); lia. }
           { rewrite Ed in Hroom. rewrite zlen_nil in Hroom. lia. }
           { by apply base_past. }
           rewrite Ed in Hs2. cbn [app] in Hs2.
           apply bom_block_ok; try done.
           ++ by rewrite B8.
           ++ rewrite (after_begin o4 m4) by done. by rewrite B6, Hu2.
           ++ by rewrite B3.
           ++ intros o' m' Hi' Hle Hz _. apply IH; [done|]. unfold bom_measure.
              rewrite Hz by done. rewrite B6, Hu2 in Hle. cbn. lia.
      * apply IH.
        -- split; try done.
           ++ change (0 <= _separatorCnt m + 1 < sepLen). lia.
           ++ rewrite Hs, Hu, Hu2. cbn [m2 _separatorCnt with_cnt]. rewrite <- take_sep_S, <- Ematch by lia.
              by rewrite <- !app_assoc.
        -- unfold bom_measure. rewrite Hu2. cbn [m2 _separatorCnt with_cnt]. lia.
    + destruct (Z.ltb_spec 0 (_separatorCnt m)) as [Hpos|Hz].
      * destruct (bomShift_spec (_separatorCnt m)) as [Hn Htake]; [lia|].
        set (n := bomShift p (_separatorCnt m)) in *.
        assert (Hln : zlen (take (Z.to_nat n) sep) = n).
        { unfold _separatorLen, zlen in *. rewrite length_take. lia. }
        destruct (base_append outs steady o m (take (Z.to_nat n) sep) Hb Ho) as (o2 & -> & A1 & A2 & A3 & A4 & _ & Hb2); [lia|].
        apply IH.
        -- split; try done.
           ++ by apply base_cnt.
           ++ cbn. lia.
           ++ eapply (alloc_wf_mono m); try done. rewrite (started_true m o) by done. intros Hpre.
              apply (started_true (with_cnt (with_osamp m (Some o2)) (_separatorCnt m - n)) o2); [done|].
              rewrite A1. by apply prefix_app_r.
           ++ cbn [_separatorCnt with_cnt m_buf with_osamp]. rewrite Hs, A1, Htake. by rewrite <- !app_assoc.
           ++ intros E. rewrite A1. apply prefix_app_r. by apply Hst.
        -- unfold bom_measure. cbn [_separatorCnt with_cnt m_buf with_osamp]. rewrite Hu. cbn [length]. lia.
      * assert (E0 : _separatorCnt m = 0) by lia.
        destruct (base_append outs steady o m [c] Hb Ho) as (o2 & -> & A1 & A2 & A3 & A4 & _ & Hb2);
          [rewrite zlen_cons, zlen_nil; lia|].
        apply IH.
        -- split; try done.
           ++ apply base_advance; [done|]. cbn [m_buf with_osamp]. lia.
           ++ eapply (alloc_wf_mono m); try done. rewrite (started_true m o) by done. intros Hpre.
              apply (started_true (advance 1 (with_osamp m (Some o2))) o2); [done|].
              rewrite A1. by apply prefix_app_r.
           ++ cbn [_separatorCnt m_buf with_osamp advance]. rewrite U1, Hs, A1, Hu, E0. cbn. by rewrite <- app_assoc.
           ++ intros E. rewrite A1. apply prefix_app_r. by apply Hst.
        -- unfold bom_measure. cbn [_separatorCnt m_buf with_osamp advance]. rewrite U1, E0. cbn. lia.
Qed.

Lemma nextSampleSepBOM_ok (Hp : params_ok) (Hf : _nextSampleFunc p = SepBOM) outs steady m :
  base outs steady m -> osamp_wf m -> alloc_wf m -> _sampleOverflows m < 99 ->
  call_post outs steady m (pending m ++ unread (m_buf m)) (nextSampleSepBOM p m).
Proof.
  intros Hb Hw Ha Hov. pose proof (po_func Hp) as Hsep. rewrite Hf in Hsep.
  unfold nextSampleSepBOM, bom_scan. destruct (m_osamp m) as [o|] eqn:Ho.
  - apply bom_block_ok; try done; [by apply started_true|].
    intros o' m' Hi _ _ _. apply bom_loop_ok; try done. unfold bom_fuel, bom_measure. lia.
  - destruct (Z.eqb_spec (getBytesInBuffer (m_buf m)) 0) as [Hz|Hz].
    + exists m, None. rewrite unread_nil by (done || apply Hb). unfold pending. rewrite Ho.
      split_and!; done.
    + destruct (startSample_spec outs steady m Hb Ho) as (o & So & Sd & Sb & Sbuf & Sc & S1 & S2 & S3).
      rewrite So. assert (Hst : started m = false) by (unfold started; by rewrite Ho).
      apply bom_block_ok; try done.
      * unfold osamp_wf. rewrite So, Hf, Sc. split; [lia|]. intros E. rewrite <- E in Hsep. lia.
      * eapply alloc_wf_mono; try done. by rewrite Hst.
      * by rewrite S3.
      * unfold pending. rewrite Ho, So, Hf, Sc, Sd, Sbuf. destruct (Z.eqb_spec 0 sepLen); done.
      * by rewrite Hst.
      * intros o' m' Hi _ _ _. apply bom_loop_ok; try done. unfold bom_fuel, bom_measure. lia.
Qed.

(** *** nextSample *)

Lemma nextSample_ok (Hp : params_ok) outs steady m :
  base outs steady m -> osamp_wf m -> alloc_wf m ->
  (_nextSampleFunc p = SepBOM -> _sampleOverflows m < 99) ->
  call_post outs steady m (pending m ++ unread (m_buf m)) (nextSample p m).
Proof.
  intros Hb Hw Ha Hov. unfold nextSample. destruct (_nextSampleFunc p) eqn:Hf.
  - by apply nextSampleSepEOM_ok.
  - apply nextSampleSepBOM_ok; auto.
  - by apply nextSampleByLength_ok.
Qed.

(** ** Runs of a scanner

    Reads of the device and calls of [nextSample] in any order, with the bytes
    received, the samples returned and whether the system clock was steady. *)
Inductive msg_run : MsgState -> list Z -> list Returned -> bool -> Prop :=
| mr_start bufsize p0 len sepexp eom m :
    0 < bufsize -> 0 <= len -> len + zlen (replaceBackslashSequences sepexp) < 2 ^ 32 ->
    setMessageParameters len sepexp eom p0 (newMsgState bufsize) = Some (p, m) ->
    msg_run m [] [] true
| mr_read m received outs steady now read m' rlen ex :
    msg_run m received outs steady -> read_ok read ->
    msg_readBuffer p now read m = (m', rlen, ex) ->
    msg_run m' (received ++ drop (length (unread (m_buf m))) (unread (m_buf m'))) outs
      (steady && negb (now <? _lastBufferTime (m_times m)))
| mr_next m received outs steady m' r :
    msg_run m received outs steady ->
    (_nextSampleFunc p = SepBOM -> _sampleOverflows m < 99) ->
    nextSample p m = inr (m', r) ->
    msg_run m' received (outs ++ match r with Some r => [r] | None => [] end) steady.

(** The bytes of a returned message, without the terminator. *)
Definition message_body (r : Returned) : list Z :=
  take (Z.to_nat (zlen (r_data r) - zlen terminator)) (r_data r).

(** No byte lost, while no sample has overflowed. *)
Definition stream_ok (m : MsgState) (received : list Z) (outs : list Returned) : Prop :=
  Forall (fun r => r_overflow r = false) outs ->
  received = concat (map message_body outs) ++ pending m ++ unread (m_buf m) /\
  Forall (fun r => r_data r = message_body r ++ terminator) outs /\
  match _nextSampleFunc p with
  | SepEOM => Forall (fun r => message_shape m (message_body r)) outs
  | SepBOM => Forall (fun r => message_body r <> []) outs /\
              Forall (fun r => sep `prefix_of` message_body r) (tail outs) /\
              (outs <> [] -> started m = true)
  | ByLength => Forall (fun r => message_shape m (message_body r)) outs
  end.

Record run_inv (m : MsgState) (received : list Z) (outs : list Returned) (steady : bool) : Prop := {
  ri_base : base outs steady m;
  ri_osamp : osamp_wf m;
  ri_alloc : alloc_wf m;
  ri_stream : stream_ok m received outs
}.

(** A separator at the beginning of messages needs room in the smallest
    sample that is requested. *)
Definition bom_room : Prop := _nextSampleFunc p = SepBOM -> 0 < msgLen \/ sepLen <= 16.

Lemma message_body_app r body : r_data r = body ++ terminator -> message_body r = body.
Proof.
  intros E. unfold message_body. rewrite E, zlen_app.
  replace (zlen body + zlen terminator - zlen terminator) with (zlen body) by lia. apply take_zlen_app.
Qed.

Lemma setMessageParameters_ok bufsize p0 len sepexp eom m :
  0 < bufsize -> 0 <= len -> len + zlen (replaceBackslashSequences sepexp) < 2 ^ 32 ->
  setMessageParameters len sepexp eom p0 (newMsgState bufsize) = Some (p, m) ->
  sep = replaceBackslashSequences sepexp /\ msgLen = len /\ m_osamp m = None /\ m_freed m = [] /\ m_requests m = 0%nat /\
  m_buf m = newScanBuf bufsize /\ _nsmallSamples m = 0 /\ _sampleOverflows m = 0 /\
  m_times m = m_times (newMsgState bufsize) /\ msgLen + sepLen <= MAX /\
  (_sampleLengthAlloc m = if len =? 0 then 16 else len + sepLen + zlen (nterm p)) /\
  (0 < sepLen -> _nextSampleFunc p = if eom then SepEOM else SepBOM) /\
  (sepLen = 0 -> _nextSampleFunc p = ByLength /\ 0 < msgLen).
Proof.
  intros Hb Hl. unfold setMessageParameters.
  generalize (replaceBackslashSequences sepexp). clear sepexp. intros sepexp Hsum. pose proof (zlen_nonneg sepexp).
  rewrite (u32_small (len + zlen sepexp)) by lia.
  destruct (Z.ltb_spec MAX (len + zlen sepexp)) as [|Hmax]; [done|].
  unfold MAX_MESSAGE_STREAM_SAMPLE_SIZE in Hmax. rewrite (s32_small len) by lia.
  destruct (_ && _) eqn:E0; [done|]. rewrite u32_small by (repeat case_match; lia).
  intros [= Ep Em]. unfold _separatorLen, nterm. rewrite <- Ep, <- Em.
  cbn [_separator _messageLength m_osamp m_freed m_requests m_buf _nsmallSamples _sampleOverflows
       m_times _sampleLengthAlloc _nextSampleFunc m_nullTerminate newMsgState].
  split_and!; try done.
  - by destruct (len =? 0); case_match; repeat case_match.
  - intros Hs. by destruct (Z.ltb_spec 0 (zlen sepexp)); [|lia].
  - intros Hs. rewrite Hs in *. split; [done|]. destruct (Z.eqb_spec len 0); [done|lia].
Qed.

Lemma nterm_le1 : zlen (nterm p) <= 1.
Proof. unfold nterm. destruct (m_nullTerminate p); done. Qed.

Lemma run_params m received outs steady :
  msg_run m received outs steady -> sepLen < MAX -> params_ok.
Proof.
  intros Hr Hsep. induction Hr as [bufsize p0 len sepexp eom m Hb Hl Hsum E | |]; [|done|done].
  destruct (setMessageParameters_ok _ _ _ _ _ _ Hb Hl Hsum E)
    as (S1 & S2 & _ & _ & _ & _ & _ & _ & _ & S3 & _ & S4 & S5).
  pose proof nterm_le1. pose proof (zlen_nonneg sep) as Hs0. fold sepLen in Hs0.
  destruct (Z.eq_dec sepLen 0) as [Hz|Hz].
  - destruct (S5 Hz) as [Hf Hm]. split; [lia|lia|lia|]. rewrite Hf. split; [by apply zlen_0_nil|done].
  - split; [lia|lia|lia|]. rewrite S4 by lia. destruct eom; lia.
Qed.

Lemma start_inv bufsize p0 len sepexp eom m :
  bom_room -> 0 < bufsize -> 0 <= len -> len + zlen (replaceBackslashSequences sepexp) < 2 ^ 32 ->
  setMessageParameters len sepexp eom p0 (newMsgState bufsize) = Some (p, m) ->
  run_inv m [] [] true.
Proof.
  intros Hroom Hb Hl Hsum E.
  destruct (setMessageParameters_ok _ _ _ _ _ _ Hb Hl Hsum E)
    as (S1 & S2 & So & Sf & Sr & Sbuf & Sn & Sv & St & S3 & Sa & S4 & S5).
  pose proof nterm_le1. pose proof (zlen_nonneg sep) as Hs0. fold sepLen in Hs0.
  pose proof (zlen_nonneg (nterm p)) as Hn0. unfold MAX_MESSAGE_STREAM_SAMPLE_SIZE in *.
  split.
  - split.
    + rewrite Sbuf. unfold buf_wf, _bufhead. cbn [newScanBuf _buftail _buffer BUFSIZE]. change (zlen (@nil Z)) with 0. lia.
    + rewrite Sa. unfold MAX_MESSAGE_STREAM_SAMPLE_SIZE. destruct (Z.eqb_spec len 0); lia.
    + intros o. by rewrite So.
    + unfold handles_ok, osamp_handle. by rewrite Sf, So, Sr.
    + intros _. unfold tags_ok. rewrite So, St. split_and!; try done; constructor.
  - unfold osamp_wf. by rewrite So.
  - intros Hf. unfold started. rewrite So, Sn, Sv, Sa. specialize (Hroom Hf).
    destruct (Z.eqb_spec len 0); lia.
  - intros _. unfold pending. rewrite So, Sbuf. cbn. split; [done|]. split; [constructor|].
    destruct (_nextSampleFunc p); split_and?; try constructor; done.
Qed.

(** Reading adds bytes and times, nothing else. *)
Lemma read_inv m received outs steady now read m' rlen ex :
  run_inv m received outs steady -> read_ok read ->
  msg_readBuffer p now read m = (m', rlen, ex) ->
  run_inv m' (received ++ drop (length (unread (m_buf m))) (unread (m_buf m'))) outs
    (steady && negb (now <? _lastBufferTime (m_times m))).
Proof.
  intros [Hb Hw Ha Hs] Hr E. unfold msg_readBuffer in E.
  pose proof (readBuffer_spec read (m_buf m) Hr (ba_buf _ _ _ Hb)) as Hread.
  destruct (readBuffer read (m_buf m)) as [[b rl] e]. injection E as <- <- <-.
  destruct Hread as (Hb' & _ & _ & (bytes & Hu & _) & _).
  assert (Hpend : forall t, pending (mkMsgState b (m_osamp m) (_separatorCnt m) t (_sampleLengthAlloc m)
    (_nsmallSamples m) (_sampleOverflows m) (m_requests m) (m_freed m)) = pending m) by done.
  split.
  - split; try apply Hb; [done|]. intros [Hst Hnow]%andb_true_iff.
    destruct (ba_tags _ _ _ Hb Hst) as (T1 & T2 & T3 & T4). unfold tags_ok. cbn.
    apply negb_true_iff in Hnow. split_and!; done.
  - exact Hw.
  - intros Hf. exact (Ha Hf).
  - intros Hov. destruct (Hs Hov) as (E1 & E2 & E3). cbn [m_buf]. rewrite Hpend, Hu, drop_app_length.
    split; [rewrite E1; by rewrite <- !app_assoc|]. split; [done|]. by destruct (_nextSampleFunc p).
Qed.

(** A call of [nextSample] consumes a message, or everything. *)
Lemma next_inv (Hp : params_ok) m received outs steady m' r :
  run_inv m received outs steady -> (_nextSampleFunc p = SepBOM -> _sampleOverflows m < 99) ->
  nextSample p m = inr (m', r) ->
  run_inv m' received (outs ++ match r with Some r => [r] | None => [] end) steady.
Proof.
  intros [Hb Hw Ha Hs] Hov E. destruct (nextSample_ok Hp outs steady m Hb Hw Ha Hov)
    as (m1 & r1 & E1 & Hw1 & Ha1 & Hpost). rewrite E in E1. injection E1 as <- <-.
  destruct r as [r|].
  - destruct Hpost as [Hb1 Hpost]. split; try done. intros Hall.
    apply Forall_app in Hall as [Hall Hr]. rewrite Forall_singleton in Hr. rewrite Hr in Hpost.
    destruct Hpost as (body & R1 & R2 & R3 & R4). destruct (Hs Hall) as (E1 & E2 & E3).
    pose proof (message_body_app r body R1) as Hbody.
    split; [|split].
    + rewrite map_app, concat_app, E1, R3. cbn. by rewrite Hbody, app_nil_r, <- app_assoc.
    + apply Forall_app. split; [done|]. apply Forall_singleton. by rewrite Hbody.
    + unfold message_shape in *. destruct (_nextSampleFunc p).
      * apply Forall_app. split; [done|]. apply Forall_singleton. by rewrite Hbody.
      * destruct E3 as (E3 & E4 & E5), R2 as [R2 R5]. split.
        { apply Forall_app. split; [done|]. apply Forall_singleton. by rewrite Hbody. }
        split; [|intros _; by apply R4]. destruct outs as [|r0 outs]; [constructor|].
        cbn [app tail] in *. apply Forall_app. split; [done|]. apply Forall_singleton.
        rewrite Hbody. apply R5. by apply E5.
      * apply Forall_app. split; [done|]. apply Forall_singleton. by rewrite Hbody.
  - destruct Hpost as (Hb1 & Hu1 & Hp1 & Hst1). rewrite app_nil_r. split; try done.
    intros Hall. destruct (Hs Hall) as (E1 & E2 & E3). rewrite Hu1, Hp1, app_nil_r.
    split; [done|]. split; [done|]. unfold message_shape in *. destruct (_nextSampleFunc p); [done| |done].
    destruct E3 as (E3 & E4 & E5). split; [done|]. split; [done|]. intros Hne. by apply Hst1, E5.
Qed.

Lemma msg_run_inv m received outs steady :
  msg_run m received outs steady -> bom_room -> sepLen < MAX ->
  run_inv m received outs steady.
Proof.
  intros Hr Hroom Hsep. pose proof (run_params _ _ _ _ Hr Hsep) as Hp.
  induction Hr as [bufsize p0 len sepexp eom m Hb Hl E
    | m received outs steady now read m' rlen ex _ IH Hread E
    | m received outs steady m' r _ IH Hov E].
  - eapply start_inv; eauto.
  - eapply read_inv; eauto.
  - eapply next_inv; eauto.
Qed.

End Invariants.

(** ** Properties *)

(** C2: memory safety and totality of the message scanners.  In every state
    reached by reads and calls, whatever the bytes and however the pool
    answers, the next call of [nextSample] returns: no byte is written past
    the allocated end of a sample (or before its start), [setDataLength] does
    not throw, and the loops end.  Every sample taken from the pool is either
    returned, released once, or the one being filled.  The separator is
    shorter than the maximum size of a sample; and for a separator at the
    beginning of messages, the message length is positive or the separator
    has at most 16 bytes, so that it fits the initial request, and fewer than
    99 samples have overflowed: without these a store past the end is
    possible ([bom_separator_overrun]). *)
Theorem scanner_safe `{SampleSource} p m received outs steady :
  msg_run p m received outs steady -> bom_room p ->
  _separatorLen p < MAX_MESSAGE_STREAM_SAMPLE_SIZE ->
  (_nextSampleFunc p = SepBOM -> _sampleOverflows m < 99) ->
  handles_ok outs m /\
  exists m' r, nextSample p m = inr (m', r) /\
    (r = None -> unread (m_buf m') = []) /\
    buf_wf (m_buf m') /\
    (forall o, m_osamp m' = Some o -> zlen (o_data o) <= o_alloc o).
Proof.
  intros Hr Hroom Hsep Hov. pose proof (run_params _ _ _ _ _ Hr Hsep) as Hp.
  destruct (msg_run_inv _ _ _ _ _ Hr Hroom Hsep) as [Hb Hw Ha Hs]. split; [apply Hb|].
  destruct (nextSample_ok p Hp outs steady m Hb Hw Ha Hov) as (m' & r & E & _ & _ & Hpost).
  exists m', r. split; [done|]. destruct r as [r|].
  - destruct Hpost as [Hb' _]. split; [done|]. split; [apply Hb'|apply Hb'].
  - destruct Hpost as (Hb' & Hu & _). split; [done|]. split; [apply Hb'|apply Hb'].
Qed.


(** Time tags.  While the system clock has not been stepped back, the
    samples a scanner returns have strictly increasing time tags, and the one
    being filled is later than all of them. *)
Theorem scanner_time_tags `{SampleSource} p m received outs :
  msg_run p m received outs true -> bom_room p ->
  _separatorLen p < MAX_MESSAGE_STREAM_SAMPLE_SIZE ->
  StronglySorted Z.lt (map r_tt outs) /\
  (forall o, m_osamp m = Some o -> Forall (fun r => r_tt r < o_tt o) outs).
Proof.
  intros Hr Hroom Hsep. destruct (msg_run_inv _ _ _ _ _ Hr Hroom Hsep) as [Hb _ _ _].
  destruct (ba_tags _ _ _ Hb eq_refl) as (_ & T2 & _ & T4). split; [done|].
  intros o Ho. rewrite Ho in T4. destruct T4 as [-> T5]. done.
Qed.

(** ** The pool as a source of samples

    Whatever well-formed state the pool is in at each request (other threads
    use it too), it satisfies the interface. *)
Section PoolSource.
Context (weird : Z) (pools : nat -> @SamplePool Z)
  (pools_wf : forall k, pool_wf CHAR_ST (pools k)).

Definition pool_allocOf (k : nat) (len : Z) : Z :=
  match getSampleP CHAR_ST weird len (pools k) with
  | (inr ptr, pool') =>
      match heap pool' !! ptr with Some smp => getAllocLength (sizeofType CHAR_ST) smp | None => 0 end
  | (inl _, _) => 0
  end.

#[export] Instance poolSource : SampleSource.
Proof.
  refine {| allocOf := pool_allocOf |}. intros k len Hlen. unfold pool_allocOf.
  destruct (getSampleP_ok CHAR_ST weird ltac:(done) len (pools k) (pools_wf k))
    as (ptr & pool' & smp & -> & _ & -> & (_ & _ & Hge) & _); [|exact Hge].
  change (getMaxDataLength (sizeofType CHAR_ST)) with (2 ^ 32 - 1). lia.
Defined.

End PoolSource.

(** ** Concrete scans *)

(** A pool that allocates exactly what is asked for. *)
#[export] Instance exactSource : SampleSource | 100 := {
  allocOf := fun _ len => len;
  allocOf_ge := fun _ len _ => Z.le_refl len
}.

(** Call [nextSample] until it returns null, at most [n] times. *)
Fixpoint drain `{SampleSource} (p : MsgParams) (n : nat) (m : MsgState) :
    scan_error + list Returned * MsgState :=
  match n with
  | O => inr ([], m)
  | S n =>
      match nextSample p m with
      | inl e => inl e
      | inr (m, None) => inr ([], m)
      | inr (m, Some r) =>
          match drain p n m with inl e => inl e | inr (l, m) => inr (r :: l, m) end
      end
  end.

(** Read and scan one chunk of bytes after the other. *)
Fixpoint scan_chunks `{SampleSource} (p : MsgParams) (chunks : list (list Z)) (m : MsgState) :
    scan_error + list (list Z) :=
  match chunks with
  | [] => inr []
  | c :: chunks =>
      match drain p (S (length c)) (fst (fst (msg_readBuffer p 1000 (fun _ => c) m))) with
      | inl e => inl e
      | inr (l, m) =>
          match scan_chunks p chunks m with
          | inl e => inl e
          | inr l' => inr (map r_data l ++ l')
          end
      end
  end.

Definition scan_with (len : Z) (sep : list Z) (eom : bool) (chunks : list (list Z)) :
    option (scan_error + list (list Z)) :=
  match setMessageParameters len sep eom (mkMsgParams [] 0 true false ByLength 0) (newMsgState 64) with
  | None => None
  | Some (p, m) => Some (scan_chunks p chunks m)
  end.

Example scan_lines : scan_with 0 [10] true [[1; 2; 10; 3]; [4; 10; 5]] = Some (inr [[1; 2; 10; 0]; [3; 4; 10; 0]]).
Proof. vm_compute. reflexivity. Qed.

Example scan_repeated : scan_with 0 [1; 1; 2] true [[1; 1; 1; 2; 3; 1; 1; 2]] = Some (inr [[1; 1; 1; 2]; [3; 1; 1; 2]]).
Proof. vm_compute. reflexivity. Qed.

Example scan_bom : scan_with 0 [1; 1; 2] false [[7; 1; 1; 1; 2; 3; 1; 1; 2; 5; 1]; [1; 2]] =
  Some (inr [[7; 1]; [1; 1; 2; 3]; [1; 1; 2; 5]]).
Proof. vm_compute. reflexivity. Qed.

(** A separator of more than 16 characters at the beginning of messages
    of no fixed length overruns a sample: after a few stray characters, the
    sample for the first message is requested with room for 16 bytes, and the
    whole separator is copied into it. *)
Theorem bom_separator_overrun :
  scan_with 0 (replicate 20 1) false [7 :: replicate 20 1] = Some (inl Overrun).
Proof. vm_compute. reflexivity. Qed.

(** The fixed-length part of a message with a separator at its beginning
    is not protected when the buffer ends just after the separator: the same
    bytes are cut differently depending on the read.  In one read the data
    byte equal to the separator is kept inside the message; when the read
    ends after the separator it starts a new message. *)
Theorem bom_length_depends_on_reads :
  scan_with 2 [1] false [[1; 1; 9; 1; 5; 6; 1]] = Some (inr [[1; 1; 9]; [1; 5; 6]]) /\
  scan_with 2 [1] false [[1]; [1; 9; 1; 5; 6; 1]] = Some (inr [[1]; [1; 9; 1; 5; 6]]).
Proof. split; vm_compute; reflexivity. Qed.

(** A separator whose beginning repeats in a way that is neither a
    repeated character nor a doubled sequence is missed when the repetition
    occurs in the data ([xyxz] in [xyxyxz]). *)
Theorem eom_separator_missed :
  scan_with 0 [120; 121; 120; 122] true [[120; 121; 120; 121; 120; 122]] = Some (inr []) /\
  [120; 121; 120; 122] `suffix_of` [120; 121; 120; 121; 120; 122].
Proof. split; [vm_compute; reflexivity|]. by exists [120; 121]. Qed.

(** ** Witnesses *)

Definition witness_params : MsgParams := mkMsgParams [10] 0 true true SepEOM 0.

Lemma witness_run :
  exists m m' r, msg_run witness_params m [1; 2; 10; 3] [] true /\
    nextSample witness_params m = inr (m', Some r) /\ r_data r = [1; 2; 10; 0] /\
    r_overflow r = false /\ msg_run witness_params m' [1; 2; 10; 3] [r] true.
Proof.
  destruct (setMessageParameters 0 [10] true (mkMsgParams [] 0 true false ByLength 0) (newMsgState 64))
    as [[p0 m0]|] eqn:E0; [|done].
  assert (p0 = witness_params) as -> by (vm_compute in E0; by injection E0 as <- _).
  set (read := fun len : Z => take (Z.to_nat len) [1; 2; 10; 3]).
  destruct (msg_readBuffer witness_params 1000 read m0) as [[m1 rlen] ex] eqn:E1.
  assert (H1 : msg_run witness_params m1 [1; 2; 10; 3] [] true).
  { assert (Hr : msg_run witness_params m0 [] [] true) by (eapply mr_start; [| | |exact E0]; done).
    pose proof (mr_read witness_params m0 [] [] true 1000 read m1 rlen ex Hr) as H1.
    vm_compute in E0. injection E0 as <-. vm_compute in E1. injection E1 as <- <- <-.
    apply H1; [|vm_compute; reflexivity]. intros len Hlen. unfold read, zlen. rewrite length_take. lia. }
  destruct (nextSample witness_params m1) as [e|[m2 [r|]]] eqn:E2;
    (vm_compute in E0; injection E0 as <-; vm_compute in E1; injection E1 as <- <- <-;
     vm_compute in E2; try discriminate).
  eexists _, _, _. split; [exact H1|]. split; [vm_compute; reflexivity|]. split; [reflexivity|].
  split; [reflexivity|].
  eapply (mr_next witness_params _ _ [] true _ (Some _)); [exact H1 | done | vm_compute; reflexivity].
Qed.

Lemma scanner_safe_witness :
  exists m, msg_run witness_params m [1; 2; 10; 3] [] true /\
  exists m' r, nextSample witness_params m = inr (m', r).
Proof.
  destruct witness_run as (m & _ & _ & Hr & _).
  destruct (scanner_safe witness_params m [1; 2; 10; 3] [] true Hr ltac:(done) ltac:(done) ltac:(done))
    as (_ & m' & r & E & _).
  exists m. split; [exact Hr|]. exists m', r. exact E.
Defined.


Lemma scanner_time_tags_witness :
  exists r, r_data r = [1; 2; 10; 0] /\ StronglySorted Z.lt (map r_tt [r]).
Proof.
  destruct witness_run as (_ & m & r & _ & _ & Ed & _ & Hr).
  destruct (scanner_time_tags witness_params m [1; 2; 10; 3] [r] Hr ltac:(done) ltac:(done)) as [H _].
  exists r. split; [exact Ed | exact H].
Defined.
