(* ===== verification/SampleSorter.v ===== *)
(** * The sample sorter and its threads.

    [src/src/nidas/core/SampleSorter.cc]: producers call [receive], which
    accounts for the memory of the sample (discarding it, or waiting, when
    the heap limit is reached) and inserts it into a multiset ordered by time
    tag; the sorter's thread ([run]) takes the samples older than the sorter
    length out and distributes them.

    The threads are modelled at the granularity of the locks: an action is
    what a thread does between two points where other threads can act.
    [_sampleSetCond] is held by the sorter's thread in the states [CTop],
    [CHeapCheck] and [CGoWait]; the sections under [_heapCond] are single
    actions.  A signal wakes a thread that is waiting and is lost otherwise.
    [step] is executable; [None] is an action that is not possible. *)

From S2P Require Import Prelude SampleId SampleSets.

(** [getDataByteLength() + getHeaderLength()] *)
Definition sampleSize (s : sample) : Z := s_bytes s + SIZEOF_SAMPLE_HEADER.

#[global] Arguments sampleSize : simpl never.

Fixpoint totalSize (l : list sample) : Z :=
  match l with [] => 0 | s :: l => sampleSize s + totalSize l end.

(** Where the thread of [run] is: at the top of the loop; about to look at
    the heap because no sample is old enough; about to wait; waiting on
    [_sampleSetCond]; woken and about to take its lock; distributing the rest
    of a batch (with the byte count so far); finished. *)
Inductive consumer :=
| CTop | CHeapCheck | CGoWait | CWait | CRelock
| CDist (batch : list sample) (ssum : Z) | CDone.

(** Where a thread in [receive] is: before the section under [_heapCond];
    waiting on [_heapCond]; woken; before the insertion. *)
Inductive producer :=
| PHeap (s : sample) | PWait (s : sample) | PWoken (s : sample) | PInsert (s : sample).

Record Sorter := mkSorter {
  _samples : list sample;
  _sorterLengthUsec : Z;
  _heapMax : Z;
  _heapSize : Z;
  _heapBlock : bool;
  _heapExceeded : bool;
  _discardedSamples : Z;
  _realTimeFutureSamples : Z;
  _earlySamples : Z;
  _doFlush : bool;
  _flushed : bool;
  _realTime : bool;
  _maxSorterLengthUsec : Z;
  _lateSampleCacheSize : Z;
  interrupted : bool;
  cthread : consumer;
  prods : gmap nat producer;
  accepted : list sample;       (** inserted so far *)
  distributed : list sample;    (** passed to [_source.distribute] so far *)
  released : list sample        (** freed when [run] ends *)
}.

(** ** Constructor *)

Definition newSorter (heapBlock realTime : bool) (cache : Z) : Sorter :=
  mkSorter [] 250000 50000000 0 heapBlock false 0 0 0 false true realTime 0 cache false
    CRelock ∅ [] [] [].

Definition setLengthUsec (val : Z) (q : Sorter) : Sorter :=
  mkSorter (_samples q) val (_heapMax q) (_heapSize q) (_heapBlock q) (_heapExceeded q)
    (_discardedSamples q) (_realTimeFutureSamples q) (_earlySamples q) (_doFlush q) (_flushed q)
    (_realTime q) (_maxSorterLengthUsec q) (_lateSampleCacheSize q) (interrupted q)
    (cthread q) (prods q) (accepted q) (distributed q) (released q).

Definition setHeapMax (val : Z) (q : Sorter) : Sorter :=
  mkSorter (_samples q) (_sorterLengthUsec q) val (_heapSize q) (_heapBlock q) (_heapExceeded q)
    (_discardedSamples q) (_realTimeFutureSamples q) (_earlySamples q) (_doFlush q) (_flushed q)
    (_realTime q) (_maxSorterLengthUsec q) (_lateSampleCacheSize q) (interrupted q)
    (cthread q) (prods q) (accepted q) (distributed q) (released q).

(** ** State updates *)

Definition with_cons (q : Sorter) (c : consumer) : Sorter :=
  mkSorter (_samples q) (_sorterLengthUsec q) (_heapMax q) (_heapSize q) (_heapBlock q)
    (_heapExceeded q) (_discardedSamples q) (_realTimeFutureSamples q) (_earlySamples q)
    (_doFlush q) (_flushed q) (_realTime q) (_maxSorterLengthUsec q) (_lateSampleCacheSize q)
    (interrupted q) c (prods q) (accepted q) (distributed q) (released q).

Definition with_prods (q : Sorter) (ps : gmap nat producer) : Sorter :=
  mkSorter (_samples q) (_sorterLengthUsec q) (_heapMax q) (_heapSize q) (_heapBlock q)
    (_heapExceeded q) (_discardedSamples q) (_realTimeFutureSamples q) (_earlySamples q)
    (_doFlush q) (_flushed q) (_realTime q) (_maxSorterLengthUsec q) (_lateSampleCacheSize q)
    (interrupted q) (cthread q) ps (accepted q) (distributed q) (released q).

Definition with_heap (q : Sorter) (max size : Z) (exceeded : bool) : Sorter :=
  mkSorter (_samples q) (_sorterLengthUsec q) max size (_heapBlock q) exceeded
    (_discardedSamples q) (_realTimeFutureSamples q) (_earlySamples q) (_doFlush q) (_flushed q)
    (_realTime q) (_maxSorterLengthUsec q) (_lateSampleCacheSize q) (interrupted q)
    (cthread q) (prods q) (accepted q) (distributed q) (released q).

Definition with_counts (q : Sorter) (discarded future early : Z) : Sorter :=
  mkSorter (_samples q) (_sorterLengthUsec q) (_heapMax q) (_heapSize q) (_heapBlock q)
    (_heapExceeded q) discarded future early (_doFlush q) (_flushed q) (_realTime q)
    (_maxSorterLengthUsec q) (_lateSampleCacheSize q) (interrupted q)
    (cthread q) (prods q) (accepted q) (distributed q) (released q).

Definition with_flush (q : Sorter) (doFlush flushed : bool) : Sorter :=
  mkSorter (_samples q) (_sorterLengthUsec q) (_heapMax q) (_heapSize q) (_heapBlock q)
    (_heapExceeded q) (_discardedSamples q) (_realTimeFutureSamples q) (_earlySamples q)
    doFlush flushed (_realTime q) (_maxSorterLengthUsec q) (_lateSampleCacheSize q)
    (interrupted q) (cthread q) (prods q) (accepted q) (distributed q) (released q).

Definition with_samples (q : Sorter) (l acc dist rel : list sample) : Sorter :=
  mkSorter l (_sorterLengthUsec q) (_heapMax q) (_heapSize q) (_heapBlock q)
    (_heapExceeded q) (_discardedSamples q) (_realTimeFutureSamples q) (_earlySamples q)
    (_doFlush q) (_flushed q) (_realTime q) (_maxSorterLengthUsec q) (_lateSampleCacheSize q)
    (interrupted q) (cthread q) (prods q) acc dist rel.

Definition with_maxlen (q : Sorter) (n : Z) : Sorter :=
  mkSorter (_samples q) (_sorterLengthUsec q) (_heapMax q) (_heapSize q) (_heapBlock q)
    (_heapExceeded q) (_discardedSamples q) (_realTimeFutureSamples q) (_earlySamples q)
    (_doFlush q) (_flushed q) (_realTime q) n (_lateSampleCacheSize q)
    (interrupted q) (cthread q) (prods q) (accepted q) (distributed q) (released q).

Definition with_interrupted (q : Sorter) : Sorter :=
  mkSorter (_samples q) (_sorterLengthUsec q) (_heapMax q) (_heapSize q) (_heapBlock q)
    (_heapExceeded q) (_discardedSamples q) (_realTimeFutureSamples q) (_earlySamples q)
    (_doFlush q) (_flushed q) (_realTime q) (_maxSorterLengthUsec q) (_lateSampleCacheSize q)
    true (cthread q) (prods q) (accepted q) (distributed q) (released q).

(** ** Locks and signals *)

(** [_sampleSetCond] is locked by the thread of [run]. *)
Definition setLocked (q : Sorter) : bool :=
  match cthread q with CTop | CHeapCheck | CGoWait => true | _ => false end.

(** [_sampleSetCond.signal()] *)
Definition signalSet (q : Sorter) : Sorter :=
  match cthread q with CWait => with_cons q CRelock | _ => q end.

Definition is_waiting (pr : producer) : bool := match pr with PWait _ => true | _ => false end.

(** [_heapCond.signal()] wakes one of the waiting threads, [w]; there is no
    choice to make when none is waiting. *)
Definition signalHeap (w : option nat) (q : Sorter) : option Sorter :=
  match w with
  | Some i =>
      match prods q !! i with
      | Some (PWait s) => Some (with_prods q (<[i := PWoken s]> (prods q)))
      | _ => None
      end
  | None => if bool_decide (map_Forall (fun _ pr => is_waiting pr = false) (prods q))
            then Some q else None
  end.

(** ** receive *)

(** A thread calls [receive(s)]: the check against the system clock. *)
Definition receive_enter (i : nat) (s : sample) (systt : Z) (q : Sorter) : option Sorter :=
  match prods q !! i with
  | Some _ => None
  | None =>
      if _realTime q && (systt + USECS_PER_SEC * 2 <? s_tt s)
      then Some (with_counts q (_discardedSamples q) (_realTimeFutureSamples q + 1) (_earlySamples q))
      else Some (with_prods q (<[i := PHeap s]> (prods q)))
  end.

(** [while (_heapSize > _heapMax) { ... _heapCond.wait(); }], up to the wait
    or past the loop. *)
Definition receive_loop (i : nat) (s : sample) (q : Sorter) : Sorter :=
  if _heapMax q <? _heapSize q then
    let q := signalSet (with_heap q (_heapMax q) (_heapSize q) true) in
    with_prods q (<[i := PWait s]> (prods q))
  else
    let q := with_heap q (_heapMax q) (_heapSize q) false in
    with_prods q (<[i := PInsert s]> (prods q)).

(** The section under [_heapCond]. *)
Definition receive_heap (i : nat) (s : sample) (q : Sorter) : Sorter :=
  let slen := sampleSize s in
  if negb (_heapBlock q) then
    if _heapMax q <? _heapSize q + slen then
      let q := with_heap q (_heapMax q) (_heapSize q) true in
      let q := with_counts q (_discardedSamples q + 1) (_realTimeFutureSamples q) (_earlySamples q) in
      with_prods q (delete i (prods q))
    else
      let q := with_heap q (_heapMax q) (_heapSize q + slen) false in
      with_prods q (<[i := PInsert s]> (prods q))
  else receive_loop i s (with_heap q (_heapMax q) (_heapSize q + slen) (_heapExceeded q)).

(** The section under [_sampleSetCond]. *)
Definition receive_insert (i : nat) (s : sample) (q : Sorter) : Sorter :=
  let early := match last (_samples q) with
               | Some latest => s_tt s <? s_tt latest - _sorterLengthUsec q
               | None => false
               end in
  let q := with_counts q (_discardedSamples q) (_realTimeFutureSamples q)
             (if early then _earlySamples q + 1 else _earlySamples q) in
  let q := with_samples q (multiset_insert SampleTimetagComparator s (_samples q))
             (accepted q ++ [s]) (distributed q) (released q) in
  let q := with_flush q (_doFlush q) false in
  with_prods (signalSet q) (delete i (prods q)).

(** ** run *)

(** The samples to take out and those that stay. *)
Definition aged (q : Sorter) : list sample * list sample :=
  if _doFlush q then (_samples q, [])
  else
    match nth_error (_samples q) (length (_samples q) - 1 - Z.to_nat (_lateSampleCacheSize q)) with
    | Some late =>
        lower_bound SampleTimetagComparator
          (mkSample (s_tt late - _sorterLengthUsec q) 0 1 []) (_samples q)
    | None => ([], _samples q)
    end.

(** From the test of [isInterrupted()] to the next point where a lock is
    released or taken. *)
Definition run_top (q : Sorter) : Sorter :=
  if interrupted q then
    let q := with_samples q [] (accepted q) (distributed q) (released q ++ _samples q) in
    with_cons (with_flush q (_doFlush q) true) CDone
  else
    let nsamp := zlen (_samples q) in
    let q := if nsamp =? 0 then with_flush q false true else q in
    if (nsamp <=? _lateSampleCacheSize q) && negb (_doFlush q) then with_cons q CGoWait
    else
      match aged q with
      | ([], _) => with_cons q CHeapCheck
      | (first :: batch, rest) =>
          let q := match last (_samples q) with
                   | Some latest => if _doFlush q then q else
                       with_maxlen q (Z.max (s_tt latest - s_tt first) (_maxSorterLengthUsec q))
                   | None => q
                   end in
          let q := with_samples q rest (accepted q) (distributed q) (released q) in
          with_cons q (CDist (first :: batch) 0)
      end.

(** No sample was old enough: extend the heap when a producer is stopped by
    its limit. *)
Definition run_heapCheck (w : option nat) (q : Sorter) : option Sorter :=
  if _heapExceeded q then
    match signalHeap w (with_heap q (_heapMax q + _heapMax q / 2) (_heapSize q) false) with
    | Some q => Some (with_cons q CGoWait)
    | None => None
    end
  else Some (with_cons q CGoWait).

(** [heapDecrement(bytes)] *)
Definition heapDecrement (bytes : Z) (w : option nat) (q : Sorter) : option Sorter :=
  let size := _heapSize q - bytes in
  if negb (_heapBlock q) then Some (with_heap q (_heapMax q) size (_heapExceeded q))
  else if _heapExceeded q then
    if size <? _heapMax q / 2 then signalHeap w (with_heap q (_heapMax q) size false)
    else Some (with_heap q (_heapMax q) size true)
  else Some (with_heap q (_heapMax q) size (_heapExceeded q)).

(** ** flush, interrupt *)

(** [flush()] up to its wait for [_flushed]. *)
Definition flush (q : Sorter) : Sorter :=
  if _flushed q then q else signalSet (with_flush q true (_flushed q)).

Definition interrupt (q : Sorter) : Sorter := signalSet (with_interrupted q).

(** Its second part, under [_heapCond]. *)
Definition interrupt_heap (w : option nat) (q : Sorter) : option Sorter :=
  let max := if _heapExceeded q || (_heapMax q / 2 <? _heapSize q)
             then _heapMax q + _heapMax q / 2 else _heapMax q in
  signalHeap w (with_heap q max (_heapSize q) (_heapExceeded q)).

(** ** Interleaving *)

Inductive action :=
| Arrive (i : nat) (s : sample) (systt : Z)
| HeapEnter (i : nat) | HeapResume (i : nat) | Insert (i : nat)
| Top | HeapCheck (w : option nat) | GoWait | Relock | Distribute | Decrement (w : option nat)
| Flush | Interrupt | InterruptHeap (w : option nat)
| SpuriousSet | SpuriousHeap (i : nat).

Definition step (a : action) (q : Sorter) : option Sorter :=
  match a with
  | Arrive i s systt => receive_enter i s systt q
  | HeapEnter i =>
      match prods q !! i with Some (PHeap s) => Some (receive_heap i s q) | _ => None end
  | HeapResume i =>
      match prods q !! i with Some (PWoken s) => Some (receive_loop i s q) | _ => None end
  | Insert i =>
      match prods q !! i with
      | Some (PInsert s) => if setLocked q then None else Some (receive_insert i s q)
      | _ => None
      end
  | Top => match cthread q with CTop => Some (run_top q) | _ => None end
  | HeapCheck w => match cthread q with CHeapCheck => run_heapCheck w q | _ => None end
  | GoWait => match cthread q with CGoWait => Some (with_cons q CWait) | _ => None end
  | Relock => match cthread q with CRelock => Some (with_cons q CTop) | _ => None end
  | Distribute =>
      match cthread q with
      | CDist (s :: batch) ssum =>
          Some (with_cons (with_samples q (_samples q) (accepted q) (distributed q ++ [s]) (released q))
                  (CDist batch (ssum + sampleSize s)))
      | _ => None
      end
  | Decrement w =>
      match cthread q with
      | CDist [] ssum =>
          match heapDecrement ssum w q with Some q => Some (with_cons q CRelock) | None => None end
      | _ => None
      end
  | Flush => if setLocked q then None else Some (flush q)
  | Interrupt => if setLocked q then None else Some (interrupt q)
  | InterruptHeap w => interrupt_heap w q
  | SpuriousSet => match cthread q with CWait => Some (with_cons q CRelock) | _ => None end
  | SpuriousHeap i =>
      match prods q !! i with
      | Some (PWait s) => Some (with_prods q (<[i := PWoken s]> (prods q)))
      | _ => None
      end
  end.

(** States reached from [q0] by actions that satisfy [allow]. *)
Inductive reach (allow : action -> bool) (q0 : Sorter) : Sorter -> Prop :=
| reach_start : reach allow q0 q0
| reach_next q a q' : reach allow q0 q -> allow a = true -> step a q = Some q' -> reach allow q0 q'.

Fixpoint run_actions (l : list action) (q : Sorter) : option Sorter :=
  match l with
  | [] => Some q
  | a :: l => match step a q with Some q => run_actions l q | None => None end
  end.

(** ** Invariants *)

Definition batch (q : Sorter) : list sample := match cthread q with CDist b _ => b | _ => [] end.
Definition batchSum (q : Sorter) : Z := match cthread q with CDist b n => totalSize b + n | _ => 0 end.

(** Bytes a producer has added to the heap size and not yet inserted. *)
Definition counted (pr : producer) : Z :=
  match pr with PHeap _ => 0 | PWait s | PWoken s | PInsert s => sampleSize s end.

Definition countedSum (ps : gmap nat producer) : Z := map_fold (fun _ pr n => counted pr + n) 0 ps.

Lemma sampleSize_pos s : 0 < sampleSize s.
Proof. unfold sampleSize, s_bytes, SIZEOF_SAMPLE_HEADER. pose proof (zlen_nonneg (s_data s)). lia. Qed.

Lemma totalSize_nonneg l : 0 <= totalSize l.
Proof. induction l as [|s l IH]; cbn; [lia|]. pose proof (sampleSize_pos s). lia. Qed.

Lemma totalSize_perm l k : l ≡ₚ k -> totalSize l = totalSize k.
Proof. induction 1; cbn; lia. Qed.

Lemma totalSize_app l k : totalSize (l ++ k) = totalSize l + totalSize k.
Proof. induction l as [|s l IH]; cbn; lia. Qed.

Lemma countedSum_insert ps i pr :
  ps !! i = None -> countedSum (<[i := pr]> ps) = counted pr + countedSum ps.
Proof. intros H. unfold countedSum. rewrite map_fold_insert_L; [done | intros; lia | done]. Qed.

Lemma countedSum_delete ps i pr :
  ps !! i = Some pr -> countedSum ps = counted pr + countedSum (delete i ps).
Proof.
  intros H. rewrite <- (countedSum_insert _ i) by apply lookup_delete_eq. by rewrite insert_delete_id.
Qed.

Lemma countedSum_update ps i pr pr' :
  ps !! i = Some pr -> countedSum (<[i := pr']> ps) = countedSum ps - counted pr + counted pr'.
Proof.
  intros H. rewrite <- insert_delete_eq, countedSum_insert by apply lookup_delete_eq.
  rewrite (countedSum_delete ps i pr H). lia.
Qed.

Lemma countedSum_nonneg ps : 0 <= countedSum ps.
Proof.
  unfold countedSum. apply (map_fold_weak_ind (fun r _ => 0 <= r)); [lia|].
  intros i pr m r _ Hr. destruct pr as [s|s|s|s]; cbn; try pose proof (sampleSize_pos s); lia.
Qed.

(** Conservation of samples and of bytes, order, and the meaning of
    [_flushed]. *)
Record sorter_inv (q : Sorter) : Prop := {
  si_conserve : accepted q ≡ₚ distributed q ++ batch q ++ _samples q ++ released q;
  si_order : ascending SampleTimetagComparator (_samples q);
  si_heap : _heapSize q = totalSize (_samples q) + batchSum q + countedSum (prods q) + totalSize (released q);
  si_flushed : _flushed q = true -> _samples q = [] /\ batch q = [];
  si_noblock : _heapBlock q = false ->
    _heapSize q <= _heapMax q /\ forall i pr, prods q !! i = Some pr ->
      match pr with PWait _ | PWoken _ => False | _ => True end;
  si_max : 0 <= _heapMax q;
  si_batch : ascending SampleTimetagComparator (batch q);
  si_sum : totalSize (batch q) <= batchSum q
}.

(** Only the heap variables, the counters and the producers differ. *)
Definition same_queue (q q' : Sorter) : Prop :=
  _samples q' = _samples q /\ accepted q' = accepted q /\ distributed q' = distributed q /\
  released q' = released q /\ _flushed q' = _flushed q /\ _heapBlock q' = _heapBlock q /\
  batch q' = batch q /\ batchSum q' = batchSum q.

Lemma inv_same_queue q q' :
  sorter_inv q -> same_queue q q' ->
  _heapSize q' - _heapSize q = countedSum (prods q') - countedSum (prods q) ->
  (_heapBlock q = false -> _heapSize q' <= _heapMax q' /\
    forall i pr, prods q' !! i = Some pr -> match pr with PWait _ | PWoken _ => False | _ => True end) ->
  0 <= _heapMax q' -> sorter_inv q'.
Proof.
  intros [H1 H2 H3 H4 H5 H6 H7 H8] (E1 & E2 & E3 & E4 & E5 & E6 & E7 & E8) Hs Hb Hm. split.
  - by rewrite E1, E2, E3, E4, E7.
  - by rewrite E1.
  - rewrite E1, E4, E8. lia.
  - by rewrite E5, E1, E7.
  - by rewrite E6.
  - done.
  - by rewrite E7.
  - by rewrite E7, E8.
Qed.

Lemma signalSet_same q : same_queue q (signalSet q) /\ prods (signalSet q) = prods q /\
  _heapSize (signalSet q) = _heapSize q /\ _heapMax (signalSet q) = _heapMax q /\
  _heapExceeded (signalSet q) = _heapExceeded q.
Proof. unfold signalSet, same_queue, batch, batchSum. destruct (cthread q) eqn:E; by rewrite ?E. Qed.

Lemma signalSet_inv q : sorter_inv q -> sorter_inv (signalSet q).
Proof.
  intros H. destruct (signalSet_same q) as (Hq & E1 & E2 & E3 & E4).
  eapply inv_same_queue; eauto; rewrite ?E1, ?E2, ?E3; [lia | apply H | apply H].
Qed.

(** A producer's entry replaced by another of the same weight. *)
Lemma prods_lookup_insert (P : producer -> Prop) (ps : gmap nat producer) i pr :
  (forall j p, ps !! j = Some p -> P p) -> P pr -> forall j p, <[i := pr]> ps !! j = Some p -> P p.
Proof.
  intros H Hp j p. destruct (decide (i = j)) as [->|Hne];
    [rewrite lookup_insert_eq; congruence | rewrite lookup_insert_ne by done; apply H].
Qed.

Lemma prods_lookup_delete (P : producer -> Prop) (ps : gmap nat producer) i :
  (forall j p, ps !! j = Some p -> P p) -> forall j p, delete i ps !! j = Some p -> P p.
Proof. intros H j p [_ Hj]%lookup_delete_Some. by apply (H j). Qed.

Lemma signalHeap_inv w q q' : sorter_inv q -> signalHeap w q = Some q' ->
  sorter_inv q' /\ cthread q' = cthread q /\ same_queue q q'.
Proof.
  intros H E. destruct w as [i|]; cbn in E.
  - destruct (prods q !! i) as [[s|s|s|s]|] eqn:Hi; try done. injection E as <-.
    split; [|done]. eapply inv_same_queue; [exact H | done | | |apply H].
    + cbn. rewrite (countedSum_update _ _ _ _ Hi). cbn. lia.
    + intros Hb. destruct (si_noblock q H Hb) as [_ Hp]. by apply Hp in Hi.
  - case_bool_decide; [|done]. by injection E as <-.
Qed.

Lemma with_heap_inv q max ex : sorter_inv q -> _heapMax q <= max ->
  sorter_inv (with_heap q max (_heapSize q) ex).
Proof.
  intros H Hm. pose proof (si_max q H). eapply inv_same_queue; [exact H|done|cbn;lia| |cbn;lia].
  intros Hb. destruct (si_noblock q H Hb). split; [cbn; lia|done].
Qed.

Lemma aged_split q : fst (aged q) ++ snd (aged q) = _samples q.
Proof.
  unfold aged. destruct (_doFlush q); cbn; [by rewrite app_nil_r|].
  destruct (nth_error _ _); [apply lower_bound_app|done].
Qed.

Lemma receive_enter_inv i s systt q q' :
  sorter_inv q -> receive_enter i s systt q = Some q' -> sorter_inv q'.
Proof.
  intros H E. unfold receive_enter in E. destruct (prods q !! i) eqn:Hi; [done|].
  destruct (_ && _); injection E as <-;
    (eapply inv_same_queue; [exact H | done | | |apply H]; cbn).
  - lia.
  - apply H.
  - rewrite countedSum_insert by done. cbn. lia.
  - intros Hb. destruct (si_noblock q H Hb) as [? Hp]. split; [done|].
    by apply (prods_lookup_insert _ _ _ _ Hp).
Qed.

Lemma receive_loop_inv i s q pr :
  sorter_inv (with_heap q (_heapMax q) (_heapSize q - sampleSize s + counted pr) (_heapExceeded q)) ->
  _heapBlock q = true -> prods q !! i = Some pr -> sorter_inv (receive_loop i s q).
Proof.
  intros H Hb Hi. unfold receive_loop. destruct (_heapMax q <? _heapSize q).
  - destruct (signalSet_same (with_heap q (_heapMax q) (_heapSize q) true)) as (Hq & E1 & E2 & E3 & _).
    set (q1 := signalSet _) in *.
    destruct Hq as (Q1 & Q2 & Q3 & Q4 & Q5 & Q6 & Q7 & Q8).
    eapply inv_same_queue; [exact H | by repeat split | | |]; cbn in *.
    + rewrite E1, E2, (countedSum_update _ _ _ _ Hi). cbn. lia.
    + by rewrite Hb.
    + rewrite E3. apply H.
  - eapply inv_same_queue; [exact H | done | | |apply H]; cbn.
    + rewrite (countedSum_update _ _ _ _ Hi). cbn. lia.
    + by rewrite Hb.
Qed.

Lemma receive_heap_inv i s q :
  sorter_inv q -> prods q !! i = Some (PHeap s) -> sorter_inv (receive_heap i s q).
Proof.
  intros H Hi. unfold receive_heap. destruct (_heapBlock q) eqn:Hb; cbn [negb].
  - eapply (receive_loop_inv _ _ _ (PHeap s)); cbn; try done.
    replace (_heapSize q + sampleSize s - sampleSize s + 0) with (_heapSize q) by lia.
    by destruct q.
  - destruct (si_noblock q H Hb) as [Hle Hp].
    destruct (Z.ltb_spec (_heapMax q) (_heapSize q + sampleSize s));
      (eapply inv_same_queue; [exact H | done | | |apply H]; cbn).
    + rewrite (countedSum_delete _ _ _ Hi). cbn. lia.
    + intros _. split; [done|]. by apply prods_lookup_delete.
    + rewrite (countedSum_update _ _ _ _ Hi). cbn. lia.
    + intros _. split; [lia|]. by apply (prods_lookup_insert _ _ _ _ Hp).
Qed.

Lemma receive_insert_inv i s q :
  sorter_inv q -> prods q !! i = Some (PInsert s) -> sorter_inv (receive_insert i s q).
Proof.
  intros [H1 H2 H3 H4 H5 H6 H7 H8] Hi. unfold receive_insert.
  set (q1 := with_flush _ _ _). destruct (signalSet_same q1) as (Hq & E1 & E2 & E3 & _).
  set (q2 := signalSet q1) in *. destruct Hq as (Q1 & Q2 & Q3 & Q4 & Q5 & Q6 & Q7 & Q8).
  assert (Hperm : multiset_insert SampleTimetagComparator s (_samples q) ≡ₚ s :: _samples q)
    by apply multiset_insert_perm.
  split; cbn [_samples accepted distributed released _flushed _heapBlock _heapSize _heapMax prods with_prods];
    change (batch (with_prods q2 _)) with (batch q2); change (batchSum (with_prods q2 _)) with (batchSum q2);
    rewrite ?Q1, ?Q2, ?Q3, ?Q4, ?Q5, ?Q6, ?Q7, ?Q8, ?E1, ?E2, ?E3;
    change (batch q1) with (batch q); change (batchSum q1) with (batchSum q); cbn.
  - rewrite Hperm, H1. rewrite <- !app_assoc. do 2 apply Permutation_app_head.
    rewrite app_assoc. symmetry. apply Permutation_cons_append.
  - apply multiset_insert_ascending; [apply _|exact H2].
  - rewrite (totalSize_perm _ _ Hperm). cbn. rewrite H3, (countedSum_delete _ _ _ Hi). cbn. lia.
  - done.
  - intros Hb. destruct (H5 Hb) as [? Hp]. split; [done|]. by apply prods_lookup_delete.
  - done.
  - done.
  - done.
Qed.

Lemma run_top_inv q : sorter_inv q -> cthread q = CTop -> sorter_inv (run_top q).
Proof.
  intros H Hc. pose proof H as [H1 H2 H3 H4 H5 H6 H7 _]. unfold batch, batchSum in H1, H3, H4, H7.
  rewrite Hc in H1, H3, H4, H7. unfold run_top. destruct (interrupted q).
  - split; cbn; unfold batch, batchSum; cbn; try done.
    + rewrite H1. cbn. by rewrite (Permutation_app_comm (_samples q)).
    + rewrite totalSize_app. lia.
  - set (q1 := if _ =? 0 then _ else q).
    assert (Hq1 : sorter_inv q1 /\ cthread q1 = CTop /\ _samples q1 = _samples q /\ released q1 = released q /\
      accepted q1 = accepted q /\ distributed q1 = distributed q /\ prods q1 = prods q /\
      _heapSize q1 = _heapSize q /\ _heapMax q1 = _heapMax q /\ _heapBlock q1 = _heapBlock q).
    { unfold q1. destruct (Z.eqb_spec (zlen (_samples q)) 0) as [Hz|]; [|split_and!; done].
      apply zlen_0_nil in Hz. split_and!; try done. split; try apply H.
      intros _. unfold batch; cbn. by rewrite Hc. }
    clearbody q1. destruct Hq1 as (Hi1 & C1 & S1 & S2 & S3 & S4 & S5 & S6 & S7 & S8).
    assert (Hgo : forall c, match c with CDist _ _ => False | _ => True end -> sorter_inv (with_cons q1 c)).
    { intros c Hcc. destruct Hi1 as [G1 G2 G3 G4 G5 G6 G7 G8]. unfold batch, batchSum in *.
      rewrite C1 in *. split; unfold batch, batchSum; cbn; destruct c; try done. }
    destruct (_ && _); [by apply Hgo|].
    pose proof (aged_split q1) as Ha. destruct (aged q1) as [[|first b] rest] eqn:Eaged; [by apply Hgo|].
    cbn [fst snd] in Ha. rewrite S1 in Ha.
    set (q2 := match last (_samples q1) with Some _ => _ | None => _ end).
    assert (Hq2 : _flushed q2 = _flushed q1 /\ released q2 = released q1 /\ accepted q2 = accepted q1 /\
      distributed q2 = distributed q1 /\ prods q2 = prods q1 /\ _heapSize q2 = _heapSize q1 /\
      _heapMax q2 = _heapMax q1 /\ _heapBlock q2 = _heapBlock q1).
    { unfold q2. destruct (last (_samples q1)); [destruct (_doFlush q1)|]; by repeat split. }
    destruct Hq2 as (R1 & R2 & R3 & R4 & R5 & R6 & R7 & R8).
    split; cbn; unfold batch, batchSum; cbn; rewrite ?R1, ?R2, ?R3, ?R4, ?R5, ?R6, ?R7, ?R8, ?S2, ?S3, ?S4, ?S5, ?S6, ?S7, ?S8.
    + rewrite H1, <- Ha. cbn. by rewrite <- app_assoc.
    + rewrite <- Ha in H2. by apply StronglySorted_app_iff in H2 as (_ & H2' & _).
    + rewrite H3, <- Ha. cbn. rewrite totalSize_app. lia.
    + intros Hf. destruct (si_flushed _ Hi1 Hf) as [Hn _]. rewrite S1, <- Ha in Hn. done.
    + done.
    + done.
    + rewrite <- Ha in H2. by apply StronglySorted_app_iff in H2 as (H2' & _).
    + lia.
Qed.

Lemma distribute_inv q s b n :
  sorter_inv q -> cthread q = CDist (s :: b) n ->
  sorter_inv (with_cons (with_samples q (_samples q) (accepted q) (distributed q ++ [s]) (released q))
                (CDist b (n + sampleSize s))).
Proof.
  intros [H1 H2 H3 H4 H5 H6 H7 H8] Hc. unfold batch, batchSum in *. rewrite Hc in *.
  split; cbn; unfold batch, batchSum; cbn; try done.
  - by rewrite H1, <- app_assoc.
  - rewrite H3. cbn. lia.
  - intros Hf. by destruct (H4 Hf).
  - by apply StronglySorted_inv in H7 as [? _].
  - cbn in H8. pose proof (sampleSize_pos s). lia.
Qed.

Lemma decrement_inv q n w q' :
  sorter_inv q -> cthread q = CDist [] n -> heapDecrement n w q = Some q' ->
  sorter_inv (with_cons q' CRelock).
Proof.
  intros H Hc E.
  assert (Hd : forall ex, sorter_inv (with_cons (with_heap q (_heapMax q) (_heapSize q - n) ex) CRelock)).
  { intros ex. destruct H as [H1 H2 H3 H4 H5 H6 H7 H8]. unfold batch, batchSum in *. rewrite Hc in *.
    cbn in H3, H8. split; cbn; unfold batch, batchSum; cbn; try done.
    - rewrite H3. lia.
    - intros Hb. destruct (H5 Hb) as [Hle Hp]. split; [lia|done]. }
  unfold heapDecrement in E. destruct (negb (_heapBlock q)); [by injection E as <-|].
  destruct (_heapExceeded q) eqn:Ex; [|by injection E as <-].
  destruct (_ <? _); [|by injection E as <-].
  destruct w as [i|]; cbn in E.
  - destruct (prods q !! i) as [[s|s|s|s]|] eqn:Hi; try done. injection E as <-.
    eapply (inv_same_queue _ _ (Hd false)); [done | | |apply H]; cbn.
    + rewrite (countedSum_update _ _ _ _ Hi). cbn. lia.
    + intros Hb. destruct (si_noblock q H Hb) as [_ Hp]. by apply Hp in Hi.
  - case_bool_decide; [|done]. injection E as <-. apply Hd.
Qed.

(** The sorter's thread moves between points where it has no batch. *)
Lemma with_cons_inv q c : sorter_inv q -> batch q = [] -> batchSum q = 0 ->
  match c with CDist _ _ => False | _ => True end -> sorter_inv (with_cons q c).
Proof.
  intros H Hb Hs Hc. eapply inv_same_queue; [exact H | | cbn; lia | apply H | apply H].
  repeat split; rewrite ?Hb, ?Hs; unfold batch, batchSum; cbn; by destruct c.
Qed.

Lemma step_inv a q q' : sorter_inv q -> step a q = Some q' -> sorter_inv q'.
Proof.
  intros H E. pose proof (si_max q H) as Hmax.
  destruct a as [i s systt|i|i|i| |w| | | |w| | |w| |i]; cbn in E.
  - by eapply receive_enter_inv.
  - destruct (prods q !! i) as [[s|s|s|s]|] eqn:Hi; try done. injection E as <-. by apply receive_heap_inv.
  - destruct (prods q !! i) as [[s|s|s|s]|] eqn:Hi; try done. injection E as <-.
    destruct (_heapBlock q) eqn:Hb.
    + eapply receive_loop_inv; eauto. cbn.
      replace (_heapSize q - sampleSize s + sampleSize s) with (_heapSize q) by lia. by destruct q.
    + destruct (si_noblock q H Hb) as [_ Hp]. by apply Hp in Hi.
  - destruct (prods q !! i) as [[s|s|s|s]|] eqn:Hi; try done. destruct (setLocked q); [done|].
    injection E as <-. by apply receive_insert_inv.
  - destruct (cthread q) eqn:Hc; try done. injection E as <-. by apply run_top_inv.
  - destruct (cthread q) eqn:Hc; try done. unfold run_heapCheck in E.
    assert (Hb0 : batch q = [] /\ batchSum q = 0) by (unfold batch, batchSum; by rewrite Hc).
    destruct Hb0 as [Hb0 Hs0].
    destruct (_heapExceeded q); [|injection E as <-; by apply with_cons_inv].
    destruct (signalHeap w _) as [q1|] eqn:Es; [|done]. injection E as <-.
    apply signalHeap_inv in Es as (Hi & Hc1 & (_ & _ & _ & _ & _ & _ & B1 & B2)).
    + apply with_cons_inv; try done; [by rewrite B1|by rewrite B2].
    + apply with_heap_inv; [done|]. assert (0 <= _heapMax q / 2) by (apply Z.div_pos; lia). lia.
  - destruct (cthread q) eqn:Hc; try done. injection E as <-.
    apply with_cons_inv; try done; unfold batch, batchSum; by rewrite Hc.
  - destruct (cthread q) eqn:Hc; try done. injection E as <-.
    apply with_cons_inv; try done; unfold batch, batchSum; by rewrite Hc.
  - destruct (cthread q) as [| | | | |[|s b] n|] eqn:Hc; try done. injection E as <-. by apply distribute_inv.
  - destruct (cthread q) as [| | | | |[|s b] n|] eqn:Hc; try done.
    destruct (heapDecrement n w q) as [q1|] eqn:Ed; [|done]. injection E as <-. by eapply decrement_inv.
  - destruct (setLocked q); [done|]. injection E as <-. unfold flush.
    destruct (_flushed q) eqn:Hf; [done|]. apply signalSet_inv.
    eapply inv_same_queue; [exact H | by repeat split | cbn; lia | apply H | apply H].
  - destruct (setLocked q); [done|]. injection E as <-. apply signalSet_inv.
    eapply inv_same_queue; [exact H | by repeat split | cbn; lia | apply H | apply H].
  - unfold interrupt_heap in E. apply signalHeap_inv in E as (Hi & _); [done|].
    apply with_heap_inv; [done|]. assert (0 <= _heapMax q / 2) by (apply Z.div_pos; lia).
    destruct (_ || _); lia.
  - destruct (cthread q) eqn:Hc; try done. injection E as <-.
    apply with_cons_inv; try done; unfold batch, batchSum; by rewrite Hc.
  - destruct (prods q !! i) as [[s|s|s|s]|] eqn:Hi; try done. injection E as <-.
    eapply inv_same_queue; [exact H | by repeat split | | | apply H]; cbn.
    + rewrite (countedSum_update _ _ _ _ Hi). cbn. lia.
    + intros Hb. destruct (si_noblock q H Hb) as [_ Hp]. by apply Hp in Hi.
Qed.

(** ** Order of the output

    Without flushes and interruption, and while no sample arrived earlier
    than the sorter window, what went out is older by more than the sorter
    length than a sample that is still inside. *)

Definition out (q : Sorter) : list sample := distributed q ++ batch q.

Definition time_le (x y : sample) : Prop := s_tt x <= s_tt y.

Record order_inv (q : Sorter) : Prop := {
  oi_flush : _doFlush q = false;
  oi_int : interrupted q = false;
  oi_len : 0 <= _sorterLengthUsec q;
  oi_cache : 0 <= _lateSampleCacheSize q;
  oi_early : 0 <= _earlySamples q;
  oi_order : _earlySamples q = 0 ->
    StronglySorted time_le (out q) /\
    forall d, d ∈ out q ->
      (exists x, x ∈ _samples q /\ s_tt d < s_tt x - _sorterLengthUsec q) /\
      (forall y, y ∈ _samples q -> s_tt d <= s_tt y)
}.

Lemma order_same q q' :
  order_inv q -> _doFlush q' = _doFlush q -> interrupted q' = interrupted q ->
  _sorterLengthUsec q' = _sorterLengthUsec q -> _lateSampleCacheSize q' = _lateSampleCacheSize q ->
  _earlySamples q' = _earlySamples q -> out q' = out q -> _samples q' = _samples q -> order_inv q'.
Proof. intros [H1 H2 H3 H4 H5 H6] E1 E2 E3 E4 E5 E6 E7. split; by rewrite ?E1, ?E2, ?E3, ?E4, ?E5, ?E6, ?E7. Qed.

Lemma signalSet_order q : order_inv q -> order_inv (signalSet q).
Proof.
  intros H. unfold signalSet. destruct (cthread q) eqn:E; try done.
  eapply order_same; [exact H|done..| |done]. unfold out, batch; cbn. by rewrite E.
Qed.

Lemma ascending_time l : ascending SampleTimetagComparator l <-> StronglySorted time_le l.
Proof.
  split; apply StronglySorted_mono; unfold time_le, SampleTimetagComparator; intros a b; rewrite Z.ltb_ge; lia.
Qed.

Lemma last_latest l x y :
  StronglySorted time_le l -> last l = Some x -> y ∈ l -> s_tt y <= s_tt x.
Proof.
  intros Hs [k ->]%last_Some Hy. apply StronglySorted_app_iff in Hs as (_ & _ & Hs).
  apply elem_of_app in Hy as [Hy|Hy]; [apply Hs; [done|by apply list_elem_of_singleton]|].
  apply list_elem_of_singleton in Hy as ->. lia.
Qed.

Lemma insert_order i s q :
  sorter_inv q -> order_inv q -> order_inv (receive_insert i s q).
Proof.
  intros Hi [H1 H2 H3 H4 H5 H6]. unfold receive_insert.
  set (early := match last (_samples q) with Some _ => _ | None => _ end).
  eapply order_same; [apply (signalSet_order (with_flush (with_samples (with_counts q (_discardedSamples q)
    (_realTimeFutureSamples q) (if early then _earlySamples q + 1 else _earlySamples q))
    (multiset_insert SampleTimetagComparator s (_samples q)) (accepted q ++ [s]) (distributed q) (released q))
    (_doFlush q) false))|done..].
  split; cbn; try done; [destruct early; lia|].
  intros He. destruct early eqn:Eearly; [lia|]. destruct (H6 He) as [Hs Hd].
  change (out _) with (out q). split; [done|]. intros d Hin. destruct (Hd d Hin) as [(x & Hx & Hlt) Hle].
  assert (Hp : forall z, z ∈ multiset_insert SampleTimetagComparator s (_samples q) <-> z = s \/ z ∈ _samples q).
  { intros z. rewrite multiset_insert_perm. apply elem_of_cons. }
  split; [exists x; rewrite Hp; auto|].
  intros y [->|Hy]%Hp; [|by apply Hle]. unfold early in Eearly.
  destruct (last (_samples q)) as [latest|] eqn:El.
  - apply Z.ltb_ge in Eearly.
    pose proof (last_latest _ _ _ (proj1 (ascending_time _) (si_order q Hi)) El Hx). lia.
  - apply last_None in El. rewrite El in Hx. inversion Hx.
Qed.

Lemma nth_error_elem {A} (l : list A) n x : nth_error l n = Some x -> x ∈ l.
Proof. intros H%nth_error_In. by apply list_elem_of_In. Qed.

Lemma top_order q : sorter_inv q -> order_inv q -> cthread q = CTop -> order_inv (run_top q).
Proof.
  intros Hi Ho Hc. pose proof Ho as [H1 H2 H3 H4 H5 H6]. unfold run_top. rewrite H2.
  set (q1 := if _ =? 0 then _ else q).
  assert (Hq1 : _doFlush q1 = false /\ interrupted q1 = false /\ _sorterLengthUsec q1 = _sorterLengthUsec q /\
     _lateSampleCacheSize q1 = _lateSampleCacheSize q /\ _earlySamples q1 = _earlySamples q /\
     distributed q1 = distributed q /\ _samples q1 = _samples q)
    by (unfold q1; destruct (_ =? 0); by split_and!).
  clearbody q1. destruct Hq1 as (A1 & A2 & A3 & A4 & A5 & A6 & A7).
  assert (Eout : out q = distributed q) by (unfold out, batch; rewrite Hc; apply app_nil_r).
  rewrite Eout in H6.
  assert (Hgo : forall c, match c with CDist _ _ => False | _ => True end -> order_inv (with_cons q1 c)).
  { intros c Hcc. assert (Eo : out (with_cons q1 c) = distributed q)
      by (unfold out, batch; cbn; rewrite A6; destruct c; done || apply app_nil_r).
    rewrite <- Eout in Eo. eapply (order_same q _ Ho); try done; cbn; congruence. }
  rewrite A1, andb_true_r. destruct (Z.leb_spec (zlen (_samples q)) (_lateSampleCacheSize q1)) as [|Hlt]; [by apply Hgo|].
  pose proof (aged_split q1) as Hsplit. unfold aged in *. rewrite A1, A3, A4, A7 in *.
  destruct (nth_error (_samples q) _) as [late|] eqn:Elate; [|by apply Hgo].
  set (dummy := mkSample _ _ _ _) in *.
  pose proof (lower_bound_before SampleTimetagComparator dummy (_samples q)) as Hbefore.
  pose proof (lower_bound_after SampleTimetagComparator dummy (_samples q) (si_order q Hi)) as Hafter.
  destruct (lower_bound SampleTimetagComparator dummy (_samples q)) as [b rest]. cbn [fst snd] in *.
  destruct b as [|first b]; [by apply Hgo|].
  set (q2 := match last (_samples q) with Some _ => _ | None => _ end).
  assert (Hq2 : _doFlush q2 = false /\ interrupted q2 = false /\ _sorterLengthUsec q2 = _sorterLengthUsec q /\
     _lateSampleCacheSize q2 = _lateSampleCacheSize q /\ _earlySamples q2 = _earlySamples q /\
     distributed q2 = distributed q)
    by (unfold q2; destruct (last (_samples q)); by split_and!).
  clearbody q2. destruct Hq2 as (B1 & B2 & B3 & B4 & B5 & B6).
  split; cbn; rewrite ?B1, ?B2, ?B3, ?B4, ?B5; try done.
  intros He. destruct (H6 He) as [Hs Hd]. unfold out, batch; cbn. rewrite B6.
  change (distributed q ++ first :: b) with (distributed q ++ (first :: b)).
  set (bb := first :: b) in *.
  pose proof (proj1 (ascending_time _) (si_order q Hi)) as Hasc. rewrite <- Hsplit in Hasc.
  apply StronglySorted_app_iff in Hasc as (Hbs & _ & Hbr).
  rewrite Forall_forall in Hbefore. rewrite Forall_forall in Hafter.
  assert (Hlate : late ∈ rest).
  { apply nth_error_elem in Elate. rewrite <- Hsplit in Elate. apply elem_of_app in Elate as [Hin|Hin]; [|done].
    specialize (Hbefore _ Hin). unfold SampleTimetagComparator in Hbefore. cbn in Hbefore. apply Z.ltb_lt in Hbefore. lia. }
  assert (Hb : forall d, d ∈ bb -> s_tt d < s_tt late - _sorterLengthUsec q).
  { intros d Hdin. specialize (Hbefore _ Hdin). unfold SampleTimetagComparator in Hbefore. by apply Z.ltb_lt in Hbefore. }
  split.
  - apply StronglySorted_app_iff. split; [done|]. split; [done|].
    intros d y Hdin Hy. apply Hd; [done|]. rewrite <- Hsplit. apply elem_of_app. by left.
  - intros d [Hin|Hin]%elem_of_app.
    + destruct (Hd d Hin) as [(x & Hx & Hlx) Hle]. split.
      * rewrite <- Hsplit in Hx. apply elem_of_app in Hx as [Hx|Hx]; [|by exists x].
        exists late. split; [done|]. specialize (Hb _ Hx). lia.
      * intros y Hy. apply Hle. rewrite <- Hsplit. apply elem_of_app. by right.
    + split; [exists late; auto|]. intros y Hy. by apply Hbr.
Qed.

Definition no_flush (a : action) : bool :=
  match a with Flush | Interrupt => false | _ => true end.

Lemma signalHeap_order w q q' : order_inv q -> signalHeap w q = Some q' -> order_inv q'.
Proof.
  intros H E. destruct w as [i|]; cbn in E.
  - destruct (prods q !! i) as [[s|s|s|s]|]; try done. injection E as <-. by eapply order_same.
  - case_bool_decide; [|done]. by injection E as <-.
Qed.

(** Moves of the sorter's thread that touch no sample. *)
Lemma with_cons_order q c : order_inv q -> batch (with_cons q c) = batch q -> order_inv (with_cons q c).
Proof. intros H E. eapply order_same; [exact H|done..| |done]. unfold out. by rewrite E. Qed.

Lemma receive_loop_order i s q : order_inv q -> order_inv (receive_loop i s q).
Proof.
  intros H. unfold receive_loop. destruct (_ <? _).
  - pose proof (signalSet_order (with_heap q (_heapMax q) (_heapSize q) true)) as Hs.
    eapply order_same; [apply Hs; by eapply order_same|done..].
  - by eapply order_same.
Qed.

Lemma step_order a q q' :
  no_flush a = true -> sorter_inv q -> order_inv q -> step a q = Some q' -> order_inv q'.
Proof.
  intros Hnf Hi H E. destruct a as [i s systt|i|i|i| |w| | | |w| | |w| |i]; cbn in E; try done.
  - unfold receive_enter in E. destruct (prods q !! i); [done|].
    destruct (_ && _); injection E as <-; by eapply order_same.
  - destruct (prods q !! i) as [[s|s|s|s]|]; try done. injection E as <-. unfold receive_heap.
    destruct (negb _); [destruct (_ <? _); by eapply order_same|].
    apply receive_loop_order. by eapply order_same.
  - destruct (prods q !! i) as [[s|s|s|s]|]; try done. injection E as <-. by apply receive_loop_order.
  - destruct (prods q !! i) as [[s|s|s|s]|]; try done. destruct (setLocked q); [done|].
    injection E as <-. by apply insert_order.
  - destruct (cthread q) eqn:Hc; try done. injection E as <-. by apply top_order.
  - destruct (cthread q) eqn:Hc; try done. unfold run_heapCheck in E.
    destruct (_heapExceeded q).
    + set (q1 := with_heap _ _ _ _) in E. assert (H1 : order_inv q1) by (by eapply order_same).
      destruct (signalHeap w q1) as [q2|] eqn:Es; [|done]. injection E as <-.
      assert (Hc2 : batch q2 = []).
      { destruct w as [i|]; cbn in Es; [destruct (prods q !! i) as [[s|s|s|s]|]; try done|case_bool_decide; [|done]];
          injection Es as <-; unfold batch; cbn; by rewrite Hc. }
      apply with_cons_order; [by eapply signalHeap_order|by rewrite Hc2].
    + injection E as <-. apply with_cons_order; [done|]. unfold batch. by rewrite Hc.
  - destruct (cthread q) eqn:Hc; try done. injection E as <-. apply with_cons_order; [done|].
    unfold batch. by rewrite Hc.
  - destruct (cthread q) eqn:Hc; try done. injection E as <-. apply with_cons_order; [done|].
    unfold batch. by rewrite Hc.
  - destruct (cthread q) as [| | | | |[|s b] n|] eqn:Hc; try done. injection E as <-.
    eapply order_same; [exact H|done..| |done]. unfold out, batch. cbn. rewrite Hc. by rewrite <- app_assoc.
  - destruct (cthread q) as [| | | | |[|s b] n|] eqn:Hc; try done.
    destruct (heapDecrement n w q) as [q1|] eqn:Ed; [|done]. injection E as <-.
    assert (H1 : order_inv q1 /\ batch q1 = []).
    { assert (Hb : forall m z e, order_inv (with_heap q m z e) /\ batch (with_heap q m z e) = []).
      { intros m z e. split; [by eapply order_same|]. unfold batch; cbn. by rewrite Hc. }
      unfold heapDecrement in Ed. repeat case_match; try (injection Ed as <-; apply Hb).
      split; [eapply signalHeap_order; [apply Hb|exact Ed]|].
      destruct w as [i|]; cbn in Ed; [destruct (prods q !! i) as [[s|s|s|s]|]; try done|case_bool_decide; [|done]];
        injection Ed as <-; unfold batch; cbn; by rewrite Hc. }
    apply with_cons_order; [apply H1|by rewrite (proj2 H1)].
  - unfold interrupt_heap in E. eapply signalHeap_order; [|exact E]. by eapply order_same.
  - destruct (cthread q) eqn:Hc; try done. injection E as <-. apply with_cons_order; [done|].
    unfold batch. by rewrite Hc.
  - destruct (prods q !! i) as [[s|s|s|s]|]; try done. injection E as <-. by eapply order_same.
Qed.

(** ** Reachable states *)

(** A sorter before its thread starts, with any settings. *)
Definition initial (heapMax len cache : Z) (heapBlock realTime : bool) : Sorter :=
  setHeapMax heapMax (setLengthUsec len (newSorter heapBlock realTime cache)).

Lemma initial_inv heapMax len cache b rt : 0 <= heapMax -> sorter_inv (initial heapMax len cache b rt).
Proof.
  intros Hm. split; cbn; [done | constructor | done | done | | done | constructor | done].
  intros _. split; [done|]. intros i pr. by rewrite lookup_empty.
Qed.

Lemma reach_inv allow q0 q : sorter_inv q0 -> reach allow q0 q -> sorter_inv q.
Proof. intros H0. induction 1 as [|q a q' _ IH _ E]; [done|]. by eapply step_inv. Qed.

Lemma reach_order q0 q : sorter_inv q0 -> order_inv q0 -> reach no_flush q0 q -> order_inv q.
Proof.
  intros Hi Ho. induction 1 as [|q a q' Hr IH Ha E]; [done|].
  eapply step_order; [exact Ha | by eapply reach_inv | exact IH | exact E].
Qed.

Lemma initial_order heapMax len cache b rt :
  0 <= len -> 0 <= cache -> order_inv (initial heapMax len cache b rt).
Proof.
  intros Hl Hc. split; cbn; try done. intros _. split; [constructor|].
  intros d Hd. inversion Hd.
Qed.

(** Nothing is released and the sorter keeps running until an interruption. *)
Definition running (q : Sorter) : Prop := released q = [] /\ interrupted q = false.

Lemma signalSet_running q : running q -> running (signalSet q).
Proof. unfold signalSet. by destruct (cthread q). Qed.

Lemma signalHeap_running w q q' : running q -> signalHeap w q = Some q' -> running q'.
Proof.
  intros H Es. destruct w as [j|]; cbn in Es;
    [destruct (prods q !! j) as [[?|?|?|?]|]; try done|case_bool_decide; [|done]]; by injection Es as <-.
Qed.

Lemma receive_loop_running i s q : running q -> running (receive_loop i s q).
Proof.
  intros H. unfold receive_loop. destruct (_ <? _); [|done].
  by apply (signalSet_running (with_heap q (_heapMax q) (_heapSize q) true)).
Qed.

Lemma run_top_running q : running q -> running (run_top q).
Proof.
  intros [H1 H2]. unfold run_top. rewrite H2.
  destruct (_ =? 0); (destruct (_ && _); [done|]); (destruct (aged _) as [[|? ?] ?]; [done|]); cbn;
    destruct (last _); try done; by destruct (_doFlush _).
Qed.

Lemma step_running a q q' : a <> Interrupt -> running q -> step a q = Some q' -> running q'.
Proof.
  intros Ha H E. destruct a as [i s systt|i|i|i| |w| | | |w| | |w| |i]; cbn in E; try done.
  - unfold receive_enter in E. destruct (prods q !! i); [done|]. destruct (_ && _); by injection E as <-.
  - destruct (prods q !! i) as [[s|s|s|s]|]; try done. injection E as <-. unfold receive_heap.
    destruct (negb _); [by destruct (_ <? _)|]. by apply receive_loop_running.
  - destruct (prods q !! i) as [[s|s|s|s]|]; try done. injection E as <-. by apply receive_loop_running.
  - destruct (prods q !! i) as [[s|s|s|s]|]; try done. destruct (setLocked q); [done|]. injection E as <-.
    unfold receive_insert. match goal with |- context [signalSet ?x] => by apply (signalSet_running x) end.
  - destruct (cthread q); try done. injection E as <-. by apply run_top_running.
  - destruct (cthread q); try done. unfold run_heapCheck in E. destruct (_heapExceeded q); [|by injection E as <-].
    destruct (signalHeap w _) as [q1|] eqn:Es; [|done]. injection E as <-. by eapply signalHeap_running in Es.
  - destruct (cthread q); try done. by injection E as <-.
  - destruct (cthread q); try done. by injection E as <-.
  - destruct (cthread q) as [| | | | |[|? ?] ?|]; try done. by injection E as <-.
  - destruct (cthread q) as [| | | | |[|? ?] ?|]; try done.
    destruct (heapDecrement _ w q) as [q1|] eqn:Ed; [|done]. injection E as <-. unfold heapDecrement in Ed.
    repeat case_match; try (by injection Ed as <-). by eapply signalHeap_running in Ed.
  - destruct (setLocked q); [done|]. injection E as <-. unfold flush. destruct (_flushed q); [done|].
    by apply signalSet_running.
  - by eapply signalHeap_running in E.
  - destruct (cthread q); try done. by injection E as <-.
  - destruct (prods q !! i) as [[?|?|?|?]|]; try done. by injection E as <-.
Qed.

Definition no_interrupt (a : action) : bool := match a with Interrupt => false | _ => true end.

Lemma reach_running q0 q : running q0 -> reach no_interrupt q0 q -> running q.
Proof.
  intros H0. induction 1 as [|q a q' _ IH Ha E]; [done|]. eapply step_running; [|exact IH|exact E].
  by intros ->.
Qed.

(** ** Properties *)

(** C9: conservation, for any interleaving of producers, the sorter's
    thread, flushes and interruption.  Every sample accepted by [receive] has
    been distributed once, is in the batch being distributed, is in the
    sorter, or was released at the end; the multiset is in time order; the
    heap size is exactly the bytes of the samples held, of the batch until it
    is accounted for and of the producers in between; without blocking it
    never exceeds the limit. *)
Theorem sorter_conserves allow heapMax len cache b rt q :
  0 <= heapMax -> reach allow (initial heapMax len cache b rt) q ->
  accepted q ≡ₚ distributed q ++ batch q ++ _samples q ++ released q /\
  ascending SampleTimetagComparator (_samples q) /\
  _heapSize q = totalSize (_samples q) + batchSum q + countedSum (prods q) + totalSize (released q) /\
  0 <= _heapSize q /\
  (_heapBlock q = false -> _heapSize q <= _heapMax q).
Proof.
  intros Hm Hr. pose proof (reach_inv _ _ _ (initial_inv heapMax len cache b rt Hm) Hr) as H.
  split; [apply H|]. split; [apply H|]. split; [apply H|]. split.
  - rewrite (si_heap q H). pose proof (totalSize_nonneg (_samples q)).
    pose proof (totalSize_nonneg (released q)). pose proof (totalSize_nonneg (batch q)).
    pose proof (si_sum q H). pose proof (countedSum_nonneg (prods q)). lia.
  - intros Hb. by apply H.
Qed.

(** When [flush] finds [_flushed] set (unless the sorter was
    interrupted), everything accepted so far has been distributed. *)
Theorem flush_complete heapMax len cache b rt q :
  0 <= heapMax ->
  reach no_interrupt (initial heapMax len cache b rt) q ->
  _flushed q = true -> distributed q ≡ₚ accepted q.
Proof.
  intros Hm Hr Hf. pose proof (reach_inv _ _ _ (initial_inv heapMax len cache b rt Hm) Hr) as H.
  destruct (si_flushed q H Hf) as [E1 E2]. rewrite (si_conserve q H), E1, E2.
  destruct (reach_running (initial heapMax len cache b rt) q ltac:(done) Hr) as [-> _]. cbn. by rewrite app_nil_r.
Qed.

(** C8: the output is sorted.  Without flushes and interruption, and as long
    as no sample arrived earlier than the sorter window (the counter
    [_earlySamples] is zero), the samples go out in time order, whatever the
    order of their arrival, the number of late samples cached, and the
    interleaving of the threads; and every sample that went out is more than
    the sorter length older than some sample still in the sorter. *)
Theorem sorter_sorts heapMax len cache b rt q :
  0 <= heapMax -> 0 <= len -> 0 <= cache ->
  reach no_flush (initial heapMax len cache b rt) q -> _earlySamples q = 0 ->
  StronglySorted time_le (distributed q ++ batch q) /\
  (forall d, d ∈ distributed q ++ batch q ->
     (exists x, x ∈ _samples q /\ s_tt d < s_tt x - _sorterLengthUsec q) /\
     (forall y, y ∈ _samples q -> s_tt d <= s_tt y)).
Proof.
  intros Hm Hl Hc Hr He.
  pose proof (reach_order _ _ (initial_inv heapMax len cache b rt Hm)
    (initial_order heapMax len cache b rt Hl Hc) Hr) as Ho.
  exact (oi_order q Ho He).
Qed.

(** *** Blocking producers *)

(** Actions of the threads themselves: not a new call from outside, and not a
    wake-up without a signal. *)
Definition internal (a : action) : bool :=
  match a with
  | Arrive _ _ _ | Flush | Interrupt | InterruptHeap _ | SpuriousSet | SpuriousHeap _ => false
  | _ => true
  end.

(** Every producer waits for heap space and the sorter's thread for samples. *)
Definition stuck (q : Sorter) : bool :=
  match cthread q with
  | CWait => bool_decide (prods q <> ∅) && bool_decide (map_Forall (fun _ pr => is_waiting pr = true) (prods q))
  | _ => false
  end.

Lemma stuck_quiet q a : stuck q = true -> internal a = true -> step a q = None.
Proof.
  unfold stuck. destruct (cthread q) eqn:Hc; try done. intros [_ H%bool_decide_eq_true]%andb_true_iff Ha.
  destruct a as [i s systt|i|i|i| |w| | | |w| | |w| |i]; cbn; rewrite ?Hc; try done;
    destruct (prods q !! i) as [[s|s|s|s]|] eqn:Hi; try done; by specialize (H _ _ Hi).
Qed.

(** The check of the heap when nothing is old enough does release a producer
    that is already waiting: the limit grows by half and it is woken. *)
Lemma heapCheck_releases q i s :
  cthread q = CHeapCheck -> _heapExceeded q = true -> prods q !! i = Some (PWait s) ->
  exists q', step (HeapCheck (Some i)) q = Some q' /\
    _heapMax q' = _heapMax q + _heapMax q / 2 /\ prods q' !! i = Some (PWoken s).
Proof.
  intros Hc He Hi. cbn. rewrite Hc. unfold run_heapCheck. rewrite He. cbn. rewrite Hi. cbn.
  eexists. split; [done|]. split; [done|]. cbn. by rewrite lookup_insert_eq.
Qed.

Definition big_sample : sample := mkSample 100 1 1 (replicate 84 0).

(** With [heapBlock], the sorter's thread and its producer can wait for
    each other for ever.  First, the signal that [receive] sends before it
    waits is lost when the sorter's thread, having checked the heap, is
    about to wait; second, the heap is never checked while there are not
    more samples than the late sample cache holds.  In both final states no
    thread can move, short of a new call from outside. *)
Theorem heap_block_deadlock :
  let lost_signal := [Relock; Top; GoWait; Arrive 1 big_sample 0; HeapEnter 1; Insert 1; Relock; Top;
                      HeapCheck None; Arrive 1 big_sample 0; HeapEnter 1; GoWait] in
  let small_cache := [Relock; Top; GoWait; Arrive 1 big_sample 0; HeapEnter 1; Insert 1; Relock; Top; GoWait;
                      Arrive 1 big_sample 0; HeapEnter 1; Relock; Top; GoWait] in
  (exists q, run_actions lost_signal (initial 150 1000 0 true false) = Some q /\
     forall a, internal a = true -> step a q = None) /\
  (exists q, run_actions small_cache (initial 150 1000 1 true false) = Some q /\
     forall a, internal a = true -> step a q = None).
Proof.
  split; (destruct (run_actions _ _) as [q|] eqn:E; [|vm_compute in E; discriminate E]);
    exists q; (split; [done|]); intros a Ha; apply stuck_quiet; try done;
    vm_compute in E; injection E as <-; vm_compute; reflexivity.
Qed.

(** ** Witnesses *)

Definition example_run : list action :=
  [Relock; Top; GoWait;
   Arrive 1 (mkSample 500 1 1 [1]) 0; HeapEnter 1; Insert 1;
   Arrive 2 (mkSample 200 2 1 [2]) 0; HeapEnter 2; Insert 2;
   Arrive 1 (mkSample 1600 1 1 [3]) 0; HeapEnter 1; Insert 1;
   Relock; Top; Distribute; Distribute; Decrement None].

Lemma run_reach allow q0 l : forall q q',
  reach allow q0 q -> forallb allow l = true -> run_actions l q = Some q' -> reach allow q0 q'.
Proof.
  induction l as [|a l IH]; intros q q' Hr Ha E; cbn in *; [by injection E as <-|].
  apply andb_true_iff in Ha as [Ha Hl]. destruct (step a q) as [q1|] eqn:Es; [|done].
  apply (IH q1); [by eapply reach_next | done | done].
Qed.

Lemma example_reach allow :
  forallb allow example_run = true ->
  exists q, reach allow (initial 1000 1000 0 false false) q /\
    map s_tt (distributed q) = [200; 500] /\ _earlySamples q = 0 /\ _flushed q = false.
Proof.
  intros Ha. destruct (run_actions example_run (initial 1000 1000 0 false false)) as [q|] eqn:E;
    [|vm_compute in E; discriminate E].
  exists q. split; [eapply run_reach; [apply reach_start|exact Ha|exact E]|].
  vm_compute in E. injection E as <-. vm_compute. split_and!; reflexivity.
Qed.

Lemma sorter_conserves_witness :
  exists q, map s_tt (distributed q) = [200; 500] /\
    accepted q ≡ₚ distributed q ++ batch q ++ _samples q ++ released q.
Proof.
  destruct (example_reach (fun _ => true) eq_refl) as (q & Hr & Hd & _).
  exists q. split; [exact Hd|].
  exact (proj1 (sorter_conserves _ 1000 1000 0 false false q ltac:(lia) Hr)).
Defined.

Lemma flush_complete_witness :
  exists q, map s_tt (distributed q) = [500] /\ distributed q ≡ₚ accepted q.
Proof.
  destruct (run_actions [Relock; Top; GoWait; Arrive 1 (mkSample 500 1 1 [1]) 0; HeapEnter 1; Insert 1;
      Flush; Relock; Top; Distribute; Decrement None; Relock; Top] (initial 1000 1000 3 false false))
    as [q|] eqn:E; [|vm_compute in E; discriminate E].
  exists q. split; [vm_compute in E; injection E as <-; reflexivity|].
  apply (flush_complete 1000 1000 3 false false); [lia | |].
  - eapply run_reach; [apply reach_start| |exact E]. reflexivity.
  - vm_compute in E. injection E as <-. reflexivity.
Defined.

Lemma sorter_sorts_witness :
  exists q, map s_tt (distributed q) = [200; 500] /\ StronglySorted time_le (distributed q ++ batch q).
Proof.
  destruct (example_reach no_flush eq_refl) as (q & Hr & Hd & He & _).
  exists q. split; [exact Hd|].
  exact (proj1 (sorter_sorts 1000 1000 0 false false q ltac:(lia) ltac:(lia) ltac:(lia) Hr He)).
Defined.
