(* ===== verification/SampleMatcher.v ===== *)
(** * Selection of samples by id, time and file.

    [src/src/nidas/core/SampleMatcher.cc] and [SampleMatcher.h]: a
    [RangeMatcher] is one criterion, parsed from a text; a [SampleMatcher]
    keeps a list of them and a cache of the ids that no criterion can match.
    Integers are [int], read with [strtol]; [UTime::convert], which parses a
    time, is the argument [convert] of the parser. *)

From Stdlib Require Import String Ascii.
From S2P Require Import Prelude StringUtil SampleId.

Local Open Scope Z_scope.

(** ** Numbers *)

(** [int_from_string]: [strtol(text,&endptr,0)] must use the whole text;
    a [long] that does not fit sets [errno], and the [int] is its low half. *)
Definition int_from_string (text : string) : option Z :=
  let signed (neg : bool) (s : string) :=
    match magnitude s with
    | None => None
    | Some v => let z := if neg then - v else v in
        if (LONG_LONG_MIN <=? z) && (z <=? LONG_LONG_MAX) then Some (s32 z) else None
    end in
  match skipspace text with
  | String "-" s => signed true s
  | String "+" s => signed false s
  | s => signed false s
  end.

(** ** struct id_range_t, class RangeMatcher *)

Record id_range := mkRange { first : Z; last : Z }.

Definition MATCH_FIRST : Z := -9.
Definition MATCH_ALL : Z := -1.
Definition MATCH_ALL_TIME : Z := LONG_LONG_MIN.

(** [UTime::MIN], [UTime::MAX] *)
Definition UTIME_MIN : Z := LONG_LONG_MIN.
Definition UTIME_MAX : Z := LONG_LONG_MAX.

Record RangeMatcher := mkRangeMatcher {
  dsms : id_range;
  sids : id_range;
  time1 : Z;
  time2 : Z;
  file_pattern : string;
  include : bool;
  target_dsms : id_range;
  target_sids : id_range
}.

Definition newRangeMatcher : RangeMatcher :=
  mkRangeMatcher (mkRange 0 0) (mkRange MATCH_ALL MATCH_ALL) UTIME_MIN UTIME_MAX EmptyString false
    (mkRange 0 0) (mkRange 0 0).

(** [parse_range(rngstr,rngid1,rngid2)]; [None] is the exception. *)
Definition parse_range (rngstr : string) : option id_range :=
  let check (r : id_range) := if last r <? first r then None else Some r in
  match (if (1 <? String.length rngstr)%nat then String.index 1 "-" rngstr else None) with
  | Some ic =>
      match int_from_string (substring 0 ic rngstr),
            int_from_string (substring (ic + 1) (String.length rngstr) rngstr) with
      | Some a, Some b => check (mkRange a b)
      | _, _ => None
      end
  | None =>
      if String.eqb rngstr "*" || String.eqb rngstr "/" then check (mkRange MATCH_ALL MATCH_ALL)
      else if String.eqb rngstr "." then check (mkRange MATCH_FIRST MATCH_FIRST)
      else
        match int_from_string rngstr with
        | None => None
        | Some a => if (a <? 0) && negb (a =? MATCH_ALL) then None else check (mkRange a a)
        end
  end.

(** [parse_range_field]: the source and the target range. *)
Definition parse_range_field (rngstr : string) : option (id_range * id_range) :=
  let check (src tgt : id_range) :=
    if negb (first tgt =? last tgt) && negb (last tgt - first tgt =? last src - first src)
    then None else Some (src, tgt) in
  match String.index 0 "=" rngstr with
  | Some equals =>
      match parse_range (substring 0 equals rngstr),
            parse_range (substring (equals + 1) (String.length rngstr) rngstr) with
      | Some src, Some tgt =>
          if (first tgt =? MATCH_FIRST) || (first tgt =? MATCH_ALL) then None else check src tgt
      | _, _ => None
      end
  | None =>
      match parse_range rngstr with
      | Some src => check src (mkRange 0 0)
      | None => None
      end
  end.

Definition remap_id (source target : id_range) (id : Z) : Z :=
  if negb (first target =? 0) then
    if first target =? last target then first target
    else first target + (id - first source)
  else id.

Section Parser.
Context (convert : string -> option Z).

(** [time_from_string]: an empty text keeps [when]. *)
Definition time_from_string (when : Z) (text : string) : option Z :=
  if String.eqb text EmptyString then Some when else convert text.

(** The next field of [spec] and what follows its comma. *)
Definition next_field (spec : string) : option (string * option string) :=
  let cut (ic : option nat) :=
    match ic with
    | None => Some (spec, None)
    | Some ic => Some (substring 0 ic spec, Some (substring (ic + 1) (String.length spec) spec))
    end in
  match spec with
  | String "[" _ =>
      match String.index 0 "]" spec with
      | None => None
      | Some b2 =>
          match String.get (S b2) spec with
          | Some c => if Ascii.eqb c "," then cut (String.index (S b2) "," spec) else None
          | None => cut None
          end
      end
  | _ => cut (String.index 0 "," spec)
  end.

(** What a field does to the matcher. *)
Definition parse_field (nfields : nat) (field : string) (rm : RangeMatcher) : option RangeMatcher :=
  if String.eqb field EmptyString then None
  else if (nfields =? 1)%nat then
    match parse_range_field field with
    | Some (src, tgt) => Some (mkRangeMatcher src (sids rm) (time1 rm) (time2 rm) (file_pattern rm)
                                 (include rm) tgt (target_sids rm))
    | None => None
    end
  else
    match field with
    | String "[" _ =>
        let field := substring 1 (String.length field - 2) field in
        match String.index 0 "," field with
        | None => None
        | Some tsep =>
            match time_from_string (time1 rm) (substring 0 tsep field),
                  time_from_string (time2 rm) (substring (tsep + 1) (String.length field) field) with
            | Some t1, Some t2 => Some (mkRangeMatcher (dsms rm) (sids rm) t1 t2 (file_pattern rm)
                                          (include rm) (target_dsms rm) (target_sids rm))
            | _, _ => None
            end
        end
    | _ =>
        if String.eqb (substring 0 5 field) "file=" then
          Some (mkRangeMatcher (dsms rm) (sids rm) (time1 rm) (time2 rm)
                  (substring 5 (String.length field) field)
                  (include rm) (target_dsms rm) (target_sids rm))
        else if (nfields =? 2)%nat then
          match parse_range_field field with
          | Some (src, tgt) =>
              if first src =? MATCH_FIRST then None
              else Some (mkRangeMatcher (dsms rm) src (time1 rm) (time2 rm) (file_pattern rm)
                           (include rm) (target_dsms rm) tgt)
          | None => None
          end
        else None
    end.

(** The loop over the fields: the number of the next field is at most 4. *)
Fixpoint parse_fields (fuel : nat) (nfields : nat) (spec : string) (rm : RangeMatcher) :
    option RangeMatcher :=
  match fuel with
  | O => None
  | S fuel =>
      match next_field spec with
      | None => None
      | Some (field, more) =>
          match parse_field nfields field rm with
          | None => None
          | Some rm =>
              match more with
              | None => Some rm
              | Some spec => parse_fields fuel (S nfields) spec rm
              end
          end
      end
  end.

Definition with_include (rm : RangeMatcher) (b : bool) : RangeMatcher :=
  mkRangeMatcher (dsms rm) (sids rm) (time1 rm) (time2 rm) (file_pattern rm) b
    (target_dsms rm) (target_sids rm).

(** [parse_specifier]; [None] is the [ParseException]. *)
Definition parse_specifier (specifier : string) (rm : RangeMatcher) : option RangeMatcher :=
  match specifier with
  | String "^" spec => parse_fields 4 1 spec (with_include rm false)
  | spec => parse_fields 4 1 spec (with_include rm true)
  end.

End Parser.

Definition with_dsms (rm : RangeMatcher) (r : id_range) : RangeMatcher :=
  mkRangeMatcher r (sids rm) (time1 rm) (time2 rm) (file_pattern rm) (include rm)
    (target_dsms rm) (target_sids rm).

Definition set_first_dsm (dsmid : Z) (rm : RangeMatcher) : RangeMatcher :=
  if first (dsms rm) =? MATCH_FIRST then with_dsms rm (mkRange dsmid dsmid) else rm.

(** [match(dsmid,sid)], which can fix the DSM of the range. *)
Definition match_ids (dsmid sid : Z) (rm : RangeMatcher) : bool * RangeMatcher :=
  if (sid <? first (sids rm)) || ((last (sids rm) <? sid) && (0 <=? last (sids rm))) then (false, rm)
  else
    let rm := set_first_dsm dsmid rm in
    if (dsmid <? first (dsms rm)) || ((last (dsms rm) <? dsmid) && (0 <=? last (dsms rm)))
    then (false, rm) else (true, rm).

Definition remap_ids (rm : RangeMatcher) (dsmid sid : Z) : Z * Z :=
  (remap_id (dsms rm) (target_dsms rm) dsmid, remap_id (sids rm) (target_sids rm) sid).

Definition match_time (stime : Z) (rm : RangeMatcher) : bool :=
  (stime =? MATCH_ALL_TIME) ||
  ((time1 rm <=? stime) && ((time2 rm =? 0) || (stime <=? time2 rm))).

Definition match_file (filename : string) (rm : RangeMatcher) : bool :=
  String.eqb (file_pattern rm) EmptyString ||
  match String.index 0 (file_pattern rm) filename with Some _ => true | None => false end.

(** ** class SampleMatcher *)

Record SampleMatcher := mkSampleMatcher {
  _ranges : list RangeMatcher;
  _lookup : gmap Z bool;
  _startTime : Z;
  _endTime : Z;
  _first_dsmid : Z;
  _all_excludes : bool;
  _nsamples : Z;
  _nexcluded : Z;
  _ncached : Z
}.

Definition newSampleMatcher : SampleMatcher :=
  mkSampleMatcher [] ∅ UTIME_MIN UTIME_MAX 0 true 0 0 0.

Definition addCriteria (rm : RangeMatcher) (m : SampleMatcher) : SampleMatcher :=
  let rm := if negb (_first_dsmid m =? 0) then set_first_dsm (_first_dsmid m) rm else rm in
  let ranges := _ranges m ++ [rm] in
  mkSampleMatcher ranges ∅ (_startTime m) (_endTime m) (_first_dsmid m)
    (forallb (fun r => negb (include r)) ranges) (_nsamples m) (_nexcluded m) (_ncached m).

(** [addCriteria(ctext)]; [None] is the [ParseException]. *)
Definition addCriteriaText (convert : string -> option Z) (ctext : string) (m : SampleMatcher) :
    option SampleMatcher :=
  if String.eqb ctext EmptyString then Some m
  else match parse_specifier convert ctext newRangeMatcher with
       | Some rm => Some (addCriteria rm m)
       | None => None
       end.

(** The loop of [match_range]: the ranges afterwards, whether some range
    matched the id, and the position of the range found. *)
Fixpoint find_range (did sid tt : Z) (filename : string) (ranges : list RangeMatcher) :
    list RangeMatcher * bool * option nat :=
  match ranges with
  | [] => ([], false, None)
  | r :: rs =>
      let '(hit, r) := match_ids did sid r in
      if hit && (match_time tt r && match_file filename r) then (r :: rs, true, Some O)
      else
        let '(rs, matched, found) := find_range did sid tt filename rs in
        (r :: rs, hit || matched, option_map S found)
  end.

(** The criteria once the first sample has fixed the DSM of [.]. *)
Definition fixed_ranges (id : Z) (m : SampleMatcher) : list RangeMatcher :=
  if _first_dsmid m =? 0 then map (set_first_dsm (GET_DSM_ID id)) (_ranges m) else _ranges m.

(** [match_range] after the look in the cache. *)
Definition match_scan (id tt : Z) (filename : string) (m : SampleMatcher) :
    bool * option (option RangeMatcher) * SampleMatcher :=
  let did := GET_DSM_ID id in
  let sid := GET_SPS_ID id in
  let firstd := if _first_dsmid m =? 0 then did else _first_dsmid m in
  let '(ranges, matched, found) := find_range did sid tt filename (fixed_ranges id m) in
  let rm := match found with Some k => ranges !! k | None => None end in
  let result := match rm with None => _all_excludes m | Some r => include r end in
  (result, Some rm,
   mkSampleMatcher ranges (<[id := matched]> (_lookup m)) (_startTime m) (_endTime m) firstd
     (_all_excludes m) (u32 (_nsamples m + 1))
     (u32 (_nexcluded m + (if result then 0 else 1))) (_ncached m)).

(** [match_range]: the result, what is stored through [rm_out] ([None] when
    nothing is stored, [Some None] for a null pointer), the state. *)
Definition match_range (id tt : Z) (filename : string) (m : SampleMatcher) :
    bool * option (option RangeMatcher) * SampleMatcher :=
  match _lookup m !! id with
  | Some false =>
      (_all_excludes m, None,
       mkSampleMatcher (_ranges m) (_lookup m) (_startTime m) (_endTime m) (_first_dsmid m)
         (_all_excludes m) (u32 (_nsamples m + 1))
         (u32 (_nexcluded m + (if _all_excludes m then 0 else 1))) (u32 (_ncached m + 1)))
  | _ => match_scan id tt filename m
  end.

Definition match_sample (id tt : Z) (inputname : string) (m : SampleMatcher) : bool * SampleMatcher :=
  if (tt <? _startTime m) || (_endTime m <? tt) then (false, m)
  else let '(b, _, m) := match_range id tt inputname m in (b, m).

(** A pointer that was never stored. *)
Inductive reassign_error := Uninitialised.

(** [match_with_reassign]: the result and the new id of the sample. *)
Definition match_with_reassign (id tt : Z) (inputname : string) (m : SampleMatcher) :
    (reassign_error + bool * Z) * SampleMatcher :=
  if (tt <? _startTime m) || (_endTime m <? tt) then (inr (false, id), m)
  else
    let '(b, rm_out, m) := match_range id tt inputname m in
    if negb b then (inr (false, id), m)
    else
      match rm_out with
      | None => (inl Uninitialised, m)
      | Some None => (inr (true, id), m)
      | Some (Some rm) =>
          if negb (first (target_dsms rm) =? 0) || negb (first (target_sids rm) =? 0) then
            let '(did, sid) := remap_ids rm (GET_DSM_ID id) (GET_SPS_ID id) in
            (inr (true, SET_SPS_ID (SET_DSM_ID id did) sid), m)
          else (inr (true, id), m)
      end.

Definition exclusiveMatch (m : SampleMatcher) : bool :=
  match _ranges m with
  | [r] => ((first (dsms r) =? last (dsms r)) && negb (first (dsms r) =? -1)) &&
           ((first (sids r) =? last (sids r)) && negb (first (sids r) =? -1))
  | _ => false
  end.

(** ** The parser: well-formed criteria *)

Definition range_ok (src tgt : id_range) : Prop :=
  first src <= last src /\ first tgt <= last tgt /\
  (first tgt = last tgt \/ last tgt - first tgt = last src - first src).

Definition matcher_ok (rm : RangeMatcher) : Prop :=
  range_ok (dsms rm) (target_dsms rm) /\ range_ok (sids rm) (target_sids rm) /\
  first (sids rm) <> MATCH_FIRST.

Lemma parse_range_le s r : parse_range s = Some r -> first r <= last r.
Proof.
  unfold parse_range. intros H. repeat case_match; simplify_eq; cbn in *; bdestr; try lia.
Qed.

Lemma parse_range_field_ok s src tgt : parse_range_field s = Some (src, tgt) -> range_ok src tgt.
Proof.
  unfold parse_range_field, range_ok. intros H.
  destruct (String.index 0 "=" s) as [eq|].
  - destruct (parse_range (substring 0 eq s)) as [a|] eqn:Ea; [|done].
    destruct (parse_range (substring (eq + 1) _ s)) as [b|] eqn:Eb; [|done].
    apply parse_range_le in Ea, Eb. destruct (_ || _); [done|].
    destruct (_ && _) eqn:E; [done|]. simplify_eq. split; [done|]. split; [done|].
    apply andb_false_iff in E as [E|E]; apply negb_false_iff, Z.eqb_eq in E; auto.
  - destruct (parse_range s) as [a|] eqn:Ea; [|done]. apply parse_range_le in Ea.
    cbn in H. simplify_eq. cbn. auto with lia.
Qed.

Lemma parse_field_ok convert n field rm rm' :
  matcher_ok rm -> parse_field convert n field rm = Some rm' ->
  matcher_ok rm' /\ include rm' = include rm.
Proof.
  intros (H1 & H2 & H3) E. unfold parse_field in E.
  destruct (String.eqb field EmptyString); [done|]. destruct (n =? 1)%nat.
  - destruct (parse_range_field field) as [[src tgt]|] eqn:Ef; [|done]. apply parse_range_field_ok in Ef.
    simplify_eq. by split_and!.
  - assert (Htail : (if String.eqb (substring 0 5 field) "file=" then
          Some (mkRangeMatcher (dsms rm) (sids rm) (time1 rm) (time2 rm)
                  (substring 5 (String.length field) field)
                  (include rm) (target_dsms rm) (target_sids rm))
        else if (n =? 2)%nat then
          match parse_range_field field with
          | Some (src, tgt) =>
              if first src =? MATCH_FIRST then None
              else Some (mkRangeMatcher (dsms rm) src (time1 rm) (time2 rm) (file_pattern rm)
                           (include rm) (target_dsms rm) tgt)
          | None => None
          end
        else None) = Some rm' -> matcher_ok rm' /\ include rm' = include rm).
    { intros E'. destruct (String.eqb (substring 0 5 field) "file="); [by simplify_eq|].
      destruct (n =? 2)%nat; [|done].
      destruct (parse_range_field field) as [[src tgt]|] eqn:Ef; [|done]. apply parse_range_field_ok in Ef.
      destruct (Z.eqb_spec (first src) MATCH_FIRST); [done|]. by simplify_eq. }
    destruct field as [|c r]; [by apply Htail|].
    destruct (decide (c = "["%char)) as [->|Hc].
    + clear Htail. repeat case_match; try done. simplify_eq. by split_and!.
    + apply Htail. destruct c as [[] [] [] [] [] [] [] []]; try exact E; done.
Qed.

Lemma parse_fields_ok convert fuel : forall n spec rm rm',
  matcher_ok rm -> parse_fields convert fuel n spec rm = Some rm' ->
  matcher_ok rm' /\ include rm' = include rm.
Proof.
  induction fuel as [|fuel IH]; intros n spec rm rm' H E; cbn in E; [done|].
  destruct (next_field spec) as [[field more]|]; [|done].
  destruct (parse_field convert n field rm) as [rm1|] eqn:Ef; [|done].
  destruct (parse_field_ok _ _ _ _ _ H Ef) as [H1 E1].
  destruct more as [spec'|]; [|simplify_eq; done].
  destruct (IH _ _ _ _ H1 E) as [H2 E2]. split; [done|congruence].
Qed.

Lemma newRangeMatcher_ok b : matcher_ok (with_include newRangeMatcher b).
Proof. unfold matcher_ok, range_ok; cbn. split_and!; auto with lia; done. Qed.

Definition excluding (spec : string) : bool :=
  match spec with String c _ => Ascii.eqb c "^" | EmptyString => false end.

Lemma parse_specifier_cases convert spec rm :
  parse_specifier convert spec rm =
    if excluding spec then parse_fields convert 4 1 (substring 1 (String.length spec) spec) (with_include rm false)
    else parse_fields convert 4 1 spec (with_include rm true).
Proof.
  assert (Hsub : forall s, substring 0 (String.length s) s = s)
    by (intros s; induction s as [|? s IH]; cbn; [done|by rewrite IH]).
  assert (Hsub' : forall s, substring 0 (S (String.length s)) s = s)
    by (intros s; induction s as [|? s IH]; cbn in *; [done|by rewrite IH]).
  destruct spec as [|c r]; [done|]. cbn [excluding].
  destruct (Ascii.eqb_spec c "^") as [->|Hc].
  - cbn [String.length substring]. by rewrite Hsub'.
  - destruct c as [[] [] [] [] [] [] [] []]; try done.
Qed.

(** ** Matching without the cache *)

Definition selects (did sid tt : Z) (filename : string) (r : RangeMatcher) : bool :=
  fst (match_ids did sid r) && (match_time tt r && match_file filename r).

(** The reference: the first criterion that selects the sample decides; if
    none does, the sample is accepted when there are only exclusions. *)
Definition match_ref (ranges : list RangeMatcher) (did sid tt : Z) (filename : string) : bool :=
  match List.find (selects did sid tt filename) ranges with
  | Some r => include r
  | None => forallb (fun r => negb (include r)) ranges
  end.

Definition resolved (r : RangeMatcher) : Prop := first (dsms r) <> MATCH_FIRST.

Lemma match_ids_resolved did sid r : resolved r -> snd (match_ids did sid r) = r.
Proof.
  intros H. unfold match_ids, set_first_dsm. destruct (Z.eqb_spec (first (dsms r)) MATCH_FIRST); [done|].
  by repeat case_match.
Qed.

Lemma find_range_spec did sid tt filename ranges :
  Forall resolved ranges ->
  let '(rs, matched, found) := find_range did sid tt filename ranges in
  rs = ranges /\
  match found with Some k => ranges !! k | None => None end =
    List.find (selects did sid tt filename) ranges /\
  (matched = false -> Forall (fun r => fst (match_ids did sid r) = false) ranges).
Proof.
  induction 1 as [|r rs Hr _ IH]; cbn; [done|].
  pose proof (match_ids_resolved did sid r Hr) as Hs. unfold selects at 1.
  destruct (match_ids did sid r) as [hit r'] eqn:Em. cbn in *. subst r'.
  destruct (hit && _) eqn:Eh; [done|].
  destruct (find_range did sid tt filename rs) as [[rs' matched] found].
  destruct IH as (-> & Hf & Hm). split; [done|]. split; [by destruct found|].
  destruct hit; [done|]. cbn. intros ->. constructor; [by rewrite Em|by apply Hm].
Qed.

Lemma set_first_resolved did r : 0 <= did -> resolved (set_first_dsm did r).
Proof.
  intros Hd. unfold resolved, set_first_dsm.
  destruct (Z.eqb_spec (first (dsms r)) MATCH_FIRST); cbn; [unfold MATCH_FIRST; lia|done].
Qed.

Lemma set_first_same did r : resolved r -> set_first_dsm did r = r.
Proof. intros H. unfold set_first_dsm. by destruct (Z.eqb_spec (first (dsms r)) MATCH_FIRST). Qed.

Lemma set_first_all_same did ranges : Forall resolved ranges -> map (set_first_dsm did) ranges = ranges.
Proof. induction 1 as [|r rs Hr _ IH]; cbn; [done|]. by rewrite IH, set_first_same. Qed.

Lemma include_set_first did r : include (set_first_dsm did r) = include r.
Proof. unfold set_first_dsm. by destruct (_ =? _). Qed.

Lemma excludes_set_first did ranges :
  forallb (fun r => negb (include r)) (map (set_first_dsm did) ranges) =
  forallb (fun r => negb (include r)) ranges.
Proof. induction ranges as [|r rs IH]; cbn; [done|]. by rewrite include_set_first, IH. Qed.

(** No criterion selects a sample whose id none matches. *)
Lemma find_none did sid tt filename ranges :
  Forall (fun r => fst (match_ids did sid r) = false) ranges ->
  List.find (selects did sid tt filename) ranges = None.
Proof. induction 1 as [|r rs Hr _ IH]; cbn; [done|]. unfold selects at 1. by rewrite Hr. Qed.

Record smatcher_inv (m : SampleMatcher) : Prop := {
  sm_excludes : _all_excludes m = forallb (fun r => negb (include r)) (_ranges m);
  sm_resolved : (_lookup m <> ∅ \/ _first_dsmid m <> 0) -> Forall resolved (_ranges m);
  sm_cache : forall id, _lookup m !! id = Some false ->
    Forall (fun r => fst (match_ids (GET_DSM_ID id) (GET_SPS_ID id) r) = false) (_ranges m);
  sm_first : 0 <= _first_dsmid m
}.

Lemma GET_DSM_ID_nonneg id : 0 <= GET_DSM_ID id.
Proof. rewrite GET_DSM_ID_mod. apply Z.mod_pos_bound. lia. Qed.

Lemma fixed_ranges_resolved id m : smatcher_inv m -> Forall resolved (fixed_ranges id m).
Proof.
  intros H. unfold fixed_ranges. destruct (Z.eqb_spec (_first_dsmid m) 0).
  - apply Forall_forall. intros r (r0 & -> & _)%list_elem_of_fmap.
    apply set_first_resolved, GET_DSM_ID_nonneg.
  - apply (sm_resolved m H). by right.
Qed.

(** The outcome of a call, in terms of the reference. *)
Definition range_post (id tt : Z) (filename : string) (m : SampleMatcher)
    (res : bool * option (option RangeMatcher) * SampleMatcher) : Prop :=
  let '(b, rm, m') := res in
  smatcher_inv m' /\ _ranges m' = fixed_ranges id m /\
  b = match_ref (fixed_ranges id m) (GET_DSM_ID id) (GET_SPS_ID id) tt filename /\
  match rm with
  | Some r => r = List.find (selects (GET_DSM_ID id) (GET_SPS_ID id) tt filename) (fixed_ranges id m)
  | None => _lookup m !! id = Some false /\ b = _all_excludes m /\
      List.find (selects (GET_DSM_ID id) (GET_SPS_ID id) tt filename) (fixed_ranges id m) = None
  end.

Lemma fixed_excludes id m : smatcher_inv m ->
  forallb (fun r => negb (include r)) (fixed_ranges id m) = _all_excludes m.
Proof.
  intros H. rewrite (sm_excludes m H). unfold fixed_ranges.
  destruct (_ =? 0); [apply excludes_set_first|done].
Qed.

Lemma cached_resolved id b m : smatcher_inv m -> _lookup m !! id = Some b -> Forall resolved (_ranges m).
Proof.
  intros H El. apply (sm_resolved m H). left. intros E. rewrite E in El. by rewrite lookup_empty in El.
Qed.

Lemma fixed_same id m : Forall resolved (_ranges m) -> fixed_ranges id m = _ranges m.
Proof. intros Hr. unfold fixed_ranges. destruct (_ =? 0); [by apply set_first_all_same|done]. Qed.

Lemma match_scan_spec id tt filename m :
  smatcher_inv m -> range_post id tt filename m (match_scan id tt filename m).
Proof.
  intros H. pose proof (fixed_ranges_resolved id m H) as Hres. pose proof (fixed_excludes id m H) as Hex.
  unfold match_scan.
  pose proof (find_range_spec (GET_DSM_ID id) (GET_SPS_ID id) tt filename _ Hres) as Hf.
  destruct (find_range _ _ _ _ _) as [[rs matched] found]. destruct Hf as (-> & Hf & Hm). cbn zeta.
  unfold range_post, match_ref. rewrite <- Hf, <- Hex. split; [|by split_and!]. split; cbn.
  - by rewrite Hex.
  - done.
  - intros id'. destruct (decide (id' = id)) as [->|Hne].
    + rewrite lookup_insert_eq. intros [= ->]. by apply Hm.
    + rewrite lookup_insert_ne by done. intros El.
      rewrite fixed_same by (by eapply cached_resolved). by apply (sm_cache m H).
  - pose proof (GET_DSM_ID_nonneg id). pose proof (sm_first m H). destruct (_ =? 0); done.
Qed.

(** What a call of [match_range] returns and keeps. *)
Lemma match_range_spec id tt filename m :
  smatcher_inv m -> range_post id tt filename m (match_range id tt filename m).
Proof.
  intros H. unfold match_range. destruct (_lookup m !! id) as [[]|] eqn:El; try by apply match_scan_spec.
  pose proof (fixed_same id m (cached_resolved _ _ _ H El)) as Hsame.
  pose proof (find_none _ _ tt filename _ (sm_cache m H id El)) as Hn.
  unfold range_post, match_ref. rewrite Hsame, Hn, <- (sm_excludes m H).
  split; [|by split_and!]. split; try apply H.
Qed.

Lemma addCriteria_inv rm m : smatcher_inv m -> smatcher_inv (addCriteria rm m).
Proof.
  intros H. pose proof (sm_first m H) as Hf. split; cbn.
  - done.
  - intros [Hc|Hc]; [done|]. apply Forall_app. split; [apply (sm_resolved m H); by right|].
    apply Forall_singleton. destruct (Z.eqb_spec (_first_dsmid m) 0); [done|]. cbn.
    by apply set_first_resolved.
  - intros id. by rewrite lookup_empty.
  - done.
Qed.

(** ** States of a matcher *)

Inductive matcher_reach : SampleMatcher -> Prop :=
| mreach_new : matcher_reach newSampleMatcher
| mreach_add m rm : matcher_reach m -> matcher_reach (addCriteria rm m)
| mreach_times m t1 t2 : matcher_reach m ->
    matcher_reach (mkSampleMatcher (_ranges m) (_lookup m) t1 t2 (_first_dsmid m) (_all_excludes m)
                     (_nsamples m) (_nexcluded m) (_ncached m))
| mreach_match m id tt filename b rm m' :
    matcher_reach m -> match_range id tt filename m = (b, rm, m') -> matcher_reach m'.

Lemma matcher_reach_inv m : matcher_reach m -> smatcher_inv m.
Proof.
  induction 1 as [|m rm _ IH|m t1 t2 _ IH|m id tt filename b rm m' _ IH E].
  - split; cbn; [done | intros _; constructor | intros id; by rewrite lookup_empty | done].
  - by apply addCriteria_inv.
  - destruct IH. by split.
  - pose proof (match_range_spec id tt filename m IH) as Hs. rewrite E in Hs. apply Hs.
Qed.

(** A target range that fits its field, and is a single id when the source
    has no upper bound. *)
Definition target_ok (width : Z) (src tgt : id_range) : Prop :=
  range_ok src tgt /\ 0 <= first tgt /\ last tgt < width /\
  (first tgt = last tgt \/ 0 <= last src /\ first src <> MATCH_FIRST).

Definition targets_ok (r : RangeMatcher) : Prop :=
  target_ok 1024 (dsms r) (target_dsms r) /\ target_ok 65536 (sids r) (target_sids r).

Lemma set_first_targets did r : targets_ok r -> targets_ok (set_first_dsm did r).
Proof.
  intros [((A1 & A2 & A3) & A4 & A5 & A6) Hs]. unfold set_first_dsm.
  destruct (Z.eqb_spec (first (dsms r)) MATCH_FIRST) as [E|E]; [|by split].
  split; [|exact Hs]. unfold target_ok, range_ok. cbn. split_and!; try done; try lia; left; intuition lia.
Qed.

Lemma fixed_targets id m : Forall targets_ok (_ranges m) -> Forall targets_ok (fixed_ranges id m).
Proof.
  intros H. unfold fixed_ranges. destruct (_ =? 0); [|done].
  apply Forall_forall. intros r (r0 & -> & Hr)%list_elem_of_fmap. rewrite Forall_forall in H.
  apply set_first_targets. by apply H.
Qed.

(** The bounds that a match establishes. *)
Definition in_range (id : Z) (r : id_range) : Prop := first r <= id /\ (id <= last r \/ last r < 0).

Lemma match_ids_bounds did sid r :
  resolved r -> fst (match_ids did sid r) = true -> in_range did (dsms r) /\ in_range sid (sids r).
Proof.
  intros Hr. unfold match_ids. rewrite set_first_same by done. unfold in_range.
  destruct (_ || _) eqn:E1; [done|]. destruct (_ || _) eqn:E2 at 1; [done|]. intros _.
  apply orb_false_iff in E1 as [E1 E1'], E2 as [E2 E2'].
  apply andb_false_iff in E1', E2'. bdestr; intuition (try lia; try discriminate).
Qed.

(** An id that is matched is mapped into the target range. *)
Lemma remap_in_target width src tgt id :
  target_ok width src tgt -> 0 <= id < width -> in_range id src ->
  0 <= remap_id src tgt id < width /\
  (first tgt <> 0 -> first tgt <= remap_id src tgt id <= last tgt).
Proof.
  intros ((A1 & A2 & A3) & A4 & A5 & A6) Hid [B1 B2]. unfold remap_id.
  destruct (Z.eqb_spec (first tgt) 0); cbn [negb]; [lia|].
  destruct (Z.eqb_spec (first tgt) (last tgt)); lia.
Qed.

(** The new id has the new fields. *)
Lemma set_both_ids id did sid :
  0 <= id < 2 ^ 26 -> 0 <= did < 1024 -> 0 <= sid < 65536 ->
  let id' := SET_SPS_ID (SET_DSM_ID id did) sid in
  0 <= id' < 2 ^ 26 /\ GET_DSM_ID id' = did /\ GET_SPS_ID id' = sid.
Proof.
  intros Hid Hd Hs. cbn zeta.
  rewrite SET_DSM_ID_arith by lia. set (t := _ + _ + _) || set (t := _ + _).
  assert (Ht : 0 <= t < 2 ^ 26) by (subst t; dlia).
  rewrite SET_SPS_ID_arith by lia. rewrite GET_DSM_ID_mod, GET_SPS_ID_mod.
  subst t. dlia.
Qed.

(** ** Properties *)

(** C22: the cache is invisible.  In every state of a matcher, however many
    samples were matched before and in whatever order criteria were added,
    [match_range] answers as the criteria alone do: the first criterion that
    selects the id, the time and the file decides, and if there is none the
    sample is accepted exactly when all criteria are exclusions.  The only
    change to the criteria is that [.] becomes the DSM of the first sample. *)
Theorem cache_transparent m id tt filename :
  matcher_reach m ->
  let '(b, rm, m') := match_range id tt filename m in
  b = match_ref (fixed_ranges id m) (GET_DSM_ID id) (GET_SPS_ID id) tt filename /\
  _ranges m' = fixed_ranges id m /\
  fixed_ranges id m' = _ranges m' /\
  (forall r, rm = Some r ->
     r = List.find (selects (GET_DSM_ID id) (GET_SPS_ID id) tt filename) (fixed_ranges id m)).
Proof.
  intros Hr. pose proof (matcher_reach_inv m Hr) as H. pose proof (match_range_spec id tt filename m H) as Hs.
  destruct (match_range id tt filename m) as [[b rm] m']. destruct Hs as (Hi & E1 & E2 & E3).
  split; [done|]. split; [done|]. split.
  - apply fixed_same. rewrite E1. by apply fixed_ranges_resolved.
  - by intros r ->.
Qed.

(** Parsing.  A criterion text that is accepted gives ordered id ranges,
    no [.] for sample ids, target ranges that are single ids or as long as
    their sources, and includes or excludes according to the leading [^]. *)
Theorem parse_specifier_ok convert spec rm :
  parse_specifier convert spec newRangeMatcher = Some rm ->
  matcher_ok rm /\ include rm = negb (excluding spec).
Proof.
  rewrite parse_specifier_cases. destruct (excluding spec); intros E;
    (eapply parse_fields_ok in E as [H1 H2]; [|apply newRangeMatcher_ok]); by rewrite H2.
Qed.

(** Reassignment of ids.  Unless all criteria are exclusions (see
    [reassign_unset_pointer]), [match_with_reassign] returns; a sample that is
    not accepted keeps its id; an accepted one was selected by an including
    criterion, and its new DSM and sample ids are those of the criterion's
    remapping, which lie in the target ranges if there are any. *)
Theorem reassign_in_target m id tt filename :
  matcher_reach m -> 0 <= id < 2 ^ 26 -> _all_excludes m = false ->
  Forall targets_ok (_ranges m) ->
  exists b id' m', match_with_reassign id tt filename m = (inr (b, id'), m') /\
    (b = false -> id' = id) /\
    (b = true -> exists r, r ∈ fixed_ranges id m /\
       selects (GET_DSM_ID id) (GET_SPS_ID id) tt filename r = true /\ include r = true /\
       (GET_DSM_ID id', GET_SPS_ID id') = remap_ids r (GET_DSM_ID id) (GET_SPS_ID id) /\
       (first (target_dsms r) <> 0 -> first (target_dsms r) <= GET_DSM_ID id' <= last (target_dsms r)) /\
       (first (target_sids r) <> 0 -> first (target_sids r) <= GET_SPS_ID id' <= last (target_sids r))).
Proof.
  intros Hr Hid Hex Htg. pose proof (matcher_reach_inv m Hr) as H. unfold match_with_reassign.
  destruct (_ || _); [by eexists false, id, m|].
  pose proof (match_range_spec id tt filename m H) as Hs.
  destruct (match_range id tt filename m) as [[b rm] m']. destruct Hs as (_ & _ & Eb & Hrm).
  destruct b; cbn [negb]; [|by exists false, id, m'].
  destruct rm as [rm|]; [|destruct Hrm as (_ & E & _); congruence].
  unfold match_ref in Eb. rewrite <- Hrm in Eb. rewrite fixed_excludes in Eb by done.
  destruct rm as [r|]; [|congruence]. symmetry in Hrm. apply find_some in Hrm as [Hin Hsel].
  apply list_elem_of_In in Hin.
  pose proof (fixed_ranges_resolved id m H) as Hres. rewrite Forall_forall in Hres.
  pose proof (fixed_targets id m Htg) as Htg'. rewrite Forall_forall in Htg'.
  destruct (Htg' _ Hin) as [T1 T2].
  assert (Hm : fst (match_ids (GET_DSM_ID id) (GET_SPS_ID id) r) = true)
    by (unfold selects in Hsel; by apply andb_true_iff in Hsel as [? _]).
  apply match_ids_bounds in Hm as [B1 B2]; [|by apply Hres].
  assert (W1 : 0 <= GET_DSM_ID id < 1024) by (rewrite GET_DSM_ID_mod; apply Z.mod_pos_bound; lia).
  assert (W2 : 0 <= GET_SPS_ID id < 65536) by (rewrite GET_SPS_ID_mod; apply Z.mod_pos_bound; lia).
  destruct (remap_in_target _ _ _ _ T1 W1 B1) as [R1 R2].
  destruct (remap_in_target _ _ _ _ T2 W2 B2) as [R3 R4].
  destruct (_ || _) eqn:Etgt.
  - cbn [remap_ids].
    destruct (set_both_ids id _ _ Hid R1 R3) as (_ & S1 & S2).
    eexists true, _, m'. split; [reflexivity|]. split; [done|]. intros _. exists r.
    rewrite S1, S2. by split_and!.
  - exists true, id, m'. split; [done|]. split; [done|]. intros _. exists r.
    apply orb_false_iff in Etgt as [E1 E2]. apply negb_false_iff, Z.eqb_eq in E1, E2.
    unfold remap_ids, remap_id. rewrite E1, E2. cbn. by split_and!.
Qed.

(** With exclusions only, [match_with_reassign] reads an unset pointer:
    the second sample of an id that no criterion matches is answered from the
    cache, which leaves the pointer unset, and is accepted. *)
Theorem reassign_unset_pointer :
  exists rm, parse_specifier (fun _ => None) "^1,2" newRangeMatcher = Some rm /\
  let m0 := addCriteria rm newSampleMatcher in
  let id := SET_SPS_ID (SET_DSM_ID 0 3) 4 in
  let '(r1, m1) := match_with_reassign id 0 EmptyString m0 in
  r1 = inr (true, id) /\ fst (match_with_reassign id 0 EmptyString m1) = inl Uninitialised.
Proof.
  destruct (parse_specifier (fun _ => None) "^1,2" newRangeMatcher) as [rm|] eqn:E;
    [|vm_compute in E; discriminate E].
  exists rm. split; [done|]. vm_compute in E. injection E as <-. vm_compute. split; reflexivity.
Qed.

(** An empty input name does not match a criterion with a file pattern. *)
Theorem empty_filename_not_matched r :
  file_pattern r <> EmptyString -> match_file EmptyString r = false.
Proof.
  intros Hp. unfold match_file. destruct (String.eqb_spec (file_pattern r) EmptyString); [done|].
  by destruct (file_pattern r).
Qed.

(** ** Witnesses *)

Definition witness_range : RangeMatcher :=
  mkRangeMatcher (mkRange 1 3) (mkRange 10 20) UTIME_MIN UTIME_MAX EmptyString true (mkRange 5 7) (mkRange 40 40).

Example parse_witness_range :
  parse_specifier (fun _ => None) "1-3=5-7,10-20=0x28" newRangeMatcher = Some witness_range.
Proof. vm_compute. reflexivity. Qed.

Example parse_rejects :
  map (fun s => parse_specifier (fun _ => None) s newRangeMatcher)
    [EmptyString; "3-1"; "1,."; "1,2,3"; "-2"; "1-3=5-6"; "1=*"; "1,2,[x"]%string = replicate 8 None.
Proof. vm_compute. reflexivity. Qed.

Definition witness_id : Z := SET_SPS_ID (SET_DSM_ID 0 2) 11.

Lemma cache_transparent_witness :
  fst (fst (match_range witness_id 0 EmptyString (addCriteria witness_range newSampleMatcher))) =
  match_ref [witness_range] 2 11 0 EmptyString.
Proof.
  pose proof (cache_transparent (addCriteria witness_range newSampleMatcher) witness_id 0 EmptyString
    (mreach_add _ witness_range mreach_new)) as H.
  destruct (match_range witness_id 0 EmptyString _) as [[b rm] m'].
  destruct H as (H & _). rewrite H. vm_compute. reflexivity.
Defined.

Lemma parse_specifier_ok_witness : matcher_ok witness_range /\ include witness_range = true.
Proof.
  exact (parse_specifier_ok (fun _ => None) "1-3=5-7,10-20=0x28" witness_range parse_witness_range).
Defined.

Lemma reassign_in_target_witness :
  exists id' m', match_with_reassign witness_id 0 EmptyString (addCriteria witness_range newSampleMatcher)
    = (inr (true, id'), m') /\ GET_DSM_ID id' = 6 /\ GET_SPS_ID id' = 40.
Proof.
  destruct (reassign_in_target (addCriteria witness_range newSampleMatcher) witness_id 0 EmptyString)
    as (b & id' & m' & E & _ & H).
  - apply mreach_add, mreach_new.
  - vm_compute. split; congruence.
  - reflexivity.
  - constructor; [|constructor]. unfold targets_ok, target_ok, range_ok, MATCH_FIRST. cbn.
    split_and!; try lia; auto with lia.
  - exists id', m'. vm_compute in E. injection E as <- <- <-. split; [vm_compute; reflexivity|].
    split; reflexivity.
Defined.

Lemma empty_filename_not_matched_witness :
  match_file EmptyString (mkRangeMatcher (mkRange 1 1) (mkRange 1 1) 0 0 "a" true (mkRange 0 0) (mkRange 0 0)) = false.
Proof. apply empty_filename_not_matched. discriminate. Defined.
