(* ===== verification/BadSampleFilter.v ===== *)
(** * Screening of sample headers.

    [src/src/nidas/core/BadSampleFilter.cc]: the rules that decide whether a
    sample header read from a file is plausible, and their text form.
    [UTime::parse] is the argument [parse] of the rule parser. *)

From Stdlib Require Import String Ascii.
From S2P Require Import Prelude StringUtil SampleId.

Local Open Scope Z_scope.

Record BadSampleFilter := mkFilter {
  _filterBadSamples : bool;
  _minDsmId : Z;
  _maxDsmId : Z;
  _minSampleLength : Z;
  _maxSampleLength : Z;
  _minSampleTime : Z;
  _maxSampleTime : Z;
  _skipNidasHeader : bool;
  _sampleType : sampleType
}.

#[export] Instance BadSampleFilter_eq_dec : EqDecision BadSampleFilter.
Proof. solve_decision. Defined.

Definition newFilter : BadSampleFilter :=
  mkFilter false 1 1024 1 32768 LONG_LONG_MIN LONG_LONG_MAX false UNKNOWN_ST.

(** ** Setters *)

Definition setFilterBadSamples (val : bool) (f : BadSampleFilter) : BadSampleFilter :=
  mkFilter val (_minDsmId f) (_maxDsmId f) (_minSampleLength f) (_maxSampleLength f)
    (_minSampleTime f) (_maxSampleTime f) (_skipNidasHeader f) (_sampleType f).

Definition setMinDsmId (val : Z) (f : BadSampleFilter) : BadSampleFilter :=
  setFilterBadSamples true
    (mkFilter (_filterBadSamples f) val (_maxDsmId f) (_minSampleLength f) (_maxSampleLength f)
       (_minSampleTime f) (_maxSampleTime f) (_skipNidasHeader f) (_sampleType f)).

Definition setMaxDsmId (val : Z) (f : BadSampleFilter) : BadSampleFilter :=
  setFilterBadSamples true
    (mkFilter (_filterBadSamples f) (_minDsmId f) val (_minSampleLength f) (_maxSampleLength f)
       (_minSampleTime f) (_maxSampleTime f) (_skipNidasHeader f) (_sampleType f)).

Definition setMinSampleLength (val : Z) (f : BadSampleFilter) : BadSampleFilter :=
  setFilterBadSamples true
    (mkFilter (_filterBadSamples f) (_minDsmId f) (_maxDsmId f) val (_maxSampleLength f)
       (_minSampleTime f) (_maxSampleTime f) (_skipNidasHeader f) (_sampleType f)).

Definition setMaxSampleLength (val : Z) (f : BadSampleFilter) : BadSampleFilter :=
  setFilterBadSamples true
    (mkFilter (_filterBadSamples f) (_minDsmId f) (_maxDsmId f) (_minSampleLength f) val
       (_minSampleTime f) (_maxSampleTime f) (_skipNidasHeader f) (_sampleType f)).

Definition setMinSampleTime (val : Z) (f : BadSampleFilter) : BadSampleFilter :=
  setFilterBadSamples true
    (mkFilter (_filterBadSamples f) (_minDsmId f) (_maxDsmId f) (_minSampleLength f)
       (_maxSampleLength f) val (_maxSampleTime f) (_skipNidasHeader f) (_sampleType f)).

Definition setMaxSampleTime (val : Z) (f : BadSampleFilter) : BadSampleFilter :=
  setFilterBadSamples true
    (mkFilter (_filterBadSamples f) (_minDsmId f) (_maxDsmId f) (_minSampleLength f)
       (_maxSampleLength f) (_minSampleTime f) val (_skipNidasHeader f) (_sampleType f)).

Definition setSkipNidasHeader (enable : bool) (f : BadSampleFilter) : BadSampleFilter :=
  mkFilter (_filterBadSamples f) (_minDsmId f) (_maxDsmId f) (_minSampleLength f)
    (_maxSampleLength f) (_minSampleTime f) (_maxSampleTime f) enable (_sampleType f).

Definition setSampleTypeLimit (stype : sampleType) (f : BadSampleFilter) : BadSampleFilter :=
  setFilterBadSamples true
    (mkFilter (_filterBadSamples f) (_minDsmId f) (_maxDsmId f) (_minSampleLength f)
       (_maxSampleLength f) (_minSampleTime f) (_maxSampleTime f) (_skipNidasHeader f) stype).

(** [UTime::isSet] *)
Definition isSet (t : Z) : bool := negb (t =? LONG_LONG_MIN) && negb (t =? LONG_LONG_MAX).

Definition setDefaultTimeRange (start finish : Z) (f : BadSampleFilter) : BadSampleFilter :=
  let t1 := if (_minSampleTime f =? LONG_LONG_MIN) && isSet start
            then start - USECS_PER_DAY else _minSampleTime f in
  let t2 := if (_maxSampleTime f =? LONG_LONG_MAX) && isSet finish
            then finish + USECS_PER_DAY else _maxSampleTime f in
  mkFilter (_filterBadSamples f) (_minDsmId f) (_maxDsmId f) (_minSampleLength f)
    (_maxSampleLength f) t1 t2 (_skipNidasHeader f) (_sampleType f).

(** ** invalidSampleHeader *)

(** [_sampleType != UNKNOWN_ST && sheader.getType() != _sampleType] *)
Definition wrongType (f : BadSampleFilter) (h : SampleHeader) : bool :=
  negb (sampleType_enum (_sampleType f) =? sampleType_enum UNKNOWN_ST) &&
  negb (getType h =? sampleType_enum (_sampleType f)).

Definition invalidSampleHeader (f : BadSampleFilter) (h : SampleHeader) : bool :=
  if negb (_filterBadSamples f) then false
  else
    wrongType f h ||
    (sampleType_enum UNKNOWN_ST <=? getType h) ||
    (GET_DSM_ID (getId h) <? _minDsmId f) ||
    (_maxDsmId f <? GET_DSM_ID (getId h)) ||
    (_length h <? _minSampleLength f) ||
    (_maxSampleLength f <? _length h) ||
    (_tt h <? _minSampleTime f) ||
    (_maxSampleTime f <? _tt h).

(** The messages of [explainFilter]. *)
Inductive reason :=
| TypeNotAccepted (t : Z) | TypeInvalid (t : Z) | DsmOutOfRange (d : Z)
| LengthOutOfRange (n : Z) | TimeOutOfRange (t : Z).

Definition explainFilter (f : BadSampleFilter) (h : SampleHeader) : list reason :=
  (if wrongType f h then [TypeNotAccepted (getType h)] else []) ++
  (if sampleType_enum UNKNOWN_ST <=? getType h then [TypeInvalid (getType h)] else []) ++
  (if (GET_DSM_ID (getId h) <? _minDsmId f) || (_maxDsmId f <? GET_DSM_ID (getId h))
   then [DsmOutOfRange (GET_DSM_ID (getId h))] else []) ++
  (if (_length h <? _minSampleLength f) || (_maxSampleLength f <? _length h)
   then [LengthOutOfRange (_length h)] else []) ++
  (if (_tt h <? _minSampleTime f) || (_maxSampleTime f <? _tt h)
   then [TimeOutOfRange (_tt h)] else []).

(** ** Rules *)

(** [convert(text,bool)] *)
Definition convert_bool (text : string) : option bool :=
  if String.eqb text "on" then Some true
  else if String.eqb text "off" then Some false else None.

(** [convert(text,unsigned int)]: [strtoul] with base 0 of the whole text,
    no minus sign, low 32 bits. *)
Definition convert_uint (text : string) : option Z :=
  match String.index 0 "-" text with
  | Some _ => None
  | None =>
      let s := match skipspace text with String "+" s => s | s => s end in
      match magnitude s with
      | Some v => if v <? 2 ^ 64 then Some (u32 v) else None
      | None => None
      end
  end.

(** The rules with a value, in the order they are tried. *)
Inductive setting :=
| SetUint (set : Z -> BadSampleFilter -> BadSampleFilter)
| SetTime (set : Z -> BadSampleFilter -> BadSampleFilter)
| SetBool (set : bool -> BadSampleFilter -> BadSampleFilter).

Definition rule_table : list (string * setting) :=
  [("mindsm"%string, SetUint setMinDsmId); ("maxdsm"%string, SetUint setMaxDsmId);
   ("minlen"%string, SetUint setMinSampleLength); ("maxlen"%string, SetUint setMaxSampleLength);
   ("mintime"%string, SetTime setMinSampleTime); ("maxtime"%string, SetTime setMaxSampleTime);
   ("skipnidasheader"%string, SetBool setSkipNidasHeader);
   ("on"%string, SetBool setFilterBadSamples); ("off"%string, SetBool setFilterBadSamples)].

Section Rules.
Context (parse : string -> option Z).

(** [check_rule], [check_time_rule] *)
Definition apply_setting (st : setting) (value : string) (f : BadSampleFilter) : option BadSampleFilter :=
  match st with
  | SetUint set => option_map (fun v => set v f) (convert_uint value)
  | SetTime set => option_map (fun v => set v f) (parse value)
  | SetBool set => option_map (fun v => set v f) (convert_bool value)
  end.

Fixpoint check_rules (table : list (string * setting)) (field value : string) (f : BadSampleFilter) :
    option BadSampleFilter :=
  match table with
  | [] => None
  | (name, st) :: table =>
      if String.eqb field name then apply_setting st value f else check_rules table field value f
  end.

(** [setRule]; [None] is the [NidasAppException]. *)
Definition setRule (rule : string) (f : BadSampleFilter) : option BadSampleFilter :=
  if String.eqb rule EmptyString then Some f
  else
    let '(field, value) :=
      if String.eqb rule "on" || String.eqb rule "off" || String.eqb rule "raw" then (rule, rule)
      else match String.index 0 "=" rule with
           | Some equal => (substring 0 equal rule, substring (equal + 1) (String.length rule) rule)
           | None => (rule, EmptyString)
           end in
    if String.eqb value "raw" then Some (setSampleTypeLimit CHAR_ST f)
    else if String.eqb value EmptyString then None
    else check_rules rule_table field value f.

(** [setRules]: up to each comma, then what follows it. *)
Fixpoint setRules_from (fuel : nat) (fields : string) (f : BadSampleFilter) : option BadSampleFilter :=
  match fuel with
  | O => None
  | S fuel =>
      if String.eqb fields EmptyString then Some f
      else
        match String.index 0 "," fields with
        | None => setRule fields f
        | Some comma =>
            match setRule (substring 0 comma fields) f with
            | None => None
            | Some f => setRules_from fuel (substring (comma + 1) (String.length fields) fields) f
            end
        end
  end.

Definition setRules (fields : string) (f : BadSampleFilter) : option BadSampleFilter :=
  setRules_from (S (String.length fields)) fields f.

End Rules.

(** [operator==] *)
Definition filter_eq (f g : BadSampleFilter) : bool :=
  Bool.eqb (_filterBadSamples f) (_filterBadSamples g) &&
  (_minDsmId f =? _minDsmId g) && (_maxDsmId f =? _maxDsmId g) &&
  (_minSampleLength f =? _minSampleLength g) && (_maxSampleLength f =? _maxSampleLength g) &&
  (_minSampleTime f =? _minSampleTime g) && (_maxSampleTime f =? _maxSampleTime g) &&
  Bool.eqb (_skipNidasHeader f) (_skipNidasHeader g) &&
  (sampleType_enum (_sampleType f) =? sampleType_enum (_sampleType g)).

(** ** Lemmas *)

Lemma app_nil_iff {A} (l k : list A) : l ++ k = [] <-> l = [] /\ k = [].
Proof. split; [apply app_nil|by intros [-> ->]]. Qed.

Lemma if_nil (b : bool) (r : reason) : (if b then [r] else []) = [] <-> b = false.
Proof. by destruct b. Qed.

Lemma substring_length n m s : (String.length (substring n m s) <= String.length s - n)%nat.
Proof.
  revert n m. induction s as [|c s IH]; intros n m; [by destruct n, m|].
  destruct n as [|n]; cbn [substring].
  - destruct m as [|m]; cbn [String.length]; [lia|]. specialize (IH 0%nat m). lia.
  - specialize (IH n m). cbn [String.length]. lia.
Qed.

(** Enough fuel: every comma shortens the text. *)
Lemma setRules_fuel parse fields f n1 n2 :
  (String.length fields < n1)%nat -> (String.length fields < n2)%nat ->
  setRules_from parse n1 fields f = setRules_from parse n2 fields f.
Proof.
  revert n2 fields f. induction n1 as [|n1 IH]; intros n2 fields f H1 H2; [lia|].
  destruct n2 as [|n2]; [lia|]. cbn. destruct (String.eqb_spec fields EmptyString) as [|Hne]; [done|].
  destruct (String.index 0 "," fields) as [comma|]; [|done].
  destruct (setRule parse _ f) as [f'|]; [|done].
  pose proof (substring_length (comma + 1) (String.length fields) fields) as Hl.
  destruct fields as [|c fields]; [done|]. cbn [String.length] in *. apply IH; lia.
Qed.

Definition enabling (st : setting) : bool :=
  match st with SetBool _ => false | _ => true end.

Lemma check_rules_enables parse table field value f f' :
  Forall (fun p => enabling (snd p) = true -> match snd p with
     | SetUint set | SetTime set => forall v g, _filterBadSamples (set v g) = true
     | SetBool _ => True end) table ->
  check_rules parse table field value f = Some f' ->
  (forall st, (field, st) ∈ table -> enabling st = true) -> _filterBadSamples f' = true.
Proof.
  induction 1 as [|[name st] table Hp _ IH]; cbn; [done|].
  destruct (String.eqb_spec field name) as [->|Hne].
  - intros E Hst. specialize (Hst st ltac:(by left)). specialize (Hp Hst). cbn in Hp.
    destruct st as [set|set|set]; [| |done]; cbn in E;
      [destruct (convert_uint value)|destruct (parse value)]; try done; cbn in E; injection E as <-; apply Hp.
  - intros E Hst. apply IH; [done|]. intros st' Hin. apply Hst. by right.
Qed.

(** ** Properties *)

(** A header is rejected exactly when filtering is on and
    [explainFilter] has something to say about it; and an accepted header
    has a valid type (the accepted one, if there is one) and its DSM id, data
    length and time tag inside the limits. *)
Theorem filter_explained f h :
  (invalidSampleHeader f h = true <-> _filterBadSamples f = true /\ explainFilter f h <> []) /\
  (_filterBadSamples f = true -> invalidSampleHeader f h = false ->
     getType h < 9 /\ (_sampleType f <> UNKNOWN_ST -> getType h = sampleType_enum (_sampleType f)) /\
     _minDsmId f <= GET_DSM_ID (getId h) <= _maxDsmId f /\
     _minSampleLength f <= _length h <= _maxSampleLength f /\
     _minSampleTime f <= _tt h <= _maxSampleTime f).
Proof.
  split.
  - unfold invalidSampleHeader. destruct (_filterBadSamples f); cbn [negb]; [|by split; [|intros [? _]]].
    rewrite <- not_false_iff_true. unfold explainFilter. rewrite !app_nil_iff, !if_nil, !orb_false_iff.
    split; [intros H; split; [done|]; tauto|intros [_ H]; tauto].
  - intros Hf. unfold invalidSampleHeader. rewrite Hf. cbn [negb]. rewrite !orb_false_iff.
    intros (((((((H1 & H2) & H3) & H4) & H5) & H6) & H7) & H8).
    apply Z.leb_gt in H2. apply Z.ltb_ge in H3, H4, H5, H6, H7, H8. cbn in H2.
    split; [lia|]. split; [|lia]. intros Ht. unfold wrongType in H1.
    apply andb_false_iff in H1 as [H1|H1]; apply negb_false_iff, Z.eqb_eq in H1; [|done].
    destruct (_sampleType f); done.
Qed.

(** [setRules] parses the whole text whatever its length, an empty text
    changes nothing, and a text without commas is one rule; after a rule that
    sets a limit the filter is on. *)
Theorem setRules_spec parse fields f :
  (fields = EmptyString -> setRules parse fields f = Some f) /\
  (fields <> EmptyString -> setRules parse fields f =
     match String.index 0 "," fields with
     | None => setRule parse fields f
     | Some comma => match setRule parse (substring 0 comma fields) f with
                     | None => None
                     | Some f' => setRules parse (substring (comma + 1) (String.length fields) fields) f'
                     end
     end) /\
  (forall field value f', check_rules parse rule_table field value f = Some f' ->
     field ∈ ["mindsm"; "maxdsm"; "minlen"; "maxlen"; "mintime"; "maxtime"]%string ->
     _filterBadSamples f' = true).
Proof.
  split; [by intros ->|]. split.
  - intros Hne. unfold setRules at 1. cbn [setRules_from].
    destruct (String.eqb_spec fields EmptyString) as [|_]; [done|].
    destruct (String.index 0 "," fields) as [comma|]; [|done].
    destruct (setRule parse _ f) as [f'|]; [|done]. unfold setRules. apply setRules_fuel; [|lia].
    pose proof (substring_length (comma + 1) (String.length fields) fields).
    destruct fields; [done|]. cbn [String.length] in *. lia.
  - intros field value f' E Hin. eapply check_rules_enables; [|exact E|].
    + repeat constructor; cbn; auto.
    + intros st Hst. unfold rule_table in Hst.
      repeat (apply elem_of_cons in Hst as [Hst|Hst]; [injection Hst as -> ->; try done;
        repeat (apply elem_of_cons in Hin as [Hin|Hin]; [discriminate Hin|]); by inversion Hin|]).
      inversion Hst.
Qed.

(** [operator==] is equality of all settings. *)
Theorem filter_eq_spec f g : filter_eq f g = true <-> f = g.
Proof.
  unfold filter_eq. rewrite !andb_true_iff, !Bool.eqb_true_iff, !Z.eqb_eq. split.
  - destruct f as [? ? ? ? ? ? ? ? t], g as [? ? ? ? ? ? ? ? u]; cbn.
    intros ((((((((-> & ->) & ->) & ->) & ->) & ->) & ->) & ->) & E). f_equal. by destruct t, u.
  - intros ->. by split_and!.
Qed.

(** Default times fill only limits that are unset, one day beyond the
    period, and never switch the filter on or off. *)
Theorem setDefaultTimeRange_spec start finish f :
  let f' := setDefaultTimeRange start finish f in
  _filterBadSamples f' = _filterBadSamples f /\
  (isSet (_minSampleTime f) = true -> _minSampleTime f' = _minSampleTime f) /\
  (isSet (_maxSampleTime f) = true -> _maxSampleTime f' = _maxSampleTime f) /\
  (_minSampleTime f = LONG_LONG_MIN -> isSet start = true -> _minSampleTime f' = start - USECS_PER_DAY) /\
  (_maxSampleTime f = LONG_LONG_MAX -> isSet finish = true -> _maxSampleTime f' = finish + USECS_PER_DAY).
Proof.
  unfold setDefaultTimeRange, isSet. cbn. split; [done|]. split_and!.
  - intros [H _]%andb_true_iff. apply negb_true_iff in H. by rewrite H.
  - intros [_ H]%andb_true_iff. apply negb_true_iff in H. by rewrite H.
  - intros -> H. by rewrite Z.eqb_refl, H.
  - intros -> H. by rewrite Z.eqb_refl, H.
Qed.

Example rules_default :
  setRules (fun _ => None) "skipnidasheader=off,maxdsm=1024,mindsm=1,maxlen=32768,minlen=1" newFilter
  = Some (setFilterBadSamples true newFilter).
Proof. vm_compute. reflexivity. Qed.

(** The key is not looked at when the value is [raw]. *)
Example rules_raw_any_key :
  setRules (fun _ => None) "nosuchkey=raw" newFilter = Some (setSampleTypeLimit CHAR_ST newFilter).
Proof. vm_compute. reflexivity. Qed.

(** The text that [operator<<] writes for the default filter is refused. *)
Example printed_rules_refused :
  setRules (fun _ => None)
    "off,skipnidasheader=off,mindsm=1,maxdsm=1024,minlen=1,maxlen=32768,type=valid" newFilter = None.
Proof. vm_compute. reflexivity. Qed.

Lemma filter_explained_witness :
  invalidSampleHeader (setFilterBadSamples true newFilter) (mkSampleHeader 0 0 (2 ^ 16)) = true.
Proof.
  apply (proj1 (filter_explained (setFilterBadSamples true newFilter) (mkSampleHeader 0 0 (2 ^ 16)))).
  split; [reflexivity|]. vm_compute. discriminate.
Defined.

Lemma setRules_spec_witness :
  _filterBadSamples (match setRules (fun _ => None) "minlen=5" newFilter with Some f => f | None => newFilter end) = true.
Proof.
  rewrite (proj1 (proj2 (setRules_spec (fun _ => None) "minlen=5" newFilter))) by discriminate.
  vm_compute. reflexivity.
Defined.

Lemma setDefaultTimeRange_spec_witness :
  _minSampleTime (setDefaultTimeRange 0 5 newFilter) = - USECS_PER_DAY.
Proof.
  exact (proj1 (proj2 (proj2 (proj2 (setDefaultTimeRange_spec 0 5 newFilter)))) eq_refl eq_refl).
Defined.
