(* ===== verification/Merge.v ===== *)
(** * Merging archives.

    [NidsMerge] of [src/src/nidas/apps/nidsmerge.cc]: the samples of several
    inputs are read a window of time ahead, sorted in a [SortedSampleSet3]
    that drops duplicates, and written in order.  What [readSample] returns
    for an input until its end is a list (the reading itself is
    [SampleStream.v]); the decision of the sample matcher is an argument.
    References to samples and the printed statistics are left out. *)

From S2P Require Import Prelude UTime SampleId Sample SampleSets.

(** ** Samples *)

Record msample := mkMSample { g_tt : Z; g_id : Z; g_type : sampleType; g_data : list Z }.

#[export] Instance msample_eq_dec : EqDecision msample.
Proof. solve_decision. Defined.

Definition elementSize (t : sampleType) : Z := Z.max 1 (sizeofType t).

(** What the containers see of it. *)
Definition g_sample (s : msample) : sample := mkSample (g_tt s) (g_id s) (elementSize (g_type s)) (g_data s).

Definition FullComparator (x y : msample) : bool := FullSampleComparator (g_sample x) (g_sample y).

Definition rawId (s : msample) : Z := Z.lor (Z.shiftl (sampleType_enum (g_type s)) 26) (g_id s).

(** [duplicateSample(samp)] with a new time tag. *)
Definition retime (t : Z) (s : msample) : msample := mkMSample t (g_id s) (g_type s) (g_data s).

(** ** State *)

Record InputStats := mkInputStats { st_nread : Z; st_nunique : Z; st_nnonincr : Z; st_nnonincr_free : Z }.

Definition noStats : InputStats := mkInputStats 0 0 0 0.

Definition addStats (a b : InputStats) : InputStats :=
  mkInputStats (st_nread a + st_nread b) (st_nunique a + st_nunique b) (st_nnonincr a + st_nnonincr b)
    (st_nnonincr_free a + st_nnonincr_free b).

Record InputInfo := mkInputInfo {
  in_samples : list msample;
  in_lastTime : Z;
  in_window : InputStats;
  in_total : InputStats;
  in_eof : bool
}.

Definition newInputInfo (l : list msample) : InputInfo := mkInputInfo l LONG_LONG_MIN noStats noStats false.

(** The members the filling of a window changes. *)
Record Sorters := mkSorters {
  sorter : list msample;
  nonincr : list msample;
  lastSampleTimes : gmap (nat * Z) Z;
  ndropped : Z
}.

Section Merge.

(** The matcher's decision for a sample of an input, the read-ahead time,
    and [--force-increasing-times]. *)
Context (matched : nat -> msample -> bool) (readAheadUsecs : Z) (forceIncreasingTimes : bool).

(** ** Filling a window *)

(** What is done with one sample that is not before the start time: the
    containers, the counts and [lastTime]. *)
Definition keepSample (ii : nat) (s : msample) (w : InputStats) (q : Sorters) : Sorters * InputStats * Z :=
  let w := mkInputStats (st_nread w + 1) (st_nunique w) (st_nnonincr w) (st_nnonincr_free w) in
  let found := lastSampleTimes q !! (ii, rawId s) in
  let lastSampleTime := default LONG_LONG_MIN found in
  let insert (s : msample) (ni : list msample) (w : InputStats) : Sorters * InputStats * Z :=
    let times := if lastSampleTime <? g_tt s then <[(ii, rawId s) := g_tt s]> (lastSampleTimes q)
                 else lastSampleTimes q in
    let '(so, new) := set_insert FullComparator s (sorter q) in
    (mkSorters so ni times (ndropped q),
     if new : bool then mkInputStats (st_nread w) (st_nunique w + 1) (st_nnonincr w) (st_nnonincr_free w) else w,
     g_tt s) in
  if bool_decide (is_Some found) && (g_tt s <=? lastSampleTime) then
    let w := mkInputStats (st_nread w) (st_nunique w) (st_nnonincr w + 1) (st_nnonincr_free w) in
    if forceIncreasingTimes then
      insert (retime (lastSampleTime + 1) s) (fst (set_insert FullComparator s (nonincr q))) w
    else insert s (nonincr q) w
  else if forceIncreasingTimes && existsb (equivalent FullComparator s) (nonincr q) then
    (q, mkInputStats (st_nread w) (st_nunique w) (st_nnonincr w) (st_nnonincr_free w + 1), g_tt s)
  else insert s (nonincr q) w.

(** The reading loop of one input: what is left of it, the fill time and the
    containers. *)
Fixpoint fillInput (ii : nat) (startTime filltime lastTime : Z) (l : list msample) (w : InputStats) (q : Sorters) :
    list msample * Z * InputStats * bool * Z * Sorters :=
  if lastTime <? filltime then
    match l with
    | [] => ([], LONG_LONG_MAX, w, true, filltime, q)
    | s :: l =>
        if negb (matched ii s) then fillInput ii startTime filltime lastTime l w q
        else
          let lastTime := g_tt s in
          let filltime :=
            if isMin startTime && (lastTime + readAheadUsecs <? filltime) then lastTime + readAheadUsecs else filltime in
          if lastTime <? startTime then
            fillInput ii startTime filltime lastTime l w
              (mkSorters (sorter q) (nonincr q) (lastSampleTimes q) (ndropped q + 1))
          else
            let '(q, w, lastTime) := keepSample ii s w q in
            fillInput ii startTime filltime lastTime l w q
    end
  else (l, lastTime, w, false, filltime, q).

(** The loop over the inputs. *)
Fixpoint fillInputs (ii : nat) (startTime filltime : Z) (inputs : list InputInfo) (q : Sorters) :
    list InputInfo * Z * Sorters :=
  match inputs with
  | [] => ([], filltime, q)
  | i :: inputs =>
      let '(i, filltime, q) :=
        if in_eof i then (i, filltime, q)
        else
          let '(l, lastTime, w, eof, filltime, q) :=
            fillInput ii startTime filltime (in_lastTime i) (in_samples i) noStats q in
          (mkInputInfo l lastTime w (in_total i) eof, filltime, q) in
      let '(inputs, filltime, q) := fillInputs (S ii) startTime filltime inputs q in
      (i :: inputs, filltime, q)
  end.

(** ** Output *)

(** [find_preceding_samples]: before the empty sample of time [tcur]. *)
Definition precedingSamples (tcur : Z) (l : list msample) : list msample * list msample :=
  lower_bound FullComparator (mkMSample tcur 0 CHAR_ST []) l.

(** [flushSorter(tcur,outStream)]: the samples written, and the sorter. *)
Definition flushSorter (endTime tcur : Z) (q : Sorters) : list msample * Sorters :=
  let '(before, after) := precedingSamples tcur (sorter q) in
  (List.filter (fun s => negb (isSetTime endTime) || (g_tt s <? endTime)) before,
   mkSorters after (nonincr q) (lastSampleTimes q) (ndropped q)).

(** [ageOffNonIncr(tt,nonincr)] *)
Definition ageOffNonIncr (tt : Z) (q : Sorters) : Sorters :=
  mkSorters (sorter q) (snd (precedingSamples tt (nonincr q))) (lastSampleTimes q) (ndropped q).

(** ** The merge loop *)

Record MergeState := mkMergeState {
  inputs : list InputInfo;
  containers : Sorters;
  startTime : Z;
  tcur : Z;
  nloops : Z;
  output : list msample
}.

Definition numOpen (l : list InputInfo) : Z := zlen (List.filter (fun i => negb (in_eof i)) l).

Definition mergeMore (endTime : Z) (m : MergeState) : bool :=
  (0 <? numOpen (inputs m)) && (negb (isSetTime endTime) || (tcur m <? endTime + readAheadUsecs)).

(** One turn of the loop, with the increment of [tcur]. *)
Definition mergeWindow (endTime : Z) (m : MergeState) : MergeState :=
  let nloops := nloops m + 1 in
  let filltime := if isMin (startTime m) then LONG_LONG_MAX else tcur m + readAheadUsecs in
  let '(ins, filltime, q) := fillInputs 0 (startTime m) filltime (inputs m) (containers m) in
  let '(tcur, startTime) :=
    if isMin (startTime m) && negb (filltime =? LONG_LONG_MAX)
    then (filltime - readAheadUsecs, filltime - readAheadUsecs) else (tcur m, startTime m) in
  let ins := map (fun i => mkInputInfo (in_samples i) (in_lastTime i) (in_window i) (addStats (in_total i) (in_window i)) (in_eof i)) ins in
  let '(out, q) :=
    if nloops =? 1 then ([], q)
    else let '(out, q) := flushSorter endTime tcur q in (out, ageOffNonIncr tcur q) in
  mkMergeState ins q startTime (tcur + readAheadUsecs) nloops (output m ++ out).

Fixpoint mergeLoop (fuel : nat) (endTime : Z) (m : MergeState) : option MergeState :=
  if mergeMore endTime m then
    match fuel with
    | O => None
    | S fuel => mergeLoop fuel endTime (mergeWindow endTime m)
    end
  else Some m.

Definition newMerge (start : Z) (streams : list (list msample)) : MergeState :=
  mkMergeState (map newInputInfo streams) (mkSorters [] [] ∅ 0) start start 0 [].

(** [run()]: the samples written, [None] when the bound on the turns is
    reached. *)
Definition mergeRun (fuel : nat) (start endTime : Z) (streams : list (list msample)) : option (list msample) :=
  match mergeLoop fuel endTime (newMerge start streams) with
  | None => None
  | Some m => Some (output m ++ fst (flushSorter endTime LONG_LONG_MAX (containers m)))
  end.

End Merge.

(** ** The order of the sorter *)

Lemma g_sample_ok s : sample_ok (g_sample s).
Proof. apply (Z.le_max_l 1 (sizeofType (g_type s))). Qed.

#[export] Instance full_swo : StrictWeakOrder FullComparator.
Proof.
  apply (lexlt_swo (fun s => fullKey (g_sample s))). intros x y. apply full_key; apply g_sample_ok.
Qed.

Lemma full_lt_tt x y : FullComparator x y = true -> g_tt x <= g_tt y.
Proof. unfold FullComparator, FullSampleComparator. cbn. bdestr; try done; lia. Qed.

Lemma full_tt_lt x y : g_tt x < g_tt y -> FullComparator x y = true.
Proof. unfold FullComparator, FullSampleComparator. cbn. intros. bdestr; try done; lia. Qed.

Definition equiv (x y : msample) : Prop := equivalent FullComparator x y = true.

Lemma equiv_refl x : equiv x x.
Proof. unfold equiv, equivalent. by rewrite (swo_irrefl (lt := FullComparator)). Qed.

Lemma equiv_tt x y : equiv x y -> g_tt x = g_tt y.
Proof.
  unfold equiv, equivalent. intros [H1%negb_true_iff H2%negb_true_iff]%andb_true_iff.
  destruct (Z.lt_trichotomy (g_tt x) (g_tt y)) as [H|[H|H]]; [|done|];
    pose proof (full_tt_lt _ _ H); congruence.
Qed.

Lemma preceding_spec t l :
  strictly_ascending FullComparator l -> Forall (fun s => 0 <= g_id s) l ->
  let '(a, b) := precedingSamples t l in
  l = a ++ b /\ Forall (fun s => g_tt s < t) a /\ Forall (fun s => t <= g_tt s) b.
Proof.
  intros Hs Hid. unfold precedingSamples. set (d := mkMSample t 0 CHAR_ST []).
  pose proof (lower_bound_app FullComparator d l) as E. pose proof (lower_bound_before FullComparator d l) as B.
  assert (Ha : ascending FullComparator l).
  { eapply StronglySorted_mono; [|exact Hs]. intros x y. cbn. apply (swo_asym FullComparator). }
  pose proof (lower_bound_after FullComparator d l Ha) as A.
  destruct (lower_bound FullComparator d l) as [a b]. cbn [fst snd] in *. split; [done|].
  rewrite <- E in Hid. apply Forall_app in Hid as [Hia _]. split.
  - apply Forall_forall. intros x Hx. rewrite Forall_forall in B, Hia. specialize (B x Hx). specialize (Hia x Hx).
    assert (Hlen : 0 <= s_len (g_sample x)).
    { unfold s_len, s_bytes. apply Z.div_pos; [apply zlen_nonneg|]. pose proof (g_sample_ok x) as Ho.
      unfold sample_ok in Ho. lia. }
    cbn in B, Hia. revert B. unfold FullComparator, FullSampleComparator, d.
    change (s_len (g_sample (mkMSample t 0 CHAR_ST []))) with 0. cbn [s_tt s_id s_data g_sample g_tt g_id g_data].
    bdestr; try done; try lia. rewrite e1 in *. change (Z.to_nat 0) with 0%nat in *.
    destruct (g_data x); cbn in *; lia.
  - eapply Forall_impl; [exact A|]. cbn. intros x Hx. destruct (Z_lt_le_dec (g_tt x) t) as [H|H]; [|done].
    by rewrite (full_tt_lt x d H) in Hx.
Qed.

(** ** The sorter holds what was seen *)

(** The sorter holds, without duplicates, the samples seen from time [B] on. *)
Definition sorter_holds (B : Z) (seen : msample -> Prop) (q : Sorters) : Prop :=
  strictly_ascending FullComparator (sorter q) /\ (forall x, x ∈ sorter q -> B <= g_tt x /\ seen x) /\
  (forall x, seen x -> B <= g_tt x -> exists y, y ∈ sorter q /\ equiv x y).

Lemma sorter_insert B seen s q q' :
  sorter_holds B seen q -> B <= g_tt s -> sorter q' = fst (set_insert FullComparator s (sorter q)) ->
  sorter_holds B (fun x => seen x \/ x = s) q'.
Proof.
  intros (H1 & H2 & H3) Hs E. destruct (set_insert_strict FullComparator s (sorter q) H1) as (S1 & S2 & S3).
  unfold sorter_holds. rewrite E. destruct (set_insert FullComparator s (sorter q)) as [so b]. cbn [fst snd] in *.
  split; [done|]. destruct b.
  - specialize (S2 eq_refl). split.
    + intros x. rewrite S2. intros [->|Hx]%elem_of_cons; [auto|]. destruct (H2 x Hx). auto.
    + intros x [Hx| ->] Hb.
      * destruct (H3 x Hx Hb) as (y & Hy & Hxy). exists y. rewrite S2. split; [by right|done].
      * exists s. rewrite S2. split; [by left|apply equiv_refl].
  - destruct (S3 eq_refl) as (-> & y & Hy & Hsy). split.
    + intros x Hx. destruct (H2 x Hx). auto.
    + intros x [Hx| ->] Hb; [by apply H3|]. by exists y.
Qed.

Lemma sorter_holds_ext B (seen seen' : msample -> Prop) q q' :
  (forall x, seen x <-> seen' x) -> sorter q = sorter q' -> sorter_holds B seen q -> sorter_holds B seen' q'.
Proof.
  intros E Eq (H1 & H2 & H3). unfold sorter_holds. rewrite <- Eq. split; [done|]. split.
  - intros x Hx. destruct (H2 x Hx) as [? ?%E]. done.
  - intros x Hx%E. by apply H3.
Qed.

Section Filling.

Context (matched : nat -> msample -> bool) (RA : Z).

Abbreviation mf ii l := (List.filter (matched ii) l).

(** Times go back by at most the read-ahead time. *)
Definition near : list msample -> Prop := StronglySorted (fun a b => g_tt a - RA <= g_tt b).

Lemma keepSample_plain ii s w q :
  exists q' w', keepSample false ii s w q = (q', w', g_tt s) /\ sorter q' = fst (set_insert FullComparator s (sorter q)) /\
    nonincr q' = nonincr q /\ ndropped q' = ndropped q.
Proof.
  unfold keepSample. destruct (set_insert FullComparator s (sorter q)) as [so b].
  destruct (_ && _); cbn [andb]; eexists _, _; done.
Qed.

(** What reading one input does. *)
Definition fill_post (ii : nat) (start fill last B : Z) (l : list msample) (seen : msample -> Prop)
    (res : list msample * Z * InputStats * bool * Z * Sorters) : Prop :=
  let '(l', last', _, eof, fill', q') := res in
  exists C, mf ii l = C ++ mf ii l' /\ near (mf ii l') /\ Forall (fun s => last' - RA <= g_tt s) (mf ii l') /\
    (if eof : bool then l' = [] else fill' <= last') /\
    fill' <= fill /\ (isMin start = false -> fill' = fill) /\
    (isMin start = true -> Forall (fun s => fill' <= g_tt s + RA) C /\ (fill' = fill \/ exists s, s ∈ C /\ fill' = g_tt s + RA)) /\
    sorter_holds B (fun x => seen x \/ (x ∈ C /\ start <= g_tt x)) q'.

Lemma fillInput_post ii start B l : forall fill last w q seen,
  near (mf ii l) -> Forall (fun s => last - RA <= g_tt s) (mf ii l) -> Forall (fun s => B <= g_tt s) (mf ii l) ->
  sorter_holds B seen q ->
  fill_post ii start fill last B l seen (fillInput matched RA false ii start fill last l w q).
Proof.
  induction l as [|s l IH]; intros fill last w q seen Hn Hl Hb Hq; cbn [fillInput].
  - destruct (Z.ltb_spec last fill) as [Hlt|Hge]; exists []; cbn; (split; [done|]; split; [done|]; split; [done|];
      split; [done||lia|]; split; [lia|]; split; [done|]; split; [intros _; split; [constructor|by left]|]);
      (eapply sorter_holds_ext; [|reflexivity|exact Hq]; intros x; split; [auto|]; intros [?|[?%elem_of_nil _]]; done).
  - destruct (Z.ltb_spec last fill) as [Hlt|Hge].
    2: { exists []. split; [done|]. split; [done|]. split; [done|]. split; [lia|]. split; [lia|]. split; [done|].
         split; [intros _; split; [constructor|by left]|]. eapply sorter_holds_ext; [|reflexivity|exact Hq].
         intros x. split; [auto|]. by intros [?|[?%elem_of_nil _]]. }
    unfold fill_post. cbn [List.filter] in Hn, Hl, Hb |- *. destruct (matched ii s) eqn:Em; cbn [negb].
    2: { by apply IH. }
    apply StronglySorted_inv in Hn as [Hn Hs]. apply Forall_cons in Hl as [_ Hl]. apply Forall_cons in Hb as [Hbs Hb].
    set (fill1 := if isMin start && (g_tt s + RA <? fill) then g_tt s + RA else fill).
    assert (Hf1 : fill1 <= fill /\ (isMin start = false -> fill1 = fill) /\
      (isMin start = true -> fill1 <= g_tt s + RA /\ (fill1 = fill \/ fill1 = g_tt s + RA))).
    { unfold fill1. destruct (isMin start); cbn; [|done]. destruct (Z.ltb_spec (g_tt s + RA) fill); split_and!; try done; lia. }
    clearbody fill1. destruct Hf1 as (F1 & F2 & F3).
    assert (Hrec : forall w1 q1, sorter_holds B (fun x => seen x \/ (x = s /\ start <= g_tt x)) q1 ->
      fill_post ii start fill last B (s :: l) seen (fillInput matched RA false ii start fill1 (g_tt s) l w1 q1)).
    { intros w1 q1 Hq1.
      specialize (IH fill1 (g_tt s) w1 q1 _ Hn Hs Hb Hq1). unfold fill_post in IH |- *.
      destruct (fillInput matched RA false ii start fill1 (g_tt s) l w1 q1) as [[[[[l' last'] w'] eof] fill'] q'].
      destruct IH as (C & E & N & L & P & G1 & G2 & G3 & Q). cbn [List.filter]. rewrite Em. exists (s :: C).
      split; [by rewrite E|]. split; [done|]. split; [done|]. split; [done|]. split; [lia|].
      split; [intros Hm; rewrite G2, F2 by done; done|]. split.
      - intros Hm. destruct (F3 Hm) as [F4 F5], (G3 Hm) as [G4 G5]. split; [constructor; [lia|done]|].
        destruct G5 as [->|(x & Hx & ->)]; [|right; exists x; split; [by right|done]].
        destruct F5 as [->| ->]; [by left|]. right. exists s. split; [by left|done].
      - eapply sorter_holds_ext; [|reflexivity|exact Q]. intros x. rewrite elem_of_cons. naive_solver. }
    fold (fill_post ii start fill last B (s :: l) seen). 
    destruct (Z.ltb_spec (g_tt s) start) as [Hd|Hd].
    + pose proof (Hrec w (mkSorters (sorter q) (nonincr q) (lastSampleTimes q) (ndropped q + 1))) as H.
      unfold fill_post in H. cbn [List.filter] in H. rewrite Em in H. apply H.
      eapply sorter_holds_ext; [|reflexivity|exact Hq]. intros x. split; [auto|]. intros [?|[-> ?]]; [done|lia].
    + destruct (keepSample_plain ii s w q) as (q1 & w1 & -> & Eq & _). pose proof (Hrec w1 q1) as H.
      unfold fill_post in H. cbn [List.filter] in H. rewrite Em in H. apply H.
      eapply sorter_holds_ext; [|reflexivity|by apply (sorter_insert B seen s q q1)]. intros x. naive_solver.
Qed.

(** An input that is not at its end has read no further than its samples. *)
Lemma fillInput_last hi ii start l : forall fill last w q,
  last <= hi -> Forall (fun s => g_tt s <= hi) (mf ii l) ->
  let '(_, last', _, eof, _, _) := fillInput matched RA false ii start fill last l w q in
  eof = false -> last' <= hi.
Proof.
  induction l as [|s l IH]; intros fill last w q Hl Hh; cbn [fillInput]; destruct (last <? fill); try done.
  cbn [List.filter] in Hh. destruct (matched ii s); cbn [negb]; [|by apply IH]. apply Forall_cons in Hh as [Hs Hh].
  destruct (g_tt s <? start); [by apply IH|]. destruct (keepSample_plain ii s w q) as (q1 & w1 & -> & _). by apply IH.
Qed.

(** *** All the inputs *)

Fixpoint rest (ii : nat) (ins : list InputInfo) : list msample :=
  match ins with
  | [] => []
  | i :: ins => mf ii (in_samples i) ++ rest (S ii) ins
  end.

Definition input_ok (hi : Z) (ii : nat) (i : InputInfo) : Prop :=
  near (mf ii (in_samples i)) /\ Forall (fun s => in_lastTime i - RA <= g_tt s) (mf ii (in_samples i)) /\
  (if in_eof i then in_samples i = [] else in_lastTime i <= hi).

Fixpoint inputs_ok (hi : Z) (ii : nat) (ins : list InputInfo) : Prop :=
  match ins with
  | [] => True
  | i :: ins => input_ok hi ii i /\ inputs_ok hi (S ii) ins
  end.

Definition anyOpen (ins : list InputInfo) : bool := existsb (fun i => negb (in_eof i)) ins.

Lemma closed_rest hi ii ins : inputs_ok hi ii ins -> anyOpen ins = false -> rest ii ins = [].
Proof.
  revert ii. induction ins as [|i ins IH]; intros ii; [done|]. cbn. intros [(_ & _ & He) Hi] [Ho Hos]%orb_false_iff.
  rewrite (IH _ Hi Hos), app_nil_r. apply negb_false_iff in Ho. rewrite Ho in He. by rewrite He.
Qed.

Definition fills_post (hi : Z) (ii : nat) (start fill B : Z) (ins : list InputInfo) (seen : msample -> Prop)
    (res : list InputInfo * Z * Sorters) : Prop :=
  let '(ins', fill', q') := res in
  exists C, rest ii ins ≡ₚ C ++ rest ii ins' /\ inputs_ok hi ii ins' /\
    Forall (fun s => fill' - RA <= g_tt s) (rest ii ins') /\ (anyOpen ins' = true -> fill' <= hi) /\
    fill' <= fill /\ (isMin start = false -> fill' = fill) /\
    (isMin start = true -> Forall (fun s => fill' <= g_tt s + RA) C /\ (fill' = fill \/ exists s, s ∈ C /\ fill' = g_tt s + RA)) /\
    sorter_holds B (fun x => seen x \/ (x ∈ C /\ start <= g_tt x)) q'.

Lemma fillInputs_post hi start B ins : forall ii fill q seen,
  inputs_ok hi ii ins -> Forall (fun s => B <= g_tt s /\ g_tt s <= hi) (rest ii ins) -> sorter_holds B seen q ->
  fills_post hi ii start fill B ins seen (fillInputs matched RA false ii start fill ins q).
Proof.
  induction ins as [|i ins IH]; intros ii fill q seen Hi Hb Hq; cbn [fillInputs].
  { exists []. cbn. split_and!; try done; [intros _; split; [constructor|by left]|].
    eapply sorter_holds_ext; [|reflexivity|exact Hq]. set_solver. }
  destruct Hi as [(In & Il & Ie) Hi]. cbn [rest] in Hb. apply Forall_app in Hb as [Hb1 Hb2].
  destruct (in_eof i) eqn:Ee.
  - specialize (IH (S ii) fill q seen Hi Hb2 Hq). destruct (fillInputs matched RA false (S ii) start fill ins q) as [[ins' fill'] q'].
    destruct IH as (C & P1 & P2 & P3 & P4 & P5). exists C. cbn [rest anyOpen existsb inputs_ok]. rewrite Ie, Ee. cbn.
    split; [done|]. split; [|done]. split; [|done]. unfold input_ok. rewrite Ee, Ie. split; [constructor|done].
  - assert (Hb1' : Forall (fun s => B <= g_tt s) (mf ii (in_samples i))) by (eapply Forall_impl; [exact Hb1|]; cbn; lia).
    pose proof (fillInput_post ii start B (in_samples i) fill (in_lastTime i) noStats q seen In Il Hb1' Hq) as F.
    assert (Hh1 : Forall (fun s => g_tt s <= hi) (mf ii (in_samples i))) by (eapply Forall_impl; [exact Hb1|]; cbn; lia).
    pose proof (fillInput_last hi ii start (in_samples i) fill (in_lastTime i) noStats q Ie Hh1) as K.
    destruct (fillInput _ _ _ _ _ _ _ _ _ _) as [[[[[l' last'] w'] eof'] fill1] q1]. cbn in F.
    destruct F as (C1 & F1 & F2 & F3 & F4 & F5 & F6 & F7 & F8).
    specialize (IH (S ii) fill1 q1 _ Hi Hb2 F8). destruct (fillInputs matched RA false (S ii) start fill1 ins q1) as [[ins' fill'] q'].
    destruct IH as (C & P1 & P2 & P3 & P4 & P5 & P6 & P7 & P8). exists (C1 ++ C).
    cbn [rest anyOpen existsb inputs_ok in_samples in_eof]. unfold input_ok. cbn [in_samples in_lastTime in_eof].
    split. { rewrite F1, P1, <- !app_assoc. apply Permutation_app_head. rewrite !(assoc_L (++)).
             apply Permutation_app_tail, Permutation_app_comm. }
    split. { split; [|done]. split; [done|]. split; [done|]. destruct eof'; [done|by apply K]. }
    split. { apply Forall_app. split; [|done]. destruct eof'; [rewrite F4; constructor|].
             eapply Forall_impl; [exact F3|]. cbn. lia. }
    split. { intros [Ho|Ho]%orb_true_iff; [|by apply P4]. destruct eof'; [done|]. specialize (K eq_refl). lia. }
    split; [lia|]. split. { intros Hm. rewrite P6, F6 by done. done. }
    split.
    + intros Hm. destruct (F7 Hm) as [G1 G2], (P7 Hm) as [G3 G4]. split.
      * apply Forall_app. split; [|done]. eapply Forall_impl; [exact G1|]. cbn. lia.
      * setoid_rewrite elem_of_app. naive_solver.
    + eapply sorter_holds_ext; [|reflexivity|exact P8]. intros x. rewrite elem_of_app. naive_solver.
Qed.

End Filling.

(** ** Flushing *)

Lemma elem_filter {A} (f : A -> bool) x l : x ∈ List.filter f l <-> x ∈ l /\ f x = true.
Proof. rewrite !list_elem_of_In. apply filter_In. Qed.

Section Loop.

Context (matched : nat -> msample -> bool) (RA L E lo hi : Z).

Definition inEnd (x : msample) : bool := negb (isSetTime E) || (g_tt x <? E).

(** What has been written when the samples before [B] have been. *)
Definition written (B start : Z) (C out : list msample) : Prop :=
  strictly_ascending FullComparator out /\
  (forall x, x ∈ out -> g_tt x < B /\ x ∈ C /\ start <= g_tt x /\ inEnd x = true) /\
  (forall x, x ∈ C -> start <= g_tt x -> g_tt x < B -> inEnd x = true -> exists y, y ∈ out /\ equiv x y).

Definition kept (start : Z) (C : list msample) (x : msample) : Prop := x ∈ C /\ start <= g_tt x.

Lemma flush_spec B t start C q out :
  sorter_holds B (kept start C) q -> written B start C out -> Forall (fun s => 0 <= g_id s) C -> B <= t ->
  let '(o, q') := flushSorter E t q in sorter_holds t (kept start C) q' /\ written t start C (out ++ o).
Proof.
  intros (S1 & S2 & S3) (W1 & W2 & W3) Hid Hb. unfold flushSorter.
  assert (Hq : Forall (fun s => 0 <= g_id s) (sorter q)).
  { apply Forall_forall. intros x Hx. destruct (S2 x Hx) as [_ [Hc _]]. rewrite Forall_forall in Hid. by apply Hid. }
  pose proof (preceding_spec t (sorter q) S1 Hq) as P. destruct (precedingSamples t (sorter q)) as [a b].
  destruct P as (Eq & Pa & Pb). rewrite Eq in *. rewrite Forall_forall in Pa, Pb.
  apply StronglySorted_app_iff in S1 as (Sa & Sb & _). split.
  - split; [done|]. cbn [sorter]. split.
    + intros x Hx. split; [by apply Pb|]. apply S2. set_solver.
    + intros x Hx Ht. destruct (S3 x Hx) as (y & [Hy|Hy]%elem_of_app & Hxy); [lia| |by exists y].
      apply equiv_tt in Hxy. specialize (Pa y Hy). cbn in Pa. lia.
  - fold inEnd. unfold written. setoid_rewrite elem_of_app. setoid_rewrite elem_filter. split; [|split].
    + apply StronglySorted_app_iff. split; [done|]. split; [by apply StronglySorted_filter|].
      intros x y Hx [Hy _]%elem_filter. apply full_tt_lt. destruct (W2 x Hx) as [? _], (S2 y) as [? _]; [set_solver|lia].
    + intros x [Hx|[Hx He]]; [destruct (W2 x Hx); split; [lia|done]|]. specialize (Pa x Hx). cbn in Pa.
      destruct (S2 x) as [_ [? ?]]; [set_solver|done].
    + intros x Hx Hs Ht He. destruct (Z_lt_le_dec (g_tt x) B) as [Hlt|Hge].
      { destruct (W3 x Hx Hs Hlt He) as (y & Hy & Hxy). exists y. auto. }
      destruct (S3 x (conj Hx Hs) Hge) as (y & [Hy|Hy]%elem_of_app & Hxy); pose proof (equiv_tt _ _ Hxy) as Ett.
      * exists y. split; [|done]. right. split; [done|]. revert He. unfold inEnd. by rewrite Ett.
      * specialize (Pb y Hy). cbn in Pb. lia.
Qed.

Lemma written_nil B start C : Forall (fun s => B <= g_tt s) C -> written B start C [].
Proof.
  intros H. rewrite Forall_forall in H. split; [constructor|]. split; [set_solver|].
  intros x Hx _ Hb. specialize (H x Hx). cbn in H. lia.
Qed.

Lemma written_more B start C C1 out :
  written B start C out -> Forall (fun s => B <= g_tt s) C1 -> written B start (C ++ C1) out.
Proof.
  intros (W1 & W2 & W3) H. rewrite Forall_forall in H. split; [done|]. split.
  - intros x Hx. destruct (W2 x Hx) as (? & ? & ?). split; [done|]. split; [set_solver|done].
  - intros x [Hx|Hx]%elem_of_app Hs Hb; [by apply W3|]. specialize (H x Hx). cbn in H. lia.
Qed.

(** ** The invariant of the loop *)

Definition addTotals (i : InputInfo) : InputInfo :=
  mkInputInfo (in_samples i) (in_lastTime i) (in_window i) (addStats (in_total i) (in_window i)) (in_eof i).

Lemma totals_rest ii ins : rest matched ii (map addTotals ins) = rest matched ii ins.
Proof. revert ii. induction ins as [|i ins IH]; intros ii; cbn; [done|]. by rewrite IH. Qed.

Lemma totals_ok ii ins : inputs_ok matched RA hi ii (map addTotals ins) <-> inputs_ok matched RA hi ii ins.
Proof. revert ii. induction ins as [|i ins IH]; intros ii; cbn; [done|]. by rewrite IH. Qed.

Lemma totals_open ins : anyOpen (map addTotals ins) = anyOpen ins.
Proof. unfold anyOpen. induction ins as [|i ins IH]; cbn; [done|]. by rewrite IH. Qed.

Lemma numOpen_any ins : (0 <? numOpen ins) = anyOpen ins.
Proof.
  unfold numOpen, anyOpen, zlen. induction ins as [|i ins IH]; cbn; [done|]. destruct (in_eof i); cbn; [done|].
  by destruct (List.filter _ ins).
Qed.

Context (all : list msample).

(** [C] is what has been read of [all], and what is before [B] is written. *)
Record loop_inv (C : list msample) (B : Z) (m : MergeState) : Prop := {
  J_perm : all ≡ₚ C ++ rest matched 0 (inputs m);
  J_ok : inputs_ok matched RA hi 0 (inputs m);
  J_sorter : sorter_holds B (kept (startTime m) C) (containers m);
  J_out : written B (startTime m) C (output m);
  J_rest : Forall (fun s => B <= g_tt s) (rest matched 0 (inputs m));
  J_B : B <= tcur m /\ B <= hi;
  J_start : startTime m = L \/ (isMin L = true /\ Forall (fun s => startTime m <= g_tt s) all);
  J_pos : 0 <= nloops m;
  J_first : nloops m = 0 -> startTime m = L /\ tcur m = L /\ B = LONG_LONG_MIN /\ C = [] /\ output m = [];
  J_later : nloops m <> 0 -> Forall (fun s => tcur m - RA <= g_tt s) (rest matched 0 (inputs m)) /\
    (anyOpen (inputs m) = true -> tcur m <= hi /\ isMin (startTime m) = false)
}.

Context (HRA : 0 < RA) (HL : LONG_LONG_MIN <= L) (HloL : isMin L = true \/ lo <= L) (Hlo : LONG_LONG_MIN < lo)
  (Hhi : LONG_LONG_MIN <= hi) (HhiRA : hi + RA < LONG_LONG_MAX)
  (Hall : Forall (fun s => 0 <= g_id s /\ lo <= g_tt s /\ g_tt s <= hi) all).

Lemma window_known C B m : loop_inv C B m -> isMin (startTime m) = false -> anyOpen (inputs m) = true ->
  exists C' B', loop_inv C' B' (mergeWindow matched RA false E m) /\ tcur (mergeWindow matched RA false E m) = tcur m + RA.
Proof.
  intros J Hm Ho. destruct J. unfold mergeWindow. rewrite Hm.
  assert (Hr : Forall (fun s => B <= g_tt s /\ g_tt s <= hi) (rest matched 0 (inputs m))).
  { rewrite Forall_forall in J_rest0, Hall |- *. intros x Hx. split; [by apply J_rest0|]. apply Hall. rewrite J_perm0. set_solver. }
  pose proof (fillInputs_post matched RA hi (startTime m) B (inputs m) 0 (tcur m + RA) (containers m) _ J_ok0 Hr J_sorter0) as F.
  destruct (fillInputs matched RA false 0 (startTime m) (tcur m + RA) (inputs m) (containers m)) as [[ins fill] q].
  destruct F as (C1 & F1 & F2 & F3 & F4 & F5 & F6 & _ & F8). rewrite (F6 Hm) in *. cbn [andb].
  assert (HC1 : Forall (fun s => B <= g_tt s) C1 /\ Forall (fun s => B <= g_tt s) (rest matched 0 ins)).
  { apply Forall_app. by rewrite <- F1. }
  destruct HC1 as [HC1 Hri].
  assert (Hs : sorter_holds B (kept (startTime m) (C ++ C1)) q).
  { eapply sorter_holds_ext; [|reflexivity|exact F8]. intros x. unfold kept. rewrite elem_of_app. tauto. }
  assert (Hp : all ≡ₚ (C ++ C1) ++ rest matched 0 (map addTotals ins)) by (rewrite totals_rest, <- (assoc_L (++)), <- F1; done).
  assert (Hid : Forall (fun s => 0 <= g_id s) (C ++ C1)).
  { apply Forall_forall. intros x Hx. rewrite Forall_forall in Hall. apply Hall. rewrite Hp. set_solver. }
  fold addTotals. change (map _ ins) with (map addTotals ins).
  pose proof (written_more _ _ _ _ _ J_out0 HC1) as W.
  assert (Hlt : nloops m + 1 <> 0 -> Forall (fun s => tcur m + RA - RA <= g_tt s) (rest matched 0 (map addTotals ins)) /\
    (anyOpen (map addTotals ins) = true -> tcur m + RA <= hi /\ isMin (startTime m) = false)).
  { intros _. rewrite totals_rest, totals_open. auto. }
  destruct (Z.eqb_spec (nloops m + 1) 1) as [E1|N1].
  - exists (C ++ C1), B. split; [|done]. split; cbn; rewrite ?app_nil_r; try done; [by apply totals_ok|by rewrite totals_rest|lia|lia|lia].
  - destruct (J_later0 ltac:(lia)) as [_ Hopen]. destruct (Hopen Ho) as [Hhi' _].
    pose proof (flush_spec B (tcur m) (startTime m) (C ++ C1) q (output m) Hs W Hid ltac:(lia)) as P.
    destruct (flushSorter E (tcur m) q) as [o q2]. destruct P as [P1 P2].
    exists (C ++ C1), (tcur m). split; [|done]. split; cbn; try done; [by apply totals_ok| |lia|lia|lia].
    rewrite totals_rest. eapply Forall_impl; [exact F3|]. cbn. lia.
Qed.

Lemma window_unknown C B m : loop_inv C B m -> isMin (startTime m) = true -> anyOpen (inputs m) = true ->
  exists C' B', loop_inv C' B' (mergeWindow matched RA false E m) /\
    (anyOpen (inputs (mergeWindow matched RA false E m)) = true -> lo <= tcur (mergeWindow matched RA false E m)).
Proof.
  intros J Hm Ho. destruct J. destruct (Z.eq_dec (nloops m) 0) as [E0|N0].
  2: { destruct (J_later0 N0) as [_ H]. destruct (H Ho). congruence. }
  destruct (J_first0 E0) as (Es & Et & -> & -> & Eo). unfold mergeWindow. rewrite Es in *. rewrite Hm, E0, Et, Eo. cbn [app] in J_perm0.
  assert (EL : L = LONG_LONG_MIN) by (unfold isMin in Hm; lia).
  assert (Hr : Forall (fun s => LONG_LONG_MIN <= g_tt s /\ g_tt s <= hi) (rest matched 0 (inputs m))).
  { rewrite <- J_perm0. eapply Forall_impl; [exact Hall|]. cbn. lia. }
  pose proof (fillInputs_post matched RA hi L LONG_LONG_MIN (inputs m) 0 LONG_LONG_MAX (containers m) _ J_ok0 Hr J_sorter0) as F.
  destruct (fillInputs matched RA false 0 L LONG_LONG_MAX (inputs m) (containers m)) as [[ins fill] q].
  destruct F as (C1 & F1 & F2 & F3 & F4 & F5 & _ & F7 & F8). specialize (F7 Hm) as [F7 F9].
  assert (Hp : all ≡ₚ C1 ++ rest matched 0 (map addTotals ins)) by (rewrite totals_rest, <- F1; done).
  assert (HA : Forall (fun s => 0 <= g_id s /\ lo <= g_tt s /\ g_tt s <= hi) C1 /\
    Forall (fun s => 0 <= g_id s /\ lo <= g_tt s /\ g_tt s <= hi) (rest matched 0 (map addTotals ins)))
    by (apply Forall_app; by rewrite <- Hp).
  destruct HA as [HA1 HA2]. rewrite Forall_forall in HA1, HA2, F7, F3.
  change (map _ ins) with (map addTotals ins). cbn [andb]. change (0 + 1 =? 1) with true. cbv iota.
  destruct (Z.eqb_spec fill LONG_LONG_MAX) as [Em|Nm]; cbn [negb].
  - assert (Hno : anyOpen (map addTotals ins) = true -> False) by (rewrite totals_open; intros H; specialize (F4 H); lia).
    exists C1, LONG_LONG_MIN. split; [|by intros ?%Hno].
    split; cbn; try done; try lia; [by apply totals_ok| | | |].
    + eapply sorter_holds_ext; [|reflexivity|exact F8]. unfold kept. set_solver.
    + apply written_nil, Forall_forall. intros x Hx. destruct (HA1 x Hx). lia.
    + apply Forall_forall. intros x Hx. destruct (HA2 x Hx). lia.
    + intros _. split; [|by intros ?%Hno]. apply Forall_forall. intros x Hx. destruct (HA2 x Hx). lia.
  - destruct F9 as [|(s & Hs & Ef)]; [done|]. pose proof (HA1 s Hs) as (_ & Hs1 & Hs2).
    assert (Est : fill - RA = g_tt s) by lia. rewrite Est.
    exists C1, LONG_LONG_MIN. split; [|cbn; lia].
    split; cbn; try done; try lia; [by apply totals_ok| | | | |].
    + eapply sorter_holds_ext; [|reflexivity|exact F8]. intros x. unfold kept. split; [|set_solver by lia].
      intros [[[]%elem_of_nil _]|[Hx _]]. split; [done|]. specialize (F7 x Hx). cbn in F7. lia.
    + apply written_nil, Forall_forall. intros x Hx. destruct (HA1 x Hx). lia.
    + apply Forall_forall. intros x Hx. destruct (HA2 x Hx). lia.
    + right. split; [done|]. rewrite Hp, totals_rest. apply Forall_forall. intros x [Hx|Hx]%elem_of_app.
      * specialize (F7 x Hx). cbn in F7. lia.
      * specialize (F3 x Hx). cbn in F3. lia.
    + intros _. rewrite totals_rest, totals_open. split.
      * apply Forall_forall. intros x Hx. specialize (F3 x Hx). cbn in F3. lia.
      * intros H. specialize (F4 H). split; [lia|]. unfold isMin. lia.
Qed.

Lemma more_open m : mergeMore RA E m = true -> anyOpen (inputs m) = true.
Proof. unfold mergeMore. rewrite numOpen_any. by intros [? _]%andb_true_iff. Qed.

Lemma loop_ends n : forall C B m, loop_inv C B m -> isMin (startTime m) = false \/ anyOpen (inputs m) = false ->
  (anyOpen (inputs m) = true -> hi - tcur m < RA * (Z.of_nat n)) -> (n = 0%nat -> nloops m <> 0) ->
  exists m' C' B', mergeLoop matched RA false n E m = Some m' /\ loop_inv C' B' m' /\ mergeMore RA E m' = false.
Proof.
  induction n as [|n IH]; intros C B m J Hst Hf Hn; cbn [mergeLoop]; destruct (mergeMore RA E m) eqn:Em;
    try (exists m, C, B; done); pose proof (more_open m Em) as Ho.
  - destruct J. destruct (J_later0 (Hn eq_refl)) as [_ H]. specialize (H Ho). specialize (Hf Ho). lia.
  - destruct Hst as [Hst|]; [|congruence]. destruct (window_known C B m J Hst Ho) as (C' & B' & J' & Et).
    assert (Hlt : nloops (mergeWindow matched RA false E m) <> 0).
    { destruct J. unfold mergeWindow. repeat case_match; simplify_eq; cbn; lia. }
    apply (IH C' B' _ J'); [|specialize (Hf Ho); rewrite Et; lia|done].
    destruct (anyOpen (inputs (mergeWindow matched RA false E m))) eqn:Ho'; [left|by right]. destruct J'. destruct (J_later0 Hlt) as [_ H].
    by destruct (H Ho').
Qed.

Lemma merge_loop_result n m : loop_inv [] LONG_LONG_MIN m -> nloops m = 0 -> hi - lo < RA * Z.of_nat n ->
  exists m' C' B', mergeLoop matched RA false (S n) E m = Some m' /\ loop_inv C' B' m' /\ mergeMore RA E m' = false.
Proof.
  intros J E0 Hn. pose proof (J_first _ _ _ J E0) as (Es & Et & _ & _ & _). destruct (isMin (startTime m)) eqn:Hm.
  2: { apply (loop_ends (S n) [] LONG_LONG_MIN m J); [by left| |done].
       rewrite Es in Hm. destruct HloL as [H|H]; [congruence|]. rewrite Et. lia. }
  cbn [mergeLoop]. destruct (mergeMore RA E m) eqn:Em; [|by exists m, [], LONG_LONG_MIN].
  destruct (window_unknown _ _ m J Hm (more_open m Em)) as (C' & B' & J' & Hlo').
  assert (Hlt : nloops (mergeWindow matched RA false E m) <> 0).
  { unfold mergeWindow. repeat case_match; simplify_eq; cbn; lia. }
  apply (loop_ends n C' B' _ J'); [| |done].
  - destruct (anyOpen (inputs (mergeWindow matched RA false E m))) eqn:Ho'; [left|by right]. destruct (J_later _ _ _ J' Hlt) as [_ H]. by destruct (H Ho').
  - intros H. specialize (Hlo' H). lia.
Qed.

(** The last flush. *)
Lemma merge_final C B m : loop_inv C B m -> mergeMore RA E m = false ->
  let out := output m ++ fst (flushSorter E LONG_LONG_MAX (containers m)) in
  strictly_ascending FullComparator out /\
  (forall x, x ∈ out -> x ∈ all /\ L <= g_tt x /\ inEnd x = true) /\
  (forall x, x ∈ all -> L <= g_tt x -> inEnd x = true -> exists y, y ∈ out /\ equiv x y).
Proof.
  intros J Hm. pose proof (J_perm _ _ _ J) as Hp. rewrite Forall_forall in Hall. cbv zeta.
  assert (Hc : forall x, x ∈ C -> 0 <= g_id x /\ lo <= g_tt x /\ g_tt x <= hi) by (intros x Hx; apply Hall; rewrite Hp; set_solver).
  assert (HB : B <= LONG_LONG_MAX) by (destruct (J_B _ _ _ J); lia).
  assert (Hid : Forall (fun s => 0 <= g_id s) C) by (apply Forall_forall; intros x Hx; by apply Hc).
  pose proof (flush_spec B LONG_LONG_MAX _ _ _ _ (J_sorter _ _ _ J) (J_out _ _ _ J) Hid HB) as F.
  destruct (flushSorter E LONG_LONG_MAX (containers m)) as [o q]. destruct F as [_ (W1 & W2 & W3)]. cbn [fst].
  assert (Hst : forall x, x ∈ all -> L <= g_tt x <-> startTime m <= g_tt x).
  { intros x Hx. destruct (J_start _ _ _ J) as [-> |[Hmin Hs]]; [done|]. rewrite Forall_forall in Hs. specialize (Hs x Hx).
    specialize (Hall x Hx). cbn in Hs, Hall. unfold isMin in Hmin. lia. }
  split; [done|]. split.
  - intros x Hx. destruct (W2 x Hx) as (_ & Hxc & Hs & He). assert (x ∈ all) by (rewrite Hp; set_solver).
    split; [done|]. by rewrite Hst.
  - intros x Hx Hl He. rewrite Hst in Hl by done. rewrite Hp in Hx. apply elem_of_app in Hx as [Hx|Hx].
    { apply W3; try done. specialize (Hc x Hx). lia. }
    exfalso. unfold mergeMore in Hm. rewrite numOpen_any in Hm. apply andb_false_iff in Hm as [Hm|Hm].
    { rewrite (closed_rest _ _ _ _ _ (J_ok _ _ _ J) Hm) in Hx. set_solver. }
    apply orb_false_iff in Hm as [H1 H2]. unfold inEnd in He. rewrite H1 in He. cbn in He.
    destruct (Z.eq_dec (nloops m) 0) as [E0|N0].
    + destruct (J_first _ _ _ J E0) as (Es & Et & _). lia.
    + destruct (J_later _ _ _ J N0) as [Hr _]. rewrite Forall_forall in Hr. specialize (Hr x Hx). cbn in Hr. lia.
Qed.

End Loop.

(** ** Properties *)

(** The samples the matcher accepts, input after input. *)
Fixpoint matchedSamples (matched : nat -> msample -> bool) (ii : nat) (streams : list (list msample)) : list msample :=
  match streams with
  | [] => []
  | l :: streams => List.filter (matched ii) l ++ matchedSamples matched (S ii) streams
  end.

Lemma rest_new matched streams : forall ii, rest matched ii (map newInputInfo streams) = matchedSamples matched ii streams.
Proof. induction streams as [|l streams IH]; intros ii; cbn; [done|]. by rewrite IH. Qed.

Lemma inputs_new matched RA hi streams : forall ii,
  (forall k l, streams !! k = Some l -> near RA (List.filter (matched (ii + k)%nat) l)) ->
  Forall (fun s => LONG_LONG_MIN - RA <= g_tt s) (matchedSamples matched ii streams) -> LONG_LONG_MIN <= hi ->
  inputs_ok matched RA hi ii (map newInputInfo streams).
Proof.
  induction streams as [|l streams IH]; intros ii Hn Hb Hh; cbn; [done|]. cbn in Hb. apply Forall_app in Hb as [Hb1 Hb2].
  split; [split; [|done]|].
  - specialize (Hn 0%nat l eq_refl). by rewrite Nat.add_0_r in Hn.
  - apply IH; [|done|done]. intros k l' Hk. rewrite Nat.add_succ_comm. by apply Hn.
Qed.

(** C4: [nidsmerge] merges.  When the times of each input never go back by
    more than the read-ahead time and times are not forced to increase, the
    loop ends after at most one turn for
    each read-ahead time between the first and the last sample, and what is
    written is in the order of [FullSampleComparator] with no sample twice;
    it is exactly the matched samples of the inputs from the start time to
    before the end time, one for each set of samples that the comparator
    takes as equal (which may differ in their data, as it compares too few
    bytes of them).  The start time may be the one not set, then nothing is dropped at the start. *)
Theorem merge_correct (matched : nat -> msample -> bool) (RA L E lo hi : Z) (streams : list (list msample)) (n : nat) :
  0 < RA -> LONG_LONG_MIN <= L -> isMin L = true \/ lo <= L ->
  LONG_LONG_MIN < lo -> LONG_LONG_MIN <= hi -> hi + RA < LONG_LONG_MAX ->
  Forall (fun s => 0 <= g_id s /\ lo <= g_tt s /\ g_tt s <= hi) (matchedSamples matched 0 streams) ->
  (forall k l, streams !! k = Some l -> near RA (List.filter (matched k) l)) ->
  hi - lo < RA * Z.of_nat n ->
  exists out, mergeRun matched RA false (S n) L E streams = Some out /\
    strictly_ascending FullComparator out /\
    (forall x, x ∈ out -> x ∈ matchedSamples matched 0 streams /\ L <= g_tt x /\ inEnd E x = true) /\
    (forall x, x ∈ matchedSamples matched 0 streams -> L <= g_tt x -> inEnd E x = true ->
       exists y, y ∈ out /\ equiv x y).
Proof.
  intros HRA HL HloL Hlo Hhi HhiRA Hall Hn Hf.
  assert (J : loop_inv matched RA L E hi (matchedSamples matched 0 streams) [] LONG_LONG_MIN (newMerge L streams)).
  { assert (Hb : Forall (fun s => LONG_LONG_MIN <= g_tt s) (matchedSamples matched 0 streams))
      by (eapply Forall_impl; [exact Hall|]; cbn; lia).
    split; cbn; rewrite ?rest_new; try done; try lia; [| |by apply written_nil].
    - apply inputs_new; [done| |done]. eapply Forall_impl; [exact Hb|]. cbn. lia.
    - split; [constructor|]. split; [set_solver|]. intros x [Hx _]. set_solver. }
  destruct (merge_loop_result matched RA L E lo hi _ HRA HL HloL Hlo Hhi HhiRA Hall n _ J eq_refl Hf) as (m & C & B & Em & Jm & Hm).
  unfold mergeRun. rewrite Em. eexists. split; [done|]. eapply merge_final; eassumption.
Qed.

(** Two inputs whose times go back, with one sample in both. *)
Definition twoInputs : list (list msample) :=
  [[mkMSample 100 7 CHAR_ST [1]; mkMSample 160 7 CHAR_ST [2]; mkMSample 130 8 CHAR_ST [3]];
   [mkMSample 110 7 CHAR_ST [4]; mkMSample 160 7 CHAR_ST [2]; mkMSample 400 9 CHAR_ST [5]]].

Lemma merge_correct_witness : exists out,
  mergeRun (fun _ _ => true) 50 false 8 LONG_LONG_MIN 300 twoInputs = Some out /\ map g_tt out = [100; 110; 130; 160] /\
  strictly_ascending FullComparator out.
Proof.
  destruct (merge_correct (fun _ _ => true) 50 LONG_LONG_MIN 300 100 400 twoInputs 7) as (out & E & S & _).
  - lia.
  - lia.
  - by left.
  - by vm_compute.
  - by vm_compute.
  - by vm_compute.
  - unfold twoInputs. cbn. repeat constructor; cbn; lia.
  - intros [|[|k]] l E; cbn in E; simplify_eq; cbn; repeat constructor; cbn; lia.
  - by vm_compute.
  - exists out. split; [exact E|]. split; [|exact S]. vm_compute in E. injection E as <-. reflexivity.
Defined.

(** The statistics of the last window of an input are added to its total in
    every later window: one sample is counted as three. *)
Lemma totals_recounted :
  option_map (fun m => map (fun i => st_nread (in_total i)) (inputs m))
    (mergeLoop (fun _ _ => true) 50 false 20 LONG_LONG_MAX (newMerge 100 [[mkMSample 100 7 CHAR_ST [1]];
       [mkMSample 100 8 CHAR_ST [4]; mkMSample 160 8 CHAR_ST [2]; mkMSample 230 8 CHAR_ST [5]]])) = Some [3; 3].
Proof. vm_compute. reflexivity. Qed.

(** With a read-ahead time of zero the time does not advance and the loop
    does not end. *)
Lemma no_read_ahead_no_end n :
  mergeRun (fun _ _ => true) 0 false n 100 LONG_LONG_MAX [[mkMSample 100 7 CHAR_ST [1]; mkMSample 160 7 CHAR_ST [2]]] = None.
Proof.
  assert (Stuck : forall k q w tot j, 0 < j -> sorter q = [mkMSample 100 7 CHAR_ST [1]] -> nonincr q = [] ->
    mergeLoop (fun _ _ => true) 0 false k LONG_LONG_MAX
      (mkMergeState [mkInputInfo [mkMSample 160 7 CHAR_ST [2]] 100 w tot false] q 100 100 j []) = None).
  { induction k as [|k IH]; intros q w tot j Hj Hs Hni; [done|]. cbn [mergeLoop]. change (mergeMore _ _ _) with true. cbv iota.
    unfold mergeWindow. cbn -[flushSorter ageOffNonIncr LONG_LONG_MAX]. destruct (Z.eqb_spec (j + 1) 1); [lia|].
    destruct q as [so ni ls nd]. cbn in Hs, Hni. subst so ni. apply IH; cbn; [lia|done..]. }
  unfold mergeRun. destruct n as [|n]; [done|]. cbn [mergeLoop]. change (mergeMore _ _ _) with true. cbv iota.
  match goal with |- context [mergeWindow ?a ?b ?c ?d ?e] => set (m := mergeWindow a b c d e) end.
  assert (Em : m = mkMergeState [mkInputInfo [mkMSample 160 7 CHAR_ST [2]] 100 (mkInputStats 1 1 0 0) (mkInputStats 1 1 0 0) false]
    (containers m) 100 100 1 []) by (vm_compute; reflexivity).
  rewrite Em, Stuck; [done|lia|by vm_compute..].
Qed.
