(* ===== verification/Resampler.v ===== *)
(** * What the nearest-point resamplers share.

    [core/NearestResampler.cc] and [core/NearestResamplerAtRate.cc] match the
    variables of their sources with the requested ones in the same way
    ([connect], with [Variable::operator ==] of [core/Variable.cc]), go over
    the values of a sample in the same way, and keep the same five arrays for
    the output values; both are here once.  The five arrays [_prevTT],
    [_nearTT], [_prevData], [_nearData] and [_samplesSince...] are one list of
    records.  Values are of any type with a NaN.  The second half of the file
    is the theory of the choice of the nearest value. *)

From S2P Require Import Prelude SampleId.
From stdpp Require Import strings.
#[local] Open Scope Z_scope.

(** ** Variables *)

Record Site := mkSite { site_name : string; site_suffix : string; site_number : Z }.

Definition site_eqb (x y : Site) : bool :=
  String.eqb (site_name x) (site_name y) && String.eqb (site_suffix x) (site_suffix y) && (site_number x =? site_number y).

Record NVariable := mkNVariable {
  v_name : string;
  v_nameWithoutSite : string;
  v_length : nat;
  v_site : option Site;
  v_station : Z
}.

(** [Variable::operator ==] *)
Definition variable_eqb (v x : NVariable) : bool :=
  if negb (v_length v =? v_length x)%nat then false else
  if negb (String.eqb (v_nameWithoutSite v) (v_nameWithoutSite x)) && negb (String.eqb (v_name v) (v_name x)) then false else
  match v_site v with
  | None => match v_site x with None => v_station v =? v_station x | Some _ => false end
  | Some s1 => match v_site x with None => false | Some s2 => if negb (site_eqb s1 s2) then false else true end
  end.

(** ** Connecting to a source *)

Record Maps := mkMaps { inmap : gmap Z (list nat); lenmap : gmap Z (list nat); outmap : gmap Z (list nat) }.

Definition noMaps : Maps := mkMaps ∅ ∅ ∅.

(** [_outVarIndices] of the requested variables, in their order. *)
Fixpoint outVarIndices (ndataValues : nat) (vars : list NVariable) : list (NVariable * nat) :=
  match vars with
  | [] => []
  | v :: vars => (v, ndataValues) :: outVarIndices (ndataValues + v_length v) vars
  end.

Fixpoint ndataValues (vars : list NVariable) : nat :=
  match vars with
  | [] => 0
  | v :: vars => v_length v + ndataValues vars
  end.

(** A match of a variable of the sample [sampid]; [None] when an assertion
    fails. *)
Definition addMatch (sampid : Z) (vindex outIndex vlen : nat) (m : Maps) : option Maps :=
  match inmap m !! sampid with
  | None =>
      match outmap m !! sampid with
      | Some _ => None
      | None => Some (mkMaps (<[sampid := [vindex]]> (inmap m)) (<[sampid := [vlen]]> (lenmap m)) (<[sampid := [outIndex]]> (outmap m)))
      end
  | Some iv =>
      match outmap m !! sampid, lenmap m !! sampid with
      | Some ov, Some lv =>
          Some (mkMaps (<[sampid := iv ++ [vindex]]> (inmap m)) (<[sampid := lv ++ [vlen]]> (lenmap m))
                  (<[sampid := ov ++ [outIndex]]> (outmap m)))
      | _, _ => None
      end
  end.

(** The loop over the requested variables, for one variable of a tag. *)
Fixpoint connectVariable (sampid : Z) (vindex : nat) (var : NVariable) (reqVars : list (NVariable * nat)) (m : Maps) (varMatch : bool) :
    option (Maps * bool) :=
  match reqVars with
  | [] => Some (m, varMatch)
  | (myvar, outIndex) :: reqVars =>
      if variable_eqb var myvar then
        match addMatch sampid vindex outIndex (v_length var) m with
        | None => None
        | Some m => connectVariable sampid vindex var reqVars m true
        end
      else connectVariable sampid vindex var reqVars m varMatch
  end.

(** The loop over the variables of a tag; [vindex] is [getDataIndex(var)]. *)
Fixpoint connectTag (sampid : Z) (vindex : nat) (vars : list NVariable) (reqVars : list (NVariable * nat)) (m : Maps) (varMatch : bool) :
    option (Maps * bool) :=
  match vars with
  | [] => Some (m, varMatch)
  | var :: vars =>
      match connectVariable sampid vindex var reqVars m varMatch with
      | None => None
      | Some (m, varMatch) => connectTag sampid (vindex + v_length var) vars reqVars m varMatch
      end
  end.

(** [connect(source)]: the maps, and the tags a client is added for. *)
Fixpoint connect (reqVars : list NVariable) (intags : list (Z * list NVariable)) (m : Maps) : option (Maps * list Z) :=
  match intags with
  | [] => Some (m, [])
  | (sampid, vars) :: intags =>
      match connectTag sampid 0 vars (outVarIndices 0 reqVars) m false with
      | None => None
      | Some (m, varMatch) =>
          match connect reqVars intags m with
          | None => None
          | Some (m, added) => Some (m, if varMatch : bool then sampid :: added else added)
          end
      end
  end.

(** ** The values of a sample *)

Section Values.

Context {V : Type}.

(** A sample for a resampler: its values are what [getDataValue] returns, as
    the [float] that [receive] stores it in. *)
Record fsample := mkFSample { f_tt : Z; f_id : Z; f_type : sampleType; f_data : list V }.

(** The inner loop: the output index and the value, while there is one. *)
Fixpoint variableValues (data : list V) (ii oi len : nat) : list (nat * V) :=
  match len with
  | O => []
  | S len => match data !! ii with None => [] | Some val => (oi, val) :: variableValues data (S ii) (S oi) len end
  end.

Fixpoint sampleValues (data : list V) (invec outvec lenvec : list nat) : list (nat * V) :=
  match invec, outvec, lenvec with
  | ii :: invec, oi :: outvec, len :: lenvec => variableValues data ii oi len ++ sampleValues data invec outvec lenvec
  | _, _, _ => []
  end.

(** The beginning of [receive(samp)]: [None] when an assertion fails,
    [Some None] when it returns [false], or the values to go over. *)
Definition receivedValues (m : Maps) (samp : fsample) : option (option (list (nat * V))) :=
  match f_type samp with
  | FLOAT_ST | DOUBLE_ST =>
      match inmap m !! f_id samp with
      | None => Some None
      | Some invec =>
          match outmap m !! f_id samp, lenmap m !! f_id samp with
          | Some outvec, Some lenvec =>
              if (length invec =? length outvec)%nat && (length invec =? length lenvec)%nat
              then Some (Some (sampleValues (f_data samp) invec outvec lenvec)) else None
          | _, _ => None
          end
      end
  | _ => Some None
  end.

(** ** The arrays *)

Record Slot := mkSlot { prevTT : Z; nearTT : Z; prevData : V; nearData : V; samplesSince : Z }.

(** The initial values. *)
Definition newSlot (nan : V) : Slot := mkSlot 0 0 nan nan 0.

(** A value that is neither before the previous one nor before the time [T]
    of the output: the first one since is compared with the previous one. *)
Definition slotValue (T tt : Z) (val : V) (c : Slot) : Slot :=
  if samplesSince c =? 0 then
    let '(t, v) := if Z.quot (tt + prevTT c) 2 <? T then (tt, val) else (prevTT c, prevData c) in
    mkSlot tt t val v (samplesSince c + 1)
  else mkSlot tt (nearTT c) val (nearData c) (samplesSince c).

(** A value before the previous one. *)
Definition slotBackwards (T tt : Z) (val : V) (c : Slot) : Slot :=
  if samplesSince c =? 0 then c
  else
    let '(t, v) := if Z.abs (T - tt) <? Z.abs (T - nearTT c) then (tt, val) else (nearTT c, nearData c) in
    mkSlot tt t val v (samplesSince c).

End Values.

Arguments fsample : clear implicits.
Arguments Slot : clear implicits.

(** ** The maps of [connect] *)

(** The vectors of a sample have one length and the output values of each
    match are within the [n] there are. *)
Definition maps_ok (n : nat) (m : Maps) : Prop := forall sampid,
  match inmap m !! sampid with
  | None => outmap m !! sampid = None
  | Some iv => exists ov lv, outmap m !! sampid = Some ov /\ lenmap m !! sampid = Some lv /\ length iv = length ov /\
      Forall2 (fun o l => (o + l <= n)%nat) ov lv
  end.

Lemma noMaps_ok n : maps_ok n noMaps.
Proof. intros sampid. cbn. by rewrite !lookup_empty. Qed.

Lemma addMatch_ok n m sampid vindex outIndex vlen :
  maps_ok n m -> (outIndex + vlen <= n)%nat -> exists m', addMatch sampid vindex outIndex vlen m = Some m' /\ maps_ok n m'.
Proof.
  intros Hm Hn. pose proof (Hm sampid) as Hs. unfold addMatch. destruct (inmap m !! sampid) as [iv|] eqn:Ei.
  - destruct Hs as (ov & lv & -> & -> & Hl & HF). eexists. split; [done|]. intros id. cbn.
    destruct (decide (id = sampid)) as [->|Hne]; [|rewrite !lookup_insert_ne by done; apply Hm].
    rewrite !lookup_insert_eq. eexists _, _. split; [done|]. split; [done|]. rewrite !length_app, Hl. split; [done|].
    apply Forall2_app; [done|]. by repeat constructor.
  - rewrite Hs. eexists. split; [done|]. intros id. cbn.
    destruct (decide (id = sampid)) as [->|Hne]; [|rewrite !lookup_insert_ne by done; apply Hm].
    rewrite !lookup_insert_eq. eexists _, _. split; [done|]. split; [done|]. split; [done|]. by repeat constructor.
Qed.

Lemma outVarIndices_bound vars : forall off v o, (v, o) ∈ outVarIndices off vars -> (o + v_length v <= off + ndataValues vars)%nat.
Proof.
  induction vars as [|x vars IH]; intros off v o; cbn; [set_solver|].
  intros [[= <- <-]|H]%elem_of_cons; [lia|]. specialize (IH _ _ _ H). lia.
Qed.

Lemma variable_eqb_length v x : variable_eqb v x = true -> v_length v = v_length x.
Proof. unfold variable_eqb. destruct (Nat.eqb_spec (v_length v) (v_length x)); done. Qed.

Lemma connectVariable_ok n sampid vindex var reqs : forall m b,
  maps_ok n m -> Forall (fun p => (p.2 + v_length p.1 <= n)%nat) reqs ->
  exists m' b', connectVariable sampid vindex var reqs m b = Some (m', b') /\ maps_ok n m'.
Proof.
  induction reqs as [|[myvar o] reqs IH]; intros m b Hm HF; cbn; [eauto|].
  apply Forall_cons in HF as [Ho HF]. destruct (variable_eqb var myvar) eqn:Ev; [|by apply IH].
  apply variable_eqb_length in Ev. cbn in Ho.
  destruct (addMatch_ok n m sampid vindex o (v_length var) Hm) as (m1 & -> & Hm1); [lia|]. by apply IH.
Qed.

Lemma connectTag_ok n sampid vars reqs : forall vindex m b,
  maps_ok n m -> Forall (fun p => (p.2 + v_length p.1 <= n)%nat) reqs ->
  exists m' b', connectTag sampid vindex vars reqs m b = Some (m', b') /\ maps_ok n m'.
Proof.
  induction vars as [|var vars IH]; intros vindex m b Hm HF; cbn; [eauto|].
  destruct (connectVariable_ok n sampid vindex var reqs m b Hm HF) as (m1 & b1 & -> & Hm1). by apply IH.
Qed.

Lemma connect_ok reqVars intags : forall m, maps_ok (ndataValues reqVars) m ->
  exists m' added, connect reqVars intags m = Some (m', added) /\ maps_ok (ndataValues reqVars) m'.
Proof.
  induction intags as [|[sampid vars] intags IH]; intros m Hm; cbn; [eauto|].
  destruct (connectTag_ok (ndataValues reqVars) sampid vars (outVarIndices 0 reqVars) 0 m false Hm) as (m1 & b1 & -> & Hm1).
  { apply Forall_forall. intros [v o] H. by apply outVarIndices_bound in H. }
  destruct (IH m1 Hm1) as (m2 & added & -> & Hm2). eauto.
Qed.

Section ValuesFacts.
Context {V : Type}.

Lemma variableValues_bound (data : list V) len : forall ii oi n, (oi + len <= n)%nat ->
  Forall (fun p => (p.1 < n)%nat) (variableValues data ii oi len).
Proof.
  induction len as [|len IH]; intros ii oi n H; cbn; [constructor|]. destruct (data !! ii); constructor; [cbn; lia|]. apply IH. lia.
Qed.

Lemma sampleValues_bound (data : list V) n iv : forall ov lv, Forall2 (fun o l => (o + l <= n)%nat) ov lv ->
  Forall (fun p => (p.1 < n)%nat) (sampleValues data iv ov lv).
Proof.
  induction iv as [|ii iv IH]; intros ov lv H; cbn; [constructor|]. destruct H as [|o l ov lv Hol H]; [constructor|].
  apply Forall_app. split; [by apply variableValues_bound|by apply IH].
Qed.

Lemma receivedValues_ok n m (samp : fsample V) : maps_ok n m ->
  exists r, receivedValues m samp = Some r /\ forall evs, r = Some evs -> Forall (fun p => (p.1 < n)%nat) evs.
Proof.
  intros Hm. unfold receivedValues. specialize (Hm (f_id samp)).
  destruct (f_type samp); try (by exists None); destruct (inmap m !! f_id samp) as [iv|]; try (by exists None);
    destruct Hm as (ov & lv & -> & -> & Hl & HF); rewrite <- (Forall2_length _ _ _ HF), Hl, !Nat.eqb_refl; cbn;
    eexists; (split; [done|]); intros evs [= <-]; by apply sampleValues_bound.
Qed.

End ValuesFacts.

(** ** The nearest value *)

Section Nearest.
Context {V : Type} (nan : V).

(** [e] is a nearest to [T] of the times and values of [h]. *)
Definition nearest (T : Z) (e : Z * V) (h : list (Z * V)) : Prop :=
  e ∈ h /\ forall x, x ∈ h -> Z.abs (e.1 - T) <= Z.abs (x.1 - T).

Definition in_order (h : list (Z * V)) : Prop := StronglySorted (fun a b => a.1 <= b.1) h.

(** What the arrays hold of the history [h] of an output value. *)
Definition slot_prev (c : Slot V) (h : list (Z * V)) : Prop :=
  match last h with
  | None => prevTT c = 0 /\ prevData c = nan
  | Some e => e = (prevTT c, prevData c)
  end.

Definition slot_near (T : Z) (c : Slot V) (h : list (Z * V)) : Prop :=
  if samplesSince c =? 0 then Forall (fun e => e.1 <= T) h
  else nearest T (nearTT c, nearData c) h /\ exists e, e ∈ h /\ T <= e.1.

(** The time and value to write. *)
Definition slotChosen (c : Slot V) : Z * V :=
  if samplesSince c =? 0 then (prevTT c, prevData c) else (nearTT c, nearData c).

Lemma in_order_last h e x : in_order h -> last h = Some e -> x ∈ h -> x.1 <= e.1.
Proof.
  intros Hs (k & ->)%last_Some Hx. apply StronglySorted_app_iff in Hs as (_ & _ & H).
  apply elem_of_app in Hx as [Hx|Hx]; [apply (H x e Hx); set_solver|]. apply list_elem_of_singleton in Hx as ->. lia.
Qed.

Lemma chosen_nearest T c h : in_order h -> slot_prev c h -> slot_near T c h ->
  (h = [] -> (slotChosen c).2 = nan) /\ (h <> [] -> nearest T (slotChosen c) h).
Proof.
  intros Ho Hp Hn. unfold slot_prev, slot_near, slotChosen in *. destruct (Z.eqb_spec (samplesSince c) 0) as [E|N].
  - split.
    + intros ->. by destruct Hp.
    + intros Hne. destruct (last h) as [e|] eqn:El; [|by apply last_None in El]. subst e.
      assert (Hin : (prevTT c, prevData c) ∈ h) by (apply last_Some in El as (k & ->); set_solver).
      split; [done|]. rewrite Forall_forall in Hn. intros x Hx. pose proof (in_order_last _ _ _ Ho El Hx) as H1.
      pose proof (Hn _ Hin). pose proof (Hn _ Hx). cbn in *. lia.
  - destruct Hn as [Hn _]. split; [|done]. intros ->. destruct Hn as [Hn _]. set_solver.
Qed.

Lemma quot2_lt x T : 0 < T -> (Z.quot x 2 < T <-> x < 2 * T).
Proof. intros H. Z.to_euclidean_division_equations. lia. Qed.

Lemma slotValue_ok T tt v c h : in_order (h ++ [(tt, v)]) -> T <= tt < 2 * T ->
  slot_prev c h -> slot_near T c h ->
  slot_prev (slotValue T tt v c) (h ++ [(tt, v)]) /\ slot_near T (slotValue T tt v c) (h ++ [(tt, v)]) /\
  samplesSince (slotValue T tt v c) <> 0.
Proof.
  intros Ho Ht Hp Hn.
  assert (Hle : forall x, x ∈ h -> x.1 <= tt).
  { intros x Hx. apply StronglySorted_app_iff in Ho as (_ & _ & H). apply (H x (tt, v) Hx). set_solver. }
  unfold slotValue, slot_prev. rewrite last_snoc. unfold slot_near in *.
  destruct (Z.eqb_spec (samplesSince c) 0) as [E|N]; cbn [samplesSince prevTT prevData nearTT nearData].
  - destruct (Z.ltb_spec (Z.quot (tt + prevTT c) 2) T) as [Hq|Hq]; cbn [samplesSince prevTT prevData nearTT nearData];
      rewrite E; change (0 + 1 =? 0) with false; cbv iota; (split; [done|]; split; [|done]).
    + split; [|exists (tt, v); set_solver by lia]. split; [set_solver|]. intros x [Hx|Hx]%elem_of_app.
      2: { apply list_elem_of_singleton in Hx as ->. lia. }
      unfold slot_prev in Hp. destruct (last h) as [e|] eqn:El; [|by apply last_None in El as ->; apply elem_of_nil in Hx].
      pose proof (in_order_last h e x) as H1. apply StronglySorted_app_iff in Ho as (Ho & _ & _).
      specialize (H1 Ho El Hx). subst e. cbn in H1 |- *. rewrite Forall_forall in Hn. specialize (Hn x Hx). cbn in Hn.
      apply quot2_lt in Hq; lia.
    + destruct (last h) as [e|] eqn:El.
      2: { unfold slot_prev in Hp. rewrite El in Hp. destruct Hp as [Hp _]. rewrite Hp in Hq.
           pose proof (quot2_lt (tt + 0) T). lia. }
      unfold slot_prev in Hp. rewrite El in Hp. subst e.
      assert (Hin : (prevTT c, prevData c) ∈ h) by (apply last_Some in El as (k & ->); set_solver).
      apply StronglySorted_app_iff in Ho as (Ho & _ & _). rewrite Forall_forall in Hn. pose proof (Hn _ Hin) as Hpt. cbn in Hpt.
      split; [|exists (tt, v); set_solver by lia]. split; [set_solver|].
      pose proof (quot2_lt (tt + prevTT c) T) as Hq2.
      intros x [Hx|Hx]%elem_of_app; cbn.
      * pose proof (in_order_last _ _ _ Ho El Hx) as H1. specialize (Hn _ Hx). cbn in *. lia.
      * apply list_elem_of_singleton in Hx as ->. cbn. lia.
  - rewrite (proj2 (Z.eqb_neq _ _) N). split; [done|]. split; [|done]. destruct Hn as [[Hin Hmin] (e & He & Het)].
    split; [|exists e; set_solver]. split; [set_solver|]. intros x [Hx|Hx]%elem_of_app; [by apply Hmin|].
    apply list_elem_of_singleton in Hx as ->. specialize (Hmin e He). specialize (Hle e He). cbn in *. lia.
Qed.

End Nearest.
