(* ===== verification/NearestResampler.v ===== *)
(** * The nearest-point resampler.

    [core/NearestResampler.cc]: the values of several samples are merged at
    the times of a master variable, the value at index 0.  The requested
    variables, [connect] and the arrays are those of [Resampler.v]; the counts
    of the warnings are left out, and so are the 64 bits of the times. *)

From S2P Require Import Prelude SampleId Resampler.

Section NearestResampler.

(** The values, the NaN and its test; whether the count of the values that
    are not NaN is written too. *)
Context {V : Type} (nan : V) (isnan : V -> bool) (nansVariable : bool).

Record Nearest := mkNearest { slots : list (Slot V); nmaster : Z }.

Record OutSample := mkOutSample { o_tt : Z; o_data : list V; o_nonNANs : option Z }.

(** [ctorCommon] *)
Definition newNearest (n : nat) : Nearest := mkNearest (replicate n (newSlot nan)) 0.

(** The value written for an output value, and whether it is counted. *)
Definition outputValue (minTT maxTT : Z) (c : Slot V) : V * bool :=
  let '(t, v) := slotChosen c in
  if (maxTT <? t) || (t <? minTT) then (nan, false) else (v, negb (isnan v)).

(** The output sample: the master variable first. *)
Definition outputSample (minTT maxTT : Z) (m : Slot V) (others : list (Slot V)) : OutSample :=
  let vals := (prevData m, negb (isnan (prevData m))) :: map (outputValue minTT maxTT) others in
  mkOutSample (prevTT m) (map fst vals) (if nansVariable then Some (zlen (List.filter snd vals)) else None).

Definition resetSince (c : Slot V) : Slot V := mkSlot (prevTT c) (nearTT c) (prevData c) (nearData c) 0.

(** A value of the master variable out of order. *)
Definition recoverSlot (tt : Z) (c : Slot V) : Slot V :=
  let '(t, v) := if Z.abs (tt - prevTT c) <? Z.abs (tt - nearTT c) then (prevTT c, prevData c) else (nearTT c, nearData c) in
  mkSlot (prevTT c) t (prevData c) v (if tt <? prevTT c then 1 else 0).

(** A value of the master variable. *)
Definition receiveMaster (tt : Z) (val : V) (m : Slot V) (others : list (Slot V)) (nm : Z) : Nearest * option OutSample :=
  let m' := mkSlot tt (prevTT m) val (nearData m) (samplesSince m) in
  if nm =? 0 then (mkNearest (m' :: others) 1, None)
  else
    let maxTT := tt - Z.quot (tt - prevTT m) 10 in
    let minTT := if nm <? 2 then prevTT m - Z.quot ((tt - prevTT m) * 9) 10
                 else nearTT m + Z.quot (prevTT m - nearTT m) 10 in
    let nm := if nm <? 2 then nm + 1 else nm in
    if tt <? prevTT m then
      (mkNearest (mkSlot tt 0 val (nearData m) (samplesSince m) :: map (recoverSlot tt) others) 1, None)
    else (mkNearest (m' :: map resetSince others) nm, Some (outputSample minTT maxTT m others)).

(** A value of another variable; [T] is the time of the master variable. *)
Definition otherValue (T tt : Z) (val : V) (c : Slot V) : Slot V :=
  if tt <? prevTT c then slotBackwards T tt val c
  else if tt <? T then mkSlot tt (nearTT c) val (nearData c) 0
  else slotValue T tt val c.

(** The body of the inner loop of [receive]; [None] when it indexes an array
    out of its range. *)
Definition receiveValue (r : Nearest) (tt : Z) (p : nat * V) : option (Nearest * option OutSample) :=
  match slots r, p with
  | [], _ => None
  | m :: others, (O, val) => Some (receiveMaster tt val m others (nmaster r))
  | m :: others, (S k, val) =>
      match others !! k with
      | None => None
      | Some c => Some (mkNearest (m :: <[k := otherValue (prevTT m) tt val c]> others) (nmaster r), None)
      end
  end.

(** The loops of [receive], over times, output indices and values. *)
Fixpoint receiveValues (r : Nearest) (h : list (Z * (nat * V))) : option (Nearest * list OutSample) :=
  match h with
  | [] => Some (r, [])
  | (t, p) :: h =>
      match receiveValue r t p with
      | None => None
      | Some (r, o) =>
          match receiveValues r h with
          | None => None
          | Some (r, out) => Some (r, option_list o ++ out)
          end
      end
  end.

(** [receive(samp)] *)
Definition receive (maps : Maps) (r : Nearest) (samp : fsample V) : option (bool * Nearest * list OutSample) :=
  match receivedValues maps samp with
  | None => None
  | Some None => Some (false, r, [])
  | Some (Some evs) =>
      match receiveValues r (map (pair (f_tt samp)) evs) with
      | None => None
      | Some (r, out) => Some (true, r, out)
      end
  end.

(** [flush()] *)
Definition flush (r : Nearest) : Nearest * option OutSample :=
  match slots r with
  | [] => (r, None)
  | m :: others =>
      if nmaster r <? 2 then (r, None)
      else
        let maxTT := prevTT m + (prevTT m - nearTT m) in
        let minTT := nearTT m in
        let flushed since (c : Slot V) := mkSlot (prevTT c) (nearTT c) nan (nearData c) since in
        (mkNearest (flushed (samplesSince m) m :: map (flushed 0) others) 0, Some (outputSample minTT maxTT m others))
  end.

(** ** The arrays keep their length *)

Lemma receiveValue_type r tt p : (p.1 < length (slots r))%nat ->
  exists r' o, receiveValue r tt p = Some (r', o) /\ length (slots r') = length (slots r) /\
    forall x, o = Some x -> length (o_data x) = length (slots r).
Proof.
  destruct r as [[|m others] nm], p as [[|k] val]; cbn; intros H; try lia.
  - destruct (receiveMaster tt val m others nm) as [r o] eqn:Er. exists r, o. split; [done|]. revert Er. unfold receiveMaster.
    repeat case_match; intros Er; simplify_eq; cbn; rewrite ?length_map;
      (split; [done|]); intros x Hx; simplify_eq; cbn; by rewrite !length_map.
  - destruct (others !! k) as [c|] eqn:Ek; [|apply lookup_ge_None in Ek; lia].
    eexists _, _. split; [done|]. cbn. by rewrite length_insert.
Qed.

Lemma receiveValues_type h : forall r, Forall (fun e => (e.2.1 < length (slots r))%nat) h ->
  exists r' out, receiveValues r h = Some (r', out) /\ length (slots r') = length (slots r) /\
    Forall (fun x => length (o_data x) = length (slots r)) out.
Proof.
  induction h as [|[t p] h IH]; intros r HF; cbn [receiveValues]; [by exists r, []|].
  apply Forall_cons in HF as [Hp HF]. destruct (receiveValue_type r t p Hp) as (r1 & o & -> & Hl & Ho).
  destruct (IH r1) as (r2 & out & -> & Hl2 & Hout); [by rewrite Hl|]. eexists _, _. split; [done|].
  split; [congruence|]. apply Forall_app. split; [|by rewrite <- Hl]. destruct o; repeat constructor. by apply Ho.
Qed.

(** ** Any use of a resampler *)

Inductive operation :=
| Connect (intags : list (Z * list NVariable))
| Receive (samp : fsample V)
| Flush.

Definition operate (reqVars : list NVariable) (op : operation) (st : Maps * Nearest) : option (Maps * Nearest * list OutSample) :=
  match op with
  | Connect intags => match connect reqVars intags st.1 with None => None | Some (m, _) => Some (m, st.2, []) end
  | Receive samp => match receive st.1 st.2 samp with None => None | Some (_, r, out) => Some (st.1, r, out) end
  | Flush => let '(r, o) := flush st.2 in Some (st.1, r, option_list o)
  end.

Fixpoint operateAll (reqVars : list NVariable) (ops : list operation) (st : Maps * Nearest) : option (Maps * Nearest * list OutSample) :=
  match ops with
  | [] => Some (st, [])
  | op :: ops =>
      match operate reqVars op st with
      | None => None
      | Some (st, o) => match operateAll reqVars ops st with None => None | Some (st, out) => Some (st, o ++ out) end
      end
  end.

Lemma operate_type reqVars op st :
  maps_ok (ndataValues reqVars) st.1 -> length (slots st.2) = ndataValues reqVars ->
  exists st' out, operate reqVars op st = Some (st', out) /\ maps_ok (ndataValues reqVars) st'.1 /\
    length (slots st'.2) = ndataValues reqVars /\ Forall (fun x => length (o_data x) = ndataValues reqVars) out.
Proof.
  intros Hm Hl. destruct op as [intags|samp|]; cbn.
  - destruct (connect_ok reqVars intags st.1 Hm) as (m & added & -> & Hm'). eexists _, _. by split_and!.
  - unfold receive. destruct (receivedValues_ok _ st.1 samp Hm) as ([evs|] & -> & Hb); [|by eexists _, _; split_and!].
    destruct (receiveValues_type (map (pair (f_tt samp)) evs) st.2) as (r & out & -> & Hl2 & Ho).
    { apply Forall_fmap. eapply Forall_impl; [by apply Hb|]. cbn. intros p. by rewrite Hl. }
    eexists _, _. split; [done|]. rewrite Hl in Hl2, Ho. by split_and!.
  - unfold flush. destruct st as [maps [[|m others] nm]]; cbn in *; [by eexists _, _; split_and!|].
    destruct (nm <? 2); eexists _, _; (split; [done|]); cbn; rewrite ?length_map; split_and!; try done; repeat constructor.
    cbn. by rewrite !length_map.
Qed.

(** ** Values in order *)

(** The times and values of the output value [k]. *)
Definition histOf (k : nat) (h : list (Z * (nat * V))) : list (Z * V) :=
  map (fun e => (e.1, e.2.2)) (List.filter (fun e => (e.2.1 =? k)%nat) h).

Lemma histOf_snoc k h t j v : histOf k (h ++ [(t, (j, v))]) = histOf k h ++ (if (j =? k)%nat then [(t, v)] else []).
Proof. unfold histOf. rewrite List.filter_app, map_app. cbn. by destruct (j =? k)%nat. Qed.

Definition times_ok (lo : Z) (h : list (Z * (nat * V))) : Prop :=
  StronglySorted (fun a b => a.1 <= b.1) h /\ Forall (fun e => lo <= e.1 < 2 * lo) h.

Lemma histOf_in k h e : e ∈ histOf k h -> exists x, x ∈ h /\ x.1 = e.1.
Proof.
  unfold histOf. intros (x & -> & Hx)%list_elem_of_fmap. apply list_elem_of_In, filter_In in Hx as [Hx _].
  exists x. by rewrite list_elem_of_In.
Qed.

Lemma histOf_order k lo h : times_ok lo h -> in_order (histOf k h).
Proof.
  intros [Hs _]. unfold histOf, in_order. apply (StronglySorted_filter _ (fun e => (e.2.1 =? k)%nat)) in Hs.
  induction Hs as [|a l _ IH Ha]; cbn; constructor; [done|]. apply Forall_fmap. exact Ha.
Qed.

(** The state after the values [h] in order. *)
Definition nearest_inv (n : nat) (h : list (Z * (nat * V))) (r : Nearest) : Prop :=
  exists m others, slots r = m :: others /\ length (slots r) = n /\
    nmaster r = Z.min 2 (zlen (histOf 0 h)) /\ slot_prev nan m (histOf 0 h) /\
    (forall l p q, histOf 0 h = l ++ [p; q] -> nearTT m = p.1) /\
    forall k c, others !! k = Some c -> slot_prev nan c (histOf (S k) h) /\
      (nmaster r = 2 -> slot_near (prevTT m) c (histOf (S k) h)).

Lemma times_ok_snoc lo h t p : times_ok lo (h ++ [(t, p)]) ->
  times_ok lo h /\ lo <= t < 2 * lo /\ (forall k e, e ∈ histOf k h -> lo <= e.1 <= t).
Proof.
  intros [Hs HF]. apply StronglySorted_app_iff in Hs as (Hs & _ & H). apply Forall_app in HF as [HF Ht].
  apply Forall_cons in Ht as [Ht _]. split; [done|]. split; [done|]. intros k e (x & Hx & <-)%histOf_in.
  rewrite Forall_forall in HF. pose proof (HF x Hx). pose proof (H x (t, p) Hx ltac:(set_solver)). cbn in *. lia.
Qed.

Lemma prev_bound c h t : slot_prev nan c h -> (forall e, e ∈ h -> e.1 <= t) -> 0 <= t -> prevTT c <= t.
Proof.
  unfold slot_prev. destruct (last h) as [e|] eqn:El; [|lia]. intros -> H _. apply last_Some in El as (k & ->).
  apply (H (prevTT c, prevData c)). set_solver.
Qed.

Lemma inv_new n : (0 < n)%nat -> nearest_inv n [] (newNearest n).
Proof.
  intros Hn. unfold nearest_inv, newNearest. destruct n as [|n]; [lia|]. eexists _, _. split; [done|].
  split; [cbn; by rewrite length_replicate|]. split; [done|]. split; [done|].
  split; [intros l p q H; by destruct l|]. intros k c Hk. apply lookup_replicate_1 in Hk as [-> _]. done.
Qed.

(** A value of the master variable in order. *)
Lemma inv_master lo n h r t v : nearest_inv n h r -> times_ok lo (h ++ [(t, (0%nat, v))]) -> 0 < lo ->
  exists r' o, receiveValue r t (0%nat, v) = Some (r', o) /\ nearest_inv n (h ++ [(t, (0%nat, v))]) r'.
Proof.
  intros (m & others & Es & Hn & Hm & Hp & H2 & Ho) Ht Hlo. apply times_ok_snoc in Ht as (Hto & Ht & Hb).
  unfold receiveValue. rewrite Es. pose proof (prev_bound _ _ t Hp ltac:(intros e He; by apply (Hb 0%nat)) ltac:(lia)) as Hle.
  assert (Hz : nmaster r = 0 <-> histOf 0 h = []).
  { rewrite Hm. split; [|intros E; by rewrite E]. pose proof (zlen_nonneg (histOf 0 h)). intros Hz. apply zlen_nil_inv. lia. }
  eexists _, _. split; [f_equal; apply surjective_pairing|]. unfold receiveMaster. set (m' := mkSlot _ (prevTT m) _ _ _). unfold nearest_inv.
  rewrite histOf_snoc. cbn [Nat.eqb]. exists m'.
  assert (Hprev : slot_prev nan m' (histOf 0 h ++ [(t, v)])) by (unfold slot_prev; by rewrite last_snoc).
  assert (Hnear : forall l p q, histOf 0 h ++ [(t, v)] = l ++ [p; q] -> nearTT m' = p.1).
  { intros l p q E. change (l ++ [p; q]) with (l ++ ([p] ++ [q])) in E. rewrite (assoc_L (++)) in E.
    apply app_inj_tail in E as [E _]. unfold slot_prev in Hp. rewrite E, last_snoc in Hp. subst p. done. }
  rewrite zlen_app, zlen_cons. change (zlen []) with 0. destruct (Z.eqb_spec (nmaster r) 0) as [E0|N0].
  - exists others. cbn [slots nmaster fst]. rewrite Es in Hn. split_and!; try done; [by rewrite (proj1 Hz E0)|].
    intros k c Hk. rewrite histOf_snoc. cbn. rewrite app_nil_r. split; [by apply Ho|]. lia.
  - assert (Hlt : 0 < zlen (histOf 0 h)).
    { pose proof (zlen_nonneg (histOf 0 h)). destruct (Z.eq_dec (zlen (histOf 0 h)) 0) as [E|]; [|lia].
      apply zlen_nil_inv in E. tauto. }
    destruct (Z.ltb_spec t (prevTT m)) as [|_]; [lia|]. exists (map resetSince others). cbn [slots nmaster fst].
    rewrite Es in Hn. cbn in Hn |- *. rewrite length_map. split_and!; try done.
    + destruct (Z.ltb_spec (nmaster r) 2); lia.
    + intros k c Hk. apply list_lookup_fmap_Some in Hk as (c0 & -> & Hk). rewrite histOf_snoc. cbn. rewrite app_nil_r.
      split; [by apply (Ho k c0)|]. intros _. unfold slot_near. cbn. apply Forall_forall. intros e He. by apply (Hb (S k)).
Qed.

(** A value of another variable in order. *)
Lemma inv_other lo n h r t k v : nearest_inv n h r -> times_ok lo (h ++ [(t, (S k, v))]) -> 0 < lo -> (S k < n)%nat ->
  exists r' o, receiveValue r t (S k, v) = Some (r', o) /\ nearest_inv n (h ++ [(t, (S k, v))]) r'.
Proof.
  intros (m & others & Es & Hn & Hm & Hp & H2 & Ho) Ht Hlo Hk. pose proof (histOf_order (S k) lo _ Ht) as Hord.
  apply times_ok_snoc in Ht as (Hto & Ht & Hb). unfold receiveValue. rewrite Es in Hn |- *. cbn in Hn.
  destruct (others !! k) as [c|] eqn:Ek; [|apply lookup_ge_None in Ek; lia].
  pose proof (prev_bound _ _ t Hp ltac:(intros e He; by apply (Hb 0%nat)) ltac:(lia)) as Hle.
  destruct (Ho k c Ek) as [Hpc Hnc].
  pose proof (prev_bound _ _ t Hpc ltac:(intros e He; by apply (Hb (S k))) ltac:(lia)) as Hlec.
  eexists _, _. split; [done|]. exists m, (<[k := otherValue (prevTT m) t v c]> others). cbn [slots nmaster length].
  rewrite length_insert, histOf_snoc. cbn [Nat.eqb]. rewrite app_nil_r. split_and!; try done.
  intros j c' [(<- & <- & _)|[Hne Hj]]%list_lookup_insert_Some; rewrite histOf_snoc; cbn.
  2: { destruct (Nat.eqb_spec k j); [done|]. rewrite app_nil_r. by apply Ho. }
  rewrite histOf_snoc in Hord. cbn in Hord. rewrite Nat.eqb_refl in Hord |- *. unfold otherValue.
  destruct (Z.ltb_spec t (prevTT c)); [lia|]. destruct (Z.ltb_spec t (prevTT m)); [lia|]. split.
  - unfold slot_prev, slotValue. rewrite last_snoc. by repeat case_match.
  - intros E2. assert (HT : lo <= prevTT m).
    { unfold slot_prev in Hp. destruct (last (histOf 0 h)) as [e|] eqn:El.
      - subst e. apply last_Some in El as (l & El). apply (Hb 0%nat (prevTT m, prevData m)). rewrite El. set_solver.
      - apply last_None in El. rewrite El in Hm. change (zlen []) with 0 in Hm. lia. }
    by destruct (slotValue_ok nan (prevTT m) t v c _ Hord ltac:(lia) Hpc (Hnc E2)) as (_ & ? & _).
Qed.

Lemma inv_run lo n h : (0 < n)%nat -> 0 < lo -> times_ok lo h -> Forall (fun e => (e.2.1 < n)%nat) h ->
  exists r out, receiveValues (newNearest n) h = Some (r, out) /\ nearest_inv n h r.
Proof.
  intros Hn Hlo. induction h as [|[t [k v]] h IH] using rev_ind; intros Ht HF.
  { eexists _, _. split; [done|]. by apply inv_new. }
  apply Forall_app in HF as [HF Hk]. apply Forall_cons in Hk as [Hk _].
  destruct IH as (r & out & Er & Hr); [by destruct (times_ok_snoc _ _ _ _ Ht)|done|].
  assert (Hs : exists r' o, receiveValue r t (k, v) = Some (r', o) /\ nearest_inv n (h ++ [(t, (k, v))]) r').
  { destruct k; [by apply (inv_master lo)|by apply (inv_other lo)]. }
  destruct Hs as (r' & o & Es & Hi). exists r', (out ++ option_list o). split; [|done].
  clear -Er Es. revert Er. generalize (newNearest n). intros r0 Er. revert r0 out Er.
  induction h as [|[t0 p0] h IH]; intros r0 out; cbn [receiveValues app].
  - intros [= -> <-]. rewrite Es. by rewrite app_nil_r.
  - destruct (receiveValue r0 t0 p0) as [[r1 o1]|]; [|done]. destruct (receiveValues r1 h) as [[r2 out2]|] eqn:E2; [|done].
    intros [= -> <-]. rewrite (IH _ _ E2). by rewrite (assoc_L (++)).
Qed.

(** What is written when the arrays are up to date. *)
Definition written_nearest (n : nat) (minTT maxTT : Z) (T : Z) (mval : V) (h : list (Z * (nat * V))) (o : OutSample) : Prop :=
  o_tt o = T /\ length (o_data o) = n /\ o_data o !! 0%nat = Some mval /\
  (o_nonNANs o = if nansVariable then Some (zlen (List.filter (fun v => negb (isnan v)) (o_data o))) else None) /\
  forall k, (0 < k < n)%nat ->
    (histOf k h = [] -> o_data o !! k = Some nan) /\
    (histOf k h <> [] -> exists e, nearest T e (histOf k h) /\
       o_data o !! k = Some (if (minTT <=? e.1) && (e.1 <=? maxTT) then e.2 else nan)).

Lemma count_values {A} (f : A -> V * bool) l : (forall c, snd (f c) = negb (isnan (fst (f c)))) ->
  zlen (List.filter snd (map f l)) = zlen (List.filter (fun v => negb (isnan v)) (map fst (map f l))).
Proof.
  intros E. induction l as [|c l IH]; [done|]. cbn [map List.filter]. rewrite E.
  destruct (isnan (fst (f c))); cbn [negb]; [done|]. by rewrite !zlen_cons, IH.
Qed.

Lemma output_count minTT maxTT others : isnan nan = true ->
  zlen (List.filter snd (map (outputValue minTT maxTT) others)) =
  zlen (List.filter (fun v => negb (isnan v)) (map fst (map (outputValue minTT maxTT) others))).
Proof.
  intros Hnan. apply count_values. intros c. unfold outputValue. destruct (slotChosen c) as [t v].
  case_match; cbn; [by rewrite Hnan|done].
Qed.

Lemma output_nearest lo n h r m others minTT maxTT : isnan nan = true -> times_ok lo h ->
  nearest_inv n h r -> slots r = m :: others -> nmaster r = 2 ->
  written_nearest n minTT maxTT (prevTT m) (prevData m) h (outputSample minTT maxTT m others).
Proof.
  intros Hnan Ht (m' & others' & Es & Hn & _ & _ & _ & Ho) Es' E2. rewrite Es in Es', Hn. simplify_eq.
  unfold written_nearest, outputSample. cbn [o_tt o_data o_nonNANs map fst]. rewrite !length_cons, !length_map in *.
  split; [done|]. split; [done|]. split; [done|]. split.
  - destruct nansVariable; [|done]. cbn. pose proof (output_count minTT maxTT others Hnan) as Hc. cbn in Hc.
    destruct (isnan (prevData m)); cbn; [by rewrite Hc|]. by rewrite !zlen_cons, Hc.
  - intros [|k] Hk; [lia|]. destruct (others !! k) as [c|] eqn:Ek; [|apply lookup_ge_None in Ek; lia].
    assert (El : (prevData m :: map fst (map (outputValue minTT maxTT) others)) !! S k = Some (outputValue minTT maxTT c).1).
    { change ((fst <$> (outputValue minTT maxTT <$> others)) !! k = Some (outputValue minTT maxTT c).1).
      by rewrite !list_lookup_fmap, Ek. }
    rewrite El. destruct (Ho k c Ek) as [Hp Hne]. pose proof (chosen_nearest nan (prevTT m) c _ (histOf_order (S k) lo h Ht) Hp (Hne E2)) as [C1 C2].
    unfold outputValue. destruct (slotChosen c) as [t v]. cbn in C1. split.
    + intros Hh. specialize (C1 Hh). subst v. by case_match.
    + intros Hh. exists (t, v). split; [by apply C2|]. cbn. bdestr; try done; lia.
Qed.

End NearestResampler.

Arguments Nearest : clear implicits.
Arguments OutSample : clear implicits.
Arguments operation : clear implicits.

(** ** Properties *)

(** C31: a resampler keeps its arrays at the length of the requested variables.
    Whatever the sources it is connected to, the samples it receives and the
    calls of [flush], no assertion of [connect] and [receive] fails and no
    array is indexed out of its range, and every sample it sends has one
    value for each of the requested ones. *)
Theorem resampler_type {V} (nan : V) (isnan : V -> bool) (nans : bool) (reqVars : list NVariable) (ops : list (operation V)) :
  exists st out, operateAll nan isnan nans reqVars ops (noMaps, newNearest nan (ndataValues reqVars)) = Some (st, out) /\
    maps_ok (ndataValues reqVars) st.1 /\ length (slots st.2) = ndataValues reqVars /\
    Forall (fun x => length (o_data x) = ndataValues reqVars) out.
Proof.
  assert (H : forall st, maps_ok (ndataValues reqVars) st.1 -> length (slots st.2) = ndataValues reqVars ->
    exists st' out, operateAll nan isnan nans reqVars ops st = Some (st', out) /\ maps_ok (ndataValues reqVars) st'.1 /\
      length (slots st'.2) = ndataValues reqVars /\ Forall (fun x => length (o_data x) = ndataValues reqVars) out).
  { induction ops as [|op ops IH]; intros st Hm Hl; cbn [operateAll]; [by exists st, []|].
    destruct (operate_type nan isnan nans reqVars op st Hm Hl) as (st1 & o & -> & Hm1 & Hl1 & Ho).
    destruct (IH st1 Hm1 Hl1) as (st2 & out & -> & Hm2 & Hl2 & Ho2). eexists _, _. split; [done|].
    split; [done|]. split; [done|]. by apply Forall_app. }
  apply H; [apply noMaps_ok|]. apply length_replicate.
Qed.

(** C11: the nearest value.  From the third value of the master variable on,
    when the samples come in order of time: the sample sent has the time [T]
    and the value of the previous master value; any other value is one of
    those received for it whose time is a nearest to [T], or NaN if there is
    none or if that time is not between a tenth of the master intervals
    around [T]; the count is that of the values that are not NaN.  The same
    for [flush] with the whole intervals.  (Times are at least [lo] and less
    than twice that, as microseconds since 1970 are.) *)
Theorem resample_nearest {V} (nan : V) (isnan : V -> bool) (nans : bool) (n : nat) (lo P T : Z) (vP vT : V)
    (l : list (Z * V)) (h : list (Z * (nat * V))) :
  isnan nan = true -> (0 < n)%nat -> 0 < lo -> times_ok lo h -> Forall (fun e => (e.2.1 < n)%nat) h ->
  histOf 0 h = l ++ [(P, vP); (T, vT)] ->
  exists r out, receiveValues nan isnan nans (newNearest nan n) h = Some (r, out) /\
    (forall t v, times_ok lo (h ++ [(t, (0%nat, v))]) ->
       exists r' o, receiveValue nan isnan nans r t (0%nat, v) = Some (r', Some o) /\
         written_nearest nan isnan nans n (P + Z.quot (T - P) 10) (t - Z.quot (t - T) 10) T vT h o) /\
    exists r' o, flush nan isnan nans r = (r', Some o) /\ written_nearest nan isnan nans n P (T + (T - P)) T vT h o.
Proof.
  intros Hnan Hn Hlo Ht HF Hh. destruct (inv_run nan isnan nans lo n h Hn Hlo Ht HF) as (r & out & Er & Hi).
  exists r, out. split; [done|]. pose proof Hi as (m & others & Es & _ & Hm & Hp & H2 & _).
  assert (E2 : nmaster r = 2).
  { rewrite Hm, Hh, zlen_app, !zlen_cons. pose proof (zlen_nonneg l). change (zlen []) with 0. lia. }
  specialize (H2 _ _ _ Hh). cbn in H2. unfold slot_prev in Hp. rewrite Hh in Hp.
  change (l ++ [(P, vP); (T, vT)]) with (l ++ ([(P, vP)] ++ [(T, vT)])) in Hp. rewrite (assoc_L (++)), last_snoc in Hp.
  injection Hp as -> ->. rewrite <- H2. split.
  - intros t v Ht'. unfold receiveValue, receiveMaster. rewrite Es, E2. cbn [Z.eqb Z.ltb Z.compare].
    change (2 <? 2) with false. cbv iota. destruct (Z.ltb_spec t (prevTT m)) as [Hlt|_].
    { destruct (times_ok_snoc nan isnan _ _ _ _ Ht') as (_ & _ & Hb). pose proof (Hb 0%nat (prevTT m, prevData m) ltac:(rewrite Hh; set_solver)).
      cbn in *. lia. }
    eexists _, _. split; [done|]. by eapply output_nearest.
  - unfold flush. rewrite Es, E2. change (2 <? 2) with false. cbv iota. eexists _, _. split; [done|]. by eapply output_nearest.
Qed.

(** Values of two variables, in order. *)
Definition twoVariables : list (Z * (nat * option Z)) :=
  [(1000, (0%nat, Some 1)); (1010, (1%nat, Some 2)); (1100, (0%nat, Some 3)); (1180, (1%nat, Some 4)); (1200, (0%nat, Some 5));
   (1210, (1%nat, Some 6)); (1220, (1%nat, Some 7))].

Lemma resample_nearest_witness : exists r out o,
  receiveValues None (fun v => negb (bool_decide (is_Some v))) true (newNearest None 2) twoVariables = Some (r, out) /\
  snd (flush None (fun v => negb (bool_decide (is_Some v))) true r) = Some o /\
  o_tt o = 1200 /\ o_data o = [Some 5; Some 6] /\ o_nonNANs o = Some 2.
Proof.
  destruct (resample_nearest None (fun v => negb (bool_decide (is_Some v))) true 2 1000 1100 1200 (Some 3) (Some 5) [(1000, Some 1)]
    twoVariables) as (r & out & E & _ & r' & o & Ef & W).
  - reflexivity.
  - lia.
  - lia.
  - unfold times_ok, twoVariables. split; repeat constructor; cbn; lia.
  - unfold twoVariables. repeat constructor.
  - reflexivity.
  - exists r, out, o. split; [exact E|]. rewrite Ef. split; [reflexivity|]. vm_compute in E. injection E as <- _.
    vm_compute in Ef. injection Ef as _ <-. repeat split.
Defined.

(** The first sample sent does not hold the nearest value when a value was
    received before the first master value: the one at 1025 is 5 from the
    time 1020 sent, and NaN is written. *)
Lemma first_output_not_nearest :
  option_map snd (receiveValues None (fun v => negb (bool_decide (is_Some v))) false (newNearest None 2)
    [(1010, (1%nat, Some 2)); (1020, (0%nat, Some 1)); (1025, (1%nat, Some 3)); (1040, (0%nat, Some 4))]) =
  Some [mkOutSample 1020 [Some 1; None] None].
Proof. vm_compute. reflexivity. Qed.
