(* ===== verification/NearestResamplerAtRate.v ===== *)
(** * The nearest-point resampler at a rate.

    [core/NearestResamplerAtRate.cc]: the values of several samples are merged
    at the times of a grid.  The requested variables, [connect] and the
    arrays are those of [Resampler.v].  What [setRate] computes in floating
    point, the interval and whether it is a whole number of microseconds, are
    arguments; the counts of the warnings are left out. *)

From S2P Require Import Prelude SampleId Resampler NearestResampler.

Section AtRate.

Context {V : Type} (nan : V) (isnan : V -> bool) (nansVariable : bool).

(** [_deltatUsec], [_exactDeltatUsec], [_middleTimeTags], [_fillGaps] *)
Context (deltatUsec : Z) (exactDeltatUsec middleTimeTags fillGaps : bool).

Definition deltatUsecD10 : Z := Z.quot deltatUsec 10.
Definition deltatUsecD2 : Z := Z.quot deltatUsec 2.

Record AtRate := mkAtRate { ar_slots : list (Slot V); outputTT : Z; nextOutputTT : Z; osamp : bool }.

(** The constructor. *)
Definition newAtRate (n : nat) : AtRate := mkAtRate (replicate n (newSlot nan)) 0 0 false.

(** An [unsigned int] of the microseconds in the second of a time. *)
Definition usecsOfSecond (t : Z) : Z := u32 (Z.rem t USECS_PER_SEC).

(** The output time at or before [tt]. *)
Definition alignTT (tt : Z) : Z :=
  if exactDeltatUsec then
    if middleTimeTags then
      let ttx := tt + deltatUsecD2 in ttx - Z.rem ttx deltatUsec - deltatUsecD2
    else tt - Z.rem tt deltatUsec
  else
    if middleTimeTags then
      let ttx := tt + deltatUsecD2 in
      let tmod := usecsOfSecond ttx in ttx - tmod mod deltatUsec - deltatUsecD2
    else
      let tmod := usecsOfSecond tt in tt - tmod mod deltatUsec.

(** The output time after one that was sent. *)
Definition advanceTT (s : AtRate) : Z :=
  if exactDeltatUsec then outputTT s + deltatUsec
  else if middleTimeTags then
    let tmod := usecsOfSecond (nextOutputTT s) in
    let n := tmod / deltatUsec in nextOutputTT s - tmod + n * deltatUsec + deltatUsecD2
  else
    let next := nextOutputTT s + deltatUsecD2 in
    let tmod := usecsOfSecond next in
    let n := tmod / deltatUsec in next - tmod + n * deltatUsec.

(** The value written for an output value, and whether it is counted. *)
Definition rowValue (minTT maxTT : Z) (c : Slot V) : V * bool :=
  if samplesSince c =? 0 then
    if prevTT c <? minTT then (nan, false) else (prevData c, negb (isnan (prevData c)))
  else
    if (maxTT <? nearTT c) || (nearTT c <? minTT) then (nan, false) else (nearData c, negb (isnan (nearData c))).

(** One turn of the loop of [sendSample]. *)
Definition sendOnce (tt : Z) (s : AtRate) : AtRate * option (OutSample V) :=
  let maxTT := nextOutputTT s - deltatUsecD10 in
  let minTT := outputTT s - deltatUsec + deltatUsecD10 in
  let vals := map (rowValue minTT maxTT) (ar_slots s) in
  let nonNANs := zlen (List.filter snd vals) in
  let '(T, o) :=
    if (0 <? nonNANs) || fillGaps
    then (advanceTT s, Some (mkOutSample (outputTT s) (map fst vals) (if nansVariable then Some nonNANs else None)))
    else (alignTT tt, None) in
  (mkAtRate (map resetSince (ar_slots s)) T (T + deltatUsec) true, o).

Fixpoint sendLoop (fuel : nat) (tt : Z) (s : AtRate) : option (AtRate * list (OutSample V)) :=
  if nextOutputTT s <? tt then
    match fuel with
    | O => None
    | S fuel =>
        let '(s, o) := sendOnce tt s in
        match sendLoop fuel tt s with
        | None => None
        | Some (s, out) => Some (s, option_list o ++ out)
        end
    end
  else Some (s, []).

(** [sendSample(tt)]; [None] when the bound on the turns is reached. *)
Definition sendSample (fuel : nat) (tt : Z) (s : AtRate) : option (AtRate * list (OutSample V)) :=
  let s := if osamp s then s else let T := alignTT tt in mkAtRate (ar_slots s) T (T + deltatUsec) true in
  sendLoop fuel tt s.

(** A value; [T] is the output time. *)
Definition rateValue (T tt : Z) (val : V) (c : Slot V) : Slot V :=
  if tt <? prevTT c then slotBackwards T tt val c
  else if (samplesSince c =? 0) && (tt <? T) then mkSlot tt (nearTT c) val (nearData c) (samplesSince c)
  else slotValue T tt val c.

(** The loops of [receive]; [None] when an array is indexed out of range. *)
Fixpoint rateValues (tt : Z) (s : AtRate) (evs : list (nat * V)) : option AtRate :=
  match evs with
  | [] => Some s
  | (oi, val) :: evs =>
      if isnan val then rateValues tt s evs
      else
        match ar_slots s !! oi with
        | None => None
        | Some c =>
            rateValues tt (mkAtRate (<[oi := rateValue (outputTT s) tt val c]> (ar_slots s)) (outputTT s) (nextOutputTT s) (osamp s)) evs
        end
  end.

(** [receive(samp)] *)
Definition receiveAtRate (fuel : nat) (maps : Maps) (s : AtRate) (samp : fsample V) : option (bool * AtRate * list (OutSample V)) :=
  match receivedValues maps samp with
  | None => None
  | Some None => Some (false, s, [])
  | Some (Some evs) =>
      match (if nextOutputTT s <? f_tt samp then sendSample fuel (f_tt samp) s else Some (s, [])) with
      | None => None
      | Some (s, out) =>
          match rateValues (f_tt samp) s evs with
          | None => None
          | Some s => Some (true, s, out)
          end
      end
  end.

(** [flush()] *)
Definition flushAtRate (fuel : nat) (s : AtRate) : option (AtRate * list (OutSample V)) := sendSample fuel (nextOutputTT s + 1) s.

(** ** The grid *)

Context (Hd : 0 < deltatUsec).

Lemma d2_bounds : 0 <= deltatUsecD2 /\ 2 * deltatUsecD2 <= deltatUsec.
Proof. unfold deltatUsecD2. Z.to_euclidean_division_equations. lia. Qed.

Lemma align_bounds tt : 0 <= tt -> alignTT tt <= tt < alignTT tt + deltatUsec.
Proof.
  intros Ht. pose proof d2_bounds as H2. unfold alignTT. set (x := tt + deltatUsecD2).
  destruct exactDeltatUsec, middleTimeTags.
  - pose proof (Z.rem_bound_pos x deltatUsec). lia.
  - pose proof (Z.rem_bound_pos tt deltatUsec). lia.
  - pose proof (Z.mod_pos_bound (usecsOfSecond x) deltatUsec). lia.
  - pose proof (Z.mod_pos_bound (usecsOfSecond tt) deltatUsec). lia.
Qed.

Lemma advance_later s : nextOutputTT s = outputTT s + deltatUsec -> nextOutputTT s < advanceTT s + deltatUsec.
Proof.
  intros Hn. pose proof d2_bounds as H2. unfold advanceTT. destruct exactDeltatUsec; [lia|]. destruct middleTimeTags.
  - pose proof (Z.mul_succ_div_gt (usecsOfSecond (nextOutputTT s)) deltatUsec Hd). lia.
  - pose proof (Z.mul_succ_div_gt (usecsOfSecond (nextOutputTT s + deltatUsecD2)) deltatUsec Hd). lia.
Qed.

Lemma sendOnce_next tt s : 0 <= tt -> nextOutputTT s = outputTT s + deltatUsec ->
  let s' := fst (sendOnce tt s) in
  nextOutputTT s' = outputTT s' + deltatUsec /\ (nextOutputTT s < nextOutputTT s' \/ tt < nextOutputTT s').
Proof.
  intros Ht Hn. unfold sendOnce. destruct ((0 <? _) || fillGaps); cbn; (split; [done|]).
  - left. by apply advance_later.
  - right. by apply align_bounds.
Qed.

Lemma sendLoop_total fuel : forall tt s, 0 <= tt -> nextOutputTT s = outputTT s + deltatUsec -> tt - nextOutputTT s <= Z.of_nat fuel ->
  exists s' out, sendLoop fuel tt s = Some (s', out) /\ tt <= nextOutputTT s'.
Proof.
  induction fuel as [|fuel IH]; intros tt s Ht Hn Hf; cbn [sendLoop]; destruct (Z.ltb_spec (nextOutputTT s) tt); try lia;
    try (eexists _, _; split; [done|lia]).
  pose proof (sendOnce_next tt s Ht Hn) as [Hn' Hl]. destruct (sendOnce tt s) as [s1 o]. cbn in Hn', Hl.
  destruct (IH tt s1 Ht Hn' ltac:(lia)) as (s2 & out & -> & Hle). eauto.
Qed.

End AtRate.

Arguments AtRate : clear implicits.

(** ** Samples in order, at an exact interval *)

Section Exact.

Context {V : Type} (nan : V) (isnan : V -> bool) (nans : bool) (d : Z) (middle fill : bool) (Hd : 0 < d) (lo : Z) (n : nat).

Abbreviation align := (alignTT d true middle).
Abbreviation send := (sendLoop nan isnan nans d true middle fill).

(** The times of the grid. *)
Definition onGrid (T : Z) : Prop := (T + (if middle then deltatUsecD2 d else 0)) mod d = 0.

Lemma align_grid t : 0 <= t -> onGrid (align t).
Proof.
  intros Ht. pose proof (d2_bounds nan isnan d Hd) as H2. unfold onGrid, alignTT. destruct middle.
  - rewrite Z.rem_mod_nonneg by lia. set (x := t + deltatUsecD2 d). replace (x - x mod d - deltatUsecD2 d + deltatUsecD2 d) with (x - x mod d) by lia.
    rewrite Zminus_mod, Z.mod_mod, Z.sub_diag by lia. done.
  - rewrite Z.rem_mod_nonneg by lia. rewrite Z.add_0_r, Zminus_mod, Z.mod_mod, Z.sub_diag by lia. done.
Qed.

Lemma grid_next T : onGrid T -> onGrid (T + d).
Proof.
  unfold onGrid. set (x := if middle then deltatUsecD2 d else 0). intros H. replace (T + d + x) with (T + x + 1 * d) by lia.
  rewrite Z.mod_add by lia. done.
Qed.

Lemma grid_le T t : 0 <= t -> onGrid T -> T < t -> T <= align t.
Proof.
  intros Ht Hg Hlt. pose proof (align_grid t Ht) as Ha. pose proof (align_bounds nan isnan d true middle Hd t Ht) as Hb.
  destruct (Z_le_gt_dec T (align t)) as [|Hgt]; [done|exfalso]. unfold onGrid in *.
  set (x := if middle then deltatUsecD2 d else 0) in *. apply Z.mod_divide in Hg as [q Hq]; [|lia].
  apply Z.mod_divide in Ha as [p Hp]; [|lia]. assert (T - align t = (q - p) * d) by lia. assert (p < q) by nia. nia.
Qed.

(** Rows that follow one another at intervals of at least [d], of [d] when
    the gaps are filled, from the output time [T] to [T']. *)
Fixpoint rows_from (T : Z) (out : list (OutSample V)) (T' : Z) : Prop :=
  match out with
  | [] => T <= T' /\ (fill = true -> T = T')
  | o :: out => T <= o_tt o /\ (fill = true -> T = o_tt o) /\ rows_from (o_tt o + d) out T'
  end.

Lemma rows_app T1 out1 T2 out2 T3 : rows_from T1 out1 T2 -> rows_from T2 out2 T3 -> rows_from T1 (out1 ++ out2) T3.
Proof.
  revert T1. induction out1 as [|o out1 IH]; intros T1; cbn.
  - intros [Hle Hf]. destruct out2 as [|o out2]; cbn; [intros [? Hf2]; split; [lia|]; intros Hfl; by rewrite Hf, Hf2|].
    intros (? & Hf2 & ?). split; [lia|]. split; [|done]. intros Hfl. by rewrite Hf, Hf2.
  - intros (? & ? & H1) H2. split; [done|]. split; [done|]. by apply IH.
Qed.

(** A row of the values [h]. *)
Definition row_ok (h : list (Z * (nat * V))) (o : OutSample V) : Prop :=
  let T := o_tt o in
  onGrid T /\ length (o_data o) = n /\
  (o_nonNANs o = if nans then Some (zlen (List.filter (fun v => negb (isnan v)) (o_data o))) else None) /\
  forall k, (k < n)%nat ->
    (histOf k h = [] -> o_data o !! k = Some nan) /\
    (histOf k h <> [] -> exists e, nearest T e (histOf k h) /\
       o_data o !! k = Some (if (T - d + deltatUsecD10 d <=? e.1) && (e.1 <=? T + d - deltatUsecD10 d) then e.2 else nan)).

(** The state after the values [h]; [cur] is the time of the last sample. *)
Record rate_inv (h : list (Z * (nat * V))) (cur : Z) (s : AtRate V) : Prop := {
  R_len : length (ar_slots s) = n;
  R_next : nextOutputTT s = outputTT s + d;
  R_grid : onGrid (outputTT s);
  R_lo : lo <= outputTT s <= cur;
  R_before : forall k e, e ∈ histOf k h -> e.1 <= nextOutputTT s;
  R_slots : forall k c, ar_slots s !! k = Some c ->
    in_order (histOf k h) /\ slot_prev nan c (histOf k h) /\ slot_near (outputTT s) c (histOf k h)
}.

Lemma reset_slots h s T : (forall k e, e ∈ histOf k h -> e.1 <= T) ->
  (forall k c, ar_slots s !! k = Some c -> in_order (histOf k h) /\ slot_prev nan c (histOf k h) /\ slot_near (outputTT s) c (histOf k h)) ->
  forall k c, map resetSince (ar_slots s) !! k = Some c -> in_order (histOf k h) /\ slot_prev nan c (histOf k h) /\ slot_near T c (histOf k h).
Proof.
  intros Hb H k c Hk. apply list_lookup_fmap_Some in Hk as (c0 & -> & Hk). destruct (H k c0 Hk) as (? & ? & _).
  split; [done|]. split; [done|]. unfold slot_near. cbn. apply Forall_forall. intros e He. by apply (Hb k).
Qed.

Context (Hnan : isnan nan = true).

Lemma row_written h cur s : rate_inv h cur s ->
  let vals := map (rowValue nan isnan (outputTT s - d + deltatUsecD10 d) (nextOutputTT s - deltatUsecD10 d)) (ar_slots s) in
  row_ok h (mkOutSample (outputTT s) (map fst vals) (if nans then Some (zlen (List.filter snd vals)) else None)).
Proof.
  intros [Hlen Hnext Hg Hlo' Hb Hs]. rewrite Hnext. cbv zeta. set (minTT := outputTT s - d + deltatUsecD10 d).
  set (maxTT := outputTT s + d - deltatUsecD10 d). unfold row_ok. cbn [o_tt o_data o_nonNANs]. fold minTT maxTT.
  split; [done|]. rewrite !length_map. split; [done|]. split.
  { destruct nans; [|done]. f_equal. apply count_values. intros c. unfold rowValue. repeat case_match; cbn; try done; by rewrite Hnan. }
  intros k Hk. destruct (ar_slots s !! k) as [c|] eqn:Ek; [|apply lookup_ge_None in Ek; lia].
  assert (El : map fst (map (rowValue nan isnan minTT maxTT) (ar_slots s)) !! k = Some (rowValue nan isnan minTT maxTT c).1).
  { change ((fst <$> (rowValue nan isnan minTT maxTT <$> ar_slots s)) !! k = Some (rowValue nan isnan minTT maxTT c).1).
    by rewrite !list_lookup_fmap, Ek. }
  rewrite El. destruct (Hs k c Ek) as (Ho & Hp & Hn). pose proof (chosen_nearest nan _ c _ Ho Hp Hn) as [C1 C2].
  assert (Hmax : outputTT s <= maxTT).
  { unfold maxTT, deltatUsecD10. pose proof (Z.quot_le_upper_bound d 10 d ltac:(lia)). lia. }
  unfold rowValue, slotChosen, slot_near in *. destruct (samplesSince c =? 0) eqn:E0; cbn in C1.
  - split.
    + intros Hh. specialize (C1 Hh). rewrite C1. by case_match.
    + intros Hh. eexists. split; [by apply C2|]. destruct (C2 Hh) as [Hin _]. rewrite Forall_forall in Hn.
      specialize (Hn _ Hin). cbn in Hn |- *. bdestr; try done; lia.
  - split.
    + intros Hh. specialize (C1 Hh). rewrite C1. by case_match.
    + intros Hh. eexists. split; [by apply C2|]. cbn. bdestr; try done; lia.
Qed.

Lemma send_ok h fuel : forall cur s t, rate_inv h cur s -> cur <= t -> 0 <= lo -> t - nextOutputTT s <= d * Z.of_nat fuel ->
  exists s' out, send fuel t s = Some (s', out) /\ rate_inv h t s' /\ t <= nextOutputTT s' /\
    rows_from (outputTT s) out (outputTT s') /\ Forall (fun o => row_ok h o /\ o_tt o + d < t) out.
Proof.
  induction fuel as [|fuel IH]; intros cur s t Hi Hc Hlo Hf; cbn [sendLoop]; destruct (Z.ltb_spec (nextOutputTT s) t) as [Hlt|Hge];
    try lia; try (destruct Hi; eexists _, _; split; [done|]; split; [split; try done; lia|]; split; [lia|]; split; [split; [lia|done]|constructor]).
  rewrite Nat2Z.inj_succ, Z.mul_succ_r in Hf.
  pose proof (row_written h cur s Hi) as Hrow. destruct Hi as [Hlen Hnext Hg Hlo' Hb Hs]. unfold sendOnce, advanceTT.
  destruct ((0 <? _) || fill) eqn:Eb.
  - set (s1 := mkAtRate _ (outputTT s + d) _ _).
    assert (Hi1 : rate_inv h t s1).
    { split; cbn [s1 ar_slots outputTT nextOutputTT]; [by rewrite length_map|done|by apply grid_next|lia| |].
      - intros k e He. specialize (Hb k e He). lia.
      - apply reset_slots; [|done]. intros k e He. specialize (Hb k e He). lia. }
    destruct (IH t s1 t Hi1 ltac:(lia) Hlo) as (s2 & out & -> & Hi2 & Hle & Hr & HF); [change (nextOutputTT s1) with (outputTT s + d + d); lia|].
    eexists _, _. split; [done|]. split; [done|]. split; [done|]. split.
    + cbn. split; [lia|]. split; [done|]. exact Hr.
    + constructor; [|done]. split; [exact Hrow|]. cbn. lia.
  - apply orb_false_iff in Eb as [_ Efill]. pose proof (align_bounds nan isnan d true middle Hd t ltac:(lia)) as Ha.
    assert (Hge : nextOutputTT s <= align t) by (apply grid_le; [lia| |done]; rewrite Hnext; by apply grid_next).
    set (s1 := mkAtRate _ (align t) _ _).
    assert (Hi1 : rate_inv h t s1).
    { split; cbn [s1 ar_slots outputTT nextOutputTT]; [by rewrite length_map|done|apply align_grid; lia|lia| |].
      - intros k e He. specialize (Hb k e He). lia.
      - apply reset_slots; [|done]. intros k e He. specialize (Hb k e He). lia. }
    destruct (IH t s1 t Hi1 ltac:(lia) Hlo) as (s2 & out & -> & Hi2 & Hle & Hr & HF); [change (nextOutputTT s1) with (align t + d); nia|].
    eexists _, _. split; [done|]. split; [done|]. split; [done|]. split; [|done].
    apply (rows_app (outputTT s) [] (align t)); [|exact Hr]. split; [lia|congruence].
Qed.

(** The loops over the values of a sample. *)
Definition valuesAt (t : Z) (evs : list (nat * V)) : list (Z * (nat * V)) :=
  map (pair t) (List.filter (fun p => negb (isnan p.2)) evs).

Lemma values_ok t evs : forall h s, rate_inv h t s -> t <= nextOutputTT s -> t < 2 * lo -> 0 <= lo ->
  (forall k e, e ∈ histOf k h -> e.1 <= t) -> Forall (fun p => (p.1 < n)%nat) evs ->
  exists s', rateValues isnan t s evs = Some s' /\ rate_inv (h ++ valuesAt t evs) t s' /\
    outputTT s' = outputTT s /\ osamp s' = osamp s.
Proof.
  induction evs as [|[oi v] evs IH]; intros h s Hi Hn H2 Hlo Hb HF; cbn [rateValues].
  { exists s. unfold valuesAt. cbn. by rewrite app_nil_r. }
  apply Forall_cons in HF as [Hoi HF]. cbn in Hoi. unfold valuesAt. cbn [List.filter snd]. destruct (isnan v) eqn:Ev; cbn [negb].
  { by apply IH. }
  pose proof Hi as [Hlen Hnext Hg Hlo' Hb' Hs]. destruct (ar_slots s !! oi) as [c|] eqn:Ec; [|apply lookup_ge_None in Ec; lia].
  destruct (Hs oi c Ec) as (Ho & Hp & Hne).
  assert (Hord : in_order (histOf oi h ++ [(t, v)])).
  { apply StronglySorted_app_iff. split; [done|]. split; [repeat constructor|]. intros a b Ha Hbb.
    apply list_elem_of_singleton in Hbb as ->. by apply (Hb oi). }
  assert (Hpt : prevTT c <= t).
  { apply (prev_bound nan isnan c (histOf oi h)); [done| |lia]. intros e He. by apply (Hb oi). }
  destruct (slotValue_ok nan (outputTT s) t v c _ Hord ltac:(lia) Hp Hne) as (Hp' & Hne' & _).
  assert (Hrv : rateValue (outputTT s) t v c = slotValue (outputTT s) t v c).
  { unfold rateValue. destruct (Z.ltb_spec t (prevTT c)); [lia|]. destruct (Z.ltb_spec t (outputTT s)); [lia|]. by rewrite andb_false_r. }
  rewrite Hrv. set (s1 := mkAtRate _ _ _ _).
  assert (Hi1 : rate_inv (h ++ [(t, (oi, v))]) t s1).
  { split; cbn [s1 ar_slots outputTT nextOutputTT]; [by rewrite length_insert|done|done|lia| |].
    - intros k e. rewrite histOf_snoc. intros [He|He]%elem_of_app; [by apply (Hb' k)|]. destruct (oi =? k)%nat; [|set_solver].
      apply list_elem_of_singleton in He as ->. done.
    - intros k c' [(<- & <- & _)|[Hk Hc]]%list_lookup_insert_Some; rewrite histOf_snoc.
      + by rewrite Nat.eqb_refl.
      + rewrite (proj2 (Nat.eqb_neq _ _) Hk), app_nil_r. by apply Hs. }
  destruct (IH (h ++ [(t, (oi, v))]) s1 Hi1 Hn H2 Hlo) as (s2 & -> & Hi2 & E1 & E2); [|done|].
  { intros k e. rewrite histOf_snoc. intros [He|He]%elem_of_app; [by apply (Hb k)|]. destruct (oi =? k)%nat; [|set_solver].
    apply list_elem_of_singleton in He as ->. cbn. lia. }
  exists s2. split; [done|]. split; [|done]. rewrite <- (assoc_L (++)) in Hi2. exact Hi2.
Qed.

(** *** Receiving samples *)

Context (maps : Maps) (Hmaps : maps_ok n maps) (fuel : nat).

Fixpoint receiveAll (s : AtRate V) (ss : list (fsample V)) : option (AtRate V * list (OutSample V)) :=
  match ss with
  | [] => Some (s, [])
  | x :: ss =>
      match receiveAtRate nan isnan nans d true middle fill fuel maps s x with
      | None => None
      | Some (_, s, out) => match receiveAll s ss with None => None | Some (s, out') => Some (s, out ++ out') end
      end
  end.

(** The values the samples have for the resampler. *)
Definition valuesOf (ss : list (fsample V)) : list (Z * (nat * V)) :=
  flat_map (fun x => match receivedValues maps x with Some (Some evs) => valuesAt (f_tt x) evs | _ => [] end) ss.

Lemma receiveAll_snoc ss x s0 s out : receiveAll s0 ss = Some (s, out) ->
  receiveAll s0 (ss ++ [x]) =
    match receiveAtRate nan isnan nans d true middle fill fuel maps s x with
    | None => None
    | Some (_, s', out') => Some (s', out ++ out')
    end.
Proof.
  revert s0 out. induction ss as [|y ss IH]; intros s0 out; cbn [receiveAll app].
  - intros [= -> <-]. destruct (receiveAtRate _ _ _ _ _ _ _ _ _ _ _) as [[[b s'] o]|]; [|done]. by rewrite app_nil_r.
  - destruct (receiveAtRate _ _ _ _ _ _ _ _ _ s0 y) as [[[b s1] o1]|]; [|done].
    destruct (receiveAll s1 ss) as [[s2 o2]|] eqn:E; [|done]. intros [= -> <-]. rewrite (IH _ _ E).
    destruct (receiveAtRate _ _ _ _ _ _ _ _ _ s x) as [[[b' s'] o']|]; [|done]. by rewrite (assoc_L (++)).
Qed.

Lemma valuesOf_time ss k e : e ∈ histOf k (valuesOf ss) -> exists x, x ∈ ss /\ f_tt x = e.1.
Proof.
  intros (y & Hy & <-)%histOf_in. unfold valuesOf in Hy. apply list_elem_of_In, in_flat_map in Hy as (x & Hx & Hy).
  exists x. split; [by apply list_elem_of_In|]. destruct (receivedValues maps x) as [[evs|]|]; [|done|done].
  unfold valuesAt in Hy. by apply in_map_iff in Hy as (p & <- & _).
Qed.

(** The samples [ss] are in order. *)
Definition samples_ok (ss : list (fsample V)) : Prop :=
  StronglySorted (fun a b => f_tt a <= f_tt b) ss /\ Forall (fun x => lo + d <= f_tt x < 2 * lo) ss.

Definition state_ok (ss : list (fsample V)) (s : AtRate V) : Prop :=
  (s = newAtRate nan n /\ valuesOf ss = []) \/
  (osamp s = true /\ exists y, y ∈ ss /\ rate_inv (valuesOf ss) (f_tt y) s).

Lemma send_osamp f : forall t s s' out, send f t s = Some (s', out) -> osamp s = true -> osamp s' = true.
Proof.
  induction f as [|f IH]; intros t s s' out; cbn [sendLoop]; destruct (nextOutputTT s <? t); try done; try by intros [= -> _].
  destruct (sendOnce nan isnan nans d true middle fill t s) as [s1 o] eqn:E1.
  destruct (send f t s1) as [[s2 o2]|] eqn:E2; [|done]. intros [= <- _] _. apply (IH _ _ _ _ E2).
  revert E1. unfold sendOnce. case_match. by intros [= <- _].
Qed.

(** The state once the output times have reached a sample. *)
Lemma sent_ok ss s x : samples_ok (ss ++ [x]) -> state_ok ss s -> 0 <= lo -> lo <= d * Z.of_nat fuel ->
  exists s' out, (if nextOutputTT s <? f_tt x then sendSample nan isnan nans d true middle fill fuel (f_tt x) s else Some (s, [])) = Some (s', out) /\
    rate_inv (valuesOf ss) (f_tt x) s' /\ osamp s' = true /\ f_tt x <= nextOutputTT s' /\
    (osamp s = true -> rows_from (outputTT s) out (outputTT s')) /\ (osamp s = false -> out = []) /\
    Forall (fun o => row_ok (valuesOf ss) o /\ o_tt o + d < f_tt x) out.
Proof.
  intros [Hs HF] Hst Hlo Hf. apply StronglySorted_app_iff in Hs as (_ & _ & Hs). apply Forall_app in HF as [_ Hx].
  apply Forall_cons in Hx as [Hx _]. unfold sendSample. destruct Hst as [[-> Hv]|(Ho & y & Hy & Hi)].
  - cbn [nextOutputTT osamp newAtRate ar_slots]. destruct (Z.ltb_spec 0 (f_tt x)); [|lia].
    pose proof (align_bounds nan isnan d true middle Hd (f_tt x) ltac:(lia)) as Ha.
    assert (Hi : rate_inv (valuesOf ss) (f_tt x) (mkAtRate (replicate n (newSlot nan)) (align (f_tt x)) (align (f_tt x) + d) true)).
    { rewrite Hv. split; cbn [ar_slots outputTT nextOutputTT]; [apply length_replicate|done|apply align_grid; lia|lia|set_solver|].
      intros k c Hk. apply lookup_replicate_1 in Hk as [-> _]. split; [constructor|]. split; [done|]. unfold slot_near. cbn. constructor. }
    assert (El : send fuel (f_tt x) (mkAtRate (replicate n (newSlot nan)) (align (f_tt x)) (align (f_tt x) + d) true) =
      Some (mkAtRate (replicate n (newSlot nan)) (align (f_tt x)) (align (f_tt x) + d) true, [])).
    { destruct fuel; cbn [sendLoop nextOutputTT]; destruct (Z.ltb_spec (align (f_tt x) + d) (f_tt x)); try lia; done. }
    rewrite El. eexists _, _. split; [done|]. split; [done|]. split; [done|]. split; [cbn [nextOutputTT]; lia|]. by split_and!.
  - assert (Hyx : f_tt y <= f_tt x) by (apply Hs; [done|set_solver]). rewrite Ho.
    destruct (Z.ltb_spec (nextOutputTT s) (f_tt x)) as [Hlt|Hge].
    + assert (Hb : f_tt x - nextOutputTT s <= d * Z.of_nat fuel) by (destruct Hi; lia).
      destruct (send_ok (valuesOf ss) fuel (f_tt y) s (f_tt x) Hi Hyx Hlo Hb) as (s' & out & E & Hi' & Hn & Hr & HFo).
      exists s', out. split_and!; try done. by apply (send_osamp _ _ _ _ _ E).
    + eexists _, _. split; [done|]. destruct Hi. split; [split; try done; lia|]. by split_and!.
Qed.

Lemma receive_all_ok ss : samples_ok ss -> 0 <= lo -> lo <= d * Z.of_nat fuel ->
  exists s out, receiveAll (newAtRate nan n) ss = Some (s, out) /\ state_ok ss s /\
    (osamp s = false -> out = []) /\ (osamp s = true -> exists T, rows_from T out (outputTT s)) /\
    Forall (fun o => exists pre post, ss = pre ++ post /\ post <> [] /\ row_ok (valuesOf pre) o /\
      Forall (fun x => o_tt o + d < f_tt x) post) out.
Proof.
  induction ss as [|x ss IH] using rev_ind; intros Hss Hlo Hf.
  { eexists _, _. split; [done|]. split; [by left|]. by split_and!. }
  assert (Hss' : samples_ok ss).
  { destruct Hss as [H1 H2]. apply StronglySorted_app_iff in H1 as (? & _). apply Forall_app in H2 as [? _]. done. }
  destruct (IH Hss' Hlo Hf) as (s & out & Er & Hst & Hf0 & Hrows & HF). rewrite (receiveAll_snoc _ _ _ _ _ Er).
  assert (HF' : Forall (fun o => exists pre post, ss ++ [x] = pre ++ post /\ post <> [] /\ row_ok (valuesOf pre) o /\
      Forall (fun x => o_tt o + d < f_tt x) post) out).
  { eapply Forall_impl; [exact HF|]. intros o (pre & post & -> & Hp & Hrow & Hlater). exists pre, (post ++ [x]).
    split; [by rewrite (assoc_L (++))|]. split; [by destruct post|]. split; [done|]. apply Forall_app. split; [done|].
    constructor; [|constructor]. destruct post as [|y post]; [done|]. apply Forall_cons in Hlater as [Hy _].
    destruct Hss as [H1 _]. apply StronglySorted_app_iff in H1 as (_ & _ & H1). specialize (H1 y x ltac:(set_solver) ltac:(set_solver)). lia. }
  unfold receiveAtRate. destruct (receivedValues_ok n maps x Hmaps) as (r & Ev & Hb). rewrite Ev.
  assert (Hval : valuesOf (ss ++ [x]) = valuesOf ss ++ match r with Some evs => valuesAt (f_tt x) evs | None => [] end).
  { unfold valuesOf. rewrite flat_map_app. cbn. rewrite Ev, app_nil_r. by destruct r. }
  destruct r as [evs|].
  2: { eexists _, _. split; [done|]. rewrite app_nil_r in *. split; [|by split_and!].
       destruct Hst as [[-> Hv]|(Ho & y & Hy & Hi)]; [left; by rewrite Hval|right]. split; [done|]. exists y. rewrite Hval. set_solver. }
  destruct (sent_ok ss s x Hss Hst Hlo Hf) as (s1 & out1 & -> & Hi1 & Ho1 & Hn1 & Hr1 & Hz1 & HF1).
  assert (Hx : f_tt x < 2 * lo) by (destruct Hss as [_ H2]; apply Forall_app in H2 as [_ H2]; apply Forall_cons in H2 as [? _]; lia).
  assert (Hle : forall k e, e ∈ histOf k (valuesOf ss) -> e.1 <= f_tt x).
  { intros k e (y & Hy & <-)%valuesOf_time. destruct Hss as [H1 _]. apply StronglySorted_app_iff in H1 as (_ & _ & H1). apply H1; set_solver. }
  destruct (values_ok (f_tt x) evs (valuesOf ss) s1 Hi1 Hn1 Hx Hlo Hle (Hb evs eq_refl)) as (s2 & -> & Hi2 & ET & EO).
  eexists _, _. split; [done|]. split; [right; split; [congruence|]; exists x; rewrite Hval; set_solver|].
  split; [congruence|]. split.
  - intros _. rewrite ET. destruct (osamp s) eqn:Eo.
    + destruct (Hrows eq_refl) as (T & HT). exists T. apply (rows_app _ _ _ _ _ HT). by apply Hr1.
    + rewrite (Hf0 eq_refl), (Hz1 eq_refl). exists (outputTT s1). by split.
  - apply Forall_app. split; [done|]. eapply Forall_impl; [exact HF1|]. intros o [Hrow Hlt]. exists ss, [x].
    split; [done|]. split; [done|]. split; [done|]. by repeat constructor.
Qed.

End Exact.
(** ** Properties *)

(** [sendSample] ends.  For every interval of at least one microsecond,
    exact or not, with tags in the middle or at the start, filling gaps or
    not, and for every state of the arrays, the loop of [sendSample] reaches
    an output time that is not before the sample, in at most as many turns
    as there are microseconds to it. *)
Theorem send_terminates {V} (nan : V) (isnan : V -> bool) (nans : bool) (d : Z) (exact middle fill : bool) (tt : Z) (s : AtRate V) (fuel : nat) :
  0 < d -> 0 <= tt -> (osamp s = true -> nextOutputTT s = outputTT s + d /\ tt - nextOutputTT s <= Z.of_nat fuel) ->
  exists s' out, sendSample nan isnan nans d exact middle fill fuel tt s = Some (s', out) /\ tt <= nextOutputTT s'.
Proof.
  intros Hd Ht Hn. unfold sendSample. destruct (osamp s) eqn:Eo; apply sendLoop_total; try done; try (by apply Hn).
  cbn [nextOutputTT]. pose proof (align_bounds nan isnan d exact middle Hd tt Ht). lia.
Qed.

Lemma send_terminates_witness : exists s' out,
  sendSample None (fun v : option Z => negb (bool_decide (is_Some v))) false 333 false true true 501 4000
    (mkAtRate [mkSlot 3000 0 (Some 1) None 0] 3166 3499 true) = Some (s', out) /\ 4000 <= nextOutputTT s'.
Proof.
  destruct (send_terminates None (fun v : option Z => negb (bool_decide (is_Some v))) false 333 false true true 4000
    (mkAtRate [mkSlot 3000 0 (Some 1) None 0] 3166 3499 true) 501) as (s' & out & E & H).
  - lia.
  - lia.
  - intros _. cbn. lia.
  - exists s', out. split; [|exact H]. rewrite <- E. vm_compute. reflexivity.
Defined.

(** C12: rows of nearest values.  With an interval of a whole number of
    microseconds and samples in order of time, the rows sent are at times of
    the grid, in order and at least an interval apart, exactly one when the
    gaps are filled; each value of a row is one of those received for it, of
    the times nearest to that of the row, or NaN when there is none or when
    the nearest is more than nine tenths of an interval away; and every
    sample that comes later is more than an interval after the row. *)
Theorem at_rate_rows {V} (nan : V) (isnan : V -> bool) (nans : bool) (d : Z) (middle fill : bool) (lo : Z) (n : nat) (maps : Maps)
    (fuel : nat) (ss : list (fsample V)) :
  isnan nan = true -> 0 < d -> 0 <= lo -> lo <= d * Z.of_nat fuel -> maps_ok n maps -> samples_ok d lo ss ->
  exists s out, receiveAll nan isnan nans d middle fill maps fuel (newAtRate nan n) ss = Some (s, out) /\
    (out <> [] -> exists T, rows_from d fill T out (outputTT s)) /\
    Forall (fun o => exists pre post, ss = pre ++ post /\ post <> [] /\
      row_ok nan isnan nans d middle n (valuesOf isnan maps pre) o /\ Forall (fun x => o_tt o + d < f_tt x) post) out.
Proof.
  intros Hnan Hd Hlo Hf Hm Hss.
  destruct (receive_all_ok nan isnan nans d middle fill Hd lo n Hnan maps Hm fuel ss Hss Hlo Hf) as (s & out & E & _ & H1 & H2 & H3).
  exists s, out. split; [done|]. split; [|done]. intros Hne. destruct (osamp s); [by apply H2|by destruct Hne; apply H1].
Qed.

Lemma at_rate_rows_witness : exists s,
  receiveAll None (fun v : option Z => negb (bool_decide (is_Some v))) true 100 true false
    (mkMaps {[5 := [0%nat]]} {[5 := [1%nat]]} {[5 := [0%nat]]}) 20 (newAtRate None 1)
    [mkFSample 1210 5 FLOAT_ST [Some 1]; mkFSample 1260 5 FLOAT_ST [Some 2]; mkFSample 1370 5 FLOAT_ST [Some 3]] =
  Some (s, [mkOutSample 1150 [Some 1] (Some 1); mkOutSample 1250 [Some 2] (Some 1)]).
Proof.
  destruct (at_rate_rows None (fun v : option Z => negb (bool_decide (is_Some v))) true 100 true false 1000 1
    (mkMaps {[5 := [0%nat]]} {[5 := [1%nat]]} {[5 := [0%nat]]}) 20
    [mkFSample 1210 5 FLOAT_ST [Some 1]; mkFSample 1260 5 FLOAT_ST [Some 2]; mkFSample 1370 5 FLOAT_ST [Some 3]]) as (s & out & E & _).
  - reflexivity.
  - lia.
  - lia.
  - lia.
  - intros sampid. cbn. destruct (decide (sampid = 5)) as [->|Hne].
    + exists [0%nat], [1%nat]. repeat split. by repeat constructor.
    + by rewrite !lookup_singleton_ne.
  - split; repeat constructor; cbn; lia.
  - exists s. rewrite E. vm_compute in E. injection E as _ <-. reflexivity.
Defined.
