(* ===== verification/Doubles.v ===== *)
(** * Doubles.

    The [double] of the sources is the binary64 number of [SpecFloat] with
    the operations of the standard, so that the model computes what the code
    computes.  The second half shows that sums, products and quotients of
    positive integers that fit in 53 bits are exact. *)

From S2P Require Import Prelude.
From Stdlib Require Import SpecFloat.
#[local] Open Scope Z_scope.

(** ** Doubles *)

Module Dbl.

Definition t : Type := spec_float.

Definition make (m e : Z) : t := binary_normalize 53 1024 m e false.
Definition ofZ (z : Z) : t := make z 0.
Definition add : t -> t -> t := SFadd 53 1024.
Definition sub : t -> t -> t := SFsub 53 1024.
Definition mul : t -> t -> t := SFmul 53 1024.
Definition div : t -> t -> t := SFdiv 53 1024.
Definition lt : t -> t -> bool := SFltb.

(** [std::min], [std::max] *)
Definition min (a b : t) : t := if lt b a then b else a.
Definition max (a b : t) : t := if lt a b then b else a.

Definition signed (s : bool) (z : Z) : Z := if s then - z else z.

(** Conversion to an integer: towards zero. *)
Definition trunc (x : t) : Z :=
  match x with
  | S754_finite s m e => signed s (if 0 <=? e then Z.pos m * 2 ^ e else Z.pos m / 2 ^ (- e))
  | _ => 0
  end.

(** [llrint]: to the nearest, ties to even; the indefinite integer when the
    value has no [long long]. *)
Definition llrint (x : t) : Z :=
  match x with
  | S754_zero _ => 0
  | S754_finite s m e =>
      let r :=
        if 0 <=? e then Z.pos m * 2 ^ e
        else
          let d := 2 ^ (- e) in
          let q := Z.pos m / d in
          let r2 := 2 * (Z.pos m mod d) in
          if (d <? r2) || ((d =? r2) && Z.odd q) then q + 1 else q in
      let r := signed s r in
      if (LONG_LONG_MIN <=? r) && (r <=? LONG_LONG_MAX) then r else LONG_LONG_MIN
  | _ => LONG_LONG_MIN
  end.

End Dbl.

(** ** Integers as doubles are exact *)

Lemma digits_log2 p : Z.pos (digits2_pos p) = Z.log2 (Z.pos p) + 1.
Proof.
  induction p as [p IH|p IH|]; cbn [digits2_pos]; [| |done]; rewrite Pos2Z.inj_succ, IH.
  - change (Z.pos p~1) with (2 * Z.pos p + 1). rewrite Z.log2_succ_double by lia. lia.
  - change (Z.pos p~0) with (2 * Z.pos p). rewrite Z.log2_double by lia. lia.
Qed.

Lemma iter_xO p d : Z.pos (Pos.iter xO p d) = Z.pos p * 2 ^ Z.pos d.
Proof.
  revert p. induction d as [|d IH] using Pos.peano_ind; intros p.
  - cbn. lia.
  - rewrite Pos.iter_succ, Pos2Z.inj_succ, Z.pow_succ_r by lia. change (Z.pos (Pos.iter xO p d)~0) with (2 * Z.pos (Pos.iter xO p d)).
    rewrite IH. lia.
Qed.

Lemma iter_pos_nat {A} (f : A -> A) n : forall x, iter_pos f n x = Nat.iter (Pos.to_nat n) f x.
Proof.
  assert (Hadd : forall a b x, Nat.iter (a + b) f x = Nat.iter a f (Nat.iter b f x)).
  { intros a b x. induction a as [|a IH]; [done|]. change (f (Nat.iter (a + b) f x) = f (Nat.iter a f (Nat.iter b f x))). by rewrite IH. }
  induction n as [n IH|n IH|]; intros x; cbn [iter_pos]; [| |done]; rewrite !IH.
  - rewrite Pos2Nat.inj_xI. replace (S (2 * Pos.to_nat n)) with (Pos.to_nat n + (Pos.to_nat n + 1))%nat by lia. by rewrite !Hadd.
  - rewrite Pos2Nat.inj_xO. replace (2 * Pos.to_nat n)%nat with (Pos.to_nat n + Pos.to_nat n)%nat by lia. by rewrite Hadd.
Qed.

Lemma shr_exact n : forall z, 0 < z -> Nat.iter n shr_1 (Build_shr_record (z * 2 ^ Z.of_nat n) false false) = Build_shr_record z false false.
Proof.
  induction n as [|n IH]; intros z Hz; [cbn [Nat.iter]; by rewrite Z.mul_1_r|].
  change (Nat.iter (S n) shr_1 ?x) with (shr_1 (Nat.iter n shr_1 x)).
  replace (z * 2 ^ Z.of_nat (S n)) with ((2 * z) * 2 ^ Z.of_nat n) by (rewrite Nat2Z.inj_succ, Z.pow_succ_r by lia; lia).
  rewrite IH by lia. destruct z as [|p|p]; [lia|done|lia].
Qed.

(** The shift of a rounding that loses nothing. *)
Lemma shr_fexp_exact z e n : 0 < z -> 0 <= n -> fexp 53 1024 (Z.log2 z + 1 + n + e) = e + n ->
  shr_fexp 53 1024 (z * 2 ^ n) e loc_Exact = (Build_shr_record z false false, e + n).
Proof.
  intros Hz Hn Hf. unfold shr_fexp, shr_record_of_loc.
  assert (Ed : Zdigits2 (z * 2 ^ n) = Z.log2 z + 1 + n).
  { assert (0 < z * 2 ^ n) by nia. destruct (z * 2 ^ n) as [|p|p] eqn:E; [lia| |lia]. cbn [Zdigits2]. rewrite digits_log2, <- E.
    rewrite Z.log2_mul_pow2 by lia. lia. }
  rewrite Ed, Hf. replace (e + n - e) with n by lia. unfold shr. destruct n as [|n|n]; [|rewrite iter_pos_nat|lia].
  - by rewrite Z.mul_1_r, Z.add_0_r.
  - pose proof (shr_exact (Pos.to_nat n) z Hz) as H. rewrite positive_nat_Z in H. by rewrite H.
Qed.

Lemma fexp_max x : -1021 <= x -> fexp 53 1024 x = x - 53.
Proof. unfold fexp, emin. lia. Qed.

(** The exponent of an integer, and its double. *)
Definition scale (z : Z) : Z := 52 - Z.log2 z.

Definition canon (z : Z) : Dbl.t := S754_finite false (Z.to_pos (z * 2 ^ scale z)) (- scale z).

Lemma scale_bounds z : 0 < z < 2 ^ 53 -> 0 <= scale z <= 52.
Proof.
  intros Hz. unfold scale. pose proof (Z.log2_nonneg z). pose proof (Z.log2_le_mono z (2 ^ 53 - 1) ltac:(lia)) as H1.
  change (Z.log2 (2 ^ 53 - 1)) with 52 in H1. lia.
Qed.

Lemma round_exact z m k : 0 < z < 2 ^ 53 -> m = z * 2 ^ k -> scale z <= k <= 500 ->
  binary_round_aux 53 1024 false m (- k) loc_Exact = canon z.
Proof.
  intros Hz -> Hk. pose proof (scale_bounds z Hz) as Hs. unfold binary_round_aux. assert (Hlog : Z.log2 z = 52 - scale z) by (unfold scale; lia).
  set (w := z * 2 ^ scale z). assert (Hw : 0 < w) by (unfold w; nia).
  assert (Ew : Z.log2 w = 52) by (unfold w; rewrite Z.log2_mul_pow2 by lia; lia).
  replace (z * 2 ^ k) with (w * 2 ^ (k - scale z)).
  2: { unfold w. rewrite <- Z.mul_assoc, <- Z.pow_add_r by lia. f_equal. f_equal. lia. }
  rewrite (shr_fexp_exact w (- k) (k - scale z)); [|done|lia|rewrite fexp_max; lia].
  cbn [shr_m loc_of_shr_record round_nearest_even].
  pose proof (shr_fexp_exact w (- k + (k - scale z)) 0) as H2. rewrite Z.mul_1_r in H2. rewrite H2; [|done|lia|rewrite fexp_max; lia].
  cbn [shr_m]. unfold canon. fold w. destruct w as [|p|p]; [lia| |lia].
  destruct (Z.leb_spec (- k + (k - scale z) + 0) (1024 - 53)); [|lia]. f_equal. lia.
Qed.

Lemma ofZ_canon z : 0 < z < 2 ^ 53 -> Dbl.ofZ z = canon z.
Proof.
  intros Hz. pose proof (scale_bounds z Hz) as Hs. unfold Dbl.ofZ, Dbl.make, binary_normalize. destruct z as [|p|p]; [lia| |lia].
  unfold binary_round, shl_align. rewrite digits_log2, fexp_max by (pose proof (Z.log2_nonneg (Z.pos p)); lia).
  replace (Z.log2 (Z.pos p) + 1 + 0 - 53 - 0) with (- scale (Z.pos p)) by (unfold scale; lia).
  destruct (scale (Z.pos p)) as [|d|d] eqn:E; cbn [Z.opp]; [| |lia].
  - apply (round_exact (Z.pos p) (Z.pos p) 0 Hz); [lia|]. rewrite E. lia.
  - change (Z.neg d) with (- Z.pos d).
    replace (Z.log2 (Z.pos p) + 1 + 0 - 53) with (- Z.pos d) by (unfold scale in E; lia).
    apply (round_exact (Z.pos p) _ (Z.pos d) Hz); [apply iter_xO|]. rewrite E. lia.
Qed.

Lemma canon_mantissa z : 0 < z < 2 ^ 53 -> Z.pos (Z.to_pos (z * 2 ^ scale z)) = z * 2 ^ scale z.
Proof. intros Hz. pose proof (scale_bounds z Hz). apply Z2Pos.id. nia. Qed.

Lemma mul_exact a b : 0 < a -> 0 < b -> a * b < 2 ^ 53 -> Dbl.mul (Dbl.ofZ a) (Dbl.ofZ b) = Dbl.ofZ (a * b).
Proof.
  intros Ha Hb Hab. rewrite !ofZ_canon by nia. pose proof (scale_bounds a ltac:(nia)). pose proof (scale_bounds b ltac:(nia)).
  unfold Dbl.mul, canon at 1 2. cbn [SFmul xorb].
  replace (- scale a + - scale b) with (- (scale a + scale b)) by lia. apply round_exact; [nia| |].
  - rewrite Pos2Z.inj_mul, (canon_mantissa a), (canon_mantissa b) by nia. rewrite Z.pow_add_r by lia. lia.
  - split; [|lia]. unfold scale in *. pose proof (Z.log2_mul_below a b Ha Hb). lia.
Qed.

Lemma align_exact z e : 0 < z < 2 ^ 53 -> scale z <= e <= 500 ->
  Z.pos (fst (shl_align (Z.to_pos (z * 2 ^ scale z)) (- scale z) (- e))) = z * 2 ^ e.
Proof.
  intros Hz He. pose proof (scale_bounds z Hz). unfold shl_align. replace (- e - - scale z) with (- (e - scale z)) by lia.
  destruct (e - scale z) as [|d|d] eqn:E; [change (- 0) with 0|change (- Z.pos d) with (Z.neg d)|lia]; cbn [fst].
  - rewrite canon_mantissa by done. f_equal. f_equal. lia.
  - rewrite iter_xO, canon_mantissa by done. rewrite <- Z.mul_assoc, <- Z.pow_add_r by lia. f_equal. f_equal. lia.
Qed.

Lemma normalize_exact z e : 0 < z < 2 ^ 53 -> scale z <= e <= 500 -> binary_normalize 53 1024 (z * 2 ^ e) (- e) false = canon z.
Proof.
  intros Hz He. pose proof (scale_bounds z Hz). unfold binary_normalize. destruct (z * 2 ^ e) as [|p|p] eqn:E; [nia| |nia].
  unfold binary_round. assert (El : Z.log2 (Z.pos p) = Z.log2 z + e) by (rewrite <- E, Z.log2_mul_pow2 by lia; lia).
  rewrite digits_log2, El, fexp_max by (unfold scale in *; lia). unfold shl_align.
  replace (Z.log2 z + e + 1 + - e - 53 - - e) with (e - scale z) by (unfold scale; lia).
  destruct (e - scale z) as [|d|d] eqn:Ed; [| |lia]; apply round_exact; try done; lia.
Qed.

Lemma add_exact a b : 0 < a -> 0 < b -> a + b < 2 ^ 53 -> Dbl.add (Dbl.ofZ a) (Dbl.ofZ b) = Dbl.ofZ (a + b).
Proof.
  intros Ha Hb Hab. rewrite !ofZ_canon by lia. pose proof (scale_bounds a ltac:(lia)). pose proof (scale_bounds b ltac:(lia)).
  unfold Dbl.add, canon at 1 2. cbn [SFadd]. replace (Z.min (- scale a) (- scale b)) with (- Z.max (scale a) (scale b)) by lia.
  cbn [cond_Zopp]. rewrite !align_exact by lia. rewrite <- Z.mul_add_distr_r. apply normalize_exact; [lia|].
  split; [|lia]. unfold scale. pose proof (Z.log2_le_mono a (a + b) ltac:(lia)). lia.
Qed.

Lemma ofZ_zero : Dbl.ofZ 0 = S754_zero false.
Proof. done. Qed.

Lemma add_exact0 a b : 0 <= a -> 0 <= b -> a + b < 2 ^ 53 -> Dbl.add (Dbl.ofZ a) (Dbl.ofZ b) = Dbl.ofZ (a + b).
Proof.
  intros Ha Hb Hab. destruct (Z.eq_dec a 0) as [->|Na]; [|destruct (Z.eq_dec b 0) as [->|Nb]; [|apply add_exact; lia]].
  - destruct (Z.eq_dec b 0) as [->|Nb]; [done|]. rewrite Z.add_0_l, (ofZ_canon b) by lia. done.
  - rewrite Z.add_0_r, (ofZ_canon a) by lia. done.
Qed.

Lemma mul_exact0 a b : 0 < a < 2 ^ 53 -> 0 <= b -> a * b < 2 ^ 53 -> Dbl.mul (Dbl.ofZ a) (Dbl.ofZ b) = Dbl.ofZ (a * b).
Proof.
  intros Ha Hb Hab. destruct (Z.eq_dec b 0) as [->|Nb]; [|apply mul_exact; lia]. by rewrite Z.mul_0_r, (ofZ_canon a).
Qed.

Lemma div_exact a b : 0 < a -> 0 < b -> a * b < 2 ^ 53 -> Dbl.div (Dbl.ofZ (a * b)) (Dbl.ofZ b) = Dbl.ofZ a.
Proof.
  intros Ha Hb Hab. rewrite !ofZ_canon by nia. pose proof (scale_bounds a ltac:(nia)) as Sa. pose proof (scale_bounds b ltac:(nia)) as Sb.
  pose proof (scale_bounds (a * b) ltac:(nia)) as Sab. unfold Dbl.div, canon at 1 2. cbn [SFdiv xorb].
  unfold SFdiv_core_binary. cbn [Zdigits2]. rewrite !digits_log2, (canon_mantissa (a * b)), (canon_mantissa b) by nia.
  rewrite !Z.log2_mul_pow2 by nia.
  replace (scale (a * b) + Z.log2 (a * b)) with 52 by (unfold scale; lia). replace (scale b + Z.log2 b) with 52 by (unfold scale; lia).
  rewrite fexp_max by lia.
  replace (Z.min (52 + 1 + - scale (a * b) - (52 + 1 + - scale b) - 53) (- scale (a * b) - - scale b)) with (- (53 + scale (a * b) - scale b)) by lia.
  replace (- scale (a * b) - - scale b - - (53 + scale (a * b) - scale b)) with 53 by lia. cbv iota.
  rewrite Z.shiftl_mul_pow2 by lia. set (k := 53 + scale (a * b) - scale b).
  assert (Eq : a * b * 2 ^ scale (a * b) * 2 ^ 53 = (b * 2 ^ scale b) * (a * 2 ^ k)).
  { replace (b * 2 ^ scale b * (a * 2 ^ k)) with (a * b * (2 ^ scale b * 2 ^ k)) by lia. rewrite <- Z.mul_assoc, <- !Z.pow_add_r by lia.
    f_equal. f_equal. unfold k. lia. }
  rewrite Eq. assert (Hb2 : 0 < b * 2 ^ scale b) by nia. pose proof (Z_div_mod (b * 2 ^ scale b * (a * 2 ^ k)) (b * 2 ^ scale b) ltac:(lia)) as Hdm.
  destruct (Z.div_eucl (b * 2 ^ scale b * (a * 2 ^ k)) (b * 2 ^ scale b)) as [q r]. destruct Hdm as [Hq Hr].
  assert (q = a * 2 ^ k /\ r = 0) as [-> ->] by (assert (q = a * 2 ^ k) by nia; subst q; lia).
  assert (Hl : new_location (b * 2 ^ scale b) 0 = loc_Exact) by (unfold new_location, new_location_even, new_location_odd; by destruct (Z.even _)).
  rewrite Hl. apply round_exact; [nia|done|]. unfold k. split; [|lia]. unfold scale. pose proof (Z.log2_mul_above a b ltac:(lia) ltac:(lia)).
  pose proof (Z.log2_mul_below a b Ha Hb). lia.
Qed.

Lemma llrint_exact a : 0 < a < 2 ^ 53 -> Dbl.llrint (Dbl.ofZ a) = a.
Proof.
  intros Ha. rewrite ofZ_canon by done. pose proof (scale_bounds a Ha) as Hs. unfold canon, Dbl.llrint. rewrite canon_mantissa by done.
  assert (E : (if 0 <=? - scale a then a * 2 ^ scale a * 2 ^ (- scale a)
    else (let d := 2 ^ (- - scale a) in let q := a * 2 ^ scale a / d in let r2 := 2 * ((a * 2 ^ scale a) mod d) in
          if (d <? r2) || ((d =? r2) && Z.odd q) then q + 1 else q)) = a).
  { destruct (Z.leb_spec 0 (- scale a)).
    - replace (scale a) with 0 by lia. rewrite !Z.mul_1_r. done.
    - cbv zeta. rewrite Z.opp_involutive. assert (0 < 2 ^ scale a) by lia. rewrite Z.div_mul, Z.mod_mul by lia.
      destruct (Z.ltb_spec (2 ^ scale a) (2 * 0)); [lia|]. destruct (Z.eqb_spec (2 ^ scale a) (2 * 0)); [lia|]. done. }
  cbv zeta in E |- *. rewrite E. cbn [Dbl.signed]. unfold LONG_LONG_MIN, LONG_LONG_MAX.
  destruct (Z.leb_spec (- 2 ^ 63) a); [|lia]. destruct (Z.leb_spec a (2 ^ 63 - 1)); [done|lia].
Qed.

(** A product of positive numbers is not negative. *)
Lemma round_not_negative m e l : Dbl.lt (binary_round_aux 53 1024 false m e l) (Dbl.ofZ 0) = false.
Proof.
  unfold binary_round_aux. destruct (shr_fexp 53 1024 m e l) as [r1 e1]. destruct (shr_fexp 53 1024 _ e1 loc_Exact) as [r2 e2].
  destruct (shr_m r2) as [|q|q]; [done| |done]. by destruct (e2 <=? 1024 - 53).
Qed.

Lemma mul_not_negative z m e : 0 < z < 2 ^ 53 -> Dbl.lt (Dbl.mul (Dbl.ofZ z) (S754_finite false m e)) (Dbl.ofZ 0) = false.
Proof. intros Hz. rewrite ofZ_canon by done. apply round_not_negative. Qed.

Lemma half_not_negative z : 0 < z < 2 ^ 53 -> Dbl.lt (Dbl.mul (Dbl.ofZ z) (Dbl.make 1 (-1))) (Dbl.ofZ 0) = false.
Proof.
  assert (E : Dbl.make 1 (-1) = S754_finite false 4503599627370496 (-53)) by (vm_compute; reflexivity).
  rewrite E. apply mul_not_negative.
Qed.
