(* ===== verification/Floats.v ===== *)
(** * The type [float]

    Binary32 numbers, as [Doubles.v] has binary64 ones, and the conversions of
    floating point numbers to [int]. *)

From Stdlib Require Import SpecFloat.
From S2P Require Import Prelude Doubles.

(** ** Numbers

    Binary32 numbers; their values are doubles too. *)

Module Flt.

Definition t : Type := spec_float.

Definition ofZ (z : Z) : t := binary_normalize 24 128 z 0 false.

(** Conversion of a [double]. *)
Definition ofDbl (x : Dbl.t) : t :=
  match x with
  | S754_finite s m e => binary_normalize 24 128 (cond_Zopp s (Z.pos m)) e s
  | _ => x
  end.

Definition sub : t -> t -> t := SFsub 24 128.
Definition div : t -> t -> t := SFdiv 24 128.
Definition eq : t -> t -> bool := SFeqb.
Definition le : t -> t -> bool := SFleb.

End Flt.

(** [ceil], for a value that fits an integer. *)
Definition fceil (x : spec_float) : Z :=
  match x with
  | S754_finite s m e =>
      if 0 <=? e then Dbl.signed s (Z.pos m * 2 ^ e) else - (Dbl.signed (negb s) (Z.pos m) / 2 ^ (- e))
  | _ => 0
  end.

(** Conversion of a [double] to [int]: the indefinite integer when the value
    has no [int]. *)
Definition toInt (isNumber : bool) (z : Z) : Z := if isNumber && (INT_MIN <=? z) && (z <=? INT_MAX) then z else INT_MIN.

Definition isFinite (x : spec_float) : bool :=
  match x with S754_zero _ | S754_finite _ _ _ => true | _ => false end.

(** [(int)ceil(x)], [(int)rint(x)], [(int)x] *)
Definition intCeil (x : spec_float) : Z := toInt (isFinite x) (fceil x).
Definition intRint (x : spec_float) : Z := toInt (isFinite x) (Dbl.llrint x).
Definition intTrunc (x : spec_float) : Z := toInt (isFinite x) (Dbl.trunc x).
