(* ===== verification/StdStream.v ===== *)
(** * Standard streams

    What the text headers use of the C++ library: an [istringstream] with its
    state bits, the extraction of words, integers, floats and characters,
    [getline] and [ignore]; and the text that an [ostream] makes of a float,
    fixed or with a number of significant digits.  The extraction of a float
    is the one of libstdc++: the longest text that can begin a number is
    taken, and then converted.  White space and digits are those of the C
    locale; texts are shorter than 2^31 characters. *)

From Stdlib Require Import SpecFloat String.
From S2P Require Import Prelude StringUtil UTime Doubles Floats.

Local Open Scope Z_scope.

(** ** Input *)

Record istr := mkIstr {
  rest : list Z;
  eofbit : bool;
  failbit : bool
}.

Definition newStream (text : list Z) : istr := mkIstr text false false.

Definition good (s : istr) : bool := negb (eofbit s) && negb (failbit s).
Definition set_fail (s : istr) : istr := mkIstr (rest s) (eofbit s) true.
Definition clear (s : istr) : istr := mkIstr (rest s) false false.

Fixpoint span (p : Z -> bool) (l : list Z) : list Z * list Z :=
  match l with
  | [] => ([], [])
  | c :: r => if p c then let '(a, b) := span p r in (c :: a, b) else ([], l)
  end.

Definition is_nil {A : Type} (l : list A) : bool := match l with [] => true | _ => false end.

(** The sentry that skips white space: [None] when there is nothing to
    extract. *)
Definition sentry (s : istr) : option (list Z) * istr :=
  if negb (good s) then (None, set_fail s)
  else
    match (span isspace_byte (rest s)).2 with
    | [] => (None, mkIstr [] true true)
    | r => (Some r, mkIstr r false false)
    end.

(** [>>] to a string, which is empty before. *)
Definition readString (s : istr) : list Z * istr :=
  match sentry s with
  | (None, s) => ([], s)
  | (Some r, _) =>
      let '(a, b) := span (fun c => negb (isspace_byte c)) r in (a, mkIstr b (is_nil b) false)
  end.

Definition getSign (l : list Z) : bool * list Z :=
  match l with
  | c :: r => if c =? 45 then (true, r) else if c =? 43 then (false, r) else (false, l)
  | [] => (false, [])
  end.

Definition digitsValue (ds : list Z) : Z := fold_left (fun a c => 10 * a + (c - 48)) ds 0.

(** [>>] to an [int] *)
Definition readInt (s : istr) : Z * istr :=
  match sentry s with
  | (None, s) => (0, s)
  | (Some r, _) =>
      let '(neg, r) := getSign r in
      let '(ds, r) := span isdigit r in
      let v := if neg then - digitsValue ds else digitsValue ds in
      let ok := negb (is_nil ds) && (INT_MIN <=? v) && (v <=? INT_MAX) in
      (if v <? INT_MIN then INT_MIN else if INT_MAX <? v then INT_MAX else v, mkIstr r (is_nil r) (negb ok))
  end.

(** [>>] to a [char] *)
Definition readChar (s : istr) : option Z * istr :=
  match sentry s with
  | (Some (c :: r), _) => (Some c, mkIstr r false false)
  | (_, s) => (None, s)
  end.

(** The decimal number [D * 10^k] as a [float], rounded to nearest. *)
Definition decFloat (neg : bool) (D k : Z) : Flt.t :=
  match D with
  | Z.pos m =>
      if 0 <=? k then binary_normalize 24 128 (cond_Zopp neg (D * 10 ^ k)) 0 neg
      else Flt.div (S754_finite neg m 0) (S754_finite false (Z.to_pos (10 ^ (- k))) 0)
  | _ => S754_zero neg
  end.

(** The text of a number: digits before and after the point, exponent. *)
Record number := mkNumber {
  n_neg : bool;
  n_int : list Z;
  n_frac : list Z;
  n_exp : option (bool * list Z)
}.

Definition numberValue (n : number) : option Flt.t :=
  let e := match n_exp n with
           | None => Some 0
           | Some (_, []) => None
           | Some (neg, ds) => Some (if neg : bool then - digitsValue ds else digitsValue ds)
           end in
  if is_nil (n_int n ++ n_frac n) then None
  else
    e ← e;
    let v := decFloat (n_neg n) (digitsValue (n_int n ++ n_frac n)) (e - zlen (n_frac n)) in
    if isFinite v then Some v else None.

Definition scanNumber (l : list Z) : number * list Z :=
  let '(neg, l) := getSign l in
  let '(ip, l) := span isdigit l in
  let '(fp, l) := match l with c :: r => if c =? 46 then span isdigit r else ([], l) | [] => ([], []) end in
  match l with
  | c :: r =>
      if ((c =? 101) || (c =? 69)) && negb (is_nil (ip ++ fp)) then
        let '(eneg, r) := getSign r in
        let '(es, r) := span isdigit r in
        (mkNumber neg ip fp (Some (eneg, es)), r)
      else (mkNumber neg ip fp None, l)
  | [] => (mkNumber neg ip fp None, [])
  end.

(** [>>] to a [float]: [None] when it fails. *)
Definition readFloat (s : istr) : option Flt.t * istr :=
  match sentry s with
  | (None, s) => (None, s)
  | (Some r, _) =>
      let '(n, b) := scanNumber r in
      let v := numberValue n in
      (v, mkIstr b (is_nil b) (match v with None => true | Some _ => false end))
  end.

(** [ignore(INT_MAX,delim)] *)
Fixpoint dropThrough (delim : Z) (l : list Z) : option (list Z) :=
  match l with
  | [] => None
  | c :: r => if c =? delim then Some r else dropThrough delim r
  end.

Definition ignore (delim : Z) (s : istr) : istr :=
  if negb (good s) then set_fail s
  else match dropThrough delim (rest s) with
       | Some r => mkIstr r false false
       | None => mkIstr [] true false
       end.

(** [getline(buf,n,delim)]: the characters stored, at most [n - 1], and the
    stream.  The delimiter is extracted; [room] is what is left of the
    buffer. *)
Fixpoint lineLoop (room : nat) (delim : Z) (l : list Z) {struct l} : list Z * istr :=
  match l with
  | [] => ([], mkIstr [] true false)
  | c :: r =>
      if c =? delim then ([], mkIstr r false false)
      else match room with
           | O => ([], mkIstr l false true)
           | S room => let '(a, s) := lineLoop room delim r in (c :: a, s)
           end
  end.

Definition getline (n : nat) (delim : Z) (s : istr) : list Z * istr :=
  if negb (good s) then ([], set_fail s)
  else
    match rest s with
    | [] => ([], mkIstr [] true true)
    | l => lineLoop (pred n) delim l
    end.

(** ** Output *)

(** Rounded to nearest, ties to even. *)
Definition rne (num den : Z) : Z :=
  let q := num / den in
  let r := num mod den in
  if 2 * r <? den then q else if den <? 2 * r then q + 1 else if Z.even q then q else q + 1.

(** [m * 2^e] as a fraction. *)
Definition numer (m : positive) (e : Z) : Z := Z.pos m * 2 ^ Z.max e 0.
Definition denom (e : Z) : Z := 2 ^ Z.max (- e) 0.

(** The digits of numbers below [10^60], which floats are. *)
Definition decimal (v : Z) : list Z := dec 60 v.

Definition textNumber (n : number) : list Z :=
  (if n_neg n then [45] else []) ++ n_int n ++ (if is_nil (n_frac n) then [] else 46 :: n_frac n) ++
  match n_exp n with
  | None => []
  | Some (neg, ds) => 101 :: (if neg : bool then 45 else 43) :: ds
  end.

(** [fixed], with [p] digits after the point. *)
Definition fixedNumber (p : nat) (x : Flt.t) : number :=
  let make s v := mkNumber s (decimal (v / 10 ^ Z.of_nat p)) (pad p (v mod 10 ^ Z.of_nat p)) None in
  match x with
  | S754_finite s m e => make s (rne (numer m e * 10 ^ Z.of_nat p) (denom e))
  | S754_zero s | S754_infinity s => make s 0
  | S754_nan => make false 0
  end.

Definition nonNumber (x : Flt.t) : option (list Z) :=
  match x with
  | S754_infinity s => Some ((if s then [45] else []) ++ bytes_of "inf")
  | S754_nan => Some (bytes_of "nan")
  | _ => None
  end.

Definition putFixed (p : nat) (x : Flt.t) : list Z := default (textNumber (fixedNumber p x)) (nonNumber x).

(** Without [fixed]: [p] significant digits, without the zeros at the end,
    and with an exponent when it is less than -4 or at least [p]. *)
Fixpoint smallExp (fuel : nat) (num den : Z) : Z :=
  match fuel with
  | O => 0
  | S f => if den <=? num then 0 else smallExp f (10 * num) den - 1
  end.

Definition decExp (num den : Z) : Z :=
  if den <=? num then zlen (decimal (num / den)) - 1 else smallExp 60 num den.

Definition significant (p num den : Z) : Z * Z :=
  let x := decExp num den in
  let k := p - 1 - x in
  let d := if 0 <=? k then rne (num * 10 ^ k) den else rne num (den * 10 ^ (- k)) in
  if d =? 10 ^ p then (x + 1, 10 ^ (p - 1)) else (x, d).

Fixpoint dropZeros (l : list Z) : list Z := match l with 48 :: r => dropZeros r | _ => l end.
Definition stripZeros (l : list Z) : list Z := rev (dropZeros (rev l)).

Definition expDigits (x : Z) : list Z := if Z.abs x <? 100 then pad 2 (Z.abs x) else decimal (Z.abs x).

Definition generalNumber (p : nat) (x : Flt.t) : number :=
  match x with
  | S754_finite s m e =>
      let '(x, d) := significant (Z.of_nat p) (numer m e) (denom e) in
      if (x <? -4) || (Z.of_nat p <=? x) then
        mkNumber s (decimal (d / 10 ^ (Z.of_nat p - 1))) (stripZeros (pad (p - 1) (d mod 10 ^ (Z.of_nat p - 1))))
          (Some (x <? 0, expDigits x))
      else
        let k := Z.of_nat p - 1 - x in
        mkNumber s (decimal (d / 10 ^ k)) (stripZeros (pad (Z.to_nat k) (d mod 10 ^ k))) None
  | S754_zero s | S754_infinity s => mkNumber s [48] [] None
  | S754_nan => mkNumber false [48] [] None
  end.

Definition putGeneral (p : nat) (x : Flt.t) : list Z := default (textNumber (generalNumber p x)) (nonNumber x).

(** Unsigned integers. *)
Definition putUnsigned (v : Z) : list Z := dec 20 v.

(** ** Reading what was written *)

Lemma span_app (p : Z -> bool) a b :
  Forall (fun c => p c = true) a -> match b with c :: _ => p c = false | [] => True end -> span p (a ++ b) = (a, b).
Proof.
  intros Ha Hb. induction Ha as [|c a Hc _ IH]; cbn.
  - destruct b as [|c b]; [done|]. cbn. by rewrite Hb.
  - by rewrite Hc, IH.
Qed.

Lemma dec_digits f : forall v, 0 <= v -> Forall (fun c => isdigit c = true) (dec f v).
Proof.
  induction f as [|f IH]; intros v Hv; cbn [dec]; [done|]. destruct (Z.ltb_spec v 10).
  - constructor; [|done]. unfold isdigit. apply andb_true_iff. split; apply Z.leb_le; lia.
  - apply Forall_app. split; [apply IH; apply Z.div_pos; lia|]. constructor; [|done].
    pose proof (Z.mod_pos_bound v 10 ltac:(lia)). unfold isdigit. apply andb_true_iff. split; apply Z.leb_le; lia.
Qed.

Lemma pad_all_digits n : forall v, Forall (fun c => isdigit c = true) (pad n v).
Proof.
  induction n as [|n IH]; intros v; cbn [pad]; [done|]. apply Forall_app. split; [apply IH|]. constructor; [|done].
  pose proof (Z.mod_pos_bound v 10 ltac:(lia)). unfold isdigit. apply andb_true_iff. split; apply Z.leb_le; lia.
Qed.

Lemma dec_nonempty f v : dec (S f) v <> [].
Proof. cbn [dec]. destruct (v <? 10); [done|]. by destruct (dec f (v / 10)). Qed.

Lemma digitsValue_snoc l c : digitsValue (l ++ [c]) = 10 * digitsValue l + (c - 48).
Proof. unfold digitsValue. by rewrite fold_left_app. Qed.

Lemma dec_value f : forall v, 0 <= v < 10 ^ Z.of_nat f -> digitsValue (dec f v) = v.
Proof.
  induction f as [|f IH]; intros v Hv; [cbn in *; lia|]. cbn [dec]. destruct (Z.ltb_spec v 10).
  - unfold digitsValue. cbn. lia.
  - rewrite digitsValue_snoc, IH.
    + pose proof (Z.div_mod v 10 ltac:(lia)). lia.
    + split; [apply Z.div_pos; lia|]. apply Z.div_lt_upper_bound; [lia|]. replace (10 * 10 ^ Z.of_nat f) with (10 ^ Z.of_nat (S f)); [lia|].
      rewrite Nat2Z.inj_succ, Z.pow_succ_r by lia. done.
Qed.

(** White space after a word. *)
Definition blank (l : list Z) : Prop := match l with c :: _ => isspace_byte c = true | [] => False end.

Lemma space_not_digit c : isspace_byte c = true -> isdigit c = false.
Proof.
  unfold isspace_byte, isdigit. rewrite orb_true_iff, andb_true_iff, Z.eqb_eq, !Z.leb_le. intros H. apply andb_false_iff.
  rewrite !Z.leb_gt. lia.
Qed.

Lemma space_code c : isspace_byte c = true -> c = 32 \/ 9 <= c <= 13.
Proof. unfold isspace_byte. rewrite orb_true_iff, andb_true_iff, Z.eqb_eq, !Z.leb_le. done. Qed.

(** Well-formed numbers. *)
Definition number_ok (n : number) : Prop :=
  n_int n <> [] /\ Forall (fun c => isdigit c = true) (n_int n) /\ Forall (fun c => isdigit c = true) (n_frac n) /\
  match n_exp n with None => True | Some (_, ds) => ds <> [] /\ Forall (fun c => isdigit c = true) ds end.

Lemma digit_code c : isdigit c = true -> 48 <= c <= 57.
Proof. unfold isdigit. rewrite andb_true_iff, !Z.leb_le. done. Qed.

Lemma getSign_digit l : Forall (fun c => isdigit c = true) l -> l <> [] -> forall r, getSign (l ++ r) = (false, l ++ r).
Proof.
  intros Hl Hne r. destruct Hl as [|c l Hc _]; [done|]. apply digit_code in Hc. cbn.
  destruct (Z.eqb_spec c 45); [lia|]. by destruct (Z.eqb_spec c 43); [lia|].
Qed.

Lemma getSign_number (neg : bool) l r : Forall (fun c => isdigit c = true) l -> l <> [] -> getSign ((if neg then [45] else []) ++ l ++ r) = (neg, l ++ r).
Proof. intros Hl Hne. destruct neg; [done|]. cbn [app]. by apply getSign_digit. Qed.

Lemma scanNumber_text n r : number_ok n -> blank r -> scanNumber (textNumber n ++ r) = (n, r).
Proof.
  intros (Hne & Hi & Hf & He) Hr. destruct n as [neg ip fp ex]. cbn [n_int n_frac n_exp n_neg] in *. unfold scanNumber, textNumber.
  cbn [n_int n_frac n_exp n_neg]. rewrite <- !app_assoc, getSign_number by done.
  destruct r as [|c r]; [done|]. cbn in Hr. pose proof (space_not_digit c Hr) as Hcd. apply space_code in Hr.
  assert (Hnil : is_nil (ip ++ fp) = false) by (by destruct ip).
  set (ext := match ex with None => [] | Some _ => _ end).
  (* the text after the digits *)
  assert (Hx : match ext ++ c :: r with [] => True | c0 :: _ => isdigit c0 = false /\ c0 <> 46 end).
  { unfold ext. destruct ex as [[eneg es]|]; cbn; [done|]. split; [done|]. lia. }
  assert (Hfrac : match (if is_nil fp then [] else 46 :: fp) ++ ext ++ c :: r with
      c0 :: r0 => if c0 =? 46 then span isdigit r0 else ([], (if is_nil fp then [] else 46 :: fp) ++ ext ++ c :: r)
    | [] => ([], []) end = (fp, ext ++ c :: r)).
  { destruct fp as [|d fp].
    - cbn [is_nil app]. destruct (ext ++ c :: r) as [|c0 r0]; [done|]. destruct Hx as [_ Hx]. by destruct (Z.eqb_spec c0 46).
    - cbn [is_nil app]. rewrite Z.eqb_refl. apply (span_app isdigit (d :: fp)); [done|]. destruct (ext ++ c :: r); [done|]. apply Hx. }
  rewrite span_app; [|done|].
  2: { destruct fp; cbn; [|done]. destruct (ext ++ c :: r); [done|]. apply Hx. }
  rewrite Hfrac. unfold ext in *. destruct ex as [[eneg es]|]; cbn [app].
  - rewrite Hnil. cbn [Z.eqb Pos.eqb orb andb negb]. destruct He as [He1 He2].
    assert (Hs : getSign ((if eneg then 45 else 43) :: es ++ c :: r) = (eneg, es ++ c :: r)) by (by destruct eneg).
    rewrite Hs, span_app by done. done.
  - destruct (Z.eqb_spec c 101); [lia|]. destruct (Z.eqb_spec c 69); [lia|]. done.
Qed.

Lemma stripZeros_digits l : Forall (fun c => isdigit c = true) l -> Forall (fun c => isdigit c = true) (stripZeros l).
Proof.
  intros Hl. unfold stripZeros. apply Forall_rev. apply Forall_rev in Hl. induction Hl as [|c l' Hc Hl IH]; cbn; [done|].
  destruct c as [|p|p]; try (by constructor). repeat (destruct p as [p|p|]; try (by constructor)). done.
Qed.

Lemma rne_nonneg num den : 0 <= num -> 0 < den -> 0 <= rne num den.
Proof. intros Hn Hd. pose proof (Z.div_pos num den Hn Hd). unfold rne. repeat case_match; lia. Qed.

Lemma fixedNumber_ok p x : (0 < p)%nat -> number_ok (fixedNumber p x) /\ n_frac (fixedNumber p x) <> [].
Proof.
  intros Hp. assert (K : forall s v, 0 <= v -> let n := mkNumber s (decimal (v / 10 ^ Z.of_nat p)) (pad p (v mod 10 ^ Z.of_nat p)) None in
    number_ok n /\ n_frac n <> []).
  { intros s v Hv. split; [|cbn; destruct p as [|p]; [lia|]; cbn; by destruct (pad p _)]. split; [apply dec_nonempty|].
    split; [apply dec_digits, Z.div_pos; [done|]; apply Z.pow_pos_nonneg; lia|]. by split; [apply pad_all_digits|]. }
  unfold fixedNumber. destruct x as [s|s| |s m e]; apply K; try lia. apply rne_nonneg; unfold numer, denom.
  - apply Z.mul_nonneg_nonneg; apply Z.lt_le_incl; [apply Z.mul_pos_pos; [done|]|]; apply Z.pow_pos_nonneg; lia.
  - apply Z.pow_pos_nonneg; lia.
Qed.

Lemma significant_nonneg p num den : 0 < p -> 0 <= num -> 0 < den -> 0 <= (significant p num den).2.
Proof.
  intros Hp Hn Hd. unfold significant. set (k := p - 1 - _). set (d := if 0 <=? k then _ else _).
  assert (0 <= d). { unfold d. destruct (Z.leb_spec 0 k); apply rne_nonneg; try done;
    [apply Z.mul_nonneg_nonneg; [done|]; apply Z.pow_nonneg; lia|apply Z.mul_pos_pos; [done|]; apply Z.pow_pos_nonneg; lia]. }
  destruct (_ =? _); cbn; [apply Z.pow_nonneg; lia|done].
Qed.

Lemma generalNumber_ok p x : (0 < p)%nat -> number_ok (generalNumber p x).
Proof.
  intros Hp. unfold generalNumber. destruct x as [s|s| |s m e]; [by repeat constructor..|].
  destruct (significant (Z.of_nat p) (numer m e) (denom e)) as [x d] eqn:E.
  assert (Hd : 0 <= d).
  { replace d with (significant (Z.of_nat p) (numer m e) (denom e)).2 by by rewrite E. apply significant_nonneg; [lia| |]; unfold numer, denom.
    - apply Z.mul_nonneg_nonneg; [done|]. apply Z.pow_nonneg. lia.
    - apply Z.pow_pos_nonneg; lia. }
  assert (K : forall k, Forall (fun c => isdigit c = true) (decimal (d / 10 ^ k))).
  { intros k. apply dec_digits. destruct (Z.le_gt_cases 0 k); [apply Z.div_pos; [done|]; apply Z.pow_pos_nonneg; lia|].
    rewrite Z.pow_neg_r by done. by rewrite Z.div_0_r. }
  destruct (_ || _); (split; [apply dec_nonempty|]; split; [apply K|]; split; [apply stripZeros_digits, pad_all_digits|]); [|done].
  cbn [n_exp]. unfold expDigits. case_match; (split; [|]).
  - done.
  - apply pad_all_digits.
  - apply dec_nonempty.
  - apply dec_digits. lia.
Qed.

(** *** Extraction from a text *)

Definition spaces (ws : list Z) : Prop := Forall (fun c => isspace_byte c = true) ws.

Lemma sentry_text ws c r : spaces ws -> isspace_byte c = false -> sentry (newStream (ws ++ c :: r)) = (Some (c :: r), newStream (c :: r)).
Proof. intros Hw Hc. unfold sentry. cbn [good newStream eofbit failbit negb andb rest]. by rewrite span_app. Qed.

(** A word: not empty, without white space. *)
Definition word (w : list Z) : Prop := w <> [] /\ Forall (fun c => isspace_byte c = false) w.

Lemma readString_word ws w r : spaces ws -> word w -> blank r -> readString (newStream (ws ++ w ++ r)) = (w, newStream r).
Proof.
  intros Hs [Hne Hw] Hr. destruct Hw as [|c w Hc Hw]; [done|]. unfold readString. cbn [app]. rewrite sentry_text by done.
  change (c :: w ++ r) with ((c :: w) ++ r). rewrite span_app.
  - by destruct r.
  - constructor; [by rewrite Hc|]. eapply Forall_impl; [exact Hw|]. by intros x ->.
  - destruct r as [|d r]; [done|]. cbn in Hr. by rewrite Hr.
Qed.

Lemma digit_not_space c : isdigit c = true -> isspace_byte c = false.
Proof.
  intros H. destruct (isspace_byte c) eqn:E; [|done]. by rewrite (space_not_digit c E) in H.
Qed.

Lemma readInt_text ws v r : spaces ws -> 0 <= v <= INT_MAX -> blank r -> readInt (newStream (ws ++ putUnsigned v ++ r)) = (v, newStream r).
Proof.
  intros Hs Hv Hr. unfold putUnsigned. pose proof (dec_digits 20 v ltac:(lia)) as Hd. pose proof (dec_nonempty 19 v) as Hne.
  assert (Ev : digitsValue (dec 20 v) = v) by (apply dec_value; unfold INT_MAX in Hv; lia).
  remember (dec 20 v) as ds. destruct Hd as [|c ds Hc Hd]; [done|]. unfold readInt. cbn [app]. rewrite sentry_text by (try done; by apply digit_not_space).
  change (c :: ds ++ r) with ((c :: ds) ++ r). rewrite getSign_digit by (try done; by constructor).
  rewrite span_app; [|by constructor|]. 2: { destruct r as [|x r]; [done|]. by apply space_not_digit. }
  rewrite Ev. cbn [is_nil negb andb]. unfold INT_MAX, INT_MIN in *. destruct (Z.ltb_spec v (- 2 ^ 31)); [lia|]. destruct (Z.ltb_spec (2 ^ 31 - 1) v); [lia|].
  destruct (Z.leb_spec (- 2 ^ 31) v); [|lia]. destruct (Z.leb_spec v (2 ^ 31 - 1)); [|lia]. by destruct r.
Qed.

Lemma readFloat_text ws n r :
  spaces ws -> number_ok n -> blank r ->
  readFloat (newStream (ws ++ textNumber n ++ r)) = (numberValue n, mkIstr r false (negb (bool_decide (is_Some (numberValue n))))).
Proof.
  intros Hs Hn Hr. assert (Hc : exists c t, textNumber n = c :: t /\ isspace_byte c = false).
  { destruct Hn as (Hne & Hi & _). unfold textNumber. destruct (n_neg n); [by eexists _, _|]. destruct Hi as [|c l Hc Hi]; [done|].
    eexists _, _. split; [reflexivity|]. by apply digit_not_space. }
  destruct Hc as (c & t & Ec & Hc). unfold readFloat. rewrite Ec. cbn [app]. rewrite sentry_text by done.
  change (c :: t ++ r) with ((c :: t) ++ r). rewrite <- Ec, scanNumber_text by done. destruct r as [|d r]; [done|]. cbn [is_nil].
  by destruct (numberValue n).
Qed.

(** No number begins there. *)
Lemma readFloat_stop ws c r :
  spaces ws -> c = 34 \/ c = 125 -> readFloat (newStream (ws ++ c :: r)) = (None, mkIstr (c :: r) false true).
Proof. intros Hs Hc. unfold readFloat. rewrite sentry_text; [|done|by destruct Hc as [-> | ->]]. by destruct Hc as [-> | ->]. Qed.

Lemma readChar_text ws c r : spaces ws -> isspace_byte c = false -> readChar (newStream (ws ++ c :: r)) = (Some c, newStream r).
Proof. intros Hs Hc. unfold readChar. by rewrite sentry_text. Qed.

Lemma readChar_not_space s c s' : readChar s = (Some c, s') -> isspace_byte c = false.
Proof.
  unfold readChar, sentry. destruct (negb (good s)); [done|]. induction (rest s) as [|d l IH]; cbn [span]; [done|].
  destruct (isspace_byte d) eqn:E; [|intros [= <- <-]; done]. destruct (span isspace_byte l). exact IH.
Qed.

Lemma dropThrough_app d a r : d ∉ a -> dropThrough d (a ++ d :: r) = Some r.
Proof.
  induction a as [|c a IH]; cbn; [by rewrite Z.eqb_refl|]. rewrite elem_of_cons. intros H. destruct (Z.eqb_spec c d) as [->|]; [tauto|].
  apply IH. tauto.
Qed.

Lemma lineLoop_app d a r n : (length a <= n)%nat -> d ∉ a -> lineLoop n d (a ++ d :: r) = (a, newStream r).
Proof.
  revert n. induction a as [|c a IH]; intros n Hn; cbn [lineLoop app length] in *.
  - intros _. by rewrite Z.eqb_refl.
  - rewrite elem_of_cons. intros H. destruct (Z.eqb_spec c d) as [->|]; [tauto|]. destruct n as [|n]; [lia|]. rewrite IH; [done|lia|tauto].
Qed.
