(* ===== verification/TimetagAdjuster.v ===== *)
(** * The time tag adjuster.

    [core/TimetagAdjuster.cc]: the time tags of a sensor are replaced by
    times at an interval that is estimated from them.  Doubles are those of
    [Doubles.v]; [int] and [unsigned int] results are converted to their width.  Log
    messages are left out. *)

From S2P Require Import Prelude Doubles.

(** ** State *)

(** [Parameters] that depend on the rate. *)
Record Parameters := mkParameters { N_ADJ : Z; N_AVG : Z }.

Definition BIG_GAP_USEC : Z := 5 * USECS_PER_SEC.
Definition DT_LIMIT_FRACTION : Dbl.t := Dbl.make 10066330 (-25).   (* 0.3 as a float *)
Definition MAX_CONSEC_BAD_DT : Z := 5.
Definition LATENCY_WARN_DT : Dbl.t := Dbl.make 1 (-1).
Definition MAX_CONSEC_NEG_LATENCY : Z := 5.

Definition newParameters (rate : Dbl.t) : Parameters :=
  mkParameters (u32 (Z.max 5 (s32 (Dbl.trunc (Dbl.mul (Dbl.ofZ 1) rate))))) (u32 (s32 (Dbl.trunc (Dbl.mul (Dbl.ofZ 60) rate)))).

(** What [screenDt] works with. *)
Record Screen := mkScreen {
  dtUsecConfig : Dbl.t;
  dtUsecLowLimit : Dbl.t;
  dtUsecHighLimit : Dbl.t;
  nDtLow : Z;
  nDtHigh : Z;
  maxConsecLow : Z;
  maxConsecHigh : Z
}.

(** The statistics of the log message. *)
Record AdjStats := mkAdjStats {
  nBack : Z;
  ngap : Z;
  maxGap : Z;
  nLargeLatency : Z;
  nNegLatency : Z;
  dtResultMin : Z;
  dtResultMax : Z;
  latencyMinUsec : Z;
  latencyMaxUsec : Z;
  dtUsecAvgMin : Dbl.t;
  dtUsecAvgMax : Dbl.t;
  dtUsecAvgSum : Dbl.t;
  nDtAvgSum : Z
}.

Record Adjuster := mkAdjuster {
  params : Parameters;
  ntotalPts : Z;
  ttlast : Z;
  tt0 : Z;
  nDt : Z;
  ttnDt0 : Z;
  dtUsecAvg : Dbl.t;
  latencyAdjUsec : Z;
  latencyLast : Z;
  ttAdjLast : Z;
  nConsecNegLatency : Z;
  screen : Screen;
  stats : AdjStats
}.

Definition lowLimit (dt : Dbl.t) : Dbl.t := Dbl.mul dt (Dbl.sub (Dbl.ofZ 1) DT_LIMIT_FRACTION).
Definition highLimit (dt : Dbl.t) : Dbl.t := Dbl.mul dt (Dbl.add (Dbl.ofZ 1) DT_LIMIT_FRACTION).

(** The constructor. *)
Definition newAdjuster (rate : Dbl.t) : Adjuster :=
  let dt := Dbl.div (Dbl.ofZ USECS_PER_SEC) rate in
  mkAdjuster (newParameters rate) 0 LONG_LONG_MIN LONG_LONG_MIN 0 LONG_LONG_MIN dt INT_MAX 0 LONG_LONG_MIN 0
    (mkScreen dt (lowLimit dt) (highLimit dt) 0 0 0 0)
    (mkAdjStats 0 0 0 0 0 INT_MAX 0 INT_MAX 0 (Dbl.ofZ (10 ^ 32)) (Dbl.ofZ 0) (Dbl.ofZ 0) 0).

(** ** Operations *)

(** [screenDt(tt,dtUsec)]: whether to skip the interval, and the average when
    it is replaced. *)
Definition screenDt (dtUsec : Dbl.t) (s : Screen) : bool * option Dbl.t * Screen :=
  if Dbl.lt dtUsec (dtUsecLowLimit s) then
    let low := maxConsecLow s + 1 in
    if MAX_CONSEC_BAD_DT <? low then
      (false, Some dtUsec, mkScreen dtUsec (lowLimit dtUsec) (highLimit dtUsec) (u32 (nDtLow s + 1)) (nDtHigh s) 0 0)
    else
      (nDtLow s mod 100 =? 0, None,
       mkScreen (dtUsecConfig s) (dtUsecLowLimit s) (dtUsecHighLimit s) (u32 (nDtLow s + 1)) (nDtHigh s) low 0)
  else if Dbl.lt (dtUsecHighLimit s) dtUsec then
    let high := maxConsecHigh s + 1 in
    if MAX_CONSEC_BAD_DT <? high then
      (false, Some dtUsec, mkScreen dtUsec (lowLimit dtUsec) (highLimit dtUsec) (nDtLow s) (u32 (nDtHigh s + 1)) 0 0)
    else
      (nDtHigh s mod 100 =? 0, None,
       mkScreen (dtUsecConfig s) (dtUsecLowLimit s) (dtUsecHighLimit s) (nDtLow s) (u32 (nDtHigh s + 1)) 0 high)
  else (false, None, mkScreen (dtUsecConfig s) (dtUsecLowLimit s) (dtUsecHighLimit s) (nDtLow s) (nDtHigh s) 0 0).

(** The statistics of the intervals of the result. *)
Definition resultStats (result last : Z) (x : AdjStats) : AdjStats :=
  if 0 <? last then
    let dt := s32 (result - last) in
    mkAdjStats (nBack x) (ngap x) (maxGap x) (nLargeLatency x) (nNegLatency x) (Z.min (dtResultMin x) dt) (Z.max (dtResultMax x) dt)
      (latencyMinUsec x) (latencyMaxUsec x) (dtUsecAvgMin x) (dtUsecAvgMax x) (dtUsecAvgSum x) (nDtAvgSum x)
  else x.

(** The counts of backwards times and gaps at the start of [adjust]. *)
Definition inputStats (back : bool) (gap : Z) (x : AdjStats) : AdjStats :=
  mkAdjStats (if back then u32 (nBack x + 1) else nBack x) (if BIG_GAP_USEC <? gap then u32 (ngap x + 1) else ngap x)
    (Z.max (maxGap x) gap) (nLargeLatency x) (nNegLatency x) (dtResultMin x) (dtResultMax x) (latencyMinUsec x) (latencyMaxUsec x)
    (dtUsecAvgMin x) (dtUsecAvgMax x) (dtUsecAvgSum x) (nDtAvgSum x).

Definition negStats (x : AdjStats) : AdjStats :=
  mkAdjStats (nBack x) (ngap x) (maxGap x) (nLargeLatency x) (u32 (nNegLatency x + 1)) (dtResultMin x) (dtResultMax x)
    (latencyMinUsec x) (latencyMaxUsec x) (dtUsecAvgMin x) (dtUsecAvgMax x) (dtUsecAvgSum x) (nDtAvgSum x).

Definition windowStats (large : bool) (latencyAdj : Z) (avg dt : Dbl.t) (x : AdjStats) : AdjStats :=
  mkAdjStats (nBack x) (ngap x) (maxGap x) (if large then u32 (nLargeLatency x + 1) else nLargeLatency x) (nNegLatency x)
    (dtResultMin x) (dtResultMax x) (Z.min latencyAdj (latencyMinUsec x)) (Z.max latencyAdj (latencyMaxUsec x))
    (Dbl.min (dtUsecAvgMin x) avg) (Dbl.max (dtUsecAvgMax x) avg) (Dbl.add (dtUsecAvgSum x) dt) (u32 (nDtAvgSum x + 1)).

(** A restart at the time tag [tt]. *)
Definition restart (tt : Z) (avg : Dbl.t) (negs : Z) (x : AdjStats) (a : Adjuster) : Adjuster :=
  mkAdjuster (params a) (ntotalPts a) tt tt 0 tt avg INT_MAX (latencyLast a) tt negs (screen a) x.

(** The adjusted time of the next sample. *)
Definition expectedTT (n : Z) (a : Adjuster) : Z :=
  Dbl.llrint (Dbl.add (Dbl.ofZ (tt0 a)) (Dbl.mul (Dbl.ofZ n) (dtUsecAvg a))).

(** The end of an adjustment window: the new average, the screening, the zero
    time. *)
Definition windowEnd (tt ttAdj n latencyAdj : Z) (a : Adjuster) : Adjuster :=
  let dtUsec := s32 (Z.quot (tt - ttnDt0 a + n / 2) n) in
  let '(skipdt, avg, scr) := screenDt (Dbl.ofZ dtUsec) (screen a) in
  let avg := default (dtUsecAvg a) avg in
  let avg :=
    if skipdt then avg
    else
      let m := Z.min (N_AVG (params a)) (ntotalPts a) in
      Dbl.div (Dbl.add (Dbl.mul avg (Dbl.ofZ (u32 (m - n)))) (Dbl.ofZ (u32 (u32 dtUsec * n)))) (Dbl.ofZ m) in
  let large := Dbl.lt (Dbl.mul avg LATENCY_WARN_DT) (Dbl.ofZ latencyAdj) in
  mkAdjuster (params a) (ntotalPts a) (ttlast a) (if large then tt else ttAdj + latencyAdj) 0 tt avg INT_MAX (latencyLast a)
    (ttAdjLast a) (nConsecNegLatency a) scr (windowStats large latencyAdj avg (Dbl.ofZ dtUsec) (stats a)).

(** The members after the first lines of [adjust], and at its end. *)
Definition with_tag (n tt : Z) (x : AdjStats) (a : Adjuster) : Adjuster :=
  mkAdjuster (params a) n tt (tt0 a) (nDt a) (ttnDt0 a) (dtUsecAvg a) (latencyAdjUsec a) (latencyLast a) (ttAdjLast a)
    (nConsecNegLatency a) (screen a) x.

Definition with_result (r : Z) (a : Adjuster) : Adjuster :=
  mkAdjuster (params a) (ntotalPts a) (ttlast a) (tt0 a) (nDt a) (ttnDt0 a) (dtUsecAvg a) (latencyAdjUsec a) (latencyLast a) r
    (nConsecNegLatency a) (screen a) (resultStats r (ttAdjLast a) (stats a)).

(** A sample that came earlier than expected. *)
Definition adjustNegative (tt ttAdj n latency : Z) (a : Adjuster) : Z * Adjuster :=
  let negs := nConsecNegLatency a + 1 in
  let x := negStats (stats a) in
  if MAX_CONSEC_NEG_LATENCY <? negs then (tt, restart tt (dtUsecConfig (screen a)) negs x a)
  else
    let ttAdj := ttAdj + latency in
    let ttAdj := if ttAdj <? ttAdjLast a then ttAdjLast a + 1 else ttAdj in
    (ttAdj,
     with_result ttAdj
       (mkAdjuster (params a) (ntotalPts a) (ttlast a) (tt0 a + latency) n (ttnDt0 a) (dtUsecAvg a) (Z.min latency 0) latency
          (ttAdjLast a) negs (screen a) x)).

(** A sample that came at the expected time or later. *)
Definition adjustPositive (tt ttAdj n latency : Z) (a : Adjuster) : Z * Adjuster :=
  let latencyDiff := s32 (latency - latencyLast a) in
  let latencyAdj := Z.min latency (latencyAdjUsec a) in
  let a := mkAdjuster (params a) (ntotalPts a) (ttlast a) (tt0 a) n (ttnDt0 a) (dtUsecAvg a) latencyAdj latency
             (ttAdjLast a) 0 (screen a) (stats a) in
  let a :=
    if (N_ADJ (params a) <=? n) && ((0 <=? latencyDiff) || (u32 (N_ADJ (params a) * 2) <? n))
    then windowEnd tt ttAdj n latencyAdj a else a in
  let ttAdj := if ttAdj <? ttAdjLast a then ttAdjLast a + 1 else ttAdj in
  (ttAdj, with_result ttAdj a).

(** [adjust(tt)] *)
Definition adjust (tt : Z) (a : Adjuster) : Z * Adjuster :=
  let total := u32 (ntotalPts a + 1) in
  if total =? 1 then
    (tt, mkAdjuster (params a) total tt tt (nDt a) tt (dtUsecAvg a) (latencyAdjUsec a) (latencyLast a) tt (nConsecNegLatency a)
           (screen a) (stats a))
  else
    let gap := tt - ttlast a in
    let a := with_tag total tt (inputStats (tt <? ttlast a) gap (stats a)) a in
    if BIG_GAP_USEC <? gap then
      (tt, restart tt (dtUsecAvg a) (nConsecNegLatency a) (resultStats tt (ttAdjLast a) (stats a)) a)
    else
      let n := u32 (nDt a + 1) in
      let ttAdj := expectedTT n a in
      let latency := s32 (tt - ttAdj) in
      if latency <? 0 then adjustNegative tt ttAdj n latency a else adjustPositive tt ttAdj n latency a.

Fixpoint adjustAll (l : list Z) (a : Adjuster) : list Z * Adjuster :=
  match l with
  | [] => ([], a)
  | t :: l => let '(r, a) := adjust t a in let '(rs, a) := adjustAll l a in (r :: rs, a)
  end.

(** ** One time tag *)

Lemma windowEnd_last tt ttAdj n l a : ttAdjLast (windowEnd tt ttAdj n l a) = ttAdjLast a.
Proof. unfold windowEnd. by destruct (screenDt _ _) as [[skip avg] scr]. Qed.

Lemma adjustPositive_result tt e n l a :
  ttAdjLast (snd (adjustPositive tt e n l a)) = fst (adjustPositive tt e n l a) /\
  fst (adjustPositive tt e n l a) = if e <? ttAdjLast a then ttAdjLast a + 1 else e.
Proof.
  unfold adjustPositive. cbn [fst snd with_result ttAdjLast]. split; [done|]. set (a2 := mkAdjuster _ _ _ _ _ _ _ _ _ _ _ _ _).
  assert (E : forall b : bool, ttAdjLast (if b then windowEnd tt e n (Z.min l (latencyAdjUsec a)) a2 else a2) = ttAdjLast a).
  { intros []; [by rewrite windowEnd_last|done]. }
  by rewrite E.
Qed.

(** The result is kept; it is the time tag of a restart or not before the
    previous result. *)
Lemma adjust_step tt a : ttAdjLast (snd (adjust tt a)) = fst (adjust tt a) /\
  (fst (adjust tt a) = tt \/ ttAdjLast a <= fst (adjust tt a)).
Proof.
  unfold adjust. destruct (u32 (ntotalPts a + 1) =? 1); [by split; [|left]|].
  destruct (BIG_GAP_USEC <? tt - ttlast a); [by split; [|left]|].
  set (a1 := with_tag _ _ _ a). set (n := u32 _). set (e := expectedTT n a1).
  destruct (s32 (tt - e) <? 0).
  - unfold adjustNegative. destruct (MAX_CONSEC_NEG_LATENCY <? _); [by split; [|left]|]. cbn [fst snd with_result ttAdjLast]. split; [done|].
    right. cbn [a1 with_tag ttAdjLast]. bdestr; lia.
  - destruct (adjustPositive_result tt e n (s32 (tt - e)) a1) as [E1 E2]. rewrite E1, E2. split; [done|]. right.
    change (ttAdjLast a1) with (ttAdjLast a). bdestr; lia.
Qed.

(** ** Regular samples *)

Section Regular.

(** Samples at intervals of [dt] from [t0], each late by [j i]. *)
Context (p : Parameters) (t0 dt : Z) (j : nat -> Z).

Definition ideal (i : nat) : Z := t0 + dt * Z.of_nat i.
Definition tag (i : nat) : Z := ideal i + j i.

Definition d : Dbl.t := Dbl.ofZ dt.

Context (Hadj : 5 <= N_ADJ p) (Havg : 2 * N_ADJ p + 1 <= N_AVG p) (Ht0 : 0 < t0) (Hdt : 0 < dt)
  (H32 : dt * N_AVG p < 2 ^ 32) (Hgap : dt + N_ADJ p <= BIG_GAP_USEC) (Hn32 : N_AVG p < 2 ^ 31)
  (Hlow : Dbl.lt d (lowLimit d) = false) (Hhigh : Dbl.lt (highLimit d) d = false)
  (Hj0 : j 0 = 0) (Hj : forall i, 0 <= j i /\ 2 * j i < N_ADJ p)
  (Hzero : forall i, exists k, (i < k)%nat /\ Z.of_nat k <= Z.of_nat i + N_ADJ p /\ j k = 0).

(** After the sample [i], in a window that began after the sample [w]. *)
Record regular (i w : nat) (a : Adjuster) : Prop := {
  G_params : params a = p;
  G_total : ntotalPts a = Z.of_nat i + 1;
  G_last : ttlast a = tag i;
  G_w : (w <= i)%nat /\ nDt a = Z.of_nat i - Z.of_nat w /\ nDt a <= 2 * N_ADJ p;
  G_tt0 : tt0 a = ideal w;
  G_ttn : ttnDt0 a = tag w;
  G_avg : dtUsecAvg a = d;
  G_adj : 0 <= latencyAdjUsec a /\ (forall k, (w < k <= i)%nat -> j k = 0 -> latencyAdjUsec a = 0);
  G_result : ttAdjLast a = ideal i;
  G_screen : dtUsecLowLimit (screen a) = lowLimit d /\ dtUsecHighLimit (screen a) = highLimit d /\ dtUsecConfig (screen a) = d
}.

Lemma ideal_S i : ideal (S i) = ideal i + dt.
Proof. unfold ideal. lia. Qed.

(** The average of intervals of [dt] is [dt]. *)
Lemma average_exact m n : 0 < n <= m -> m <= N_AVG p ->
  Dbl.div (Dbl.add (Dbl.mul d (Dbl.ofZ (u32 (m - n)))) (Dbl.ofZ (u32 (u32 dt * n)))) (Dbl.ofZ m) = d.
Proof.
  intros Hn Hm. assert (dt * n < 2 ^ 32) by nia. assert (dt * m < 2 ^ 32) by nia. assert (dt < 2 ^ 32) by nia.
  rewrite (u32_small (m - n)), (u32_small dt) by lia. rewrite (u32_small (dt * n)) by nia.
  unfold d. rewrite mul_exact0 by nia. rewrite add_exact0 by nia.
  replace (dt * (m - n) + dt * n) with (dt * m) by lia. apply div_exact; nia.
Qed.

(** The measured interval of a window of [n] samples. *)
Lemma measured_exact i w n : n = Z.of_nat i - Z.of_nat w -> N_ADJ p <= n ->
  Z.quot (tag i - tag w + n / 2) n = dt.
Proof.
  intros En Hn. unfold tag, ideal. pose proof (Hj i). pose proof (Hj w).
  replace (t0 + dt * Z.of_nat i + j i - (t0 + dt * Z.of_nat w + j w) + n / 2) with (dt * n + (j i - j w + n / 2)) by (subst n; lia).
  assert (0 <= j i - j w + n / 2 < n) by dlia.
  rewrite Z.quot_div_nonneg by nia. rewrite Z.div_add_l by lia. rewrite (Z.div_small (_ + n / 2)) by lia. lia.
Qed.

Lemma never_large : Dbl.lt (Dbl.mul d LATENCY_WARN_DT) (Dbl.ofZ 0) = false.
Proof. assert (dt < 2 ^ 32) by nia. apply half_not_negative. lia. Qed.

Lemma window_exact i w n a : n = Z.of_nat i - Z.of_nat w -> N_ADJ p <= n -> n <= Z.min (N_AVG p) (ntotalPts a) ->
  params a = p -> ttnDt0 a = tag w -> dtUsecAvg a = d -> dtUsecLowLimit (screen a) = lowLimit d ->
  dtUsecHighLimit (screen a) = highLimit d -> dtUsecConfig (screen a) = d ->
  let b := windowEnd (tag i) (ideal i) n 0 a in
  params b = p /\ ntotalPts b = ntotalPts a /\ ttlast b = ttlast a /\ tt0 b = ideal i /\ nDt b = 0 /\ ttnDt0 b = tag i /\
  dtUsecAvg b = d /\ latencyAdjUsec b = INT_MAX /\ ttAdjLast b = ttAdjLast a /\ dtUsecLowLimit (screen b) = lowLimit d /\
  dtUsecHighLimit (screen b) = highLimit d /\ dtUsecConfig (screen b) = d.
Proof.
  intros En Hn Hm Ep Et Ed El Eh Ec. unfold windowEnd. rewrite Et, (measured_exact i w n En Hn), Ep, Ed.
  assert (dt < 2 ^ 31) by nia. rewrite s32_small by lia. unfold screenDt. fold d. rewrite El, Hlow, Eh, Hhigh. cbn [default].
  rewrite average_exact by lia. rewrite never_large. cbn. split_and!; try done. lia.
Qed.

Lemma regular_step i w a : regular i w a -> ideal (S i) < 2 ^ 53 -> Z.of_nat i + 2 < 2 ^ 32 ->
  fst (adjust (tag (S i)) a) = ideal (S i) /\ exists w', regular (S i) w' (snd (adjust (tag (S i)) a)).
Proof.
  intros [Gp Gt Gl (Gw & Gn & Gm) G0 Gtn Ga (Gj & Gz) Gr (Gsl & Gsh & Gsc)] Hi Ht. unfold adjust.
  rewrite Gt, u32_small by lia. destruct (Z.eqb_spec (Z.of_nat i + 1 + 1) 1); [lia|].
  pose proof (Hj i) as Hji. pose proof (Hj (S i)) as HjS. pose proof (ideal_S i) as HS.
  assert (Hg : (BIG_GAP_USEC <? tag (S i) - ttlast a) = false).
  { rewrite Gl. unfold tag. apply Z.ltb_ge. lia. }
  rewrite Hg. set (a1 := with_tag _ _ _ a). change (nDt a1) with (nDt a). rewrite (u32_small (nDt a + 1)) by lia.
  assert (Hw : 0 < ideal w /\ ideal w <= ideal i) by (unfold ideal; nia).
  assert (Ee : expectedTT (nDt a + 1) a1 = ideal (S i)).
  { unfold expectedTT. change (tt0 a1) with (tt0 a). change (dtUsecAvg a1) with (dtUsecAvg a). rewrite G0, Ga. unfold d.
    assert (Hid : ideal w + (nDt a + 1) * dt = ideal (S i)) by (rewrite Gn; unfold ideal; lia).
    rewrite mul_exact by nia. rewrite add_exact by nia. rewrite Hid. apply llrint_exact. lia. }
  rewrite Ee. assert (El : s32 (tag (S i) - ideal (S i)) = j (S i)) by (unfold tag; rewrite s32_small; lia).
  rewrite El. destruct (Z.ltb_spec (j (S i)) 0); [lia|]. unfold adjustPositive. change (latencyAdjUsec a1) with (latencyAdjUsec a).
  set (la := Z.min (j (S i)) (latencyAdjUsec a)).
  assert (Hla : 0 <= la /\ forall k, (w < k <= S i)%nat -> j k = 0 -> la = 0).
  { split; [lia|]. intros k Hk Hk0. destruct (decide (k = S i)) as [->|]; [lia|]. specialize (Gz k ltac:(lia) Hk0). lia. }
  set (a2 := mkAdjuster _ _ _ _ _ _ _ _ _ _ _ _ _). change (params a2) with (params a). rewrite Gp.
  assert (Hres : forall b, ttAdjLast b = ttAdjLast a ->
    (if ideal (S i) <? ttAdjLast b then ttAdjLast b + 1 else ideal (S i)) = ideal (S i)).
  { intros b ->. rewrite Gr. destruct (Z.ltb_spec (ideal (S i)) (ideal i)); lia. }
  destruct ((N_ADJ p <=? nDt a + 1) && _) eqn:Ew; cbn [fst snd].
  - apply andb_true_iff in Ew as [Hge%Z.leb_le _]. destruct (Hzero w) as (k & Hk1 & Hk2 & Hk0).
    assert (El0 : la = 0) by (apply (proj2 Hla k); [lia|done]). rewrite El0.
    destruct (window_exact (S i) w (nDt a + 1) a2) as (E1 & E2 & E3 & E4 & E5 & E6 & E7 & E8 & E9 & E10 & E11 & E12);
      try done; [lia|cbn; lia|]. rewrite Hres by done. split; [done|]. exists (S i).
    split; cbn [with_result params ntotalPts ttlast nDt tt0 ttnDt0 dtUsecAvg latencyAdjUsec ttAdjLast screen]; try done.
    + rewrite E2. cbn. lia.
    + rewrite E5. lia.
    + rewrite E8. split; [done|]. lia.
  - rewrite Hres by done. split; [done|]. exists w.
    assert (Hn2 : nDt a + 1 <= 2 * N_ADJ p).
    { apply andb_false_iff in Ew as [Hlt%Z.leb_gt|Ho]; [lia|]. apply orb_false_iff in Ho as [_ Ho%Z.ltb_ge]. rewrite u32_small in Ho; lia. }
    split; cbn; try done; lia.
Qed.

Lemma regular_run m : forall i w a, regular i w a -> ideal (i + m) < 2 ^ 53 -> Z.of_nat (i + m) + 1 < 2 ^ 32 ->
  fst (adjustAll (map tag (seq (S i) m)) a) = map ideal (seq (S i) m).
Proof.
  induction m as [|m IH]; intros i w a Hr Hi Ht; [done|]. cbn [seq map adjustAll].
  assert (Hid : ideal (S i) <= ideal (i + S m)) by (unfold ideal; nia).
  destruct (regular_step i w a Hr ltac:(lia) ltac:(lia)) as (E & w' & Hr').
  destruct (adjust (tag (S i)) a) as [r a1]. cbn [fst snd] in E, Hr'. specialize (IH (S i) w' a1 Hr').
  destruct (adjustAll (map tag (seq (S (S i)) m)) a1) as [rs a2]. cbn [fst] in IH |- *.
  rewrite E, IH; [done| |lia]. replace (S i + m)%nat with (i + S m)%nat by lia. lia.
Qed.

End Regular.

(** ** Properties *)

(** Adjusted times do not go back.  Whatever the time tags, each adjusted
    time is not before the previous one, or it is the time tag itself, as
    after a gap or too many early samples. *)
Theorem adjusted_in_order (rate : Dbl.t) (l : list Z) (i : nat) (r r' : Z) :
  fst (adjustAll l (newAdjuster rate)) !! i = Some r -> fst (adjustAll l (newAdjuster rate)) !! S i = Some r' ->
  r <= r' \/ l !! S i = Some r'.
Proof.
  generalize (newAdjuster rate). revert i. induction l as [|t l IH]; intros i a; cbn [adjustAll]; [done|].
  pose proof (adjust_step t a) as [E1 _]. destruct (adjust t a) as [r1 a1]. cbn [fst snd] in E1.
  specialize (IH (pred i) a1). destruct i as [|i]; cbn [pred] in IH.
  - destruct l as [|u l]; cbn [adjustAll] in *; [done|]. pose proof (adjust_step u a1) as [_ E2].
    destruct (adjust u a1) as [r2 a2]. destruct (adjustAll l a2) as [rs a3]. cbn [fst snd] in *.
    cbn. intros [= <-] [= <-]. rewrite E1 in E2. destruct E2 as [->|]; [by right|by left].
  - destruct (adjustAll l a1) as [rs a2]. cbn [fst] in *. cbn. apply IH.
Qed.

Lemma adjusted_in_order_witness :
  fst (adjustAll [1000000; 1050000; 1040000] (newAdjuster (Dbl.ofZ 20))) = [1000000; 1050000; 1050001] /\
  (1050000 <= 1050001 \/ [1000000; 1050000; 1040000] !! 2%nat = Some 1050001).
Proof.
  assert (E : fst (adjustAll [1000000; 1050000; 1040000] (newAdjuster (Dbl.ofZ 20))) = [1000000; 1050000; 1050001]) by (vm_compute; reflexivity).
  split; [exact E|]. apply (adjusted_in_order (Dbl.ofZ 20) [1000000; 1050000; 1040000] 1 1050000 1050001); rewrite E; reflexivity.
Defined.

(** An adjusted time is not late.  When the expected time is within half an
    hour of the time tag, so that the difference fits in an [int], the
    adjusted time is not after the time tag, except by the microsecond that
    keeps it after the previous one. *)
Theorem adjusted_not_late (tt : Z) (a : Adjuster) :
  - 2 ^ 31 <= tt - expectedTT (u32 (nDt a + 1)) a < 2 ^ 31 ->
  fst (adjust tt a) <= tt \/ fst (adjust tt a) = ttAdjLast a + 1.
Proof.
  intros He. unfold adjust. destruct (u32 (ntotalPts a + 1) =? 1); [left; cbn; lia|].
  destruct (BIG_GAP_USEC <? tt - ttlast a); [left; cbn; lia|].
  set (a1 := with_tag _ _ _ a). change (expectedTT (u32 (nDt a1 + 1)) a1) with (expectedTT (u32 (nDt a + 1)) a).
  set (e := expectedTT _ a) in *. rewrite s32_small by lia. destruct (Z.ltb_spec (tt - e) 0).
  - unfold adjustNegative. destruct (MAX_CONSEC_NEG_LATENCY <? _); [left; cbn; lia|]. cbn [fst].
    change (ttAdjLast a1) with (ttAdjLast a). bdestr; lia.
  - rewrite (proj2 (adjustPositive_result _ _ _ _ _)). change (ttAdjLast a1) with (ttAdjLast a). bdestr; lia.
Qed.

Lemma adjusted_not_late_witness :
  let a := snd (adjustAll [1000000; 1050000; 1102000] (newAdjuster (Dbl.ofZ 20))) in
  fst (adjust 1153000 a) <= 1153000 \/ fst (adjust 1153000 a) = ttAdjLast a + 1.
Proof. apply (adjusted_not_late 1153000 (snd (adjustAll [1000000; 1050000; 1102000] (newAdjuster (Dbl.ofZ 20))))). vm_compute. split; congruence. Defined.

(** C10: jitter is removed.  When the configured interval is a whole number
    [dt] of microseconds and the samples are late by less than [N_ADJ / 2]
    microseconds, the first one and one of every [N_ADJ] being on time, every
    adjusted time is the time at which its sample was taken; in particular
    regular time tags are left alone.  Windows have at least 5 samples, an
    average has more than two windows of them, a sample that is late is
    within [BIG_GAP_USEC] of the one before, and the times and sums are in
    the range in which a [double] and 32 bits are exact. *)
Theorem jitter_removed (rate : Dbl.t) (t0 dt : Z) (j : nat -> Z) (n : nat) :
  let p := newParameters rate in
  Dbl.div (Dbl.ofZ USECS_PER_SEC) rate = Dbl.ofZ dt ->
  Dbl.lt (Dbl.ofZ dt) (lowLimit (Dbl.ofZ dt)) = false -> Dbl.lt (highLimit (Dbl.ofZ dt)) (Dbl.ofZ dt) = false ->
  5 <= N_ADJ p -> 2 * N_ADJ p + 1 <= N_AVG p -> dt * N_AVG p < 2 ^ 32 -> dt + N_ADJ p <= BIG_GAP_USEC -> N_AVG p < 2 ^ 31 ->
  0 < t0 -> 0 < dt -> t0 + dt * Z.of_nat n < 2 ^ 53 -> Z.of_nat n + 1 < 2 ^ 32 ->
  j 0%nat = 0 -> (forall i, 0 <= j i /\ 2 * j i < N_ADJ p) ->
  (forall i, exists k, (i < k)%nat /\ Z.of_nat k <= Z.of_nat i + N_ADJ p /\ j k = 0) ->
  fst (adjustAll (map (fun i => t0 + dt * Z.of_nat i + j i) (seq 0 n)) (newAdjuster rate)) =
  map (fun i => t0 + dt * Z.of_nat i) (seq 0 n).
Proof.
  intros p Hc Hlow Hhigh H1 H2 H3 H4 H5 Ht Hd Hb Hn Hj0 Hj Hz. destruct n as [|n]; [done|]. cbn [seq map adjustAll].
  change (adjust (t0 + dt * Z.of_nat 0 + j 0%nat) (newAdjuster rate)) with
    (t0 + dt * Z.of_nat 0 + j 0%nat, snd (adjust (t0 + dt * Z.of_nat 0 + j 0%nat) (newAdjuster rate))).
  set (a := snd _). assert (G : regular p t0 dt j 0 0 a).
  { assert (E0 : t0 + dt * Z.of_nat 0 + j 0%nat = ideal t0 dt 0) by (unfold ideal; lia).
    assert (Es : screen a = mkScreen (Dbl.ofZ dt) (lowLimit (Dbl.ofZ dt)) (highLimit (Dbl.ofZ dt)) 0 0 0 0) by (rewrite <- Hc; done).
    split; try done.
    - change (nDt a) with 0. lia.
    - change (latencyAdjUsec a) with INT_MAX. split; [done|lia].
    - by rewrite Es. }
  pose proof (regular_run p t0 dt j H1 H2 Ht Hd H3 H4 H5 Hlow Hhigh Hj Hz n 0%nat 0%nat a G) as R.
  change (map (fun i => t0 + dt * Z.of_nat i + j i) (seq 1 n)) with (map (tag t0 dt j) (seq 1 n)).
  change (map (fun i => t0 + dt * Z.of_nat i) (seq 1 n)) with (map (ideal t0 dt) (seq 1 n)).
  cbv iota beta. rewrite (surjective_pairing (adjustAll _ _)). cbn [fst].
  rewrite R; [by rewrite Hj0, Z.add_0_r|unfold ideal; lia|lia].
Qed.

(** A sensor at 20 Hz, every third sample late by 9 microseconds. *)
Lemma jitter_removed_witness :
  fst (adjustAll (map (fun i => 1700000000000000 + 50000 * Z.of_nat i + (if (i mod 3 =? 2)%nat then 9 else 0)) (seq 0 50)) (newAdjuster (Dbl.ofZ 20))) =
  map (fun i => 1700000000000000 + 50000 * Z.of_nat i) (seq 0 50).
Proof.
  apply (jitter_removed (Dbl.ofZ 20) 1700000000000000 50000 (fun i => if (i mod 3 =? 2)%nat then 9 else 0) 50).
  all: try (vm_compute; reflexivity).
  all: try (vm_compute; congruence).
  - intros i. change (N_ADJ (newParameters (Dbl.ofZ 20))) with 20. destruct (i mod 3 =? 2)%nat; lia.
  - intros i. change (N_ADJ (newParameters (Dbl.ofZ 20))) with 20. destruct (Nat.eqb_spec (S i mod 3) 2) as [E|E].
    + exists (S (S i)). destruct (Nat.eqb_spec (S (S i) mod 3) 2); [|lia]. exfalso.
      pose proof (Nat.div_mod_eq (S i) 3). pose proof (Nat.div_mod_eq (S (S i)) 3). lia.
    + exists (S i). destruct (Nat.eqb_spec (S i mod 3) 2); [done|lia].
Defined.

(** Of the intervals that fail the screening only one in a hundred is
    skipped, the one that is logged: the second one is used. *)
Lemma bad_interval_used :
  let s := screen (newAdjuster (Dbl.ofZ 20)) in
  let '(skip1, _, s1) := screenDt (Dbl.ofZ 20000) s in
  let '(skip2, _, s2) := screenDt (Dbl.ofZ 20000) s1 in
  Dbl.lt (Dbl.ofZ 20000) (dtUsecLowLimit s) = true /\ dtUsecLowLimit s1 = dtUsecLowLimit s /\ skip1 = true /\ skip2 = false.
Proof. vm_compute. auto. Qed.

(** One sample that is a millisecond early moves the results of the rest of
    its window by a millisecond, and those of the next window by two: the
    negative latency is added to [_tt0] when it is seen and again at the end
    of the window. *)
Lemma early_sample_shifts_twice :
  let tags := map (fun i => 1700000000000000 + 50000 * Z.of_nat i - (if (i =? 10)%nat then 1000 else 0)) (seq 0 30) in
  let r := fst (adjustAll tags (newAdjuster (Dbl.ofZ 20))) in
  r !! 15%nat = Some (1700000000000000 + 50000 * 15 - 1000) /\ r !! 25%nat = Some (1700000000000000 + 50000 * 25 - 2000).
Proof. vm_compute. auto. Qed.
