(* ===== verification/Files.v ===== *)
(** * Paths and the operating system.

    The static functions of [FileSet] in [src/src/nidas/util/FileSet.cc] on
    paths, which are lists of bytes.  The operating system is a class of
    operations on a state of any type: each operation answers with an [errno]
    or its result.  Of regular expressions the class [BasicRegex] says what
    is used: sequences of ordinary characters, dots and ranges.  A file system
    in memory is an instance of both. *)

From Stdlib Require Import String.
From S2P Require Import Prelude StringUtil UTime.

Local Open Scope Z_scope.

Abbreviation path := (list Z).

Definition pathSeparator : Z := 47.

Definition ENOENT : Z := 2.
Definition EEXIST : Z := 17.
Definition ENOTDIR : Z := 20.

(** An exception: [IOException] with an [errno] or with a message, and
    [EOFException]. *)
Inductive exc := IOExc (errno : Z) | IOMsg | EOFExc.

(** The calls of the operating system and of the C library.  [sys_stat] tells
    whether the path is a directory, [sys_fstat] the size of an open file; [sys_create] is [open] with [O_CREAT],
    [O_EXCL] and [O_WRONLY]; [regcomp] gives the function that [regexec] is,
    [None] standing for an error of either. *)
Class Posix (fs : Type) := {
  sys_stat : path -> fs -> Z + bool;
  sys_mkdir : path -> fs -> option Z * fs;
  sys_create : path -> fs -> (Z + Z) * fs;
  sys_open : path -> fs -> (Z + Z) * fs;
  sys_read : Z -> Z -> fs -> (Z + list Z) * fs;
  sys_write : Z -> list Z -> fs -> (Z + Z) * fs;
  sys_close : Z -> fs -> option Z * fs;
  sys_fstat : Z -> fs -> Z + Z;
  sys_readdir : path -> fs -> Z + list path;
  regcomp : path -> option (path -> option bool);
  localeText : list Z -> tm -> list Z;
  localSecs : Z -> list Z
}.

(** ** Paths *)

(** The parts before and after the last separator. *)
Fixpoint rsplit (p : path) : option (path * path) :=
  match p with
  | [] => None
  | c :: r =>
      match rsplit r with
      | Some (a, b) => Some (c :: a, b)
      | None => if c =? pathSeparator then Some ([], r) else None
      end
  end.

Definition getDirPortion (p : path) : path :=
  match rsplit p with
  | None => bytes_of "."
  | Some ([], _) => [pathSeparator]
  | Some (d, _) => d
  end.

Definition getFilePortion (p : path) : path :=
  match rsplit p with None => p | Some (_, f) => f end.

Definition makePath (dir file : path) : path :=
  if (zlen dir =? 0) || bool_decide (dir = bytes_of ".") then file else dir ++ [pathSeparator] ++ file.

(** ** Lemmas: paths *)

Lemma rsplit_none f : pathSeparator ∉ f -> rsplit f = None.
Proof.
  induction f as [|c f IH]; cbn; [done|]. intros [H1 H2]%not_elem_of_cons. rewrite IH by done.
  by destruct (Z.eqb_spec c pathSeparator).
Qed.

Lemma rsplit_last d f : pathSeparator ∉ f -> rsplit (d ++ pathSeparator :: f) = Some (d, f).
Proof. intros H. induction d as [|c d IH]; cbn; [by rewrite rsplit_none|]. by rewrite IH. Qed.

(** The directory and file portions of a path that [makePath] made. *)
Lemma makePath_portions dir f : dir <> bytes_of "." -> pathSeparator ∉ f ->
  getFilePortion (makePath dir f) = f /\
  getDirPortion (makePath dir f) = (if decide (dir = []) then bytes_of "." else dir).
Proof.
  intros Hd Hf. unfold makePath. rewrite bool_decide_eq_false_2 by done. unfold getFilePortion, getDirPortion.
  destruct dir as [|c dir]; [by rewrite rsplit_none|]. rewrite zlen_cons. pose proof (zlen_nonneg dir).
  destruct (Z.eqb_spec (1 + zlen dir) 0); [lia|]. cbn [orb app]. change (c :: dir ++ pathSeparator :: f) with ((c :: dir) ++ pathSeparator :: f).
  by rewrite rsplit_last.
Qed.

(** ** Regular expressions *)

Inductive piece := POrd (c : Z) | PDot | PRange (lo hi : Z).

Definition piece_text (p : piece) : path :=
  match p with POrd c => [c] | PDot => bytes_of "." | PRange lo hi => bytes_of "[" ++ [lo] ++ bytes_of "-" ++ [hi] ++ bytes_of "]" end.

Definition piece_match (p : piece) (c : Z) : bool :=
  match p with POrd c' => c =? c' | PDot => negb (c =? 0) | PRange lo hi => (lo <=? c) && (c <=? hi) end.

Fixpoint pieces_match (ps : list piece) (n : path) : bool :=
  match ps, n with
  | [], [] => true
  | p :: ps, c :: n => piece_match p c && pieces_match ps n
  | _, _ => false
  end.

(** A character that stands for itself. *)
Definition ordinary (c : Z) : bool := negb (bool_decide (c ∈ 0 :: bytes_of ".[\*^$")).

Definition piece_ok (p : piece) : bool :=
  match p with POrd c => ordinary c | PDot => true | PRange lo hi => (48 <=? lo) && (lo <=? hi) && (hi <=? 57) end.

Class BasicRegex (fs : Type) `{Posix fs} : Prop :=
  regcomp_pieces : forall ps, Forall (fun p => piece_ok p = true) ps ->
    exists re, regcomp (bytes_of "^" ++ concat (map piece_text ps) ++ bytes_of "$") = Some re /\
      forall n, re n = Some (pieces_match ps n).

(** ** A file system in memory

    The nodes by their paths, and the open files with what is left to read
    of them. *)

Inductive node := Dir | File (data : list Z).

#[global] Instance node_eq_dec : EqDecision node.
Proof. solve_decision. Defined.

Record memfs := mkMemfs {
  mem_nodes : list (path * node);
  mem_open : list (Z * (path * list Z));
  mem_next : nat
}.

Definition mem_find (p : path) (w : memfs) : option node :=
  if bool_decide (p = bytes_of "." \/ p = [pathSeparator]) then Some Dir
  else match List.find (fun e => bool_decide (e.1 = p)) (mem_nodes w) with Some (_, n) => Some n | None => None end.

Definition mem_add (p : path) (n : node) (w : memfs) : memfs := mkMemfs ((p, n) :: mem_nodes w) (mem_open w) (mem_next w).

Definition mem_opened (p : path) (data : list Z) (w : memfs) : (Z + Z) * memfs :=
  (inr (Z.of_nat (mem_next w)),
   mkMemfs (mem_nodes w) ((Z.of_nat (mem_next w), (p, data)) :: mem_open w) (S (mem_next w))).

Definition mem_dir (p : path) (w : memfs) : bool := bool_decide (mem_find (getDirPortion p) w = Some Dir).

Definition mem_fd (fd : Z) (w : memfs) : option (path * list Z) :=
  match List.find (fun e => e.1 =? fd) (mem_open w) with Some (_, x) => Some x | None => None end.

Definition mem_without (fd : Z) (w : memfs) : list (Z * (path * list Z)) := List.filter (fun e => negb (e.1 =? fd)) (mem_open w).

Definition EBADF : Z := 9.

Definition mem_mkdir (p : path) (w : memfs) : option Z * memfs :=
  match mem_find p w with
  | Some _ => (Some EEXIST, w)
  | None => if mem_dir p w then (None, mem_add p Dir w) else (Some ENOENT, w)
  end.

Definition mem_create (p : path) (w : memfs) : (Z + Z) * memfs :=
  match mem_find p w with
  | Some _ => (inl EEXIST, w)
  | None => if mem_dir p w then mem_opened p [] (mem_add p (File []) w) else (inl ENOENT, w)
  end.

Definition mem_openr (p : path) (w : memfs) : (Z + Z) * memfs :=
  match mem_find p w with Some (File d) => mem_opened p d w | _ => (inl ENOENT, w) end.

Definition mem_read (fd n : Z) (w : memfs) : (Z + list Z) * memfs :=
  match mem_fd fd w with
  | None => (inl EBADF, w)
  | Some (p, d) =>
      (inr (take (Z.to_nat n) d), mkMemfs (mem_nodes w) ((fd, (p, drop (Z.to_nat n) d)) :: mem_without fd w) (mem_next w))
  end.

Definition mem_write (fd : Z) (bs : list Z) (w : memfs) : (Z + Z) * memfs :=
  match mem_fd fd w with
  | None => (inl EBADF, w)
  | Some (p, _) =>
      let old := match mem_find p w with Some (File d) => d | _ => [] end in
      (inr (zlen bs), mem_add p (File (old ++ bs)) w)
  end.

Definition mem_close (fd : Z) (w : memfs) : option Z * memfs :=
  match mem_fd fd w with
  | None => (Some EBADF, w)
  | Some _ => (None, mkMemfs (mem_nodes w) (mem_without fd w) (mem_next w))
  end.

Definition mem_readdir (d : path) (w : memfs) : Z + list path :=
  if bool_decide (d <> [] /\ mem_find d w = Some Dir)
  then inr (bytes_of "." :: map (fun e => getFilePortion e.1) (List.filter (fun e => bool_decide (getDirPortion e.1 = d)) (mem_nodes w)))
  else inl ENOENT.

Fixpoint mem_pieces (l : path) : option (list piece) :=
  match l with
  | [] => None
  | c :: r =>
      if (c =? 36) && (zlen r =? 0) then Some []
      else if c =? 46 then option_map (cons PDot) (mem_pieces r)
      else if c =? 91 then
        match r with
        | lo :: x :: hi :: y :: r => if (x =? 45) && (y =? 93) then option_map (cons (PRange lo hi)) (mem_pieces r) else None
        | _ => None
        end
      else if ordinary c then option_map (cons (POrd c)) (mem_pieces r) else None
  end.

Definition mem_regcomp (l : path) : option (path -> option bool) :=
  match l with
  | [] => None
  | c :: r =>
      if c =? 94 then match mem_pieces r with Some ps => Some (fun n => Some (pieces_match ps n)) | None => None end else None
  end.

#[global] Instance mem_posix : Posix memfs := {
  sys_stat p w := match mem_find p w with None => inl ENOENT | Some Dir => inr true | Some (File _) => inr false end;
  sys_mkdir := mem_mkdir;
  sys_create := mem_create;
  sys_open := mem_openr;
  sys_read := mem_read;
  sys_write := mem_write;
  sys_close := mem_close;
  sys_fstat fd w := match mem_fd fd w with
    | Some (p, _) => match mem_find p w with Some (File d) => inr (zlen d) | _ => inr 0 end
    | None => inl EBADF
    end;
  sys_readdir := mem_readdir;
  regcomp := mem_regcomp;
  localeText _ _ := [];
  localSecs s := dec 20 s
}.

Lemma mem_pieces_text ps : Forall (fun p => piece_ok p = true) ps -> mem_pieces (concat (map piece_text ps) ++ [36]) = Some ps.
Proof.
  induction 1 as [|p ps Hp _ IH]; [done|]. cbn [map concat]. rewrite <- app_assoc. destruct p as [c| |lo hi].
  - cbn [piece_text app mem_pieces]. cbn in Hp. unfold ordinary in Hp. apply negb_true_iff, bool_decide_eq_false in Hp.
    change (0 :: bytes_of ".[\*^$") with [0; 46; 91; 92; 42; 94; 36] in Hp. rewrite !not_elem_of_cons in Hp.
    destruct Hp as (? & ? & ? & ? & ? & ? & ? & _).
    destruct (Z.eqb_spec c 36), (Z.eqb_spec c 46), (Z.eqb_spec c 91); try done. cbn [andb]. rewrite IH. cbn [option_map].
    unfold ordinary. rewrite bool_decide_eq_false_2; [done|]. change (0 :: bytes_of ".[\*^$") with [0; 46; 91; 92; 42; 94; 36].
    rewrite !not_elem_of_cons. by split_and!; [done..|apply not_elem_of_nil].
  - cbn. by rewrite IH.
  - cbn. by rewrite IH.
Qed.

#[global] Instance mem_regex : BasicRegex memfs.
Proof.
  intros ps Hps. exists (fun n => Some (pieces_match ps n)). split; [|done].
  change (mem_regcomp (bytes_of "^" ++ concat (map piece_text ps) ++ [36]) = Some (fun n => Some (pieces_match ps n))).
  cbn [bytes_of app mem_regcomp]. by rewrite mem_pieces_text.
Qed.
