(* ===== verification/FileNames.v ===== *)
(** * Names of archive files and the search for them.

    [checkPathFormat] and [matchFiles] of [FileSet] in
    [src/src/nidas/util/FileSet.cc], which find the files of a period of time
    by their names. *)

From Stdlib Require Import String.
From S2P Require Import Prelude StringUtil UTime SampleSets Files.

Local Open Scope Z_scope.

Definition USECS_PER_HOUR : Z := 3600 * USECS_PER_SEC.

(** [replaceChars(in,pat,rep)] *)
Definition replaceChars (l pat rep : path) : option path := replaceCharsIn (S (length l)) pat rep l.

(** [find(pat)] *)
Definition findPos (pat l : path) : option Z :=
  match find_split pat l with Some (a, _) => Some (zlen a) | None => None end.

Definition contains (pat l : path) : bool := bool_decide (is_Some (find_split pat l)).

Section Search.

Context {fs : Type} `{Posix fs}.

Abbreviation formatTime := (format localeText localSecs).

(** ** [checkPathFormat] *)

Definition dateFields : list path := [bytes_of "%m"; bytes_of "%d"; bytes_of "%H"; bytes_of "%M"; bytes_of "%S"].

(** The loops over [dseq]: the position of each field, or that of the one
    before it. *)
Fixpoint fieldsAscend (fullpath : path) (prev : Z) (fields : list path) : bool :=
  match fields with
  | [] => true
  | f :: fields =>
      let di := default prev (findPos f fullpath) in
      negb (di <? prev) && fieldsAscend fullpath di fields
  end.

Definition checkPathFormat (fullpath : path) (t1 t2 : Z) : option exc :=
  let m1 := formatTime t1 (bytes_of "%b") in
  let m2 := formatTime t2 (bytes_of "%b") in
  if contains (bytes_of "%b") fullpath && ((31 * USECS_PER_DAY <? Z.abs (t1 - t2)) || negb (bool_decide (m1 = m2)))
  then Some IOMsg
  else
    let d0 := match findPos (bytes_of "%Y") fullpath with
              | Some di => di
              | None => default 0 (findPos (bytes_of "%y") fullpath)
              end in
    if fieldsAscend fullpath d0 dateFields then None else Some IOMsg.

(** ** [matchFiles] *)

(** The time between directories. *)
Definition dirDelta (fullpath : path) (t1 : Z) : Z :=
  let dir := getDirPortion fullpath in
  if bool_decide (formatTime t1 dir = dir) then 365 * USECS_PER_DAY
  else if contains (bytes_of "%H") dir then USECS_PER_HOUR
  else if contains (bytes_of "%d") dir then USECS_PER_DAY
  else if contains (bytes_of "%m") dir then 28 * USECS_PER_DAY
  else if contains (bytes_of "%y") dir then 365 * USECS_PER_DAY
  else if contains (bytes_of "%Y") dir then 365 * USECS_PER_DAY
  else USECS_PER_HOUR.

(** Replacements of fields by regular expressions, in order. *)
Fixpoint replaceAll (l : path) (reps : list (path * path)) : option path :=
  match reps with
  | [] => Some l
  | (pat, rep) :: reps => match replaceChars l pat rep with Some l => replaceAll l reps | None => None end
  end.

Definition regexReplacements (requestDeltat : Z) : list (path * path) :=
  (if 28 * USECS_PER_DAY <? requestDeltat
   then [(bytes_of "%m", bytes_of "[0-1][0-9]"); (bytes_of "%b", bytes_of "[a-zA-Z][a-zA-Z][a-zA-Z]")] else []) ++
  (if USECS_PER_DAY <? requestDeltat then [(bytes_of "%d", bytes_of "[0-3][0-9]")] else []) ++
  [(bytes_of "%H", bytes_of "[0-2][0-9]"); (bytes_of "%M", bytes_of "[0-5][0-9]"); (bytes_of "%S", bytes_of "[0-5][0-9]")].

(** The regular expression of the names at [ftime]. *)
Definition fileRegex (fullpath : path) (requestDeltat ftime : Z) : option path :=
  match replaceAll (bytes_of "^" ++ getFilePortion fullpath ++ bytes_of "$") (regexReplacements requestDeltat) with
  | Some l => Some (formatTime ftime l)
  | None => None
  end.

(** The test of a name found in a directory. *)
Definition inPeriod (t1path t2path matchfile : path) : bool :=
  negb (lexlt matchfile t1path) &&
  (lexlt matchfile t2path || (bool_decide (t1path = t2path) && negb (lexlt t2path matchfile))).

(** The search in a directory. *)
Fixpoint searchDir (t1path t2path currdir : path) (re : path -> option bool) (names : list path) (found : list path) :
    exc + list path :=
  match names with
  | [] => inr found
  | d_name :: names =>
      match re d_name with
      | None => inl IOMsg
      | Some false => searchDir t1path t2path currdir re names found
      | Some true =>
          let matchfile := makePath currdir d_name in
          let found := if inPeriod t1path t2path matchfile then fst (set_insert lexlt matchfile found) else found in
          searchDir t1path t2path currdir re names found
      end
  end.

(** One turn of the loop over the directories. *)
Definition matchAt (fullpath : path) (t1 t2 ftime : Z) (w : fs) (found : list path) : exc + list path :=
  let currdir := getDirPortion (formatTime ftime fullpath) in
  match sys_readdir currdir w with
  | inl e => inl (IOExc e)
  | inr names =>
      match fileRegex fullpath (t2 - t1) ftime with
      | None => inl IOMsg
      | Some fileregex =>
          match regcomp fileregex with
          | None => inl IOMsg
          | Some re => searchDir (formatTime t1 fullpath) (formatTime t2 fullpath) currdir re names found
          end
      end
  end.

(** The loop; [None] when the bound on its turns is reached. *)
Fixpoint matchLoop (fuel : nat) (fullpath : path) (t1 t2 dirDeltat ftime : Z) (w : fs) (found : list path) :
    option (exc + list path) :=
  if ftime <=? t2 then
    match fuel with
    | O => None
    | S fuel =>
        match matchAt fullpath t1 t2 ftime w found with
        | inl e => Some (inl e)
        | inr found =>
            if ftime =? t2 then Some (inr found)
            else
              let ftime := ftime + dirDeltat in
              matchLoop fuel fullpath t1 t2 dirDeltat (if t2 <? ftime then t2 else ftime) w found
        end
    end
  else Some (inr found).

Definition matchFuel (t1 t2 dirDeltat : Z) : nat := S (S (Z.to_nat ((t2 - t1) / dirDeltat))).

Definition matchFiles (fullpath : path) (t1 t2 : Z) (w : fs) : option (exc + list path) :=
  match checkPathFormat fullpath t1 t2 with
  | Some e => Some (inl e)
  | None =>
      let dirDeltat := dirDelta fullpath t1 in
      matchLoop (matchFuel t1 t2 dirDeltat) fullpath t1 t2 dirDeltat t1 w []
  end.

End Search.

(** ** Lemmas: replacements *)

Definition pct_count (l : path) : nat := length (List.filter (Z.eqb PCT) l).

Lemma pct_count_app a b : pct_count (a ++ b) = (pct_count a + pct_count b)%nat.
Proof. unfold pct_count. by rewrite List.filter_app, length_app. Qed.

Lemma pct_count_none l : PCT ∉ l -> pct_count l = O.
Proof.
  unfold pct_count. induction l as [|c l IH]; cbn [List.filter]; [done|]. intros [H1 H2]%not_elem_of_cons.
  destruct (Z.eqb_spec PCT c) as [E|N]; [by destruct H1|exact (IH H2)].
Qed.

(** The replacement of a field by text without a percent sign ends. *)
Lemma replaceChars_total l c rep : PCT ∉ rep -> is_Some (replaceChars l [PCT; c] rep).
Proof.
  intros Hr. unfold replaceChars. assert (Hl : (pct_count l < S (length l))%nat).
  { unfold pct_count. pose proof (List.filter_length_le (Z.eqb PCT) l). lia. }
  revert Hl. generalize (S (length l)). intros n. revert l. induction n as [|n IH]; intros l Hl; [lia|]. cbn [replaceCharsIn].
  destruct (find_split [PCT; c] l) as [[a b]|] eqn:E; [|by eexists]. apply find_split_some in E. apply IH.
  rewrite E, !pct_count_app in Hl. rewrite !pct_count_app, (pct_count_none rep Hr). unfold pct_count in Hl at 2.
  cbn [List.filter] in Hl. rewrite Z.eqb_refl in Hl. cbn [length] in Hl. lia.
Qed.

(** Every replacement of [matchFiles] is of this kind. *)
Lemma fileRegex_total `{Posix fs} fullpath delta ftime : is_Some (fileRegex fullpath delta ftime).
Proof.
  unfold fileRegex. assert (G : forall reps l, Forall (fun r => exists c, r.1 = [PCT; c] /\ PCT ∉ r.2) reps -> is_Some (replaceAll l reps)).
  { induction reps as [|[pat rep] reps IH]; intros l; cbn [replaceAll]; [by eexists|]. intros [(c & E & Hr) Hs]%Forall_cons. cbn in E, Hr. subst pat.
    destruct (replaceChars_total l c rep Hr) as [l' ->]. auto. }
  edestruct (G (regexReplacements delta) (bytes_of "^" ++ getFilePortion fullpath ++ bytes_of "$")) as [l ->]; [|by eexists].
  unfold regexReplacements. rewrite !Forall_app.
  split_and!; repeat case_match; repeat constructor; eexists; (split; [reflexivity|]);
    apply (bool_decide_unpack _); vm_compute; done.
Qed.

(** ** Lemmas: the search *)

#[local] Instance lexlt_order : StrictWeakOrder lexlt.
Proof. by apply (lexlt_swo id). Qed.

Lemma name_set_insert x l : strictly_ascending lexlt l ->
  strictly_ascending lexlt (set_insert lexlt x l).1 /\ (forall y, y ∈ (set_insert lexlt x l).1 <-> y = x \/ y ∈ l).
Proof.
  intros Hl. destruct (set_insert_strict lexlt x l Hl) as (H1 & H2 & H3). split; [done|]. intros y.
  destruct (set_insert lexlt x l).2.
  - rewrite H2 by done. apply elem_of_cons.
  - destruct (H3 eq_refl) as (-> & z & Hz & E). unfold equivalent in E. apply andb_prop in E as [E1 E2].
    apply negb_true_iff in E1, E2. rewrite (lexlt_total _ _ E1 E2) in *. split; [by right|]. by intros [->|].
Qed.

Section SearchLemmas.

Context {fs : Type} `{Posix fs}.

Abbreviation formatTime := (format localeText localSecs).

(** What a search adds: names in the directory that match and are in the
    period. *)
Lemma searchDir_spec t1p t2p dir re names : forall found r,
  strictly_ascending lexlt found -> searchDir t1p t2p dir re names found = inr r ->
  strictly_ascending lexlt r /\
  (forall m, m ∈ r <-> m ∈ found \/ exists n, n ∈ names /\ re n = Some true /\ m = makePath dir n /\ inPeriod t1p t2p m = true).
Proof.
  induction names as [|n names IH]; intros found r Hf; cbn [searchDir].
  { intros [= <-]. split; [done|]. intros m. split; [by left|]. by intros [|(n & ?%elem_of_nil & _)]. }
  destruct (re n) as [[|]|] eqn:En; [| |done].
  - set (found' := if inPeriod _ _ _ then _ else _).
    assert (G : strictly_ascending lexlt found' /\ (forall m, m ∈ found' <-> m ∈ found \/ (m = makePath dir n /\ inPeriod t1p t2p m = true))).
    { subst found'. destruct (inPeriod t1p t2p (makePath dir n)) eqn:Ep.
      - destruct (name_set_insert (makePath dir n) found Hf) as [H1 H2]. split; [done|]. intros m. rewrite H2. split.
        + intros [->|]; auto.
        + intros [|[-> _]]; auto.
      - split; [done|]. intros m. split; [by left|]. intros [|[-> ?]]; [done|congruence]. }
    destruct G as [G1 G2]. intros E. destruct (IH _ _ G1 E) as [H1 H2]. split; [done|]. intros m. rewrite H2, G2.
    split.
    + intros [[|[-> Hp]]|(n' & Hn & ?)]; [by left| |].
      * right. exists n. split; [by left|done].
      * right. exists n'. split; [by right|done].
    + intros [|(n' & [->|Hn]%elem_of_cons & Hr & -> & Hp)]; [by left; left|by left; right|].
      right. by exists n'.
  - intros E. destruct (IH _ _ Hf E) as [H1 H2]. split; [done|]. intros m. rewrite H2. split.
    + intros [|(n' & Hn & ?)]; [by left|]. right. exists n'. split; [by right|done].
    + intros [|(n' & [->|Hn]%elem_of_cons & Hr & ?)]; [by left|congruence|]. right. by exists n'.
Qed.

(** [m] is found at the time [ftime]. *)
Definition foundAt (fullpath : path) (t1 t2 : Z) (w : fs) (ftime : Z) (m : path) : Prop :=
  exists names fileregex re n, sys_readdir (getDirPortion (formatTime ftime fullpath)) w = inr names /\
    fileRegex fullpath (t2 - t1) ftime = Some fileregex /\ regcomp fileregex = Some re /\ n ∈ names /\ re n = Some true /\
    m = makePath (getDirPortion (formatTime ftime fullpath)) n /\ inPeriod (formatTime t1 fullpath) (formatTime t2 fullpath) m = true.

Lemma matchAt_spec fullpath t1 t2 ftime w found r :
  strictly_ascending lexlt found -> matchAt fullpath t1 t2 ftime w found = inr r ->
  strictly_ascending lexlt r /\ (forall m, m ∈ r <-> m ∈ found \/ foundAt fullpath t1 t2 w ftime m).
Proof.
  intros Hf. unfold matchAt, foundAt. destruct (sys_readdir _ w) as [|names] eqn:En; [done|].
  destruct (fileRegex fullpath (t2 - t1) ftime) as [fr|] eqn:Er; [|done]. destruct (regcomp fr) as [re|] eqn:Ec; [|done].
  intros E. destruct (searchDir_spec _ _ _ _ _ _ _ Hf E) as [H1 H2]. split; [done|]. intros m. rewrite H2. split.
  - intros [|(n & ?)]; [by left|]. right. by exists names, fr, re, n.
  - intros [|(names' & fr' & re' & n & [= <-] & [= <-] & Er' & ?)]; [by left|]. right. exists n.
    rewrite Ec in Er'. by injection Er' as <-.
Qed.

(** The times at which the loop looks. *)
Definition visited (t1 t2 d ft : Z) : Prop := ft = t2 \/ exists k, 0 <= k /\ ft = t1 + k * d /\ ft <= t2.

Lemma matchLoop_spec fullpath t1 t2 d w : 0 < d -> forall fuel ft found,
  strictly_ascending lexlt found -> ft <= t2 -> t2 - ft <= d * Z.of_nat fuel - d ->
  exists r, matchLoop fuel fullpath t1 t2 d ft w found = Some r /\
  match r with
  | inl e => exists f ftime, (ftime = ft \/ visited (ft + d) t2 d ftime) /\ matchAt fullpath t1 t2 ftime w f = inl e
  | inr l => strictly_ascending lexlt l /\
      (forall m, m ∈ l <-> m ∈ found \/ exists ftime, visited ft t2 d ftime /\ foundAt fullpath t1 t2 w ftime m)
  end.
Proof.
  intros Hd. induction fuel as [|fuel IH]; intros ft found Hf Hle Hfu; [lia|]. cbn [matchLoop].
  destruct (Z.leb_spec ft t2); [|lia]. destruct (matchAt fullpath t1 t2 ft w found) as [e|f1] eqn:E.
  { eexists; split; [done|]. exists found, ft. split; [by left|done]. }
  destruct (matchAt_spec _ _ _ _ _ _ _ Hf E) as [A1 A2]. destruct (Z.eqb_spec ft t2) as [->|Hne].
  { eexists; split; [done|]. split; [done|]. intros m. rewrite A2. split; [|].
    - intros [|]; [by left|right]. exists t2. split; [by left|done].
    - intros [|(ftime & [->|(k & ? & ? & ?)] & ?)]; [by left|by right|]. right. by assert (ftime = t2) as -> by nia. }
  set (ft' := if t2 <? ft + d then t2 else ft + d).
  assert (Hft' : ft' = Z.min t2 (ft + d)) by (subst ft'; destruct (Z.ltb_spec t2 (ft + d)); lia).
  assert (Hv : forall x, visited ft t2 d x <-> x = ft \/ visited ft' t2 d x).
  { intros x. unfold visited. split.
    - intros [->|(k & Hk & -> & Hk2)]; [right; by left|]. destruct (Z.eq_dec k 0) as [->|]; [left; lia|]. right.
      destruct (Z.eq_dec (ft + k * d) t2) as [->|]; [by left|]. right. exists (k - 1). rewrite Hft'. nia.
    - intros [->|[->|(k & Hk & -> & Hk2)]]; [right; exists 0; lia|by left|].
      destruct (Z.le_gt_cases t2 (ft + d)); [left; nia|]. right. exists (k + 1). rewrite Hft'. nia. }
  assert (G : exists r, matchLoop fuel fullpath t1 t2 d ft' w f1 = Some r /\
     match r with
     | inl e => exists f ftime, (ftime = ft' \/ visited (ft' + d) t2 d ftime) /\ matchAt fullpath t1 t2 ftime w f = inl e
     | inr l => strictly_ascending lexlt l /\
         (forall m, m ∈ l <-> m ∈ f1 \/ exists ftime, visited ft' t2 d ftime /\ foundAt fullpath t1 t2 w ftime m)
     end).
  { apply IH; [done|lia|]. rewrite Hft'. destruct fuel; nia. }
  destruct G as (r & -> & Hr). exists r. split; [done|]. destruct r as [e|l].
  - destruct Hr as (f & x & Hx & Em). exists f, x. split; [|done]. right. unfold visited in *.
    destruct Hx as [->|[->|(k & ? & -> & ?)]].
    + destruct (Z.le_gt_cases t2 (ft + d)); [left; lia|]. right. exists 0. lia.
    + by left.
    + destruct (Z.le_gt_cases t2 (ft + d)); [left; nia|]. right. exists (k + 1). nia.
  - destruct Hr as [L1 L2]. split; [done|]. intros m. rewrite L2, A2. setoid_rewrite Hv. naive_solver.
Qed.

End SearchLemmas.
