(* ===== verification/FileSearch.v ===== *)
(** * The search for archive files is complete.

    [matchFiles] of [src/src/nidas/util/FileSet.cc], modelled in
    [FileNames.v], finds every file of the requested period, for names made
    of the date and time fields in order.  The directories have no time
    fields here, so that the search looks once a year and at the end of the
    period, and replaces by wild cards the fields that can change between. *)

From Stdlib Require Import String.
From S2P Require Import Prelude StringUtil UTime SampleSets Files FileNames.

Local Open Scope Z_scope.

(** ** Tokens *)

#[global] Instance token_eq_dec : EqDecision token.
Proof. solve_decision. Defined.

Definition lits_ok (ts : list token) : Prop := forall t, t ∈ ts -> match t with Lit c => c <> PCT | Fld k => (k < 6)%nat end.

Lemma in_order_ok k ts : in_order k ts -> lits_ok ts.
Proof.
  revert k. induction ts as [|[c|j] ts IH]; intros k; cbn; [by intros _ t ?%elem_of_nil| |].
  - intros [Hc Ho] t [->|Ht]%elem_of_cons; [done|]. by apply (IH k).
  - intros (-> & Hk & Ho) t [->|Ht]%elem_of_cons; [done|]. by apply (IH (S k)).
Qed.

Lemma render_app a b : render (a ++ b) = render a ++ render b.
Proof. apply flat_map_app. Qed.

Lemma name_of_app vs a b : name_of vs (a ++ b) = name_of vs a ++ name_of vs b.
Proof. apply flat_map_app. Qed.

Lemma render_lits l : render (map Lit l) = l.
Proof. induction l as [|c l IH]; cbn; [done|]. by f_equal. Qed.

Lemma name_of_lits vs l : name_of vs (map Lit l) = l.
Proof. induction l as [|c l IH]; cbn; [done|]. by f_equal. Qed.

Lemma in_order_lits k l ts : PCT ∉ l -> in_order k ts -> in_order k (map Lit l ++ ts).
Proof. intros Hl Ho. induction l as [|c l IH]; cbn; [done|]. apply not_elem_of_cons in Hl as [H1 H2]. split; [congruence|auto]. Qed.

Lemma in_order_snoc us c : forall k, in_order k us -> c <> PCT -> in_order k (us ++ [Lit c]).
Proof. induction us as [|[x|i] us IH]; intros k; cbn; [done|intros [? ?]; auto|intros (? & ? & ?); auto]. Qed.

Lemma field_code_inj j k : (j < 6)%nat -> (k < 6)%nat -> field_code j = field_code k -> j = k.
Proof. intros Hj Hk. do 6 (destruct j as [|j]; [do 6 (destruct k as [|k]; [done|]); lia|]). lia. Qed.

Lemma field_code_pct k : field_code k <> PCT.
Proof. do 6 (destruct k as [|k]; [done|]). by destruct k. Qed.

(** Where [find] finds a field. *)
Lemma find_skip c l x : c <> PCT -> find_split [PCT; x] (c :: l) =
  match find_split [PCT; x] l with Some (a, b) => Some (c :: a, b) | None => None end.
Proof. intros H. cbn [find_split is_prefix]. by destruct (Z.eqb_spec PCT c); [subst|]. Qed.

Lemma find_skip2 c l x : c <> PCT -> c <> x -> find_split [PCT; x] (PCT :: c :: l) =
  match find_split [PCT; x] l with Some (a, b) => Some (PCT :: c :: a, b) | None => None end.
Proof.
  intros H1 H2. transitivity (match find_split [PCT; x] (c :: l) with Some (a, b) => Some (PCT :: a, b) | None => None end).
  - cbn [find_split is_prefix]. rewrite Z.eqb_refl. destruct (Z.eqb_spec x c); [by subst|]. done.
  - rewrite find_skip by done. by destruct (find_split [PCT; x] l) as [[]|].
Qed.

Lemma find_field x a : lits_ok a -> (forall j, Fld j ∈ a -> field_code j <> x) -> forall r,
  find_split [PCT; x] (render a ++ r) = match find_split [PCT; x] r with Some (u, v) => Some (render a ++ u, v) | None => None end.
Proof.
  intros Hl Hx r. induction a as [|[c|j] a IH]; cbn [render flat_map app].
  { by destruct (find_split [PCT; x] r) as [[]|]. }
  all: fold (render a); specialize (IH (fun t Ht => Hl t (list_elem_of_further _ _ _ Ht)) (fun j Hj => Hx j (list_elem_of_further _ _ _ Hj))).
  - rewrite find_skip by exact (Hl (Lit c) ltac:(by left)). rewrite IH. by destruct (find_split [PCT; x] r) as [[]|].
  - rewrite find_skip2 by first [apply field_code_pct | apply (Hx j); by left]. rewrite IH. by destruct (find_split [PCT; x] r) as [[]|].
Qed.

Lemma find_field_none x ts : lits_ok ts -> (forall j, Fld j ∈ ts -> field_code j <> x) -> find_split [PCT; x] (render ts) = None.
Proof. intros Hl Hx. pose proof (find_field x ts Hl Hx []) as E. by rewrite app_nil_r in E. Qed.

Lemma find_field_first k a b : lits_ok (a ++ Fld k :: b) -> Fld k ∉ a ->
  find_split [PCT; field_code k] (render (a ++ Fld k :: b)) = Some (render a, render b).
Proof.
  intros Hl Hk. assert (Hk6 : (k < 6)%nat) by (apply (Hl (Fld k)); apply elem_of_app; right; by left).
  assert (Hla : lits_ok a) by (intros t Ht; apply Hl, elem_of_app; by left).
  rewrite render_app, find_field; [|done|].
  - cbn [render flat_map app find_split is_prefix]. rewrite !Z.eqb_refl. cbn. by rewrite app_nil_r.
  - intros j Hj E. apply field_code_inj in E; [by subst|exact (Hla (Fld j) Hj)|done].
Qed.

(** ** The check of a pattern *)

Definition field_text (k : nat) : path := [PCT; field_code k].

Lemma in_order_before k a b : forall i j, in_order i (a ++ Fld k :: b) -> (i <= j < k)%nat -> Fld j ∈ a.
Proof.
  induction a as [|[c|x] a IH]; intros i j; cbn.
  - intros (-> & _). lia.
  - intros [_ Ho] Hj. right. by apply (IH i).
  - intros (-> & _ & Ho) Hj. destruct (decide (j = i)) as [->|]; [by left|]. right. apply (IH (S i)); [done|lia].
Qed.

Lemma findPos_field us k p : lits_ok us -> (k < 6)%nat -> findPos (field_text k) (render us) = Some p ->
  exists a b, us = a ++ Fld k :: b /\ (Fld k ∉ a) /\ p = zlen (render a).
Proof.
  intros Hl Hk. unfold findPos, field_text. destruct (decide (Fld k ∈ us)) as [Hin|Hn].
  - apply list_elem_of_split_l in Hin as (a & b & -> & Ha). rewrite find_field_first by done. intros [= <-]. by exists a, b.
  - rewrite find_field_none; [done|done|]. intros j Hj E. apply field_code_inj in E; [by subst|exact (Hl (Fld j) Hj)|done].
Qed.

Lemma field_positions us j k p q : in_order 0 us -> (j < k)%nat -> (k < 6)%nat ->
  findPos (field_text j) (render us) = Some p -> findPos (field_text k) (render us) = Some q -> p <= q.
Proof.
  intros Ho Hjk Hk Hp Hq. pose proof (in_order_ok _ _ Ho) as Hl.
  destruct (findPos_field us k q Hl ltac:(lia) Hq) as (a & b & -> & _ & ->).
  destruct (findPos_field _ j p Hl ltac:(lia) Hp) as (a' & b' & E & Hn & ->).
  assert (Hj : Fld j ∈ a) by (apply (in_order_before k a b 0 j Ho); lia).
  apply list_elem_of_split_l in Hj as (a1 & a2 & -> & Hn1).
  assert (Er : render a' = render a1).
  { rewrite <- app_assoc in *. cbn [app] in *. pose proof (find_field_first j a1 (a2 ++ Fld k :: b) Hl Hn1) as E2.
    rewrite E in Hl, E2. rewrite (find_field_first j a' b' Hl Hn) in E2. by injection E2. }
  rewrite Er.
  rewrite render_app, zlen_app. pose proof (zlen_nonneg (render (Fld j :: a2))). lia.
Qed.

Lemma ascend_fields us ks : forall prev, in_order 0 us -> StronglySorted lt ks -> Forall (fun k => (k < 6)%nat) ks ->
  (forall k p, k ∈ ks -> findPos (field_text k) (render us) = Some p -> prev <= p) ->
  fieldsAscend (render us) prev (map field_text ks) = true.
Proof.
  induction ks as [|k ks IH]; intros prev Ho Hs H6 Hp; cbn [fieldsAscend map]; [done|].
  apply StronglySorted_inv in Hs as [Hs Hk]. apply Forall_cons in H6 as [H6 H6s].
  destruct (findPos (field_text k) (render us)) as [q|] eqn:E.
  - change (default prev (Some q)) with q. specialize (Hp k q ltac:(by left) E) as Hq. destruct (Z.ltb_spec q prev); [lia|]. apply IH; [done..|]. intros k' p Hk' E'.
    rewrite Forall_forall in Hk, H6s. by apply (field_positions us k k' q p Ho); [apply Hk|apply H6s|..].
  - change (default prev None) with prev. rewrite Z.ltb_irrefl. apply IH; [done..|]. intros k' p Hk'. apply Hp. by right.
Qed.

Lemma checkPathFormat_ok `{Posix fs} us t1 t2 : in_order 0 us -> checkPathFormat (render us) t1 t2 = None.
Proof.
  intros Ho. pose proof (in_order_ok _ _ Ho) as Hl. unfold checkPathFormat, contains.
  rewrite bool_decide_eq_false_2.
  2: { change (bytes_of "%b") with [PCT; 98]. rewrite find_field_none; [by intros []|done|].
       intros j _. do 6 (destruct j as [|j]; [done|]). by destruct j. }
  cbn [andb]. change dateFields with (map field_text [1; 2; 3; 4; 5]%nat). change (bytes_of "%Y") with (field_text 0).
  rewrite ascend_fields; [done|done|repeat constructor..|]. intros k p Hk Ek.
  destruct (findPos_field us k p Hl ltac:(repeat (apply elem_of_cons in Hk as [->|Hk]; [lia|]); by apply elem_of_nil in Hk) Ek)
    as (a & b & -> & _ & ->).
  destruct (findPos (field_text 0) _) as [q|] eqn:E0.
  - apply (field_positions _ 0 k q _ Ho); [..|done|done]; repeat (apply elem_of_cons in Hk as [->|Hk]; [lia|]); by apply elem_of_nil in Hk.
  - change (bytes_of "%y") with [PCT; 121]. unfold findPos. rewrite find_field_none; [apply zlen_nonneg|done|].
    intros j _. do 6 (destruct j as [|j]; [done|]). by destruct j.
Qed.

(** ** The regular expression of a pattern *)

(** The fields of [p] replaced by their wild cards. *)
Definition wild_piece (k : nat) : list piece :=
  match k with
  | 1%nat => [PRange 48 49; PRange 48 57]
  | 2%nat => [PRange 48 51; PRange 48 57]
  | 3%nat => [PRange 48 50; PRange 48 57]
  | _ => [PRange 48 53; PRange 48 57]
  end.

Definition wild_text (k : nat) : path := concat (map piece_text (wild_piece k)).

Definition wild (p : nat -> bool) (ts : list token) : list token :=
  flat_map (fun t => match t with Fld k => if p k then map Lit (wild_text k) else [Fld k] | _ => [t] end) ts.

Lemma wild_text_pct k : PCT ∉ wild_text k.
Proof. do 4 (destruct k as [|k]; [by apply (bool_decide_unpack _); vm_compute|]). by apply (bool_decide_unpack _); vm_compute. Qed.

Lemma wild_app p a b : wild p (a ++ b) = wild p a ++ wild p b.
Proof. apply flat_map_app. Qed.

Lemma wild_lits p l : wild p (map Lit l) = map Lit l.
Proof. induction l as [|c l IH]; cbn; [done|]. by f_equal. Qed.

Lemma wild_wild p q ts : wild q (wild p ts) = wild (fun k => p k || q k) ts.
Proof.
  induction ts as [|t ts IH]; [done|]. change (t :: ts) with ([t] ++ ts). rewrite !wild_app, IH. f_equal.
  destruct t as [c|k]; [done|]. assert (W : forall r, wild r [Fld k] = if r k then map Lit (wild_text k) else [Fld k]).
  { intros r. unfold wild. cbn [flat_map]. apply app_nil_r. }
  rewrite !W. destruct (p k); [apply wild_lits|]. cbn [orb]. apply W.
Qed.

Lemma wild_ext p q ts : (forall k, Fld k ∈ ts -> p k = q k) -> wild p ts = wild q ts.
Proof.
  intros Hpq. induction ts as [|[c|k] ts IH]; cbn; [done| |].
  - f_equal. apply IH. intros k Hk. apply Hpq. by right.
  - rewrite (Hpq k) by by left. f_equal. apply IH. intros j Hj. apply Hpq. by right.
Qed.

Lemma wild_none ts : wild (fun _ => false) ts = ts.
Proof. induction ts as [|[c|k] ts IH]; cbn; [done|by f_equal..]. Qed.

Lemma wild_ok p ts : lits_ok ts -> lits_ok (wild p ts).
Proof.
  intros Hl t Ht. apply list_elem_of_In, in_flat_map in Ht as (u & Hu & Ht). apply list_elem_of_In in Hu. specialize (Hl u Hu).
  destruct u as [c|k]; [by destruct Ht as [<-|[]]|]. destruct (p k).
  - apply in_map_iff in Ht as (c & <- & Hc). intros ->. apply (wild_text_pct k). by apply list_elem_of_In.
  - by destruct Ht as [<-|[]].
Qed.

(** [replaceChars] replaces a field everywhere. *)
Lemma replaceChars_field k ts : (k < 6)%nat -> lits_ok ts ->
  replaceChars (render ts) [PCT; field_code k] (wild_text k) = Some (render (wild (Nat.eqb k) ts)).
Proof.
  intros Hk Hl. unfold replaceChars. assert (Hc : (pct_count (render ts) < S (length (render ts)))%nat).
  { unfold pct_count. pose proof (List.filter_length_le (Z.eqb PCT) (render ts)). lia. }
  revert Hc. generalize (S (length (render ts))). intros n. revert ts Hl. induction n as [|n IH]; intros ts Hl Hc; [lia|].
  cbn [replaceCharsIn]. destruct (decide (Fld k ∈ ts)) as [Hin|Hn].
  - apply list_elem_of_split_l in Hin as (a & b & -> & Ha). rewrite find_field_first by done.
    replace (render a ++ wild_text k ++ render b) with (render (a ++ map Lit (wild_text k) ++ b)) by (by rewrite !render_app, render_lits).
    rewrite IH.
    + f_equal. f_equal. rewrite !wild_app, wild_lits. f_equal. cbn. by rewrite Nat.eqb_refl.
    + intros t Ht. rewrite !elem_of_app in Ht. destruct Ht as [Ht|[Ht|Ht]]; [apply Hl, elem_of_app; by left| |apply Hl, elem_of_app; right; by right].
      apply list_elem_of_fmap in Ht as (c & -> & Hc'). intros ->. by apply (wild_text_pct k).
    + rewrite !render_app, render_lits, !pct_count_app, (pct_count_none _ (wild_text_pct k)) in *.
      change (render (Fld k :: b)) with ([PCT] ++ [field_code k] ++ render b) in Hc. rewrite !pct_count_app in Hc.
      change (pct_count [PCT]) with 1%nat in Hc. lia.
  - rewrite find_field_none; [|done|].
    + f_equal. f_equal. rewrite (wild_ext _ (fun _ => false)), wild_none; [done|]. intros j Hj.
      destruct (Nat.eqb_spec k j); [by subst|done].
    + intros j Hj E. apply field_code_inj in E; [by subst|exact (Hl (Fld j) Hj)|done].
Qed.

(** The first field that is replaced, for the length of a period. *)
Definition firstWild (delta : Z) : nat :=
  if 28 * USECS_PER_DAY <? delta then 1 else if USECS_PER_DAY <? delta then 2 else 3.

Lemma replace_step k ts l reps : (k < 6)%nat -> lits_ok ts -> l = render ts ->
  replaceAll l (([PCT; field_code k], wild_text k) :: reps) = replaceAll (render (wild (Nat.eqb k) ts)) reps.
Proof. intros Hk Hl ->. cbn [replaceAll]. by rewrite replaceChars_field. Qed.

Lemma replaceAll_fields delta ts : lits_ok ts ->
  replaceAll (render ts) (regexReplacements delta) = Some (render (wild (Nat.leb (firstWild delta)) ts)).
Proof.
  intros Hl. unfold regexReplacements, firstWild.
  assert (Hb : forall l u, lits_ok u -> l = render u -> replaceChars l (bytes_of "%b") (bytes_of "[a-zA-Z][a-zA-Z][a-zA-Z]") = Some l).
  { intros l u Hu ->. unfold replaceChars. cbn [replaceCharsIn]. change (bytes_of "%b") with [PCT; 98]. rewrite find_field_none; [done|done|].
    intros j _. do 6 (destruct j as [|j]; [done|]). by destruct j. }
  assert (H345 : forall u, lits_ok u -> replaceAll (render u)
     [(bytes_of "%H", bytes_of "[0-2][0-9]"); (bytes_of "%M", bytes_of "[0-5][0-9]"); (bytes_of "%S", bytes_of "[0-5][0-9]")] =
     Some (render (wild (Nat.leb 3) u))).
  { intros u Hu. rewrite (replace_step 3 u), (replace_step 4 (wild (Nat.eqb 3) u)), (replace_step 5 (wild (Nat.eqb 4) (wild (Nat.eqb 3) u)))
      by (try lia; try done; repeat apply wild_ok; done).
    cbn [replaceAll]. f_equal. f_equal. rewrite !wild_wild. apply wild_ext. intros k Hk. specialize (Hu _ Hk). cbn in Hu.
    do 6 (destruct k as [|k]; [done|]). lia. }
  assert (H2 : forall u, lits_ok u -> replaceAll (render u)
     ([(bytes_of "%d", bytes_of "[0-3][0-9]")] ++
      [(bytes_of "%H", bytes_of "[0-2][0-9]"); (bytes_of "%M", bytes_of "[0-5][0-9]"); (bytes_of "%S", bytes_of "[0-5][0-9]")]) =
     Some (render (wild (Nat.leb 2) u))).
  { intros u Hu. cbn [app]. rewrite (replace_step 2 u), H345 by (try lia; try done; by apply wild_ok).
    f_equal. f_equal. rewrite !wild_wild. apply wild_ext. intros k Hk. specialize (Hu _ Hk). cbn in Hu.
    do 6 (destruct k as [|k]; [done|]). lia. }
  destruct (Z.ltb_spec (28 * USECS_PER_DAY) delta).
  - destruct (Z.ltb_spec USECS_PER_DAY delta); [|mlia]. cbn [app]. rewrite (replace_step 1 ts) by (try lia; done). cbn [replaceAll].
    rewrite (Hb _ (wild (Nat.eqb 1) ts)) by (try done; by apply wild_ok). etransitivity; [apply H2; by apply wild_ok|].
    f_equal. f_equal. rewrite !wild_wild. apply wild_ext. intros k Hk. specialize (Hl _ Hk). cbn in Hl.
    do 6 (destruct k as [|k]; [done|]). lia.
  - cbn [app]. destruct (Z.ltb_spec USECS_PER_DAY delta); [by apply H2|by apply H345].
Qed.

(** ** What the regular expression matches *)

Definition lit_ok (c : Z) : bool := (ordinary c || (c =? 46)) && negb (c =? PCT) && negb (c =? pathSeparator).

Definition tokens_ok (ts : list token) : Prop := forall c, Lit c ∈ ts -> lit_ok c = true.

(** The pieces of a pattern for the values of the fields before [j]. *)
Definition pieces (j : nat) (vs : list Z) (ts : list token) : list piece :=
  flat_map (fun t => match t with
    | Lit c => [if c =? 46 then PDot else POrd c]
    | Fld k => if Nat.leb j k then wild_piece k else map POrd (pad (field_width k) (nth k vs 0))
    end) ts.

Lemma pad_digits n : forall v c, c ∈ pad n v -> 48 <= c <= 57.
Proof.
  induction n as [|n IH]; intros v c; cbn; [by intros ?%elem_of_nil|]. rewrite elem_of_app, list_elem_of_singleton.
  intros [H| ->]; [by apply (IH (v / 10))|dlia].
Qed.

Lemma pieces_text j vs ts : tokens_ok ts ->
  concat (map piece_text (pieces j vs ts)) = name_of vs (wild (Nat.leb j) ts).
Proof.
  intros Ht. induction ts as [|t ts IH]; [done|]. change (t :: ts) with ([t] ++ ts).
  rewrite wild_app, name_of_app. unfold pieces. rewrite flat_map_app. fold (pieces j vs ts).
  rewrite map_app, concat_app, IH by (intros c Hc; apply Ht; by right). f_equal. destruct t as [c|k].
  - cbn. destruct (Z.eqb_spec c 46) as [->|]; done.
  - unfold wild. cbn [flat_map]. rewrite !app_nil_r. destruct (Nat.leb j k); [by rewrite name_of_lits|].
    cbn [name_of flat_map]. rewrite app_nil_r. induction (pad _ _) as [|x l IHl]; cbn; [done|]. by f_equal.
Qed.

Lemma pieces_ok j vs ts : tokens_ok ts -> Forall (fun p => piece_ok p = true) (pieces j vs ts).
Proof.
  intros Ht. apply Forall_forall. intros p Hp. apply list_elem_of_In, in_flat_map in Hp as (t & Ht' & Hp).
  apply list_elem_of_In in Ht'. destruct t as [c|k].
  - destruct Hp as [<-|[]]. specialize (Ht c Ht'). unfold lit_ok in Ht. destruct (Z.eqb_spec c 46); [done|]. cbn.
    by destruct (ordinary c).
  - destruct (Nat.leb j k).
    + do 4 (destruct k as [|k]; [by destruct Hp as [<-|[<-|[]]]|]). by destruct Hp as [<-|[<-|[]]].
    + apply in_map_iff in Hp as (c & <- & Hc). apply list_elem_of_In, pad_digits in Hc. cbn.
      apply negb_true_iff, bool_decide_eq_false. intros Hin. change (0 :: bytes_of ".[\*^$") with [0; 46; 91; 92; 42; 94; 36] in Hin.
      rewrite !elem_of_cons, elem_of_nil in Hin. lia.
Qed.

Lemma pieces_match_app ps qs m n : pieces_match ps m = true -> pieces_match qs n = true -> pieces_match (ps ++ qs) (m ++ n) = true.
Proof.
  revert m. induction ps as [|p ps IH]; intros [|c m]; cbn; try done. intros [H1 H2]%andb_prop Hq. rewrite H1. by apply IH.
Qed.

Lemma pieces_match_self l : pieces_match (map POrd l) l = true.
Proof. induction l as [|c l IH]; cbn; [done|]. by rewrite Z.eqb_refl. Qed.

Lemma wild_match k v : (0 < k < 6)%nat -> 0 <= v < nth k [0; 20; 40; 30; 60; 60] 0 ->
  pieces_match (wild_piece k) (pad (field_width k) v) = true.
Proof.
  intros Hk Hv. assert (E : pad (field_width k) v = [48 + v / 10 mod 10; 48 + v mod 10]) by (by destruct k; [lia|]).
  rewrite E. do 6 (destruct k as [|k]; [first [lia|cbn in Hv |- *; rewrite !andb_true_r; repeat (apply andb_true_intro; split); apply Z.leb_le; dlia]|]). lia.
Qed.

(** Values that agree on the fields before [j]. *)
Definition agree (j : nat) (vs ws : list Z) : Prop := forall k, (k < j)%nat -> nth k vs 0 = nth k ws 0.

Lemma pieces_match_name j x y ts : (1 <= j)%nat -> tokens_ok ts -> lits_ok ts -> valid_tm y ->
  agree j (tm_fields x) (tm_fields y) -> pieces_match (pieces j (tm_fields x) ts) (name_of (tm_fields y) ts) = true.
Proof.
  intros Hj Ht Hl Hy Ha. induction ts as [|t ts IH]; [done|]. change (t :: ts) with ([t] ++ ts).
  rewrite name_of_app. unfold pieces. rewrite flat_map_app. fold (pieces j (tm_fields x) ts).
  apply pieces_match_app; [|apply IH; intros u Hu; [apply Ht|apply Hl]; by right].
  destruct t as [c|k].
  - specialize (Ht c ltac:(by left)). cbn. destruct (Z.eqb_spec c 46) as [->|]; cbn; [done|]. by rewrite Z.eqb_refl.
  - specialize (Hl (Fld k) ltac:(by left)). cbn in Hl. cbn [name_of flat_map]. rewrite !app_nil_r. destruct (Nat.leb_spec j k).
    + apply wild_match; [lia|]. destruct Hy as (?&?&?&?&?).
      do 6 (destruct k as [|k]; [first [lia|cbn; lia]|]). lia.
    + rewrite (Ha k) by lia. apply pieces_match_self.
Qed.

(** ** Times that share their first fields *)

Definition dayNum (t : Z) : Z := t / USECS_PER_SEC / SECS_PER_DAY + EPOCH_DAYS.

Definition fieldsAt (t : Z) : list Z := tm_fields (gmtime (t / USECS_PER_SEC)).

Definition monthNum (n : Z) : Z := 12 * year_of n + (month_of (month_lengths (year_of n)) (n - days_before (year_of n))).1.

Definition monthStart (M : Z) : Z :=
  days_before (M / 12) + days_of_months (take (Z.to_nat (M mod 12)) (month_lengths (M / 12))).

Lemma monthStart_step y m : 0 <= m < 12 ->
  monthStart (12 * y + m + 1) = monthStart (12 * y + m) + nth (Z.to_nat m) (month_lengths y) 0 /\
  28 <= nth (Z.to_nat m) (month_lengths y) 0.
Proof.
  intros Hm. unfold monthStart. replace ((12 * y + m) / 12) with y by dlia. replace ((12 * y + m) mod 12) with m by dlia.
  destruct (Z.eq_dec m 11) as [->|N].
  - replace (12 * y + 11 + 1) with ((y + 1) * 12) by lia. rewrite Z.div_mul, Z.mod_mul, days_before_step by lia.
    change (Z.to_nat 11) with 11%nat. change (Z.to_nat 0) with 0%nat. unfold days_of_months, month_lengths.
    cbn [take nth fold_right]. destruct (leap y); lia.
  - replace ((12 * y + m + 1) / 12) with y by dlia. replace ((12 * y + m + 1) mod 12) with (m + 1) by dlia.
    replace (Z.to_nat (m + 1)) with (S (Z.to_nat m)) by lia. assert (Hm' : (Z.to_nat m < 11)%nat) by lia. revert Hm'.
    generalize (Z.to_nat m). intros k Hk. unfold days_of_months, month_lengths.
    do 11 (destruct k as [|k]; [cbn [take nth fold_right]; destruct (leap y); lia|]). lia.
Qed.

Lemma monthStart_succ M : monthStart M + 28 <= monthStart (M + 1).
Proof.
  destruct (monthStart_step (M / 12) (M mod 12)) as [H1 H2]; [apply Z.mod_pos_bound; lia|].
  replace (12 * (M / 12) + M mod 12) with M in H1 by (pose proof (Z.div_mod M 12); lia). lia.
Qed.

Lemma monthStart_mono M M' : M <= M' -> monthStart M <= monthStart M'.
Proof.
  intros H. replace M' with (M + (M' - M)) by lia. generalize (M' - M) (Z.le_0_sub M M').
  intros k [_ Hk]. specialize (Hk H). revert k Hk. apply natlike_ind; [by rewrite Z.add_0_r|].
  intros k Hk IH. rewrite <- Z.add_1_r, Z.add_assoc. pose proof (monthStart_succ (M + k)). lia.
Qed.

Lemma monthNum_spec n : monthStart (monthNum n) <= n < monthStart (monthNum n + 1).
Proof.
  unfold monthNum. pose proof (year_of_spec n) as Hy. pose proof (days_of_year (year_of n)) as Hd.
  destruct (month_of _ _) as [m r] eqn:E. cbn [fst].
  destruct (month_of_spec (month_lengths (year_of n)) (n - days_before (year_of n)) m r ltac:(lia) E) as (H1 & H2 & H3).
  change (zlen _) with 12 in H1. destruct (monthStart_step (year_of n) m H1) as [-> _]. unfold monthStart.
  replace ((12 * year_of n + m) / 12) with (year_of n) by dlia. replace ((12 * year_of n + m) mod 12) with m by dlia. lia.
Qed.

(** Two intervals with the same starts: consecutive, at most. *)
Lemma next_interval (start num : Z -> Z) len n n' :
  (forall M M', M <= M' -> start M <= start M') -> (forall M, start M + len <= start (M + 1)) ->
  (forall n, start (num n) <= n < start (num n + 1)) -> n <= n' <= n + len -> num n <= num n' <= num n + 1.
Proof.
  intros Hm Hs Hn H. pose proof (Hn n). pose proof (Hn n'). split.
  - destruct (Z.le_gt_cases (num n) (num n')) as [|C]; [done|]. pose proof (Hm (num n' + 1) (num n)). lia.
  - destruct (Z.le_gt_cases (num n') (num n + 1)) as [|C]; [done|].
    pose proof (Hm (num n + 1 + 1) (num n')). pose proof (Hs (num n + 1)). lia.
Qed.

Lemma months_near n n' : n <= n' <= n + 28 -> monthNum n <= monthNum n' <= monthNum n + 1.
Proof. apply (next_interval monthStart monthNum); [apply monthStart_mono|apply monthStart_succ|apply monthNum_spec]. Qed.

Lemma years_near n n' : n <= n' <= n + 365 -> year_of n <= year_of n' <= year_of n + 1.
Proof.
  apply (next_interval days_before year_of); [apply days_before_mono| |apply year_of_spec].
  intros y. rewrite days_before_step. destruct (leap y); lia.
Qed.

Lemma monthNum_mono n n' : n <= n' -> monthNum n <= monthNum n'.
Proof.
  intros H. destruct (Z.le_gt_cases (monthNum n) (monthNum n')) as [|C]; [done|].
  pose proof (monthNum_spec n). pose proof (monthNum_spec n'). pose proof (monthStart_mono (monthNum n' + 1) (monthNum n)). lia.
Qed.

(** Equal days, months or years are equal fields. *)
Lemma fieldsAt_cases t : exists m d rest, fieldsAt t = [year_of (dayNum t); m + 1; d + 1] ++ rest /\
  month_of (month_lengths (year_of (dayNum t))) (dayNum t - days_before (year_of (dayNum t))) = (m, d) /\ 0 <= m < 12.
Proof.
  unfold fieldsAt, tm_fields, gmtime. fold (dayNum t). destruct (month_of _ _) as [m d] eqn:E. exists m, d.
  destruct (gmtime_day (t / USECS_PER_SEC) m d E) as (? & _). eexists. split; [|done]. cbn. do 2 f_equal. lia.
Qed.

Lemma agree_year t t' : year_of (dayNum t) = year_of (dayNum t') -> agree 1 (fieldsAt t) (fieldsAt t').
Proof.
  intros E k Hk. destruct (fieldsAt_cases t) as (? & ? & ? & -> & _), (fieldsAt_cases t') as (? & ? & ? & -> & _).
  destruct k; [done|lia].
Qed.

Lemma agree_month t t' : monthNum (dayNum t) = monthNum (dayNum t') -> agree 2 (fieldsAt t) (fieldsAt t').
Proof.
  intros E k Hk. destruct (fieldsAt_cases t) as (m & ? & ? & -> & Em & ?), (fieldsAt_cases t') as (m' & ? & ? & -> & Em' & ?).
  unfold monthNum in E. rewrite Em, Em' in E. cbn [fst] in E. destruct k as [|[|k]]; cbn; lia.
Qed.

Lemma agree_day t t' : dayNum t = dayNum t' -> agree 3 (fieldsAt t) (fieldsAt t').
Proof.
  intros E k Hk. destruct (fieldsAt_cases t) as (m & ? & ? & -> & Em & ?), (fieldsAt_cases t') as (m' & ? & ? & -> & Em' & ?).
  rewrite E in Em |- *. rewrite Em in Em'. injection Em' as <- <-. do 3 (destruct k as [|k]; [done|]). lia.
Qed.

(** One of the times the search looks at agrees with a time of the period on
    the fields that are not replaced. *)
Lemma visited_agree t1 t2 t : t1 <= t <= t2 ->
  exists ft, visited t1 t2 (365 * USECS_PER_DAY) ft /\ t1 <= ft <= t2 /\ agree (firstWild (t2 - t1)) (fieldsAt ft) (fieldsAt t).
Proof.
  intros Ht. assert (Hday : forall a b k, a <= b <= a + k * USECS_PER_DAY -> dayNum a <= dayNum b <= dayNum a + k).
  { intros a b k Hab. unfold dayNum. rewrite !Z.div_div by done. change (USECS_PER_SEC * SECS_PER_DAY) with USECS_PER_DAY.
    assert (a / USECS_PER_DAY <= b / USECS_PER_DAY) by (apply Z.div_le_mono; [done|lia]).
    assert (b / USECS_PER_DAY <= (a + k * USECS_PER_DAY) / USECS_PER_DAY) by (apply Z.div_le_mono; [done|lia]).
    rewrite Z.div_add in * by done. lia. }
  assert (V1 : visited t1 t2 (365 * USECS_PER_DAY) t1) by (right; exists 0; lia).
  assert (V2 : visited t1 t2 (365 * USECS_PER_DAY) t2) by by left.
  unfold firstWild. destruct (Z.ltb_spec (28 * USECS_PER_DAY) (t2 - t1)) as [L|L].
  - set (D := 365 * USECS_PER_DAY) in *. assert (HD : 0 < D) by done. set (a := t1 + (t - t1) / D * D).
    pose proof (Z.div_mod (t - t1) D ltac:(lia)). pose proof (Z.mod_pos_bound (t - t1) D HD).
    assert (Hk : 0 <= (t - t1) / D) by (apply Z.div_pos; lia).
    assert (Ha : t1 <= a <= t /\ t < a + D) by (subst a; nia). set (b := Z.min (a + D) t2).
    assert (Va : visited t1 t2 D a) by (right; exists ((t - t1) / D); subst a; lia).
    assert (Vb : visited t1 t2 D b).
    { subst b. destruct (Z.le_gt_cases (a + D) t2); [|left; lia]. right. exists ((t - t1) / D + 1). subst a. lia. }
    assert (Hy : year_of (dayNum a) <= year_of (dayNum b) <= year_of (dayNum a) + 1).
    { apply years_near, Hday. subst b D. lia. }
    assert (Hy1 : year_of (dayNum a) <= year_of (dayNum t) <= year_of (dayNum b)).
    { split; apply year_of_mono; [apply (Hday a t 365)|apply (Hday t b 365)]; subst b D; lia. }
    destruct (Z.eq_dec (year_of (dayNum a)) (year_of (dayNum t))) as [E|N].
    + exists a. split; [done|]. split; [lia|]. by apply agree_year.
    + exists b. split; [done|]. split; [lia|]. apply agree_year. lia.
  - destruct (Z.ltb_spec USECS_PER_DAY (t2 - t1)) as [L1|L1].
    + pose proof (Hday t1 t2 28 ltac:(lia)) as H12. pose proof (months_near _ _ H12).
      pose proof (monthNum_mono (dayNum t1) (dayNum t) ltac:(apply (Hday t1 t 28); lia)).
      pose proof (monthNum_mono (dayNum t) (dayNum t2) ltac:(apply (Hday t t2 28); lia)).
      destruct (Z.eq_dec (monthNum (dayNum t1)) (monthNum (dayNum t))) as [E|N].
      * exists t1. split; [done|]. split; [lia|]. by apply agree_month.
      * exists t2. split; [done|]. split; [lia|]. apply agree_month. lia.
    + pose proof (Hday t1 t2 1 ltac:(lia)). pose proof (Hday t1 t 1 ltac:(lia)). pose proof (Hday t t2 1 ltac:(lia)).
      destruct (Z.eq_dec (dayNum t1) (dayNum t)) as [E|N].
      * exists t1. split; [done|]. split; [lia|]. by apply agree_day.
      * exists t2. split; [done|]. split; [lia|]. apply agree_day. lia.
Qed.

(** ** The search *)

Section Complete.

Context {fs : Type} `{BasicRegex fs}.

Abbreviation formatTime := (format localeText localSecs).

Context (dir : path) (ts : list token) (Hdir : dir <> bytes_of ".") (Hpct : PCT ∉ dir) (Hord : in_order 0 ts) (Htok : tokens_ok ts).

Definition dirName : path := if decide (dir = []) then bytes_of "." else dir.

Definition nameAt (t : Z) : path := name_of (fieldsAt t) ts.

Lemma makePath_app f : makePath dir f = makePath dir [] ++ f.
Proof.
  unfold makePath. rewrite bool_decide_eq_false_2, orb_false_r by done. destruct (Z.eqb_spec (zlen dir) 0); [done|]. by rewrite <- app_assoc.
Qed.

Lemma prefix_pct : PCT ∉ makePath dir [].
Proof.
  unfold makePath. destruct (_ || _); [by intros ?%elem_of_nil|]. rewrite elem_of_app. intros [|]; [done|].
  by apply (bool_decide_unpack (PCT ∉ [pathSeparator] ++ [])).
Qed.

Lemma path_render : makePath dir (render ts) = render (map Lit (makePath dir []) ++ ts).
Proof. by rewrite makePath_app, render_app, render_lits. Qed.

Lemma path_order : in_order 0 (map Lit (makePath dir []) ++ ts).
Proof. apply in_order_lits; [apply prefix_pct|done]. Qed.

Lemma format_path t : year_ok t -> formatTime t (makePath dir (render ts)) = makePath dir (nameAt t).
Proof.
  intros Ht. rewrite path_render, format_name by (try done; apply path_order).
  by rewrite name_of_app, name_of_lits, (makePath_app (nameAt t)).
Qed.

Lemma nameAt_sep t : pathSeparator ∉ nameAt t.
Proof.
  intros Hin. apply list_elem_of_In, in_flat_map in Hin as (u & Hu & Hc). apply list_elem_of_In in Hu. destruct u as [c|k].
  - destruct Hc as [->|[]]. by specialize (Htok _ Hu).
  - apply list_elem_of_In, pad_digits in Hc. unfold pathSeparator in Hc. lia.
Qed.

Lemma nameAt_nul t : 0 ∉ nameAt t.
Proof.
  intros Hin. apply list_elem_of_In, in_flat_map in Hin as (u & Hu & Hc). apply list_elem_of_In in Hu. destruct u as [c|k].
  - destruct Hc as [->|[]]. by specialize (Htok _ Hu).
  - apply list_elem_of_In, pad_digits in Hc. lia.
Qed.

Lemma render_sep : pathSeparator ∉ render ts.
Proof.
  intros Hin. apply list_elem_of_In, in_flat_map in Hin as (u & Hu & Hc). apply list_elem_of_In in Hu. destruct u as [c|k].
  - destruct Hc as [->|[]]. by specialize (Htok _ Hu).
  - destruct Hc as [|[Hc|[]]]; [done|]. do 6 (destruct k as [|k]; [done|]). by destruct k.
Qed.

Lemma dir_at t : year_ok t -> getDirPortion (formatTime t (makePath dir (render ts))) = dirName.
Proof. intros Ht. rewrite format_path by done. apply makePath_portions; [done|apply nameAt_sep]. Qed.

Lemma dirDelta_year t : year_ok t -> dirDelta (makePath dir (render ts)) t = 365 * USECS_PER_DAY.
Proof.
  intros Ht. unfold dirDelta. destruct (makePath_portions dir (render ts) Hdir render_sep) as [_ ->]. fold dirName.
  rewrite bool_decide_eq_true_2; [done|]. assert (Hd : PCT ∉ dirName).
  { unfold dirName. destruct (decide (dir = [])); [|done]. by apply (bool_decide_unpack (PCT ∉ bytes_of ".")). }
  rewrite <- (render_lits dirName) at 1. rewrite format_name; [by rewrite name_of_lits|done|].
  rewrite <- (app_nil_r (map Lit dirName)). by apply in_order_lits.
Qed.

(** Fields before the replaced ones stay in order. *)
Lemma wild_order j : forall us k, in_order k us -> in_order (Nat.min k j) (wild (Nat.leb j) us).
Proof.
  induction us as [|[c|i] us IH]; intros k; cbn [in_order wild flat_map]; [done|intros [? ?]; split; [done|by apply IH]|].
  intros (-> & Hk & Hu). specialize (IH (S k) Hu). destruct (Nat.leb_spec j k).
  - apply in_order_lits; [apply wild_text_pct|]. by replace (Nat.min k j) with (Nat.min (S k) j) by lia.
  - cbn. split; [lia|]. split; [lia|]. by replace (S (Nat.min k j)) with (Nat.min (S k) j) by lia.
Qed.

Lemma fileRegex_path delta t : year_ok t ->
  fileRegex (makePath dir (render ts)) delta t =
  Some (bytes_of "^" ++ concat (map piece_text (pieces (firstWild delta) (fieldsAt t) ts)) ++ bytes_of "$").
Proof.
  intros Ht. unfold fileRegex. destruct (makePath_portions dir (render ts) Hdir render_sep) as [-> _].
  set (us := map Lit (bytes_of "^") ++ ts ++ map Lit (bytes_of "$")).
  assert (Hus : in_order 0 us).
  { apply in_order_lits; [by apply (bool_decide_unpack (PCT ∉ bytes_of "^"))|]. by apply in_order_snoc. }
  assert (E : bytes_of "^" ++ render ts ++ bytes_of "$" = render us) by (subst us; by rewrite !render_app).
  rewrite E, replaceAll_fields by by eapply in_order_ok. f_equal. set (j := firstWild delta).
  pose proof (wild_order j us 0 Hus) as Ho. rewrite format_name by done. fold (fieldsAt t). rewrite pieces_text by done.
  subst us. by rewrite !wild_app, !wild_lits, !name_of_app, !name_of_lits.
Qed.

(** At every time of the period the search succeeds and finds the names of
    the directory that agree. *)
Context (t1 t2 : Z) (H12 : t1 <= t2) (Hy1 : year_ok t1) (Hy2 : year_ok t2).

Lemma searchDir_total t1p t2p d re names : (forall n, re n <> None) -> forall found, exists r, searchDir t1p t2p d re names found = inr r.
Proof.
  intros Hre. induction names as [|n names IH]; intros found; cbn [searchDir]; [by eexists|].
  destruct (re n) as [[|]|] eqn:E; [apply IH..|by destruct (Hre n)].
Qed.

Lemma matchAt_total w names ft found : sys_readdir dirName w = inr names -> t1 <= ft <= t2 ->
  exists r, matchAt (makePath dir (render ts)) t1 t2 ft w found = inr r.
Proof.
  intros Hr Hft. pose proof (year_ok_between t1 t2 ft Hy1 Hy2 Hft) as Hy. unfold matchAt. rewrite dir_at, Hr, fileRegex_path by done.
  destruct (regcomp_pieces _ (pieces_ok (firstWild (t2 - t1)) (fieldsAt ft) ts Htok)) as (re & -> & Hre).
  apply searchDir_total. intros n. by rewrite Hre.
Qed.

Lemma foundAt_name w names ft t : sys_readdir dirName w = inr names -> t1 <= ft <= t2 -> t1 <= t <= t2 ->
  agree (firstWild (t2 - t1)) (fieldsAt ft) (fieldsAt t) -> nameAt t ∈ names ->
  inPeriod (makePath dir (nameAt t1)) (makePath dir (nameAt t2)) (makePath dir (nameAt t)) = true ->
  foundAt (makePath dir (render ts)) t1 t2 w ft (makePath dir (nameAt t)).
Proof.
  intros Hr Hft Ht Ha Hn Hp. pose proof (year_ok_between t1 t2 ft Hy1 Hy2 Hft) as Hyf. unfold foundAt.
  rewrite dir_at, fileRegex_path, !format_path by done.
  destruct (regcomp_pieces _ (pieces_ok (firstWild (t2 - t1)) (fieldsAt ft) ts Htok)) as (re & Hc & Hre).
  exists names, (bytes_of "^" ++ concat (map piece_text (pieces (firstWild (t2 - t1)) (fieldsAt ft) ts)) ++ bytes_of "$"), re, (nameAt t).
  split_and!; try done.
  - rewrite Hre. f_equal. apply pieces_match_name; [unfold firstWild; repeat case_match; lia|done|by eapply in_order_ok|apply gmtime_valid|done].
  - unfold makePath, dirName. destruct (decide (dir = [])) as [->|]; [done|]. by rewrite bool_decide_eq_false_2.
Qed.

Lemma path_in_period t : t1 <= t <= t2 ->
  lexlt (makePath dir (nameAt t)) (makePath dir (nameAt t2)) = true \/ nameAt t1 = nameAt t2 ->
  inPeriod (makePath dir (nameAt t1)) (makePath dir (nameAt t2)) (makePath dir (nameAt t)) = true.
Proof.
  intros Ht Hlt. pose proof (year_ok_between t1 t2 t Hy1 Hy2 Ht) as Hy.
  assert (Hle : forall a b, year_ok a -> year_ok b -> a <= b -> lexlt (makePath dir (nameAt b)) (makePath dir (nameAt a)) = false).
  { intros a b Ha Hb Hab. rewrite <- !format_path, path_render by done. apply names_le; [done|done|apply path_order|done]. }
  unfold inPeriod. rewrite (Hle t1 t) by (try done; lia). cbn [negb andb]. destruct Hlt as [->|E]; [done|].
  rewrite E, bool_decide_eq_true_2, (Hle t t2) by (try done; lia). by rewrite orb_true_r.
Qed.

Lemma matchFiles_search w names : sys_readdir dirName w = inr names ->
  exists l, matchFiles (makePath dir (render ts)) t1 t2 w = Some (inr l) /\ strictly_ascending lexlt l /\
  (forall m, m ∈ l <-> exists ft, visited t1 t2 (365 * USECS_PER_DAY) ft /\ foundAt (makePath dir (render ts)) t1 t2 w ft m).
Proof.
  intros Hr. unfold matchFiles.
  assert (Ec : checkPathFormat (makePath dir (render ts)) t1 t2 = None) by (rewrite path_render; apply checkPathFormat_ok, path_order).
  rewrite Ec, dirDelta_year by done.
  destruct (matchLoop_spec (makePath dir (render ts)) t1 t2 (365 * USECS_PER_DAY) w ltac:(done)
    (matchFuel t1 t2 (365 * USECS_PER_DAY)) t1 [] ltac:(constructor) H12) as (r & -> & Hl).
  { unfold matchFuel, USECS_PER_DAY, SECS_PER_DAY, USECS_PER_SEC. dlia. }
  destruct r as [e|l].
  - exfalso. destruct Hl as (f & ft & Hft & E).
    assert (Hb : t1 <= ft <= t2).
    { destruct Hft as [->|[->|(k & ? & -> & ?)]]; [lia|lia|]. unfold USECS_PER_DAY, SECS_PER_DAY, USECS_PER_SEC in *. lia. }
    destruct (matchAt_total w names ft f Hr Hb) as [r Er]. congruence.
  - exists l. split; [done|]. destruct Hl as [H1 H2]. split; [done|]. intros m. rewrite H2. split; [|by right].
    intros [?%elem_of_nil|]; done.
Qed.

End Complete.

(** ** Properties *)

(** C19: the search for the files of a period is exact, for names of literal
    characters and the date and time fields in order, and a directory without
    fields.  It returns, in order and each once, only files of the directory
    whose names are not before that of the start of the period and before
    that of its end; and every file of the directory whose name is that of a
    time of the period is among them, although the search looks only once a
    year and leaves as wild cards the fields that can change between. *)
Theorem search_complete {fs : Type} `{BasicRegex fs} dir ts t1 t2 w names :
  dir <> bytes_of "." -> PCT ∉ dir -> in_order 0 ts -> tokens_ok ts -> year_ok t1 -> year_ok t2 -> t1 <= t2 ->
  sys_readdir (dirName dir) w = inr names ->
  let file t := makePath dir (nameAt ts t) in
  (forall t, year_ok t -> format localeText localSecs t (makePath dir (render ts)) = file t) /\
  exists l, matchFiles (makePath dir (render ts)) t1 t2 w = Some (inr l) /\ strictly_ascending lexlt l /\
    (forall m, m ∈ l -> exists n, n ∈ names /\ m = makePath dir n /\ inPeriod (file t1) (file t2) m = true) /\
    (forall t, t1 <= t <= t2 -> nameAt ts t ∈ names -> lexlt (file t) (file t2) = true \/ nameAt ts t1 = nameAt ts t2 -> file t ∈ l).
Proof.
  intros Hd Hp Ho Ht Y1 Y2 H12 Hr file. split; [intros t Yt; by apply format_path|].
  destruct (matchFiles_search dir ts Hd Hp Ho Ht t1 t2 H12 Y1 Y2 w names Hr) as (l & El & Hl & Hm). exists l.
  split; [done|]. split; [done|]. split.
  - intros m Hin. apply Hm in Hin as (ft & Hv & (names' & fr & re & n & Hr' & _ & _ & Hn & _ & -> & Hper)).
    assert (Hft : t1 <= ft <= t2).
    { destruct Hv as [->|(k & ? & -> & ?)]; [lia|]. unfold USECS_PER_DAY, SECS_PER_DAY, USECS_PER_SEC in *. lia. }
    rewrite (dir_at dir ts) in Hr', Hper |- * by (try done; by apply (year_ok_between t1 t2)).
    rewrite !(format_path dir ts) in Hper by done. exists n.
    assert (Em : makePath (dirName dir) n = makePath dir n).
    { unfold makePath, dirName. destruct (decide (dir = [])) as [->|]; [done|]. by rewrite bool_decide_eq_false_2. }
    rewrite Em in *. rewrite Hr in Hr'. injection Hr' as <-. done.
  - intros t Ht' Hn Hlt. apply Hm. destruct (visited_agree t1 t2 t Ht') as (ft & Hv & Hft & Ha). exists ft. split; [done|].
    by apply (foundAt_name dir ts Hd Hp Ho Ht t1 t2 Y1 Y2 w names ft t); [..|apply path_in_period].
Qed.

Lemma search_complete_witness :
  let ts := map Lit (bytes_of "a_") ++ [Fld 0; Fld 1; Fld 2] ++ map Lit (bytes_of ".dat") in
  let w := mkMemfs [(bytes_of "data", Dir); (bytes_of "data/a_20200301.dat", File [1]); (bytes_of "data/a_20200229.dat", File [2]);
                    (bytes_of "data/a_20200401.dat", File [3]); (bytes_of "data/b_20200301.dat", File [4])] [] 3 in
  matchFiles (bytes_of "data/a_%Y%m%d.dat") 1582979696000000 1583200000000000 w =
    Some (inr [bytes_of "data/a_20200229.dat"; bytes_of "data/a_20200301.dat"]) /\
  exists l, matchFiles (makePath (bytes_of "data") (render ts)) 1582979696000000 1583200000000000 w = Some (inr l) /\
    makePath (bytes_of "data") (nameAt ts 1583020800000000) ∈ l.
Proof.
  intros ts w. split; [vm_compute; reflexivity|].
  refine (let '(ex_intro _ l (conj E (conj _ (conj _ M)))) :=
    proj2 (search_complete (bytes_of "data") ts 1582979696000000 1583200000000000 w
      [bytes_of "."; bytes_of "a_20200301.dat"; bytes_of "a_20200229.dat"; bytes_of "a_20200401.dat"; bytes_of "b_20200301.dat"] _ _ _ _ _ _ _ _)
    in ex_intro _ l (conj E (M 1583020800000000 _ _ _))).
  - discriminate.
  - apply (bool_decide_unpack _). vm_compute. exact I.
  - subst ts. vm_compute. repeat split; first [lia | discriminate].
  - intros c Hc. subst ts. cbn in Hc. repeat (apply elem_of_cons in Hc as [[= ->]|Hc]; [vm_compute; reflexivity|]).
    repeat (apply elem_of_cons in Hc as [?|Hc]; [first [discriminate|simplify_eq; vm_compute; reflexivity]|]). by apply elem_of_nil in Hc.
  - split; [reflexivity|vm_compute; split; discriminate].
  - split; [reflexivity|vm_compute; split; discriminate].
  - lia.
  - vm_compute. reflexivity.
  - lia.
  - apply (bool_decide_unpack _). vm_compute. exact I.
  - left. vm_compute. reflexivity.
Defined.

(** Names with the directory [./] are not found: the names of the directory
    [.] are compared without it. *)
Example dot_directory_not_found :
  let w := mkMemfs [(bytes_of "a_20200301.dat", File [1])] [] 3 in
  matchFiles (bytes_of "a_%Y%m%d.dat") 1582979696000000 1583200000000000 w = Some (inr [bytes_of "a_20200301.dat"]) /\
  matchFiles (bytes_of "./a_%Y%m%d.dat") 1582979696000000 1583200000000000 w = Some (inr []).
Proof. split; vm_compute; reflexivity. Qed.

(** [checkPathFormat] accepts patterns whose names do not sort by time: a day
    without its month. *)
Example unsorted_pattern_accepted :
  let p := bytes_of "a_%Y_%d" in
  checkPathFormat (fs := memfs) p 1580428800000000 1580515200000000 = None /\
  lexlt (format localeText localSecs 1580515200000000 p) (format localeText localSecs 1580428800000000 p) = true.
Proof. split; vm_compute; reflexivity. Qed.

(** The search throws when a directory of the period does not exist. *)
Example missing_directory_throws :
  let w := mkMemfs [(bytes_of "20200301", Dir); (bytes_of "20200301/a_12.dat", File [1])] [] 3 in
  matchFiles (bytes_of "%Y%m%d/a_%H.dat") 1583020800000000 1583107199000000 w = Some (inr [bytes_of "20200301/a_12.dat"]) /\
  matchFiles (bytes_of "%Y%m%d/a_%H.dat") 1582934400000000 1583107199000000 w = Some (inl (IOExc ENOENT)).
Proof. split; vm_compute; reflexivity. Qed.
