(* ===== verification/FileSet.v ===== *)
(** * File sets: the files of an archive.

    [src/src/nidas/util/FileSet.cc] and [FileSet.h]: the creation of files
    named by time, with their directories, the choice of the files to read
    for a period, and reading through them one after the other.
    [src/src/nidas/core/FileSet.cc] makes this class the channel of an
    archive.  A method returns an exception or its result, and the new states
    of the object and of the file system; [None] is recursion without end. *)

From Stdlib Require Import String.
From S2P Require Import Prelude StringUtil UTime SampleSets Files FileNames FileSearch IOStream.

Local Open Scope Z_scope.

(** ** State

    The iterator is the index of an element of [_fileset]; [None] is its
    end. *)
Record FileSet := mkFileSet {
  _newFile : bool;
  _lastErrno : Z;
  _fd : Z;
  _keepopening : bool;
  _dir : path;
  _filename : path;
  _currname : path;
  _fullpath : path;
  _startTime : Z;
  _endTime : Z;
  _fileset : list path;
  _fileiter : option nat;
  _initialized : bool;
  _fileLength : Z
}.

Definition newFileSet : FileSet :=
  mkFileSet false 0 (-1) false [] [] [] [] 0 0 [] None false LONG_LONG_MAX.

(** The copy constructor. *)
Definition copyFileSet (x : FileSet) : FileSet :=
  mkFileSet false 0 (-1) false (_dir x) (_filename x) [] (_fullpath x) (_startTime x) (_endTime x)
    (_fileset x) (match _fileset x with [] => None | _ => Some O end) (_initialized x) (_fileLength x).

Definition with_path (dir file : path) (s : FileSet) : FileSet :=
  mkFileSet (_newFile s) (_lastErrno s) (_fd s) (_keepopening s) dir file (_currname s) (makePath dir file)
    (_startTime s) (_endTime s) (_fileset s) (_fileiter s) (_initialized s) (_fileLength s).

Definition setDir (val : path) (s : FileSet) : FileSet := with_path val (_filename s) s.
Definition setFileName (val : path) (s : FileSet) : FileSet := with_path (_dir s) val s.

Definition with_files (fileset : list path) (iter : option nat) (init : bool) (s : FileSet) : FileSet :=
  mkFileSet (_newFile s) (_lastErrno s) (_fd s) (_keepopening s) (_dir s) (_filename s) (_currname s) (_fullpath s)
    (_startTime s) (_endTime s) fileset iter init (_fileLength s).

Definition addFileName (val : path) (s : FileSet) : FileSet :=
  with_files (_fileset s ++ [val]) (_fileiter s) (_initialized s) s.

Definition setFileLengthSecs (val : Z) (s : FileSet) : FileSet :=
  mkFileSet (_newFile s) (_lastErrno s) (_fd s) (_keepopening s) (_dir s) (_filename s) (_currname s) (_fullpath s)
    (_startTime s) (_endTime s) (_fileset s) (_fileiter s) (_initialized s)
    (if val <=? 0 then LONG_LONG_MAX else val * USECS_PER_SEC).

Definition getFileLengthSecs (s : FileSet) : Z :=
  if _fileLength s =? LONG_LONG_MAX then 0 else s32 (Z.quot (_fileLength s) USECS_PER_SEC).

Definition setTimes (start stop : Z) (s : FileSet) : FileSet :=
  mkFileSet (_newFile s) (_lastErrno s) (_fd s) (_keepopening s) (_dir s) (_filename s) (_currname s) (_fullpath s)
    start stop (_fileset s) (_fileiter s) (_initialized s) (_fileLength s).

Definition setKeepOpening (keep : bool) (s : FileSet) : FileSet :=
  mkFileSet (_newFile s) (_lastErrno s) (_fd s) keep (_dir s) (_filename s) (_currname s) (_fullpath s)
    (_startTime s) (_endTime s) (_fileset s) (_fileiter s) (_initialized s) (_fileLength s).

(** The members a file operation changes. *)
Definition with_file (new : bool) (err fd : Z) (curr : path) (s : FileSet) : FileSet :=
  mkFileSet new err fd (_keepopening s) (_dir s) (_filename s) curr (_fullpath s)
    (_startTime s) (_endTime s) (_fileset s) (_fileiter s) (_initialized s) (_fileLength s).

Section Operations.

Context {fs : Type} `{Posix fs}.

Abbreviation formatTime := (format localeText localSecs).

(** ** Opening and closing *)

Definition closeFile (s : FileSet) (w : fs) : option exc * FileSet * fs :=
  if 0 <=? _fd s then
    let s' := with_file (_newFile s) (_lastErrno s) (-1) (_currname s) s in
    match sys_close (_fd s) w with
    | (Some e, w) => (Some (IOExc e), s', w)
    | (None, w) => (None, s', w)
    end
  else (None, s, w).

(** [operator=], of a file set that is not the same object. *)
Definition assignFileSet (s rhs : FileSet) (w : fs) : option exc * FileSet * fs :=
  match closeFile s w with
  | (Some x, s, w) => (Some x, s, w)
  | (None, s, w) =>
      (None, mkFileSet false 0 (_fd s) (_keepopening rhs) (_dir rhs) (_filename rhs) [] (_fullpath rhs) (_startTime rhs) (_endTime rhs)
               (_fileset rhs) (match _fileset rhs with [] => None | _ => Some O end) (_initialized rhs) (_fileLength rhs), w)
  end.

Definition getFileSize (s : FileSet) (w : fs) : (exc + Z) * FileSet :=
  if 0 <=? _fd s then
    match sys_fstat (_fd s) w with
    | inl e => (inl (IOExc e), with_file (_newFile s) e (_fd s) (_currname s) s)
    | inr n => (inr n, s)
    end
  else (inr 0, s).

(** [createDirectory(name,mode)] *)
Fixpoint createDirectory (fuel : nat) (name : path) (w : fs) : option (option exc * fs) :=
  match fuel with
  | O => None
  | S fuel =>
      if zlen name =? 0 then Some (Some (IOExc ENOENT), w)
      else
        match sys_stat name w with
        | inr isdir => Some (if isdir then None else Some (IOExc ENOTDIR), w)
        | inl e =>
            if negb (e =? ENOENT) then Some (Some (IOExc e), w)
            else
              let tmpname := getDirPortion name in
              let made := if bool_decide (tmpname = bytes_of ".") then Some (None, w) else createDirectory fuel tmpname w in
              match made with
              | None => None
              | Some (Some x, w) => Some (Some x, w)
              | Some (None, w) =>
                  match sys_mkdir name w with
                  | (None, w) => Some (None, w)
                  | (Some e, w) =>
                      if negb (e =? EEXIST) then Some (Some (IOExc e), w)
                      else
                        match sys_stat name w with
                        | inl e => Some (Some (IOExc e), w)
                        | inr isdir => Some (if isdir then None else Some (IOExc ENOTDIR), w)
                        end
                  end
              end
        end
  end.

Definition openFileForWriting (filename : path) (s : FileSet) (w : fs) : option Z * FileSet * fs :=
  match sys_create filename w with
  | (inl e, w) => (Some e, with_file (_newFile s) e (-1) (_currname s) s, w)
  | (inr fd, w) => (None, with_file (_newFile s) 0 fd (_currname s) s, w)
  end.

Definition excErrno (x : exc) : Z := match x with IOExc e => e | _ => 0 end.

(** The time a file is named by, and that of the next file. *)
Definition nameTime (s : FileSet) (ftime : Z) (exact : bool) : Z :=
  if negb exact && (_fileLength s <? LONG_LONG_MAX) then earlier ftime (_fileLength s) else ftime.

Definition nextFileTime (s : FileSet) (ntime : Z) : Z :=
  if _fileLength s <? LONG_LONG_MAX then earlier (ntime + _fileLength s) (_fileLength s) else LONG_LONG_MAX.

(** [createFile(ftime,exact)]; the times are not bounded here, where a [UTime]
    has 64 bits: the theorems are about times of the years 1000 to 9999. *)
Fixpoint createFile (fuel : nat) (ftime : Z) (exact : bool) (s : FileSet) (w : fs) : option ((exc + Z) * FileSet * fs) :=
  match fuel with
  | O => None
  | S fuel =>
      match closeFile s w with
      | (Some x, s, w) => Some (inl x, s, w)
      | (None, s, w) =>
          let ntime := nameTime s ftime exact in
          let s := with_file (_newFile s) (_lastErrno s) (_fd s) (formatTime ntime (_fullpath s)) s in
          let tmpname := getDirPortion (_currname s) in
          let made := if bool_decide (tmpname = bytes_of ".") then Some (None, w)
                      else createDirectory (S (length tmpname)) tmpname w in
          match made with
          | None => None
          | Some (Some x, w) => Some (inl x, with_file (_newFile s) (excErrno x) (_fd s) (_currname s) s, w)
          | Some (None, w) =>
              match openFileForWriting (_currname s) s w with
              | (Some e, s, w) =>
                  if (e =? EEXIST) && contains [PCT] (_fullpath s) then
                    if negb exact then createFile fuel ftime true s w
                    else createFile fuel (ftime + USECS_PER_SEC) true s w
                  else Some (inl (IOExc e), s, w)
              | (None, s, w) =>
                  Some (inr (nextFileTime s ntime), with_file true (_lastErrno s) (_fd s) (_currname s) s, w)
              end
          end
      end
  end.

(** ** The files to read *)

(** The start of the search for an earlier file, and how far it goes back at
    a time. *)
Definition lookBackStep (s : FileSet) : Z := if USECS_PER_DAY <? _fileLength s then USECS_PER_DAY else _fileLength s.

Definition lookBackStart (s : FileSet) : Z :=
  if USECS_PER_DAY <? _fileLength s then _startTime s - USECS_PER_DAY else _startTime s - Z.rem (_startTime s) (_fileLength s).

(** The loop that backs up until files are found. *)
Fixpoint lookBack (n : nat) (s : FileSet) (t1 : Z) (w : fs) : option (exc + list path) :=
  match n with
  | O => Some (inr [])
  | S n =>
      match matchFiles (_fullpath s) t1 (_startTime s) w with
      | Some (inr []) => lookBack n s (t1 - lookBackStep s) w
      | r => r
      end
  end.

(** The file set with the file found before it, if there is one. *)
Definition withEarlier (fileset files : list path) : list path :=
  match last files with
  | None => fileset
  | Some fl => if match head fileset with None => true | Some firstFile => lexlt fl firstFile end then fl :: fileset else fileset
  end.

Definition initialize (s : FileSet) (w : fs) : option (option exc * FileSet) :=
  if 0 <? zlen (_fullpath s) then
    match matchFiles (_fullpath s) (_startTime s) (_endTime s) w with
    | None => None
    | Some (inl x) => Some (Some x, s)
    | Some (inr fileset) =>
        let t1File := formatTime (_startTime s) (_fullpath s) in
        let done fileset := Some (None, with_files fileset (if zlen fileset =? 0 then None else Some O) true
                                          (with_file (_newFile s) (_lastErrno s) (_fd s) (_fullpath s) s)) in
        if match head fileset with None => true | Some firstFile => lexlt t1File firstFile end then
          match lookBack 4 s (lookBackStart s) w with
          | None => None
          | Some (inl x) => Some (Some x, with_files fileset (_fileiter s) (_initialized s) s)
          | Some (inr files) => done (withEarlier fileset files)
          end
        else done fileset
    end
  else Some (None, with_files (_fileset s) (if zlen (_fileset s) =? 0 then None else Some O) true s).

(** The loop of [openNextFile]: [n] bounds the files that are left. *)
Fixpoint openLoop (n : nat) (s : FileSet) (w : fs) : option (option exc * FileSet * fs) :=
  match n with
  | O => None
  | S n =>
      match _fileiter s with
      | None => Some (Some EOFExc, s, w)
      | Some k =>
          let name := nth k (_fileset s) [] in
          let s := with_files (_fileset s) (if Nat.ltb (S k) (length (_fileset s)) then Some (S k) else None) (_initialized s)
                     (with_file (_newFile s) (_lastErrno s) (_fd s) name s) in
          if bool_decide (name = bytes_of "-") then Some (None, with_file true (_lastErrno s) 0 name s, w)
          else
            match sys_open name w with
            | (inr fd, w) => Some (None, with_file true (_lastErrno s) fd name s, w)
            | (inl e, w) =>
                let s := with_file (_newFile s) (_lastErrno s) (-1) name s in
                if negb (_keepopening s) then Some (Some (IOExc e), s, w) else openLoop n s w
            end
      end
  end.

Definition openNextFile (s : FileSet) (w : fs) : option (option exc * FileSet * fs) :=
  match (if _initialized s then Some (None, s) else initialize s w) with
  | None => None
  | Some (Some x, s) => Some (Some x, s, w)
  | Some (None, s) =>
      match closeFile s w with
      | (Some x, s, w) => Some (Some x, s, w)
      | (None, s, w) => openLoop (S (length (_fileset s))) (with_file false (_lastErrno s) (_fd s) (_currname s) s) w
      end
  end.

(** ** Reading and writing *)

Definition fs_read (count : Z) (s : FileSet) (w : fs) : option ((exc + list Z) * FileSet * fs) :=
  let s := with_file false (_lastErrno s) (_fd s) (_currname s) s in
  match (if _fd s <? 0 then openNextFile s w else Some (None, s, w)) with
  | None => None
  | Some (Some x, s, w) => Some (inl x, s, w)
  | Some (None, s, w) =>
      match sys_read (_fd s) count w with
      | (inl e, w) => Some (inl (IOExc e), s, w)
      | (inr bs, w) =>
          if zlen bs =? 0 then
            match closeFile s w with
            | (Some x, s, w) => Some (inl x, s, w)
            | (None, s, w) => Some (inr [], s, w)
            end
          else Some (inr bs, s, w)
      end
  end.

Definition fs_write (bs : list Z) (s : FileSet) (w : fs) : (exc + Z) * FileSet * fs :=
  match sys_write (_fd s) bs w with
  | (inl e, w) => (inl (IOExc e), with_file (_newFile s) e (_fd s) (_currname s) s, w)
  | (inr n, w) => (inr n, s, w)
  end.

(** [writev] writes the buffers one after the other. *)
Definition fs_writev (iov : list (list Z)) (s : FileSet) (w : fs) : (exc + Z) * FileSet * fs :=
  match sys_write (_fd s) (concat iov) w with
  | (inl e, w) => (inl (IOExc e), with_file (_newFile s) e (_fd s) (_currname s) s, w)
  | (inr n, w) => (inr n, s, w)
  end.

End Operations.

(** ** What the theorems ask of the file system

    Creation of files, in a file system without symbolic links: an attempt
    that fails changes nothing; it fails with [EEXIST] only for names that
    exist; [readdir] gives all names of files of a directory. *)
Definition file_name (f : path) : Prop := f <> [] /\ (0 ∉ f) /\ (pathSeparator ∉ f).

Class CreateFiles (fs : Type) `{Posix fs} : Prop := {
  create_fails : forall p w e w', sys_create p w = (inl e, w') -> w' = w;
  create_exists : forall p w w', sys_create p w = (inl EEXIST, w') -> exists d, sys_stat p w = inr d;
  create_new : forall p w fd w', sys_create p w = (inr fd, w') ->
    0 <= fd /\ (forall d, sys_stat p w <> inr d) /\ sys_stat p w' = inr false /\ (forall q d, sys_stat q w = inr d -> sys_stat q w' = inr d);
  readdir_names : forall d f w names b, sys_readdir d w = inr names -> file_name f ->
    sys_stat (makePath d f) w = inr b -> f ∈ names
}.

(** Reading: [entry] is what there is at a path, and [unread] what an open
    file has left.  Reads of a regular file give as much as is asked for, as
    far as there is; a path at which there is nothing cannot be opened.  Of
    directories nothing is said. *)
Class ReadFiles (fs : Type) `{Posix fs} := {
  entry : path -> fs -> option node;
  unread : Z -> fs -> option (list Z);
  open_file : forall p w d, entry p w = Some (File d) ->
    exists fd w', sys_open p w = (inr fd, w') /\ 0 <= fd /\ unread fd w' = Some d /\ (forall q, entry q w' = entry q w);
  open_missing : forall p w, entry p w = None -> exists e w', sys_open p w = (inl e, w') /\ (forall q, entry q w' = entry q w);
  read_unread : forall fd w n d, unread fd w = Some d -> 0 < n ->
    exists w', sys_read fd n w = (inr (take (Z.to_nat n) d), w') /\ unread fd w' = Some (drop (Z.to_nat n) d) /\
      (forall q, entry q w' = entry q w);
  close_unread : forall fd w d, unread fd w = Some d ->
    exists w', sys_close fd w = (None, w') /\ (forall q, entry q w' = entry q w)
}.

(** What a regular file holds. *)
Definition content {fs : Type} `{ReadFiles fs} (p : path) (w : fs) : option (list Z) :=
  match entry p w with Some (File d) => Some d | _ => None end.

Lemma content_file {fs : Type} `{ReadFiles fs} p (w : fs) d : content p w = Some d -> entry p w = Some (File d).
Proof. unfold content. by destruct (entry p w) as [[|d']|]; intros [= ->]. Qed.

Lemma content_same {fs : Type} `{ReadFiles fs} (w w' : fs) : (forall q, entry q w' = entry q w) -> forall q, content q w' = content q w.
Proof. intros E q. unfold content. by rewrite E. Qed.

(** The file system in memory has these properties. *)
Lemma mem_find_add p n w q : mem_find p w = None ->
  mem_find q (mem_add p n w) = if decide (q = p) then Some n else mem_find q w.
Proof.
  intros Hp. unfold mem_find in *. cbn [mem_add mem_nodes List.find fst]. destruct (decide (q = p)) as [->|N].
  - destruct (bool_decide (p = _ \/ _)); [done|]. by rewrite bool_decide_eq_true_2 by done.
  - rewrite (bool_decide_eq_false_2 (p = q)) by congruence. done.
Qed.

#[global] Instance mem_creates : CreateFiles memfs.
Proof.
  assert (Hc : forall p w r w', sys_create p w = (r, w') ->
    r = inl EEXIST /\ w' = w /\ mem_find p w <> None \/ r = inl ENOENT /\ w' = w \/
    r = inr (Z.of_nat (mem_next w)) /\ mem_find p w = None /\ mem_nodes w' = mem_nodes (mem_add p (File []) w)).
  { intros p w r w'. cbn. unfold mem_create. destruct (mem_find p w) eqn:E; [intros [= <- <-]; by left|].
    destruct (mem_dir p w); intros [= <- <-]; auto. }
  assert (Hs : forall p w, sys_stat p w = match mem_find p w with None => inl ENOENT | Some Dir => inr true | Some (File _) => inr false end) by done.
  split.
  - intros p w e w' [(_ & -> & _)|[(_ & ->)|([=] & _)]]%Hc; done.
  - intros p w w' [(_ & -> & Hf)|[([=] & _)|([=] & _)]]%Hc. rewrite Hs. destruct (mem_find p w) as [[]|]; [by eexists..|done].
  - intros p w fd w' [([=] & _)|[([=] & _)|([= ->] & Hf & Hn)]]%Hc. split; [lia|].
    assert (Hw : forall q, mem_find q w' = mem_find q (mem_add p (File []) w)) by (intros q; unfold mem_find; by rewrite Hn).
    split; [intros d; by rewrite Hs, Hf|]. split.
    + rewrite Hs, Hw, mem_find_add by done. by destruct (decide (p = p)).
    + intros q d. rewrite !Hs, Hw, mem_find_add by done. destruct (decide (q = p)) as [->|]; [by rewrite Hf|done].
  - intros d f w names b. cbn. unfold mem_readdir. destruct (bool_decide_reflect (d <> [] /\ mem_find d w = Some Dir)) as [[Hd _]|]; [|done].
    intros [= <-] (_ & _ & Hf) Hb. apply elem_of_cons. unfold mem_find in Hb.
    destruct (bool_decide_reflect (makePath d f = bytes_of "." \/ makePath d f = [pathSeparator])) as [E|N].
    + left. unfold makePath in E. destruct d as [|c d]; [done|]. rewrite zlen_cons in E. pose proof (zlen_nonneg d).
      destruct (Z.eqb_spec (1 + zlen d) 0); [lia|]. cbn [orb] in E. destruct (decide (c :: d = bytes_of ".")) as [Ed|Nd];
        [rewrite bool_decide_eq_true_2 in E by done|rewrite bool_decide_eq_false_2 in E by done].
      * destruct E as [|E]; [done|]. exfalso. apply Hf. rewrite E. by left.
      * destruct E as [E|E]; injection E as _ E; by destruct d.
    + right. destruct (List.find _ _) as [[q n]|] eqn:E; [|done]. apply find_some in E as [Hin Eq]. apply bool_decide_eq_true in Eq. cbn in Eq. subst q.
      apply list_elem_of_fmap. exists (makePath d f, n).
      assert (Hp : getFilePortion (makePath d f) = f /\ getDirPortion (makePath d f) = d).
      { destruct (decide (d = bytes_of ".")) as [->|Hn].
        - unfold makePath. rewrite bool_decide_eq_true_2, orb_true_r by done. unfold getFilePortion, getDirPortion. by rewrite rsplit_none.
        - destruct (makePath_portions d f Hn Hf) as [H1 H2]. rewrite H1, H2. by destruct (decide (d = [])). }
      destruct Hp as [Hp1 Hp2]. split; [done|]. apply list_elem_of_In, filter_In. split; [done|]. by apply bool_decide_eq_true.
Qed.

#[global] Instance mem_reads : ReadFiles memfs.
Proof.
  refine {| entry := mem_find; unread fd w := snd <$> mem_fd fd w |}.
  - intros p w d Hd. cbn. unfold mem_openr. rewrite Hd. do 2 eexists.
    split; [reflexivity|]. split; [lia|]. unfold mem_fd. cbn. by rewrite Z.eqb_refl.
  - intros p w Hd. cbn. unfold mem_openr. rewrite Hd. do 2 eexists; done.
  - intros fd w n d Hd Hn. cbn. unfold mem_read. destruct (mem_fd fd w) as [[p d']|]; [|done]. cbn in Hd. injection Hd as ->. eexists.
    split; [reflexivity|]. unfold mem_fd. cbn. by rewrite Z.eqb_refl.
  - intros fd w d Hd. cbn. unfold mem_close. destruct (mem_fd fd w); [|done]. eexists. done.
Defined.

(** ** Directories *)

Lemma rsplit_some p d f : rsplit p = Some (d, f) -> p = d ++ pathSeparator :: f.
Proof.
  revert d f. induction p as [|c p IH]; intros d f; cbn; [done|]. destruct (rsplit p) as [[a b]|].
  - intros [= <- <-]. cbn. f_equal. by apply IH.
  - destruct (Z.eqb_spec c pathSeparator) as [->|]; [|done]. by intros [= <- <-].
Qed.

(** The recursion of [createDirectory] is over shorter paths; it ends because
    the root directory exists. *)
Lemma createDirectory_ends {fs : Type} `{Posix fs} fuel : forall name (w : fs),
  (forall w : fs, sys_stat [pathSeparator] w = inr true) -> (length name < fuel)%nat -> createDirectory fuel name w <> None.
Proof.
  induction fuel as [|fuel IH]; intros name w Hroot Hl; [lia|]. cbn [createDirectory].
  destruct (zlen name =? 0); [done|]. destruct (sys_stat name w) as [e|] eqn:Es; [|done]. destruct (negb (e =? ENOENT)); [done|].
  assert (Hm : (if bool_decide (getDirPortion name = bytes_of ".") then Some (None, w) else createDirectory fuel (getDirPortion name) w) <> None).
  { destruct (bool_decide_reflect (getDirPortion name = bytes_of ".")) as [|N]; [done|]. apply IH; [done|]. unfold getDirPortion in *.
    destruct (rsplit name) as [[d f]|] eqn:Er; [|done]. apply rsplit_some in Er. subst name. destruct d as [|c d].
    - destruct f; [by rewrite Hroot in Es|]. cbn in *. lia.
    - rewrite length_app in Hl. cbn in *. lia. }
  destruct (if bool_decide _ then _ else _) as [[[x|] w1]|]; [done| |done].
  destruct (sys_mkdir name w1) as [[e'|] w2]; [|done]. destruct (negb (e' =? EEXIST)); [done|]. by destruct (sys_stat name w2).
Qed.

(** When it returns without an exception, the path is a directory. *)
Lemma createDirectory_makes {fs : Type} `{Posix fs} fuel name (w w' : fs) :
  (forall p (w w' : fs), sys_mkdir p w = (None, w') -> sys_stat p w' = inr true) ->
  createDirectory fuel name w = Some (None, w') -> sys_stat name w' = inr true.
Proof.
  intros Hmk. destruct fuel as [|fuel]; [done|]. cbn [createDirectory]. destruct (zlen name =? 0); [done|].
  destruct (sys_stat name w) as [e|[|]] eqn:Es; [|by intros [= <-]|done]. destruct (negb (e =? ENOENT)); [done|].
  destruct (if bool_decide _ then _ else _) as [[[x|] w1]|]; [done| |done].
  destruct (sys_mkdir name w1) as [[e'|] w2] eqn:Em; [|intros [= <-]; by apply (Hmk name w1)]. destruct (negb (e' =? EEXIST)); [done|].
  destruct (sys_stat name w2) as [|[|]] eqn:Es2; [done|by intros [= <-]|done].
Qed.

(** ** Creation of files *)

Section Creation.

Context {fs : Type} `{CreateFiles fs}.

Abbreviation formatTime := (format localeText localSecs).

Lemma createDirectory_exists fuel d w : d <> [] -> sys_stat d w = inr true -> createDirectory (S fuel) d w = Some (None, w).
Proof.
  intros Hd Hs. cbn [createDirectory]. rewrite Hs. destruct (Z.eqb_spec (zlen d) 0) as [E|]; [|done]. by apply zlen_nil_inv in E.
Qed.

(** The times [createFile] names files by, one after the other. *)
Definition candidate (s : FileSet) (ftime : Z) (exact : bool) (k : nat) : Z :=
  if exact then ftime + Z.of_nat k * USECS_PER_SEC
  else match k with O => nameTime s ftime false | S k => ftime + Z.of_nat k * USECS_PER_SEC end.

Lemma candidate_step s s' ftime exact k : _fileLength s' = _fileLength s ->
  candidate s' (if negb exact then ftime else ftime + USECS_PER_SEC) true k = candidate s ftime exact (S k).
Proof. intros E. unfold candidate. destruct exact; cbn [negb]; [lia|done]. Qed.

Lemma candidate_first s ftime exact : candidate s ftime exact 0 = nameTime s ftime exact.
Proof. unfold candidate, nameTime. destruct exact; cbn [negb andb]; [lia|done]. Qed.

(** The first free name is taken. *)
Lemma createFile_first n : forall fuel ftime exact s w,
  (n < fuel)%nat -> _fd s < 0 -> contains [PCT] (_fullpath s) = true ->
  (forall k, (k <= n)%nat -> let d := getDirPortion (formatTime (candidate s ftime exact k) (_fullpath s)) in
     d = bytes_of "." \/ d <> [] /\ sys_stat d w = inr true) ->
  (forall k, (k < n)%nat -> exists w', sys_create (formatTime (candidate s ftime exact k) (_fullpath s)) w = (inl EEXIST, w')) ->
  forall fd w', sys_create (formatTime (candidate s ftime exact n) (_fullpath s)) w = (inr fd, w') ->
  exists s', createFile fuel ftime exact s w = Some (inr (nextFileTime s (candidate s ftime exact n)), s', w') /\
    _fd s' = fd /\ _newFile s' = true /\ _lastErrno s' = 0 /\ _currname s' = formatTime (candidate s ftime exact n) (_fullpath s) /\
    _fileLength s' = _fileLength s /\ _fullpath s' = _fullpath s.
Proof.
  induction n as [|n IH]; intros fuel ftime exact s w Hf Hfd Hp Hd He fd w' Hc; (destruct fuel as [|fuel]; [lia|]);
    cbn [createFile]; unfold closeFile; (destruct (Z.leb_spec 0 (_fd s)); [lia|]).
  all: set (s1 := with_file _ _ _ _ s); specialize (Hd 0%nat ltac:(lia)) as Hd0; cbn zeta in Hd0; rewrite candidate_first in Hd0.
  all: assert (Hm : (if bool_decide (getDirPortion (_currname s1) = bytes_of ".") then Some (None, w)
      else createDirectory (S (length (getDirPortion (_currname s1)))) (getDirPortion (_currname s1)) w) = Some (None, w))
    by (destruct (bool_decide_reflect (getDirPortion (_currname s1) = bytes_of ".")); [done|];
        destruct Hd0 as [?|[? ?]]; [done|by apply createDirectory_exists]).
  all: rewrite Hm; unfold openFileForWriting; change (_currname s1) with (formatTime (nameTime s ftime exact) (_fullpath s)).
  - rewrite candidate_first in Hc. rewrite Hc. eexists. rewrite candidate_first. split; [done|done].
  - destruct (He 0%nat ltac:(lia)) as [w1 E1]. rewrite candidate_first in E1. rewrite E1. apply create_fails in E1 as ->.
    change (_fullpath (with_file _ _ _ _ s1)) with (_fullpath s). rewrite Hp. cbn [Z.eqb andb]. change (EEXIST =? EEXIST) with true. cbn [andb].
    set (s2 := with_file _ _ _ _ s1). set (ft := if negb exact then ftime else ftime + USECS_PER_SEC).
    assert (Hk : forall k, candidate s2 ft true k = candidate s ftime exact (S k)) by (intros k; by apply candidate_step).
    destruct (IH fuel ft true s2 w) with (fd := fd) (w' := w') as (s' & E & G); [lia|done|done|..].
    + intros k Hk'. rewrite Hk. apply (Hd (S k)). lia.
    + intros k Hk'. rewrite Hk. apply (He (S k)). lia.
    + by rewrite Hk.
    + exists s'. rewrite Hk in E, G. split; [|done]. etransitivity; [|exact E]. unfold ft. by destruct exact.
Qed.

End Creation.

(** The least number with a property. *)
Lemma least_number (P : nat -> bool) n : P n = true -> exists k, (k <= n)%nat /\ P k = true /\ forall j, (j < k)%nat -> P j = false.
Proof.
  induction n as [n IH] using lt_wf_ind. intros Hn.
  destruct (forallb (fun j => negb (P j)) (seq 0 n)) eqn:E.
  - exists n. split; [lia|]. split; [done|]. intros j Hj. rewrite forallb_forall in E. apply negb_true_iff, E, in_seq. lia.
  - apply not_true_iff_false in E. rewrite forallb_forall in E.
    destruct (List.existsb P (seq 0 n)) eqn:Ex.
    + apply existsb_exists in Ex as (j & Hj%in_seq & Pj). destruct (IH j ltac:(lia) Pj) as (k & ? & ?). exists k. split; [lia|done].
    + destruct E. intros j Hj. apply negb_true_iff. destruct (P j) eqn:Pj; [|done]. rewrite <- Ex. symmetry. apply existsb_exists. by exists j.
Qed.

(** More names than a list has: one is not in it. *)
Lemma fresh_name (f : nat -> path) (names : list path) :
  (forall i j, (i < j <= length names)%nat -> f i <> f j) -> exists i, (i <= length names)%nat /\ f i ∉ names.
Proof.
  intros Hf. destruct (List.existsb (fun i => negb (bool_decide (f i ∈ names))) (seq 0 (S (length names)))) eqn:E.
  - apply existsb_exists in E as (i & Hi%in_seq & Ei). apply negb_true_iff, bool_decide_eq_false in Ei. exists i. split; [lia|done].
  - exfalso. assert (Hin : forall i, (i <= length names)%nat -> f i ∈ names).
    { intros i Hi. destruct (decide (f i ∈ names)) as [|Hn]; [done|]. exfalso. rewrite <- not_true_iff_false, existsb_exists in E.
      apply E. exists i. split; [apply in_seq; lia|]. by apply negb_true_iff, bool_decide_eq_false. }
    assert (Hnd : NoDup (f <$> seq 0 (S (length names)))).
    { apply NoDup_fmap_2_strong; [|apply NoDup_seq]. intros i j Hi%elem_of_seq Hj%elem_of_seq E'.
      destruct (lt_eq_lt_dec i j) as [[L|]|L]; [|done|]; [destruct (Hf i j); [lia|done]|destruct (Hf j i); [lia|done]]. }
    assert (Hs : f <$> seq 0 (S (length names)) ⊆+ names).
    { apply NoDup_submseteq; [done|]. intros x (i & -> & Hi%elem_of_seq)%list_elem_of_fmap. apply Hin. lia. }
    apply submseteq_length in Hs. rewrite length_fmap, length_seq in Hs. lia.
Qed.

Section NamedFiles.

Context {fs : Type} `{CreateFiles fs}.

Context (dir : path) (ts : list token) (Hdir : dir <> bytes_of ".") (Hpct : PCT ∉ dir) (Hord : in_order 0 ts) (Htok : tokens_ok ts).

Lemma contains_pct : Fld 0 ∈ ts -> contains [PCT] (makePath dir (render ts)) = true.
Proof.
  intros Hin. apply list_elem_of_split in Hin as (a & b & ->). unfold contains. apply bool_decide_eq_true.
  rewrite makePath_app, render_app by done. change (render (Fld 0 :: b)) with ([PCT] ++ field_code 0 :: render b). rewrite app_assoc.
  destruct (find_split _ _) as [[u v]|] eqn:E; [by eexists|]. by apply find_split_occurs in E.
Qed.

Lemma nameAt_distinct t t' : year_ok t -> year_ok t' -> all_fields ts -> t / USECS_PER_SEC < t' / USECS_PER_SEC -> nameAt ts t <> nameAt ts t'.
Proof.
  intros Y Y' Ha Hlt E. destruct (names_lt (fun _ _ => []) (fun _ => []) t t' ts Y Y' Hord Hlt) as [_ L]. specialize (L Ha).
  rewrite !format_name in L by done. change (lexlt (nameAt ts t) (nameAt ts t') = true) in L. by rewrite E, lexlt_irrefl in L.
Qed.

(** Among the times from [ftime] on, a second apart, one has a name that is
    not in the directory. *)
Lemma nameAt_file t : tokens_ok ts -> all_fields ts -> file_name (nameAt ts t).
Proof.
  intros Ht Ha. split; [|split; [by apply nameAt_nul|by apply nameAt_sep]].
  specialize (Ha O ltac:(lia)). apply list_elem_of_split in Ha as (l1 & l2 & ->). unfold nameAt, name_of. rewrite flat_map_app. cbn.
  by destruct (flat_map _ l1).
Qed.

Lemma free_second names ftime : year_ok ftime -> year_ok (ftime + zlen names * USECS_PER_SEC) -> all_fields ts ->
  exists i, (i <= length names)%nat /\ nameAt ts (ftime + Z.of_nat i * USECS_PER_SEC) ∉ names.
Proof.
  intros Y Y' Ha. apply fresh_name. intros i j Hij.
  apply nameAt_distinct; [apply (year_ok_between ftime (ftime + zlen names * USECS_PER_SEC)); [done|done|unfold zlen, USECS_PER_SEC; lia]..|done|].
  rewrite !Z.div_add by done. lia.
Qed.

End NamedFiles.

(** ** Reading through the files *)

Section Reading.

Context {fs : Type} `{ReadFiles fs}.

(** The files that are still to be opened. *)
Definition left (s : FileSet) : list path :=
  if _initialized s then match _fileiter s with None => [] | Some k => drop k (_fileset s) end else _fileset s.

(** The reads that the channel of [IOStream.v] makes of the rest of an open
    file. *)
Definition openEvents (d : list Z) : list (bool * list Z) :=
  match d with [] => [(false, [])] | _ => [(false, d); (false, [])] end.

Definition channelEvents (s : FileSet) (w : fs) : list (bool * list Z) :=
  (if _fd s <? 0 then [] else openEvents (default [] (unread (_fd s) w))) ++
  concat (map fileEvents (omap (fun p => content p w) (left s))).

(** The state of a file set that reads files by their names, or those a
    search found.  Each is a regular file, or, when [_keepopening], may be
    missing. *)
Definition reading (s : FileSet) (w : fs) : Prop :=
  (_initialized s = true \/ _fullpath s = []) /\
  match _fileiter s with Some k => (k < length (_fileset s))%nat | None => True end /\
  (bytes_of "-" ∉ left s) /\
  Forall (fun p => is_Some (content p w) \/ _keepopening s = true /\ entry p w = None) (left s) /\
  (0 <= _fd s -> is_Some (unread (_fd s) w)).

Lemma omap_content (w w' : fs) (l : list path) : (forall q, entry q w' = entry q w) -> omap (fun p => content p w') l = omap (fun p => content p w) l.
Proof. intros E. induction l as [|p l IH]; cbn; [done|]. by rewrite (content_same _ _ E), IH. Qed.

(** [openNextFile] opens the next file there is. *)
Lemma openLoop_spec l : forall n s (w : fs), left s = l -> (length l < n)%nat -> _initialized s = true -> _fd s < 0 -> reading s w ->
  exists r s' w', openLoop n s w = Some (r, s', w') /\ reading s' w' /\ (forall q, entry q w' = entry q w) /\
  match omap (fun p => content p w) l with
  | [] => r = Some EOFExc /\ _fd s' < 0 /\ left s' = [] /\ _newFile s' = _newFile s
  | d :: ds => r = None /\ 0 <= _fd s' /\ _newFile s' = true /\ unread (_fd s') w' = Some d /\ omap (fun p => content p w) (left s') = ds
  end.
Proof.
  induction l as [|p l IH]; intros n s w Hl Hn Hi Hfd R; pose proof R as (R1 & R2 & R3 & R4 & R5); (destruct n as [|n]; [cbn in Hn; lia|]); cbn [openLoop].
  - unfold left in Hl. rewrite Hi in Hl. destruct (_fileiter s) as [k|] eqn:Ek.
    { apply (f_equal length) in Hl. rewrite length_drop in Hl. cbn in Hl. lia. }
    exists (Some EOFExc), s, w. split; [done|]. split; [done|]. split; [done|]. unfold left. by rewrite Hi, Ek.
  - unfold left in Hl. rewrite Hi in Hl. destruct (_fileiter s) as [k|] eqn:Ek; [|done].
    assert (Hk : _fileset s !! k = Some p) by (rewrite <- (Nat.add_0_r k), <- lookup_drop, Hl; done).
    rewrite (nth_lookup_Some _ _ _ _ Hk). set (s1 := with_files _ _ _ _).
    assert (Hl1 : left s1 = l).
    { change (left s1) with (if _initialized s then match (if Nat.ltb (S k) (length (_fileset s)) then Some (S k) else None) with
        None => [] | Some k => drop k (_fileset s) end else _fileset s). rewrite Hi. rewrite (drop_S _ _ _ Hk) in Hl. injection Hl as Hl. destruct (Nat.ltb_spec (S k) (length (_fileset s))); [done|].
      by rewrite drop_ge in Hl. }
    assert (Hp : p <> bytes_of "-").
    { intros ->. apply R3. unfold left. rewrite Hi, Ek, Hl. by left. }
    assert (R3' : bytes_of "-" ∉ l).
    { intros Hin. apply R3. unfold left. rewrite Hi, Ek, Hl. by right. }
    unfold left in R4. rewrite Hi, Ek, Hl in R4. apply Forall_cons in R4 as [R4p R4].
    assert (Hi1 : match _fileiter s1 with Some k => (k < length (_fileset s1))%nat | None => True end).
    { change (_fileiter s1) with (if Nat.ltb (S k) (length (_fileset s)) then Some (S k) else None).
      by destruct (Nat.ltb_spec (S k) (length (_fileset s))). }
    rewrite bool_decide_eq_false_2 by done. cbn [omap list_omap]. destruct (content p w) as [d|] eqn:Ec.
    + destruct (open_file p w d (content_file p w d Ec)) as (fd & w' & -> & Hfd' & Hu & Hq). do 3 eexists. split; [reflexivity|].
      split; [|split; [done|]].
      * unfold reading. change (left (with_file _ _ _ _ s1)) with (left s1). rewrite Hl1. split; [by left|]. split; [done|]. split; [done|].
        split; [|intros _; cbn; by rewrite Hu]. eapply Forall_impl; [exact R4|]. intros q. by rewrite Hq, (content_same _ _ Hq).
      * change (left (with_file _ _ _ _ s1)) with (left s1). by rewrite Hl1.
    + destruct R4p as [[? ?]|[Hkeep Hmiss]]; [done|]. destruct (open_missing p w Hmiss) as (e & w' & -> & Hq). set (s2 := with_file _ _ _ _ s1).
      change (_keepopening s2) with (_keepopening s). rewrite Hkeep. cbn [negb].
      destruct (IH n s2 w') as (r & s' & w2 & E & Rr & Rq & M); [done|cbn in Hn; lia|done|done|..].
      { split; [by left|]. split; [done|]. change (left s2) with (left s1). rewrite Hl1. split; [done|]. split; [|cbn; lia].
        eapply Forall_impl; [exact R4|]. intros q. by rewrite Hq, (content_same _ _ Hq). }
      exists r, s', w2. split; [done|]. split; [done|]. split; [intros q; by rewrite Rq, Hq|].
      rewrite (omap_content w w' l Hq) in M. destruct (omap _ l); [done|].
      destruct M as (? & ? & ? & ? & M). split_and!; try done. by rewrite (omap_content w w' _ Hq) in M.
Qed.

Lemma openNextFile_spec s (w : fs) : _fd s < 0 -> reading s w ->
  exists r s' w', openNextFile s w = Some (r, s', w') /\ reading s' w' /\ (forall q, entry q w' = entry q w) /\
  match omap (fun p => content p w) (left s) with
  | [] => r = Some EOFExc /\ _fd s' < 0 /\ left s' = []
  | d :: ds => r = None /\ 0 <= _fd s' /\ _newFile s' = true /\ unread (_fd s') w' = Some d /\ omap (fun p => content p w) (left s') = ds
  end.
Proof.
  intros Hfd R0. pose proof R0 as (R1 & R2 & R3 & R4 & R5). unfold openNextFile.
  assert (Hinit : exists s1, (if _initialized s then Some (None, s) else initialize s w) = Some (None, s1) /\ left s1 = left s /\
    _initialized s1 = true /\ _fd s1 = _fd s /\ reading s1 w).
  { destruct (_initialized s) eqn:Hi.
    - by exists s.
    - destruct R1 as [|R1]; [done|]. unfold initialize. rewrite R1. cbn [zlen length]. change (0 <? zlen []) with false. cbn match.
      eexists. split; [reflexivity|]. assert (El : left (with_files (_fileset s) (if zlen (_fileset s) =? 0 then None else Some 0%nat) true s) = left s).
      { unfold left. cbn. rewrite Hi. destruct (Z.eqb_spec (zlen (_fileset s)) 0) as [E|]; [by apply zlen_nil_inv in E as ->|by rewrite drop_0]. }
      split; [done|]. split; [done|]. split; [done|]. unfold reading. rewrite El. split; [by left|]. split; [|split; [done|split; [done|cbn; lia]]].
      cbn. destruct (Z.eqb_spec (zlen (_fileset s)) 0) as [E|N]; [done|]. unfold zlen in N. lia. }
  destruct Hinit as (s1 & -> & El & Hi & Hfd1 & R). unfold closeFile. destruct (Z.leb_spec 0 (_fd s1)); [lia|].
  set (s2 := with_file _ _ _ _ s1). assert (El2 : left s2 = left s) by done.
  destruct (openLoop_spec (left s) (S (length (_fileset s1))) s2 w El2) as (r & s' & w' & E & G1 & G2 & G3); [|done|cbn; lia|exact R|].
  { rewrite <- El. unfold left. rewrite Hi. destruct (_fileiter s1); [rewrite length_drop|cbn]; lia. }
  exists r, s', w'. split; [done|]. split; [done|]. split; [done|]. destruct (omap _ _); [|done]. by destruct G3 as (? & ? & ? & _).
Qed.

(** The read of an open file. *)
Definition readOpen (count : Z) (s : FileSet) (w : fs) : option ((exc + list Z) * FileSet * fs) :=
  match sys_read (_fd s) count w with
  | (inl e, w) => Some (inl (IOExc e), s, w)
  | (inr bs, w) =>
      if zlen bs =? 0 then
        match closeFile s w with
        | (Some x, s, w) => Some (inl x, s, w)
        | (None, s, w) => Some (inr [], s, w)
        end
      else Some (inr bs, s, w)
  end.

(** The reads of a file of which [d] is left; [new] is the first one's
    flag. *)
Definition restEvents (new : bool) (d : list Z) : list (bool * list Z) :=
  match d with [] => [(new, [])] | _ => [(new, d); (false, [])] end.

Lemma readOpen_spec len s (w : fs) d evs : 0 < len -> 0 <= _fd s -> unread (_fd s) w = Some d -> reading s w ->
  evs = restEvents (_newFile s) d ++ concat (map fileEvents (omap (fun p => content p w) (left s))) ->
  exists bs s' w' evs', readOpen len s w = Some (inr bs, s', w') /\ reading s' w' /\ _newFile s' = _newFile s /\
    (forall b, chan_read len (mkChannel evs b) = Some (bs, mkChannel evs' (_newFile s))) /\ evs' = channelEvents s' w'.
Proof.
  intros Hlen Hfd Hu (R1 & R2 & R3 & R4 & R5) ->. unfold readOpen. destruct (read_unread _ _ len d Hu Hlen) as (w1 & -> & Hu1 & Hq1).
  assert (R4' : forall w', (forall q, entry q w' = entry q w) ->
    Forall (fun p => is_Some (content p w') \/ _keepopening s = true /\ entry p w' = None) (left s)).
  { intros w' Hq. eapply Forall_impl; [exact R4|]. intros q. by rewrite Hq, (content_same _ _ Hq). }
  destruct d as [|x d].
  - rewrite take_nil. cbn [zlen length]. change (zlen [] =? 0) with true. cbn match. unfold closeFile. destruct (Z.leb_spec 0 (_fd s)); [|lia].
    destruct (close_unread _ _ _ Hu1) as (w2 & -> & Hq2). assert (Hq : forall q, entry q w2 = entry q w) by (intros q; by rewrite Hq2, Hq1).
    set (s' := with_file _ _ _ _ s). exists [], s', w2, (channelEvents s' w2). split; [done|]. split; [|split; [done|split; [|done]]].
    + split; [done|]. split; [done|]. split; [done|]. split; [by apply R4'|cbn; lia].
    + intros b. unfold chan_read. cbn [restEvents app ch_events]. change (zlen []) with 0. destruct (Z.leb_spec 0 len); [|lia].
      unfold channelEvents. cbn [s' with_file _fd]. change (-1 <? 0) with true. cbn [app]. by rewrite (omap_content w w2 _ Hq).
  - assert (Hne : (zlen (take (Z.to_nat len) (x :: d)) =? 0) = false).
    { replace (Z.to_nat len) with (S (Z.to_nat (len - 1))) by lia. cbn [take]. rewrite zlen_cons. pose proof (zlen_nonneg (take (Z.to_nat (len - 1)) d)).
      destruct (Z.eqb_spec (1 + zlen (take (Z.to_nat (len - 1)) d)) 0); [lia|done]. }
    rewrite Hne. exists (take (Z.to_nat len) (x :: d)), s, w1, (channelEvents s w1). split; [done|]. split; [|split; [done|split; [|done]]].
    + split; [done|]. split; [done|]. split; [done|]. split; [by apply R4'|]. intros _. by rewrite Hu1.
    + intros b. unfold chan_read. cbn [restEvents app ch_events]. unfold channelEvents. destruct (Z.ltb_spec (_fd s) 0); [lia|]. rewrite Hu1. cbn [default].
      rewrite (omap_content w w1 _ Hq1). destruct (Z.leb_spec (zlen (x :: d)) len) as [L|L].
      * unfold zlen in L. rewrite take_ge, drop_ge by lia. done.
      * change (default [] (Some (drop (Z.to_nat len) (x :: d)))) with (drop (Z.to_nat len) (x :: d)).
        destruct (drop (Z.to_nat len) (x :: d)) eqn:E; [|done]. apply (f_equal length) in E. rewrite length_drop in E. unfold zlen in L. cbn [length] in E, L. lia.
Qed.

(** A read of the file set is a read of the channel. *)
Lemma fs_read_spec len s (w : fs) b : 0 < len -> reading s w ->
  exists r s' w', fs_read len s w = Some (r, s', w') /\ reading s' w' /\
  match r with
  | inr bs => chan_read len (mkChannel (channelEvents s w) b) = Some (bs, mkChannel (channelEvents s' w') (_newFile s'))
  | inl x => x = EOFExc /\ channelEvents s w = [] /\ channelEvents s' w' = []
  end.
Proof.
  intros Hlen R. unfold fs_read. set (s0 := with_file false _ _ _ s). assert (R0 : reading s0 w) by exact R.
  assert (E0 : channelEvents s0 w = channelEvents s w) by done. rewrite <- E0. destruct (Z.ltb_spec (_fd s0) 0) as [Hfd|Hfd].
  - destruct (openNextFile_spec s0 w Hfd R0) as (r & s1 & w1 & -> & R1 & Hq & M).
    assert (Ee : channelEvents s0 w = concat (map fileEvents (omap (fun p => content p w) (left s0)))).
    { unfold channelEvents. by destruct (Z.ltb_spec (_fd s0) 0); [|lia]. }
    rewrite Ee. destruct (omap _ (left s0)) as [|d ds] eqn:Eo.
    + destruct M as (-> & Hfd1 & El). do 3 eexists. split; [done|]. split; [done|]. split; [done|]. split; [done|].
      unfold channelEvents. destruct (Z.ltb_spec (_fd s1) 0); [|lia]. by rewrite El.
    + destruct M as (-> & Hfd1 & Hnew & Hu & El). fold (readOpen len s1 w1).
      destruct (readOpen_spec len s1 w1 d (concat (map fileEvents (d :: ds)))) as (bs & s' & w' & evs' & -> & R' & N & C & ->); try done.
      { rewrite Hnew, (omap_content w w1 _ Hq), El. cbn [map concat]. by destruct d. }
      do 3 eexists. split; [done|]. split; [done|]. rewrite (C b), N. done.
  - fold (readOpen len s0 w). assert (R0' := R0). destruct R0' as (_ & _ & _ & _ & R5). destruct (R5 Hfd) as [d Hu].
    destruct (readOpen_spec len s0 w d (channelEvents s0 w)) as (bs & s' & w' & evs' & -> & R' & N & C & ->); try done.
    { unfold channelEvents. destruct (Z.ltb_spec (_fd s0) 0); [lia|]. rewrite Hu. cbn [default]. by destruct d. }
    do 3 eexists. split; [done|]. split; [done|]. rewrite (C b), N. done.
Qed.

(** The bytes and the flags of a sequence of reads, up to the end of the
    files. *)
Fixpoint readSeq (lens : list Z) (s : FileSet) (w : fs) : option (list (bool * list Z)) :=
  match lens with
  | [] => Some []
  | len :: lens =>
      match fs_read len s w with
      | None | Some (inl (IOExc _), _, _) | Some (inl IOMsg, _, _) => None
      | Some (inl EOFExc, _, _) => Some []
      | Some (inr bs, s, w) => match readSeq lens s w with Some r => Some ((_newFile s, bs) :: r) | None => None end
      end
  end.

End Reading.

(** The same of a channel. *)
Fixpoint chanSeq (lens : list Z) (c : Channel) : list (bool * list Z) :=
  match lens with
  | [] => []
  | len :: lens => match chan_read len c with None => [] | Some (bs, c) => (ch_new c, bs) :: chanSeq lens c end
  end.

Lemma readSeq_channel {fs : Type} `{ReadFiles fs} lens s (w : fs) b :
  reading s w -> Forall (fun len => 0 < len) lens ->
  readSeq lens s w = Some (chanSeq lens (mkChannel (channelEvents s w) b)).
Proof.
  intros R Hl. revert s w b R. induction Hl as [|len lens Hlen _ IH]; intros s w b R; cbn [readSeq chanSeq]; [done|].
  destruct (fs_read_spec len s w b Hlen R) as (r & s' & w' & -> & R' & M). destruct r as [x|bs].
  - destruct M as (-> & -> & _). done.
  - rewrite M, (IH s' w' (_newFile s') R'). done.
Qed.

(** ** The files of a period *)

Section Period.

Context {fs : Type} `{Posix fs}.

Abbreviation formatTime := (format localeText localSecs).

(** What a search returns is in order and in its period. *)
Lemma matchFiles_sound fullpath t1 t2 (w : fs) l : matchFiles fullpath t1 t2 w = Some (inr l) ->
  strictly_ascending lexlt l /\ Forall (fun m => inPeriod (formatTime t1 fullpath) (formatTime t2 fullpath) m = true) l.
Proof.
  unfold matchFiles. destruct (checkPathFormat fullpath t1 t2); [done|]. generalize (dirDelta fullpath t1). intros d.
  generalize (matchFuel t1 t2 d). intros n. assert (G : forall n ft found r, strictly_ascending lexlt found ->
    Forall (fun m => inPeriod (formatTime t1 fullpath) (formatTime t2 fullpath) m = true) found ->
    matchLoop n fullpath t1 t2 d ft w found = Some (inr r) ->
    strictly_ascending lexlt r /\ Forall (fun m => inPeriod (formatTime t1 fullpath) (formatTime t2 fullpath) m = true) r).
  { clear. induction n as [|n IH]; intros ft found r H1 H2; cbn [matchLoop]; (destruct (ft <=? t2); [|by intros [= <-]]); [done|].
    destruct (matchAt fullpath t1 t2 ft w found) as [|f1] eqn:E; [done|]. destruct (matchAt_spec _ _ _ _ _ _ _ H1 E) as [A1 A2].
    assert (A3 : Forall (fun m => inPeriod (formatTime t1 fullpath) (formatTime t2 fullpath) m = true) f1).
    { apply Forall_forall. intros m [Hm|(? & ? & ? & ? & _ & _ & _ & _ & _ & _ & Hp)]%A2; [|done]. rewrite Forall_forall in H2. by apply H2. }
    destruct (ft =? t2); [by intros [= <-]|]. by apply IH. }
  apply G; [constructor|done].
Qed.

(** The looking back is over when nothing was found, or stops at the last
    search. *)
Lemma lookBack_spec n s : forall t (w : fs) r, lookBack n s t w = Some (inr r) ->
  (r = [] /\ forall k, (k < n)%nat -> matchFiles (_fullpath s) (t - Z.of_nat k * lookBackStep s) (_startTime s) w = Some (inr [])) \/
  r <> [] /\ exists k, (k < n)%nat /\ matchFiles (_fullpath s) (t - Z.of_nat k * lookBackStep s) (_startTime s) w = Some (inr r).
Proof.
  induction n as [|n IH]; intros t w r; cbn [lookBack]; [intros [= <-]; left; split; [done|]; lia|].
  destruct (matchFiles (_fullpath s) t (_startTime s) w) as [[x|[|m l]]|] eqn:E; [done| | |done].
  - intros H1. destruct (IH _ _ _ H1) as [[-> G]|[N (k & Hk & G)]]; [left|right]; (split; [done|]).
    + intros [|k] Hk; [by rewrite Z.mul_0_l, Z.sub_0_r|]. rewrite <- (G k) by lia. f_equal. lia.
    + exists (S k). split; [lia|]. rewrite <- G. f_equal. lia.
  - intros [= <-]. right. split; [done|]. exists O. split; [lia|]. by rewrite Z.mul_0_l, Z.sub_0_r.
Qed.

Lemma inPeriod_end t1p t2p m : inPeriod t1p t2p m = true -> lexlt t2p m = false.
Proof.
  unfold inPeriod. intros [_ [L|[_ L]%andb_prop]%orb_prop]%andb_prop; [by apply lexlt_asym|by apply negb_true_iff].
Qed.

End Period.

(** The next file starts after the time of this one, at a multiple of the
    length of files. *)
Lemma nextFileTime_spec s ftime exact k : 0 < _fileLength s -> _fileLength s < LONG_LONG_MAX ->
  let t := candidate s ftime exact k in
  nextFileTime s t mod _fileLength s = 0 /\ t < nextFileTime s t <= t + _fileLength s /\ ftime < nextFileTime s t.
Proof.
  intros H0 H1 t. unfold nextFileTime. destruct (Z.ltb_spec (_fileLength s) LONG_LONG_MAX); [|lia]. assert (EL : exists L, L = _fileLength s) by by eexists. destruct EL as [L EL]. rewrite <- EL in *.
  rewrite earlier_floor by done. pose proof (Z.mod_pos_bound (t + L) L H0). pose proof (Z.div_mod (t + L) L ltac:(lia)).
  assert (Em : (t + L - (t + L) mod L) mod L = 0).
  { replace (t + L - (t + L) mod L) with ((t + L) / L * L) by lia. apply Z.mod_mul. lia. }
  split; [done|]. split; [lia|]. subst t. unfold candidate, nameTime in *. rewrite <- EL in *.
  destruct exact; [unfold USECS_PER_SEC in *; lia|]. destruct k as [|k]; [|unfold USECS_PER_SEC in *; lia].
  cbn [negb andb] in *. destruct (Z.ltb_spec L LONG_LONG_MAX); [|lia]. rewrite earlier_floor in * by done.
  pose proof (Z.div_mod ftime L ltac:(lia)). pose proof (Z.mod_pos_bound ftime L H0).
  assert (E : (ftime - ftime mod L + L) mod L = 0).
  { replace (ftime - ftime mod L + L) with ((ftime / L + 1) * L) by lia. apply Z.mod_mul. lia. }
  rewrite E. lia.
Qed.

(** ** Properties *)

(** C20: a new file is always created, and no existing one is touched: with
    names of all the date and time fields, in a directory that exists, and
    as long as the system refuses to create a file of one of these names only
    because it exists, [createFile] returns after at most two attempts more than there are
    names in the directory.  The file has the first free name among those of
    the start of its interval, of the time asked for and of the seconds after
    it; the next file starts after the time asked for, at a multiple of the
    length of files, at most one length after the name of this one. *)
Theorem create_new_file {fs : Type} `{CreateFiles fs} dir ts s w names ftime exact :
  dir <> bytes_of "." -> PCT ∉ dir -> in_order 0 ts -> tokens_ok ts -> all_fields ts ->
  _fullpath s = makePath dir (render ts) -> _fd s < 0 -> 0 < _fileLength s < LONG_LONG_MAX ->
  sys_stat (dirName dir) w = inr true -> sys_readdir (dirName dir) w = inr names ->
  (forall j e w', (j <= length names + 1)%nat ->
     sys_create (makePath dir (nameAt ts (candidate s ftime exact j))) w = (inl e, w') -> e = EEXIST) ->
  year_ok (nameTime s ftime exact) -> year_ok ftime -> year_ok (ftime + zlen names * USECS_PER_SEC) ->
  exists k s' w', createFile (length names + 3) ftime exact s w = Some (inr (nextFileTime s (candidate s ftime exact k)), s', w') /\
    (k <= length names + 1)%nat /\
    let t := candidate s ftime exact k in
    let file j := makePath dir (nameAt ts (candidate s ftime exact j)) in
    _currname s' = file k /\ 0 <= _fd s' /\ (forall d, sys_stat (file k) w <> inr d) /\ sys_stat (file k) w' = inr false /\
    (forall q d, sys_stat q w = inr d -> sys_stat q w' = inr d) /\
    (forall j, (j < k)%nat -> exists d, sys_stat (file j) w = inr d) /\
    nextFileTime s t mod _fileLength s = 0 /\ t < nextFileTime s t <= t + _fileLength s /\ ftime < nextFileTime s t.
Proof.
  intros Hd Hp Ho Ht Ha Hpath Hfd HL Hs Hr Hc Y0 Y1 Y2.
  assert (Yk : forall k, (k <= length names + (if exact then 0 else 1))%nat -> year_ok (candidate s ftime exact k)).
  { intros k Hk. unfold candidate. destruct exact; [|destruct k as [|k]; [done|]];
      apply (year_ok_between ftime (ftime + zlen names * USECS_PER_SEC)); try done; unfold zlen, USECS_PER_SEC; lia. }
  assert (Ef : forall k, (k <= length names + (if exact then 0 else 1))%nat ->
    format localeText localSecs (candidate s ftime exact k) (_fullpath s) = makePath dir (nameAt ts (candidate s ftime exact k))).
  { intros k Hk. rewrite Hpath. apply format_path; try done. by apply Yk. }
  set (taken k := match sys_create (makePath dir (nameAt ts (candidate s ftime exact k))) w with (inr _, _) => true | _ => false end).
  assert (Hfree : exists n, (n <= length names + (if exact then 0 else 1))%nat /\ taken n = true).
  { destruct (free_second ts Ho names ftime Y1 Y2 Ha) as (i & Hi & Hn). exists (i + (if exact then 0 else 1))%nat. split; [lia|].
    unfold taken. assert (Ec : candidate s ftime exact (i + (if exact then 0 else 1)) = ftime + Z.of_nat i * USECS_PER_SEC).
    { unfold candidate. destruct exact; [by rewrite Nat.add_0_r|]. by rewrite Nat.add_1_r. }
    destruct (sys_create _ w) as [[e|fd] w'] eqn:E; [|done]. exfalso. pose proof (Hc (i + (if exact then 0 else 1))%nat e w' ltac:(destruct exact; lia) E) as ->. rewrite Ec in E.
    apply create_exists in E as [b Hb]. apply Hn. apply (readdir_names (dirName dir) _ w names b Hr); [by apply nameAt_file|].
    revert Hb. unfold makePath, dirName. destruct (decide (dir = [])) as [->|]; [done|]. by rewrite bool_decide_eq_false_2. }
  destruct Hfree as (n & Hn & Tn). destruct (least_number taken n Tn) as (k & Hk & Tk & Hmin).
  unfold taken in Tk. destruct (sys_create (makePath dir (nameAt ts (candidate s ftime exact k))) w) as [[e|fd] w'] eqn:E; [done|]. clear Tk.
  assert (He : forall j, (j < k)%nat -> exists w1, sys_create (makePath dir (nameAt ts (candidate s ftime exact j))) w = (inl EEXIST, w1)).
  { intros j Hj. specialize (Hmin j Hj). unfold taken in Hmin. revert Hmin. destruct (sys_create (makePath dir (nameAt ts (candidate s ftime exact j))) w) as [[e|]  w1] eqn:Ej; intros Hmin; [|done].
    pose proof (Hc j e w1 ltac:(destruct exact; lia) Ej) as ->. by exists w1. }
  destruct (createFile_first k (length names + 3) ftime exact s w) with (fd := fd) (w' := w') as (s' & Es & F1 & _ & _ & F4 & _);
    [destruct exact; lia|done|rewrite Hpath; apply contains_pct; try done; by apply Ha; lia|..|].
  - intros j Hj. cbn zeta. right. rewrite Hpath, (dir_at dir ts) by (try done; apply Yk; lia). split; [|done].
    unfold dirName. by destruct (decide (dir = [])).
  - intros j Hj. rewrite Ef by lia. by apply He.
  - rewrite Ef by lia. done.
  - apply create_new in E as (E1 & E2 & E3 & E4). exists k, s', w'. split; [done|]. split; [destruct exact; lia|]. cbn zeta.
    rewrite F4, Ef, F1 by lia. split; [done|]. split; [done|]. split; [done|]. split; [done|]. split; [done|]. split.
    + intros j Hj. destruct (He j Hj) as [w1 Ej]. by apply create_exists in Ej.
    + apply nextFileTime_spec; lia.
Qed.

Lemma create_new_file_witness :
  let ts := map Lit (bytes_of "a_") ++ [Fld 0; Fld 1; Fld 2; Lit 95; Fld 3; Fld 4; Fld 5] in
  let w := mkMemfs [(bytes_of "data", Dir); (bytes_of "data/a_20200229_000000", File [1]); (bytes_of "data/a_20200229_123456", File [2])] [] 3 in
  let s := setFileLengthSecs 86400 (setDir (bytes_of "data") (setFileName (render ts) newFileSet)) in
  match createFile 6 1582979696000000 false s w with
  | Some (r, s', _) => r = inr 1583020800000000 /\ _currname s' = bytes_of "data/a_20200229_123457"
  | None => False
  end /\
  exists k s' w', createFile 6 1582979696000000 false s w = Some (inr (nextFileTime s (candidate s 1582979696000000 false k)), s', w') /\
    1582979696000000 < nextFileTime s (candidate s 1582979696000000 false k).
Proof.
  intros ts w s. split; [vm_compute; split; reflexivity|].
  edestruct (create_new_file (bytes_of "data") ts s w
    [bytes_of "."; bytes_of "a_20200229_000000"; bytes_of "a_20200229_123456"] 1582979696000000 false) as (k & s' & w' & E & _ & P).
  - discriminate.
  - apply (bool_decide_unpack _). vm_compute. exact I.
  - subst ts. vm_compute. repeat split; first [lia | discriminate].
  - intros c Hc. subst ts. cbn in Hc.
    repeat (apply elem_of_cons in Hc as [?|Hc]; [first [discriminate|simplify_eq; vm_compute; reflexivity]|]). by apply elem_of_nil in Hc.
  - intros k Hk. subst ts. do 6 (destruct k as [|k]; [repeat first [left | right]|]). lia.
  - reflexivity.
  - reflexivity.
  - split; reflexivity.
  - reflexivity.
  - vm_compute. reflexivity.
  - intros j e w' Hj. do 5 (destruct j as [|j]; [vm_compute; by intros [= <- _]|]). cbn in Hj. lia.
  - split; [reflexivity|vm_compute; split; discriminate].
  - split; [reflexivity|vm_compute; split; discriminate].
  - split; [reflexivity|vm_compute; split; discriminate].
  - exists k, s', w'. split; [exact E|]. apply P.
Defined.

(** C21: refinement: a file set read with any lengths of reads is the channel
    that [IOStream] reads from: the same bytes and the same [isNewFile] flags,
    each existing file (none of the names is that of a directory) being a
    first read that is new, the rest of its bytes, and an empty read at its
    end; no exception but the one at the end, and
    what is read is the contents of the files in their order. *)
Theorem file_set_is_channel {fs : Type} `{ReadFiles fs} lens s (w : fs) b :
  reading s w -> Forall (fun len => 0 < len) lens ->
  readSeq lens s w = Some (chanSeq lens (mkChannel (channelEvents s w) b)) /\
  (_fd s < 0 -> ch_bytes (mkChannel (channelEvents s w) b) = concat (omap (fun p => content p w) (left s))).
Proof.
  intros R Hl. split; [by apply readSeq_channel|].
  intros Hfd. unfold ch_bytes, channelEvents. cbn [ch_events]. destruct (Z.ltb_spec (_fd s) 0); [|lia]. cbn [app].
  induction (omap _ (left s)) as [|d ds IH]; cbn; [done|]. rewrite map_app, concat_app, IH. f_equal. by destruct d; cbn; rewrite ?app_nil_r.
Qed.

Lemma file_set_is_channel_witness :
  let w := mkMemfs [(bytes_of "a", File [1; 2; 3]); (bytes_of "b", File []); (bytes_of "c", File [4; 5])] [] 3 in
  let s := setKeepOpening true (addFileName (bytes_of "c") (addFileName (bytes_of "x") (addFileName (bytes_of "b") (addFileName (bytes_of "a") newFileSet)))) in
  readSeq [2; 2; 2; 2; 2; 2; 2] s w = Some [(true, [1; 2]); (false, [3]); (false, []); (true, []); (true, [4; 5]); (false, [])] /\
  readSeq [2; 2; 2; 2; 2; 2; 2] s w = Some (chanSeq [2; 2; 2; 2; 2; 2; 2] (mkChannel (channelEvents s w) false)).
Proof.
  intros w s. split; [vm_compute; reflexivity|]. apply (file_set_is_channel [2; 2; 2; 2; 2; 2; 2] s w false).
  - split; [by right|]. split; [exact I|]. split; [|split; [|cbn; lia]]; [apply (bool_decide_unpack _); vm_compute; exact I|].
    repeat (apply Forall_cons_2; [first [by left; eexists|by right]|]). apply Forall_nil_2.
  - repeat constructor; lia.
Defined.

(** Reading starts early enough.  The files [initialize] chooses are in
    the order of their names, which is that of time, and among them are all
    that the search for the period found, after the last file that one of
    the four searches before the start found, if one is needed; and either
    the first one is not named after the start of the period, so that it can
    hold its first samples, or the four searches found no file at all. *)
Theorem reading_starts_early {fs : Type} `{Posix fs} s s' (w : fs) :
  _fullpath s <> [] -> initialize s w = Some (None, s') ->
  strictly_ascending lexlt (_fileset s') /\ _initialized s' = true /\
  exists found, matchFiles (_fullpath s) (_startTime s) (_endTime s) w = Some (inr found) /\
    (_fileset s' = found \/ exists fl k files, (k < 4)%nat /\ last files = Some fl /\ _fileset s' = fl :: found /\
       matchFiles (_fullpath s) (lookBackStart s - Z.of_nat k * lookBackStep s) (_startTime s) w = Some (inr files)) /\
    forall first, head (_fileset s') = Some first ->
      lexlt (format localeText localSecs (_startTime s) (_fullpath s)) first = false \/
      forall k, (k < 4)%nat -> matchFiles (_fullpath s) (lookBackStart s - Z.of_nat k * lookBackStep s) (_startTime s) w = Some (inr []).
Proof.
  intros Hp. unfold initialize. destruct (Z.ltb_spec 0 (zlen (_fullpath s))) as [_|E].
  2: { pose proof (zlen_nonneg (_fullpath s)). destruct Hp. apply zlen_nil_inv. lia. }
  destruct (matchFiles _ _ _ w) as [[x|found]|] eqn:Em; [done| |done]. destruct (matchFiles_sound _ _ _ _ _ Em) as [M1 M2].
  set (t1File := format _ _ _ _). set (early := match head found with None => true | Some _ => _ end).
  destruct early eqn:Ee; [destruct (lookBack 4 s (lookBackStart s) w) as [[x|files]|] eqn:El; [done| |done]|]; intros [= <-].
  - cbn [_fileset with_files _initialized]. destruct (lookBack_spec _ _ _ _ _ El) as [[-> Hk]|[Hne (k & Hk4 & Hk)]].
    + cbn [withEarlier last]. split; [done|]. split; [done|]. exists found. split; [done|]. split; [by left|]. by right.
    + destruct (matchFiles_sound _ _ _ _ _ Hk) as [_ F2]. unfold withEarlier. destruct (last files) as [fl|] eqn:Ef; [|by apply last_None in Ef].
      assert (Hfl : lexlt t1File fl = false).
      { rewrite Forall_forall in F2. apply (inPeriod_end (format localeText localSecs (lookBackStart s - Z.of_nat k * lookBackStep s) (_fullpath s))).
        apply F2. apply last_Some in Ef as [l' ->]. apply elem_of_app. right. by left. }
      assert (Hlt : match head found with None => true | Some firstFile => lexlt fl firstFile end = true).
      { subst early. destruct (head found) as [f1|]; [|done]. destruct (lexlt fl f1) eqn:Eq; [done|]. exfalso.
        destruct (lexlt f1 fl) eqn:Eq2; [by rewrite (lexlt_trans _ _ _ Ee Eq2) in Hfl|]. by rewrite (lexlt_total _ _ Eq Eq2), Ee in Hfl. }
      rewrite Hlt. split; [|split; [done|]].
      * constructor; [done|]. destruct found as [|f1 found]; [constructor|]. cbn in Hlt. apply StronglySorted_inv in M1 as [_ M1]. constructor; [done|].
        eapply Forall_impl; [exact M1|]. intros q Hq. by apply (lexlt_trans _ f1).
      * exists found. split; [done|]. split; [right; by exists fl, k, files|]. intros first [= <-]. by left.
  - cbn [_fileset with_files _initialized]. split; [done|]. split; [done|]. exists found. split; [done|]. split; [by left|].
    intros first Hf. left. subst early. by rewrite Hf in Ee.
Qed.

Lemma reading_starts_early_witness :
  let w := mkMemfs [(bytes_of "a_20200228.dat", File [1]); (bytes_of "a_20200301.dat", File [1])] [] 3 in
  let s := setTimes 1582979696000000 1583200000000000 (setFileName (bytes_of "a_%Y%m%d.dat") (setFileLengthSecs 86400 newFileSet)) in
  exists s', initialize s w = Some (None, s') /\ _fileset s' = [bytes_of "a_20200228.dat"; bytes_of "a_20200301.dat"] /\
    strictly_ascending lexlt (_fileset s').
Proof.
  intros w s. eexists. split; [vm_compute; reflexivity|]. split; [vm_compute; reflexivity|].
  refine (proj1 (reading_starts_early s _ w _ _)); [discriminate|vm_compute; reflexivity].
Defined.

(** A pattern with a percent sign but without a field that changes: when the
    file exists, [createFile] does not end. *)
Lemma createFile_endless n : forall s (w : memfs) t exact, _fullpath s = bytes_of "a%%" -> _fileLength s = LONG_LONG_MAX -> _fd s < 0 ->
  mem_find (bytes_of "a%") w <> None -> LONG_LONG_MIN < t -> t + Z.of_nat n * USECS_PER_SEC < LONG_LONG_MAX ->
  createFile n t exact s w = None.
Proof.
  induction n as [|n IH]; intros s w t exact Hp Hl Hfd Hf Ht Hn; [done|]. cbn [createFile]. unfold closeFile.
  destruct (Z.leb_spec 0 (_fd s)); [lia|]. assert (En : nameTime s t exact = t).
  { unfold nameTime. rewrite Hl, Z.ltb_irrefl. by rewrite andb_false_r. }
  rewrite En. assert (Ef : format localeText localSecs t (_fullpath s) = bytes_of "a%").
  { rewrite Hp. unfold format, isMin, isMax. destruct (Z.eqb_spec t LONG_LONG_MIN); [lia|].
    destruct (Z.eqb_spec t LONG_LONG_MAX); [unfold USECS_PER_SEC in Hn; lia|]. done. }
  rewrite Ef. cbn [_currname with_file]. change (bool_decide (getDirPortion (bytes_of "a%") = bytes_of ".")) with true. cbn match.
  unfold openFileForWriting. cbn [_currname with_file _fullpath].
  assert (Ec : sys_create (bytes_of "a%") w = (inl EEXIST, w)).
  { change (mem_create (bytes_of "a%") w = (inl EEXIST, w)). unfold mem_create. by destruct (mem_find (bytes_of "a%") w). }
  rewrite Ec. cbn [_fullpath with_file]. rewrite Hp. change ((EEXIST =? EEXIST) && contains [PCT] (bytes_of "a%%")) with true. cbn match.
  destruct exact; cbn [negb]; apply IH; try done; unfold USECS_PER_SEC in *; lia.
Qed.
