(* ===== verification/SampleStream.v ===== *)
(** * Archives: writing and reading streams of samples.

    [SampleOutputStream] of [src/src/nidas/dynld/SampleOutputStream.cc]
    (samples to bytes) and [SampleInputStream] of
    [src/src/nidas/dynld/SampleInputStream.h] and [SampleInputStream.cc]
    (bytes to samples, with bad-sample filtering and resynchronisation), over
    the buffered streams of [IOStream.v], the archive header of
    [InputHeader.v] and the filter of [BadSampleFilter.v].  A little-endian
    machine is assumed, as the archive format is.  References to samples are
    not counted here. *)

From stdpp Require Import strings.
From S2P Require Import Prelude SampleId Sample IOStream InputHeader BadSampleFilter.

(** ** Samples and their bytes *)

Record ArchSample := mkArchSample {
  a_header : SampleHeader;
  a_data : list Z
}.

#[export] Instance ArchSample_eq_dec : EqDecision ArchSample.
Proof. solve_decision. Defined.

(** The 16 bytes of a [SampleHeader]. *)
Definition header_bytes (h : SampleHeader) : list Z :=
  Z_to_little_endian 8 8 (u64 (_tt h)) ++ Z_to_little_endian 4 8 (_length h) ++ Z_to_little_endian 4 8 (_tid h).

Definition header_of (bs : list Z) : SampleHeader :=
  mkSampleHeader (s64 (little_endian_to_Z 8 (take 8 bs))) (u32 (little_endian_to_Z 8 (take 4 (drop 8 bs))))
    (u32 (little_endian_to_Z 8 (take 4 (drop 12 bs)))).

Definition enc (s : ArchSample) : list Z := header_bytes (a_header s) ++ a_data s.

(** ** SampleOutputStream *)

(** [_lastFlushTT], [_maxUsecs], [getNextFileTime()] and the count of
    discarded samples. *)
Record SampleOutputStream := mkSampleOutputStream {
  o_io : IOStream;
  _maxUsecs : Z;
  _lastFlushTT : Z;
  _nextFileTime : Z;
  _discardedSamples : Z
}.

(** [write(samp,streamFlush)] *)
Definition sos_write (s : ArchSample) (flush : bool) (o : SampleOutputStream) (c : OutChannel) :
    option Z * SampleOutputStream * OutChannel :=
  let '(r, io, c) := io_write [header_bytes (a_header s); a_data s] flush (o_io o) c in
  (r, mkSampleOutputStream io (_maxUsecs o) (_lastFlushTT o) (_nextFileTime o) (_discardedSamples o), c).

Definition newSampleOutputStream (blen maxUsecs : Z) : SampleOutputStream :=
  mkSampleOutputStream (newIOStream blen) maxUsecs 0 LONG_LONG_MIN 0.

Section Receive.

(** [IOChannel::createFile(tt,exact)] of the channel opens a file and returns
    the time of the next one, or throws; [header] is the header to write, if
    the channel's [writeNidasHeader()] is set. *)
Context (createFile : Z -> bool -> OutChannel -> option (Z * OutChannel)) (header : option InputHeader).

(** [createNextFile(tt)]: [false] is an exception. *)
Definition createNextFile (tt : Z) (o : SampleOutputStream) (c : OutChannel) :
    bool * SampleOutputStream * OutChannel :=
  match createFile tt (_nextFileTime o =? LONG_LONG_MIN) c with
  | None => (false, o, c)
  | Some (t, c) =>
      let with_out io := mkSampleOutputStream io (_maxUsecs o) (_lastFlushTT o) t (_discardedSamples o) in
      match header with
      | None => (true, with_out (o_io o), c)
      | Some h =>
          let '(r, io, c) := io_write [toString h] false (o_io o) c in
          (bool_decide (is_Some r), with_out io, c)
      end
  end.

(** [receive(samp)] *)
Definition sos_receive (s : ArchSample) (o : SampleOutputStream) (c : OutChannel) :
    bool * SampleOutputStream * OutChannel :=
  let tsamp := _tt (a_header s) in
  let opened :=
    if _nextFileTime o <=? tsamp then
      let '(ok, io, c) := io_flush (o_io o) c in
      let o := mkSampleOutputStream io (_maxUsecs o) (_lastFlushTT o) (_nextFileTime o) (_discardedSamples o) in
      if negb ok then (false, o, c) else createNextFile tsamp o c
    else (true, o, c) in
  match opened with
  | (false, o, c) => (false, o, c)
  | (true, o, c) =>
      let streamFlush := _maxUsecs o <? tsamp - _lastFlushTT o in
      let o := mkSampleOutputStream (o_io o) (_maxUsecs o) (if streamFlush then tsamp else _lastFlushTT o)
                 (_nextFileTime o) (_discardedSamples o) in
      match sos_write s streamFlush o c with
      | (None, o, c) => (false, o, c)
      | (Some n, o, c) =>
          (true, mkSampleOutputStream (o_io o) (_maxUsecs o) (_lastFlushTT o) (_nextFileTime o)
                   (if 0 <? n then _discardedSamples o else _discardedSamples o + 1), c)
      end
  end.

(** The samples of a list that [receive] did not discard; [None] when it
    disconnected. *)
Fixpoint receive_all (l : list ArchSample) (o : SampleOutputStream) (c : OutChannel) :
    option (list ArchSample * SampleOutputStream * OutChannel) :=
  match l with
  | [] => Some ([], o, c)
  | s :: l =>
      match sos_receive s o c with
      | (false, _, _) => None
      | (true, o1, c1) =>
          match receive_all l o1 c1 with
          | None => None
          | Some (acc, o2, c2) =>
              Some (if _discardedSamples o1 =? _discardedSamples o then s :: acc else acc, o2, c2)
          end
      end
  end.

End Receive.

(** ** BlockStats *)

Record BlockStats := mkBlockStats {
  start_time : Z;
  end_time : Z;
  good : bool;
  nsamples : Z;
  block_start : Z;
  nbytes : Z;
  last_good_sample_size : Z
}.

Definition newBlockStats (goodblock : bool) (startblock : Z) : BlockStats :=
  mkBlockStats LONG_LONG_MIN LONG_LONG_MAX goodblock 0 (u64 startblock) 0 0.

Definition addGoodSample (h : SampleHeader) (offset : Z) (b : BlockStats) : BlockStats :=
  let b := if negb (good b) || (nbytes b =? 0)
           then let b := newBlockStats true offset in
                mkBlockStats (_tt h) (end_time b) true 0 (block_start b) 0 0
           else b in
  mkBlockStats (start_time b) (_tt h) (good b) (u64 (nsamples b + 1)) (block_start b)
    (u64 (nbytes b + u32 (SIZEOF_SAMPLE_HEADER + _length h))) (_length h).

Definition startBadBlock (offset : Z) (b : BlockStats) : BlockStats :=
  mkBlockStats (end_time b) LONG_LONG_MAX false 0 (u64 offset) 1 0.

Definition endBadBlock (h : option SampleHeader) (offset : Z) (b : BlockStats) : BlockStats :=
  mkBlockStats (start_time b) (match h with Some h => _tt h | None => end_time b end) (good b)
    (nsamples b) (block_start b) (u64 (offset - block_start b)) (last_good_sample_size b).

(** ** SampleInputStream: state

    [i_hdr] are the bytes of [_sheader] read so far ([_headerToRead] is 16
    less their number), [i_samp] the sample being read with its data so far.
    [i_nodata]: the pool gives an empty sample without memory, whose data
    pointer is null. *)
Record SampleInputStream := mkSIS {
  i_io : IOStream;
  i_chan : Channel;
  _expectHeader : bool;
  _inputHeaderParsed : bool;
  i_hdr : list Z;
  i_samp : option ArchSample;
  _sampPending : option ArchSample;
  _skipSample : bool;
  _block : BlockStats;
  _badSamples : Z;
  _goodSamples : Z;
  _inputHeader : InputHeader;
  _bsf : BadSampleFilter;
  _ateof : bool;
  i_nodata : bool
}.

(** The constructor with a channel, after [setExpectHeader] and
    [setBadSampleFilter]. *)
Definition newSampleInputStream (blen : Z) (c : Channel) (expectHeader : bool) (bsf : BadSampleFilter)
    (nodata : bool) : SampleInputStream :=
  mkSIS (newIOStream blen) c expectHeader false [] None None false (newBlockStats true 0) 0 0
    newInputHeader bsf false nodata.

Definition _headerToRead (m : SampleInputStream) : Z := SIZEOF_SAMPLE_HEADER - zlen (i_hdr m).

Definition _dataToRead (m : SampleInputStream) : Z :=
  match i_samp m with Some s => _length (a_header s) - zlen (a_data s) | None => 0 end.

Definition with_stream (m : SampleInputStream) (io : IOStream) (c : Channel) (eof : bool) : SampleInputStream :=
  mkSIS io c (_expectHeader m) (_inputHeaderParsed m) (i_hdr m) (i_samp m) (_sampPending m) (_skipSample m)
    (_block m) (_badSamples m) (_goodSamples m) (_inputHeader m) (_bsf m) eof (i_nodata m).

Definition with_parsed (m : SampleInputStream) (parsed : bool) (h : InputHeader) : SampleInputStream :=
  mkSIS (i_io m) (i_chan m) (_expectHeader m) parsed (i_hdr m) (i_samp m) (_sampPending m) (_skipSample m)
    (_block m) (_badSamples m) (_goodSamples m) h (_bsf m) (_ateof m) (i_nodata m).

Definition with_sample (m : SampleInputStream) (hdr : list Z) (samp pend : option ArchSample) : SampleInputStream :=
  mkSIS (i_io m) (i_chan m) (_expectHeader m) (_inputHeaderParsed m) hdr samp pend (_skipSample m)
    (_block m) (_badSamples m) (_goodSamples m) (_inputHeader m) (_bsf m) (_ateof m) (i_nodata m).

Definition with_block (m : SampleInputStream) (skip : bool) (b : BlockStats) (bad goodn : Z) : SampleInputStream :=
  mkSIS (i_io m) (i_chan m) (_expectHeader m) (_inputHeaderParsed m) (i_hdr m) (i_samp m) (_sampPending m) skip
    b bad goodn (_inputHeader m) (_bsf m) (_ateof m) (i_nodata m).

(** ** Reading *)

Definition closeBlocks (m : SampleInputStream) : SampleInputStream :=
  if (_badSamples m =? 0) && (_goodSamples m =? 0) then m
  else with_block m (_skipSample m) (newBlockStats true 0) 0 0.

Definition handleNewInput (m : SampleInputStream) : SampleInputStream :=
  let m := closeBlocks m in
  let m := with_stream m (snd (backupAll (i_io m))) (i_chan m) (_ateof m) in
  with_parsed m false (_inputHeader m).

(** [read(keepreading,ptr,lentoread)], [len] [None] for a null pointer: the
    bytes counted in [ReadResult::len], [newinput], [eof]. *)
Definition sis_read (keepreading : bool) (len : option Z) (m : SampleInputStream) :
    list Z * bool * bool * SampleInputStream :=
  let '(bs, eof, io, c) :=
    match len with
    | Some len =>
        if keepreading then
          let '(bs, eof, io, c) := readInto len (i_io m) (i_chan m) in
          (if eof : bool then [] else bs, eof, io, c)
        else
          let '(bs, io) := readBuf len (i_io m) in (bs, false, io, i_chan m)
    | None =>
        if keepreading then
          match io_read (i_io m) (i_chan m) with
          | (Some _, io, c) => ([], false, io, c)
          | (None, io, c) => ([], true, io, c)
          end
        else ([], false, i_io m, i_chan m)
    end in
  let m := with_stream m io c (eof || _ateof m) in
  let newinput := _newInput io in
  (bs, newinput, eof, if newinput then handleNewInput m else m).

(** [readBlock(keepreading,ptr,lentoread)]: reads that give nothing (a
    non-blocking channel) are repeated, [fuel] bounds their number. *)
Fixpoint readBlock (fuel : nat) (keepreading isnull : bool) (len : Z) (out : list Z) (m : SampleInputStream) :
    list Z * bool * bool * SampleInputStream :=
  let '(bs, newinput, eof, m) := sis_read keepreading (if isnull then None else Some len) m in
  let len := len - zlen bs in
  let out := out ++ bs in
  match fuel with
  | S fuel =>
      if keepreading && (0 <? len) && negb eof && negb newinput
      then readBlock fuel keepreading isnull len out m else (out, newinput, eof, m)
  | O => (out, newinput, eof, m)
  end.

Definition blockFuel (m : SampleInputStream) : nat := length (ch_events (i_chan m)).

(** [parseInputHeader()]: [false] is an exception. *)
Definition parseInputHeader (m : SampleInputStream) : bool * SampleInputStream :=
  let m := with_sample m [] None (_sampPending m) in
  if negb (_expectHeader m) then (true, with_parsed m true (_inputHeader m))
  else
    let '(o, h, io) := parse (_inputHeader m) (i_io m) in
    let m := with_stream m io (i_chan m) (_ateof m) in
    match o with
    | Parsed => (true, with_parsed m true h)
    | More => (true, with_parsed m false h)
    | _ => if _skipNidasHeader (_bsf m)
           then (true, with_parsed (with_stream m (snd (backupAll io)) (i_chan m) (_ateof m)) true h)
           else (false, with_parsed m false h)
    end.

(** [readInputHeader()], with a bound on the physical reads. *)
Fixpoint readInputHeader (fuel : nat) (m : SampleInputStream) : bool * SampleInputStream :=
  if _inputHeaderParsed m then (true, m)
  else
    match fuel with
    | O => (false, m)
    | S fuel =>
        match io_read (i_io m) (i_chan m) with
        | (None, io, c) => (false, with_stream m io c (_ateof m))
        | (Some _, io, c) =>
            match parseInputHeader (with_stream m io c (_ateof m)) with
            | (false, m) => (false, m)
            | (true, m) => readInputHeader fuel m
            end
        end
    end.

Definition headerFuel (m : SampleInputStream) : nat := S (length (ch_bytes (i_chan m)) + length (ch_events (i_chan m))).

(** ** Samples *)

(** [sampleFromHeader()]: the header of the new sample, or null. *)
Definition sampleFromHeader (m : SampleInputStream) : option SampleHeader * SampleInputStream :=
  let sheader := header_of (i_hdr m) in
  let offset := _nbytesIn (i_io m) - SIZEOF_SAMPLE_HEADER in
  let samp :=
    if _filterBadSamples (_bsf m) && invalidSampleHeader (_bsf m) sheader then None
    else getSample (DataT := Z) (sampleType_of_enum (getType sheader)) (_length sheader) in
  let b := _block m in
  let badblock := negb (good b) && negb (nbytes b =? 0) in
  match samp with
  | None =>
      let b := if good b && negb (nbytes b =? 0) then startBadBlock offset b else endBadBlock None offset b in
      let m := with_block m false b (u64 (_badSamples m + 1)) (_goodSamples m) in
      (None, with_sample m (tail (i_hdr m)) None (_sampPending m))
  | Some s =>
      if badblock && negb (_skipSample m) then
        (Some (_header s), with_block m true b (_badSamples m) (_goodSamples m))
      else
        let h := setId (SampleId.setTimeTag (_header s) (_tt sheader)) (getId sheader) in
        let b := if badblock then endBadBlock (Some h) offset b else b in
        (Some h, with_block m false (addGoodSample h offset b) (_badSamples m) (u64 (_goodSamples m + 1)))
  end.

(** The result of [nextSample]: a sample, null, an exception, or the bound on
    iterations was too small. *)
Inductive ns_result := Got (s : ArchSample) | Null | Thrown | OutOfFuel.

(** [handleEOF(keepreading)] *)
Definition handleEOF (keepreading : bool) (m : SampleInputStream) : ns_result * SampleInputStream :=
  match _sampPending m with
  | Some s => (Got s, with_sample m (i_hdr m) (i_samp m) None)
  | None => (if keepreading then Thrown else Null, m)
  end.

(** One turn of the loop of [nextSample]: return, or go round again with
    [rr.newinput]. *)
Inductive ns_step :=
| Return (r : ns_result) (m : SampleInputStream)
| Continue (newinput : bool) (m : SampleInputStream).

(** The second part: the header is complete, [samp] is the sample being
    read.  [search] is the time searched for, if any. *)
Definition ns_data (keepreading : bool) (search : option Z) (s : ArchSample) (m : SampleInputStream) : ns_step :=
  if negb (_skipSample m) && match search with Some t => t <=? _tt (a_header s) | None => false end
  then Return Null m
  else
    let isnull := i_nodata m && (_length (a_header s) =? 0) in
    let '(bs, newinput, eof, m) := readBlock (blockFuel m) keepreading isnull (_dataToRead m) [] m in
    let s := mkArchSample (a_header s) (a_data s ++ bs) in
    let m := with_sample m (i_hdr m) (Some s) (_sampPending m) in
    if eof || newinput then Continue newinput m
    else if 0 <? _dataToRead m then Return Null m
    else
      let out := if _skipSample m || bool_decide (is_Some search) then None else Some s in
      if _filterBadSamples (_bsf m) then Continue false (with_sample m [] None out)
      else
        let m := with_sample m [] None (_sampPending m) in
        match out with
        | Some s => Return (Got s) m
        | None => Continue false m
        end.

(** A pending sample is passed on once a good header follows it. *)
Definition ns_pending (keepreading : bool) (search : option Z) (m : SampleInputStream) : ns_step :=
  match _sampPending m with
  | Some s => Return (Got s) (with_sample m (i_hdr m) (i_samp m) None)
  | None =>
      match i_samp m with
      | Some s => ns_data keepreading search s m
      | None => Continue false (with_sample m [] None None)
      end
  end.

(** The first part: read the sample header, if that is to be done. *)
Definition ns_header (keepreading : bool) (search : option Z) (m : SampleInputStream) : ns_step :=
  if 0 <? _headerToRead m then
    let '(bs, newinput, eof, m) := readBlock (blockFuel m) keepreading false (_headerToRead m) [] m in
    let m := with_sample m (i_hdr m ++ bs) (i_samp m) (_sampPending m) in
    if eof || newinput then Continue newinput m
    else if 0 <? _headerToRead m then Return Null m
    else
      match sampleFromHeader m with
      | (None, m) => Continue false (with_sample m (i_hdr m) None None)
      | (Some h, m) => ns_pending keepreading search (with_sample m (i_hdr m) (Some (mkArchSample h [])) (_sampPending m))
      end
  else ns_pending keepreading search m.

Definition ns_iter (keepreading : bool) (search : option Z) (newinput : bool) (m : SampleInputStream) : ns_step :=
  if _ateof m then let '(r, m) := handleEOF keepreading m in Return r m
  else
    match _sampPending m, newinput with
    | Some s, true => Return (Got s) (with_sample m (i_hdr m) (i_samp m) None)
    | _, _ =>
        match readInputHeader (headerFuel m) m with
        | (false, m) => Return Thrown m
        | (true, m) => ns_header keepreading search m
        end
    end.

Fixpoint nextSample_loop (fuel : nat) (keepreading : bool) (search : option Z) (newinput : bool)
    (m : SampleInputStream) : ns_result * SampleInputStream :=
  match fuel with
  | O => (OutOfFuel, m)
  | S fuel =>
      match ns_iter keepreading search newinput m with
      | Return r m => (r, m)
      | Continue newinput m => nextSample_loop fuel keepreading search newinput m
      end
  end.

(** The number of turns: at most two for each byte and each read. *)
Definition sampleFuel (m : SampleInputStream) : nat :=
  4 + 2 * (length (io_unread (i_io m)) + length (ch_bytes (i_chan m)) + length (ch_events (i_chan m))).

(** [readSample()], [nextSample()] (an exception is caught) and
    [search(tt)]. *)
Definition readSample (m : SampleInputStream) : ns_result * SampleInputStream :=
  nextSample_loop (sampleFuel m) true None false m.

Definition nextSample (m : SampleInputStream) : ns_result * SampleInputStream :=
  match nextSample_loop (sampleFuel m) false None false m with
  | (Thrown, m) => (Null, m)
  | r => r
  end.

Definition search (t : Z) (m : SampleInputStream) : ns_result * SampleInputStream :=
  nextSample_loop (sampleFuel m) true (Some t) false m.

(** The loop over [nextSample()] of [readSamples]. *)
Fixpoint drain_samples (n : nat) (m : SampleInputStream) : list ArchSample * SampleInputStream :=
  match n with
  | O => ([], m)
  | S n =>
      match nextSample m with
      | (Got s, m) => let '(l, m) := drain_samples n m in (s :: l, m)
      | (_, m) => ([], m)
      end
  end.

(** [readSamples()]: fill the buffer, distribute every sample in it.  The
    samples distributed and the return value, [None] for the exception at the
    end of input. *)
Definition readSamples (m : SampleInputStream) : list ArchSample * option bool * SampleInputStream :=
  let '(_, _, _, m) := sis_read true None m in
  let '(l, m) := drain_samples (S (sampleFuel m)) m in
  if bool_decide (l = []) && negb (_ateof m) then ([], Some false, m)
  else if _ateof m then
    match handleEOF true m with
    | (Got s, m) => (l, Some true, m)
    | (_, m) => (l, None, m)
    end
  else (l, Some true, m).

(** Calls of [readSample] until one does not return a sample. *)
Fixpoint read_all (n : nat) (m : SampleInputStream) : list ArchSample * ns_result * SampleInputStream :=
  match n with
  | O => ([], OutOfFuel, m)
  | S n =>
      match readSample m with
      | (Got s, m) => let '(l, r, m) := read_all n m in (s :: l, r, m)
      | (r, m) => ([], r, m)
      end
  end.

(** ** Headers of samples that can be read *)

(** What [sampleFromHeader] accepts. *)
Definition good_header (f : BadSampleFilter) (h : SampleHeader) : bool :=
  negb (_filterBadSamples f && invalidSampleHeader f h) &&
  bool_decide (is_Some (getSample (DataT := Z) (sampleType_of_enum (getType h)) (_length h))).

Definition header_range (h : SampleHeader) : Prop :=
  - 2 ^ 63 <= _tt h < 2 ^ 63 /\ 0 <= _length h < 2 ^ 32 /\ 0 <= _tid h < 2 ^ 32.

Lemma header_of_range bs : header_range (header_of bs).
Proof. unfold header_range, header_of. cbn. split; [mlia|]. split; apply u32_range. Qed.

Lemma header_bytes_len h : zlen (header_bytes h) = 16.
Proof. unfold header_bytes. rewrite !zlen_app. unfold zlen. by rewrite !length_Z_to_little_endian by lia. Qed.

(** The header of a sample from the pool. *)
Lemma getSample_header t n (s : SampleT Z) :
  0 <= n < 2 ^ 32 -> getSample t n = Some s -> t <> UNKNOWN_ST /\
  _header s = mkSampleHeader 0 n (u32 (Z.shiftl (sampleType_enum t) 26)).
Proof.
  intros Hn. unfold getSample, getSampleT, allocateData, setDataLength.
  destruct t; try done; cbn [sizeofType newSampleT _allocLen _header];
    match goal with |- context [negb (?a =? n)] => destruct (Z.eqb_spec a n) as [E|E]; [|done] end; cbn [negb];
    repeat (case_match; simplify_eq; try done); intros [= <-]; (split; [done|]);
    cbn; unfold setDataByteLength; cbn; rewrite E; by rewrite u32_small by lia.
Qed.

Lemma type_of_enum_enum n : 0 <= n -> sampleType_of_enum n <> UNKNOWN_ST -> sampleType_enum (sampleType_of_enum n) = n.
Proof. intros Hn. unfold sampleType_of_enum. bdestr; subst; done. Qed.

(** Setting time and id on a sample of the header's type gives the header. *)
Lemma sample_header_is h (s : SampleT Z) :
  header_range h -> getSample (sampleType_of_enum (getType h)) (_length h) = Some s ->
  setId (SampleId.setTimeTag (_header s) (_tt h)) (getId h) = h /\ _length (_header s) = _length h.
Proof.
  intros (H1 & H2 & H3) E. destruct (getSample_header _ _ _ H2 E) as [Hu ->].
  assert (Ht : getType h = _tid h / 2 ^ 26).
  { unfold getType, u8. rewrite GET_SAMPLE_TYPE_div. apply Z.mod_small. dlia. }
  rewrite type_of_enum_enum by (done || (rewrite Ht; dlia)).
  split; [|done]. unfold setId, SampleId.setTimeTag, getId. cbn [_tt _length _tid].
  rewrite GET_FULL_ID_mod, SET_FULL_ID_arith by apply u32_range.
  rewrite Ht, Z.shiftl_mul_pow2 by lia. destruct h as [tt len tid]. cbn in *. f_equal. unfold u32. dlia.
Qed.

(** ** Reading from one input *)

(** The bytes still to come. *)
Definition remaining (m : SampleInputStream) : list Z := io_unread (i_io m) ++ ch_bytes (i_chan m).

Definition stream_wf (keepreading : bool) (m : SampleInputStream) : Prop :=
  io_wf (i_io m) /\ one_input (i_chan m) /\ (keepreading = false -> _newInput (i_io m) = false) /\
  _inputHeaderParsed m = true.

(** What a read does: it delivers bytes, or reports the end. *)
Definition block_post (keepreading : bool) (len : Z) (m : SampleInputStream)
    (res : list Z * bool * bool * SampleInputStream) : Prop :=
  let '(bs, newinput, eof, m') := res in
  newinput = false /\ m' = with_stream m (i_io m') (i_chan m') (eof || _ateof m) /\ stream_wf keepreading m' /\
  if eof then zlen (remaining m) < Z.max 1 len /\ bs = [] /\ (len <> 0 -> zlen (remaining m) < len)
  else bs ++ remaining m' = remaining m /\ zlen bs <= len /\ (keepreading = true -> zlen bs = len).

Lemma sis_read_some keepreading len m :
  stream_wf keepreading m -> 0 <= len -> block_post keepreading len m (sis_read keepreading (Some len) m).
Proof.
  intros (Hw & Hc & Hn & Hp) Hl. unfold sis_read. destruct keepreading.
  - destruct (readInto_one len (i_io m) (i_chan m) Hw Hc Hl) as (bs & eof & io & c & -> & W & O & N & B & F).
    rewrite N. cbn [block_post i_io i_chan with_stream]. split; [done|]. split; [done|]. split; [done|].
    destruct eof; [destruct F as [F _]; unfold remaining; split_and!; [lia|done|done]|].
    split; [unfold remaining; cbn; by rewrite B|]. split; [lia|done].
  - destruct (readBuf len (i_io m)) as [bs io] eqn:E.
    destruct (readBuf_spec len (i_io m) bs io Hw Hl E) as (W & B & L & _ & N & _). rewrite N, (Hn eq_refl).
    cbn [block_post i_io i_chan with_stream orb]. split; [done|]. split; [done|].
    split; [split_and!; try done; intros _; cbn; rewrite N; by apply Hn|]. split; [unfold remaining; cbn; by rewrite app_assoc, B|].
    split; [lia|done].
Qed.

Lemma sis_read_none keepreading m :
  stream_wf keepreading m -> block_post keepreading 0 m (sis_read keepreading None m).
Proof.
  intros (Hw & Hc & Hn & Hp). unfold sis_read. destruct keepreading.
  - destruct (io_read (i_io m) (i_chan m)) as [[[n|] io] c] eqn:E;
      destruct (io_read_spec _ _ _ _ _ Hw E) as (W & B & _ & _ & P);
      destruct (io_read_one _ _ _ _ _ Hw Hc E) as (O & N & _); rewrite N;
      cbn [block_post i_io i_chan with_stream]; (split; [done|]; split; [done|]; split; [done|]).
    + split; [done|]. split; [done|]. done.
    + destruct P as (P1 & P2 & _). unfold remaining, ch_bytes. rewrite P1, P2. cbn. split_and!; done.
  - rewrite (Hn eq_refl). cbn [block_post i_io i_chan with_stream orb]. split; [done|]. split; [done|].
    split; [done|]. split; [done|]. done.
Qed.

(** A block is read with one read of the stream. *)
Lemma readBlock_post fuel keepreading isnull len m :
  stream_wf keepreading m -> 0 <= len -> (isnull = true -> len = 0) ->
  block_post keepreading len m (readBlock fuel keepreading isnull len [] m).
Proof.
  intros Hw Hl Hi.
  assert (H : block_post keepreading len m (sis_read keepreading (if isnull then None else Some len) m)).
  { destruct isnull; [rewrite (Hi eq_refl); by apply sis_read_none|by apply sis_read_some]. }
  assert (E : readBlock fuel keepreading isnull len [] m = sis_read keepreading (if isnull then None else Some len) m).
  { destruct fuel as [|fuel]; cbn [readBlock];
      destruct (sis_read keepreading (if isnull then None else Some len) m) as [[[bs ni] eof] m'] eqn:Es; [done|].
    cbn [app]. destruct H as (-> & _ & _ & H). destruct eof; [by rewrite !andb_false_r|].
    destruct H as (_ & _ & H). destruct keepreading; [|done].
    destruct (Z.ltb_spec 0 (len - zlen bs)); [specialize (H eq_refl); lia|done]. }
  by rewrite E.
Qed.

(** ** What is left to deliver *)

(** A string of bytes that is one sample. *)
Definition frame_of (bs : list Z) (d : ArchSample) : Prop :=
  exists hdr, bs = hdr ++ a_data d /\ zlen hdr = 16 /\ header_of hdr = a_header d /\
    zlen (a_data d) = _length (a_header d).

(** What may follow a delivered sample when filtering: another good header,
    or the last few bytes. *)
Definition follow_ok (f : BadSampleFilter) (rest : list Z) : Prop :=
  zlen rest < 16 \/ exists hdr r, rest = hdr ++ r /\ zlen hdr = 16 /\ good_header f (header_of hdr) = true.

(** The samples [ds] occur in [bs], one after the other. *)
Inductive delivered (f : BadSampleFilter) : list Z -> list ArchSample -> Prop :=
| dl_nil bs : delivered f bs []
| dl_cons skipped bs d rest ds :
    frame_of bs d -> good_header f (a_header d) = true ->
    (_filterBadSamples f = true -> follow_ok f rest) ->
    delivered f rest ds -> delivered f (skipped ++ bs ++ rest) (d :: ds).

Lemma delivered_skip f g bs ds : delivered f bs ds -> delivered f (g ++ bs) ds.
Proof.
  destruct 1 as [|skipped bs d rest ds]; [constructor|]. rewrite app_assoc. by constructor.
Qed.

(** The bytes of a state: the pending sample, what was read of the current
    one, and what is to come. *)
Definition pend_is (f : BadSampleFilter) (m : SampleInputStream) (pb : list Z) : Prop :=
  match _sampPending m with
  | Some d => frame_of pb d /\ good_header f (a_header d) = true /\ _filterBadSamples f = true
  | None => pb = []
  end.

Definition samp_is (f : BadSampleFilter) (m : SampleInputStream) (cur : list Z) : Prop :=
  match i_samp m with
  | None => zlen (i_hdr m) < 16 /\ cur = i_hdr m
  | Some s =>
      zlen (i_hdr m) = 16 /\ good_header f (header_of (i_hdr m)) = true /\
      _length (a_header s) = _length (header_of (i_hdr m)) /\ zlen (a_data s) <= _length (a_header s) /\
      (_skipSample m = false -> a_header s = header_of (i_hdr m)) /\ cur = i_hdr m ++ a_data s
  end.

Definition left_is (keepreading : bool) (m : SampleInputStream) (V : list Z) : Prop :=
  stream_wf keepreading m /\
  if _ateof m then
    match _sampPending m with
    | Some d => exists pb rest, V = pb ++ rest /\ pend_is (_bsf m) m pb /\ zlen rest < 16
    | None => True
    end
  else exists pb cur, V = pb ++ cur ++ remaining m /\ pend_is (_bsf m) m pb /\ samp_is (_bsf m) m cur.

(** Decreases with every turn of the loop. *)
Definition turns (m : SampleInputStream) : nat :=
  if _ateof m then 0 else S (2 * length (remaining m) + match i_samp m with Some _ => 1 | None => 0 end).

Definition step_post (keepreading : bool) (search : option Z) (m : SampleInputStream) (V : list Z) (st : ns_step) : Prop :=
  match st with
  | Return r m' =>
      _bsf m' = _bsf m /\ (r <> OutOfFuel /\ (keepreading = true -> search = None -> r <> Null)) /\
      match r with
      | Got d => exists g bs rest, V = g ++ bs ++ rest /\ frame_of bs d /\ good_header (_bsf m) (a_header d) = true /\
          (_filterBadSamples (_bsf m) = true -> follow_ok (_bsf m) rest) /\ left_is keepreading m' rest
      | _ => exists g rest, V = g ++ rest /\ left_is keepreading m' rest
      end
  | Continue newinput m' =>
      _bsf m' = _bsf m /\ newinput = false /\ (turns m' < turns m)%nat /\
      exists g rest, V = g ++ rest /\ left_is keepreading m' rest
  end.

Lemma step_post_trans keepreading search m m0 V g st :
  _bsf m = _bsf m0 -> (turns m <= turns m0)%nat ->
  step_post keepreading search m V st -> step_post keepreading search m0 (g ++ V) st.
Proof.
  intros Ef Ht. unfold step_post. destruct st as [r m'|n m'].
  - rewrite Ef. intros (E1 & E2 & H). split; [done|]. split; [done|]. destruct r.
    1: destruct H as (g' & bs & rest & -> & H); exists (g ++ g'), bs, rest; by rewrite <- app_assoc.
    all: destruct H as (g' & rest & -> & H); exists (g ++ g'), rest; by rewrite <- app_assoc.
  - rewrite Ef. intros (E1 & E2 & E3 & g' & rest & -> & H). split; [done|]. split; [done|]. split; [lia|].
    exists (g ++ g'), rest. by rewrite <- app_assoc.
Qed.

Lemma ns_data_post keepreading search s m V :
  _ateof m = false -> _sampPending m = None -> i_samp m = Some s -> left_is keepreading m V ->
  step_post keepreading search m V (ns_data keepreading search s m).
Proof.
  intros He Hpend Hsamp Hl. unfold ns_data. pose proof Hl as [Hw Hv]. rewrite He in Hv.
  destruct Hv as (pb & cur & -> & Hpb & Hcur). unfold pend_is in Hpb. rewrite Hpend in Hpb. subst pb.
  unfold samp_is in Hcur. rewrite Hsamp in Hcur. destruct Hcur as (Hh16 & Hgood & Hlen & Hle & Hskip & ->).
  destruct (_ && _) eqn:Estop.
  { split; [done|]. split; [|by exists [], (([] ++ (i_hdr m ++ a_data s) ++ remaining m))].
    split; [done|]. intros _ ->. by rewrite andb_false_r in Estop. }
  set (isnull := i_nodata m && (_length (a_header s) =? 0)).
  assert (Hd : _dataToRead m = _length (a_header s) - zlen (a_data s)) by (unfold _dataToRead; by rewrite Hsamp).
  pose proof (zlen_nonneg (a_data s)) as Hz.
  assert (Hb : block_post keepreading (_dataToRead m) m (readBlock (blockFuel m) keepreading isnull (_dataToRead m) [] m)).
  { apply readBlock_post; [done|lia|]. intros [_ H0]%andb_true_iff. apply Z.eqb_eq in H0. lia. }
  destruct (readBlock _ _ _ _ _ _) as [[[bs ni] eof] m1]. destruct Hb as (-> & Em1 & Hw1 & Hb).
  assert (Ef : _bsf m1 = _bsf m /\ _sampPending m1 = None /\ i_hdr m1 = i_hdr m /\ _skipSample m1 = _skipSample m /\
    _ateof m1 = eof || _ateof m) by (rewrite Em1; done).
  destruct Ef as (Ef1 & Ef2 & Ef3 & Ef4 & Ef5). clear Em1. rewrite He in Ef5. rewrite orb_false_r in Ef5 |- *.
  assert (Ht : turns m = S (2 * length (remaining m) + 1)) by (unfold turns; by rewrite He, Hsamp).
  destruct eof.
  - split; [done|]. split; [done|]. split; [unfold turns at 1; cbn; rewrite Ef5; lia|].
    exists [], ([] ++ (i_hdr m ++ a_data s) ++ remaining m). split; [done|]. split; [done|]. cbn. by rewrite Ef5, Ef2.
  - destruct Hb as (Hb1 & Hb2 & Hb3). rewrite Ef2, Ef3.
    set (s' := mkArchSample (a_header s) (a_data s ++ bs)).
    set (m2 := with_sample m1 (i_hdr m) (Some s') None).
    assert (Ed : _dataToRead m2 = _length (a_header s) - zlen (a_data s) - zlen bs).
    { unfold _dataToRead, m2, s'. cbn. rewrite zlen_app. lia. }
    rewrite Ed. destruct (Z.ltb_spec 0 (_length (a_header s) - zlen (a_data s) - zlen bs)) as [Hm|Hm].
    + split; [done|]. split; [split; [done|]; intros Hk _; specialize (Hb3 Hk); lia|].
      exists [], (i_hdr m ++ (a_data s ++ bs) ++ remaining m1).
      split; [cbn [app]; rewrite <- Hb1, <- !app_assoc; done|]. split; [done|]. cbn [m2 with_sample _ateof]. rewrite Ef5.
      exists [], (i_hdr m ++ a_data s ++ bs). split; [cbn [app]; unfold m2, remaining; cbn; by rewrite <- !app_assoc|].
      split; [done|]. unfold samp_is. cbn. rewrite Ef1, Ef4, zlen_app. split_and!; try done. lia.
    + assert (Hfull : zlen (a_data s') = _length (a_header s')) by (unfold s'; cbn; rewrite zlen_app; lia).
      assert (EV : [] ++ (i_hdr m ++ a_data s) ++ remaining m = (i_hdr m ++ a_data s') ++ remaining m1).
      { cbn [app]. rewrite <- Hb1. unfold s'. cbn. by rewrite <- !app_assoc. }
      assert (Hlen' : (length (remaining m1) <= length (remaining m))%nat) by (rewrite <- Hb1, length_app; lia).
      change (_skipSample m2) with (_skipSample m1). change (_bsf m2) with (_bsf m1). rewrite Ef1, Ef4.
      destruct (_skipSample m || bool_decide (is_Some search)) eqn:Eskip.
      * assert (Hcont : step_post keepreading search m ([] ++ (i_hdr m ++ a_data s) ++ remaining m)
          (Continue false (with_sample m2 [] None None))).
        { split; [done|]. split; [done|]. split; [rewrite Ht; unfold turns; cbn; rewrite Ef5; unfold remaining in *; cbn; lia|].
          rewrite EV. exists (i_hdr m ++ a_data s'), (remaining m1). split; [done|]. split; [done|]. cbn. rewrite Ef5.
          exists [], []. done. }
        by destruct (_filterBadSamples (_bsf m)).
      * apply orb_false_iff in Eskip as [Esk _].
        assert (Hframe : frame_of (i_hdr m ++ a_data s') s').
        { exists (i_hdr m). split_and!; try done. unfold s'. cbn. by rewrite (Hskip Esk). }
        assert (Hgs : good_header (_bsf m) (a_header s') = true) by (unfold s'; cbn; by rewrite (Hskip Esk)).
        destruct (_filterBadSamples (_bsf m)) eqn:Eflt.
        -- split; [done|]. split; [done|]. split; [rewrite Ht; unfold turns; cbn; rewrite Ef5; unfold remaining in *; cbn; lia|].
           rewrite EV. exists [], ((i_hdr m ++ a_data s') ++ remaining m1). split; [done|]. split; [done|].
           cbn [with_sample _ateof m2]. rewrite Ef5. exists (i_hdr m ++ a_data s'), []. split; [done|].
           split; [unfold pend_is; cbn; by rewrite Ef1|done].
        -- split; [done|]. split; [done|]. rewrite EV. exists [], (i_hdr m ++ a_data s'), (remaining m1).
           split; [done|]. split; [done|]. split; [done|]. split; [congruence|]. split; [done|].
           cbn [with_sample _ateof m2]. rewrite Ef5. exists [], []. done.
Qed.

Lemma ns_pending_post keepreading search m V :
  _ateof m = false -> is_Some (i_samp m) -> left_is keepreading m V ->
  step_post keepreading search m V (ns_pending keepreading search m).
Proof.
  intros He [s Hsamp] Hl. unfold ns_pending. destruct (_sampPending m) as [d|] eqn:Hpend.
  - pose proof Hl as [Hw Hv]. rewrite He in Hv. destruct Hv as (pb & cur & -> & Hpb & Hcur).
    unfold pend_is in Hpb. rewrite Hpend in Hpb. destruct Hpb as (Hf & Hg & Hfl).
    split; [done|]. split; [done|]. exists [], pb, (cur ++ remaining m). split; [done|]. split; [done|]. split; [done|].
    split.
    + intros _. right. unfold samp_is in Hcur. rewrite Hsamp in Hcur. destruct Hcur as (H16 & Hgood & _ & _ & _ & ->).
      exists (i_hdr m), (a_data s ++ remaining m). by rewrite <- app_assoc.
    + split; [done|]. cbn. rewrite He. exists [], cur. split; [done|]. split; [done|].
      unfold samp_is in *. cbn. done.
  - rewrite Hsamp. by apply ns_data_post.
Qed.

(** [sampleFromHeader] on a complete header. *)
Lemma sampleFromHeader_spec m :
  exists h m', sampleFromHeader m = (h, m') /\
  m' = with_sample (with_block m (_skipSample m') (_block m') (_badSamples m') (_goodSamples m')) (i_hdr m') (i_samp m') (_sampPending m) /\
  if good_header (_bsf m) (header_of (i_hdr m)) then
    i_hdr m' = i_hdr m /\ i_samp m' = i_samp m /\
    exists hd, h = Some hd /\ _length hd = _length (header_of (i_hdr m)) /\
      (_skipSample m' = false -> hd = header_of (i_hdr m))
  else h = None /\ i_hdr m' = tail (i_hdr m) /\ i_samp m' = None.
Proof.
  unfold sampleFromHeader, good_header.
  destruct (_filterBadSamples (_bsf m) && invalidSampleHeader (_bsf m) (header_of (i_hdr m))); cbn [negb andb].
  { eexists _, _. split; [reflexivity|]. split; [reflexivity|]. done. }
  destruct (getSample _ _) as [s|] eqn:E.
  - destruct (sample_header_is _ s (header_of_range (i_hdr m)) E) as [E1 E2].
    rewrite bool_decide_eq_true_2 by done. destruct (_ && negb (_skipSample m)).
    + eexists _, _. split; [reflexivity|]. split; [by destruct m|]. split; [done|]. split; [done|].
      eexists. split; [done|]. split; [done|]. done.
    + eexists _, _. split; [reflexivity|]. split; [by destruct m|]. split; [done|]. split; [done|].
      eexists. split; [done|]. rewrite E1. done.
  - rewrite bool_decide_eq_false_2 by (by intros [? ?]). eexists _, _. split; [reflexivity|]. split; [reflexivity|]. done.
Qed.

Lemma ns_header_post keepreading search m V :
  _ateof m = false -> left_is keepreading m V ->
  step_post keepreading search m V (ns_header keepreading search m).
Proof.
  intros He Hl. unfold ns_header. pose proof Hl as [Hw Hv]. rewrite He in Hv.
  destruct Hv as (pb & cur & -> & Hpb & Hcur). unfold _headerToRead at 1, SIZEOF_SAMPLE_HEADER.
  destruct (Z.ltb_spec 0 (16 - zlen (i_hdr m))) as [H16|H16].
  2: { apply ns_pending_post; [done| |done]. unfold samp_is in Hcur. destruct (i_samp m); [done|]. lia. }
  assert (Hsamp : i_samp m = None) by (unfold samp_is in Hcur; destruct (i_samp m); [lia|done]).
  unfold samp_is in Hcur. rewrite Hsamp in Hcur. destruct Hcur as [_ ->].
  pose proof (readBlock_post (blockFuel m) keepreading false (_headerToRead m) m Hw
    ltac:(unfold _headerToRead, SIZEOF_SAMPLE_HEADER; lia) ltac:(done)) as Hb.
  destruct (readBlock _ _ _ _ _ _) as [[[bs ni] eof] m1]. destruct Hb as (-> & Em1 & Hw1 & Hb).
  assert (Ef : _bsf m1 = _bsf m /\ _sampPending m1 = _sampPending m /\ i_hdr m1 = i_hdr m /\ i_samp m1 = None /\
    _ateof m1 = eof || _ateof m) by (rewrite Em1; done).
  destruct Ef as (Ef1 & Ef2 & Ef3 & Ef4 & Ef5). clear Em1. rewrite He, orb_false_r in Ef5. rewrite orb_false_r.
  rewrite Ef2, Ef3, Ef4. assert (Ht : turns m = S (2 * length (remaining m) + 0)) by (unfold turns; by rewrite He, Hsamp).
  unfold _headerToRead, SIZEOF_SAMPLE_HEADER in Hb. destruct eof.
  { destruct Hb as (_ & -> & Hb). specialize (Hb ltac:(lia)).
    split; [done|]. split; [done|]. split; [unfold turns at 1; cbn; rewrite Ef5; lia|].
    exists [], (pb ++ i_hdr m ++ remaining m). split; [done|]. split; [done|]. cbn [with_sample _ateof _sampPending]. rewrite Ef5.
    destruct (_sampPending m) as [d|] eqn:Hp; [|done]. exists pb, (i_hdr m ++ remaining m). split; [done|].
    split; [unfold pend_is in *; cbn; by rewrite Hp, Ef1 in *|]. rewrite zlen_app. lia. }
  destruct Hb as (Hb1 & Hb2 & Hb3). set (m2 := with_sample m1 (i_hdr m ++ bs) None (_sampPending m)).
  assert (EV : pb ++ i_hdr m ++ remaining m = pb ++ (i_hdr m ++ bs) ++ remaining m2).
  { rewrite <- Hb1. unfold m2, remaining. cbn. by rewrite <- !app_assoc. }
  assert (Hpb2 : pend_is (_bsf m) m2 pb) by (unfold pend_is in *; cbn; done).
  assert (Hz : zlen (i_hdr m ++ bs) = zlen (i_hdr m) + zlen bs) by apply zlen_app.
  destruct (Z.ltb_spec 0 (_headerToRead m2)) as [Hs|Hs]; unfold _headerToRead, SIZEOF_SAMPLE_HEADER in Hs; cbn [i_hdr m2 with_sample] in Hs.
  { split; [done|]. split; [split; [done|]; intros Hk _; specialize (Hb3 Hk); lia|].
    exists [], (pb ++ i_hdr m ++ remaining m). split; [done|]. split; [done|].
    cbn [with_sample _ateof m2]. rewrite Ef5. exists pb, (i_hdr m ++ bs). split; [done|].
    split; [cbn [_bsf m2 with_sample]; by rewrite Ef1|]. unfold samp_is. cbn. split; [lia|done]. }
  assert (Hlt : (S (length (remaining m2)) <= length (remaining m))%nat).
  { rewrite <- Hb1, length_app. change (remaining m2) with (remaining m1). unfold zlen in *. lia. }
  destruct (sampleFromHeader_spec m2) as (h & m3 & -> & Em3 & Hspec).
  assert (Eg : _bsf m3 = _bsf m /\ _sampPending m3 = _sampPending m /\ remaining m3 = remaining m2 /\
    _ateof m3 = false /\ stream_wf keepreading m3).
  { rewrite Em3. unfold m2, remaining. cbn. split_and!; try done; by destruct Hw1 as (? & ? & ? & ?). }
  destruct Eg as (Eg1 & Eg2 & Eg3 & Eg4 & Eg5). clear Em3.
  change (_bsf m2) with (_bsf m1) in Hspec. rewrite Ef1 in Hspec. cbn [i_hdr m2 with_sample] in Hspec.
  destruct (good_header (_bsf m) (header_of (i_hdr m ++ bs))) eqn:Egood.
  - destruct Hspec as (Eh & Es3 & hd & -> & Hlen & Hhd). rewrite EV. rewrite <- (app_nil_l (pb ++ _)).
    eapply (step_post_trans keepreading search (with_sample m3 (i_hdr m3) (Some (mkArchSample hd [])) (_sampPending m3))); [done| |].
    + rewrite Ht. unfold turns. cbn. rewrite Eg4. unfold remaining in *. cbn. rewrite Eg3. cbn in Hlt |- *. lia.
    + apply ns_pending_post; [done|done|]. split; [done|]. cbn [with_sample _ateof]. rewrite Eg4.
      exists pb, (i_hdr m ++ bs). split; [unfold remaining in *; cbn; by rewrite Eg3|].
      split; [unfold pend_is in *; cbn; by rewrite Eg1, Eg2|].
      unfold samp_is. cbn. rewrite Eh, Eg1, app_nil_r. split_and!; try done; [lia|].
      pose proof (header_of_range (i_hdr m ++ bs)) as (_ & Hr & _). rewrite zlen_nil. lia.
  - destruct Hspec as (-> & Eh & Es3). rewrite EV.
    split; [done|]. split; [done|]. split; [rewrite Ht; unfold turns; cbn; rewrite Eg4; unfold remaining in *; cbn; rewrite Eg3; cbn in Hlt |- *; lia|].
    assert (H16' : 16 = zlen (i_hdr m ++ bs)) by lia. clear Hz Hs.
    destruct (i_hdr m ++ bs) as [|c0 hdr'] eqn:Ehdr; [rewrite zlen_nil in H16'; lia|].
    exists (pb ++ [c0]), (hdr' ++ remaining m2). split; [by rewrite <- app_assoc|]. split; [done|].
    cbn [with_sample _ateof]. rewrite Eg4. exists [], hdr'. split; [unfold remaining in *; cbn; by rewrite Eg3|].
    split; [done|]. unfold samp_is. cbn. rewrite Eh. cbn. split; [|done]. rewrite zlen_cons in H16'. lia.
Qed.

Lemma ns_iter_post keepreading search m V :
  left_is keepreading m V -> step_post keepreading search m V (ns_iter keepreading search false m).
Proof.
  intros Hl. unfold ns_iter. destruct (_ateof m) eqn:He.
  - unfold handleEOF. pose proof Hl as [Hw Hv]. rewrite He in Hv. destruct (_sampPending m) as [d|] eqn:Hp.
    + destruct Hv as (pb & rest & -> & Hpb & Hr). unfold pend_is in Hpb. rewrite Hp in Hpb. destruct Hpb as (Hf & Hg & Hfl).
      split; [done|]. split; [done|]. exists [], pb, rest. split; [done|]. split; [done|]. split; [done|].
      split; [intros _; by left|]. split; [done|]. cbn. by rewrite He.
    + assert (Hn : left_is keepreading m V) by done.
      destruct keepreading; (split; [done|]; split; [done|]; by exists [], V).
  - assert (Hpar : _inputHeaderParsed m = true) by apply Hl.
    assert (E : readInputHeader (headerFuel m) m = (true, m)) by (unfold headerFuel; cbn [readInputHeader]; by rewrite Hpar).
    rewrite E. destruct (_sampPending m); by apply ns_header_post.
Qed.

(** A call of [nextSample] on one input ends, and delivers the next of the
    samples that are left. *)
Lemma nextSample_loop_post fuel keepreading search : forall m V,
  left_is keepreading m V -> (turns m < fuel)%nat ->
  let '(r, m') := nextSample_loop fuel keepreading search false m in
  step_post keepreading search m V (Return r m').
Proof.
  induction fuel as [|fuel IH]; intros m V Hl Hf; [lia|]. cbn [nextSample_loop].
  pose proof (ns_iter_post keepreading search m V Hl) as H.
  destruct (ns_iter keepreading search false m) as [r m'|n m']; [done|].
  destruct H as (Ef & -> & Ht & g & rest & -> & Hl'). specialize (IH m' rest Hl' ltac:(lia)).
  destruct (nextSample_loop _ _ _ _ _) as [r m2]. eapply step_post_trans; [done|lia|done].
Qed.

(** ** The start of a stream *)

(** One file: only its first read is a new input, no read is empty. *)
Definition one_file (c : Channel) : Prop :=
  match ch_events c with
  | [] => True
  | e :: rest => snd e <> [] /\ Forall (fun e => fst e = false /\ snd e <> []) rest
  end.

Lemma one_file_nonempty c : one_file c -> Forall (fun e => snd e <> []) (ch_events c).
Proof.
  unfold one_file. destruct (ch_events c) as [|e rest]; [done|]. intros [H1 H2]. constructor; [done|].
  eapply Forall_impl; [exact H2|]. by intros ? [].
Qed.

Lemma one_input_file c : one_input c -> one_file c.
Proof. unfold one_input, one_file. destruct (ch_events c); [done|]. by intros [[??] ?]%Forall_cons. Qed.

Lemma io_read_first s c r s' c' :
  io_wf s -> io_unread s = [] -> one_file c -> io_read s c = (r, s', c') -> one_input c'.
Proof.
  intros Hw Hu Hc. unfold io_read. change (available (with_newInput s false)) with (available s).
  rewrite available_unread, Hu by done. cbn [Z.ltb]. change (0 <? zlen (@nil Z)) with false. cbn match.
  unfold chan_read, one_file, one_input in *. destruct (ch_events c) as [|[new b] rest] eqn:Ec.
  { intros [= _ _ <-]. by rewrite Ec. }
  destruct Hc as [H1 H2]. cbn in H1. destruct Hw as (_ & _ & Hl).
  destruct (Z.leb_spec (zlen b) (_buflen (with_newInput s false))) as [Hle|Hgt]; intros [= _ _ <-]; [done|].
  cbn [ch_events]. constructor; [|done]. cbn in *. split; [done|].
  intros E%(f_equal length). rewrite length_drop in E. cbn in E. unfold zlen in *. lia.
Qed.

(** Once the input header is read, the loop goes on as if it had been read
    before. *)
Lemma loop_start fuel keepreading search m m1 :
  _ateof m = false -> _sampPending m = None -> readInputHeader (headerFuel m) m = (true, m1) ->
  _ateof m1 = false -> _sampPending m1 = None -> _inputHeaderParsed m1 = true ->
  nextSample_loop (S fuel) keepreading search false m = nextSample_loop (S fuel) keepreading search false m1.
Proof.
  intros E1 E2 E3 F1 F2 F3. cbn [nextSample_loop]. unfold ns_iter. rewrite E1, E2, E3, F1, F2.
  assert (E : readInputHeader (headerFuel m1) m1 = (true, m1)) by (unfold headerFuel; cbn [readInputHeader]; by rewrite F3).
  by rewrite E.
Qed.

(** The work left: it decreases with every turn of the loop. *)
Definition toCome (m : SampleInputStream) : nat := length (remaining m) + length (ch_events (i_chan m)).

Definition work (m : SampleInputStream) : nat :=
  if _ateof m then 0 else S (2 * toCome m + match i_samp m with Some _ => 1 | None => 0 end).

Lemma work_fuel m : (work m < sampleFuel m)%nat.
Proof. unfold work, sampleFuel, toCome, remaining. rewrite length_app. destruct (_ateof m), (i_samp m); lia. Qed.

(** A stream in a file of which the bytes [bs] are to come, before the events
    [tail]. *)
Definition in_file (tail : list (bool * list Z)) (m : SampleInputStream) (bs : list Z) : Prop :=
  io_wf (i_io m) /\ _inputHeaderParsed m = true /\
  exists c, one_input c /\ i_chan m = then_events c tail /\ io_unread (i_io m) ++ ch_bytes c = bs.

Lemma then_events_nil c : then_events c [] = c.
Proof. unfold then_events. rewrite app_nil_r. by destruct c. Qed.

Lemma in_file_last m bs : in_file [] m bs <-> stream_wf true m /\ remaining m = bs.
Proof.
  split.
  - intros (Hw & Hp & c & Hc & Ec & Hb). rewrite then_events_nil in Ec. subst c. done.
  - intros [(Hw & Hc & _ & Hp) Hr]. split; [done|]. split; [done|]. exists (i_chan m). by rewrite then_events_nil.
Qed.

(** A stream at the start of a file: nothing of it was read yet, or only the
    first part is in the buffer. *)
Definition at_file (tail : list (bool * list Z)) (m : SampleInputStream) (bs : list Z) : Prop :=
  io_wf (i_io m) /\ _inputHeaderParsed m = false /\
  exists c, i_chan m = then_events c tail /\ io_unread (i_io m) ++ ch_bytes c = bs /\
    if bool_decide (io_unread (i_io m) = []) then one_file c else one_input c.

(** [m1] is [m] with its input header read, at the first sample: the bytes
    [bs] of the file are to come. *)
Definition at_samples (tail : list (bool * list Z)) (m m1 : SampleInputStream) (bs : list Z) : Prop :=
  exists io1 c1 h1,
    m1 = with_parsed (with_stream (with_sample m [] None (_sampPending m)) io1 (then_events c1 tail) (_ateof m)) true h1 /\
    io_wf io1 /\ one_input c1 /\ io_unread io1 ++ ch_bytes c1 = bs /\ _buflen io1 = _buflen (i_io m) /\
    (toCome m1 <= toCome m)%nat /\ (_expectHeader m = true -> _stage h1 = PARSE_START /\ hd_buf h1 = []).

Lemma at_samples_file tail m m1 bs : at_samples tail m m1 bs -> in_file tail m1 bs.
Proof. intros (io1 & c1 & h1 & -> & Hw & Hc & Hb & _). split; [done|]. split; [done|]. by exists c1. Qed.

Lemma toCome_length m c tail :
  i_chan m = then_events c tail ->
  toCome m = (length (io_unread (i_io m) ++ ch_bytes c) + length (ch_events c) +
              (length (concat (map snd tail)) + length tail))%nat.
Proof.
  intros E. unfold toCome, remaining. rewrite E. unfold ch_bytes, then_events. cbn [ch_events].
  rewrite map_app, concat_app, !length_app. lia.
Qed.

(** The first read of a file. *)
Lemma at_file_read tail m bs :
  at_file tail m bs -> bs <> [] ->
  exists n io c, io_read (i_io m) (i_chan m) = (Some n, io, then_events c tail) /\ io_wf io /\ one_input c /\
    io_unread io ++ ch_bytes c = bs /\ _buflen io = _buflen (i_io m) /\
    (length (ch_bytes c) + Nat.max 1 (length (io_unread (i_io m))) <= length bs)%nat /\
    (toCome (with_stream m io (then_events c tail) (_ateof m)) <= toCome m)%nat.
Proof.
  intros (Hw & _ & c & Ec & Hb & Hc) Hn.
  destruct (io_read (i_io m) c) as [[[n|] io] c1] eqn:Ei; pose proof (io_read_spec _ _ _ _ _ Hw Ei) as (W & B & L & _ & P).
  2: { exfalso. destruct P as (P1 & P2 & _). rewrite P1 in Hb. unfold ch_bytes in Hb. by rewrite P2 in Hb. }
  rewrite Hb in B. exists n, io, c1. rewrite Ec, (io_read_then _ _ tail _ _ _ Ei). split; [done|]. split; [done|].
  assert (Ht : (toCome (with_stream m io (then_events c1 tail) (_ateof m)) <= toCome m)%nat).
  { rewrite (toCome_length m c tail Ec), (toCome_length (with_stream _ _ _ _) c1 tail eq_refl). cbn [with_stream i_io].
    rewrite B, Hb. apply io_read_events in Ei. lia. }
  rewrite available_unread in P by done. case_bool_decide as Eu.
  - rewrite Eu in P. destruct P as [-> P2]. specialize (P2 (one_file_nonempty _ Hc)).
    split; [exact (io_read_first _ _ _ _ _ Hw Eu Hc Ei)|]. split_and!; try done. rewrite Eu, <- B, length_app. unfold zlen in P2. cbn. lia.
  - destruct (Z.ltb_spec 0 (zlen (io_unread (i_io m)))) as [_|E0].
    + destruct P as (_ & -> & P). split_and!; try done. rewrite <- B, P, length_app. destruct (io_unread (i_io m)); [done|cbn; lia].
    + exfalso. apply Eu, zlen_0_nil. pose proof (zlen_nonneg (io_unread (i_io m))). lia.
Qed.

(** Without an input header one read is made. *)
Lemma readInputHeader_none tail m bs :
  at_file tail m bs -> bs <> [] -> _expectHeader m = false ->
  exists m1, readInputHeader (headerFuel m) m = (true, m1) /\ at_samples tail m m1 bs.
Proof.
  intros Ha Hn He. destruct (at_file_read tail m bs Ha Hn) as (n & io & c & Ei & W & O & B & L & _ & T).
  destruct Ha as (_ & Hp & _). unfold headerFuel. cbn [readInputHeader]. rewrite Hp, Ei. unfold parseInputHeader.
  cbn [with_sample with_stream _expectHeader]. rewrite He. cbn [negb].
  destruct (length _ + _)%nat; cbn [readInputHeader with_parsed _inputHeaderParsed];
    (eexists; split; [reflexivity|]; exists io, c, (_inputHeader m); split; [done|]; split_and!; try done; by rewrite He).
Qed.

(** Without a file there is no header. *)
Lemma readInputHeader_end m :
  io_wf (i_io m) -> io_unread (i_io m) = [] -> ch_events (i_chan m) = [] -> _inputHeaderParsed m = false ->
  (readInputHeader (headerFuel m) m).1 = false.
Proof.
  intros Hw Hu E Hp. unfold headerFuel, ch_bytes. rewrite E. cbn [map concat length Nat.add readInputHeader]. rewrite Hp.
  destruct (io_read (i_io m) (i_chan m)) as [[[n|] io] c] eqn:Ei; [|done]. exfalso.
  revert Ei. unfold io_read, chan_read. rewrite E. change (available (with_newInput (i_io m) false)) with (available (i_io m)).
  by rewrite available_unread, Hu by done.
Qed.

(** One call of the parser on a header that is complete in the bytes [X]
    that follow. *)
Lemma parseInputHeader_run m X h' r :
  io_wf (i_io m) -> _expectHeader m = true -> hdr_wf (_inputHeader m) ->
  run (start (_inputHeader m)) (io_unread (i_io m) ++ X) = (Parsed, h', r) ->
  exists p h1 io1, parseInputHeader m =
    (true, with_parsed (with_stream (with_sample m [] None (_sampPending m)) io1 (i_chan m) (_ateof m)) p h1) /\
    io_wf io1 /\ _buflen io1 = _buflen (i_io m) /\
    if p : bool then h1 = h' /\ io_unread io1 ++ X = r
    else io_unread io1 = [] /\ hdr_wf h1 /\ run (start h1) X = (Parsed, h', r).
Proof.
  intros W He Hwf Hrun. unfold parseInputHeader. cbn [with_sample _expectHeader _inputHeader i_io]. rewrite He. cbn [negb].
  destruct (parse_agree (_inputHeader m) (i_io m) W Hwf) as (E1 & W1 & E2). rewrite run_app in Hrun.
  pose proof (parse_loop_buflen (S (S (Z.to_nat (available (i_io m))))) (_inputHeader m) (i_io m)) as L. fold (parse (_inputHeader m) (i_io m)) in L.
  destruct (parse (_inputHeader m) (i_io m)) as [[o h1] io1], (run (start (_inputHeader m)) (io_unread (i_io m))) as [[o' h2] r2] eqn:Er.
  cbn [fst snd] in *. subst o'. destruct o; try done.
  - injection Hrun as <- <-. destruct E2 as [?|[-> E3]]; [done|]. eexists true, _, io1. split; [reflexivity|]. rewrite E3. done.
  - destruct E2 as [?|[-> E3]]; [done|]. destruct (run_more _ _ _ _ (start_start _) (start_wf _ Hwf) Er) as [Hs2 Hw2].
    rewrite (run_more_rest _ _ _ _ Er) in E3. eexists false, _, io1. split; [reflexivity|]. rewrite Hs2. done.
Qed.

(** Reading the input header of a file. *)
Lemma readInputHeader_run fuel tail : forall m bs h' r,
  at_file tail m bs -> _expectHeader m = true -> hdr_wf (_inputHeader m) ->
  (length bs <= fuel + (length (io_unread (i_io m)) - 1))%nat ->
  run (start (_inputHeader m)) bs = (Parsed, h', r) -> _stage h' = PARSE_START -> hd_buf h' = [] ->
  exists m1, readInputHeader fuel m = (true, m1) /\ at_samples tail m m1 r.
Proof.
  induction fuel as [|fuel IH]; intros m bs h' r Ha He Hwf Hf Hrun Hst Hbuf.
  all: assert (Hn : bs <> []) by (intros ->; done).
  { exfalso. destruct (at_file_read tail m bs Ha Hn) as (n & io & c & _ & _ & _ & _ & _ & U & _). lia. }
  destruct (at_file_read tail m bs Ha Hn) as (n & io & c & Ei & W & O & B & L & U & T).
  cbn [readInputHeader]. pose proof Ha as (_ & -> & _). rewrite Ei.
  set (m0 := with_stream m io (then_events c tail) (_ateof m)) in *. rewrite <- B in Hrun.
  destruct (parseInputHeader_run m0 (ch_bytes c) h' r W He Hwf Hrun) as (p & h1 & io1 & -> & W1 & L1 & P).
  destruct p; [destruct P as [-> <-]|destruct P as (Eu & Hw1 & Hr1)].
  - apply run_shorter in Hrun. set (m1 := with_parsed _ _ _). exists m1. split; [by destruct fuel|].
    exists io1, c, h'. split; [reflexivity|]. split_and!; try done; [by rewrite L1|]. etransitivity; [|exact T].
    rewrite (toCome_length m0 c tail eq_refl), (toCome_length m1 c tail eq_refl).
    cbn [m1 m0 with_parsed with_stream i_io]. lia.
  - set (m1 := with_parsed _ _ _).
    assert (T1 : (toCome m1 <= toCome m0)%nat).
    { rewrite (toCome_length m0 c tail eq_refl), (toCome_length m1 c tail eq_refl). cbn [m1 with_parsed with_stream i_io m0].
      rewrite Eu. cbn [app with_sample i_io]. rewrite length_app. lia. }
    destruct (IH m1 (ch_bytes c) h' r) as (m2 & E4 & io2 & c2 & h2 & -> & A1 & A2 & A3 & A4 & A5 & A6); try done.
    + split; [done|]. split; [done|]. exists c. split; [done|]. cbn [m1 with_parsed with_stream i_io]. rewrite Eu.
      split; [done|]. by apply one_input_file.
    + cbn [m1 with_parsed with_stream i_io]. rewrite Eu. cbn [length].
      lia.
    + eexists. split; [exact E4|]. exists io2, c2, h2. split; [reflexivity|]. split_and!; try done.
      * rewrite A4. cbn [m1 with_parsed with_stream i_io]. by rewrite L1.
      * etransitivity; [exact A5|]. lia.
Qed.

(** ** All samples *)

Lemma left_is_fuel keepreading m V : left_is keepreading m V -> (turns m < sampleFuel m)%nat.
Proof.
  intros _. unfold turns, sampleFuel, remaining. rewrite length_app. destruct (_ateof m); [lia|].
  destruct (i_samp m); lia.
Qed.

Definition read_post_all (f : BadSampleFilter) (V : list Z) (n : nat)
    (res : list ArchSample * ns_result * SampleInputStream) : Prop :=
  let '(ds, r, _) := res in delivered f V ds /\ ((length V < n)%nat -> r = Thrown).

Lemma read_all_step n fuel m V :
  (forall m V, left_is true m V -> read_post_all (_bsf m) V n (read_all n m)) ->
  left_is true m V -> (turns m < fuel)%nat ->
  read_post_all (_bsf m) V (S n)
    match nextSample_loop fuel true None false m with
    | (Got s, m) => let '(l, r, m) := read_all n m in (s :: l, r, m)
    | (r, m) => ([], r, m)
    end.
Proof.
  intros IH Hl Hf. pose proof (nextSample_loop_post fuel true None m V Hl Hf) as H.
  destruct (nextSample_loop fuel true None false m) as [r m1]. destruct H as (Ef & [Hr1 Hr2] & H).
  destruct r as [d| | |]; [|by specialize (Hr2 eq_refl eq_refl)|split; [constructor|done]|done].
  destruct H as (g & bs & rest & -> & Hfr & Hg & Hfo & Hl1). specialize (IH m1 rest Hl1).
  destruct (read_all n m1) as [[l r] m2]. rewrite Ef in IH. destruct IH as [IH1 IH2]. split.
  - by constructor.
  - intros Hn. apply IH2. destruct Hfr as (hdr & -> & H16 & _). rewrite !length_app in Hn. unfold zlen in H16. lia.
Qed.

Lemma read_all_post n : forall m V, left_is true m V -> read_post_all (_bsf m) V n (read_all n m).
Proof.
  induction n as [|n IH]; intros m V Hl; [split; [constructor|lia]|].
  cbn [read_all]. unfold readSample. apply read_all_step; [done|done|]. by eapply left_is_fuel.
Qed.

(** ** Streams of good samples *)

(** A sample that can be archived and read back: its header has the
    machine widths and passes the checks, and it has its data. *)
Definition good_sample (f : BadSampleFilter) (nodata : bool) (s : ArchSample) : Prop :=
  header_range (a_header s) /\ good_header f (a_header s) = true /\
  zlen (a_data s) = _length (a_header s) /\ (nodata = true -> a_data s <> []).

Definition enc_all (l : list ArchSample) : list Z := concat (map enc l).

Lemma le_bytes_inv n x : 0 <= n -> 0 <= x < 2 ^ (8 * n) ->
  little_endian_to_Z 8 (Z_to_little_endian n 8 x) = x.
Proof. intros Hn Hx. rewrite little_endian_to_Z_to_little_endian by lia. rewrite Z.mod_small; [done|]. by rewrite Z.mul_comm. Qed.

Lemma le_bytes_len n x : 0 <= n -> length (Z_to_little_endian n 8 x) = Z.to_nat n.
Proof. intros Hn. apply Nat2Z.inj. rewrite length_Z_to_little_endian by done. lia. Qed.

Lemma header_of_bytes h rest : header_range h -> header_of (header_bytes h ++ rest) = h.
Proof.
  intros (H1 & H2 & H3). unfold header_of, header_bytes. rewrite <- !app_assoc.
  set (a := Z_to_little_endian 8 8 _). set (b := Z_to_little_endian 4 8 (_length h)). set (d := Z_to_little_endian 4 8 (_tid h)).
  assert (La : length a = 8%nat) by (unfold a; by rewrite le_bytes_len).
  assert (Lb : length b = 4%nat) by (unfold b; by rewrite le_bytes_len).
  assert (Ld : length d = 4%nat) by (unfold d; by rewrite le_bytes_len).
  rewrite (take_app_length' a _ 8), (drop_app_length' a _ 8), (take_app_length' b _ 4) by done.
  rewrite (app_assoc a), (drop_app_length' (a ++ b) _ 12), (take_app_length' d _ 4)
    by (rewrite ?length_app; lia).
  unfold a, b, d. rewrite !le_bytes_inv by (try lia; unfold u64; mlia).
  destruct h as [tt len tid]. cbn in *. f_equal; [unfold s64, u64; mlia|apply u32_small; lia|apply u32_small; lia].
Qed.

(** The block of bytes wanted, when the file has it. *)
Lemma readBlock_full fuel tail m bs rest :
  in_file tail m (bs ++ rest) ->
  exists m', readBlock fuel true false (zlen bs) [] m = (bs, false, false, m') /\
    m' = with_stream m (i_io m') (i_chan m') (_ateof m) /\ in_file tail m' rest /\
    (toCome m' + length bs <= toCome m)%nat /\ _buflen (i_io m') = _buflen (i_io m).
Proof.
  intros (Hw & Hp & c & Hc & Ec & Hr). pose proof (zlen_nonneg bs) as Hn.
  destruct (readInto_one (zlen bs) (i_io m) c Hw Hc Hn) as (bs' & eof & io & c' & Ei & W & O & N & B & F).
  pose proof (readInto_spec (zlen bs) (i_io m) c Hw Hn) as Hs. rewrite Ei in Hs. destruct Hs as (_ & _ & _ & L & _).
  destruct eof; [rewrite Hr, zlen_app in F; pose proof (zlen_nonneg rest); lia|].
  rewrite Hr in B. apply app_inj_1 in B as [-> B]; [|unfold zlen in F; lia].
  set (m' := with_stream m io (then_events c' tail) (_ateof m)). exists m'.
  assert (Hs : sis_read true (Some (zlen bs)) m = (bs, false, false, m')).
  { unfold sis_read, readInto. rewrite Ec, (readInto_loop_then _ tail _ _ _ _ _ _ _ Ei), N. done. }
  split; [destruct fuel; cbn [readBlock]; rewrite Hs; [done|]; by rewrite Z.sub_diag|]. split; [done|].
  split; [split; [done|]; split; [done|]; by exists c'|]. split; [|done].
  rewrite (toCome_length m c tail Ec), (toCome_length m' c' tail eq_refl), Hr. cbn [m' with_stream i_io]. rewrite B, length_app.
  apply readInto_loop_events in Ei. lia.
Qed.

Lemma readBlock_eof fuel m len out :
  in_file [] m [] -> 0 < len ->
  exists m', readBlock fuel true false len out m = (out, false, true, m') /\
    m' = with_stream m (i_io m') (i_chan m') true /\ _buflen (i_io m') = _buflen (i_io m).
Proof.
  intros [(Hw & Hc & _ & _) Hr]%in_file_last Hl.
  assert (Hs : exists m', sis_read true (Some len) m = ([], false, true, m') /\ m' = with_stream m (i_io m') (i_chan m') true /\
    _buflen (i_io m') = _buflen (i_io m)).
  { unfold sis_read. destruct (readInto_one len (i_io m) (i_chan m) Hw Hc ltac:(lia)) as (bs & eof & io & c & Ei & W & O & N & B & F).
    pose proof (readInto_spec len (i_io m) (i_chan m) Hw ltac:(lia)) as Hs. rewrite Ei in Hs |- *. destruct Hs as (_ & _ & _ & L & _).
    rewrite N. unfold remaining in Hr. rewrite Hr in B. apply app_eq_nil in B as [-> _].
    destruct eof; [eexists; by split_and!|rewrite zlen_nil in F; lia]. }
  destruct Hs as (m' & Hs & H). exists m'. split; [|done].
  destruct fuel; cbn [readBlock]; rewrite Hs, app_nil_r; [done|]. by rewrite andb_false_r.
Qed.

(** A good header starts a sample when there is no bad block. *)
Lemma sampleFromHeader_good m :
  good_header (_bsf m) (header_of (i_hdr m)) = true -> good (_block m) = true ->
  exists b, sampleFromHeader m =
    (Some (header_of (i_hdr m)), with_block m false b (_badSamples m) (u64 (_goodSamples m + 1))) /\ good b = true.
Proof.
  intros [H1 H2]%andb_true_iff Hb. apply negb_true_iff in H1. apply bool_decide_eq_true in H2 as [s Es].
  unfold sampleFromHeader. rewrite H1, Es, Hb. cbn [negb andb].
  destruct (sample_header_is _ s (header_of_range _) Es) as [-> _]. eexists. split; [reflexivity|].
  unfold addGoodSample. rewrite Hb. cbn [negb orb]. by destruct (nbytes _ =? 0).
Qed.

(** *** The samples of a file *)

(** What a state in a file has still to deliver from it. *)
Definition left_samples (tail : list (bool * list Z)) (m : SampleInputStream) (l : list ArchSample) : Prop :=
  Forall (good_sample (_bsf m) (i_nodata m)) l /\ _skipSample m = false /\ good (_block m) = true /\
  exists l', l = option_list (_sampPending m) ++ l' /\
    match i_samp m with
    | None => i_hdr m = [] /\ in_file tail m (enc_all l')
    | Some s => exists d l'', l' = d :: l'' /\ a_header s = a_header d /\ a_data s = [] /\
        zlen (i_hdr m) = 16 /\ in_file tail m (a_data d ++ enc_all l'')
    end.

(** The members that do not change within a file. *)
Definition same_members (m m' : SampleInputStream) : Prop :=
  _expectHeader m' = _expectHeader m /\ _inputHeader m' = _inputHeader m /\ _bsf m' = _bsf m /\ i_nodata m' = i_nodata m /\
  _ateof m' = _ateof m /\ _buflen (i_io m') = _buflen (i_io m).

Lemma same_members_trans m1 m2 m3 : same_members m1 m2 -> same_members m2 m3 -> same_members m1 m3.
Proof. unfold same_members. intros (? & ? & ? & ? & ? & ?) (? & ? & ? & ? & ? & ?). split_and!; congruence. Qed.

Definition samples_step (tail : list (bool * list Z)) (m : SampleInputStream) (l : list ArchSample) (st : ns_step) : Prop :=
  match st with
  | Return (Got d) m' => exists l', l = d :: l' /\ left_samples tail m' l' /\ same_members m m'
  | Continue _ m' => left_samples tail m' l /\ (work m' < work m)%nat /\ same_members m m'
  | Return _ _ => False
  end.

Lemma in_file_sample tail m bs hdr s p : in_file tail m bs -> in_file tail (with_sample m hdr s p) bs.
Proof. done. Qed.

Lemma ns_data_samples tail m l s :
  _ateof m = false -> _sampPending m = None -> i_samp m = Some s -> left_samples tail m l ->
  samples_step tail m l (ns_data true None s m).
Proof.
  intros He Hp Hs (Hf & Hk & Hb & l' & -> & Hl). rewrite Hs in Hl. rewrite Hp in Hf |- *.
  destruct Hl as (d & l'' & -> & Eh & Ed & H16 & Hr). cbn [option_list option_rect app] in Hf |- *.
  pose proof Hf as [(_ & _ & Hlen & Hnd) Hf'']%Forall_cons.
  unfold ns_data. rewrite andb_false_r, Eh.
  assert (isnull : i_nodata m && (_length (a_header d) =? 0) = false).
  { destruct (i_nodata m); [|done]. cbn. apply Z.eqb_neq. rewrite <- Hlen. intros E0%zlen_0_nil. by apply Hnd. }
  rewrite isnull.
  assert (Edt : _dataToRead m = zlen (a_data d)) by (unfold _dataToRead; rewrite Hs, Eh, Ed, zlen_nil; lia).
  rewrite Edt. destruct (readBlock_full (blockFuel m) tail m (a_data d) (enc_all l'') Hr) as (m1 & -> & Em & Hr1 & Ht & El).
  assert (Ef : _bsf m1 = _bsf m /\ _sampPending m1 = None /\ i_hdr m1 = i_hdr m /\ _skipSample m1 = false /\
    _ateof m1 = false /\ i_nodata m1 = i_nodata m /\ good (_block m1) = true /\
    (_buflen (i_io m1) = _buflen (i_io m) -> same_members m m1)) by (rewrite Em; cbn; split_and!; done).
  destruct Ef as (Ef1 & Ef2 & Ef3 & Ef4 & Ef5 & Ef6 & Ef7 & Ef8). specialize (Ef8 El). clear Em.
  rewrite Ed. cbn [app orb]. assert (Edd : mkArchSample (a_header d) (a_data d) = d) by by destruct d.
  rewrite Edd, Ef2. unfold _dataToRead. cbn [with_sample i_samp]. rewrite Hlen, Z.sub_diag. cbn [Z.ltb].
  change (0 <? 0) with false. cbn match. cbn [with_sample _skipSample _bsf _sampPending]. rewrite Ef4, Ef1. cbn [orb].
  rewrite bool_decide_eq_false_2 by by intros [].
  assert (Hleft : forall p, left_samples tail (with_sample (with_sample m1 (i_hdr m1) (Some d) None) [] None p) (option_list p ++ l'') <->
    Forall (good_sample (_bsf m) (i_nodata m)) (option_list p ++ l'')).
  { intros p. unfold left_samples. cbn [with_sample _bsf i_nodata _skipSample _block _sampPending i_samp i_hdr].
    rewrite Ef1, Ef4, Ef6, Ef7. split; [by intros [? _]|]. intros HF. split_and!; try done. exists l''. by split_and!. }
  destruct (_filterBadSamples (_bsf m)); cbn [samples_step].
  - split; [by apply (Hleft (Some d))|]. split; [|done].
    unfold work, toCome, remaining in *. cbn. rewrite He, Ef5, Hs. lia.
  - exists l''. split; [done|]. split; [by apply (Hleft None)|done].
Qed.

Lemma ns_pending_samples tail m l :
  _ateof m = false -> is_Some (i_samp m) -> left_samples tail m l -> samples_step tail m l (ns_pending true None m).
Proof.
  intros He [s Hs] H. unfold ns_pending. destruct (_sampPending m) as [d|] eqn:Hp.
  - destruct H as (Hf & Hk & Hb & l' & -> & Hl). rewrite Hp in *. exists l'. split; [done|]. split; [|done].
    apply Forall_cons in Hf as [_ Hf]. split; [done|]. split; [done|]. split; [done|]. by exists l'.
  - rewrite Hs. by apply ns_data_samples.
Qed.

(** A header is read while there are samples in the file. *)
Lemma ns_header_samples tail m l :
  _ateof m = false -> left_samples tail m l -> l <> option_list (_sampPending m) -> samples_step tail m l (ns_header true None m).
Proof.
  intros He H Hmore. unfold ns_header, _headerToRead, SIZEOF_SAMPLE_HEADER.
  destruct (i_samp m) as [s|] eqn:Hs.
  { pose proof H as (_ & _ & _ & l' & _ & Hl). rewrite Hs in Hl. destruct Hl as (? & ? & _ & _ & _ & -> & _).
    apply ns_pending_samples; [done|by rewrite Hs|done]. }
  destruct H as (Hf & Hk & Hb & l' & -> & Hl). rewrite Hs in Hl. destruct Hl as [Hh Hr].
  rewrite Hh. change (16 - zlen (@nil Z)) with 16. cbn [Z.ltb]. change (0 <? 16) with true. cbn match.
  destruct l' as [|d l'']; [by rewrite app_nil_r in Hmore|].
  assert (Hd : good_sample (_bsf m) (i_nodata m) d).
  { apply Forall_app in Hf as [_ Hf]. by apply Forall_cons in Hf as [? _]. }
  destruct Hd as (Hrg & Hgh & _). rewrite <- (header_bytes_len (a_header d)).
  destruct (readBlock_full (blockFuel m) tail m (header_bytes (a_header d)) (a_data d ++ enc_all l'')) as (m1 & -> & Em & Hr1 & Ht & El).
  { unfold enc_all in Hr. cbn in Hr. unfold enc in Hr. by rewrite <- app_assoc in Hr. }
  assert (Ef : _bsf m1 = _bsf m /\ _sampPending m1 = _sampPending m /\ i_hdr m1 = [] /\
    _ateof m1 = false /\ i_nodata m1 = i_nodata m /\ good (_block m1) = true /\
    (_buflen (i_io m1) = _buflen (i_io m) -> same_members m m1)) by (rewrite Em; cbn; split_and!; done).
  destruct Ef as (Ef1 & Ef2 & Ef3 & Ef4 & Ef5 & Ef6 & Ef7). specialize (Ef7 El). clear Em. rewrite Ef3. cbn [app orb].
  set (m2 := with_sample m1 (header_bytes (a_header d)) (i_samp m1) (_sampPending m1)).
  change (i_hdr m2) with (header_bytes (a_header d)). rewrite header_bytes_len, Z.sub_diag.
  change (0 <? 0) with false. cbn match.
  assert (Eh : header_of (i_hdr m2) = a_header d).
  { change (i_hdr m2) with (header_bytes (a_header d)). rewrite <- (app_nil_r (header_bytes _)). by apply header_of_bytes. }
  destruct (sampleFromHeader_good m2) as (b & -> & Hgb); [rewrite Eh; change (_bsf m2) with (_bsf m1); by rewrite Ef1|done|].
  rewrite Eh. set (m3 := with_sample _ _ (Some _) _).
  assert (Hw3 : (work m3 < work m)%nat).
  { unfold work. cbn [m3 m2 with_block with_sample _ateof i_samp]. rewrite He, Ef4, Hs.
    change (toCome m3) with (toCome m1). pose proof (header_bytes_len (a_header d)) as H16. unfold zlen in H16. lia. }
  assert (G : samples_step tail m3 (option_list (_sampPending m) ++ d :: l'') (ns_pending true None m3)).
  { apply ns_pending_samples; [done|by eexists|]. unfold left_samples.
    cbn [m3 m2 with_block with_sample _bsf i_nodata _skipSample _block _sampPending i_samp i_hdr].
    rewrite Ef1, Ef2, Ef5. split_and!; try done. exists (d :: l''). split; [done|].
    exists d, l''. split_and!; try done; apply header_bytes_len. }
  assert (Hm3 : same_members m m3) by done.
  destruct (ns_pending true None m3) as [[]|]; cbn in G |- *; try done.
  - destruct G as (l' & E & G1 & G2). exists l'. split; [done|]. split; [done|]. by eapply same_members_trans.
  - destruct G as (G1 & G2 & G3). split; [done|]. split; [lia|]. by eapply same_members_trans.
Qed.

(** *** The files of an archive *)

(** A file: its header and its samples. *)
Definition file_bytes (eh : bool) (x : InputHeader * list ArchSample) : list Z :=
  (if eh then toString x.1 else []) ++ enc_all x.2.

Definition archive_file (eh : bool) (f : BadSampleFilter) (nd : bool) (x : InputHeader * list ArchSample) : Prop :=
  clean_header x.1 /\ Forall (good_sample f nd) x.2 /\ (eh = false -> x.2 <> []).

(** The events behind the current file: there are none, or its end and the
    other files. *)
Definition tail_files (eh : bool) (tail : list (bool * list Z)) (fl : list (InputHeader * list ArchSample)) : Prop :=
  tail = [] /\ fl = [] \/ tail = (false, []) :: concat (map (fun x => fileEvents (file_bytes eh x)) fl).

(** What a stream over several files has still to deliver: it is in a file,
    at the start of one, or at the end of the last one.  For the start of a
    file to be noticed the buffer must hold a sample header. *)
Definition left_files (m : SampleInputStream) (l : list ArchSample) : Prop :=
  (_ateof m = true /\ l = option_list (_sampPending m)) \/
  (_ateof m = false /\ (_expectHeader m = true -> _stage (_inputHeader m) = PARSE_START /\ hd_buf (_inputHeader m) = []) /\
   exists tail fl, tail_files (_expectHeader m) tail fl /\ Forall (archive_file (_expectHeader m) (_bsf m) (i_nodata m)) fl /\
     (fl = [] \/ 16 <= _buflen (i_io m)) /\
     ((exists l1, left_samples tail m l1 /\ l = l1 ++ concat (map snd fl)) \/
      (exists x, archive_file (_expectHeader m) (_bsf m) (i_nodata m) x /\ at_file tail m (file_bytes (_expectHeader m) x) /\
         _skipSample m = false /\ good (_block m) = true /\ i_samp m = None /\
         Forall (good_sample (_bsf m) (i_nodata m)) (option_list (_sampPending m)) /\
         l = option_list (_sampPending m) ++ x.2 ++ concat (map snd fl)))).

Definition files_step (m : SampleInputStream) (l : list ArchSample) (st : ns_step) : Prop :=
  match st with
  | Return (Got d) m' => exists l', l = d :: l' /\ left_files m' l'
  | Return Thrown _ => l = []
  | Return _ _ => False
  | Continue _ m' => left_files m' l /\ (work m' < work m)%nat
  end.

Lemma file_bytes_len eh f nd x : archive_file eh f nd x -> 16 <= zlen (file_bytes eh x).
Proof.
  intros (_ & _ & Hn). unfold file_bytes. rewrite zlen_app. pose proof (zlen_nonneg (enc_all x.2)). destruct eh.
  - unfold toString. generalize (padding (_size x.1) (zlen (hd [] magicStrings ++ concat (map (header_line x.1) headers)))) as pad.
    intros pad. rewrite !zlen_app. pose proof (zlen_nonneg (concat (map (header_line x.1) headers))). pose proof (zlen_nonneg pad).
    pose proof (zlen_nonneg endTag). assert (E : 16 <= zlen (hd [] magicStrings)) by (vm_compute; discriminate). lia.
  - destruct x.2 as [|d l]; [by specialize (Hn eq_refl)|]. change (enc_all (d :: l)) with (enc d ++ enc_all l).
    unfold enc. rewrite !zlen_app, header_bytes_len. pose proof (zlen_nonneg (a_data d)). pose proof (zlen_nonneg (enc_all l)).
    rewrite zlen_nil. lia.
Qed.

Lemma file_bytes_nonempty eh f nd x : archive_file eh f nd x -> file_bytes eh x <> [].
Proof. intros H%file_bytes_len E. rewrite E in H. done. Qed.

Lemma toCome_work m : _ateof m = false -> work m = S (2 * toCome m + match i_samp m with Some _ => 1 | None => 0 end).
Proof. unfold work. by intros ->. Qed.

(** The header of a file is read, whether the stream has seen the start of
    the file or not. *)
Lemma readInputHeader_file tail m x :
  archive_file (_expectHeader m) (_bsf m) (i_nodata m) x -> at_file tail m (file_bytes (_expectHeader m) x) ->
  (_expectHeader m = true -> _stage (_inputHeader m) = PARSE_START /\ hd_buf (_inputHeader m) = []) ->
  exists m1, readInputHeader (headerFuel m) m = (true, m1) /\ at_samples tail m m1 (enc_all x.2).
Proof.
  intros Hx Ha Hh. pose proof (file_bytes_nonempty _ _ _ _ Hx) as Hn. destruct Hx as (Hc & _). unfold file_bytes in *.
  destruct (_expectHeader m) eqn:He; [|by apply readInputHeader_none]. destruct (Hh eq_refl) as [Hs Hb].
  destruct (run_toString x.1 (_inputHeader m) (enc_all x.2) Hc Hs Hb) as (h' & Hr & _ & _ & Hs' & Hb').
  apply (readInputHeader_run _ tail m _ h' (enc_all x.2) Ha He); try done.
  - unfold hdr_wf. by rewrite Hs.
  - destruct Ha as (_ & _ & c & Ec & <- & _). unfold headerFuel. rewrite Ec. unfold then_events, ch_bytes. cbn [ch_events].
    rewrite map_app, concat_app, !length_app. lia.
Qed.

(** An empty read ends the file. *)
Lemma sis_read_empty m rest :
  io_wf (i_io m) -> io_unread (i_io m) = [] -> ch_events (i_chan m) = (false, []) :: rest ->
  sis_read true (Some 16) m =
    ([], false, false, with_stream m (with_io (with_newInput (i_io m) false) [] 0) (mkChannel rest false) (_ateof m)).
Proof.
  intros Hw Hu Ec. assert (Ha : available (i_io m) = 0) by (by rewrite available_unread, Hu).
  unfold sis_read, readInto. assert (exists n, Z.to_nat 16 = S n) as [n ->] by by exists 15%nat. cbn [readInto_loop]. change (16 <=? 0) with false. cbn match.
  unfold io_read. change (available (with_newInput _ _)) with (available (i_io m)). rewrite Ha. cbn [Z.eqb Z.ltb].
  change (0 =? 0) with true. change (0 <? 0) with false. cbn match. unfold chan_read. rewrite Ec.
  destruct Hw as (_ & _ & Hl). destruct (Z.leb_spec (zlen (@nil Z)) (_buflen (with_newInput (with_newInput (i_io m) false) false))) as [_|H0];
    [done|]. cbn in H0. unfold zlen in H0. cbn in H0. lia.
Qed.

(** The first read of the next file is seen as a new input. *)
Lemma readInto_new s c d rest :
  io_wf s -> io_unread s = [] -> 16 <= _buflen s -> 16 <= zlen d -> ch_events c = (true, d) :: rest ->
  exists bs io c0, readInto 16 s c = (bs, false, io, then_events c0 rest) /\ _newInput io = true /\ io_wf io /\
    _buflen io = _buflen s /\ io_buffer io <> [] /\ io_buffer io ++ ch_bytes c0 = d /\ one_input c0 /\
    (length (ch_events c0) <= 1)%nat.
Proof.
  intros Hw Hu Hl Hd Ec. assert (Ha : available s = 0) by (by rewrite available_unread, Hu).
  set (k := Z.to_nat (_buflen s)).
  set (c0 := mkChannel (if zlen d <=? _buflen s then [] else [(false, drop k d)]) true).
  assert (Er : chan_read (_buflen s) c = Some (take k d, then_events c0 rest)).
  { unfold chan_read. rewrite Ec. unfold then_events, c0. cbn [ch_events ch_new].
    destruct (Z.leb_spec (zlen d) (_buflen s)) as [H0|H0]; [|done]. rewrite take_ge; [done|]. unfold zlen, k in *. lia. }
  assert (Hk : 16 <= zlen (take k d) <= _buflen s) by (unfold zlen, k in *; rewrite length_take; lia).
  set (s1 := with_nbytesIn (with_newInput (with_io (with_newInput (with_newInput s false) false) (take k d) 0) true) 0).
  assert (Hs1 : io_wf s1) by (unfold io_wf, io_head; cbn; lia).
  destruct (readBuf 16 s1) as [bs io] eqn:Eb. destruct (readBuf_spec 16 s1 _ _ Hs1 ltac:(lia) Eb) as (W & _ & L & _ & N & L2).
  assert (Ebuf : io_buffer io = take k d) by (injection Eb as _ <-; done).
  exists bs, io, c0. split.
  - unfold readInto. assert (exists n, Z.to_nat 16 = S n) as [j ->] by by exists 15%nat. cbn [readInto_loop]. change (16 <=? 0) with false. cbn match.
    unfold io_read. change (available (with_newInput _ _)) with (available s). rewrite Ha. change (0 =? 0) with true.
    change (0 <? 0) with false. cbn match. change (_buflen (with_newInput _ _)) with (_buflen s). rewrite Er.
    change (ch_new (then_events c0 rest)) with true. cbn match. fold s1.
    destruct (zlen (take k d)) as [|n|n] eqn:Ez; [lia| |lia]. change (_newInput s1) with true. cbn match. rewrite Eb.
    assert (E16 : 16 - zlen bs = 0).
    { rewrite L. unfold available, io_head, s1. cbn [io_buffer io_tail with_nbytesIn with_newInput with_io]. rewrite Ez. lia. }
    rewrite E16. by destruct j.
  - split_and!; try done.
    + rewrite Ebuf. intros E0. rewrite E0 in Hk. unfold zlen in Hk. cbn in Hk. lia.
    + rewrite Ebuf. unfold ch_bytes, c0. cbn [ch_events]. destruct (Z.leb_spec (zlen d) (_buflen s)) as [H0|H0]; cbn.
      * rewrite app_nil_r. apply take_ge. unfold zlen, k in *. lia.
      * by rewrite app_nil_r, take_drop.
    + unfold one_input, c0. cbn [ch_events]. destruct (Z.leb_spec (zlen d) (_buflen s)) as [H0|H0]; [done|].
      constructor; [|done]. split; [done|]. cbn. intros E0%(f_equal length). rewrite length_drop in E0. unfold zlen, k in *. cbn in E0. lia.
    + unfold c0. cbn [ch_events]. destruct (zlen d <=? _buflen s); cbn; lia.
Qed.

Lemma handleNewInput_spec m :
  exists b nb ng, handleNewInput m =
    with_block (with_parsed (with_stream m (snd (backupAll (i_io m))) (i_chan m) (_ateof m)) false (_inputHeader m)) (_skipSample m) b nb ng /\
    (good (_block m) = true -> good b = true).
Proof.
  unfold handleNewInput, closeBlocks. destruct ((_badSamples m =? 0) && (_goodSamples m =? 0)).
  - exists (_block m), (_badSamples m), (_goodSamples m). done.
  - exists (newBlockStats true 0), 0, 0. done.
Qed.

Lemma backupAll_unread s : io_wf s -> io_unread (snd (backupAll s)) = io_buffer s.
Proof.
  intros _. unfold backupAll, backup, io_unread. cbn [snd with_nbytesIn with_io io_tail io_buffer].
  by rewrite Z.min_id, Z.sub_diag.
Qed.

(** At the end of a file: the end of the input, or the start of the next
    file. *)
Lemma ns_header_end tail fl m :
  _ateof m = false -> i_samp m = None -> i_hdr m = [] -> in_file tail m [] ->
  tail_files (_expectHeader m) tail fl -> Forall (archive_file (_expectHeader m) (_bsf m) (i_nodata m)) fl ->
  (fl = [] \/ 16 <= _buflen (i_io m)) ->
  (_expectHeader m = true -> _stage (_inputHeader m) = PARSE_START /\ hd_buf (_inputHeader m) = []) ->
  _skipSample m = false -> good (_block m) = true ->
  Forall (good_sample (_bsf m) (i_nodata m)) (option_list (_sampPending m)) ->
  files_step m (option_list (_sampPending m) ++ concat (map snd fl)) (ns_header true None m).
Proof.
  intros He Hs Hh Hin Ht Hfl Hlen Hhdr Hk Hb Hp.
  unfold ns_header, _headerToRead at 1, SIZEOF_SAMPLE_HEADER. rewrite Hh. change (0 <? 16 - zlen []) with true. cbn match.
  assert (E16 : _headerToRead m = 16) by (unfold _headerToRead; by rewrite Hh). rewrite E16.
  (* the end of the input *)
  assert (Hend : forall fuel m1, in_file [] m1 [] -> m1 = with_stream m (i_io m1) (i_chan m1) false -> fl = [] ->
    files_step m (option_list (_sampPending m) ++ concat (map snd fl))
      (let '(bs, newinput, eof, m0) := readBlock fuel true false 16 [] m1 in
       let m2 := with_sample m0 (i_hdr m0 ++ bs) (i_samp m0) (_sampPending m0) in
       if eof || newinput then Continue newinput m2
       else if 0 <? _headerToRead m2 then Return Null m2
       else match sampleFromHeader m2 with
            | (Some h, m3) => ns_pending true None (with_sample m3 (i_hdr m3) (Some (mkArchSample h [])) (_sampPending m3))
            | (None, m3) => Continue false (with_sample m3 (i_hdr m3) None None)
            end)).
  { intros fuel m1 Hin1 Em1 ->. destruct (readBlock_eof fuel m1 16 [] Hin1 ltac:(lia)) as (m2 & -> & Em2 & _).
    cbn [orb files_step map concat]. split.
    - left. cbn [with_sample _ateof _sampPending]. rewrite Em2. cbn [with_stream _ateof _sampPending]. split; [done|]. by rewrite Em1, app_nil_r.
    - unfold work. cbn [with_sample _ateof]. rewrite Em2, He. cbn. lia. }
  destruct Ht as [[-> ->]|Et].
  { apply Hend; [done| |done]. rewrite <- He. by destruct m. }
  destruct Hin as (Hw & Hpar & c & Hc & Ec & Hbytes). apply app_eq_nil in Hbytes as [Hu Hcb].
  assert (Ece : ch_events (i_chan m) = tail).
  { rewrite Ec. unfold then_events. cbn. destruct (ch_events c) as [|[? b] es] eqn:Ee; [done|]. exfalso.
    unfold one_input in Hc. rewrite Ee in Hc. apply Forall_cons in Hc as [[_ Hb0] _]. unfold ch_bytes in Hcb. rewrite Ee in Hcb.
    cbn in Hcb. by apply app_eq_nil in Hcb as [-> _]. }
  rewrite Et in Ece. unfold blockFuel. rewrite Ece. cbn [length readBlock].
  rewrite (sis_read_empty m _ Hw Hu Ece). change (16 - zlen []) with 16. change (0 <? 16) with true. cbn [andb negb app].
  set (m1 := with_stream m _ _ _). assert (Hw1 : io_wf (i_io m1)).
  { destruct Hw as (? & ? & ?). unfold io_wf, io_head. cbn. unfold zlen. cbn. lia. }
  destruct fl as [|x fl].
  { apply Hend; [|by rewrite <- He|done]. apply in_file_last. split; [|done]. split_and!; try done. constructor. }
  apply Forall_cons in Hfl as [Hx Hfl]. destruct Hlen as [|Hlen]; [done|].
  pose proof (file_bytes_len _ _ _ _ Hx) as H16. set (d := file_bytes (_expectHeader m) x) in *.
  set (rest := (false, []) :: concat (map (fun x => fileEvents (file_bytes (_expectHeader m) x)) fl)).
  assert (Ed : ch_events (i_chan m1) = (true, d) :: rest).
  { cbn [m1 with_stream i_chan ch_events map concat]. fold d. pose proof (file_bytes_nonempty _ _ _ _ Hx) as Hdn. fold d in Hdn.
    by destruct d. }
  destruct (readInto_new (i_io m1) (i_chan m1) d rest Hw1 eq_refl Hlen H16 Ed) as (bs & io & c0 & Er & En & Wio & Lio & Bn & Bd & O & Lc).
  assert (Es : sis_read true (Some 16) m1 = (bs, true, false, handleNewInput (with_stream m1 io (then_events c0 rest) (_ateof m1)))).
  { unfold sis_read. rewrite Er, En. done. }
  assert (Ek : forall fuel, readBlock fuel true false 16 [] m1 =
    (bs, true, false, handleNewInput (with_stream m1 io (then_events c0 rest) (_ateof m1)))).
  { intros [|fuel]; cbn [readBlock]; rewrite Es; [done|]. by rewrite andb_false_r. }
  rewrite Ek. cbn [orb].
  destruct (handleNewInput_spec (with_stream m1 io (then_events c0 rest) (_ateof m1))) as (b & nb & ng & -> & Hgb).
  set (m2 := with_sample _ _ _ _). cbn [files_step].
  assert (Eu : io_unread (i_io m2) = io_buffer io) by by apply backupAll_unread.
  assert (Hat : at_file rest m2 d).
  { split; [by apply backupAll_wf|]. split; [done|]. exists c0. split; [done|]. rewrite Eu. split; [done|].
    by rewrite bool_decide_eq_false_2. }
  split.
  - right. split; [done|]. split; [done|]. exists rest, fl. split; [by right|]. split; [done|].
    split; [right; change (16 <= _buflen io); by rewrite Lio|]. right. exists x. split_and!; try done. by apply Hgb.
  - rewrite (toCome_work m2), (toCome_work m) by done. rewrite Hs. change (i_samp m2) with (i_samp m). rewrite Hs.
    rewrite (toCome_length m2 c0 rest eq_refl), Eu, Bd. unfold toCome, remaining. rewrite Hu. unfold ch_bytes. rewrite Ece.
    cbn [map concat length snd app]. fold d. pose proof (file_bytes_nonempty _ _ _ _ Hx) as Hdn. fold d in Hdn.
    assert (Ef : fileEvents d = [(true, d); (false, [])]) by by destruct d.
    rewrite Ef. cbn [app map concat length snd]. rewrite !length_app. unfold rest. cbn [map concat length snd app]. lia.
Qed.

Lemma files_step_trans m m1 l st : (work m1 <= work m)%nat -> files_step m1 l st -> files_step m l st.
Proof. destruct st as [[]|]; cbn; try done. intros ? [? ?]. split; [done|lia]. Qed.

(** One turn of the loop from the first samples of a file, or between
    them. *)
Lemma ns_header_files tail fl m l1 :
  _ateof m = false -> left_samples tail m l1 ->
  (_expectHeader m = true -> _stage (_inputHeader m) = PARSE_START /\ hd_buf (_inputHeader m) = []) ->
  tail_files (_expectHeader m) tail fl -> Forall (archive_file (_expectHeader m) (_bsf m) (i_nodata m)) fl ->
  (fl = [] \/ 16 <= _buflen (i_io m)) ->
  files_step m (l1 ++ concat (map snd fl)) (ns_header true None m).
Proof.
  intros He Hl Hhdr Ht Hfl Hlen. destruct (decide (l1 = option_list (_sampPending m))) as [E|E].
  - destruct Hl as (Hg & Hk & Hb & l' & El & Hs). assert (l' = []) as ->.
    { rewrite E in El. apply (f_equal length) in El. rewrite length_app in El. by destruct l'; [|cbn in El; lia]. }
    destruct (i_samp m) eqn:Ei; [by destruct Hs as (? & ? & ? & _)|]. destruct Hs as [Hh Hin]. rewrite E in *.
    by apply (ns_header_end tail fl).
  - pose proof (ns_header_samples tail m l1 He Hl E) as G.
    assert (K : forall m' l', same_members m m' -> left_samples tail m' l' -> left_files m' (l' ++ concat (map snd fl))).
    { intros m' l' (S1 & S2 & S3 & S4 & S5 & S6) Hl'. right. rewrite S1, S2, S3, S4, S5, S6. split; [done|]. split; [done|].
      exists tail, fl. split_and!; try done. left. by exists l'. }
    destruct (ns_header true None m) as [[d| | |]|]; cbn in G |- *; try done.
    + destruct G as (l' & -> & G1 & G2). exists (l' ++ concat (map snd fl)). split; [done|]. by apply K.
    + destruct G as (G1 & G2 & G3). split; [by apply K|done].
Qed.

(** One turn of the loop of [nextSample]. *)
Lemma ns_iter_files ni m l : left_files m l -> files_step m l (ns_iter true None ni m).
Proof.
  intros [[He ->]|(He & Hhdr & tail & fl & Ht & Hfl & Hlen & H)]; unfold ns_iter; rewrite He.
  { unfold handleEOF. destruct (_sampPending m) as [d|]; cbn [option_list option_rect files_step]; [|done].
    exists []. split; [done|]. left. done. }
  destruct H as [(l1 & Hl & ->)|(x & Hx & Ha & Hk & Hb & Hs & Hp & ->)].
  - assert (Hpar : _inputHeaderParsed m = true).
    { destruct Hl as (_ & _ & _ & l' & _ & Hl). destruct (i_samp m); [destruct Hl as (? & ? & _ & _ & _ & _ & ? & ? & _)|destruct Hl as (_ & _ & ? & _)]; done. }
    assert (E : readInputHeader (headerFuel m) m = (true, m)) by (unfold headerFuel; cbn [readInputHeader]; by rewrite Hpar).
    rewrite E. pose proof (ns_header_files tail fl m l1 He Hl Hhdr Ht Hfl Hlen) as G.
    destruct (_sampPending m) as [d|] eqn:Hp, ni; try done.
    destruct Hl as (Hg & Hk & Hb & l' & -> & Hl). rewrite Hp in *. cbn [option_list option_rect app files_step] in *.
    exists (l' ++ concat (map snd fl)). split; [done|]. right. split; [done|]. split; [done|]. exists tail, fl. split_and!; try done.
    left. exists l'. split; [|done]. apply Forall_cons in Hg as [_ Hg]. split_and!; try done. by exists l'.
  - destruct (readInputHeader_file tail m x Hx Ha Hhdr) as (m1 & -> & A).
    assert (G : files_step m (option_list (_sampPending m) ++ x.2 ++ concat (map snd fl)) (ns_header true None m1)).
    { pose proof A as (io1 & c1 & h1 & Em1 & W & O & B & L & T & Hh1).
      assert (F : _ateof m1 = false /\ _expectHeader m1 = _expectHeader m /\ _bsf m1 = _bsf m /\ i_nodata m1 = i_nodata m /\
        _inputHeader m1 = h1 /\ i_samp m1 = None /\ i_hdr m1 = [] /\ _sampPending m1 = _sampPending m /\ i_io m1 = io1 /\
        _skipSample m1 = false /\ good (_block m1) = true) by (rewrite Em1; by split_and!).
      destruct F as (F1 & F2 & F3 & F4 & F5 & F6 & F7 & F8 & F9 & F10 & F11). rewrite app_assoc.
      apply (files_step_trans m m1); [rewrite !toCome_work, Hs, F6 by done; lia|].
      apply (ns_header_files tail fl m1 (option_list (_sampPending m) ++ x.2)); rewrite ?F2, ?F3, ?F4, ?F5, ?F9, ?L; try done.
      unfold left_samples. rewrite F3, F4, F6, F7, F8, F10, F11. split_and!; try done.
      - apply Forall_app. split; [done|]. apply Hx.
      - exists x.2. split; [done|]. split; [done|]. by eapply at_samples_file. }
    destruct (_sampPending m) as [d|] eqn:Hpe, ni; try done. cbn [option_list option_rect app files_step].
    exists (x.2 ++ concat (map snd fl)). split; [done|]. right. split; [done|]. split; [done|]. exists tail, fl. split_and!; try done.
    right. exists x. split_and!; try done.
Qed.

Lemma loop_files fuel : forall ni m l,
  left_files m l -> (work m < fuel)%nat ->
  files_step m l (let '(r, m') := nextSample_loop fuel true None ni m in Return r m').
Proof.
  induction fuel as [|fuel IH]; intros ni m l Hl Hf; [lia|]. cbn [nextSample_loop].
  pose proof (ns_iter_files ni m l Hl) as H. destruct (ns_iter true None ni m) as [r m'|n m']; [done|].
  destruct H as [H1 H2]. specialize (IH n m' l H1 ltac:(lia)).
  destruct (nextSample_loop fuel true None n m') as [r m2]. by destruct r.
Qed.

(** All samples of all files are delivered, then the stream throws. *)
Lemma read_all_files n : forall m l, left_files m l -> (length l < n)%nat -> (read_all n m).1 = (l, Thrown).
Proof.
  induction n as [|n IH]; intros m l Hl Hn; [lia|]. cbn [read_all]. unfold readSample.
  pose proof (loop_files (sampleFuel m) false m l Hl (work_fuel m)) as H.
  destruct (nextSample_loop _ _ _ _ _) as [r m']. destruct r as [d| | |]; cbn in H; try done.
  - destruct H as (l' & -> & H). cbn in Hn. specialize (IH m' l' H ltac:(lia)).
    destruct (read_all n m') as [[l1 r1] m2]. cbn in IH |- *. by injection IH as -> ->.
  - by subst l.
Qed.

(** A fresh stream behaves as one at its first sample. *)
Lemma start_left m m1 bs :
  _sampPending m = None -> _ateof m = false -> at_samples [] m m1 bs -> left_is true m1 bs.
Proof.
  intros Hp He A. destruct (proj1 (in_file_last m1 bs) (at_samples_file _ _ _ _ A)) as [Hw Hr].
  destruct A as (io1 & c1 & h1 & Em & _).
  assert (F : _ateof m1 = false /\ _sampPending m1 = None /\ i_samp m1 = None /\ i_hdr m1 = []) by (by rewrite Em, <- Hp, <- He).
  destruct F as (F1 & F2 & F3 & F4). split; [done|]. rewrite F1. exists [], []. rewrite Hr. split; [done|].
  unfold pend_is, samp_is. by rewrite F2, F3, F4.
Qed.

(** The first call of [readSample] on a fresh stream. *)
Lemma read_all_start n m m1 bs :
  _sampPending m = None -> _ateof m = false -> readInputHeader (headerFuel m) m = (true, m1) -> at_samples [] m m1 bs ->
  read_all (S n) m =
    match nextSample_loop (sampleFuel m) true None false m1 with
    | (Got s, m) => let '(l, r, m) := read_all n m in (s :: l, r, m)
    | (r, m) => ([], r, m)
    end.
Proof.
  intros Hp He Hh (io1 & c1 & h1 & Em & _). cbn [read_all]. unfold readSample, sampleFuel.
  cbn [Nat.add]. rewrite (loop_start _ true None m m1); try done; by rewrite Em.
Qed.

(** The turns of the first call are enough. *)
Lemma start_fuel m m1 bs :
  at_samples [] m m1 bs -> (length bs <= length (ch_bytes (i_chan m)))%nat -> (turns m1 < sampleFuel m)%nat.
Proof.
  intros A Hl. destruct (proj1 (in_file_last m1 bs) (at_samples_file _ _ _ _ A)) as [_ Hr].
  destruct A as (io1 & c1 & h1 & Em & _). assert (F : i_samp m1 = None) by by rewrite Em.
  unfold turns, sampleFuel. rewrite Hr, F. destruct (_ateof m1); lia.
Qed.

Lemma new_stream_wf blen c eh f nd (m := newSampleInputStream blen c eh f nd) :
  0 < blen -> io_wf (i_io m) /\ io_unread (i_io m) = [].
Proof. intros Hb. split; [by apply newIOStream_wf|done]. Qed.

(** ** Writing *)

Lemma sos_write_spec s flush o c r o' c' :
  io_wf (o_io o) -> sos_write s flush o c = (r, o', c') ->
  io_wf (o_io o') /\ _nextFileTime o' = _nextFileTime o /\ _discardedSamples o' = _discardedSamples o /\
  match r with
  | Some n => 0 <= n /\ oc_bytes c' ++ io_unread (o_io o') =
      (oc_bytes c ++ io_unread (o_io o)) ++ if 0 <? n then enc s else []
  | None => True
  end /\ (oc_script c = [] -> oc_script c' = [] /\ exists n, r = Some n /\ 0 < n).
Proof.
  intros Hw. unfold sos_write. destruct (io_write _ flush (o_io o) c) as [[r0 io] c0] eqn:E. intros [= <- <- <-].
  destruct (io_write_spec _ _ _ _ _ _ _ Hw E) as (W & P & F).
  assert (Ec : concat [header_bytes (a_header s); a_data s] = enc s) by (cbn; by rewrite app_nil_r).
  rewrite Ec in P, F. assert (Hp : 0 < zlen (enc s)).
  { unfold enc. rewrite zlen_app, header_bytes_len. pose proof (zlen_nonneg (a_data s)). lia. }
  split; [done|]. split; [done|]. split; [done|]. split.
  - destruct r0 as [n|]; [|done]. destruct P as [[-> P]|[-> P]].
    + split; [lia|]. destruct (Z.ltb_spec 0 (zlen (enc s))); [done|lia].
    + split; [lia|]. cbn. by rewrite app_nil_r.
  - intros Q. destruct (F Q) as [F1 ->]. split; [done|]. by exists (zlen (enc s)).
Qed.

Section Receiving.

Context (createFile : Z -> bool -> OutChannel -> option (Z * OutChannel)) (header : option InputHeader).

(** [receive] before the next file is due. *)
Lemma sos_receive_same s o c o' c' :
  io_wf (o_io o) -> _tt (a_header s) < _nextFileTime o ->
  sos_receive createFile header s o c = (true, o', c') ->
  io_wf (o_io o') /\ _nextFileTime o' = _nextFileTime o /\
  oc_bytes c' ++ io_unread (o_io o') = (oc_bytes c ++ io_unread (o_io o)) ++
    (if _discardedSamples o' =? _discardedSamples o then enc s else []) /\
  (oc_script c = [] -> oc_script c' = [] /\ _discardedSamples o' = _discardedSamples o).
Proof.
  intros Hw Ht. unfold sos_receive. destruct (Z.leb_spec (_nextFileTime o) (_tt (a_header s))); [lia|].
  set (o1 := mkSampleOutputStream _ _ _ _ _). destruct (sos_write s _ o1 c) as [[[n|] o2] c2] eqn:E; [|done].
  intros [= <- <-]. destruct (sos_write_spec _ _ _ _ _ _ _ (Hw : io_wf (o_io o1)) E) as (W & T & D & [Hn P] & F).
  cbn [o_io _nextFileTime _discardedSamples]. cbn [o1 _nextFileTime _discardedSamples o_io] in *. rewrite D.
  split; [done|]. split; [done|]. split.
  - rewrite P. destruct (Z.ltb_spec 0 n).
    + by rewrite Z.eqb_refl.
    + destruct (Z.eqb_spec (_discardedSamples o + 1) (_discardedSamples o)); [lia|done].
  - intros Q. destruct (F Q) as (Q1 & k & [= <-] & Hk). split; [done|]. destruct (Z.ltb_spec 0 n); lia.
Qed.

Lemma receive_all_same l : forall o c acc o' c',
  io_wf (o_io o) -> Forall (fun s => _tt (a_header s) < _nextFileTime o) l ->
  receive_all createFile header l o c = Some (acc, o', c') ->
  io_wf (o_io o') /\ sublist acc l /\
  oc_bytes c' ++ io_unread (o_io o') = (oc_bytes c ++ io_unread (o_io o)) ++ enc_all acc /\
  (oc_script c = [] -> acc = l).
Proof.
  induction l as [|s l IH]; intros o c acc o' c' Hw Ht; cbn [receive_all].
  { intros [= <- <- <-]. by rewrite app_nil_r. }
  apply Forall_cons in Ht as [Ht Hts]. destruct (sos_receive createFile header s o c) as [[[|] o1] c1] eqn:E; [|done].
  destruct (sos_receive_same _ _ _ _ _ Hw Ht E) as (W & T & B & F).
  destruct (receive_all createFile header l o1 c1) as [[[acc2 o2] c2]|] eqn:E2; [|done]. intros [= <- <- <-].
  destruct (IH _ _ _ _ _ W ltac:(by rewrite T) E2) as (W2 & S2 & B2 & F2). split; [done|].
  rewrite B in B2. destruct (_discardedSamples o1 =? _discardedSamples o) eqn:Ed.
  - split; [by apply sublist_skip|]. split; [rewrite B2; unfold enc_all; cbn; by rewrite <- app_assoc|].
    intros Q. f_equal. apply F2. by apply F.
  - split; [by apply sublist_cons|]. split; [by rewrite B2, app_nil_r|].
    intros Q. destruct (F Q) as [_ E0]. rewrite E0, Z.eqb_refl in Ed. done.
Qed.

(** The first sample opens the file and writes its header. *)
Lemma receive_all_first s l blen maxUsecs c c0 tnext h acc o' c' :
  header = Some h -> 0 < blen -> LONG_LONG_MIN <= _tt (a_header s) ->
  createFile (_tt (a_header s)) true c = Some (tnext, c0) ->
  Forall (fun s => _tt (a_header s) < tnext) (s :: l) ->
  receive_all createFile header (s :: l) (newSampleOutputStream blen maxUsecs) c = Some (acc, o', c') ->
  io_wf (o_io o') /\ sublist acc (s :: l) /\
  oc_bytes c' ++ io_unread (o_io o') = oc_bytes c0 ++ toString h ++ enc_all acc /\
  (oc_script c0 = [] -> acc = s :: l).
Proof.
  intros Hh Hb Hmin Hcf Ht. set (o := newSampleOutputStream blen maxUsecs).
  assert (Hw : io_wf (o_io o)) by by apply newIOStream_wf.
  destruct (io_write [toString h] false (o_io o) c0) as [[r io1] c1] eqn:Ew.
  set (o1 := mkSampleOutputStream io1 maxUsecs 0 tnext 0).
  pose proof Ht as [Ht1 _]%Forall_cons.
  assert (Es : sos_receive createFile header s o c =
    match r with Some _ => sos_receive createFile header s o1 c1 | None => (false, o1, c1) end).
  { unfold sos_receive at 1. change (_nextFileTime o) with LONG_LONG_MIN.
    destruct (Z.leb_spec LONG_LONG_MIN (_tt (a_header s))); [|lia].
    change (io_flush (o_io o) c) with (true, o_io o, c). cbn [negb]. unfold createNextFile.
    cbn [_nextFileTime o newSampleOutputStream]. rewrite Z.eqb_refl, Hcf, Hh. cbn [o_io] in Ew |- *.
    change (newIOStream blen) with (o_io o). rewrite Ew. destruct r as [n|].
    - rewrite bool_decide_eq_true_2 by done. unfold sos_receive.
      change (_nextFileTime o1) with tnext. by destruct (Z.leb_spec tnext (_tt (a_header s))); [lia|].
    - by rewrite bool_decide_eq_false_2 by by intros []. }
  assert (Er : receive_all createFile header (s :: l) o c =
    match r with Some _ => receive_all createFile header (s :: l) o1 c1 | None => None end).
  { cbn [receive_all]. rewrite Es. by destruct r. }
  rewrite Er. destruct (io_write_spec _ _ _ _ _ _ _ Hw Ew) as (W & P & F). destruct r as [n|]; [|done]. intros E.
  destruct (receive_all_same (s :: l) o1 c1 acc o' c' W Ht E) as (W' & S' & B' & F').
  split; [done|]. split; [done|]. rewrite B'. cbn [o1 o_io]. change (io_unread (o_io o)) with (@nil Z) in P.
  cbn [concat] in P, F. rewrite !app_nil_r in P, F. split; [|intros Q; apply F'; by apply F].
  pose proof (io_write_empty _ _ _ _ _ _ _ Hw eq_refl Ew) as ->. cbn [concat] in P. rewrite app_nil_r in P.
  destruct P as [[_ ->]|[E0 ->]]; [by rewrite app_nil_r, <- app_assoc|].
  apply zlen_0_nil in E0. by rewrite E0, app_nil_r.
Qed.

End Receiving.

(** A stream without input. *)
Lemma read_none n m :
  io_wf (i_io m) -> io_unread (i_io m) = [] -> ch_events (i_chan m) = [] -> _inputHeaderParsed m = false ->
  _ateof m = false -> _sampPending m = None -> (read_all (S n) m).1 = ([], Thrown).
Proof.
  intros Hw Hu Hc Hp He Hs. pose proof (readInputHeader_end m Hw Hu Hc Hp) as H. cbn [read_all]. unfold readSample, sampleFuel.
  cbn [Nat.add nextSample_loop]. unfold ns_iter. rewrite He, Hs. by destruct (readInputHeader (headerFuel m) m) as [[|] m1].
Qed.

(** A new stream at the first of its files. *)
Lemma new_stream_files blen c tail eh f nd x fl (m := newSampleInputStream blen (then_events c tail) eh f nd) :
  0 < blen -> one_file c -> ch_bytes c = file_bytes eh x -> tail_files eh tail fl -> (fl = [] \/ 8 <= blen) ->
  Forall (archive_file eh f nd) (x :: fl) -> left_files m (concat (map snd (x :: fl))).
Proof.
  intros Hb Hc Hin Ht Hl [Hx Hfl]%Forall_cons. destruct (new_stream_wf blen (then_events c tail) eh f nd Hb) as [Hw Hu].
  right. split; [done|]. split; [done|]. exists tail, fl. split; [done|]. split; [done|]. split.
  { destruct Hl as [->|Hl]; [by left|right]. cbn. lia. }
  right. exists x. split; [done|]. split; [|by split_and!].
  split; [done|]. split; [done|]. exists c. split; [done|]. fold m in Hu. rewrite Hu. split; [done|]. by rewrite bool_decide_eq_true_2.
Qed.

(** Reading a file of good samples, with or without a header. *)
Lemma read_file blen c eh f nd h l n :
  0 < blen -> one_file c -> clean_header h -> Forall (good_sample f nd) l ->
  ch_bytes c = (if eh : bool then toString h else []) ++ enc_all l -> (length l < n)%nat ->
  (read_all n (newSampleInputStream blen c eh f nd)).1 = (l, Thrown).
Proof.
  intros Hb Hc Hh Hg Hin Hn. destruct (decide (eh = false /\ l = [])) as [[-> ->]|Hne].
  - destruct n as [|n]; [lia|]. apply read_none; try done; [by apply newIOStream_wf|]. cbn [newSampleInputStream i_chan].
    unfold one_file in Hc. unfold ch_bytes in Hin. destruct (ch_events c) as [|e rest]; [done|]. destruct Hc as [Hc _].
    by apply app_eq_nil in Hin as [? _].
  - apply read_all_files; [|done]. rewrite <- (then_events_nil c), <- (app_nil_r l).
    apply (new_stream_files blen c [] eh f nd (h, l) []); try done; [by left|by left|].
    constructor; [|done]. split_and!; try done. cbn. intros -> ->. by apply Hne.
Qed.

(** Reading the files of a file set, one after the other. *)
Lemma read_files blen b eh f nd fl n :
  8 <= blen -> Forall (archive_file eh f nd) fl -> (length (concat (map snd fl)) < n)%nat ->
  (read_all n (newSampleInputStream blen (mkChannel (concat (map (fun x => fileEvents (file_bytes eh x)) fl)) b) eh f nd)).1
    = (concat (map snd fl), Thrown).
Proof.
  intros Hb Hfl Hn. destruct fl as [|x fl].
  { destruct n as [|n]; [lia|]. apply read_none; try done. apply newIOStream_wf. lia. }
  apply read_all_files; [|done]. pose proof Hfl as [Hx _]%Forall_cons. pose proof (file_bytes_nonempty _ _ _ _ Hx) as Hne.
  assert (Ef : fileEvents (file_bytes eh x) = [(true, file_bytes eh x); (false, [])]) by by destruct (file_bytes eh x).
  cbn [map concat]. rewrite Ef. cbn [app].
  apply (new_stream_files blen (mkChannel [(true, file_bytes eh x)] b) ((false, []) :: concat (map (fun x => fileEvents (file_bytes eh x)) fl)));
    try done; [lia|by unfold ch_bytes; cbn; rewrite app_nil_r|by right|by right].
Qed.

(** ** Properties *)

(** C3: what is archived is what is read back.  The samples received by an
    output stream on a new file, whatever the sizes of the physical writes
    and however often the device is not ready, less those that [receive]
    counted as discarded, are exactly the samples an input stream delivers
    from the file, in order, followed by the end-of-file exception, whatever
    the sizes of the physical reads and with bad-sample filtering on or off;
    a device that takes all it is given discards nothing. *)
Theorem archive_end_to_end createFile h s l blen maxUsecs c c0 tnext acc o' c' io' c'' blen' cin f nd n :
  clean_header h -> 0 < blen -> 0 < blen' ->
  Forall (good_sample f nd) (s :: l) -> Forall (fun s => _tt (a_header s) < tnext) (s :: l) ->
  createFile (_tt (a_header s)) true c = Some (tnext, c0) -> oc_bytes c0 = [] ->
  receive_all createFile (Some h) (s :: l) (newSampleOutputStream blen maxUsecs) c = Some (acc, o', c') ->
  io_flush (o_io o') c' = (true, io', c'') -> available io' = 0 ->
  one_file cin -> ch_bytes cin = oc_bytes c'' -> (length acc < n)%nat ->
  (read_all n (newSampleInputStream blen' cin true f nd)).1 = (acc, Thrown) /\
  sublist acc (s :: l) /\ (oc_script c0 = [] -> acc = s :: l).
Proof.
  intros Hh Hb Hb' Hg Ht Hcf Hc0 Hrec Hfl Hav Hone Hin Hn.
  assert (Hmin : LONG_LONG_MIN <= _tt (a_header s)).
  { apply Forall_cons in Hg as [((? & _) & _) _]. unfold LONG_LONG_MIN. lia. }
  destruct (receive_all_first createFile (Some h) s l blen maxUsecs c c0 tnext h acc o' c' eq_refl Hb Hmin Hcf Ht Hrec)
    as (W & Hsub & B & F).
  destruct (flush_loop_spec _ _ _ _ _ _ W Hfl) as (W' & B' & _).
  rewrite (io_unread_nil io' W' Hav), app_nil_r, B, Hc0 in B'.
  split; [|done]. apply (read_file blen' cin true f nd h acc n); try done.
  - apply Forall_forall. intros x Hx. rewrite Forall_forall in Hg. apply Hg. by eapply elem_of_sublist.
  - by rewrite Hin, B'.
Qed.

(** Reading a well-formed archive.  From any file that is the bytes of
    good samples, after a header or not, and however the physical reads cut
    it, [readSample] returns those samples, all of them and in order, then
    throws at the end of the file. *)
Theorem archive_read_complete blen c eh f nd h l n :
  0 < blen -> one_file c -> clean_header h -> Forall (good_sample f nd) l ->
  ch_bytes c = (if eh : bool then toString h else []) ++ enc_all l -> (length l < n)%nat ->
  (read_all n (newSampleInputStream blen c eh f nd)).1 = (l, Thrown).
Proof. apply read_file. Qed.

(** C28: reading arbitrary bytes.  Whatever a file without header contains,
    the calls of [readSample] end with the end-of-file exception, and every
    sample they deliver is a run of bytes of the file: a header that passes
    the checks with exactly its data behind it, the runs disjoint and in
    order; with filtering on, what follows a delivered sample is again a
    header that passes the checks, or fewer than 16 bytes. *)
Theorem archive_no_fabrication blen c f nd n :
  0 < blen -> one_file c -> (length (ch_bytes c) < n)%nat ->
  let '(ds, r, _) := read_all n (newSampleInputStream blen c false f nd) in
  r = Thrown /\ delivered f (ch_bytes c) ds.
Proof.
  intros Hb Hc Hn. set (m := newSampleInputStream blen c false f nd).
  destruct (new_stream_wf blen c false f nd Hb) as [Hw Hu]. destruct n as [|n]; [lia|].
  destruct (decide (ch_bytes c = [])) as [E|E].
  - assert (Ece : ch_events (i_chan m) = []).
    { change (i_chan m) with c. unfold one_file in Hc. unfold ch_bytes in E. destruct (ch_events c) as [|e rest]; [done|].
      destruct Hc as [Hc _]. by apply app_eq_nil in E as [? _]. }
    pose proof (read_none n m Hw Hu Ece eq_refl eq_refl eq_refl) as H. destruct (read_all (S n) m) as [[ds r] m2].
    injection H as -> ->. split; [done|constructor].
  - assert (Ha : at_file [] m (ch_bytes c)).
    { split; [done|]. split; [done|]. exists c. rewrite then_events_nil. split; [done|]. by rewrite bool_decide_eq_true_2. }
    destruct (readInputHeader_none [] m (ch_bytes c) Ha E eq_refl) as (m1 & E1 & A). rewrite (read_all_start n m m1 (ch_bytes c)) by done.
    pose proof (read_all_step n (sampleFuel m) m1 (ch_bytes c) (read_all_post n)
      (start_left m m1 _ eq_refl eq_refl A) (start_fuel m m1 _ A ltac:(done))) as P.
    assert (Ef : _bsf m1 = f) by (destruct A as (? & ? & ? & -> & _); done). rewrite Ef in P.
    destruct (match nextSample_loop _ _ _ _ _ with (_, _) => _ end) as [[ds r] m2]. destruct P as [P1 P2]. auto.
Qed.

(** *** Samples for the examples *)

Definition sample_at (tt : Z) (data : list Z) : ArchSample :=
  mkArchSample (mkSampleHeader tt (zlen data) (2 ^ 16 + 5)) data.

Definition short_filter : BadSampleFilter := setMaxSampleLength 100 newFilter.

Definition one_read (bs : list Z) : Channel := mkChannel [(true, bs)] false.

Definition samples_of (c : Channel) (f : BadSampleFilter) (nd : bool) : list ArchSample * ns_result :=
  (read_all 10 (newSampleInputStream 64 c false f nd)).1.

(** Resynchronisation after corrupt bytes.  With filtering on, one
    corrupt byte between samples costs the sample before it and the sample
    after it; but the same byte at the start of a file costs neither: the
    first bad header does not start a bad block, because the block of a new
    file is still empty, so the first sample after it is not skipped. *)
Theorem leading_garbage_not_skipped :
  let s1 := sample_at 1000 [1; 2] in
  let s2 := sample_at 2000 [3; 4] in
  let s3 := sample_at 3000 [5; 6] in
  let s4 := sample_at 4000 [7; 8] in
  samples_of (one_read (enc s1 ++ enc s2 ++ [255] ++ enc s3 ++ enc s4)) short_filter false = ([s1; s4], Thrown) /\
  samples_of (one_read ([255] ++ enc s3 ++ enc s4)) short_filter false = ([s3; s4], Thrown).
Proof. split; vm_compute; reflexivity. Qed.

(** An empty sample at the end of a file is lost.  When the pool gives an
    empty sample no memory its data pointer is null, and reading its zero
    bytes fills the buffer instead: at the end of the file that is an
    end-of-file, and the complete sample is not delivered. *)
Theorem empty_sample_lost_at_eof :
  let s1 := sample_at 1000 [1; 2] in
  let s2 := sample_at 2000 [] in
  samples_of (one_read (enc s1 ++ enc s2 ++ enc s1)) newFilter true = ([s1; s2; s1], Thrown) /\
  samples_of (one_read (enc s1 ++ enc s2)) newFilter true = ([s1], Thrown) /\
  samples_of (one_read (enc s1 ++ enc s2)) newFilter false = ([s1; s2], Thrown).
Proof. split_and!; vm_compute; reflexivity. Qed.

(** ** Witnesses *)

Lemma sample_at_good f nd tt data :
  - 2 ^ 63 <= tt < 2 ^ 63 -> zlen data < 2 ^ 32 -> data <> [] ->
  good_header f (mkSampleHeader tt (zlen data) (2 ^ 16 + 5)) = true -> good_sample f nd (sample_at tt data).
Proof.
  intros Ht Hl Hd Hg. pose proof (zlen_nonneg data). split; [unfold header_range; cbn; lia|]. split; [done|]. split; done.
Qed.

Lemma archive_end_to_end_witness :
  let l := [sample_at 1000 [1; 2]; sample_at 2000 [3; 4; 5]] in
  let createFile := fun (_ : Z) (_ : bool) (c : OutChannel) => Some (5000, c) in
  exists bs, (read_all 10 (newSampleInputStream 8 (mkChannel [(true, take 7 bs); (false, drop 7 bs)] false) true short_filter false)).1
    = (l, Thrown) /\
    exists o c, receive_all createFile (Some witness_header) l (newSampleOutputStream 16 250000) (mkOutChannel [Wrote 90; Again] []) =
      Some (l, o, c) /\ bs = oc_bytes (io_flush (o_io o) c).2.
Proof.
  intros l createFile.
  destruct (receive_all createFile (Some witness_header) l (newSampleOutputStream 16 250000) (mkOutChannel [Wrote 90; Again] []))
    as [[[acc o] c]|] eqn:E; [|exfalso; vm_compute in E; discriminate].
  assert (Ea : acc = l) by (vm_compute in E; injection E as <- _ _; reflexivity). subst acc.
  destruct (io_flush (o_io o) c) as [[ok io] c2] eqn:Ef.
  assert (H : ok = true /\ available io = 0 /\ (7 < length (oc_bytes c2))%nat).
  { vm_compute in E. injection E as <- <-. vm_compute in Ef. injection Ef as <- <- <-.
    split; [reflexivity|]. split; [reflexivity|]. apply Nat.ltb_lt. vm_compute. reflexivity. }
  destruct H as (-> & Hav & Hlen). exists (oc_bytes c2). split.
  - assert (Hg : Forall (good_sample short_filter false) l).
    { repeat (apply Forall_cons; split); [..|apply Forall_nil; exact I];
        (apply sample_at_good; [lia|vm_compute; reflexivity|discriminate|vm_compute; reflexivity]). }
    refine (proj1 (archive_end_to_end createFile witness_header (sample_at 1000 [1; 2]) [sample_at 2000 [3; 4; 5]] 16 250000
      (mkOutChannel [Wrote 90; Again] []) (mkOutChannel [Wrote 90; Again] []) 5000 l o c io c2 8 _ short_filter false 10
      witness_header_clean ltac:(lia) ltac:(lia) Hg _ eq_refl eq_refl E Ef Hav _ _ ltac:(cbn; lia))).
    + repeat (apply Forall_cons; split); [..|apply Forall_nil; exact I]; cbn; lia.
    + unfold one_file. cbn [ch_events snd]. split.
      * destruct (oc_bytes c2); [cbn in Hlen; lia|discriminate].
      * apply Forall_cons. split; [|apply Forall_nil; exact I]. split; [reflexivity|]. cbn [snd].
        intros H0%(f_equal length). rewrite length_drop in H0. cbn in H0. lia.
    + unfold ch_bytes. cbn [ch_events map snd concat]. rewrite app_nil_r. apply take_drop.
  - exists o, c. split; [reflexivity|]. rewrite Ef. reflexivity.
Defined.

Lemma archive_read_complete_witness :
  let l := [sample_at 1000 [1; 2]; sample_at 2000 [3; 4; 5]] in
  samples_of (one_read (enc_all l)) short_filter false = (l, Thrown).
Proof.
  intros l. apply (archive_read_complete 64 (one_read (enc_all l)) false short_filter false witness_header l 10).
  - lia.
  - split; [discriminate|constructor].
  - exact witness_header_clean.
  - repeat (apply Forall_cons; split); [..|apply Forall_nil; exact I];
      (apply sample_at_good; [lia|vm_compute; reflexivity|discriminate|vm_compute; reflexivity]).
  - vm_compute. reflexivity.
  - cbn. lia.
Defined.

Lemma archive_no_fabrication_witness :
  let bs := [255] ++ enc (sample_at 1000 [1; 2]) ++ [7; 7] in
  delivered short_filter bs [sample_at 1000 [1; 2]].
Proof.
  intros bs.
  pose proof (archive_no_fabrication 64 (one_read bs) short_filter false 100 ltac:(lia)
    ltac:(split; [discriminate|constructor]) ltac:(vm_compute; lia)) as H.
  assert (E : (read_all 100 (newSampleInputStream 64 (one_read bs) false short_filter false)).1.1 = [sample_at 1000 [1; 2]])
    by (vm_compute; reflexivity).
  destruct (read_all _ _) as [[ds r] m]. cbn in E. subst ds. destruct H as [_ H].
  assert (Eb : ch_bytes (one_read bs) = bs) by (unfold ch_bytes; cbn [one_read ch_events map snd concat]; apply app_nil_r).
  rewrite Eb in H. exact H.
Defined.
