(* ===== verification/ArchiveFiles.v ===== *)
(** * Reading an archive of several files.

    The composition of the file sets of [FileSet.v], the buffered streams of
    [IOStream.v] and the sample input stream of [SampleStream.v]: a
    [SampleInputStream] whose [IOChannel] is a [FileSet]
    ([src/src/nidas/core/FileSet.cc], [src/src/nidas/dynld/SampleInputStream.cc])
    reads the files one after the other, each with its own header. *)

From stdpp Require Import strings.
From S2P Require Import Prelude StringUtil SampleId Sample IOStream InputHeader BadSampleFilter Files FileSet SampleStream.

(** The channel that a file set is for its stream. *)
Lemma channel_of_files {fs : Type} `{ReadFiles fs} s (w : fs) eh fl :
  _fd s < 0 -> omap (fun p => content p w) (left s) = map (file_bytes eh) fl ->
  channelEvents s w = concat (map (fun x => fileEvents (file_bytes eh x)) fl).
Proof.
  intros Hfd E. unfold channelEvents. destruct (Z.ltb_spec (_fd s) 0); [|lia]. by rewrite E, map_map.
Qed.

(** C29: an archive of several files is read completely.  A sample input
    stream on a file set delivers the samples of all files that exist, in the
    order of the files and of the samples in them, and then throws the end of
    file, whether the files have headers or not, with bad-sample filtering on
    or off: the end of a file and the header of the next one, which the
    physical reads join in one buffer, are told apart, and the sample held
    back by the filter is not lost.  What the file set returns for the reads
    is what the stream's channel gives.  Files must not be empty, and the
    buffer must hold a sample header. *)
Theorem archive_files_read {fs : Type} `{ReadFiles fs} blen s (w : fs) b eh f nd fl n :
  8 <= blen -> reading s w -> _fd s < 0 ->
  omap (fun p => content p w) (left s) = map (file_bytes eh) fl ->
  Forall (archive_file eh f nd) fl -> (length (concat (map snd fl)) < n)%nat ->
  let c := mkChannel (channelEvents s w) b in
  (forall lens, Forall (fun len => 0 < len) lens -> readSeq lens s w = Some (chanSeq lens c)) /\
  (read_all n (newSampleInputStream blen c eh f nd)).1 = (concat (map snd fl), Thrown).
Proof.
  intros Hb R Hfd E Hfl Hn c. split; [intros lens Hl; by apply readSeq_channel|].
  unfold c. rewrite (channel_of_files s w eh fl Hfd E). by apply read_files.
Qed.

(** A small buffer hides the start of a file: with room for fewer bytes than
    a sample header, the flag of the new input is lost between two physical
    reads, the header of the second file is taken for samples, and with
    filtering on neither its sample nor the one held back before it is
    delivered. *)
Theorem small_buffer_joins_files :
  let s1 := sample_at 1000 [1; 2] in
  let s2 := sample_at 2000 [3; 4] in
  let c := mkChannel (fileEvents (toString witness_header ++ enc s1) ++ fileEvents (toString witness_header ++ enc s2)) false in
  (read_all 10 (newSampleInputStream 8 c true short_filter false)).1 = ([s1; s2], Thrown) /\
  (read_all 10 (newSampleInputStream 7 c true short_filter false)).1 = ([], Thrown).
Proof. vm_compute. split; reflexivity. Qed.

(** ** Witnesses *)

Lemma archive_files_read_witness :
  let fl := [(witness_header, [sample_at 1000 [1; 2]; sample_at 2000 [3; 4; 5]]); (witness_header, []); (witness_header, [sample_at 3000 [6]])] in
  let w := mkMemfs [(bytes_of "a", File (file_bytes true (nth 0 fl (witness_header, []))));
                    (bytes_of "b", File (file_bytes true (nth 1 fl (witness_header, []))));
                    (bytes_of "c", File (file_bytes true (nth 2 fl (witness_header, []))))] [] 3 in
  let s := setKeepOpening true (addFileName (bytes_of "c") (addFileName (bytes_of "x") (addFileName (bytes_of "b") (addFileName (bytes_of "a") newFileSet)))) in
  (read_all 10 (newSampleInputStream 8 (mkChannel (channelEvents s w) false) true short_filter false)).1 =
    ([sample_at 1000 [1; 2]; sample_at 2000 [3; 4; 5]; sample_at 3000 [6]], Thrown).
Proof.
  intros fl w s. apply (archive_files_read 8 s w false true short_filter false fl 10).
  - lia.
  - split; [by right|]. split; [exact I|]. split; [|split; [|cbn; lia]]; [apply (bool_decide_unpack _); vm_compute; exact I|].
    repeat (apply Forall_cons_2; [first [by left; eexists|by right]|]). apply Forall_nil_2.
  - reflexivity.
  - vm_compute. reflexivity.
  - repeat (apply Forall_cons; split); [..|apply Forall_nil; exact I]; (split; [exact witness_header_clean|]; split; [|discriminate]).
    all: repeat (apply Forall_cons; split); [..|apply Forall_nil; exact I];
      (apply sample_at_good; [lia|vm_compute; reflexivity|discriminate|vm_compute; reflexivity]).
  - cbn. lia.
Defined.
