(* ===== verification/SyncLayout.v ===== *)
(** * Sync records: their layout.

    [SyncInfo] and the first half of [SyncRecordSource] of
    [src/src/nidas/dynld/raf/SyncRecordSource.cc] and [SyncRecordSource.h]:
    the variables that go into a sync record, the row of each sample in it,
    and the numbers computed from the rate of a sample.  A sync record holds
    one second of data: for each sample a time offset, then for each variable
    its values in the slots of the second. *)

From Stdlib Require Import SpecFloat.
From S2P Require Import Prelude StdMap UTime SampleId Doubles Floats.

(** ** Variables *)

Inductive variableType := CONTINUOUS | COUNTER | CLOCK | OTHER | WEIGHT.

#[export] Instance variableType_eq_dec : EqDecision variableType.
Proof. solve_decision. Defined.

(** The converter of a variable: its kind, [getUnits()], and the calibration
    file, if any, with name and path. *)
Inductive converterKind :=
| Linear (intercept slope : Flt.t)
| Polynomial (coefs : list Flt.t)
| OtherConverter.

Record Converter := mkConverter {
  cv_kind : converterKind;
  cv_units : list Z;
  cv_file : option (list Z * list Z)
}.

Record VariableT := mkVariable {
  v_name : list Z;
  v_type : variableType;
  v_length : Z;
  v_units : list Z;
  v_longname : list Z;
  v_converter : option Converter
}.

(** A sample of a sensor: [SampleTag]. *)
Record SampleTag := mkSampleTag {
  st_id : Z;
  st_rate : Dbl.t;
  st_processed : bool;
  st_variables : list VariableT
}.

(** A variable with [getSampleTag()]: its sample's id and rate. *)
Record TagVar := mkTagVar {
  tv_id : Z;
  tv_getRate : Dbl.t;
  tv_var : VariableT
}.

(** [float rate = tag->getRate()] *)
Definition tv_rate (v : TagVar) : Flt.t := Flt.ofDbl (tv_getRate v).

Definition wanted (v : VariableT) : bool :=
  match v_type v with CONTINUOUS | COUNTER => true | _ => false end.

(** [selectVariablesFromSensor]: the tags of a sensor; [seen] are the ids in
    [idmap]. *)
Fixpoint selectTags (tags : list SampleTag) (seen : list Z) : list TagVar :=
  match tags with
  | [] => []
  | t :: tags =>
      if negb (st_processed t) then selectTags tags seen
      else if match st_variables t with [v] => negb (wanted v) | _ => false end then selectTags tags seen
      else if bool_decide (st_id t ∈ seen) then selectTags tags seen
      else map (mkTagVar (st_id t) (st_rate t)) (List.filter wanted (st_variables t)) ++ selectTags tags (st_id t :: seen)
  end.

Definition selectVariablesFromSensor (tags : list SampleTag) (variables : list TagVar) : list TagVar :=
  variables ++ selectTags tags [].

(** [selectVariablesFromProject]: the sensors of the project, by pointer; a
    sensor is used once. *)
Fixpoint selectSensors (sensors : list (Z * list SampleTag)) (seen : list Z) (variables : list TagVar) : list TagVar :=
  match sensors with
  | [] => variables
  | (p, tags) :: sensors =>
      if bool_decide (p ∈ seen) then selectSensors sensors seen variables
      else selectSensors sensors (p :: seen) (selectVariablesFromSensor tags variables)
  end.

Definition selectVariablesFromProject (sensors : list (Z * list SampleTag)) (variables : list TagVar) : list TagVar :=
  selectSensors sensors [] variables.

(** ** SyncInfo

    What is kept for each sample; [nskips], which only decides about log
    messages, is left out. *)
Record SyncInfo := mkSyncInfo {
  si_id : Z;
  rate : Flt.t;
  nSlots : Z;
  dtUsec : Z;
  islot : Z;
  irec : Z;
  varLengths : list Z;
  sampleLength : Z;
  sampleSRIndex : Z;
  variables : list VariableT;
  varSRIndex : list Z;
  discarded : Z;
  overWritten : bool;
  noverWritten : Z;
  skipped : Z;
  total : Z;
  minDiffInit : Z;
  minDiff : Z;
  skipMod : Z;
  skipModCount : Z;
  nEarlySamp : Z;
  nLateSamp : Z;
  outOfSlotMax : Z
}.

(** The numbers computed from the rate. *)
Definition rateSlots (r : Flt.t) : Z := intCeil r.
Definition rateUsec (r : Flt.t) : Z := intRint (Flt.div (Flt.ofZ USECS_PER_SEC) r).
Definition rateHalfUsec (r : Flt.t) : Z := intCeil (Flt.div (Flt.div (Flt.ofZ USECS_PER_SEC) r) (Flt.ofZ 2)).
Definition rateSkipMod (r : Flt.t) : Z :=
  intTrunc (Dbl.div (Dbl.ofZ 1) (Flt.sub (Flt.ofZ 1) (Flt.sub (Flt.ofZ (rateSlots r)) r))).

Definition newSyncInfo (i : Z) (r : Flt.t) : SyncInfo :=
  let dt := rateUsec r in
  mkSyncInfo i r (rateSlots r) dt (-1) 0 [] 1 0 [] [] 0 false 0 0 0 dt dt (rateSkipMod r) 0 0 0
    (Z.max (u32 (3 * USECS_PER_SEC) / u32 dt) 5).

Definition with_layout (s : SyncInfo) (lens : list Z) (len ix : Z) (vars : list VariableT) (vix : list Z) : SyncInfo :=
  mkSyncInfo (si_id s) (rate s) (nSlots s) (dtUsec s) (islot s) (irec s) lens len ix vars vix (discarded s) (overWritten s)
    (noverWritten s) (skipped s) (total s) (minDiffInit s) (minDiff s) (skipMod s) (skipModCount s) (nEarlySamp s)
    (nLateSamp s) (outOfSlotMax s).

(** [addVariable(var)] *)
Definition addVariable (s : SyncInfo) (v : VariableT) : SyncInfo :=
  with_layout s (varLengths s ++ [v_length v]) (sampleLength s + v_length v * nSlots s) (sampleSRIndex s)
    (variables s ++ [v]) (varSRIndex s ++ [sampleLength s]).

(** [init()], the first loop: a [SyncInfo] for each sample with a positive
    rate.  The result has [_syncInfo] and [_halfMaxUsecsPerSample]. *)
Fixpoint initInfos (vars : list TagVar) (infos : smap SyncInfo) (half : Z) : smap SyncInfo * Z :=
  match vars with
  | [] => (infos, half)
  | v :: vars =>
      if Flt.le (tv_rate v) (Flt.ofZ 0) then initInfos vars infos half
      else
        let s := match sm_find (tv_id v) infos with Some s => s | None => newSyncInfo (tv_id v) (tv_rate v) end in
        initInfos vars (sm_set (tv_id v) (addVariable s (tv_var v)) infos) (Z.max half (rateHalfUsec (tv_rate v)))
  end.

(** The second loop: the rows one after the other, in the order of the ids.
    The result has [_recSize]. *)
Fixpoint initIndices (infos : smap SyncInfo) (index : Z) : smap SyncInfo * Z :=
  match infos with
  | [] => ([], index)
  | (i, s) :: infos =>
      let s' := with_layout s (varLengths s) (sampleLength s) index (variables s) (map (Z.add index) (varSRIndex s)) in
      let '(infos', n) := initIndices infos (index + sampleLength s) in
      ((i, s') :: infos', n)
  end.

Definition initLayout (vars : list TagVar) : smap SyncInfo * Z * Z :=
  let '(infos, half) := initInfos vars [] INT_MIN in
  let '(infos, n) := initIndices infos 0 in
  (infos, half, n).

(** ** The layout is sound *)

(** The parts of a row: from [lo] to [hi] one after the other, [n] slots
    each. *)
Fixpoint vars_ok (lo n : Z) (ixs lens : list Z) (hi : Z) : Prop :=
  match ixs, lens with
  | [], [] => lo = hi
  | ix :: ixs, len :: lens => ix = lo /\ 0 <= len /\ vars_ok (lo + len * n) n ixs lens hi
  | _, _ => False
  end.

(** The rows of a record, one after the other. *)
Fixpoint rows_ok (lo : Z) (infos : smap SyncInfo) (hi : Z) : Prop :=
  match infos with
  | [] => lo = hi
  | (_, s) :: infos => sampleSRIndex s = lo /\ rows_ok (lo + sampleLength s) infos hi
  end.

(** Everything but the layout is as the constructor leaves it. *)
Definition fresh_info (s : SyncInfo) : Prop :=
  s = with_layout (newSyncInfo (si_id s) (rate s)) (varLengths s) (sampleLength s) (sampleSRIndex s) (variables s) (varSRIndex s).

Definition row_ok (s : SyncInfo) : Prop :=
  vars_ok (sampleSRIndex s + 1) (nSlots s) (varSRIndex s) (varLengths s) (sampleSRIndex s + sampleLength s).

Lemma vars_ok_snoc n len ixs : forall lens lo hi,
  0 <= len -> vars_ok lo n ixs lens hi -> vars_ok lo n (ixs ++ [hi]) (lens ++ [len]) (hi + len * n).
Proof. induction ixs as [|ix ixs IH]; intros [|l lens] lo hi Hl; cbn; try done; [by intros ->|]. naive_solver. Qed.

Lemma vars_ok_shift b n ixs : forall lens lo hi,
  vars_ok lo n ixs lens hi -> vars_ok (b + lo) n (map (Z.add b) ixs) lens (b + hi).
Proof.
  induction ixs as [|ix ixs IH]; intros [|l lens] lo hi; cbn; try done; [by intros ->|]. intros (-> & Hl & H).
  split; [done|]. split; [done|]. rewrite <- Z.add_assoc. by apply IH.
Qed.

Lemma vars_ok_le n ixs : forall lens lo hi, 0 <= n -> vars_ok lo n ixs lens hi -> lo <= hi.
Proof.
  induction ixs as [|ix ixs IH]; intros [|l lens] lo hi Hn; cbn; try done; [lia|]. intros (-> & Hl & H%IH); [nia|done].
Qed.

Lemma newSyncInfo_row i r : row_ok (newSyncInfo i r) /\ fresh_info (newSyncInfo i r) /\ sampleSRIndex (newSyncInfo i r) = 0.
Proof. done. Qed.

Lemma addVariable_ok s v :
  0 <= v_length v -> fresh_info s -> row_ok s -> sampleSRIndex s = 0 ->
  fresh_info (addVariable s v) /\ row_ok (addVariable s v) /\ sampleSRIndex (addVariable s v) = 0.
Proof.
  intros Hv Hf Hr H0. split; [|split; [|done]].
  - unfold fresh_info in *. unfold addVariable. rewrite Hf at 1. done.
  - unfold row_ok in *. cbn [addVariable with_layout sampleSRIndex nSlots varSRIndex varLengths sampleLength]. rewrite H0 in *.
    rewrite !Z.add_0_l in *. by apply vars_ok_snoc.
Qed.

(** What a variable of the list contributes. *)
Definition in_record (v : TagVar) : bool := negb (Flt.le (tv_rate v) (Flt.ofZ 0)).

Definition vars_of (i : Z) (vars : list TagVar) : list VariableT :=
  map tv_var (List.filter (fun v => in_record v && (tv_id v =? i)) vars).

Definition info_ok (i : Z) (s : SyncInfo) : Prop := fresh_info s /\ row_ok s /\ si_id s = i.

Lemma initInfos_ok vars : forall infos half infos' half',
  Forall (fun v => 0 <= v_length (tv_var v)) vars ->
  sm_wf infos -> (forall i s, sm_find i infos = Some s -> info_ok i s /\ sampleSRIndex s = 0) ->
  initInfos vars infos half = (infos', half') ->
  sm_wf infos' /\ (forall i s, sm_find i infos' = Some s -> info_ok i s /\ sampleSRIndex s = 0) /\
  (forall i, from_option variables [] (sm_find i infos') = from_option variables [] (sm_find i infos) ++ vars_of i vars) /\
  half <= half' /\ Forall (fun v => in_record v = true -> rateHalfUsec (tv_rate v) <= half') vars.
Proof.
  induction vars as [|v vars IH]; intros infos half infos' half' Hl Hw Hi; cbn [initInfos].
  { intros [= <- <-]. split_and!; try done. intros i. by rewrite app_nil_r. }
  apply Forall_cons in Hl as [Hl Hls]. unfold vars_of. cbn [List.filter]. unfold in_record at 1.
  destruct (Flt.le (tv_rate v) (Flt.ofZ 0)) eqn:Er; cbn [negb andb].
  { intros E. destruct (IH _ _ _ _ Hls Hw Hi E) as (W & I & V & H & F). split_and!; try done. constructor; [|done].
    unfold in_record. by rewrite Er. }
  set (s := match sm_find (tv_id v) infos with Some s => s | None => _ end). intros E.
  assert (Hs : info_ok (tv_id v) s /\ sampleSRIndex s = 0).
  { unfold s. destruct (sm_find (tv_id v) infos) as [s0|] eqn:Es; [by apply Hi|]. split; [|done]. split_and!; done. }
  destruct Hs as [(S1 & S2 & S3) S4]. destruct (addVariable_ok s (tv_var v) Hl S1 S2 S4) as (A1 & A2 & A3).
  assert (Hi' : forall i s0, sm_find i (sm_set (tv_id v) (addVariable s (tv_var v)) infos) = Some s0 -> info_ok i s0 /\ sampleSRIndex s0 = 0).
  { intros i s0. rewrite sm_find_set. destruct (Z.eqb_spec i (tv_id v)) as [->|Hne]; [|apply Hi].
    intros [= <-]. split; [|done]. by split_and!. }
  destruct (IH _ _ _ _ Hls (sm_set_wf (tv_id v) (addVariable s (tv_var v)) infos Hw) Hi' E) as (W & I & V & H & F).
  split; [done|]. split; [done|]. split.
  - intros i. rewrite V, sm_find_set, Z.eqb_sym. unfold vars_of. destruct (Z.eqb_spec (tv_id v) i) as [<-|Hne]; [|done].
    cbn [from_option map addVariable with_layout variables]. rewrite <- app_assoc. unfold s. by destruct (sm_find (tv_id v) infos).
  - split; [lia|]. constructor; [|done]. intros _. lia.
Qed.

Lemma initIndices_ok infos : forall index infos' n,
  initIndices infos index = (infos', n) ->
  map fst infos' = map fst infos /\ rows_ok index infos' n /\
  forall i, sm_find i infos' = None /\ sm_find i infos = None \/
    exists s s', sm_find i infos = Some s /\ sm_find i infos' = Some s' /\ variables s' = variables s /\
      (info_ok i s /\ sampleSRIndex s = 0 -> info_ok i s').
Proof.
  induction infos as [|[i0 s0] infos IH]; intros index infos' n; cbn [initIndices].
  { intros [= <- <-]. split_and!; try done. by left. }
  destruct (initIndices infos (index + sampleLength s0)) as [r m] eqn:E. intros [= <- <-].
  destruct (IH _ _ _ E) as (K & R & F). cbn [map fst rows_ok]. split; [by rewrite K|]. split; [done|].
  intros i. cbn [sm_find]. destruct (Z.eqb_spec i i0) as [->|Hne]; [|apply F]. right. eexists _, _. split; [done|].
  split; [done|]. split; [done|]. intros [(S1 & S2 & S3) S4]. split_and!; [|
    |done].
  - unfold fresh_info in *. cbn. rewrite S1 at 1. done.
  - unfold row_ok in *. cbn. rewrite S4 in S2. rewrite !Z.add_0_l in S2. by apply vars_ok_shift.
Qed.

(** The layout of a record: the rows of the samples follow each other in the
    order of the ids and fill the record; in each row, after the time offset,
    the variables of the sample follow each other, in the order of the list
    of variables. *)
Lemma initLayout_ok vars infos half n :
  Forall (fun v => 0 <= v_length (tv_var v)) vars -> initLayout vars = (infos, half, n) ->
  sm_wf infos /\ rows_ok 0 infos n /\
  (forall i s, sm_find i infos = Some s -> info_ok i s /\ variables s = vars_of i vars) /\
  Forall (fun v => in_record v = true -> rateHalfUsec (tv_rate v) <= half /\ is_Some (sm_find (tv_id v) infos)) vars.
Proof.
  intros Hl. unfold initLayout. destruct (initInfos vars [] INT_MIN) as [infos1 half1] eqn:E1.
  destruct (initIndices infos1 0) as [infos2 n2] eqn:E2. intros [= <- <- <-].
  destruct (initInfos_ok vars [] INT_MIN infos1 half1 Hl sm_empty_wf ltac:(done) E1) as (W & I & V & _ & F).
  destruct (initIndices_ok infos1 0 infos2 n2 E2) as (K & R & G).
  split; [unfold sm_wf; by rewrite K|]. split; [done|]. split.
  - intros i s Hs. destruct (G i) as [[G0 _]|(s1 & s2 & G1 & G2 & G3 & G4)]; [congruence|].
    assert (s2 = s) as -> by congruence. split; [by apply G4, I|]. specialize (V i). rewrite G1 in V. cbn in V. congruence.
  - apply Forall_forall. intros v Hv Hr. rewrite Forall_forall in F. split; [by apply F|].
    destruct (G (tv_id v)) as [[_ G0]|(s1 & s2 & _ & G2 & _)]; [|by exists s2]. exfalso. specialize (V (tv_id v)). rewrite G0 in V. cbn in V.
    symmetry in V. apply (f_equal length) in V. unfold vars_of in V. rewrite length_map in V. cbn in V.
    apply length_zero_iff_nil in V. assert (Hin : In v (List.filter (fun w => in_record w && (tv_id w =? tv_id v)) vars)).
    { apply List.filter_In. split; [by apply list_elem_of_In|]. by rewrite Hr, Z.eqb_refl. }
    by rewrite V in Hin.
Qed.

(** The lengths of a row are those of its variables. *)
Definition lens_ok (s : SyncInfo) : Prop := varLengths s = map v_length (variables s).

Lemma initInfos_lens vars : forall infos half,
  (forall i s, sm_find i infos = Some s -> lens_ok s) -> forall i s, sm_find i (initInfos vars infos half).1 = Some s -> lens_ok s.
Proof.
  induction vars as [|v vars IH]; intros infos half Hi; cbn [initInfos]; [done|]. destruct (Flt.le _ _); [by apply IH|].
  apply IH. intros i s. rewrite sm_find_set. destruct (i =? tv_id v); [|apply Hi]. intros [= <-]. unfold lens_ok.
  cbn [addVariable with_layout varLengths variables]. rewrite map_app. cbn [map]. f_equal.
  destruct (sm_find (tv_id v) infos) as [s|] eqn:E; [by apply (Hi (tv_id v))|done].
Qed.

Lemma initIndices_find infos : forall index i s, sm_find i (initIndices infos index).1 = Some s ->
  exists s0, sm_find i infos = Some s0 /\ rate s = rate s0 /\ varLengths s = varLengths s0 /\ variables s = variables s0.
Proof.
  induction infos as [|[j s1] infos IH]; intros k i s; cbn [initIndices]; [done|].
  specialize (IH (k + sampleLength s1) i s). destruct (initIndices infos _) as [r m]. cbn [fst sm_find] in *.
  destruct (i =? j); [|done]. intros [= <-]. by eexists.
Qed.

Lemma initLayout_lens vars i s : sm_find i (initLayout vars).1.1 = Some s -> lens_ok s.
Proof.
  unfold initLayout. pose proof (initInfos_lens vars [] INT_MIN ltac:(done)) as H. destruct (initInfos vars [] INT_MIN) as [infos half].
  pose proof (initIndices_find infos 0 i s) as K. destruct (initIndices infos 0) as [infos2 n]. cbn in *. intros (s0 & Hs & _ & E1 & E2)%K.
  unfold lens_ok. rewrite E1, E2. by apply (H i).
Qed.

(** The tables of the class documentation: microseconds per sample, slots,
    and the modulus of skipped slots, for rates in 1/10000 Hz. *)
Theorem documented_rates :
  let info r := let s := newSyncInfo 0 (Flt.ofDbl (Dbl.div (Dbl.ofZ r) (Dbl.ofZ 10000))) in (dtUsec s, nSlots s, skipMod s) in
  map info [10000000; 1000000; 500000; 125000; 100000; 80000; 62500; 31250; 30000; 15625; 10000] =
    [(1000, 1000, 1); (10000, 100, 1); (20000, 50, 1); (80000, 13, 2); (100000, 10, 1); (125000, 8, 1); (160000, 7, 4);
     (320000, 4, 8); (333333, 3, 1); (640000, 2, 1); (1000000, 1, 1)].
Proof. vm_compute. reflexivity. Qed.
