(* ===== verification/SyncRecords.v ===== *)
(** * Sync records: their assembly.

    [SyncRecordSource::receive] and what it calls, of
    [src/src/nidas/dynld/raf/SyncRecordSource.cc]: each sample is put in a
    slot of the sync record of its second, two records being filled at a
    time.  The assertions of the code are checked by the model.  Samples are
    what [getSample] gives; log messages are left out. *)

From Stdlib Require Import SpecFloat.
From S2P Require Import Prelude StdMap UTime SampleId Doubles Floats SyncLayout.

(** ** Faults

    An assertion that fails, a division by zero, a store through the pointer
    of a record that was passed on, or the bound on a loop was too small. *)
Inductive fault := AssertFailed | DivideByZero | StaleRecord | NoEnd.

Definition result (A : Type) : Type := fault + A.

Declare Scope sync_scope.
#[local] Open Scope sync_scope.

Notation "'let!' x := e 'in' k" :=
  (match e with inl f => inl f | inr x => k end) (at level 10, x pattern, e at level 200, k at level 200) : sync_scope.

(** ** State *)

Record SyncRec := mkSyncRec {
  sr_time : Z;
  sr_data : list Dbl.t
}.

(** A sample: its values are the doubles that its elements convert to. *)
Record InSample := mkInSample {
  is_tt : Z;
  is_id : Z;
  is_type : sampleType;
  is_values : list Dbl.t
}.

(** Arrays of [NSYNCREC] = 2 elements. *)
Definition at2 {A : Type} (p : A * A) (i : Z) : A := if i =? 0 then p.1 else p.2.
Definition set2 {A : Type} (p : A * A) (i : Z) (a : A) : A * A := if i =? 0 then (a, p.2) else (p.1, a).

(** [s_out] are the records distributed so far. *)
Record SyncRecordSource := mkSource {
  _syncInfo : smap SyncInfo;
  _recSize : Z;
  _syncTime : Z * Z;
  _current : Z;
  _halfMaxUsecsPerSample : Z;
  _syncRecord : option SyncRec * option SyncRec;
  _unknownSampleType : Z;
  _badLaterSamples : Z;
  s_out : list SyncRec
}.

(** The constructor, and [init()] on the variables of the project. *)
Definition newSyncRecordSource (vars : list TagVar) : SyncRecordSource :=
  let '(infos, half, n) := initLayout vars in
  mkSource infos n (LONG_LONG_MIN, LONG_LONG_MIN) 0 half (None, None) 0 0 [].

Definition with_infos (st : SyncRecordSource) (infos : smap SyncInfo) : SyncRecordSource :=
  mkSource infos (_recSize st) (_syncTime st) (_current st) (_halfMaxUsecsPerSample st) (_syncRecord st)
    (_unknownSampleType st) (_badLaterSamples st) (s_out st).

Definition with_records (st : SyncRecordSource) (times : Z * Z) (cur : Z) (recs : option SyncRec * option SyncRec)
    (out : list SyncRec) : SyncRecordSource :=
  mkSource (_syncInfo st) (_recSize st) times cur (_halfMaxUsecsPerSample st) recs (_unknownSampleType st)
    (_badLaterSamples st) out.

Definition with_stats (st : SyncRecordSource) (unknown later : Z) : SyncRecordSource :=
  mkSource (_syncInfo st) (_recSize st) (_syncTime st) (_current st) (_halfMaxUsecsPerSample st) (_syncRecord st)
    unknown later (s_out st).

Definition with_slot (s : SyncInfo) (slot rec count : Z) : SyncInfo :=
  mkSyncInfo (si_id s) (rate s) (nSlots s) (dtUsec s) slot rec (varLengths s) (sampleLength s) (sampleSRIndex s)
    (variables s) (varSRIndex s) (discarded s) (overWritten s) (noverWritten s) (skipped s) (total s) (minDiffInit s)
    (minDiff s) (skipMod s) count (nEarlySamp s) (nLateSamp s) (outOfSlotMax s).

Definition with_diff (s : SyncInfo) (diff : Z) : SyncInfo :=
  mkSyncInfo (si_id s) (rate s) (nSlots s) (dtUsec s) (islot s) (irec s) (varLengths s) (sampleLength s) (sampleSRIndex s)
    (variables s) (varSRIndex s) (discarded s) (overWritten s) (noverWritten s) (skipped s) (total s) (minDiffInit s)
    diff (skipMod s) (skipModCount s) (nEarlySamp s) (nLateSamp s) (outOfSlotMax s).

Definition with_early (s : SyncInfo) (early late : Z) : SyncInfo :=
  mkSyncInfo (si_id s) (rate s) (nSlots s) (dtUsec s) (islot s) (irec s) (varLengths s) (sampleLength s) (sampleSRIndex s)
    (variables s) (varSRIndex s) (discarded s) (overWritten s) (noverWritten s) (skipped s) (total s) (minDiffInit s)
    (minDiff s) (skipMod s) (skipModCount s) early late (outOfSlotMax s).

Definition with_counts (s : SyncInfo) (disc : Z) (over : bool) (nover skip tot : Z) : SyncInfo :=
  mkSyncInfo (si_id s) (rate s) (nSlots s) (dtUsec s) (islot s) (irec s) (varLengths s) (sampleLength s) (sampleSRIndex s)
    (variables s) (varSRIndex s) disc over nover skip tot (minDiffInit s)
    (minDiff s) (skipMod s) (skipModCount s) (nEarlySamp s) (nLateSamp s) (outOfSlotMax s).

Definition discard (s : SyncInfo) : SyncInfo :=
  with_counts s (u32 (discarded s + 1)) (overWritten s) (noverWritten s) (skipped s) (total s).

Definition mark_over (s : SyncInfo) : SyncInfo :=
  with_counts s (discarded s) true (noverWritten s) (skipped s) (total s).

Definition skip_slots (s : SyncInfo) (n : Z) : SyncInfo :=
  with_counts s (discarded s) (overWritten s) (noverWritten s) (u32 (skipped s + n)) (total s).

(** ** Records *)

Definition NSYNCREC : Z := 2.

Definition nextRecordIndex (i : Z) : Z := Z.rem (i + 1) NSYNCREC.
Definition prevRecordIndex (i : Z) : Z := nextRecordIndex i.

(** [sendSyncRecord()]; [_current] is 0 or 1, as its assertion says. *)
Definition sendSyncRecord (st : SyncRecordSource) : SyncRecordSource :=
  match at2 (_syncRecord st) (_current st) with
  | None => st
  | Some r =>
      with_records st (set2 (_syncTime st) (_current st) LONG_LONG_MIN) (_current st)
        (set2 (_syncRecord st) (_current st) None) (s_out st ++ [r])
  end.

(** [flush()] *)
Definition flushOnce (st : SyncRecordSource) : SyncRecordSource :=
  let st := sendSyncRecord st in
  with_records st (_syncTime st) (nextRecordIndex (_current st)) (_syncRecord st) (s_out st).

Definition flush (st : SyncRecordSource) : SyncRecordSource := flushOnce (flushOnce st).

(** [allocateRecord(irec,timetag)] *)
Definition allocateRecord (i : Z) (timetag : Z) (st : SyncRecordSource) : SyncRecordSource :=
  match at2 (_syncRecord st) i with
  | Some _ => st
  | None =>
      let syncTime := timetag - Z.rem timetag USECS_PER_SEC in
      with_records st (set2 (_syncTime st) i syncTime) (_current st)
        (set2 (_syncRecord st) i (Some (mkSyncRec syncTime (replicate (Z.to_nat (_recSize st)) S754_nan)))) (s_out st)
  end.

(** [SyncInfo::advanceRecord(ilast)] *)
Definition infoAdvance (ilast : Z) (s : SyncInfo) : SyncInfo :=
  if irec s =? ilast then with_slot s (-1) (nextRecordIndex ilast) (skipModCount s) else s.

(** [advanceRecord(timetag)] *)
Definition advanceRecord (timetag : Z) (st : SyncRecordSource) : SyncRecordSource :=
  let last := _current st in
  let st := sendSyncRecord st in
  let st := with_records st (_syncTime st) (nextRecordIndex (_current st)) (_syncRecord st) (s_out st) in
  let st := allocateRecord (_current st) timetag st in
  with_infos st (map (fun e => (e.1, infoAdvance last e.2)) (_syncInfo st)).

(** [prevRecord(sinfo)] *)
Definition prevRecord (st : SyncRecordSource) (s : SyncInfo) : result (bool * SyncInfo) :=
  let n := irec s in
  if n =? _current st then inr (false, s)
  else
    match at2 (_syncRecord st) (prevRecordIndex n) with
    | None => inl AssertFailed
    | Some _ => inr (true, with_slot s (islot s) (nextRecordIndex n) (skipModCount s))
    end.

(** [nextRecord(sinfo)] *)
Definition nextRecord (st : SyncRecordSource) (s : SyncInfo) : result (bool * SyncRecordSource * SyncInfo) :=
  let i := irec s in
  match at2 (_syncRecord st) i with
  | None => inl AssertFailed
  | Some _ =>
      if negb (i =? _current st) then inr (false, st, mark_over s)
      else
        let tnext := at2 (_syncTime st) i + USECS_PER_SEC in
        let n := nextRecordIndex i in
        let st := allocateRecord n tnext st in
        if negb (at2 (_syncTime st) n - at2 (_syncTime st) i =? USECS_PER_SEC) then inl AssertFailed
        else inr (true, st, with_slot s (islot s) (nextRecordIndex i) (skipModCount s))
  end.

(** ** Slots *)

Definition TDIFF_CHECK_USEC : Z := 2 * 1000.
Definition NSLOT_LIMIT : Z := 2.

(** [rate == nSlots] *)
Definition integralRate (s : SyncInfo) : bool := Flt.eq (rate s) (Flt.ofZ (nSlots s)).

(** [incrementSlot()] with [checkNonIntRateIncrement()], which calls it
    again; each call but the first goes to another record, so that four are
    enough. *)
Fixpoint incrementLoop (fuel : nat) (st : SyncRecordSource) (s : SyncInfo) : result (bool * SyncRecordSource * SyncInfo) :=
  match fuel with
  | O => inl NoEnd
  | S fuel =>
      let slot := islot s + 1 in
      let! (ok, st, s) :=
        if slot =? nSlots s then
          match nextRecord st (with_slot s slot (irec s) (skipModCount s)) with
          | inl f => inl f
          | inr (true, st, s) => inr (true, st, with_slot s 0 (irec s) (skipModCount s))
          | inr (false, st, s) => inr (false, st, with_slot s (nSlots s - 1) (irec s) (skipModCount s))
          end
        else inr (true, st, with_slot s slot (irec s) (skipModCount s)) in
      if negb ok then inr (false, st, s)
      else
        let s := with_slot s (islot s) (irec s) (s32 (skipModCount s + 1)) in
        if integralRate s then inr (true, st, s)
        else if islot s =? nSlots s - 1 then
          if skipMod s =? 0 then inl DivideByZero
          else if negb (Z.rem (skipModCount s) (skipMod s) =? 0) then incrementLoop fuel st s
          else if USECS_PER_SEC <=? s32 (minDiff s + islot s * dtUsec s)
               then incrementLoop fuel st (with_slot s (islot s) (irec s) 0)
               else inr (true, st, s)
        else inr (true, st, s)
  end.

Definition incrementSlot (st : SyncRecordSource) (s : SyncInfo) : result (bool * SyncRecordSource * SyncInfo) :=
  incrementLoop 4 st s.

(** [decrementSlot()] *)
Definition decrementSlot (st : SyncRecordSource) (s : SyncInfo) : result (bool * SyncInfo) :=
  let s := with_early s (nEarlySamp s) 0 in
  let! (ok, s) :=
    if islot s =? 0 then
      match prevRecord st s with
      | inl f => inl f
      | inr (true, s) => inr (true, with_slot s (nSlots s) (irec s) (skipModCount s))
      | inr (false, s) => inr (false, s)
      end
    else inr (true, s) in
  if negb ok then inr (false, s)
  else inr (true, with_slot s (islot s - 1) (irec s) (s32 (skipModCount s - 1))).

(** [SyncRecordSource::computeSlotIndex] with [SyncInfo::computeSlotIndex] *)
Definition computeSlotIndex (tt : Z) (st : SyncRecordSource) (s : SyncInfo) : result (SyncRecordSource * SyncInfo) :=
  match at2 (_syncRecord st) (irec s) with
  | None => inl AssertFailed
  | Some _ =>
      let! (_, st, s) :=
        if at2 (_syncTime st) (irec s) + USECS_PER_SEC <=? tt then nextRecord st s else inr (false, st, s) in
      let ni := Z.max (Z.quot (s32 (tt - at2 (_syncTime st) (irec s))) (dtUsec s)) 0 in
      if dtUsec s =? 0 then inl DivideByZero else inr (st, with_early (with_slot s ni (irec s) (skipModCount s)) 0 0)
  end.

(** ** Times of samples and slots *)

(** [tdiff], from the time of the slot to that of the sample. *)
Definition slotTime (st : SyncRecordSource) (s : SyncInfo) : Z :=
  at2 (_syncTime st) (irec s) + s32 (islot s * dtUsec s).

Definition slotDiff (tt : Z) (st : SyncRecordSource) (s : SyncInfo) : Z := s32 (tt - slotTime st s).

(** A slot back; the sample is discarded when there is none. *)
Definition tryDecrement (ret : bool) (st : SyncRecordSource) (s : SyncInfo) : result (bool * SyncInfo) :=
  let! (ok, s) := decrementSlot st s in
  inr (if ok : bool then (ret, mark_over s) else (false, discard s)).

(** [checkTime], a sample earlier than its slot. *)
Definition checkEarly (tt tdiff : Z) (st : SyncRecordSource) (s : SyncInfo) : result (bool * SyncInfo) :=
  let s := with_early (with_diff s 0) (nEarlySamp s) 0 in
  let! (ret, tdiff, s) :=
    if TDIFF_CHECK_USEC <? - tdiff then
      let s := with_early s (u32 (nEarlySamp s + 1)) (nLateSamp s) in
      if (outOfSlotMax s <? nEarlySamp s) && ((islot s =? 1) || (nSlots s =? 1)) then
        let! (ret, s) := tryDecrement true st s in
        let '(tdiff, s) :=
          if islot s =? 0 then
            let tdiff := slotDiff tt st s in (tdiff, with_diff s (Z.max tdiff 0))
          else (tdiff, s) in
        inr (ret, tdiff, with_early s 0 (nLateSamp s))
      else inr (true, tdiff, s)
    else inr (true, tdiff, with_early s 0 (nLateSamp s)) in
  if Z.quot (dtUsec s) 2 <? - tdiff then tryDecrement ret st s else inr (ret, s).

(** A sample later than its slot by more than [NSLOT_LIMIT] intervals. *)
Definition checkGap (tt : Z) (st : SyncRecordSource) (s : SyncInfo) : result (SyncRecordSource * SyncInfo) :=
  let ilast := islot s in
  let! (st, s) := computeSlotIndex tt st s in
  let di := islot s - ilast in
  let di := if di <? 0 then di + nSlots s else di in
  inr (st, skip_slots s di).

Fixpoint incrementTimes (n : nat) (st : SyncRecordSource) (s : SyncInfo) : result (SyncRecordSource * SyncInfo) :=
  match n with
  | O => inr (st, s)
  | S n =>
      let! (ok, st, s) := incrementSlot st s in
      if negb ok then inr (st, s) else incrementTimes n st s
  end.

(** The difference to the new slot after an increment. *)
Definition adjustDiff (tt : Z) (st : SyncRecordSource) (s : SyncInfo) : Z * SyncInfo :=
  let tdiff := slotDiff tt st s in
  let s := with_diff s (Z.min (minDiff s) tdiff) in
  (tdiff, if tdiff <? TDIFF_CHECK_USEC then with_early s (nEarlySamp s) 0 else s).

(** A sample near its slot, or repeatedly late. *)
Definition checkNear (tt tdiff : Z) (st : SyncRecordSource) (s : SyncInfo) : result (SyncRecordSource * SyncInfo) :=
  let s := with_early s 0 (nLateSamp s) in
  if dtUsec s + TDIFF_CHECK_USEC <? tdiff then
    let s := with_early s (nEarlySamp s) (u32 (nLateSamp s + 1)) in
    let! (tdiff, st, s) :=
      if outOfSlotMax s <? nLateSamp s then
        let! (_, st, s) := incrementSlot st s in
        let '(tdiff, s) := adjustDiff tt st (skip_slots s 1) in
        inr (tdiff, st, s)
      else inr (tdiff, st, s) in
    let ni := Z.quot tdiff (dtUsec s) in
    if dtUsec s =? 0 then inl DivideByZero
    else if 1 <? ni then
      let! (st, s) := incrementTimes (Z.to_nat ni) st s in
      inr (st, (adjustDiff tt st (skip_slots s ni)).2)
    else inr (st, s)
  else inr (st, with_diff (with_early s (nEarlySamp s) 0) (Z.min (minDiff s) tdiff)).

(** [checkTime]: [false] when the sample is discarded. *)
Definition checkTime (tt : Z) (st : SyncRecordSource) (s : SyncInfo) : result (bool * SyncRecordSource * SyncInfo) :=
  let s := if islot s =? 0 then with_diff s (minDiffInit s) else s in
  let tdiff := slotDiff tt st s in
  if tdiff <? 0 then
    let! (ret, s) := checkEarly tt tdiff st s in inr (ret, st, s)
  else if Z.min (NSLOT_LIMIT * dtUsec s) USECS_PER_SEC <? tdiff then
    let! (st, s) := checkGap tt st s in inr (true, st, s)
  else
    let! (st, s) := checkNear tt tdiff st s in inr (true, st, s).

(** ** Storing *)

Definition store (data : list Dbl.t) (at_ : Z) (vals : list Dbl.t) : list Dbl.t :=
  take (Z.to_nat at_) data ++ vals ++ drop (Z.to_nat at_ + length vals) data.

(** [copy_variables_to_record] *)
Fixpoint copyVariables (recSize timeIndex : Z) (ixs lens : list Z) (vals data : list Dbl.t) : result (list Dbl.t) :=
  match ixs, lens, vals with
  | ix :: ixs, outlen :: lens, _ :: _ =>
      let inlen := Z.min (zlen vals) outlen in
      let dp := ix + outlen * timeIndex in
      if negb (dp + inlen <=? recSize) then inl AssertFailed
      else copyVariables recSize timeIndex ixs lens (drop (Z.to_nat inlen) vals)
             (store data dp (take (Z.to_nat inlen) vals))
  | _, _, _ => inr data
  end.

(** The end of [receive]: the time offset and the values are stored. *)
Definition storeSample (samp : InSample) (st : SyncRecordSource) (s : SyncInfo) : result SyncRecordSource :=
  if negb ((0 <=? irec s) && (irec s <? NSYNCREC)) then inl AssertFailed
  else if negb ((0 <=? islot s) && (islot s <? nSlots s)) then inl AssertFailed
  else if negb (sampleSRIndex s <? _recSize st) then inl AssertFailed
  else
    match at2 (_syncRecord st) (irec s) with
    | None => inl StaleRecord
    | Some r =>
        let data := store (sr_data r) (sampleSRIndex s) [Dbl.ofZ (minDiff s)] in
        let put data := with_records st (_syncTime st) (_current st)
                          (set2 (_syncRecord st) (irec s) (Some (mkSyncRec (sr_time r) data))) (s_out st) in
        match is_type samp with
        | UINT32_ST | FLOAT_ST | DOUBLE_ST =>
            let! data := copyVariables (_recSize st) (islot s) (varSRIndex s) (varLengths s) (is_values samp) data in
            inr (put data)
        | _ => inr (with_stats (put data) (s32 (_unknownSampleType st + 1)) (_badLaterSamples st))
        end
    end.

(** ** Receiving *)

(** The loop that ships the records that are complete. *)
Definition triggerTime (st : SyncRecordSource) : Z :=
  at2 (_syncTime st) (_current st) + USECS_PER_SEC + Z.max (_halfMaxUsecsPerSample st) (250 * 1000).

Fixpoint advanceLoop (fuel : nat) (tt : Z) (st : SyncRecordSource) : result SyncRecordSource :=
  match fuel with
  | O => inl NoEnd
  | S fuel => if triggerTime st <=? tt then advanceLoop fuel tt (advanceRecord tt st) else inr st
  end.

Definition put_info (i : Z) (s : SyncInfo) (st : SyncRecordSource) : SyncRecordSource :=
  with_infos st (sm_set i s (_syncInfo st)).

(** From the slot to the end. *)
Definition placeSample (samp : InSample) (st : SyncRecordSource) (s : SyncInfo) : result (bool * SyncRecordSource) :=
  let! (st, s) :=
    if islot s <? 0 then computeSlotIndex (is_tt samp) st s
    else
      let! (ok, st, s) := incrementSlot st s in inr (st, if ok : bool then s else mark_over s) in
  let! (ret, st, s) := checkTime (is_tt samp) st s in
  if negb ret then inr (false, put_info (is_id samp) s st)
  else
    let! st := storeSample samp st s in
    let s := with_counts s (discarded s) (overWritten s) (if overWritten s then u32 (noverWritten s + 1) else noverWritten s)
               (skipped s) (total s) in
    inr (true, put_info (is_id samp) s st).

(** [receive(samp)] *)
Definition receive (samp : InSample) (st : SyncRecordSource) : result (bool * SyncRecordSource) :=
  match sm_find (is_id samp) (_syncInfo st) with
  | None => inr (false, st)
  | Some s =>
      let tt := is_tt samp in
      let s := with_counts s (discarded s) false (noverWritten s) (skipped s) (u32 (total s + 1)) in
      let st := put_info (is_id samp) s st in
      let st := allocateRecord (_current st) tt st in
      let cur := at2 (_syncTime st) (_current st) in
      if tt <? cur then inr (false, put_info (is_id samp) (discard s) st)
      else
        let st := if (cur + 2 * USECS_PER_SEC <=? tt) && (LONG_LONG_MIN <? cur)
                  then with_stats st (_unknownSampleType st) (u32 (_badLaterSamples st + 1)) else st in
        let! st := advanceLoop 4 tt st in
        match sm_find (is_id samp) (_syncInfo st) with
        | None => inr (false, st)
        | Some s => placeSample samp st s
        end
  end.

Fixpoint receiveAll (l : list InSample) (st : SyncRecordSource) : result SyncRecordSource :=
  match l with
  | [] => inr st
  | samp :: l => let! (_, st) := receive samp st in receiveAll l st
  end.

(** ** No assertion fails *)

(** The numbers of a rate that the slots of a second cover, at least one
    sample per second. *)
Definition good_rate (s : SyncInfo) : Prop :=
  1 <= nSlots s /\ 1 <= dtUsec s <= USECS_PER_SEC /\ USECS_PER_SEC <= nSlots s * dtUsec s /\ skipMod s <> 0.

(** The members that receiving does not change. *)
Definition same_static (s s' : SyncInfo) : Prop :=
  si_id s' = si_id s /\ rate s' = rate s /\ nSlots s' = nSlots s /\ dtUsec s' = dtUsec s /\ varLengths s' = varLengths s /\
  sampleLength s' = sampleLength s /\ sampleSRIndex s' = sampleSRIndex s /\ varSRIndex s' = varSRIndex s /\
  skipMod s' = skipMod s /\ minDiffInit s' = minDiffInit s.

#[export] Instance same_static_refl : Reflexive same_static.
Proof. intros s. unfold same_static. by split_and!. Qed.

#[export] Instance same_static_trans : Transitive same_static.
Proof.
  intros a b c. unfold same_static. intros (? & ? & ? & ? & ? & ? & ? & ? & ? & ?) (? & ? & ? & ? & ? & ? & ? & ? & ? & ?).
  split_and!; congruence.
Qed.

Lemma good_rate_static s s' : same_static s s' -> good_rate s -> good_rate s'.
Proof. unfold good_rate. by intros (_ & _ & -> & -> & _ & _ & _ & _ & -> & _). Qed.

(** Indices of the two records. *)
Definition index (i : Z) : Prop := i = 0 \/ i = 1.

Lemma next_index i : index i -> index (nextRecordIndex i).
Proof. intros [->| ->]; [by right|by left]. Qed.

Lemma next_next i : index i -> nextRecordIndex (nextRecordIndex i) = i.
Proof. by intros [->| ->]. Qed.

Lemma next_neq i : index i -> nextRecordIndex i <> i.
Proof. by intros [->| ->]. Qed.

Lemma index_cases i j : index i -> index j -> j = i \/ j = nextRecordIndex i.
Proof. intros [->| ->] [->| ->]; auto. Qed.

Lemma at2_set2 {A} (p : A * A) i a : at2 (set2 p i a) i = a.
Proof. unfold at2, set2. by destruct (i =? 0). Qed.

Lemma at2_set2_next {A} (p : A * A) i a : index i -> at2 (set2 p i a) (nextRecordIndex i) = at2 p (nextRecordIndex i).
Proof. by intros [->| ->]. Qed.

Lemma at2_set2_prev {A} (p : A * A) i a : index i -> at2 (set2 p (nextRecordIndex i) a) i = at2 p i.
Proof. by intros [->| ->]. Qed.

(** The record of second [t] at an index. *)
Definition rec_at (st : SyncRecordSource) (i t : Z) : Prop :=
  at2 (_syncTime st) i = t /\
  exists r, at2 (_syncRecord st) i = Some r /\ sr_time r = t /\ zlen (sr_data r) = _recSize st.

(** The current record, and the next one if there is one. *)
Definition recs_ok (st : SyncRecordSource) (t : Z) : Prop :=
  index (_current st) /\ 0 <= t <= 2 ^ 62 /\ (USECS_PER_SEC | t) /\ 0 <= _recSize st /\ rec_at st (_current st) t /\
  (at2 (_syncRecord st) (nextRecordIndex (_current st)) = None \/
   rec_at st (nextRecordIndex (_current st)) (t + USECS_PER_SEC)).

(** What may change while a sample is placed: the next record is allocated. *)
Definition opened (st st' : SyncRecordSource) : Prop :=
  st' = st \/
  st' = allocateRecord (nextRecordIndex (_current st)) (at2 (_syncTime st) (_current st) + USECS_PER_SEC) st.

(** The state of a sample's slot. *)
Definition slot_in (st : SyncRecordSource) (s : SyncInfo) : Prop :=
  index (irec s) /\ is_Some (at2 (_syncRecord st) (irec s)) /\ 0 <= islot s < nSlots s.

(** For [lia]. *)
Lemma usecs_value : USECS_PER_SEC = 1000000.
Proof. done. Qed.

Lemma rec_aligned t : (USECS_PER_SEC | t) -> 0 <= t -> t - Z.rem t USECS_PER_SEC = t.
Proof. intros [k ->] Ht. rewrite Z.rem_mul; [lia|done]. Qed.

Lemma opened_ok st st' t :
  recs_ok st t -> opened st st' ->
  recs_ok st' t /\ _syncInfo st' = _syncInfo st /\ _current st' = _current st /\ _recSize st' = _recSize st /\
  _halfMaxUsecsPerSample st' = _halfMaxUsecsPerSample st /\ s_out st' = s_out st /\
  at2 (_syncRecord st') (_current st) = at2 (_syncRecord st) (_current st) /\
  (forall i, index i -> is_Some (at2 (_syncRecord st) i) -> at2 (_syncRecord st') i = at2 (_syncRecord st) i).
Proof.
  intros R [->|E]; [by split_and!|].
  pose proof R as (Hc & Ht & Hd & Hn & (Hct & r & Hcr & Hcrt & Hcl) & Ho). unfold allocateRecord in E.
  destruct Ho as [Ho|(Hot & r' & Hor & Hort & Hol)]; [|rewrite Hor in E; subst st'; by split_and!].
  rewrite Ho, Hct, rec_aligned in E by (try (apply Z.divide_add_r; [done|by exists 1]); unfold USECS_PER_SEC; lia).
  subst st'. cbn [with_records _syncInfo _current _recSize _halfMaxUsecsPerSample s_out _syncRecord _syncTime].
  assert (Hcur : at2 (set2 (_syncRecord st) (nextRecordIndex (_current st))
    (Some (mkSyncRec (t + USECS_PER_SEC) (replicate (Z.to_nat (_recSize st)) S754_nan)))) (_current st) = at2 (_syncRecord st) (_current st))
    by by apply at2_set2_prev.
  split; [|split_and!; try done].
  - split; [done|]. split; [done|]. split; [done|]. split; [done|].
    unfold rec_at. cbn [_current _syncTime _syncRecord _recSize with_records]. split.
    + split; [by rewrite at2_set2_prev|]. exists r. by rewrite Hcur.
    + right. rewrite !at2_set2. split; [done|]. eexists. split; [done|].
      split; [done|]. cbn. unfold zlen. rewrite length_replicate. lia.
  - intros i Hi [x Hx]. destruct (index_cases _ _ Hc Hi) as [->| ->]; [done|congruence].
Qed.

Lemma opened_trans st st1 st2 t : recs_ok st t -> opened st st1 -> opened st1 st2 -> opened st st2.
Proof.
  intros R O1 O2. destruct (opened_ok st st1 t R O1) as (R1 & _ & Ec & _). destruct O1 as [->|E1]; [done|].
  destruct O2 as [->|E2]; [by right|]. right. subst st2. rewrite Ec. unfold allocateRecord at 1.
  assert (H : is_Some (at2 (_syncRecord st1) (nextRecordIndex (_current st)))).
  { subst st1. unfold allocateRecord at 1. destruct (at2 (_syncRecord st) (nextRecordIndex (_current st))) eqn:Eo; [by rewrite Eo|].
    cbn. by rewrite at2_set2. }
  destruct H as [x ->]. done.
Qed.

Lemma slot_in_opened st st' t s : recs_ok st t -> opened st st' -> slot_in st s -> slot_in st' s.
Proof.
  intros R O (Hi & Hs & Hr). destruct (opened_ok st st' t R O) as (_ & _ & _ & _ & _ & _ & _ & K). split; [done|]. split; [|done].
  by rewrite K.
Qed.

Lemma nextRecord_spec st t s :
  recs_ok st t -> index (irec s) -> is_Some (at2 (_syncRecord st) (irec s)) ->
  exists b st' s', nextRecord st s = inr (b, st', s') /\ opened st st' /\ same_static s s' /\ islot s' = islot s /\
    skipModCount s' = skipModCount s /\ minDiff s' = minDiff s /\
    is_Some (at2 (_syncRecord st') (irec s')) /\
    if b : bool then irec s = _current st /\ irec s' = nextRecordIndex (_current st) /\
                     rec_at st' (nextRecordIndex (_current st)) (t + USECS_PER_SEC)
    else irec s = nextRecordIndex (_current st) /\ irec s' = irec s /\ st' = st.
Proof.
  intros R Hi [r Hr]. unfold nextRecord. rewrite Hr. pose proof R as (Hc & _ & _ & _ & (Hct & _) & _).
  destruct (Z.eqb_spec (irec s) (_current st)) as [E|E]; cbn [negb].
  - rewrite E. set (st' := allocateRecord _ _ st). assert (O : opened st st') by by right.
    destruct (opened_ok st st' t R O) as (R' & _ & Ec & _ & _ & _ & Er & _).
    pose proof R' as (_ & _ & _ & _ & (Hct' & _) & Ho'). rewrite Ec in *.
    assert (Hn : rec_at st' (nextRecordIndex (_current st)) (t + USECS_PER_SEC)).
    { destruct Ho' as [Ho'|]; [|done]. exfalso. revert Ho'. unfold st', allocateRecord.
      destruct (at2 (_syncRecord st) (nextRecordIndex (_current st))) eqn:Eo; [by rewrite Eo|]. cbn. by rewrite at2_set2. }
    pose proof Hn as (Hnt & rn & Hnr & _). rewrite Hnt, Hct'.
    replace (t + USECS_PER_SEC - t =? USECS_PER_SEC) with true by (symmetry; apply Z.eqb_eq; lia). cbn [negb].
    eexists true, st', _. split; [reflexivity|]. cbn [with_slot irec islot skipModCount minDiff]. rewrite Hnr. by split_and!.
  - eexists false, st, _. split; [reflexivity|]. split; [by left|]. cbn [mark_over with_counts irec islot skipModCount minDiff]. rewrite Hr.
    split_and!; try done. by destruct (index_cases _ _ Hc Hi).
Qed.

(** The calls of [incrementSlot] that can follow each other. *)
Definition calls (st : SyncRecordSource) (s : SyncInfo) : nat :=
  (if irec s =? _current st then 2 else 1) + (if islot s =? nSlots s - 1 then 0 else 1).

Lemma incrementLoop_spec fuel : forall st t s,
  recs_ok st t -> good_rate s -> slot_in st s -> (calls st s <= fuel)%nat ->
  exists b st' s', incrementLoop fuel st s = inr (b, st', s') /\ opened st st' /\ same_static s s' /\ slot_in st' s'.
Proof.
  induction fuel as [|fuel IH]; intros st t s R G (Hi & Hr & Hs) Hf; [unfold calls in Hf; destruct (irec s =? _), (islot s =? _); lia|].
  cbn [incrementLoop].
  (* the rest, from the state after the increment *)
  assert (K : forall st1 s1, opened st st1 -> same_static s s1 -> slot_in st1 s1 ->
    (islot s1 = nSlots s1 - 1 -> (calls st1 s1 <= fuel)%nat) ->
    exists b st' s', (let s2 := with_slot s1 (islot s1) (irec s1) (s32 (skipModCount s1 + 1)) in
        if integralRate s2 then inr (true, st1, s2)
        else if islot s2 =? nSlots s2 - 1 then
          if skipMod s2 =? 0 then inl DivideByZero
          else if negb (Z.rem (skipModCount s2) (skipMod s2) =? 0) then incrementLoop fuel st1 s2
          else if USECS_PER_SEC <=? s32 (minDiff s2 + islot s2 * dtUsec s2)
               then incrementLoop fuel st1 (with_slot s2 (islot s2) (irec s2) 0)
               else inr (true, st1, s2)
        else inr (true, st1, s2)) = inr (b, st', s') /\ opened st st' /\ same_static s s' /\ slot_in st' s').
  { intros st1 s1 O S I C. set (s2 := with_slot s1 (islot s1) (irec s1) (s32 (skipModCount s1 + 1))). cbn zeta.
    assert (S2 : same_static s s2) by done. assert (I2 : slot_in st1 s2) by done.
    assert (D : exists b st' s', inr (true, st1, s2) = inr (A := fault) (b, st', s') /\ opened st st' /\ same_static s s' /\ slot_in st' s')
      by (eexists _, _, _; by split_and!).
    destruct (integralRate s2); [done|]. destruct (Z.eqb_spec (islot s2) (nSlots s2 - 1)) as [E|]; [|done].
    pose proof (good_rate_static s s2 S2 G) as (_ & _ & _ & Hm). apply Z.eqb_neq in Hm. rewrite Hm.
    destruct (opened_ok st st1 t R O) as (R1 & _). 
    assert (L : forall s3, same_static s2 s3 -> slot_in st1 s3 -> irec s3 = irec s2 -> islot s3 = islot s2 ->
      exists b st' s', incrementLoop fuel st1 s3 = inr (b, st', s') /\ opened st st' /\ same_static s s' /\ slot_in st' s').
    { intros s3 S3 I3 E1 E2. destruct (IH st1 t s3 R1) as (b & st' & s' & -> & O' & S' & I'); [|done| |].
      - apply (good_rate_static s s3); [by transitivity s2|done].
      - assert (Ec : calls st1 s3 = calls st1 s1).
        { unfold calls. rewrite E1, E2. destruct S3 as (_ & _ & -> & _). done. }
        rewrite Ec. by apply C.
      - eexists b, st', s'. split_and!; try done; [by eapply opened_trans|by transitivity s3; [transitivity s2|]]. }
    destruct (negb _); [by apply L|]. destruct (_ <=? _); [|done]. by apply L. }
  destruct (Z.eqb_spec (islot s + 1) (nSlots s)) as [E|E].
  - set (s0 := with_slot s (islot s + 1) (irec s) (skipModCount s)).
    destruct (nextRecord_spec st t s0 R Hi Hr) as (b & st1 & s1 & -> & O & S & _ & _ & _ & Hr1 & P). destruct b.
    + destruct P as (P1 & P2 & _). cbn [negb]. destruct (opened_ok st st1 t R O) as (R1 & _ & Ec & _).
      pose proof R as (Hc & _). pose proof G as (Gn & _). assert (En : nSlots s1 = nSlots s) by apply S.
      apply (K st1 (with_slot s1 0 (irec s1) (skipModCount s1))); [done|by transitivity s1| |].
      * split; [cbn; rewrite P2; by apply next_index|]. split; [done|]. cbn. lia.
      * unfold calls in *. cbn [with_slot islot irec nSlots]. intros E0. rewrite Ec, P2, <- E0, Z.eqb_refl.
        change (irec s0) with (irec s) in P1. rewrite P1, Z.eqb_refl in Hf.
        destruct (Z.eqb_spec (nextRecordIndex (_current st)) (_current st)) as [Q|_]; [by apply next_neq in Q|].
        destruct (islot s =? _); lia.
    + destruct P as (P1 & P2 & ->). cbn [negb]. eexists false, st, _. split; [reflexivity|]. split; [by left|].
      split; [by transitivity s1|]. assert (En : nSlots s1 = nSlots s) by apply S. pose proof G as (Gn & _).
      split; [cbn; by rewrite P2|]. split; [done|]. cbn. lia.
  - cbn [negb]. apply (K st (with_slot s (islot s + 1) (irec s) (skipModCount s))); [by left|done| |].
    + split; [done|]. split; [done|]. cbn. lia.
    + cbn. unfold calls in *. cbn. intros E0. rewrite E0, Z.eqb_refl. destruct (Z.eqb_spec (islot s) (nSlots s - 1)); lia.
Qed.

Lemma incrementSlot_spec st t s :
  recs_ok st t -> good_rate s -> slot_in st s ->
  exists b st' s', incrementSlot st s = inr (b, st', s') /\ opened st st' /\ same_static s s' /\ slot_in st' s'.
Proof.
  intros R G I. apply (incrementLoop_spec 4 st t s R G I). unfold calls. destruct (_ =? _), (_ =? _); lia.
Qed.

Lemma incrementTimes_spec n : forall st t s,
  recs_ok st t -> good_rate s -> slot_in st s ->
  exists st' s', incrementTimes n st s = inr (st', s') /\ opened st st' /\ same_static s s' /\ slot_in st' s'.
Proof.
  induction n as [|n IH]; intros st t s R G I; cbn [incrementTimes].
  { eexists _, _. split; [reflexivity|]. split; [by left|]. by split. }
  destruct (incrementSlot_spec st t s R G I) as (b & st1 & s1 & -> & O & S & I1). destruct b; cbn [negb].
  - destruct (opened_ok st st1 t R O) as (R1 & _).
    destruct (IH st1 t s1 R1 (good_rate_static s s1 S G) I1) as (st2 & s2 & -> & O2 & S2 & I2).
    eexists _, _. split; [reflexivity|]. split; [by eapply opened_trans|]. split; [by transitivity s1|done].
  - eexists _, _. split; [reflexivity|]. by split_and!.
Qed.

Lemma decrementSlot_spec st t s :
  recs_ok st t -> good_rate s -> slot_in st s ->
  exists b s', decrementSlot st s = inr (b, s') /\ same_static s s' /\ slot_in st s'.
Proof.
  intros R (Gn & _) (Hi & Hr & Hs). unfold decrementSlot. set (s0 := with_early s (nEarlySamp s) 0).
  pose proof R as (Hc & _ & _ & _ & (_ & rc & Hrc & _) & _). destruct (Z.eqb_spec (islot s0) 0) as [E|E].
  - unfold prevRecord. change (irec s0) with (irec s). destruct (Z.eqb_spec (irec s) (_current st)) as [Ec|Ec]; cbn [negb].
    + eexists false, _. split; [reflexivity|]. by split_and!.
    + assert (En : irec s = nextRecordIndex (_current st)) by by destruct (index_cases _ _ Hc Hi).
      unfold prevRecordIndex. rewrite En, next_next, Hrc by done. cbn [negb]. eexists true, _. split; [reflexivity|].
      split; [done|]. unfold slot_in. cbn [with_slot irec islot nSlots s0 with_early].
      rewrite ?En, ?next_next, Hrc by done. split_and!; try done; lia.
  - cbn [negb]. eexists true, _. split; [reflexivity|]. split; [done|].
    change (islot s0) with (islot s) in E. unfold slot_in. cbn [with_slot irec islot nSlots s0 with_early]. split_and!; try done; lia.
Qed.

(** The slot of a time, when the records are up to date. *)
Lemma computeSlotIndex_spec st t tt s :
  recs_ok st t -> good_rate s -> index (irec s) -> is_Some (at2 (_syncRecord st) (irec s)) ->
  t <= tt < t + 2 * USECS_PER_SEC ->
  exists st' s', computeSlotIndex tt st s = inr (st', s') /\ opened st st' /\ same_static s s' /\ slot_in st' s'.
Proof.
  intros R G Hi Hr Htt. unfold computeSlotIndex. pose proof Hr as [r Er]. rewrite Er.
  assert (Ht : 0 <= t <= 2 ^ 62) by apply R. pose proof G as (Gn & Gd & Gc & _).
  assert (K : forall b st1 s1 t1, opened st st1 -> same_static s s1 -> index (irec s1) -> is_Some (at2 (_syncRecord st1) (irec s1)) ->
    at2 (_syncTime st1) (irec s1) = t1 -> - USECS_PER_SEC <= tt - t1 < USECS_PER_SEC ->
    exists st' s', (let! (_, st, s) := inr (b : bool, st1, s1) in
      let ni := Z.max (Z.quot (s32 (tt - at2 (_syncTime st) (irec s))) (dtUsec s)) 0 in
      if dtUsec s =? 0 then inl DivideByZero else inr (st, with_early (with_slot s ni (irec s) (skipModCount s)) 0 0)) = inr (st', s') /\
      opened st st' /\ same_static s s' /\ slot_in st' s').
  { intros b st1 s1 t1 O S I1 R1 E1 B. rewrite E1. pose proof S as (_ & _ & En & Ed & _). rewrite Ed.
    destruct (Z.eqb_spec (dtUsec s) 0); [lia|]. eexists _, _. split; [reflexivity|]. split; [done|]. split; [done|].
    unfold slot_in. cbn [with_early with_slot irec islot nSlots]. rewrite En. split; [done|]. split; [done|].
    assert (E32 : s32 (tt - t1) = tt - t1) by (unfold s32, USECS_PER_SEC in *; rewrite Z.mod_small by lia; lia).
    rewrite E32. split; [lia|]. apply Z.max_lub_lt; [|lia]. destruct (Z.le_gt_cases 0 (tt - t1)) as [Hp|Hn].
    - rewrite Z.quot_div_nonneg by lia. apply Z.div_lt_upper_bound; [lia|]. nia.
    - assert (Z.quot (tt - t1) (dtUsec s) <= 0) by (apply Z.quot_le_upper_bound; lia). lia. }
  pose proof R as (Hc & _ & _ & _ & (Hct & _) & Ho).
  destruct (Z.leb_spec (at2 (_syncTime st) (irec s) + USECS_PER_SEC) tt) as [Hle|Hgt].
  - destruct (nextRecord_spec st t s R Hi Hr) as (b & st1 & s1 & -> & O & S & _ & _ & _ & Hr1 & P). destruct b.
    + destruct P as (P1 & P2 & (Pt & _)). rewrite P1, Hct in Hle. apply (K true st1 s1 (t + USECS_PER_SEC)); try done.
      * rewrite P2. by apply next_index.
      * by rewrite P2.
      * lia.
    + exfalso. destruct P as (P1 & _). rewrite P1 in Hle, Er. destruct Ho as [Ho|(Ho & _)]; [congruence|]. lia.
  - apply (K false st s (at2 (_syncTime st) (irec s))); try done; [by left|].
    destruct (index_cases _ _ Hc Hi) as [E|E]; rewrite E in *; [lia|]. destruct Ho as [Ho|(Ho & _)]; [congruence|]. lia.
Qed.

Lemma tryDecrement_spec ret st t s :
  recs_ok st t -> good_rate s -> slot_in st s ->
  exists b s', tryDecrement ret st s = inr (b, s') /\ same_static s s' /\ slot_in st s'.
Proof.
  intros R G I. unfold tryDecrement. destruct (decrementSlot_spec st t s R G I) as (b & s1 & -> & S & I1).
  destruct b; eexists _, _; (split; [reflexivity|by split]).
Qed.

Lemma checkEarly_spec st t tt tdiff s :
  recs_ok st t -> good_rate s -> slot_in st s ->
  exists b s', checkEarly tt tdiff st s = inr (b, s') /\ same_static s s' /\ slot_in st s'.
Proof.
  intros R G I. unfold checkEarly. set (s0 := with_early (with_diff s 0) (nEarlySamp s) 0).
  assert (K : forall ret td s1, same_static s s1 -> slot_in st s1 ->
    exists b s', (if Z.quot (dtUsec s1) 2 <? - td then tryDecrement ret st s1 else inr (ret, s1)) = inr (b, s') /\ same_static s s' /\ slot_in st s').
  { intros ret td s1 S I1. destruct (_ <? _); [|eexists _, _; split; [reflexivity|by split]].
    destruct (tryDecrement_spec ret st t s1 R (good_rate_static s s1 S G) I1) as (b & s2 & -> & S2 & I2).
    eexists _, _. split; [reflexivity|]. split; [by transitivity s1|done]. }
  destruct (TDIFF_CHECK_USEC <? - tdiff); [|by apply K].
  set (s1 := with_early s0 (u32 (nEarlySamp s0 + 1)) (nLateSamp s0)). destruct (_ && _); [|by apply K].
  destruct (tryDecrement_spec true st t s1 R (good_rate_static s s1 ltac:(done) G) I) as (b & s2 & -> & S2 & I2).
  assert (S2' : same_static s s2) by by transitivity s1. destruct (islot s2 =? 0); by apply K.
Qed.

Lemma checkNear_spec st t tt tdiff s :
  recs_ok st t -> good_rate s -> slot_in st s ->
  exists st' s', checkNear tt tdiff st s = inr (st', s') /\ opened st st' /\ same_static s s' /\ slot_in st' s'.
Proof.
  intros R G I. unfold checkNear. set (s0 := with_early s 0 (nLateSamp s)).
  destruct (_ <? _); [|eexists _, _; split; [reflexivity|]; split; [by left|by split]].
  set (s1 := with_early s0 (nEarlySamp s0) (u32 (nLateSamp s0 + 1))).
  assert (A : forall st1 s2, slot_in st1 s2 -> same_static s2 (adjustDiff tt st1 s2).2 /\ slot_in st1 (adjustDiff tt st1 s2).2).
  { intros st1 s2 I2. unfold adjustDiff. cbn [snd]. by destruct (_ <? _). }
  assert (K : forall td st1 s2, opened st st1 -> same_static s s2 -> slot_in st1 s2 ->
    exists st' s', (let ni := Z.quot td (dtUsec s2) in
      if dtUsec s2 =? 0 then inl DivideByZero
      else if 1 <? ni then
        let! (st, s) := incrementTimes (Z.to_nat ni) st1 s2 in inr (st, (adjustDiff tt st (skip_slots s ni)).2)
      else inr (st1, s2)) = inr (st', s') /\ opened st st' /\ same_static s s' /\ slot_in st' s').
  { intros td st1 s2 O S2 I2. pose proof (good_rate_static s s2 S2 G) as G2. cbn zeta.
    destruct (Z.eqb_spec (dtUsec s2) 0) as [E|_]; [destruct G2 as (_ & ? & _); lia|].
    destruct (1 <? _); [|eexists _, _; split; [reflexivity|by split_and!]].
    destruct (opened_ok st st1 t R O) as (R1 & _).
    destruct (incrementTimes_spec (Z.to_nat (Z.quot td (dtUsec s2))) st1 t s2 R1 G2 I2) as (st3 & s3 & -> & O3 & S3 & I3).
    destruct (A st3 (skip_slots s3 (Z.quot td (dtUsec s2))) I3) as [A1 A2].
    eexists _, _. split; [reflexivity|]. split; [by eapply opened_trans|]. split; [|done].
    transitivity s3; [by transitivity s2|]. exact A1. }
  destruct (outOfSlotMax s1 <? nLateSamp s1); [|apply K; [by left|done|done]].
  destruct (incrementSlot_spec st t s1 R (good_rate_static s s1 ltac:(done) G) I) as (b & st2 & s2 & -> & O2 & S2 & I2).
  destruct (A st2 (skip_slots s2 1) I2) as [A1 A2].
  destruct (adjustDiff tt st2 (skip_slots s2 1)) as [td s3]. cbn [snd] in A1, A2.
  apply K; [done| |done]. transitivity s2; [by transitivity s1|exact A1].
Qed.

Lemma checkTime_spec st t tt s :
  recs_ok st t -> good_rate s -> slot_in st s -> t <= tt < t + 2 * USECS_PER_SEC ->
  exists b st' s', checkTime tt st s = inr (b, st', s') /\ opened st st' /\ same_static s s' /\ slot_in st' s'.
Proof.
  intros R G I Ht. unfold checkTime. set (s0 := if islot s =? 0 then _ else s).
  assert (H0 : same_static s s0 /\ slot_in st s0) by (unfold s0; by destruct (islot s =? 0)). destruct H0 as [S0 I0].
  pose proof (good_rate_static s s0 S0 G) as G0. destruct (_ <? 0).
  - destruct (checkEarly_spec st t tt (slotDiff tt st s0) s0 R G0 I0) as (b & s1 & -> & S1 & I1).
    eexists _, _, _. split; [reflexivity|]. split; [by left|]. split; [by transitivity s0|done].
  - destruct (_ <? _).
    + unfold checkGap. pose proof I0 as (J1 & J2 & _).
      destruct (computeSlotIndex_spec st t tt s0 R G0 J1 J2 Ht) as (st1 & s1 & -> & O1 & S1 & I1).
      eexists _, _, _. split; [reflexivity|]. split; [done|]. split; [by transitivity s1; [transitivity s0|]|done].
    + destruct (checkNear_spec st t tt (slotDiff tt st s0) s0 R G0 I0) as (st1 & s1 & -> & O1 & S1 & I1).
      eexists _, _, _. split; [reflexivity|]. split; [done|]. split; [by transitivity s0|done].
Qed.

(** *** Stores stay in the record *)

Lemma store_len data a vals : 0 <= a -> a + zlen vals <= zlen data -> zlen (store data a vals) = zlen data.
Proof. intros Ha Hl. unfold store, zlen in *. rewrite !length_app, length_take, length_drop. lia. Qed.

Lemma copyVariables_spec n size slot hi ixs : forall lens lo vals data,
  vars_ok lo n ixs lens hi -> 0 <= lo -> 0 <= slot < n -> hi <= size -> zlen data = size ->
  exists data', copyVariables size slot ixs lens vals data = inr data' /\ zlen data' = size.
Proof.
  induction ixs as [|ix ixs IH]; intros lens lo vals data; cbn [vars_ok copyVariables]; [by eexists|].
  destruct lens as [|len lens]; [done|]. intros (-> & Hl & Hv) Hlo Hs Hh Hd. destruct vals as [|v vals]; [by eexists|].
  set (vs := v :: vals). set (inlen := Z.min (zlen vs) len). pose proof (zlen_nonneg vs) as Hz.
  pose proof (vars_ok_le n ixs lens _ _ ltac:(lia) Hv) as Hle.
  assert (Hfit : lo + len * slot + inlen <= size) by nia.
  destruct (Z.leb_spec (lo + len * slot + inlen) size) as [_|Hbad]; [|lia]. cbn [negb].
  apply (IH lens (lo + len * n)); try done; [nia|]. rewrite store_len; [done|nia|].
  unfold zlen in *. rewrite length_take. lia.
Qed.

(** A state in which a sample can be placed: the records, and for each
    sample its row and its slot. *)
Definition infos_ok (st : SyncRecordSource) (P : SyncInfo -> Prop) : Prop :=
  sm_wf (_syncInfo st) /\ rows_ok 0 (_syncInfo st) (_recSize st) /\
  forall i s, sm_find i (_syncInfo st) = Some s -> row_ok s /\ good_rate s /\ P s.

(** The record of a slot gets new data. *)
Definition put_data (st : SyncRecordSource) (i : Z) (r : SyncRec) (data : list Dbl.t) (u : Z) : SyncRecordSource :=
  with_stats (with_records st (_syncTime st) (_current st) (set2 (_syncRecord st) i (Some (mkSyncRec (sr_time r) data))) (s_out st))
    u (_badLaterSamples st).

Definition numeric (t : sampleType) : bool := match t with UINT32_ST | FLOAT_ST | DOUBLE_ST => true | _ => false end.

(** The data of the record after a sample is stored. *)
Definition stored (samp : InSample) (s : SyncInfo) (data data' : list Dbl.t) : Prop :=
  let d0 := store data (sampleSRIndex s) [Dbl.ofZ (minDiff s)] in
  if numeric (is_type samp)
  then copyVariables (zlen data) (islot s) (varSRIndex s) (varLengths s) (is_values samp) d0 = inr data'
  else data' = d0.

Lemma rec_slot st t i r :
  recs_ok st t -> index i -> at2 (_syncRecord st) i = Some r ->
  zlen (sr_data r) = _recSize st /\ sr_time r = at2 (_syncTime st) i /\
  (i = _current st /\ sr_time r = t \/ i = nextRecordIndex (_current st) /\ sr_time r = t + USECS_PER_SEC).
Proof.
  intros (Hc & _ & _ & _ & (Hct & rc & Hcr & Hct' & Hcl) & Ho) Hi Hr.
  destruct (index_cases _ _ Hc Hi) as [->| ->].
  - assert (rc = r) as -> by congruence. split; [done|]. split; [congruence|]. by left.
  - destruct Ho as [Ho|(Ho & ro & Ho1 & Ho2 & Ho3)]; [congruence|]. assert (ro = r) as -> by congruence.
    split; [done|]. split; [congruence|]. by right.
Qed.

Lemma storeSample_eq samp st t s :
  recs_ok st t -> row_ok s -> good_rate s -> slot_in st s -> 0 <= sampleSRIndex s -> sampleSRIndex s + sampleLength s <= _recSize st ->
  exists r data' u, at2 (_syncRecord st) (irec s) = Some r /\ storeSample samp st s = inr (put_data st (irec s) r data' u) /\
    zlen data' = _recSize st /\ stored samp s (sr_data r) data'.
Proof.
  intros R W (Gn & _) (Hi & [r Hr] & Hs) H0 Hn. unfold storeSample, NSYNCREC.
  replace ((0 <=? irec s) && (irec s <? 2)) with true by (destruct Hi as [-> | ->]; done). cbn [negb].
  replace ((0 <=? islot s) && (islot s <? nSlots s)) with true
    by (symmetry; apply andb_true_iff; split; [apply Z.leb_le|apply Z.ltb_lt]; lia). cbn [negb].
  unfold row_ok in W. pose proof (vars_ok_le (nSlots s) _ _ _ _ ltac:(lia) W) as Hlen.
  destruct (Z.ltb_spec (sampleSRIndex s) (_recSize st)) as [_|Hbad]; [|lia]. cbn [negb]. rewrite Hr.
  set (data := store (sr_data r) (sampleSRIndex s) _). destruct (rec_slot st t _ r R Hi Hr) as (Hl & _).
  assert (Hd0 : zlen data = _recSize st) by (unfold data; rewrite store_len; [done|lia|unfold zlen in *; cbn; lia]).
  destruct (copyVariables_spec (nSlots s) (_recSize st) (islot s) _ _ _ _ (is_values samp) data W) as (data' & Ec & Ed); try lia.
  rewrite Ec. destruct (is_type samp) eqn:Ety; (eexists r, _, _; split; [done|]; split; [reflexivity|]);
    (unfold stored; rewrite Hl, Ety; done).
Qed.

(** Records with new data are still records. *)
Lemma put_data_ok st t i r data' u :
  recs_ok st t -> index i -> at2 (_syncRecord st) i = Some r -> zlen data' = _recSize st ->
  recs_ok (put_data st i r data' u) t /\
  (forall j, index j -> at2 (_syncRecord (put_data st i r data' u)) j =
     if j =? i then Some (mkSyncRec (sr_time r) data') else at2 (_syncRecord st) j).
Proof.
  intros R Hi Hr Hd'. pose proof R as (Hc & Ht & Hd & Hz & Hrc & Ho). destruct (rec_slot st t i r R Hi Hr) as (_ & Hrt & _).
  assert (Hself : forall j, index j -> at2 (set2 (_syncRecord st) i (Some (mkSyncRec (sr_time r) data'))) j =
    if j =? i then Some (mkSyncRec (sr_time r) data') else at2 (_syncRecord st) j).
  { intros j Hj. destruct (index_cases _ _ Hi Hj) as [->| ->]; [by rewrite at2_set2, Z.eqb_refl|].
    rewrite at2_set2_next by done. destruct (Z.eqb_spec (nextRecordIndex i) i) as [Q|]; [by apply next_neq in Q|done]. }
  split; [|exact Hself].
  assert (Hat : forall j u', index j -> rec_at st j u' -> rec_at (put_data st i r data' u) j u').
  { intros j u' Hj (A1 & ra & A2 & A3 & A4). split; [done|]. cbn [put_data with_stats with_records _syncRecord _recSize]. rewrite Hself by done.
    destruct (Z.eqb_spec j i) as [->|]; [|by exists ra]. eexists. split; [done|]. cbn. split; [congruence|done]. }
  split; [done|]. split; [done|]. split; [done|]. split; [done|]. split; [by apply Hat|].
  cbn [put_data with_stats with_records _current]. destruct Ho as [Ho|Ho]; [|right; apply Hat; [by apply next_index|done]].
  left. cbn [put_data with_stats with_records _syncRecord]. rewrite Hself by by apply next_index.
  destruct (Z.eqb_spec (nextRecordIndex (_current st)) i) as [E|]; [|done]. rewrite <- E in Hr. congruence.
Qed.

Lemma put_data_some st t i r data' u j :
  recs_ok st t -> index i -> at2 (_syncRecord st) i = Some r -> zlen data' = _recSize st -> index j ->
  is_Some (at2 (_syncRecord st) j) -> is_Some (at2 (_syncRecord (put_data st i r data' u)) j).
Proof.
  intros R Hi Hr Hd Hj Hs. destruct (put_data_ok st t i r data' u R Hi Hr Hd) as [_ K]. rewrite K by done. by destruct (j =? i).
Qed.

(** *** Rows *)

Lemma rows_ok_find infos : forall lo hi i s,
  (forall j s', sm_find j infos = Some s' -> 1 <= sampleLength s') -> sm_wf infos -> rows_ok lo infos hi ->
  sm_find i infos = Some s -> lo <= sampleSRIndex s /\ sampleSRIndex s + sampleLength s <= hi.
Proof.
  induction infos as [|[j s0] infos IH]; intros lo hi i s Hl Hw; cbn [rows_ok sm_find]; [done|]. intros [E R] Hf.
  assert (Hw' : sm_wf infos) by by inversion Hw. assert (L0 : 1 <= sampleLength s0) by (apply (Hl j); cbn; by rewrite Z.eqb_refl).
  assert (Hl' : forall j0 s', sm_find j0 infos = Some s' -> 1 <= sampleLength s').
  { intros j0 s' H0. apply (Hl j0). cbn. destruct (Z.eqb_spec j0 j) as [->|]; [|done]. exfalso.
    rewrite sm_find_above in H0; [done|]. by inversion Hw. }
  assert (Hle : lo + sampleLength s0 <= hi).
  { clear -Hl' R Hw'. revert Hl' R Hw'. generalize (lo + sampleLength s0) as k. induction infos as [|[j1 s1] infos IH]; intros k Hl' R Hw'; [cbn in R; lia|].
    destruct R as [_ R]. assert (L1 : 1 <= sampleLength s1) by (apply (Hl' j1); cbn; by rewrite Z.eqb_refl).
    assert (k + sampleLength s1 <= hi); [|lia]. apply IH; [|done|by inversion Hw'].
    intros j0 s' H0. apply (Hl' j0). cbn. destruct (Z.eqb_spec j0 j1) as [->|]; [|done]. exfalso.
    rewrite sm_find_above in H0; [done|]. by inversion Hw'. }
  destruct (Z.eqb_spec i j) as [->|]; [injection Hf as <-; lia|]. destruct (IH _ _ _ _ Hl' Hw' R Hf). lia.
Qed.

Lemma rows_ok_map (f : SyncInfo -> SyncInfo) infos : forall lo hi,
  (forall s, sampleSRIndex (f s) = sampleSRIndex s /\ sampleLength (f s) = sampleLength s) ->
  rows_ok lo infos hi -> rows_ok lo (map (fun e => (e.1, f e.2)) infos) hi.
Proof.
  induction infos as [|[j s0] infos IH]; intros lo hi Hf; cbn; [done|]. destruct (Hf s0) as [-> ->]. intros [? ?]. split; [done|]. by apply IH.
Qed.

Lemma rows_ok_set infos i s0 s : forall lo hi,
  sm_find i infos = Some s0 -> sm_wf infos -> sampleSRIndex s = sampleSRIndex s0 -> sampleLength s = sampleLength s0 ->
  rows_ok lo infos hi -> rows_ok lo (sm_set i s infos) hi.
Proof.
  induction infos as [|[j s1] infos IH]; intros lo hi Hf Hw E1 E2; cbn [sm_find sm_set rows_ok] in *; [done|].
  destruct (Z.ltb_spec i j) as [Hlt|Hge].
  { exfalso. destruct (Z.eqb_spec i j); [lia|]. rewrite sm_find_above in Hf; [done|]. inversion Hw as [|? ? Hs Hall]. subst.
    eapply Forall_impl; [exact Hall|]. cbn. intros. lia. }
  destruct (Z.eqb_spec i j) as [->|].
  - injection Hf as ->. cbn [rows_ok]. by rewrite E1, E2.
  - intros [? ?]. cbn [rows_ok]. split; [done|]. apply IH; try done. by inversion Hw.
Qed.

Lemma row_ok_length s : row_ok s -> good_rate s -> 1 <= sampleLength s.
Proof. intros W (Gn & _). unfold row_ok in W. apply vars_ok_le in W; lia. Qed.

Lemma row_ok_static s s' : same_static s s' -> row_ok s -> row_ok s'.
Proof. unfold row_ok. by intros (_ & _ & -> & _ & -> & -> & -> & -> & _ & _). Qed.

(** ** The invariant *)

Definition slot_dyn (st : SyncRecordSource) (s : SyncInfo) : Prop :=
  index (irec s) /\ is_Some (at2 (_syncRecord st) (irec s)) /\ -1 <= islot s < nSlots s.

(** The records sent are of earlier seconds, in order. *)
Definition sent_ok (st : SyncRecordSource) (t : Z) : Prop :=
  StronglySorted Z.lt (map sr_time (s_out st)) /\ Forall (fun r => sr_time r < t /\ (USECS_PER_SEC | sr_time r) /\ zlen (sr_data r) = _recSize st) (s_out st).

Lemma sent_ok_send st t t' r :
  sent_ok st t -> sr_time r = t -> (USECS_PER_SEC | t) -> zlen (sr_data r) = _recSize st -> t < t' ->
  StronglySorted Z.lt (map sr_time (s_out st ++ [r])) /\
  Forall (fun r => sr_time r < t' /\ (USECS_PER_SEC | sr_time r) /\ zlen (sr_data r) = _recSize st) (s_out st ++ [r]).
Proof.
  intros [Hs Hf] Er Ed El Ht. split.
  - rewrite map_app. apply StronglySorted_app. split_and!; [|done|repeat constructor].
    intros x y (r0 & -> & H0)%list_elem_of_fmap ->%list_elem_of_singleton. rewrite Forall_forall in Hf. destruct (Hf _ H0). lia.
  - apply Forall_app. split; [|constructor; [by rewrite Er; split; [lia|]|constructor]].
    eapply Forall_impl; [exact Hf|]. cbn. intros ? []. split; [lia|done].
Qed.

(** Before the first sample, and when records are being filled from second
    [t] on. *)
Definition idle (st : SyncRecordSource) : Prop :=
  index (_current st) /\ _syncRecord st = (None, None) /\ 0 <= _recSize st /\ _halfMaxUsecsPerSample st <= USECS_PER_SEC / 2 /\
  s_out st = [] /\ infos_ok st (fun s => irec s = _current st /\ islot s = -1).

Definition live (st : SyncRecordSource) (t : Z) : Prop :=
  recs_ok st t /\ _halfMaxUsecsPerSample st <= USECS_PER_SEC / 2 /\ infos_ok st (slot_dyn st) /\ sent_ok st t.

Lemma infos_ok_set st (P : SyncInfo -> Prop) i s0 s :
  infos_ok st P -> sm_find i (_syncInfo st) = Some s0 -> same_static s0 s -> P s -> infos_ok (put_info i s st) P.
Proof.
  intros (W & R & F) Hf S Hp. destruct (F i s0 Hf) as (F1 & F2 & _). unfold put_info, infos_ok. cbn [with_infos _syncInfo _recSize].
  split; [by apply sm_set_wf|]. split.
  - apply (rows_ok_set _ _ s0); try done; apply S.
  - intros j s1. rewrite sm_find_set. destruct (j =? i); [|apply F]. intros [= <-].
    split; [by eapply row_ok_static|]. split; [by eapply good_rate_static|done].
Qed.

Lemma live_put st t i s0 s :
  live st t -> sm_find i (_syncInfo st) = Some s0 -> same_static s0 s -> slot_dyn st s -> live (put_info i s st) t.
Proof. intros (R & H & F & O) Hf S D. split; [done|]. split; [done|]. split; [|done]. by apply (infos_ok_set st (slot_dyn st) i s0 s). Qed.

Lemma live_opened st st' t : live st t -> opened st st' -> live st' t.
Proof.
  intros (R & H & (W & Rw & F) & Hs) O. destruct (opened_ok st st' t R O) as (R' & E1 & E2 & E3 & E4 & E5 & _ & K).
  split; [done|]. split; [by rewrite E4|]. split; [|unfold sent_ok; by rewrite E3, E5].
  unfold infos_ok. rewrite E1, E3. split; [done|]. split; [done|].
  intros i s Hi. destruct (F i s Hi) as (F1 & F2 & (F3 & F4 & F5)). split; [done|]. split; [done|]. split; [done|]. split; [|done].
  by rewrite K.
Qed.

(** The first record is allocated. *)
Lemma idle_live st tt :
  idle st -> 0 <= tt <= 2 ^ 62 -> live (allocateRecord (_current st) tt st) (tt - tt mod USECS_PER_SEC).
Proof.
  intros (Hc & Hr & Hn & Hh & Ho & (W & Rw & F)) Ht. unfold allocateRecord. rewrite Hr.
  replace (at2 (None, None) (_current st)) with (@None SyncRec) by (by destruct Hc as [-> | ->]).
  rewrite Z.rem_mod_nonneg by (unfold USECS_PER_SEC; lia).
  set (t := tt - tt mod USECS_PER_SEC). assert (Hm : 0 <= tt mod USECS_PER_SEC <= tt).
  { split; [apply Z.mod_pos_bound; done|apply Z.mod_le; [lia|done]]. }
  split; [|split; [done|split]].
  - split; [done|]. split; [lia|]. split.
    { exists (tt / USECS_PER_SEC). unfold t. pose proof (Z.div_mod tt USECS_PER_SEC ltac:(done)). lia. }
    split; [done|]. cbn [with_records _current]. unfold rec_at. cbn [with_records _syncTime _syncRecord _recSize].
    rewrite !at2_set2. split.
    + split; [done|]. eexists. split; [done|]. split; [done|]. cbn. unfold zlen. rewrite length_replicate. lia.
    + left. by destruct Hc as [-> | ->].
  - split; [done|]. split; [done|]. intros i s Hs. destruct (F i s Hs) as (F1 & F2 & F3 & F4). split; [done|]. split; [done|].
    unfold slot_dyn. cbn [with_records _syncRecord]. rewrite F3, F4, at2_set2. split; [done|]. split; [done|]. destruct F2. lia.
  - unfold sent_ok. cbn [with_records s_out]. rewrite Ho. split; constructor.
Qed.

Lemma infoAdvance_static k s : same_static s (infoAdvance k s).
Proof. unfold infoAdvance. by destruct (irec s =? k). Qed.

Lemma sendSyncRecord_some st r :
  at2 (_syncRecord st) (_current st) = Some r ->
  sendSyncRecord st = with_records st (set2 (_syncTime st) (_current st) LONG_LONG_MIN) (_current st)
    (set2 (_syncRecord st) (_current st) None) (s_out st ++ [r]).
Proof. intros E. unfold sendSyncRecord. by rewrite E. Qed.

(** A record is shipped. *)
Lemma advanceRecord_live st t tt :
  live st t -> t + USECS_PER_SEC <= tt <= 2 ^ 62 ->
  exists t', live (advanceRecord tt st) t' /\ t + USECS_PER_SEC <= t' <= tt /\
    at2 (_syncRecord (advanceRecord tt st)) (nextRecordIndex (_current (advanceRecord tt st))) = None /\
    (at2 (_syncRecord st) (nextRecordIndex (_current st)) = None -> t' = tt - tt mod USECS_PER_SEC).
Proof.
  pose proof usecs_value as HU. intros (R & Hh & (W & Rw & F) & Hsent) Htt. pose proof R as (Hc & Ht & Hd & Hn & (Hct & rc & Hcr & Hrt & Hcl) & Ho).
  set (c := _current st) in *. set (n := nextRecordIndex c) in *.
  assert (Hin : index n) by by apply next_index. assert (Hnn : nextRecordIndex n = c) by by apply next_next.
  assert (Hm : 0 <= tt mod USECS_PER_SEC <= tt).
  { split; [apply Z.mod_pos_bound; done|apply Z.mod_le; [lia|done]]. }
  unfold advanceRecord. rewrite (sendSyncRecord_some st rc Hcr). fold c.
  cbn [with_records _current _syncTime _syncRecord s_out]. fold n.
  set (st1 := with_records _ _ _ _ _).
  set (t' := match at2 (_syncRecord st) n with None => tt - tt mod USECS_PER_SEC | Some _ => t + USECS_PER_SEC end).
  (* the state once the next record is there *)
  assert (A : exists times recs, allocateRecord n tt st1 = with_records st1 times n recs (s_out st1) /\ at2 times n = t' /\
    at2 recs c = None /\ exists r', at2 recs n = Some r' /\ sr_time r' = t' /\ zlen (sr_data r') = _recSize st).
  { unfold allocateRecord, t'. cbn [st1 with_records _syncRecord _syncTime _recSize _current s_out].
    rewrite at2_set2_next by done. fold n. destruct (at2 (_syncRecord st) n) as [r|] eqn:Er.
    - exists (set2 (_syncTime st) c LONG_LONG_MIN), (set2 (_syncRecord st) c None). split; [done|]. unfold n at 1 2.
      rewrite !at2_set2_next, at2_set2 by done. fold n. destruct Ho as [Ho|(Ho1 & r' & Ho2 & Ho3 & Ho4)]; [congruence|].
      split; [done|]. split; [done|]. exists r'. by rewrite <- Ho2.
    - eexists _, _. split; [reflexivity|]. rewrite Z.rem_mod_nonneg by (unfold USECS_PER_SEC; lia). rewrite !at2_set2.
      split; [done|]. split; [unfold n; rewrite at2_set2_prev by done; by rewrite at2_set2|]. eexists. split; [done|]. split; [done|].
      cbn. unfold zlen. rewrite length_replicate. lia. }
  destruct A as (times & recs & -> & At & Ac & r' & An & Ant & Anl).
  assert (Ht' : t + USECS_PER_SEC <= t' <= tt /\ (USECS_PER_SEC | t')).
  { unfold t'. destruct (at2 (_syncRecord st) n); [split; [lia|by apply Z.divide_add_r; [|exists 1]]|].
    destruct Hd as [k ->]. pose proof (Z.div_mod tt USECS_PER_SEC ltac:(done)). unfold USECS_PER_SEC in *.
    split; [|exists (tt / 1000000); lia]. split; [|lia]. Z.to_euclidean_division_equations; lia. }
  destruct Ht' as [Ht' Hdt']. exists t'. split; [|split; [done|split]].
  - split; [|split; [done|split]].
    + split; [done|]. split; [lia|]. split; [done|]. split; [done|].
      unfold rec_at. cbn [with_infos with_records _current _syncTime _syncRecord _recSize st1]. rewrite Hnn.
      split; [split; [done|]; by exists r'|by left].
    + unfold infos_ok. cbn [with_infos with_records _syncInfo _recSize st1].
      split; [unfold sm_wf; rewrite map_map; exact W|]. split.
      { apply rows_ok_map; [|done]. intros s. destruct (infoAdvance_static c s) as (_ & _ & _ & _ & _ & -> & -> & _). done. }
      intros i s. rewrite sm_find_map. destruct (sm_find i (_syncInfo st)) as [s0|] eqn:Es; [|done]. intros [= <-].
      destruct (F i s0 Es) as (F1 & F2 & (F3 & F4 & F5)). split; [by eapply row_ok_static, F1; apply infoAdvance_static|].
      split; [by eapply good_rate_static, F2; apply infoAdvance_static|].
      unfold slot_dyn, infoAdvance. cbn [with_infos with_records _syncRecord st1].
      destruct (Z.eqb_spec (irec s0) c) as [E|E]; cbn [with_slot irec islot nSlots].
      * fold n. rewrite An. split; [done|]. split; [done|]. destruct F2. lia.
      * assert (En : irec s0 = n) by by destruct (index_cases _ _ Hc F3). rewrite En, An. done.
    + unfold sent_ok. cbn [with_infos with_records s_out _recSize st1]. apply (sent_ok_send st t); try done. lia.
  - cbn [with_infos with_records _syncRecord _current st1]. by rewrite Hnn.
  - intros E. unfold t'. by rewrite E.
Qed.

(** The loop ends with a record that is near the sample. *)
Lemma advanceLoop_live st t tt :
  live st t -> t <= tt <= 2 ^ 62 ->
  exists st' t', advanceLoop 4 tt st = inr st' /\ live st' t' /\ t' <= tt < t' + 2 * USECS_PER_SEC /\ t <= t'.
Proof.
  pose proof usecs_value as HU. intros L Ht.
  assert (Tr : forall st t, live st t -> t + USECS_PER_SEC <= triggerTime st < t + 2 * USECS_PER_SEC).
  { intros st0 t0 ((_ & _ & _ & _ & (E & _) & _) & Hh & _). unfold triggerTime. rewrite E. change (USECS_PER_SEC / 2) with 500000 in Hh. lia. }
  assert (Fl : forall k st t, live st t -> t = tt - tt mod USECS_PER_SEC -> advanceLoop (S k) tt st = inr st /\ t <= tt < t + 2 * USECS_PER_SEC).
  { intros k st0 t0 L0 ->. pose proof (Tr _ _ L0) as T0. cbn [advanceLoop]. pose proof (Z.mod_pos_bound tt USECS_PER_SEC ltac:(done)).
    destruct (Z.leb_spec (triggerTime st0) tt); [lia|]. split; [done|lia]. }
  (* from a state without a second record *)
  assert (One : forall k st t, live st t -> t <= tt -> at2 (_syncRecord st) (nextRecordIndex (_current st)) = None ->
    exists st' t', advanceLoop (S (S k)) tt st = inr st' /\ live st' t' /\ t' <= tt < t' + 2 * USECS_PER_SEC /\ t <= t').
  { intros k st0 t0 L0 Ht0 Hn0. pose proof (Tr _ _ L0) as T0. cbn [advanceLoop]. destruct (Z.leb_spec (triggerTime st0) tt).
    - destruct (advanceRecord_live st0 t0 tt L0 ltac:(lia)) as (t1 & L1 & B1 & _ & E1).
      destruct (Fl k _ _ L1 (E1 Hn0)) as [F1 F2]. exists (advanceRecord tt st0), t1. split_and!; try done; lia.
    - exists st0, t0. split_and!; try done; lia. }
  pose proof (Tr _ _ L) as T0. change (advanceLoop 4 tt st) with (if triggerTime st <=? tt then advanceLoop 3 tt (advanceRecord tt st) else inr st).
  destruct (Z.leb_spec (triggerTime st) tt).
  - destruct (advanceRecord_live st t tt L ltac:(lia)) as (t1 & L1 & B1 & N1 & _).
    destruct (One 1%nat _ _ L1 ltac:(lia) N1) as (st2 & t2 & E2 & L2 & B2 & C2). exists st2, t2. split_and!; try done; lia.
  - exists st, t. split_and!; try done; lia.
Qed.

Lemma live_row st t i s : live st t -> sm_find i (_syncInfo st) = Some s ->
  row_ok s /\ good_rate s /\ slot_dyn st s /\ 0 <= sampleSRIndex s /\ sampleSRIndex s + sampleLength s <= _recSize st.
Proof.
  intros (R & _ & (W & Rw & F) & _) Hs. destruct (F i s Hs) as (F1 & F2 & F3). split; [done|]. split; [done|]. split; [done|].
  eapply rows_ok_find; [|done..]. intros j s' Hj. destruct (F j s' Hj) as (G1 & G2 & _). by apply row_ok_length.
Qed.

Lemma slot_in_dyn st s : slot_in st s -> slot_dyn st s.
Proof. intros (? & ? & ?). split_and!; try done; lia. Qed.

(** The first slot of a sample in a record. *)
Lemma firstSlot_spec tt st t s :
  live st t -> good_rate s -> slot_dyn st s -> t <= tt < t + 2 * USECS_PER_SEC ->
  exists st' s', (if islot s <? 0 then computeSlotIndex tt st s
    else let! (ok, st, s) := incrementSlot st s in inr (st, if ok : bool then s else mark_over s)) = inr (st', s') /\
    opened st st' /\ same_static s s' /\ slot_in st' s'.
Proof.
  intros (R & _) G (Hi & Hr & Hs) Htt. destruct (Z.ltb_spec (islot s) 0) as [Hneg|Hpos].
  - by eapply computeSlotIndex_spec.
  - destruct (incrementSlot_spec st t s R G ltac:(split; [done|]; split; [done|]; lia)) as (b & st1 & s1 & -> & O & S & I).
    eexists _, _. split; [reflexivity|]. destruct b; by split_and!.
Qed.

Lemma placeSample_live samp st t s :
  live st t -> sm_find (is_id samp) (_syncInfo st) = Some s -> t <= is_tt samp < t + 2 * USECS_PER_SEC ->
  exists b st', placeSample samp st s = inr (b, st') /\ live st' t.
Proof.
  intros L Hf Htt. destruct (live_row st t _ s L Hf) as (W & G & D & H0 & Hn). unfold placeSample.
  destruct (firstSlot_spec (is_tt samp) st t s L G D Htt) as (st1 & s1 & -> & O1 & S1 & I1).
  pose proof (live_opened st st1 t L O1) as L1. pose proof (good_rate_static s s1 S1 G) as G1.
  destruct (checkTime_spec st1 t (is_tt samp) s1 (proj1 L1) G1 I1 Htt) as (b & st2 & s2 & -> & O2 & S2 & I2).
  pose proof (live_opened st1 st2 t L1 O2) as L2. assert (S02 : same_static s s2) by by transitivity s1.
  assert (Hf2 : sm_find (is_id samp) (_syncInfo st2) = Some s).
  { destruct (opened_ok st1 st2 t (proj1 L1) O2) as (_ & -> & _). by destruct (opened_ok st st1 t (proj1 L) O1) as (_ & -> & _). }
  assert (Hz : _recSize st2 = _recSize st).
  { destruct (opened_ok st1 st2 t (proj1 L1) O2) as (_ & _ & _ & -> & _). by destruct (opened_ok st st1 t (proj1 L) O1) as (_ & _ & _ & -> & _). }
  destruct b; cbn [negb].
  - destruct (storeSample_eq samp st2 t s2 (proj1 L2)) as (r & data & u & Er & -> & El & _);
      [by eapply row_ok_static|by eapply good_rate_static|done| | |].
    { by destruct S02 as (_ & _ & _ & _ & _ & _ & -> & _). }
    { by destruct S02 as (_ & _ & _ & _ & _ & -> & -> & _); rewrite Hz. }
    pose proof I2 as (J1 & J2 & J3). eexists _, _. split; [reflexivity|]. assert (L3 : live (put_data st2 (irec s2) r data u) t).
    { destruct L2 as (R2 & Hh & (W2 & Rw2 & F2) & Hs2). split; [by apply put_data_ok|]. split; [done|]. split; [|done]. split; [done|]. split; [done|].
      intros i si Hsi. destruct (F2 i si Hsi) as (A1 & A2 & (A3 & A4 & A5)). split; [done|]. split; [done|].
      split; [done|]. split; [by eapply put_data_some|done]. }
    apply (live_put _ t _ s); [done|done|by transitivity s2|]. apply slot_in_dyn.
    split; [done|]. split; [eapply put_data_some; [exact (proj1 L2)|done..]|done].
  - eexists _, _. split; [reflexivity|]. apply (live_put st2 t _ s); try done. by apply slot_in_dyn.
Qed.

(** The state between samples. *)
Definition source_ok (st : SyncRecordSource) : Prop := idle st \/ exists t, live st t.

Lemma receive_ok samp st :
  source_ok st -> 0 <= is_tt samp <= 2 ^ 62 -> exists b st', receive samp st = inr (b, st') /\ source_ok st'.
Proof.
  intros Hok Htt. unfold receive. destruct (sm_find (is_id samp) (_syncInfo st)) as [s|] eqn:Hf; [|eexists _, _; by split].
  set (s1 := with_counts s _ _ _ _ _). set (st1 := put_info (is_id samp) s1 st).
  assert (S1 : same_static s s1) by done.
  assert (Hf1 : sm_find (is_id samp) (_syncInfo st1) = Some s1).
  { unfold st1, put_info. cbn [with_infos _syncInfo]. by rewrite sm_find_set, Z.eqb_refl. }
  (* the current record *)
  assert (L : exists t, live (allocateRecord (_current st1) (is_tt samp) st1) t /\
    sm_find (is_id samp) (_syncInfo (allocateRecord (_current st1) (is_tt samp) st1)) = Some s1).
  { assert (Ei : _syncInfo (allocateRecord (_current st1) (is_tt samp) st1) = _syncInfo st1)
      by (unfold allocateRecord; by destruct (at2 (_syncRecord st1) (_current st1))).
    rewrite Ei. destruct Hok as [Hid|[t Hl]].
    - eexists. split; [|done]. apply idle_live; [|done]. destruct Hid as (A1 & A2 & A3 & A4 & A6 & A5). split_and!; try done.
      apply (infos_ok_set st _ _ s); try done. by destruct A5 as (_ & _ & A5); destruct (A5 _ _ Hf) as (_ & _ & ?).
    - exists t. split; [|done]. assert (L1 : live st1 t).
      { apply (live_put st t _ s); try done. by destruct (live_row st t _ s Hl Hf) as (_ & _ & ? & _). }
      unfold allocateRecord. destruct L1 as (R1 & ?). pose proof R1 as (_ & _ & _ & _ & (_ & r & -> & _) & _). done. }
  destruct L as (t & L & Hf2). set (st2 := allocateRecord _ _ st1) in *.
  assert (Ht : at2 (_syncTime st2) (_current st2) = t) by (by destruct L as ((_ & _ & _ & _ & (? & _) & _) & _)).
  rewrite Ht. destruct (Z.ltb_spec (is_tt samp) t) as [Hlt|Hge].
  { eexists _, _. split; [reflexivity|]. right. exists t. apply (live_put st2 t _ s1); try done.
    by destruct (live_row st2 t _ s1 L Hf2) as (_ & _ & ? & _). }
  set (st3 := if _ && _ then _ else st2). assert (L3 : live st3 t) by (unfold st3; by destruct (_ && _)).
  destruct (advanceLoop_live st3 t (is_tt samp) L3 ltac:(lia)) as (st4 & t4 & -> & L4 & B4 & _).
  destruct (sm_find (is_id samp) (_syncInfo st4)) as [s4|] eqn:Hf4.
  - destruct (placeSample_live samp st4 t4 s4 L4 Hf4 B4) as (b & st5 & -> & L5). eexists _, _. split; [reflexivity|]. right. by exists t4.
  - eexists _, _. split; [reflexivity|]. right. by exists t4.
Qed.

(** The rates of the variables: the numbers computed from each are good, and
    there is at least one sample per second. *)
Definition good_rates (vars : list TagVar) : Prop :=
  Forall (fun v => 0 <= v_length (tv_var v) /\
    (in_record v = true -> good_rate (newSyncInfo (tv_id v) (tv_rate v)) /\ rateHalfUsec (tv_rate v) <= USECS_PER_SEC / 2)) vars.

Lemma initInfos_half vars : forall infos half, good_rates vars -> half <= USECS_PER_SEC / 2 -> (initInfos vars infos half).2 <= USECS_PER_SEC / 2.
Proof.
  induction vars as [|v vars IH]; intros infos half; cbn [initInfos]; [done|]. intros [[_ Hv] Hvs]%Forall_cons Hh.
  unfold in_record in Hv. destruct (Flt.le _ _); cbn [negb] in Hv; [by apply IH|]. apply IH; [done|]. destruct (Hv eq_refl). lia.
Qed.

(** The rate of a [SyncInfo] is that of the first variable of its sample. *)
Lemma initInfos_rates vars : forall infos half (P : Flt.t -> Prop),
  Forall (fun v => in_record v = true -> P (tv_rate v)) vars -> (forall i s, sm_find i infos = Some s -> P (rate s)) ->
  forall i s, sm_find i (initInfos vars infos half).1 = Some s -> P (rate s).
Proof.
  induction vars as [|v vars IH]; intros infos half P; cbn [initInfos]; [done|]. intros [Hv Hvs]%Forall_cons Hi.
  unfold in_record in Hv. destruct (Flt.le _ _); cbn [negb] in Hv; [by apply IH|]. apply IH; [done|].
  intros i s. rewrite sm_find_set. destruct (i =? tv_id v); [|apply Hi]. intros [= <-]. cbn.
  destruct (sm_find (tv_id v) infos) eqn:E; [by eapply Hi|]. by apply Hv.
Qed.

Lemma newSource_ok vars : good_rates vars -> idle (newSyncRecordSource vars).
Proof.
  intros Hg. unfold newSyncRecordSource. destruct (initLayout vars) as [[infos half] n] eqn:E.
  assert (Hlen : Forall (fun v => 0 <= v_length (tv_var v)) vars) by (eapply Forall_impl; [exact Hg|]; by intros v []).
  destruct (initLayout_ok vars infos half n Hlen E) as (W & Rw & F & _).
  unfold initLayout in E. pose proof (initInfos_half vars [] INT_MIN Hg ltac:(done)) as Hh.
  assert (Hr : forall i s, sm_find i infos = Some s -> exists j, good_rate (newSyncInfo j (rate s))).
  { intros i s Hs. destruct (initInfos vars [] INT_MIN) as [infos1 half1] eqn:E1. destruct (initIndices infos1 0) as [infos2 n2] eqn:E2.
    injection E as <- <- <-. destruct (initIndices_find infos1 0 i s ltac:(by rewrite E2)) as (s0 & Es0 & -> & _).
    apply (initInfos_rates vars [] INT_MIN (fun r => exists j, good_rate (newSyncInfo j r))) with (i := i); [|done|by rewrite E1].
    eapply Forall_impl; [exact Hg|]. intros v [_ Hv] Hin. exists (tv_id v). by apply Hv. }
  destruct (initInfos vars [] INT_MIN) as [infos1 half1]. destruct (initIndices infos1 0) as [infos2 n2]. injection E as <- <- <-.
  assert (I : forall i s, sm_find i infos2 = Some s -> row_ok s /\ good_rate s /\ irec s = 0 /\ islot s = -1).
  { intros i s Hs. destruct (F i s Hs) as [(F1 & F2 & _) _]. destruct (Hr i s Hs) as [j Gj]. split; [done|].
    pose proof (f_equal nSlots F1) as En. pose proof (f_equal dtUsec F1) as Ed. pose proof (f_equal skipMod F1) as Em.
    split; [unfold good_rate; by rewrite En, Ed, Em|]. split; [exact (f_equal irec F1)|exact (f_equal islot F1)]. }
  split; [by left|]. split; [done|]. split; [|split; [done|split; [done|split; [done|split; [done|exact I]]]]].
  cbn [_recSize]. clear -Rw I W. assert (L : forall i s, sm_find i infos2 = Some s -> 1 <= sampleLength s).
  { intros i s Hs. destruct (I i s Hs) as (A & B & _). by apply row_ok_length. }
  destruct infos2 as [|[i s] r] eqn:Er; [cbn in Rw; lia|]. destruct (rows_ok_find _ 0 n2 i s L W Rw); [cbn; by rewrite Z.eqb_refl|].
  specialize (L i s ltac:(cbn; by rewrite Z.eqb_refl)). lia.
Qed.

Lemma receiveAll_ok l : forall st,
  source_ok st -> Forall (fun x => 0 <= is_tt x <= 2 ^ 62) l -> exists st', receiveAll l st = inr st' /\ source_ok st'.
Proof.
  induction l as [|x l IH]; intros st Hok; cbn [receiveAll]; [by eexists|]. intros [Hx Hl]%Forall_cons.
  destruct (receive_ok x st Hok Hx) as (b & st1 & -> & Hok1). by apply IH.
Qed.

(** [flush] sends the records that are being filled. *)
Lemma flush_live st t :
  live st t -> exists r, at2 (_syncRecord st) (_current st) = Some r /\
    s_out (flush st) = s_out st ++ r :: option_list (at2 (_syncRecord st) (nextRecordIndex (_current st))).
Proof.
  intros ((Hc & _ & _ & _ & (_ & r & Hr & _) & _) & _). exists r. split; [done|]. unfold flush, flushOnce.
  rewrite (sendSyncRecord_some st r Hr). set (c := _current st) in *. unfold sendSyncRecord.
  cbn [with_records _current _syncRecord s_out _syncTime]. rewrite at2_set2_next by done. fold c.
  destruct (at2 (_syncRecord st) (nextRecordIndex c)); cbn; by rewrite <- ?app_assoc.
Qed.

Lemma flush_sent st :
  source_ok st -> StronglySorted Z.lt (map sr_time (s_out (flush st))) /\
  Forall (fun r => (USECS_PER_SEC | sr_time r) /\ zlen (sr_data r) = _recSize st) (s_out (flush st)).
Proof.
  pose proof usecs_value as HU. intros [(Hc & Hr & _ & _ & Ho & _)|[t L]].
  - assert (E : s_out (flush st) = []).
    { assert (En : forall st', _syncRecord st' = (None, None) -> sendSyncRecord st' = st').
      { intros st' E. unfold sendSyncRecord. rewrite E. unfold at2. by destruct (_ =? 0). }
      unfold flush, flushOnce. rewrite (En st Hr). by rewrite En. }
    rewrite E. split; constructor.
  - destruct (flush_live st t L) as (r & Er & ->). destruct L as (R & _ & _ & Hs). pose proof R as (Hc & _ & Hd & _).
    destruct (rec_slot st t _ r R Hc Er) as (El & _ & [[_ Et]|[Q _]]); [|by apply eq_sym, next_neq in Q].
    destruct (sent_ok_send st t (t + USECS_PER_SEC) r Hs Et Hd El ltac:(lia)) as [S1 F1].
    destruct (at2 (_syncRecord st) (nextRecordIndex (_current st))) as [r2|] eqn:E2; cbn [option_list option_rect].
    + destruct (rec_slot st t _ r2 R (next_index _ Hc) E2) as (El2 & _ & [[Q _]|[_ Et2]]); [by apply next_neq in Q|].
      set (st1 := with_records st (_syncTime st) (_current st) (_syncRecord st) (s_out st ++ [r])).
      destruct (sent_ok_send st1 (t + USECS_PER_SEC) (t + 2 * USECS_PER_SEC) r2) as [S2 F2]; try done;
        [apply Z.divide_add_r; [done|by exists 1]|lia|].
      cbn [st1 with_records s_out _recSize] in S2, F2. rewrite <- app_assoc in S2, F2. split; [done|].
      eapply Forall_impl; [exact F2|]. by intros ? [].
    + split; [done|]. eapply Forall_impl; [exact F1|]. by intros ? [].
Qed.

(** ** Properties *)

(** C16: sync records are assembled without a fault.  For any samples, in any
    order and with any gaps, if the slots of each rate cover a second and
    there is at least one sample per second, no assertion fails, nothing is
    stored outside a record or in a record that was passed on, and the loops
    end; the records sent are of whole seconds, in order, one for a second,
    and have the size of the layout. *)
Theorem sync_records_safe vars l :
  good_rates vars -> Forall (fun x => 0 <= is_tt x <= 2 ^ 62) l ->
  exists st, receiveAll l (newSyncRecordSource vars) = inr st /\
    StronglySorted Z.lt (map sr_time (s_out (flush st))) /\
    Forall (fun r => (USECS_PER_SEC | sr_time r) /\ zlen (sr_data r) = _recSize st) (s_out (flush st)).
Proof.
  intros Hg Hl. destruct (receiveAll_ok l (newSyncRecordSource vars) (or_introl (newSource_ok vars Hg)) Hl) as (st & E & Hok).
  exists st. split; [done|]. by apply flush_sent.
Qed.

(** *** Where the code fails *)

Definition float_var (i : Z) (r : Dbl.t) : TagVar := mkTagVar i r (mkVariable [i] CONTINUOUS 1 [] [] None).

Definition float_sample (tt i x : Z) : InSample := mkInSample tt i FLOAT_ST [Dbl.ofZ x].

(** A rate whose interval is rounded down leaves the end of the second
    without a slot: the first sample of a 3 Hz variable in the last
    microsecond of a second fails the assertion on the slot index. *)
Theorem rounded_rate_asserts :
  receiveAll [float_sample 999999 5 7] (newSyncRecordSource [float_var 5 (Dbl.ofZ 3)]) = inl AssertFailed /\
  receiveAll [float_sample 999995 5 7] (newSyncRecordSource [float_var 5 (Dbl.ofZ 30)]) = inl AssertFailed.
Proof. split; vm_compute; reflexivity. Qed.

(** A variable with less than a sample per second delays the records of all
    variables: after a gap of three seconds a 10 Hz sample has no slot. *)
Theorem slow_rate_asserts :
  let slow := Dbl.div (Dbl.ofZ 1) (Dbl.ofZ 10) in
  receiveAll [float_sample 0 5 7; float_sample 3000000 5 8] (newSyncRecordSource [float_var 5 (Dbl.ofZ 10); float_var 6 slow]) = inl AssertFailed.
Proof. vm_compute. reflexivity. Qed.

(** [flush] leaves the slots of the samples: a sample received after it can
    fail an assertion. *)
Theorem receive_after_flush_asserts :
  exists st, receiveAll [float_sample 900000 5 7; float_sample 1000000 5 8] (newSyncRecordSource [float_var 5 (Dbl.ofZ 10)]) = inr st /\
    exists st', receiveAll [float_sample 2300000 5 8; float_sample 1500000 5 9] (flush st) = inl st'.
Proof. eexists. split; [vm_compute; reflexivity|]. eexists. vm_compute. reflexivity. Qed.

(** The example of the class documentation: of its ten samples four are
    lost, where the documentation keeps all; slots are filled by the time of
    the slot without the time offset, and samples close after a gap
    overwrite each other. *)
Theorem documented_example :
  let l := map (fun p => float_sample (p.1 * 10000) 5 p.2)
    [(9, 0); (18, 1); (32, 2); (60, 3); (62, 4); (65, 5); (71, 6); (79, 7); (120, 8); (122, 9)] in
  exists st, receiveAll l (newSyncRecordSource [float_var 5 (Dbl.ofZ 10)]) = inr st /\
    map (fun r => (sr_time r, tail (sr_data r))) (s_out (flush st)) =
      let nan := S754_nan in let v := Dbl.ofZ in
      [(0, [v 0; v 1; v 2; nan; nan; nan; v 4; v 6; v 7; nan]);
       (1000000, [nan; nan; v 9; nan; nan; nan; nan; nan; nan; nan])].
Proof. eexists. split; [vm_compute; reflexivity|]. vm_compute. reflexivity. Qed.

(** ** Witnesses *)

Lemma sync_records_safe_witness :
  exists st, receiveAll [float_sample 900000 5 7; float_sample 950000 6 1; float_sample 3000000 5 8; float_sample 10 5 9]
    (newSyncRecordSource [float_var 5 (Dbl.ofZ 10); float_var 6 (Dbl.div (Dbl.ofZ 25) (Dbl.ofZ 2))]) = inr st /\
    StronglySorted Z.lt (map sr_time (s_out (flush st))).
Proof.
  destruct (sync_records_safe [float_var 5 (Dbl.ofZ 10); float_var 6 (Dbl.div (Dbl.ofZ 25) (Dbl.ofZ 2))]
    [float_sample 900000 5 7; float_sample 950000 6 1; float_sample 3000000 5 8; float_sample 10 5 9]) as (st & E & S & _).
  - repeat (apply Forall_cons; split); [..|apply Forall_nil; exact I]; (split; [cbn; lia|]; intros _; split; [|vm_compute; discriminate]);
      (unfold good_rate; vm_compute; split_and!; discriminate).
  - repeat (apply Forall_cons; split); [..|apply Forall_nil; exact I]; cbn; lia.
  - exists st. split; [exact E|exact S].
Defined.
