(* ===== verification/SyncSlots.v ===== *)
(** * Sync records: one sample at a time.

    How [receive] of [SyncRecords.v] changes the records: what is written in
    the cells of a record, which records are sent and begun, and, for a
    sample whose rate is a whole number of slots per second, the slot that it
    gets. *)

From Stdlib Require Import SpecFloat.
From S2P Require Import Prelude StdMap UTime SampleId Doubles Floats SyncLayout SyncRecords.

#[local] Open Scope sync_scope.

(** ** Cells of a record *)

Definition zget (data : list Dbl.t) (a : Z) : option Dbl.t := data !! Z.to_nat a.

Lemma zget_nil a : zget [] a = None.
Proof. unfold zget. apply lookup_nil. Qed.

Lemma store_get data a vs b :
  0 <= a -> a + zlen vs <= zlen data -> 0 <= b ->
  zget (store data a vs) b = if (a <=? b) && (b <? a + zlen vs) then zget vs (b - a) else zget data b.
Proof.
  intros Ha Hl Hb. unfold zget, store, zlen in *.
  assert (Ht : length (take (Z.to_nat a) data) = Z.to_nat a) by (rewrite length_take; lia).
  destruct (Z.leb_spec a b) as [H1|H1]; cbn [andb].
  - rewrite lookup_app_r by lia. rewrite Ht. destruct (Z.ltb_spec b (a + Z.of_nat (length vs))) as [H2|H2].
    + rewrite lookup_app_l by lia. f_equal. lia.
    + rewrite lookup_app_r, lookup_drop by lia. f_equal. lia.
  - rewrite lookup_app_l, lookup_take by lia. by rewrite decide_True by lia.
Qed.

(** The place of a variable's values in a sample. *)
Definition offset (lens : list Z) (i : nat) : Z := foldr Z.add 0 (take i lens).

Lemma vars_ok_above n ixs : forall lens lo hi i ix, 0 <= n -> vars_ok lo n ixs lens hi -> ixs !! i = Some ix -> lo <= ix.
Proof.
  induction ixs as [|y ixs IH]; intros [|l lens] lo hi i ix Hn; cbn [vars_ok]; try done. intros (-> & Hl & Hv).
  destruct i as [|i]; cbn; [intros [= ->]; lia|]. intros H%(IH _ _ _ _ _ Hn Hv). nia.
Qed.

Lemma offset_nonneg n ixs : forall lens lo hi i, vars_ok lo n ixs lens hi -> 0 <= offset lens i.
Proof.
  induction ixs as [|y ixs IH]; intros [|l lens] lo hi i; cbn [vars_ok]; try done; [by destruct i|].
  intros (_ & Hl & Hv). destruct i as [|i]; [done|]. unfold offset. cbn. specialize (IH _ _ _ i Hv). unfold offset in IH. lia.
Qed.

Lemma copyVariables_get n size slot hi ixs : forall lens lo vals data data',
  vars_ok lo n ixs lens hi -> 0 <= lo -> 0 <= slot < n -> hi <= size -> zlen data = size ->
  copyVariables size slot ixs lens vals data = inr data' ->
  (forall a, 0 <= a -> a < lo \/ hi <= a -> zget data' a = zget data a) /\
  (forall i ix len e j, ixs !! i = Some ix -> lens !! i = Some len -> 0 <= e < len -> 0 <= j < n ->
     zget data' (ix + len * j + e) =
       match (if j =? slot then zget vals (offset lens i + e) else None) with
       | Some v => Some v
       | None => zget data (ix + len * j + e)
       end).
Proof.
  induction ixs as [|ix ixs IH]; intros lens lo vals data data'; cbn [vars_ok copyVariables].
  { intros _ _ _ _ _ [= <-]. split; [done|]. intros i ix len e j H. by rewrite lookup_nil in H. }
  destruct lens as [|len lens]; [done|]. intros (-> & Hl & Hv) Hlo Hs Hh Hd.
  pose proof (vars_ok_le n ixs lens _ _ ltac:(lia) Hv) as Hle. destruct vals as [|v vals].
  { intros [= <-]. split; [done|]. intros i ix len' e j H1 H2 H3 H4. rewrite zget_nil. by destruct (j =? slot). }
  set (vs := v :: vals). set (inlen := Z.min (zlen vs) len). pose proof (zlen_nonneg vs) as Hz.
  assert (Hfit : lo + len * slot + inlen <= size) by nia.
  destruct (Z.leb_spec (lo + len * slot + inlen) size) as [_|Hbad]; [|lia]. cbn [negb].
  set (d1 := store data (lo + len * slot) (take (Z.to_nat inlen) vs)). intros E.
  assert (Et : zlen (take (Z.to_nat inlen) vs) = inlen) by (unfold zlen in *; rewrite length_take; lia).
  assert (Ed1 : zlen d1 = size) by (unfold d1; rewrite store_len; [done|nia|lia]).
  destruct (IH lens (lo + len * n) (drop (Z.to_nat inlen) vs) d1 data' Hv ltac:(nia) Hs Hh Ed1 E) as [I1 I2].
  assert (G : forall a, 0 <= a -> zget d1 a =
    if (lo + len * slot <=? a) && (a <? lo + len * slot + inlen) then zget (take (Z.to_nat inlen) vs) (a - (lo + len * slot)) else zget data a).
  { intros a Ha. unfold d1. rewrite store_get, Et; [done|nia|lia|done]. }
  split.
  - intros a Ha Hout. rewrite I1 by nia. rewrite G by done.
    destruct (Z.leb_spec (lo + len * slot) a); destruct (Z.ltb_spec a (lo + len * slot + inlen)); cbn [andb]; try done; nia.
  - intros i ix len' e j Hix Hlen He Hj. destruct i as [|i]; cbn in Hix, Hlen.
    + injection Hix as <-. injection Hlen as <-. rewrite I1 by nia. rewrite G by nia. unfold offset. cbn [take foldr]. rewrite Z.add_0_l.
      destruct (Z.eqb_spec j slot) as [->|Hne].
      * destruct (Z.leb_spec (lo + len * slot) (lo + len * slot + e)) as [_|?]; [|lia].
        replace (lo + len * slot + e - (lo + len * slot)) with e by lia. unfold zget at 3.
        destruct (Z.ltb_spec (lo + len * slot + e) (lo + len * slot + inlen)) as [Hi|Hi]; cbn [andb].
        -- unfold zget. rewrite lookup_take, decide_True by lia. destruct (vs !! Z.to_nat e) eqn:Ev; [done|].
           apply lookup_ge_None in Ev. unfold inlen, zlen in Hi. lia.
        -- destruct (vs !! Z.to_nat e) eqn:Ev; [|done]. apply lookup_lt_Some in Ev. unfold inlen, zlen in Hi. lia.
      * destruct (Z.leb_spec (lo + len * slot) (lo + len * j + e)); destruct (Z.ltb_spec (lo + len * j + e) (lo + len * slot + inlen)); cbn [andb]; try done.
        exfalso. assert (inlen <= len) by (unfold inlen; lia). assert (j < slot \/ slot < j) as [?|?] by lia; nia.
    + assert (Hix2 : lo + len * n <= ix) by (eapply vars_ok_above; [|done|done]; lia).
      rewrite (I2 i ix len' e j Hix Hlen He Hj), G by nia.
      destruct (Z.ltb_spec (ix + len' * j + e) (lo + len * slot + inlen)) as [Hbad|_]; [exfalso; assert (inlen <= len) by (unfold inlen; lia); nia|].
      rewrite andb_false_r. destruct (j =? slot); [|done]. unfold zget at 1 3. unfold offset. cbn [take foldr]. rewrite lookup_drop.
      fold (offset lens i). assert (Ho : 0 <= offset lens i) by by eapply offset_nonneg.
      destruct (Z.le_gt_cases len (zlen vs)) as [Hc|Hc].
      * replace (Z.to_nat inlen + Z.to_nat (offset lens i + e))%nat with (Z.to_nat (len + offset lens i + e)) by (unfold inlen; lia). done.
      * rewrite !lookup_ge_None_2; [done| |]; unfold inlen, zlen in *; lia.
Qed.

(** ** The records of a state *)

(** Those sent and those being filled. *)
Definition all_recs (st : SyncRecordSource) : list SyncRec :=
  s_out st ++ option_list (at2 (_syncRecord st) (_current st)) ++
  option_list (at2 (_syncRecord st) (nextRecordIndex (_current st))).

Lemma all_recs_in st r : index (_current st) ->
  r ∈ all_recs st <-> r ∈ s_out st \/ exists i, index i /\ at2 (_syncRecord st) i = Some r.
Proof.
  intros Hc. unfold all_recs. rewrite !elem_of_app. split.
  - intros [H|[H|H]]; [by left| |].
    + destruct (at2 _ (_current st)) eqn:E; [|by apply not_elem_of_nil in H]. apply list_elem_of_singleton in H as ->. right. eauto.
    + destruct (at2 _ (nextRecordIndex _)) eqn:E; [|by apply not_elem_of_nil in H]. apply list_elem_of_singleton in H as ->.
      right. exists (nextRecordIndex (_current st)). split; [by apply next_index|done].
  - intros [H|(i & Hi & H)]; [by left|]. right. destruct (index_cases _ _ Hc Hi) as [->| ->]; rewrite H; [left|right]; by left.
Qed.

Definition nan_rec (st : SyncRecordSource) (t : Z) : SyncRec := mkSyncRec t (replicate (Z.to_nat (_recSize st)) S754_nan).

(** The records of [st'] are those of [st], changed by [P], and new ones of
    other seconds, made from empty ones. *)
Definition evolves (P : SyncRec -> SyncRec -> Prop) (st st' : SyncRecordSource) : Prop :=
  (forall r', r' ∈ all_recs st' ->
     exists r, sr_time r = sr_time r' /\ P r r' /\
       (r ∈ all_recs st \/ r = nan_rec st (sr_time r') /\ forall r0, r0 ∈ all_recs st -> sr_time r0 <> sr_time r')) /\
  (forall r, r ∈ all_recs st -> exists r', r' ∈ all_recs st' /\ sr_time r' = sr_time r).

Lemma evolves_refl (P : SyncRec -> SyncRec -> Prop) st : (forall r, P r r) -> evolves P st st.
Proof. intros HP. split; [|by eauto]. intros r' H. exists r'. split; [done|]. split; [done|]. by left. Qed.

Lemma evolves_trans (P : SyncRec -> SyncRec -> Prop) st st1 st2 :
  (forall a b c, P a b -> P b c -> P a c) -> _recSize st1 = _recSize st -> evolves P st st1 -> evolves P st1 st2 -> evolves P st st2.
Proof.
  intros HP Ez [A1 A2] [B1 B2]. split.
  - intros r2 H2. destruct (B1 r2 H2) as (r1 & T1 & P1 & [H1|[E1 N1]]).
    + destruct (A1 r1 H1) as (r & T & P0 & H). exists r. rewrite <- T1. split; [done|]. split; [by eapply HP|].
      destruct H as [H|[-> N]]; [by left|right]. done.
    + exists r1. split; [done|]. split; [done|]. right. split; [rewrite E1; unfold nan_rec; by rewrite Ez|].
      intros r0 H0 E. destruct (A2 r0 H0) as (r3 & H3 & E3). apply (N1 r3 H3). congruence.
  - intros r H. destruct (A2 r H) as (r1 & H1 & E1). destruct (B2 r1 H1) as (r2 & H2 & E2). exists r2. split; [done|]. congruence.
Qed.

Lemma evolves_same (P : SyncRec -> SyncRec -> Prop) st st' : (forall r, P r r) -> all_recs st' = all_recs st -> evolves P st st'.
Proof. intros HP E. unfold evolves. rewrite E. by apply (evolves_refl P st HP). Qed.

Lemma opened_evolves (P : SyncRec -> SyncRec -> Prop) st st' t :
  (forall r, P r r) -> live st t -> opened st st' -> evolves P st st'.
Proof.
  pose proof usecs_value as HU. intros HP L O. pose proof L as (R & _ & _ & (_ & Hs)).
  destruct (opened_ok st st' t R O) as (R' & _ & Ec & Ez & _ & Eo & Er & K). pose proof R as (Hc & _ & _ & _ & (Hct & rc & Hrc & Hrt & _) & Ho).
  pose proof R' as (_ & _ & _ & _ & _ & Ho'). rewrite Ec in Ho'.
  destruct Ho as [Ho|(_ & ro & Ho & _)].
  2: { apply evolves_same; [done|]. unfold all_recs. rewrite Ec, Eo, Er.
    by rewrite (K (nextRecordIndex (_current st)) (next_index _ Hc) (mk_is_Some _ _ Ho)). }
  destruct O as [->|E]; [by apply evolves_refl|].
  assert (En : at2 (_syncRecord st') (nextRecordIndex (_current st)) = Some (nan_rec st (t + USECS_PER_SEC))).
  { subst st'. unfold allocateRecord at 1. rewrite Ho, Hct, rec_aligned; [cbn; by rewrite at2_set2| |].
    - apply Z.divide_add_r; [apply R|by exists 1].
    - assert (0 <= t) by apply R. lia. }
  assert (Ea : all_recs st' = all_recs st ++ [nan_rec st (t + USECS_PER_SEC)]).
  { unfold all_recs. rewrite Ec, Eo, Er, En, Ho. cbn. by rewrite app_nil_r, <- app_assoc. }
  split.
  - rewrite Ea. intros r' [H|H]%elem_of_app; [exists r'; split; [done|]; split; [done|]; by left|]. apply list_elem_of_singleton in H as ->.
    exists (nan_rec st (t + USECS_PER_SEC)). split; [done|]. split; [done|]. right. split; [done|].
    intros r0 H0. apply all_recs_in in H0 as [H0|(i & Hi & H0)]; [|cbn..|done].
    + rewrite Forall_forall in Hs. destruct (Hs _ H0). cbn. lia.
    + destruct (rec_slot st t i r0 R Hi H0) as (_ & _ & [[_ ?]|[-> _]]); [lia|congruence].
  - intros r H. exists r. rewrite Ea. split; [|done]. apply elem_of_app. by left.
Qed.

Lemma advanceRecord_evolves (P : SyncRec -> SyncRec -> Prop) st t tt :
  (forall r, P r r) -> live st t -> t + USECS_PER_SEC <= tt <= 2 ^ 62 ->
  evolves P st (advanceRecord tt st) /\ _recSize (advanceRecord tt st) = _recSize st.
Proof.
  pose proof usecs_value as HU. intros HP L Htt. pose proof L as (R & _ & _ & (_ & Hs)).
  pose proof R as (Hc & _ & _ & _ & (Hct & rc & Hrc & Hrt & _) & Ho). unfold advanceRecord. rewrite (sendSyncRecord_some st rc Hrc).
  set (c := _current st) in *. cbn [with_records _current _syncTime _syncRecord s_out]. set (n := nextRecordIndex c) in *.
  unfold allocateRecord. cbn [with_records _current _syncTime _syncRecord s_out _recSize]. rewrite at2_set2_next by done. fold n.
  assert (Hin : index n) by by apply next_index. assert (Hnn : nextRecordIndex n = c) by by apply next_next.
  destruct (at2 (_syncRecord st) n) as [rn|] eqn:En.
  - split; [|done]. apply evolves_same; [done|]. unfold all_recs. cbn [with_infos with_records _syncRecord _current s_out].
    rewrite Hnn, at2_set2. unfold n at 1. rewrite at2_set2_next by done. fold c n. rewrite Hrc, En. cbn. by rewrite <- app_assoc.
  - split; [|done]. rewrite Z.rem_mod_nonneg by (assert (0 <= t) by apply R; lia). set (u := tt - tt mod USECS_PER_SEC).
    assert (Hu : t < u).
    { destruct R as (_ & _ & [k ->] & _). unfold u. rewrite HU in *. Z.to_euclidean_division_equations. lia. }
    set (st' := with_infos _ _). assert (Ea : all_recs st' = all_recs st ++ [nan_rec st u]).
    { unfold all_recs, st'. cbn [with_infos with_records _syncRecord _current s_out _recSize]. fold c n. rewrite Hnn, Hrc, En.
      rewrite at2_set2. unfold n. rewrite at2_set2_prev, at2_set2 by done. cbn. by rewrite <- ?app_assoc. }
    split.
    + rewrite Ea. intros r' [H|H]%elem_of_app; [exists r'; split; [done|]; split; [done|]; by left|]. apply list_elem_of_singleton in H as ->.
      exists (nan_rec st u). split; [done|]. split; [done|]. right. split; [done|].
      intros r0 H0. apply all_recs_in in H0 as [H0|(i & Hi & H0)]; [|cbn..|done].
      * rewrite Forall_forall in Hs. destruct (Hs _ H0). cbn. lia.
      * destruct (rec_slot st t i r0 R Hi H0) as (_ & _ & [[_ ?]|[-> _]]); [lia|]. fold c n in H0. congruence.
    + intros r H. exists r. rewrite Ea. split; [|done]. apply elem_of_app. by left.
Qed.

(** ** Exact rates

    A whole number of slots fills a second. *)

Definition exact_rate (s : SyncInfo) : Prop :=
  integralRate s = true /\ 1 <= dtUsec s /\ nSlots s * dtUsec s = USECS_PER_SEC.

Lemma exact_rate_static s s' : same_static s s' -> exact_rate s -> exact_rate s'.
Proof. unfold exact_rate, integralRate. by intros (_ & -> & -> & -> & _). Qed.

(** The slot of a sample is that of a time. *)
Definition slot_at (st : SyncRecordSource) (s : SyncInfo) (tt : Z) : Prop :=
  slot_in st s /\ at2 (_syncTime st) (irec s) + islot s * dtUsec s = tt / dtUsec s * dtUsec s.

Lemma slot_times st t s : recs_ok st t -> index (irec s) -> is_Some (at2 (_syncRecord st) (irec s)) ->
  irec s = _current st /\ at2 (_syncTime st) (irec s) = t \/
  irec s = nextRecordIndex (_current st) /\ at2 (_syncTime st) (irec s) = t + USECS_PER_SEC.
Proof.
  intros R Hi [r Hr]. destruct (rec_slot st t _ r R Hi Hr) as (_ & <- & [[? ?]|[? ?]]); [left|right]; by split.
Qed.

(** Arithmetic of slots in a second. *)
Lemma slot_of_time dt n t tt :
  1 <= dt -> n * dt = USECS_PER_SEC -> (USECS_PER_SEC | t) -> t <= tt < t + USECS_PER_SEC ->
  0 <= (tt - t) / dt < n /\ t + (tt - t) / dt * dt = tt / dt * dt.
Proof.
  intros Hd Hn [k ->] Ht. rewrite <- Hn in *. assert (E : tt / dt = k * n + (tt - k * (n * dt)) / dt).
  { replace tt with (tt - k * (n * dt) + k * n * dt) at 1 by lia. rewrite Z.div_add by lia. lia. }
  rewrite E. split; [|lia]. split; [apply Z.div_pos; lia|]. apply Z.div_lt_upper_bound; lia.
Qed.

Lemma computeSlotIndex_exact st t tt s :
  recs_ok st t -> exact_rate s -> index (irec s) -> is_Some (at2 (_syncRecord st) (irec s)) ->
  at2 (_syncTime st) (irec s) <= tt < t + 2 * USECS_PER_SEC ->
  exists st' s', computeSlotIndex tt st s = inr (st', s') /\ opened st st' /\ same_static s s' /\ slot_at st' s' tt.
Proof.
  pose proof usecs_value as HU. intros R (_ & Gd & Gn) Hi Hr Htt. unfold computeSlotIndex. pose proof Hr as [r Er]. rewrite Er.
  assert (K : forall b st1 s1 t1, opened st st1 -> same_static s s1 -> index (irec s1) -> is_Some (at2 (_syncRecord st1) (irec s1)) ->
    at2 (_syncTime st1) (irec s1) = t1 -> (USECS_PER_SEC | t1) -> t1 <= tt < t1 + USECS_PER_SEC ->
    exists st' s', (let! (_, st, s) := inr (b : bool, st1, s1) in
      let ni := Z.max (Z.quot (s32 (tt - at2 (_syncTime st) (irec s))) (dtUsec s)) 0 in
      if dtUsec s =? 0 then inl DivideByZero else inr (st, with_early (with_slot s ni (irec s) (skipModCount s)) 0 0)) = inr (st', s') /\
      opened st st' /\ same_static s s' /\ slot_at st' s' tt).
  { intros b st1 s1 t1 O S I1 R1 E1 D B. rewrite E1. pose proof S as (_ & _ & En & Ed & _). rewrite Ed.
    destruct (Z.eqb_spec (dtUsec s) 0); [lia|]. eexists _, _. split; [reflexivity|]. split; [done|]. split; [done|].
    destruct (slot_of_time (dtUsec s) (nSlots s) t1 tt Gd Gn D B) as [A1 A2].
    rewrite s32_small, Z.quot_div_nonneg, Z.max_l by lia. unfold slot_at, slot_in.
    cbn [with_early with_slot irec islot nSlots dtUsec]. rewrite En, Ed, E1. split; [split; [done|split; [done|exact A1]]|done]. }
  pose proof R as (Hc & _ & Hd & _). destruct (slot_times st t s R Hi Hr) as [[E1 E2]|[E1 E2]]; rewrite E2.
  - destruct (Z.leb_spec (t + USECS_PER_SEC) tt) as [Hle|Hgt]; [|apply (K false st s t); try done; [by left|lia]].
    destruct (nextRecord_spec st t s R Hi Hr) as (b & st1 & s1 & -> & O & S & _ & _ & _ & Hr1 & P). destruct b.
    + destruct P as (P1 & P2 & (Pt & _)). apply (K true st1 s1 (t + USECS_PER_SEC)); try done;
        [rewrite P2; by apply next_index|by rewrite P2|by apply Z.divide_add_r; [|exists 1]|lia].
    + destruct P as (P1 & _). rewrite E1 in P1. by apply eq_sym, next_neq in P1.
  - destruct (Z.leb_spec (t + USECS_PER_SEC + USECS_PER_SEC) tt); [lia|].
    apply (K false st s (t + USECS_PER_SEC)); try done; [by left|by apply Z.divide_add_r; [|exists 1]|lia].
Qed.

(** The next slot, unless it is beyond the two records. *)
Lemma incrementSlot_exact st t s :
  recs_ok st t -> exact_rate s -> slot_in st s ->
  at2 (_syncTime st) (irec s) + islot s * dtUsec s + dtUsec s < t + 2 * USECS_PER_SEC ->
  exists st' s', incrementSlot st s = inr (true, st', s') /\ opened st st' /\ same_static s s' /\ slot_in st' s' /\
    at2 (_syncTime st') (irec s') + islot s' * dtUsec s' = at2 (_syncTime st) (irec s) + islot s * dtUsec s + dtUsec s.
Proof.
  pose proof usecs_value as HU. intros R G (Hi & Hr & Hs) Hlt. unfold incrementSlot. cbn [incrementLoop]. pose proof G as (Gi & Gd & Gn).
  destruct (Z.eqb_spec (islot s + 1) (nSlots s)) as [E|E].
  - set (s1 := with_slot s (islot s + 1) (irec s) (skipModCount s)).
    destruct (nextRecord_spec st t s1 R Hi Hr) as (b & st1 & s2 & -> & O & S & _ & _ & _ & Hr1 & P). pose proof R as (Hc & _). destruct b.
    + destruct P as (P1 & P2 & (Pt & _)). cbn [negb]. set (s3 := with_slot _ _ _ _).
      assert (S3 : same_static s s3) by by transitivity s2. pose proof (exact_rate_static s s3 S3 G) as (-> & _).
      eexists _, _. split; [reflexivity|]. split; [done|]. split; [done|]. pose proof S3 as (_ & _ & En & Ed & _).
      unfold slot_in. rewrite En, Ed. cbn [s3 with_slot irec islot]. rewrite P2. rewrite P2 in Hr1.
      split; [split; [by apply next_index|split; [done|lia]]|]. rewrite Pt. change (irec s1) with (irec s) in P1. rewrite P1.
      pose proof R as (_ & _ & _ & _ & (-> & _) & _). nia.
    + exfalso. destruct P as (P1 & _). change (irec s1) with (irec s) in P1.
      destruct (slot_times st t s R Hi Hr) as [[E1 _]|[_ E2]]; [rewrite E1 in P1; by apply eq_sym, next_neq in P1|]. nia.
  - cbn [negb]. set (s3 := with_slot _ _ _ _). assert (S3 : same_static s s3) by done.
    pose proof (exact_rate_static s s3 S3 G) as (-> & _). eexists _, _. split; [reflexivity|]. split; [by left|]. split; [done|].
    split; [split; [done|split; [done|cbn; lia]]|]. cbn. lia.
Qed.

Lemma slotDiff_exact st t s tt :
  recs_ok st t -> exact_rate s -> slot_in st s -> t <= tt < t + 2 * USECS_PER_SEC ->
  slotDiff tt st s = tt - (at2 (_syncTime st) (irec s) + islot s * dtUsec s).
Proof.
  pose proof usecs_value as HU. intros R (_ & Gd & Gn) (Hi & Hr & Hs) Ht. unfold slotDiff, slotTime.
  assert (B : 0 <= islot s * dtUsec s < USECS_PER_SEC) by nia. rewrite (s32_small (islot s * dtUsec s)) by lia.
  destruct (slot_times st t s R Hi Hr) as [[_ ->]|[_ ->]]; rewrite s32_small; lia.
Qed.

(** A sample within its slot stays there. *)
Lemma checkTime_near st t s tt :
  recs_ok st t -> exact_rate s -> slot_at st s tt -> t <= tt < t + 2 * USECS_PER_SEC ->
  exists s', checkTime tt st s = inr (true, st, s') /\ same_static s s' /\ slot_at st s' tt.
Proof.
  pose proof usecs_value as HU. intros R G [I A] Ht. unfold checkTime. set (s1 := if islot s =? 0 then _ else s).
  assert (H1 : same_static s s1 /\ slot_at st s1 tt) by (unfold s1; by destruct (islot s =? 0)). destruct H1 as [S1 [I1 A1]].
  pose proof (exact_rate_static s s1 S1 G) as G1. rewrite (slotDiff_exact st t s1 tt R G1 I1 Ht), A1. destruct G1 as (_ & Gd & Gn).
  pose proof (Z.div_mod tt (dtUsec s1) ltac:(lia)) as Hdm. pose proof (Z.mod_pos_bound tt (dtUsec s1) ltac:(lia)) as Hmb.
  set (td := tt - _). assert (Etd : 0 <= td < dtUsec s1) by (unfold td; lia). destruct (Z.ltb_spec td 0); [lia|]. unfold NSLOT_LIMIT.
  destruct I1 as (I1 & I2 & I3). destruct (Z.ltb_spec (Z.min (2 * dtUsec s1) USECS_PER_SEC) td) as [Hb|_]; [nia|]. unfold checkNear.
  cbn [with_early dtUsec nEarlySamp nLateSamp minDiff]. unfold TDIFF_CHECK_USEC. destruct (Z.ltb_spec (dtUsec s1 + 2 * 1000) td); [lia|].
  eexists. split; [reflexivity|]. by split.
Qed.

(** A sample more than two slots later gets the slot of its time. *)
Lemma checkTime_gap st t s tt :
  recs_ok st t -> exact_rate s -> slot_in st s ->
  at2 (_syncTime st) (irec s) + islot s * dtUsec s + 2 * dtUsec s < tt < t + 2 * USECS_PER_SEC -> t <= tt ->
  exists st' s', checkTime tt st s = inr (true, st', s') /\ opened st st' /\ same_static s s' /\ slot_at st' s' tt.
Proof.
  intros R G I Ht Hlo. unfold checkTime. set (s1 := if islot s =? 0 then _ else s).
  assert (H1 : same_static s s1 /\ slot_in st s1 /\ islot s1 = islot s /\ irec s1 = irec s) by (unfold s1; by destruct (islot s =? 0)).
  destruct H1 as (S1 & I1 & E1 & E2). pose proof (exact_rate_static s s1 S1 G) as G1.
  assert (Ed : dtUsec s1 = dtUsec s) by apply S1.
  rewrite (slotDiff_exact st t s1 tt R G1 I1), E1, E2, Ed by lia. set (td := tt - _). pose proof G as (_ & Gd & _).
  assert (Etd : 2 * dtUsec s < td) by (unfold td; lia). destruct (Z.ltb_spec td 0); [lia|]. unfold NSLOT_LIMIT.
  destruct (Z.ltb_spec (Z.min (2 * dtUsec s) USECS_PER_SEC) td) as [_|Hb]; [|lia]. unfold checkGap.
  destruct I1 as (J1 & J2 & J3). rewrite E2 in J2.
  destruct (computeSlotIndex_exact st t tt s1 R G1 J1 ltac:(by rewrite E2)) as (st2 & s2 & -> & O2 & S2 & A2).
  { rewrite E2. split; [|lia]. assert (0 <= islot s * dtUsec s) by (destruct I as (_ & _ & ?); nia). lia. }
  eexists _, _. split; [reflexivity|]. split; [done|]. split; [by transitivity s2; [transitivity s1|]|done].
Qed.

(** ** Where the next sample goes *)

(** A sample of time [tt] comes after one of time [u]. *)
Definition follows (dt u tt : Z) : bool := (tt / dt =? u / dt + 1) || ((u / dt + 3) * dt <? tt).

(** The slot of the last sample, or none in the current record. *)
Definition placed (st : SyncRecordSource) (s : SyncInfo) (last : option Z) : Prop :=
  islot s = -1 /\ irec s = _current st \/ exists u, last = Some u /\ slot_at st s u.

Lemma slot_at_opened st st' t s tt : recs_ok st t -> opened st st' -> slot_at st s tt -> slot_at st' s tt.
Proof.
  intros R O [I A]. destruct (opened_ok st st' t R O) as (R' & _ & Ec & _). pose proof (slot_in_opened st st' t s R O I) as I'.
  split; [done|]. rewrite <- A. f_equal. destruct I as (I1 & I2 & _), I' as (_ & I2' & _). pose proof R as (Hc & _).
  destruct (slot_times st t s R I1 I2) as [[E1 ->]|[E1 ->]], (slot_times st' t s R' I1 I2') as [[E1' ->]|[E1' ->]]; try done;
    rewrite Ec in E1'; rewrite E1 in E1'; [by apply eq_sym, next_neq in E1'|by apply next_neq in E1'].
Qed.

Lemma place_exact tt st t s last :
  live st t -> exact_rate s -> placed st s last -> t <= tt < t + 2 * USECS_PER_SEC ->
  (forall u, last = Some u -> follows (dtUsec s) u tt = true) ->
  exists st' s', (let! (st, s) := (if islot s <? 0 then computeSlotIndex tt st s
      else let! (ok, st, s) := incrementSlot st s in inr (st, if ok : bool then s else mark_over s)) in checkTime tt st s) = inr (true, st', s') /\
    opened st st' /\ same_static s s' /\ slot_at st' s' tt.
Proof.
  intros (R & _) G P Htt Hf. pose proof G as (_ & Gd & Gn). pose proof R as (Hc & _ & _ & _ & (Hct & rc & Hrc & _) & _).
  destruct P as [[E1 E2]|(u & Hu & [I A])].
  - rewrite E1. cbn [Z.ltb Z.compare]. 
    destruct (computeSlotIndex_exact st t tt s R G) as (st1 & s1 & -> & O1 & S1 & A1); [by rewrite E2|by rewrite E2, Hrc|rewrite E2, Hct; lia|].
    destruct (opened_ok st st1 t R O1) as (R1 & _).
    destruct (checkTime_near st1 t s1 tt R1 (exact_rate_static s s1 S1 G) A1 Htt) as (s2 & -> & S2 & A2).
    eexists _, _. split; [reflexivity|]. split; [done|]. split; [by transitivity s1|done].
  - specialize (Hf u Hu). pose proof I as (_ & _ & I3). destruct (Z.ltb_spec (islot s) 0); [lia|].
    assert (Hdm : tt / dtUsec s * dtUsec s <= tt) by (rewrite Z.mul_comm; apply Z.mul_div_le; lia).
    assert (Hlt : u / dtUsec s * dtUsec s + dtUsec s <= tt).
    { unfold follows in Hf. apply orb_true_iff in Hf as [Hf%Z.eqb_eq|Hf%Z.ltb_lt]; [rewrite Hf in Hdm|]; lia. }
    destruct (incrementSlot_exact st t s R G I ltac:(lia)) as (st1 & s1 & -> & O1 & S1 & I1 & A1).
    destruct (opened_ok st st1 t R O1) as (R1 & _). pose proof (exact_rate_static s s1 S1 G) as G1.
    assert (Ed : dtUsec s1 = dtUsec s) by apply S1. rewrite A in A1. unfold follows in Hf. apply orb_true_iff in Hf as [Hf%Z.eqb_eq|Hf%Z.ltb_lt].
    + destruct (checkTime_near st1 t s1 tt R1 G1) as (s2 & -> & S2 & A2); [split; [done|]; rewrite A1, Ed, Hf; lia|done|].
      eexists _, _. split; [reflexivity|]. split; [done|]. split; [by transitivity s1|done].
    + destruct (checkTime_gap st1 t s1 tt R1 G1 I1) as (st2 & s2 & -> & O2 & S2 & A2); [rewrite A1, Ed; lia|lia|].
      eexists _, _. split; [reflexivity|]. split; [by eapply opened_trans|]. split; [by transitivity s1|done].
Qed.

Lemma advanceRecord_placed st t tt i s last :
  live st t -> sm_find i (_syncInfo st) = Some s -> placed st s last ->
  exists s', sm_find i (_syncInfo (advanceRecord tt st)) = Some s' /\ same_static s s' /\ placed (advanceRecord tt st) s' last.
Proof.
  intros (R & _) Hf Hp. pose proof R as (Hc & _ & _ & _ & (Hct & rc & Hrc & Hrt & _) & Ho). exists (infoAdvance (_current st) s).
  unfold advanceRecord. rewrite (sendSyncRecord_some st rc Hrc). set (c := _current st) in *.
  cbn [with_records _current _syncTime _syncRecord s_out]. set (n := nextRecordIndex c) in *. set (st1 := with_records _ _ _ _ _).
  set (st2 := allocateRecord n tt st1). assert (E2 : _syncInfo st2 = _syncInfo st /\ _current st2 = n).
  { unfold st2, allocateRecord. by destruct (at2 (_syncRecord st1) n). }
  destruct E2 as [E2 E3]. cbn [with_infos _syncInfo]. rewrite E2, sm_find_map, Hf. split; [done|]. split; [apply infoAdvance_static|].
  unfold infoAdvance. destruct (Z.eqb_spec (irec s) c) as [E|E]; [left; split; [done|]; cbn [with_slot irec with_infos _current]; by rewrite E3|].
  destruct Hp as [[_ Hp]|(u & Hu & (I1 & I2 & I3) & A)]; [done|]. right. exists u. split; [done|].
  assert (En : irec s = n) by by destruct (index_cases _ _ Hc I1). rewrite En in I2, A. destruct I2 as [r Hr].
  assert (Es : st2 = st1). { unfold st2, allocateRecord. cbn [st1 with_records _syncRecord]. unfold n. rewrite at2_set2_next by done. fold n. by rewrite Hr. }
  unfold slot_at, slot_in. cbn [with_infos _syncRecord _syncTime]. rewrite Es, En. cbn [st1 with_records _syncRecord _syncTime].
  unfold n. rewrite !at2_set2_next by done. fold n. rewrite Hr. split; [|done]. split; [by apply next_index|]. by split.
Qed.

Lemma trigger_later st t : live st t -> t + USECS_PER_SEC <= triggerTime st.
Proof. intros ((_ & _ & _ & _ & (E & _) & _) & _). unfold triggerTime. rewrite E. lia. Qed.

Lemma advanceLoop_evolves (P : SyncRec -> SyncRec -> Prop) tt fuel : forall st t st',
  (forall r, P r r) -> (forall a b c, P a b -> P b c -> P a c) -> live st t -> tt <= 2 ^ 62 -> advanceLoop fuel tt st = inr st' ->
  evolves P st st' /\ _recSize st' = _recSize st /\
  forall i s last, sm_find i (_syncInfo st) = Some s -> placed st s last ->
    exists s', sm_find i (_syncInfo st') = Some s' /\ same_static s s' /\ placed st' s' last.
Proof.
  induction fuel as [|fuel IH]; intros st t st' HP HT L Htt; cbn [advanceLoop]; [done|].
  destruct (Z.leb_spec (triggerTime st) tt) as [Hge|_].
  - pose proof (trigger_later st t L) as Htr. intros E. destruct (advanceRecord_live st t tt L ltac:(lia)) as (t1 & L1 & _).
    destruct (advanceRecord_evolves P st t tt HP L ltac:(lia)) as [E1 Z1]. destruct (IH _ _ _ HP HT L1 Htt E) as (E2 & Z2 & K2).
    split; [by eapply evolves_trans|]. split; [congruence|]. intros i s last Hf Hp.
    destruct (advanceRecord_placed st t tt i s last L Hf Hp) as (s1 & Hf1 & S1 & P1). destruct (K2 i s1 last Hf1 P1) as (s2 & Hf2 & S2 & P2).
    exists s2. split; [done|]. split; [by transitivity s1|done].
  - intros [= <-]. split; [by apply evolves_refl|]. split; [done|]. intros i s last Hf Hp. by exists s.
Qed.

(** ** Changed data *)

(** Data agree in the cells [P]. *)
Definition agree (P : Z -> Prop) (r r' : SyncRec) : Prop := forall a, P a -> zget (sr_data r') a = zget (sr_data r) a.

Lemma agree_refl P r : agree P r r.
Proof. by intros a. Qed.

Lemma agree_trans P a b c : agree P a b -> agree P b c -> agree P a c.
Proof. intros H1 H2 x Hx. by rewrite H2, H1. Qed.

Lemma put_data_recs st t i r data u r' :
  live st t -> index i -> at2 (_syncRecord st) i = Some r -> zlen data = _recSize st ->
  r' ∈ all_recs (put_data st i r data u) <-> r' = mkSyncRec (sr_time r) data \/ r' ∈ all_recs st /\ sr_time r' <> sr_time r.
Proof.
  pose proof usecs_value as HU. intros (R & _ & _ & (_ & Hs)) Hi Hr Hd. pose proof R as (Hc & _).
  destruct (put_data_ok st t i r data u R Hi Hr Hd) as [_ K]. rewrite !all_recs_in by done. cbn [put_data with_stats with_records s_out].
  assert (Ho : forall j r0, index j -> at2 (_syncRecord st) j = Some r0 -> j <> i -> sr_time r0 <> sr_time r).
  { intros j r0 Hj H0 Hne. destruct (rec_slot st t i r R Hi Hr) as (_ & _ & [[E1 E2]|[E1 E2]]);
      destruct (rec_slot st t j r0 R Hj H0) as (_ & _ & [[F1 F2]|[F1 F2]]); try lia; congruence. }
  assert (Hold : forall r0, r0 ∈ s_out st -> sr_time r0 <> sr_time r).
  { intros r0 H0. rewrite Forall_forall in Hs. destruct (Hs r0 H0). destruct (rec_slot st t i r R Hi Hr) as (_ & _ & [[_ E]|[_ E]]); lia. }
  split.
  - intros [H|(j & Hj & H)]; [right; split; [by left|by apply Hold]|]. rewrite K in H by done. destruct (Z.eqb_spec j i) as [->|Hne].
    + left. by injection H as <-.
    + right. split; [right; by exists j|by eapply Ho].
  - intros [->|[[H|(j & Hj & H)] Hne]]; [right|by left|right].
    + exists i. split; [done|]. rewrite K by done. by rewrite Z.eqb_refl.
    + exists j. split; [done|]. rewrite K by done. destruct (Z.eqb_spec j i) as [->|_]; [|done]. congruence.
Qed.

Lemma put_data_evolves P st t i r data u :
  live st t -> index i -> at2 (_syncRecord st) i = Some r -> zlen data = _recSize st ->
  agree P r (mkSyncRec (sr_time r) data) -> evolves (agree P) st (put_data st i r data u).
Proof.
  intros L Hi Hr Hd Ha. pose proof (proj1 L) as (Hc & _). assert (Hin : r ∈ all_recs st) by (apply all_recs_in; [done|]; right; by exists i).
  split.
  - intros r' [->|[H Hne]]%(put_data_recs st t i r data u r' L Hi Hr Hd).
    + exists r. split; [done|]. split; [done|]. by left.
    + exists r'. split; [done|]. split; [apply agree_refl|]. by left.
  - intros r0 H0. destruct (Z.eq_dec (sr_time r0) (sr_time r)) as [E|Hne].
    + exists (mkSyncRec (sr_time r) data). split; [|done]. apply (put_data_recs st t i r data u _ L Hi Hr Hd). by left.
    + exists r0. split; [|done]. apply (put_data_recs st t i r data u _ L Hi Hr Hd). by right.
Qed.

(** A sample changes cells of its row only. *)
Definition in_row (s : SyncInfo) (a : Z) : Prop := sampleSRIndex s <= a < sampleSRIndex s + sampleLength s.

Lemma stored_outside samp s data data' a :
  row_ok s -> good_rate s -> 0 <= islot s < nSlots s -> 0 <= sampleSRIndex s -> sampleSRIndex s + sampleLength s <= zlen data ->
  stored samp s data data' -> 0 <= a -> ~ in_row s a -> zget data' a = zget data a.
Proof.
  intros W G Hs H0 Hn Hst Ha Hout. pose proof (row_ok_length s W G) as Hl. unfold stored in Hst. set (d0 := store _ _ _) in Hst.
  assert (E1 : zlen [Dbl.ofZ (minDiff s)] = 1) by done.
  assert (E0 : zget d0 a = zget data a).
  { unfold d0. rewrite store_get, E1; [|done|lia|done]. unfold in_row in Hout.
    destruct (Z.leb_spec (sampleSRIndex s) a); destruct (Z.ltb_spec a (sampleSRIndex s + 1)); cbn [andb]; try done. lia. }
  destruct (numeric (is_type samp)); [|by subst data']. unfold row_ok in W.
  destruct (copyVariables_get (nSlots s) (zlen data) (islot s) _ _ _ _ (is_values samp) d0 data' W) as [K _]; try lia; try done.
  { unfold d0. rewrite store_len; [done|done|lia]. }
  rewrite K; [done|done|]. unfold in_row in Hout. lia.
Qed.

Lemma rows_disjoint infos : forall lo hi i j s s', 
  (forall k s', sm_find k infos = Some s' -> 1 <= sampleLength s') -> sm_wf infos -> rows_ok lo infos hi ->
  sm_find i infos = Some s -> sm_find j infos = Some s' -> i <> j ->
  sampleSRIndex s + sampleLength s <= sampleSRIndex s' \/ sampleSRIndex s' + sampleLength s' <= sampleSRIndex s.
Proof.
  induction infos as [|[k s0] infos IH]; intros lo hi i j s s' Hl Hw; cbn [rows_ok sm_find]; [done|]. intros [E R].
  assert (Hw' : sm_wf infos) by by inversion Hw.
  assert (Hl' : forall j0 s', sm_find j0 infos = Some s' -> 1 <= sampleLength s').
  { intros j0 s1 H0. apply (Hl j0). cbn. destruct (Z.eqb_spec j0 k) as [->|]; [|done]. exfalso.
    rewrite sm_find_above in H0; [done|]. by inversion Hw. }
  destruct (Z.eqb_spec i k) as [->|Hi], (Z.eqb_spec j k) as [->|Hj]; intros F1 F2 Hne; try done.
  - injection F1 as ->. destruct (rows_ok_find _ _ _ _ _ Hl' Hw' R F2). lia.
  - injection F2 as ->. destruct (rows_ok_find _ _ _ _ _ Hl' Hw' R F1). lia.
  - by eapply IH.
Qed.

(** ** One sample *)

Lemma advanceLoop_find i tt fuel : forall st st',
  advanceLoop fuel tt st = inr st' -> is_Some (sm_find i (_syncInfo st)) -> is_Some (sm_find i (_syncInfo st')).
Proof.
  induction fuel as [|fuel IH]; intros st st'; cbn [advanceLoop]; [done|]. destruct (_ <=? _); [|by intros [= <-]]. intros E Hf.
  apply (IH _ _ E). unfold advanceRecord. cbn [with_infos _syncInfo]. rewrite sm_find_map, fmap_is_Some.
  unfold allocateRecord. destruct (at2 _ _); cbn; unfold sendSyncRecord; by destruct (at2 _ _).
Qed.

(** The state before a sample of time [tt]. *)
Definition ready (st : SyncRecordSource) (tt : Z) : Prop := idle st \/ exists t, live st t /\ t <= tt.

(** What holds of every sample's slot after a change of the records. *)
Definition keeps (st st' : SyncRecordSource) (P : Z -> Prop) : Prop :=
  forall i s last, P i -> sm_find i (_syncInfo st) = Some s -> placed st s last ->
    exists s', sm_find i (_syncInfo st') = Some s' /\ same_static s s' /\ placed st' s' last.

Lemma idle_recs st : idle st -> all_recs st = [].
Proof. intros (_ & E & _ & _ & Eo & _). unfold all_recs, at2. rewrite E, Eo. by destruct (_ =? 0), (_ =? 0). Qed.

Lemma idle_evolves (P : SyncRec -> SyncRec -> Prop) st tt :
  (forall r, P r r) -> idle st -> 0 <= tt -> evolves P st (allocateRecord (_current st) tt st).
Proof.
  intros HP Hid Htt. pose proof (idle_recs st Hid) as E0. destruct Hid as (Hc & Er & _ & _ & Eo & _).
  unfold allocateRecord. rewrite Er. replace (at2 (None, None) (_current st)) with (@None SyncRec) by (by destruct Hc as [-> | ->]).
  set (u := tt - Z.rem tt USECS_PER_SEC). set (st' := with_records _ _ _ _ _). assert (Ea : all_recs st' = [nan_rec st u]).
  { unfold all_recs, st'. cbn [with_records s_out _syncRecord _current _recSize]. rewrite Eo, at2_set2, at2_set2_next by done. by destruct Hc as [-> | ->]. }
  split; rewrite E0, Ea.
  - intros r' ->%list_elem_of_singleton. exists (nan_rec st u). split; [done|]. split; [done|]. right. split; [done|].
    by intros r0 ?%not_elem_of_nil.
  - by intros r ?%not_elem_of_nil.
Qed.

Lemma placed_put_info st i s0 s1 j s last :
  sm_find i (_syncInfo st) = Some s0 -> same_static s0 s1 -> islot s1 = islot s0 -> irec s1 = irec s0 ->
  sm_find j (_syncInfo st) = Some s -> placed st s last ->
  exists s', sm_find j (_syncInfo (put_info i s1 st)) = Some s' /\ same_static s s' /\ placed (put_info i s1 st) s' last.
Proof.
  intros Hf S E1 E2 Hj Hp. unfold put_info at 1. cbn [with_infos _syncInfo]. rewrite sm_find_set. destruct (Z.eqb_spec j i) as [->|_]; [|by exists s].
  assert (s = s0) as -> by congruence. exists s1. split; [done|]. split; [done|]. unfold placed, slot_at, slot_in in *. rewrite E1, E2.
  destruct S as (_ & _ & -> & -> & _). exact Hp.
Qed.

(** [receive] up to the choice of a slot. *)
Lemma receive_start (P : SyncRec -> SyncRec -> Prop) samp st s :
  (forall r, P r r) -> (forall a b c, P a b -> P b c -> P a c) ->
  ready st (is_tt samp) -> 0 <= is_tt samp <= 2 ^ 62 -> sm_find (is_id samp) (_syncInfo st) = Some s ->
  exists st4 t4 s4, receive samp st = placeSample samp st4 s4 /\ live st4 t4 /\ t4 <= is_tt samp < t4 + 2 * USECS_PER_SEC /\
    sm_find (is_id samp) (_syncInfo st4) = Some s4 /\ evolves P st st4 /\ _recSize st4 = _recSize st /\ keeps st st4 (fun _ => True).
Proof.
  intros HP HT Hok Htt Hf. unfold receive. rewrite Hf. set (s1 := with_counts s _ _ _ _ _). set (st1 := put_info (is_id samp) s1 st).
  set (st2 := allocateRecord (_current st1) (is_tt samp) st1).
  assert (Hf1 : sm_find (is_id samp) (_syncInfo st1) = Some s1) by (cbn [st1 put_info with_infos _syncInfo]; by rewrite sm_find_set, Z.eqb_refl).
  assert (Ei : _syncInfo st2 = _syncInfo st1) by (unfold st2, allocateRecord; by destruct (at2 (_syncRecord st1) (_current st1))).
  assert (A : exists t, live st2 t /\ t <= is_tt samp /\ evolves P st st2 /\ _recSize st2 = _recSize st /\ keeps st st2 (fun _ => True)).
  { destruct Hok as [Hid|(t & L & Ht)].
    - pose proof Hid as (A1 & A2 & A3 & A4 & A6 & A5). assert (Hid1 : idle st1).
      { split_and!; try done. apply (infos_ok_set st _ _ s); try done. by destruct A5 as (_ & _ & A5); destruct (A5 _ _ Hf) as (_ & _ & ?). }
      eexists. split; [by apply idle_live|]. pose proof (Z.mod_pos_bound (is_tt samp) USECS_PER_SEC ltac:(done)).
      split; [lia|]. split; [exact (idle_evolves P st1 (is_tt samp) HP Hid1 (proj1 Htt))|].
      split; [unfold st2, allocateRecord; by destruct (at2 (_syncRecord st1) (_current st1))|]. intros i si last _ Hi _.
      destruct (placed_put_info st _ s s1 i si None Hf ltac:(done) eq_refl eq_refl Hi) as (s' & E' & S' & [Q|(? & ? & _)]); [| |done].
      { left. destruct A5 as (_ & _ & A5). destruct (A5 _ _ Hi) as (_ & _ & ? & ?). by split. }
      exists s'. rewrite Ei. split; [done|]. split; [done|]. left. destruct Q as [-> ->]. split; [done|].
      unfold st2, allocateRecord. by destruct (at2 (_syncRecord st1) (_current st1)).
    - assert (L1 : live st1 t). { apply (live_put st t _ s); try done. by destruct (live_row st t _ s L Hf) as (_ & _ & ? & _). }
      assert (Es : st2 = st1). { unfold st2, allocateRecord. pose proof (proj1 L1) as (_ & _ & _ & _ & (_ & r & -> & _) & _). done. }
      rewrite Es. exists t. split; [done|]. split; [done|]. split; [by apply evolves_same|]. split; [done|]. intros i si last _.
      by apply (placed_put_info st _ s s1). }
  destruct A as (t & L & Ht & Ev & Ez & Kp). assert (Hct : at2 (_syncTime st2) (_current st2) = t) by (by destruct L as ((_ & _ & _ & _ & (? & _) & _) & _)).
  rewrite Hct. destruct (Z.ltb_spec (is_tt samp) t); [lia|]. set (st3 := if _ && _ then _ else st2).
  assert (A3 : live st3 t /\ all_recs st3 = all_recs st2 /\ _recSize st3 = _recSize st2 /\ _syncInfo st3 = _syncInfo st2 /\ keeps st2 st3 (fun _ => True)).
  { unfold st3. destruct (_ && _); split_and!; try done; intros i si last _ Hi Hp; by exists si. }
  destruct A3 as (L3 & Ea3 & Ez3 & Ei3 & Kp3).
  destruct (advanceLoop_live st3 t (is_tt samp) L3 ltac:(lia)) as (st4 & t4 & E4 & L4 & B4 & _). rewrite E4.
  destruct (advanceLoop_evolves P (is_tt samp) 4 st3 t st4 HP HT L3 ltac:(lia) E4) as (Ev4 & Ez4 & Kp4).
  assert (Kall : keeps st st4 (fun _ => True)).
  { intros i si last _ Hi Hp. destruct (Kp i si last I Hi Hp) as (sa & Ha & Sa & Pa). destruct (Kp3 i sa last I Ha Pa) as (sb & Hb & Sb & Pb).
    destruct (Kp4 i sb last Hb Pb) as (sc & Hc & Sc & Pc). exists sc. split; [done|]. split; [|done]. by transitivity sb; [transitivity sa|]. }
  assert (H4 : exists s4, sm_find (is_id samp) (_syncInfo st4) = Some s4) by (eapply advanceLoop_find; [exact E4|]; rewrite Ei3, Ei; by eexists).
  destruct H4 as [s4 H4]. rewrite H4. exists st4, t4, s4. split; [done|]. split; [done|]. split; [done|]. split; [done|]. split; [|split; [congruence|done]].
  eapply evolves_trans; [exact HT| |exact Ev|]; [done|]. eapply evolves_trans; [exact HT| |by apply evolves_same|exact Ev4]. done.
Qed.

(** The slot of a sample, and whether it is kept. *)
Definition chooseSlot (tt : Z) (st : SyncRecordSource) (s : SyncInfo) : result (bool * SyncRecordSource * SyncInfo) :=
  let! (st, s) := (if islot s <? 0 then computeSlotIndex tt st s
    else let! (ok, st, s) := incrementSlot st s in inr (st, if ok : bool then s else mark_over s)) in checkTime tt st s.

Lemma chooseSlot_spec tt st t s :
  live st t -> good_rate s -> slot_dyn st s -> t <= tt < t + 2 * USECS_PER_SEC ->
  exists b st' s', chooseSlot tt st s = inr (b, st', s') /\ opened st st' /\ same_static s s' /\ slot_in st' s'.
Proof.
  intros L G D Htt. unfold chooseSlot. destruct (firstSlot_spec tt st t s L G D Htt) as (st1 & s1 & -> & O1 & S1 & I1).
  pose proof (live_opened st st1 t L O1) as L1.
  destruct (checkTime_spec st1 t tt s1 (proj1 L1) (good_rate_static s s1 S1 G) I1 Htt) as (b & st2 & s2 & -> & O2 & S2 & I2).
  eexists _, _, _. split; [reflexivity|]. split; [eapply opened_trans; [exact (proj1 L)|done..]|]. split; [by transitivity s1|done].
Qed.

(** A sample is discarded, or it is stored in its slot. *)
Lemma placeSample_store samp st t s b st2 s2 :
  live st t -> sm_find (is_id samp) (_syncInfo st) = Some s -> t <= is_tt samp < t + 2 * USECS_PER_SEC ->
  chooseSlot (is_tt samp) st s = inr (b, st2, s2) -> opened st st2 -> same_static s s2 -> slot_in st2 s2 ->
  exists st3 s3, placeSample samp st s = inr (b, put_info (is_id samp) s3 st3) /\ same_static s s3 /\ islot s3 = islot s2 /\ irec s3 = irec s2 /\
    if b then exists r data u, at2 (_syncRecord st2) (irec s2) = Some r /\ zlen data = _recSize st2 /\ stored samp s2 (sr_data r) data /\
                st3 = put_data st2 (irec s2) r data u
    else st3 = st2.
Proof.
  intros L Hf Htt E O S I. destruct (live_row st t _ s L Hf) as (W & G & D & H0 & Hn). unfold placeSample. unfold chooseSlot in E.
  destruct (if islot s <? 0 then _ else _) as [?|[st1 s1]]; [done|]. rewrite E. destruct b; cbn [negb]; [|eexists _, s2; split; [reflexivity|by split_and!]].
  pose proof (live_opened st st2 t L O) as L2. destruct (opened_ok st st2 t (proj1 L) O) as (_ & _ & _ & Ez & _).
  destruct (storeSample_eq samp st2 t s2 (proj1 L2)) as (r & data & u & Er & -> & El & Hst);
    [by eapply row_ok_static|by eapply good_rate_static|done| | |].
  { by destruct S as (_ & _ & _ & _ & _ & _ & -> & _). }
  { by destruct S as (_ & _ & _ & _ & _ & -> & -> & _); rewrite Ez. }
  eexists _, _. split; [reflexivity|]. split; [by transitivity s2|]. split; [done|]. split; [done|]. exists r, data, u. by split_and!.
Qed.

Lemma placed_opened st st' t s last : recs_ok st t -> opened st st' -> placed st s last -> placed st' s last.
Proof.
  intros R O [[E1 E2]|(u & Hu & A)]; [left|right].
  - destruct (opened_ok st st' t R O) as (_ & _ & -> & _). done.
  - exists u. split; [done|]. by eapply slot_at_opened.
Qed.

Lemma placed_put_data st t i r data u s last :
  recs_ok st t -> index i -> at2 (_syncRecord st) i = Some r -> zlen data = _recSize st -> placed st s last -> placed (put_data st i r data u) s last.
Proof.
  intros R Hi Hr Hd [?|(v & Hv & (I1 & I2 & I3) & A)]; [by left|right]. exists v. split; [done|]. split; [|done].
  split; [done|]. split; [by eapply put_data_some|done].
Qed.

(** The samples of other ids leave the row of [i] and its slot. *)
Lemma receive_other samp st i s last :
  ready st (is_tt samp) -> 0 <= is_tt samp <= 2 ^ 62 -> is_id samp <> i -> sm_find i (_syncInfo st) = Some s -> placed st s last ->
  exists b st' s', receive samp st = inr (b, st') /\ ready st' (is_tt samp) /\ sm_find i (_syncInfo st') = Some s' /\ same_static s s' /\
    placed st' s' last /\ _recSize st' = _recSize st /\ evolves (agree (in_row s)) st st'.
Proof.
  intros Hok Htt Hne Hi Hp. destruct (sm_find (is_id samp) (_syncInfo st)) as [sy|] eqn:Hf.
  2: { exists false, st, s. unfold receive. rewrite Hf. split_and!; try done. apply evolves_refl. by intros r. }
  destruct (receive_start (agree (in_row s)) samp st sy (agree_refl _) (agree_trans _) Hok Htt Hf)
    as (st4 & t4 & s4 & -> & L4 & B4 & Hf4 & Ev & Ez & Kp).
  destruct (Kp i s last I Hi Hp) as (s5 & Hi4 & S5 & P5). destruct (live_row st4 t4 _ s4 L4 Hf4) as (W & G & D & H0 & Hn).
  destruct (chooseSlot_spec (is_tt samp) st4 t4 s4 L4 G D B4) as (b & st2 & s2 & E2 & O2 & S2 & I2).
  destruct (placeSample_store samp st4 t4 s4 b st2 s2 L4 Hf4 B4 E2 O2 S2 I2) as (st3 & s3 & Ep & S3 & _ & _ & Q).
  destruct (placeSample_live samp st4 t4 s4 L4 Hf4 B4) as (b' & st' & Ep' & L'). rewrite Ep in Ep'. injection Ep' as <- <-.
  pose proof (live_opened st4 st2 t4 L4 O2) as L2. destruct (opened_ok st4 st2 t4 (proj1 L4) O2) as (_ & Ei2 & _ & Ez2 & _).
  assert (Hdis : forall a, in_row s a -> 0 <= a /\ ~ in_row s2 a).
  { intros a Ha. destruct L4 as (_ & _ & (Wf & Rw & F) & _).
    assert (Hl : forall j s', sm_find j (_syncInfo st4) = Some s' -> 1 <= sampleLength s').
    { intros j s' Hj. destruct (F j s' Hj) as (F1 & F2 & _). by apply row_ok_length. }
    destruct (rows_ok_find _ _ _ _ _ Hl Wf Rw Hi4). pose proof (rows_disjoint _ _ _ _ _ _ _ Hl Wf Rw Hf4 Hi4 Hne) as Hdj.
    unfold in_row in *. destruct S2 as (_ & _ & _ & _ & _ & -> & -> & _). destruct S5 as (_ & _ & _ & _ & _ & Q1 & Q2 & _). rewrite Q1, Q2 in *. lia. }
  assert (T : _syncInfo st3 = _syncInfo st4 /\ placed st3 s5 last /\ _recSize st3 = _recSize st /\ evolves (agree (in_row s)) st4 st3).
  { pose proof (opened_evolves _ st4 st2 t4 (agree_refl (in_row s)) L4 O2) as Ev2.
    pose proof (placed_opened st4 st2 t4 s5 last (proj1 L4) O2 P5) as P2. destruct b; [|subst st3; split_and!; try done; congruence].
    destruct Q as (r & data & u & Er & El & Hst & ->). pose proof I2 as (J1 & J2 & J3).
    split; [done|]. split; [eapply placed_put_data; [exact (proj1 L2)|done..]|]. split; [cbn; congruence|].
    eapply evolves_trans; [apply agree_trans|exact Ez2|exact Ev2|]. eapply put_data_evolves; [done..|]. intros a Ha. cbn [sr_data].
    destruct (Hdis a Ha) as [Ha0 Hout]. destruct (rec_slot st2 t4 _ r (proj1 L2) J1 Er) as (Elen & _).
    apply (stored_outside samp s2); [by eapply row_ok_static|by eapply good_rate_static|done| | |done..].
    - by destruct S2 as (_ & _ & _ & _ & _ & _ & -> & _).
    - rewrite Elen, Ez2. by destruct S2 as (_ & _ & _ & _ & _ & -> & -> & _). }
  destruct T as (T1 & T2 & T3 & T4). exists b, (put_info (is_id samp) s3 st3), s5. split; [done|]. split; [right; exists t4; split; [done|lia]|].
  split; [cbn [put_info with_infos _syncInfo]; rewrite sm_find_set, T1; destruct (Z.eqb_spec i (is_id samp)); [congruence|done]|].
  split; [done|]. split; [done|]. split; [done|]. eapply evolves_trans; [apply agree_trans|exact Ez|exact Ev|]. exact T4.
Qed.

(** The second of a time. *)
Definition second (tt : Z) : Z := tt - tt mod USECS_PER_SEC.

Lemma slot_second dt n T j tt :
  1 <= dt -> n * dt = USECS_PER_SEC -> (USECS_PER_SEC | T) -> 0 <= j < n -> tt / dt = T / dt + j -> second tt = T.
Proof.
  intros Hd Hn [k ->] Hj E. unfold second. rewrite <- Hn in *. replace (k * (n * dt)) with (k * n * dt) in E |- * by lia.
  rewrite Z.div_mul in E by lia. pose proof (Z.div_mod tt dt ltac:(lia)) as Hm. pose proof (Z.mod_pos_bound tt dt ltac:(lia)) as Hb.
  rewrite (Z.mod_eq tt (n * dt)) by nia. rewrite (Z.mul_comm n dt) at 2. rewrite <- Z.div_div, E by lia.
  rewrite (Z.add_comm (k * n)), Z.div_add, Z.div_small by lia. lia.
Qed.

Lemma slot_at_second st t s tt :
  recs_ok st t -> exact_rate s -> slot_at st s tt ->
  at2 (_syncTime st) (irec s) = second tt /\ tt / dtUsec s = second tt / dtUsec s + islot s.
Proof.
  intros R (_ & Gd & Gn) [(I1 & I2 & I3) A]. assert (D : (USECS_PER_SEC | at2 (_syncTime st) (irec s))).
  { assert (D : (USECS_PER_SEC | t)) by apply R. destruct (slot_times st t s R I1 I2) as [[_ ->]|[_ ->]]; [done|]. by apply Z.divide_add_r; [|exists 1]. }
  assert (E : tt / dtUsec s = at2 (_syncTime st) (irec s) / dtUsec s + islot s).
  { destruct D as [k E]. rewrite E in A |- *. rewrite <- Gn in *. replace (k * (nSlots s * dtUsec s)) with (k * nSlots s * dtUsec s) in * by lia.
    rewrite Z.div_mul by lia. apply (Z.mul_reg_r _ _ (dtUsec s)); lia. }
  rewrite (slot_second _ _ _ _ _ Gd Gn D I3 E). done.
Qed.

(** The cell of a variable in a record. *)
Definition cell (s : SyncInfo) (i : nat) (j e : Z) (a : Z) : Prop :=
  exists ix len, varSRIndex s !! i = Some ix /\ varLengths s !! i = Some len /\ 0 <= e < len /\ 0 <= j < nSlots s /\ a = ix + len * j + e.

Lemma vars_ok_cell n ixs : forall lens lo hi i ix len j e,
  vars_ok lo n ixs lens hi -> ixs !! i = Some ix -> lens !! i = Some len -> 0 <= e < len -> 0 <= j < n -> lo <= ix + len * j + e < hi.
Proof.
  induction ixs as [|y ixs IH]; intros [|l lens] lo hi i ix len j e; cbn [vars_ok]; try done. intros (-> & Hl & Hv).
  destruct i as [|i]; cbn.
  - intros [= <-] [= <-] He Hj. pose proof (vars_ok_le n ixs lens _ _ ltac:(lia) Hv). nia.
  - intros H1 H2 He Hj. specialize (IH _ _ _ _ _ _ _ _ Hv H1 H2 He Hj). nia.
Qed.

Lemma cell_row s i j e a : row_ok s -> cell s i j e a -> sampleSRIndex s + 1 <= a < sampleSRIndex s + sampleLength s.
Proof. intros W (ix & len & H1 & H2 & He & Hj & ->). by eapply vars_ok_cell. Qed.

(** The value of a cell once a sample is stored. *)
Definition value (samp : InSample) (o : Z) : option Dbl.t := if numeric (is_type samp) then zget (is_values samp) o else None.

Lemma stored_cell samp s data data' i j e a :
  row_ok s -> good_rate s -> 0 <= islot s < nSlots s -> 0 <= sampleSRIndex s -> sampleSRIndex s + sampleLength s <= zlen data ->
  stored samp s data data' -> cell s i j e a ->
  zget data' a = match (if j =? islot s then value samp (offset (varLengths s) i + e) else None) with
                 | Some v => Some v
                 | None => zget data a
                 end.
Proof.
  intros W G Hs H0 Hn Hst C. pose proof (cell_row s i j e a W C) as Ha. pose proof (row_ok_length s W G) as Hl. unfold stored in Hst.
  set (d0 := store _ _ _) in Hst. assert (E1 : zlen [Dbl.ofZ (minDiff s)] = 1) by done.
  assert (E0 : zget d0 a = zget data a).
  { unfold d0. rewrite store_get, E1; [|done|lia|lia]. destruct (Z.ltb_spec a (sampleSRIndex s + 1)); [lia|]. by rewrite andb_false_r. }
  unfold value. destruct (numeric (is_type samp)); [|subst data'; by destruct (j =? islot s)]. unfold row_ok in W.
  destruct (copyVariables_get (nSlots s) (zlen data) (islot s) _ _ _ _ (is_values samp) d0 data' W) as [_ K]; try lia; try done.
  { unfold d0. rewrite store_len; [done|done|lia]. }
  destruct C as (ix & len & C1 & C2 & C3 & C4 & ->). rewrite (K i ix len e j C1 C2 C3 C4). by rewrite E0.
Qed.

(** A sample that comes in time is stored in the slot of its time. *)
Lemma receive_own samp st s last :
  ready st (is_tt samp) -> 0 <= is_tt samp <= 2 ^ 62 -> sm_find (is_id samp) (_syncInfo st) = Some s -> exact_rate s -> placed st s last ->
  (forall u, last = Some u -> follows (dtUsec s) u (is_tt samp) = true) ->
  exists st2 t r data st' s', receive samp st = inr (true, st') /\ ready st' (is_tt samp) /\
    sm_find (is_id samp) (_syncInfo st') = Some s' /\ same_static s s' /\ placed st' s' (Some (is_tt samp)) /\ _recSize st' = _recSize st /\
    live st2 t /\ _recSize st2 = _recSize st /\ evolves (agree (in_row s)) st st2 /\ r ∈ all_recs st2 /\ sr_time r = second (is_tt samp) /\
    (forall r', r' ∈ all_recs st' <-> r' = mkSyncRec (second (is_tt samp)) data \/ r' ∈ all_recs st2 /\ sr_time r' <> second (is_tt samp)) /\
    (forall i j e a, cell s i j e a -> zget data a =
       match (if second (is_tt samp) / dtUsec s + j =? is_tt samp / dtUsec s then value samp (offset (varLengths s) i + e) else None) with
       | Some v => Some v
       | None => zget (sr_data r) a
       end).
Proof.
  intros Hok Htt Hf G Hp Hfol.
  destruct (receive_start (agree (in_row s)) samp st s (agree_refl _) (agree_trans _) Hok Htt Hf)
    as (st4 & t4 & s4 & -> & L4 & B4 & Hf4 & Ev & Ez & Kp).
  destruct (Kp _ s last I Hf Hp) as (s5 & Hi4 & S5 & P5). assert (s5 = s4) as -> by congruence.
  destruct (live_row st4 t4 _ s4 L4 Hf4) as (W & Gr & D & H0 & Hn). pose proof (exact_rate_static s s4 S5 G) as G4.
  assert (Ed : dtUsec s4 = dtUsec s) by apply S5.
  destruct (place_exact (is_tt samp) st4 t4 s4 last L4 G4 P5 B4) as (st2 & s2 & E2 & O2 & S2 & A2); [by rewrite Ed|].
  pose proof (proj1 A2) as I2.
  destruct (placeSample_store samp st4 t4 s4 true st2 s2 L4 Hf4 B4 E2 O2 S2 I2) as (st3 & s3 & Ep & S3 & E31 & E32 & (r & data & u & Er & El & Hst & ->)).
  destruct (placeSample_live samp st4 t4 s4 L4 Hf4 B4) as (b' & st' & Ep' & L'). rewrite Ep in Ep'. injection Ep' as <- <-.
  pose proof (live_opened st4 st2 t4 L4 O2) as L2. destruct (opened_ok st4 st2 t4 (proj1 L4) O2) as (_ & Ei2 & _ & Ez2 & _).
  pose proof I2 as (J1 & J2 & J3). destruct (rec_slot st2 t4 _ r (proj1 L2) J1 Er) as (Elen & Ert & _).
  destruct (slot_at_second st2 t4 s2 (is_tt samp) (proj1 L2) (exact_rate_static _ _ S2 G4) A2) as [A3 A4]. rewrite A3 in Ert.
  exists st2, t4, r, data, (put_info (is_id samp) s3 (put_data st2 (irec s2) r data u)), s3.
  split; [done|]. split; [right; exists t4; split; [done|lia]|].
  split; [cbn [put_info with_infos _syncInfo]; by rewrite sm_find_set, Z.eqb_refl|]. split; [by transitivity s4|]. split.
  { right. exists (is_tt samp). split; [done|]. unfold slot_at, slot_in. rewrite E31, E32.
    destruct S3 as (_ & _ & En3 & Ed3 & _), S2 as (_ & _ & En2 & Ed2 & _). rewrite En3, Ed3, <- En2, <- Ed2. split; [|apply A2].
    split; [done|]. split; [|done]. cbn [put_info with_infos _syncRecord]. eapply put_data_some; [exact (proj1 L2)|done..]. }
  split; [cbn; congruence|]. split; [done|]. split; [congruence|].
  split; [eapply evolves_trans; [apply agree_trans|exact Ez|exact Ev|]; eapply opened_evolves; [apply agree_refl|done..]|].
  split; [apply all_recs_in; [by apply L2|]; right; by exists (irec s2)|]. split; [done|]. split.
  - intros r'. rewrite <- Ert. exact (put_data_recs st2 t4 _ r data u r' L2 J1 Er El).
  - intros i j e a C. assert (S02 : same_static s s2) by by transitivity s4.
    assert (C2 : cell s2 i j e a). { destruct S02 as (_ & _ & Q1 & _ & Q2 & _ & _ & Q3 & _). unfold cell. by rewrite Q1, Q2, Q3. }
    rewrite (stored_cell samp s2 (sr_data r) data i j e a); [|exact (row_ok_static s4 s2 S2 W)|exact (good_rate_static s4 s2 S2 Gr)|done| | |done|done].
    + assert (Q : (second (is_tt samp) / dtUsec s + j =? is_tt samp / dtUsec s) = (j =? islot s2)).
      { assert (Q : dtUsec s2 = dtUsec s) by apply S02. rewrite Q in A4. rewrite A4. apply eq_true_iff_eq. rewrite !Z.eqb_eq. lia. }
      rewrite Q. by destruct S02 as (_ & _ & _ & _ & -> & _).
    + by destruct S2 as (_ & _ & _ & _ & _ & _ & -> & _).
    + rewrite Elen, Ez2. by destruct S2 as (_ & _ & _ & _ & _ & -> & -> & _).
Qed.
