(* ===== verification/SyncGrid.v ===== *)
(** * Sync records: every sample in its slot.

    What receiving produces for samples that come at the rate they are
    configured with: a reference for the contents of the records, computed
    from the list of samples, and the proof that the records sent have it. *)

From Stdlib Require Import SpecFloat.
From S2P Require Import Prelude StdMap UTime SampleId Doubles Floats SyncLayout SyncRecords SyncSlots.

(** ** The reference *)

(** The value of element [o] of the sample [x] with id [i] in slot [k] of the
    time axis of slots of [dt] microseconds. *)
Definition in_slot (i dt k : Z) (x : InSample) : bool := (is_id x =? i) && (is_tt x / dt =? k).

Definition grid_value (i dt : Z) (l : list InSample) (k o : Z) : Dbl.t :=
  default S754_nan (x ← List.find (in_slot i dt k) l; value x o).

(** The samples of an id come one per slot, or after a gap. *)
Fixpoint steady (dt : Z) (last : option Z) (times : list Z) : bool :=
  match times with
  | [] => true
  | t :: times => match last with Some u => follows dt u t | None => true end && steady dt (Some t) times
  end.

Definition times_of (i : Z) (l : list InSample) : list Z := map is_tt (List.filter (fun x => is_id x =? i) l).

(** ** The invariant *)

Section Grid.

Context (X : Z) (s0 : SyncInfo).
Hypothesis rate_exact : exact_rate s0.
Hypothesis row_fits : row_ok s0 /\ 0 <= sampleSRIndex s0.

(** The records have what the samples received so far say. *)
Definition cells_ok (l : list InSample) (recs : list SyncRec) : Prop :=
  forall r, r ∈ recs -> forall i j e a, cell s0 i j e a ->
    zget (sr_data r) a = Some (grid_value X (dtUsec s0) l (sr_time r / dtUsec s0 + j) (offset (varLengths s0) i + e)).

Definition seconds_ok (l : list InSample) (recs : list SyncRec) : Prop :=
  forall x, x ∈ l -> is_id x = X -> exists r, r ∈ recs /\ sr_time r = second (is_tt x).

Lemma grid_value_none l k o :
  (forall x, x ∈ l -> is_id x = X -> is_tt x / dtUsec s0 <> k) -> grid_value X (dtUsec s0) l k o = S754_nan.
Proof.
  intros H. unfold grid_value. destruct (List.find _ l) as [x|] eqn:E; [|done]. apply List.find_some in E as [E1 E2].
  unfold in_slot in E2. apply andb_true_iff in E2 as [E2%Z.eqb_eq E3%Z.eqb_eq]. apply list_elem_of_In in E1. by destruct (H x E1 E2).
Qed.

Lemma grid_value_snoc l x k o :
  grid_value X (dtUsec s0) (l ++ [x]) k o =
    match List.find (in_slot X (dtUsec s0) k) l with
    | Some _ => grid_value X (dtUsec s0) l k o
    | None => default S754_nan (if in_slot X (dtUsec s0) k x then value x o else None)
    end.
Proof.
  unfold grid_value. assert (E : forall f (l : list InSample), List.find f (l ++ [x]) = match List.find f l with Some y => Some y | None => if f x then Some x else None end).
  { intros f l'. induction l' as [|y l' IH]; cbn; [done|]. by destruct (f y). }
  rewrite E. destruct (List.find _ l); [done|]. by destruct (in_slot _ _ _ x).
Qed.

Lemma ready_seconds st tt r : ready st tt -> r ∈ all_recs st -> (USECS_PER_SEC | sr_time r).
Proof.
  intros [Hid|(t & (R & _ & _ & (_ & Hs)) & _)] H; [rewrite (idle_recs st Hid) in H; by apply not_elem_of_nil in H|]. assert (D : (USECS_PER_SEC | t)) by apply R.
  apply all_recs_in in H as [H|(i & Hi & H)]; [| |apply R]; [rewrite Forall_forall in Hs; by apply Hs|].
  destruct (rec_slot st t i r R Hi H) as (El & _ & [[_ ->]|[_ ->]]); [done|]. by apply Z.divide_add_r; [|exists 1].
Qed.

Lemma nan_cell st t i j e a : sampleSRIndex s0 + sampleLength s0 <= _recSize st -> cell s0 i j e a -> zget (sr_data (nan_rec st t)) a = Some S754_nan.
Proof.
  intros Hn C. destruct row_fits as [W H0]. pose proof (cell_row s0 i j e a W C). unfold zget, nan_rec. cbn [sr_data].
  apply lookup_replicate_2. lia.
Qed.

(** Records that change elsewhere, and new ones. *)
Lemma evolves_grid l st st' :
  evolves (agree (in_row s0)) st st' -> (forall r, r ∈ all_recs st' -> (USECS_PER_SEC | sr_time r)) -> sampleSRIndex s0 + sampleLength s0 <= _recSize st ->
  cells_ok l (all_recs st) -> seconds_ok l (all_recs st) -> cells_ok l (all_recs st') /\ seconds_ok l (all_recs st').
Proof.
  intros [E1 E2] L Hn Hc Hs. pose proof rate_exact as (_ & Gd & Gn). destruct row_fits as [W H0]. split.
  - intros r' Hr' i j e a C. destruct (E1 r' Hr') as (r & Et & Ha & H). pose proof (cell_row s0 i j e a W C) as Hrow.
    rewrite Ha by (unfold in_row; lia). destruct H as [H|[-> H]]; [rewrite <- Et; by apply Hc|].
    rewrite (nan_cell _ _ i j e) by done. f_equal. symmetry. apply grid_value_none. intros x Hx Ex Ek.
    destruct (Hs x Hx Ex) as (r0 & Hr0 & Er0). apply (H r0 Hr0). rewrite Er0.
    destruct C as (ix & len & _ & _ & _ & Hj & _). exact (slot_second _ _ _ _ _ Gd Gn (L r' Hr') Hj Ek).
  - intros x Hx Ex. destruct (Hs x Hx Ex) as (r & Hr & Er). destruct (E2 r Hr) as (r' & Hr' & Er'). exists r'. split; [done|]. congruence.
Qed.

(** A record that a sample is stored in. *)
Lemma store_grid l x recs recs' r data :
  is_id x = X -> (forall y, y ∈ l -> is_id y = X -> is_tt y / dtUsec s0 <> is_tt x / dtUsec s0) ->
  (forall r, r ∈ recs -> (USECS_PER_SEC | sr_time r)) -> r ∈ recs -> sr_time r = second (is_tt x) ->
  (forall r', r' ∈ recs' <-> r' = mkSyncRec (second (is_tt x)) data \/ r' ∈ recs /\ sr_time r' <> second (is_tt x)) ->
  (forall i j e a, cell s0 i j e a -> zget data a =
     match (if second (is_tt x) / dtUsec s0 + j =? is_tt x / dtUsec s0 then value x (offset (varLengths s0) i + e) else None) with
     | Some v => Some v
     | None => zget (sr_data r) a
     end) ->
  cells_ok l recs -> seconds_ok l recs -> cells_ok (l ++ [x]) recs' /\ seconds_ok (l ++ [x]) recs'.
Proof.
  intros Ex Hnew Hd Hr Er Hin Hdata Hc Hs. pose proof rate_exact as (_ & Gd & Gn). split.
  - intros r' Hr' i j e a C. rewrite grid_value_snoc. pose proof C as (ix & len & _ & _ & _ & Hj & _).
    unfold in_slot at 2. rewrite Ex, Z.eqb_refl. cbn [andb]. apply Hin in Hr' as [->|[Hr' Hne]]; cbn [sr_data sr_time].
    + rewrite (Hdata i j e a C), (Hc r Hr i j e a C), Er. rewrite Z.eqb_sym.
      destruct (Z.eqb_spec (is_tt x / dtUsec s0) (second (is_tt x) / dtUsec s0 + j)) as [Ek|Ek].
      * assert (Hno : forall y, y ∈ l -> is_id y = X -> is_tt y / dtUsec s0 <> second (is_tt x) / dtUsec s0 + j) by (rewrite <- Ek; exact Hnew).
        rewrite (grid_value_none l _ _ Hno). destruct (List.find _ l) as [y|] eqn:Ef; [|by destruct (value _ _)].
        apply List.find_some in Ef as [F1 F2]. unfold in_slot in F2. apply andb_true_iff in F2 as [F2%Z.eqb_eq F3%Z.eqb_eq].
        apply list_elem_of_In in F1. by destruct (Hno y F1 F2).
      * unfold grid_value. by destruct (List.find _ l).
    + rewrite (Hc r' Hr' i j e a C). destruct (Z.eqb_spec (is_tt x / dtUsec s0) (sr_time r' / dtUsec s0 + j)) as [Ek|Ek].
      * exfalso. apply Hne. symmetry. exact (slot_second _ _ _ _ _ Gd Gn (Hd r' Hr') Hj Ek).
      * unfold grid_value. by destruct (List.find _ l).
  - intros y [Hy|Hy]%elem_of_app Ey; [|apply list_elem_of_singleton in Hy as ->; eexists; split; [apply Hin; by left|done]].
    destruct (Hs y Hy Ey) as (r0 & Hr0 & Er0). destruct (Z.eq_dec (sr_time r0) (second (is_tt x))) as [E|E].
    + eexists. split; [apply Hin; by left|]. cbn. congruence.
    + exists r0. split; [apply Hin; by right|done].
Qed.

(** The invariant, when the samples [l] are received. *)
Definition grid_inv (l : list InSample) (st : SyncRecordSource) : Prop :=
  (exists s, sm_find X (_syncInfo st) = Some s /\ same_static s0 s /\ placed st s (last (times_of X l))) /\
  sampleSRIndex s0 + sampleLength s0 <= _recSize st /\ cells_ok l (all_recs st) /\ seconds_ok l (all_recs st) /\
  forall x, x ∈ l -> is_id x = X -> exists u, last (times_of X l) = Some u /\ is_tt x / dtUsec s0 <= u / dtUsec s0.

Lemma follows_later u t : follows (dtUsec s0) u t = true -> u / dtUsec s0 < t / dtUsec s0.
Proof.
  destruct rate_exact as (_ & Gd & _). unfold follows. rewrite orb_true_iff, Z.eqb_eq, Z.ltb_lt. intros [H|H]; [lia|].
  assert (u / dtUsec s0 + 3 <= t / dtUsec s0); [|lia]. apply Z.div_le_lower_bound; lia.
Qed.

Lemma times_of_snoc l x : times_of X (l ++ [x]) = times_of X l ++ (if is_id x =? X then [is_tt x] else []).
Proof. unfold times_of. rewrite List.filter_app, map_app. cbn. by destruct (is_id x =? X). Qed.

Lemma grid_receive l x st :
  ready st (is_tt x) -> 0 <= is_tt x <= 2 ^ 62 -> grid_inv l st ->
  (is_id x = X -> forall u, last (times_of X l) = Some u -> follows (dtUsec s0) u (is_tt x) = true) ->
  exists b st', receive x st = inr (b, st') /\ ready st' (is_tt x) /\ grid_inv (l ++ [x]) st' /\ _recSize st' = _recSize st.
Proof.
  intros Hok Htt ((s & Hf & S & Hp) & Hn & Hc & Hs & Hb) Hfol. pose proof S as (_ & _ & _ & Ed & El & Esl & Esi & _).
  assert (Hrow : forall a, in_row s a <-> in_row s0 a) by (intros a; unfold in_row; by rewrite Esl, Esi).
  assert (Hag : forall st1 st2, evolves (agree (in_row s)) st1 st2 -> evolves (agree (in_row s0)) st1 st2).
  { intros st1 st2 [V1 V2]. split; [|done]. intros r' Hr'. destruct (V1 r' Hr') as (r & V3 & V4 & V5). exists r. split; [done|]. split; [|done].
    intros a Ha. apply V4. by apply Hrow. }
  unfold grid_inv. rewrite times_of_snoc. destruct (Z.eqb_spec (is_id x) X) as [Ex|Ex].
  - destruct (receive_own x st s (last (times_of X l)) Hok Htt ltac:(by rewrite Ex) (exact_rate_static s0 s S rate_exact) Hp)
      as (st2 & t & r & data & st' & s' & -> & Hok' & Hf' & S' & Hp' & Ez' & L2 & Ez2 & Ev & Hr & Er & Hin & Hdata); [rewrite Ed; by apply Hfol|].
    exists true, st'. split; [done|]. split; [done|]. split; [|done]. rewrite last_snoc, Ez'.
    assert (D2 : forall r, r ∈ all_recs st2 -> (USECS_PER_SEC | sr_time r)).
    { intros r0. apply (ready_seconds st2 t). right. exists t. by split. }
    destruct (evolves_grid l st st2 (Hag _ _ Ev) D2 Hn Hc Hs) as [C2 Q2].
    destruct (store_grid l x (all_recs st2) (all_recs st') r data Ex) as [C3 Q3]; try done.
    { intros y Hy Ey. destruct (Hb y Hy Ey) as (u & Hu & Hle). pose proof (follows_later u (is_tt x) (Hfol Ex u Hu)). lia. }
    { rewrite Ed, El in Hdata. intros i j e a C. apply (Hdata i). destruct S as (_ & _ & Q1 & _ & Q4 & _ & _ & Q5 & _).
      unfold cell in *. by rewrite Q1, Q4, Q5. }
    split; [exists s'; split; [by rewrite <- Ex|]; split; [by transitivity s|done]|]. split; [done|]. split; [done|]. split; [done|].
    intros y Hy Ey. exists (is_tt x). split; [done|]. apply elem_of_app in Hy as [Hy|Hy%list_elem_of_singleton]; [|subst y; lia].
    destruct (Hb y Hy Ey) as (u & Hu & Hle). pose proof (follows_later u (is_tt x) (Hfol Ex u Hu)). lia.
  - destruct (receive_other x st X s (last (times_of X l)) Hok Htt Ex Hf Hp) as (b & st' & s' & -> & Hok' & Hf' & S' & Hp' & Ez' & Ev).
    exists b, st'. split; [done|]. split; [done|]. split; [|done]. rewrite app_nil_r, Ez'.
    destruct (evolves_grid l st st' (Hag _ _ Ev)) as [C2 Q2]; [intros r0; by apply (ready_seconds st' (is_tt x))|done..|].
    split; [exists s'; split; [done|]; split; [by transitivity s|done]|]. split; [done|]. split; [|split].
    + intros r Hr i j e a C. rewrite (C2 r Hr i j e a C), grid_value_snoc. unfold in_slot at 2.
      destruct (Z.eqb_spec (is_id x) X); [done|]. cbn [andb]. unfold grid_value. by destruct (List.find _ l).
    + intros y [Hy|Hy%list_elem_of_singleton]%elem_of_app Ey; [by apply Q2|]. by subst y.
    + intros y [Hy|Hy%list_elem_of_singleton]%elem_of_app Ey; [by apply Hb|]. by subst y.
Qed.

Lemma ready_later st t tt : ready st t -> t <= tt -> ready st tt.
Proof. intros [H|(t' & L & Hle)] Ht; [by left|right]. exists t'. split; [done|]. lia. Qed.

Lemma grid_receiveAll l : forall d st B,
  ready st B -> grid_inv d st -> Forall (fun x => 0 <= is_tt x <= 2 ^ 62) l -> StronglySorted Z.le (B :: map is_tt l) ->
  steady (dtUsec s0) (last (times_of X d)) (times_of X l) = true ->
  exists st', receiveAll l st = inr st' /\ source_ok st' /\ grid_inv (d ++ l) st' /\ _recSize st' = _recSize st.
Proof.
  induction l as [|x l IH]; intros d st B Hok Hg; cbn [receiveAll].
  { intros _ _ _. exists st. split; [done|]. rewrite app_nil_r. split; [|done]. destruct Hok as [H|(t & L & _)]; [by left|right; by exists t]. }
  intros [Hx Hl]%Forall_cons Hso Hst. inversion Hso as [|? ? Hso' Hall]. subst.
  assert (HB : B <= is_tt x) by (by inversion Hall). unfold times_of in Hst. cbn [List.filter] in Hst.
  destruct (grid_receive d x st (ready_later st B (is_tt x) Hok HB) Hx Hg) as (b & st1 & -> & Hok1 & Hg1 & Ez1).
  { intros Ex%Z.eqb_eq u Hu. rewrite Ex in Hst. fold (times_of X d) in Hst. cbn [map steady] in Hst. rewrite Hu in Hst. by apply andb_true_iff in Hst as [? _]. }
  destruct (IH (d ++ [x]) st1 (is_tt x) Hok1 Hg1 Hl Hso') as (st2 & E2 & Hok2 & Hg2 & Ez2).
  { rewrite times_of_snoc. destruct (is_id x =? X); [rewrite last_snoc|rewrite app_nil_r]; [|done].
    cbn [map steady] in Hst. by apply andb_true_iff in Hst as [_ ?]. }
  exists st2. split; [done|]. split; [done|]. rewrite <- app_assoc in Hg2. split; [done|]. congruence.
Qed.

End Grid.

Lemma flush_recs st : source_ok st -> s_out (flush st) = all_recs st.
Proof.
  intros [Hid|[t L]].
  - rewrite (idle_recs st Hid). destruct Hid as (_ & Hr & _ & _ & Ho & _).
    assert (En : forall st', _syncRecord st' = (None, None) -> sendSyncRecord st' = st').
    { intros st' E. unfold sendSyncRecord. rewrite E. unfold at2. by destruct (_ =? 0). }
    unfold flush, flushOnce. rewrite (En st Hr). by rewrite En.
  - destruct (flush_live st t L) as (r & Er & ->). unfold all_recs. by rewrite Er.
Qed.

(** The row of a sample in the records of a new source. *)
Lemma newSource_row vars i s :
  good_rates vars -> sm_find i (_syncInfo (newSyncRecordSource vars)) = Some s ->
  row_ok s /\ good_rate s /\ irec s = _current (newSyncRecordSource vars) /\ islot s = -1 /\ 0 <= sampleSRIndex s /\
  sampleSRIndex s + sampleLength s <= _recSize (newSyncRecordSource vars) /\ lens_ok s.
Proof.
  intros Hg Hf. pose proof (newSource_ok vars Hg) as (_ & _ & _ & _ & _ & (Wf & Rw & F)).
  assert (Hlen : forall j s', sm_find j (_syncInfo (newSyncRecordSource vars)) = Some s' -> 1 <= sampleLength s').
  { intros j s' Hj. destruct (F j s' Hj) as (F1 & F2 & _). by apply row_ok_length. }
  destruct (F i s Hf) as (F1 & F2 & F3 & F4). destruct (rows_ok_find _ _ _ _ _ Hlen Wf Rw Hf) as [H0 Hn].
  split; [done|]. split; [done|]. split; [done|]. split; [done|]. split; [done|]. split; [done|].
  apply (initLayout_lens vars i). revert Hf. unfold newSyncRecordSource. by destruct (initLayout vars) as [[? ?] ?].
Qed.

(** ** The theorem *)

(** Every sample in its slot.  For a sample id whose rate is a whole
    number of slots per second, whose samples come one per slot or after a
    gap of more than two slots, whatever other samples come in between in
    time order: every record that is sent holds, in the cell of each
    variable, slot and element, the value of the sample of that slot, and NaN
    where there is none; and there is a record for the second of each of the
    samples. *)
Theorem sync_grid vars l i s :
  good_rates vars -> sm_find i (_syncInfo (newSyncRecordSource vars)) = Some s -> exact_rate s ->
  Forall (fun x => 0 <= is_tt x <= 2 ^ 62) l -> StronglySorted Z.le (map is_tt l) -> steady (dtUsec s) None (times_of i l) = true ->
  exists st, receiveAll l (newSyncRecordSource vars) = inr st /\ cells_ok i s l (s_out (flush st)) /\ seconds_ok i l (s_out (flush st)) /\
    _recSize st = _recSize (newSyncRecordSource vars).
Proof.
  intros Hg Hf Hr Hl Hso Hst. pose proof (newSource_ok vars Hg) as Hid.
  destruct (newSource_row vars i s Hg Hf) as (F1 & F2 & F3 & F4 & H0 & Hn & _).
  destruct (grid_receiveAll i s Hr (conj F1 H0) l [] (newSyncRecordSource vars) 0) as (st & E & Hok & (_ & _ & C & S & _) & Ez); try done.
  - by left.
  - unfold grid_inv. rewrite (idle_recs _ Hid). split; [exists s; split; [done|]; split; [done|]; left; by split|]. split; [done|].
    split; [by intros r ?%not_elem_of_nil|]. split; [by intros x ?%not_elem_of_nil|]. by intros x ?%not_elem_of_nil.
  - constructor; [done|]. apply Forall_map. eapply Forall_impl; [exact Hl|]. cbn. intros ? []. lia.
  - exists st. rewrite (flush_recs st Hok). by split_and!.
Qed.

(** ** Witnesses *)

(** A 10 Hz variable with a gap, and a 12.5 Hz one. *)
Definition grid_vars : list TagVar := [float_var 5 (Dbl.ofZ 10); float_var 6 (Dbl.div (Dbl.ofZ 25) (Dbl.ofZ 2))].

Definition grid_samples : list InSample :=
  [float_sample 810000 5 1; float_sample 900000 5 2; float_sample 950000 6 7; float_sample 1099999 5 3; float_sample 3500000 6 8; float_sample 3850000 5 4].

Lemma sync_grid_witness : exists s st,
  sm_find 5 (_syncInfo (newSyncRecordSource grid_vars)) = Some s /\ receiveAll grid_samples (newSyncRecordSource grid_vars) = inr st /\
  cells_ok 5 s grid_samples (s_out (flush st)) /\ seconds_ok 5 grid_samples (s_out (flush st)) /\
  map (fun k => grid_value 5 (dtUsec s) grid_samples k 0) [7; 8; 9; 10; 11; 38] =
    [S754_nan; Dbl.ofZ 1; Dbl.ofZ 2; Dbl.ofZ 3; S754_nan; Dbl.ofZ 4].
Proof.
  destruct (sm_find 5 (_syncInfo (newSyncRecordSource grid_vars))) as [s|] eqn:E; [|vm_compute in E; discriminate E].
  assert (Hs : exact_rate s /\ steady (dtUsec s) None (times_of 5 grid_samples) = true /\
    map (fun k => grid_value 5 (dtUsec s) grid_samples k 0) [7; 8; 9; 10; 11; 38] =
      [S754_nan; Dbl.ofZ 1; Dbl.ofZ 2; Dbl.ofZ 3; S754_nan; Dbl.ofZ 4]).
  { vm_compute in E. injection E as <-. unfold exact_rate. vm_compute. repeat split; discriminate. }
  destruct Hs as (Hr & Hst & Hv).
  destruct (sync_grid grid_vars grid_samples 5 s) as (st & Es & C & S & _).
  - repeat (apply Forall_cons; split); [..|apply Forall_nil; exact I]; (split; [cbn; lia|]; intros _; split; [|vm_compute; discriminate]);
      (unfold good_rate; vm_compute; split_and!; discriminate).
  - exact E.
  - exact Hr.
  - repeat (apply Forall_cons; split); [..|apply Forall_nil; exact I]; cbn; lia.
  - repeat constructor; cbn; lia.
  - exact Hst.
  - exists s, st. split; [reflexivity|]. split; [exact Es|]. split; [exact C|]. split; [exact S|exact Hv].
Defined.
