(* ===== verification/SyncHeader.v ===== *)
(** * Sync records: the header.

    The text that tells a reader how sync records are laid out:
    [createHeader] and [sendSyncHeader] of
    [src/src/nidas/dynld/raf/SyncRecordSource.cc] write it,
    [SyncRecordReader::scanHeader] of
    [src/src/nidas/dynld/raf/SyncRecordReader.cc] reads it.  The names of
    project, aircraft, flight and software version are arguments. *)

From Stdlib Require Import SpecFloat String.
From S2P Require Import Prelude StringUtil StdMap UTime SampleId Doubles Floats StdStream SyncLayout.
From stdpp Require Import gmap.

Local Open Scope Z_scope.

(** ** Writing *)

Definition SP : Z := 32.
Definition NL : Z := 10.
Definition QUOTE : Z := 34.

(** [replace_util(str,c1,c2)], with different characters *)
Definition replace_util (c1 c2 : Z) (l : list Z) : list Z := map (fun c => if c =? c1 then c2 else c) l.

Definition varName (v : VariableT) : list Z := replace_util SP 95 (v_name v).

Definition typeAbbr (t : variableType) : Z :=
  match t with CONTINUOUS => 110 | COUNTER => 99 | CLOCK => 116 | OTHER => 111 | WEIGHT => 111 end.

Definition quote (l : list Z) : list Z := QUOTE :: l ++ [QUOTE].

Definition coefsText (k : converterKind) : list Z :=
  match k with
  | Linear a b => putGeneral 16 a ++ [SP] ++ putGeneral 16 b
  | Polynomial cs => flat_map (fun c => putGeneral 16 c ++ [SP]) cs
  | OtherConverter => []
  end.

Definition fileText (f : option (list Z * list Z)) : list Z :=
  match f with
  | Some (file, path) => bytes_of "file=" ++ quote file ++ bytes_of " path=" ++ quote path
  | None => []
  end.

Definition converterText (v : VariableT) : list Z :=
  match v_converter v with
  | Some c => coefsText (cv_kind c) ++ SP :: quote (cv_units c) ++ SP :: fileText (cv_file c)
  | None => SP :: quote (v_units v)
  end.

Definition variableLine (v : VariableT) : list Z :=
  varName v ++ SP :: typeAbbr (v_type v) :: SP :: putUnsigned (v_length v) ++ SP :: quote (v_units v) ++
  SP :: quote (v_longname v) ++ SP :: converterText v ++ [59; NL].

Definition rateLine (s : SyncInfo) : list Z :=
  putFixed 5 (rate s) ++ SP :: flat_map (fun v => varName v ++ [SP]) (variables s) ++ [59; NL].

Record HeaderNames := mkHeaderNames {
  h_project : list Z;
  h_aircraft : list Z;
  h_flight : list Z;
  h_version : list Z
}.

(** [createHeader(ost)]; [vars] is [_variables]. *)
Definition createHeader (h : HeaderNames) (vars : list TagVar) (infos : smap SyncInfo) : list Z :=
  let fn := if is_nil (h_flight h) then bytes_of "unknown_flight" else h_flight h in
  bytes_of "project  " ++ quote (h_project h) ++ NL :: bytes_of "aircraft " ++ quote (h_aircraft h) ++ NL ::
  bytes_of "flight " ++ quote fn ++ NL :: bytes_of "software_version " ++ quote (h_version h) ++ NL :: 35 :: NL ::
  bytes_of "variables {" ++ NL :: flat_map (fun v => variableLine (tv_var v)) vars ++ 125 :: NL ::
  bytes_of "rates {" ++ NL :: flat_map (fun e => rateLine e.2) infos ++ [125; NL].

(** [sendSyncHeader()]: the data of the header sample, with the null. *)
Definition sendSyncHeader (h : HeaderNames) (vars : list TagVar) (infos : smap SyncInfo) : list Z :=
  createHeader h vars infos ++ [0].

(** ** Reading *)

(** [SyncRecHeaderException], by its text. *)
Inductive headExc :=
| Expected (what got : list Z)
| KeyedEnd
| KeyedValueEnd (key : list Z)
| KeyedFailure (key : list Z)
| UnexpectedType (got : list Z)
| NotFound (vname : list Z)
| MoreThanOneRate (vname : list Z)
| NoRateGroup (vname : list Z).

(** What is thrown out of [scanHeader], and the bound of a loop. *)
Inductive thrown := ThrownHeader (e : headExc) | LengthError | Unending.

Record SyncRecordVariable := mkSyncVar {
  sv_name : list Z;
  sv_type : variableType;
  sv_length : Z;
  sv_units : list Z;
  sv_longname : list Z;
  sv_converter : option (list Flt.t * list Z * option (list Z * list Z));
  sv_offset : Z;
  sv_lagOffset : Z
}.

Record SyncRecordReader := mkReader {
  headException : option headExc;
  sampleTags : list (Flt.t * list nat);
  r_variables : list SyncRecordVariable;
  numDataValues : Z;
  projectName : list Z;
  aircraftName : list Z;
  flightName : list Z;
  softwareVersion : list Z;
  startTime : Z;
  _header : list Z
}.

Definition newReader : SyncRecordReader := mkReader None [] [] 0 [] [] [] [] 0 [].

Definition with_names (r : SyncRecordReader) (p a f v : list Z) : SyncRecordReader :=
  mkReader (headException r) (sampleTags r) (r_variables r) (numDataValues r) p a f v (startTime r) (_header r).

Definition with_exception (r : SyncRecordReader) (e : headExc) : SyncRecordReader :=
  mkReader (Some e) (sampleTags r) (r_variables r) (numDataValues r) (projectName r) (aircraftName r) (flightName r)
    (softwareVersion r) (startTime r) (_header r).

Definition with_tags (r : SyncRecordReader) (tags : list (Flt.t * list nat)) : SyncRecordReader :=
  mkReader (headException r) tags (r_variables r) (numDataValues r) (projectName r) (aircraftName r) (flightName r)
    (softwareVersion r) (startTime r) (_header r).

Definition with_vars (r : SyncRecordReader) (vars : list SyncRecordVariable) (n : Z) : SyncRecordReader :=
  mkReader (headException r) (sampleTags r) vars n (projectName r) (aircraftName r) (flightName r)
    (softwareVersion r) (startTime r) (_header r).

(** A string from a null terminated array. *)
Definition c_str (l : list Z) : list Z := (span (fun c => negb (c =? 0)) l).1.

(** [getQuotedString(istr)] *)
Definition getQuotedString (s : istr) : list Z * istr :=
  let s := ignore QUOTE s in
  if failbit s then ([], s)
  else let '(v, s) := getline 512 QUOTE s in (c_str v, s).

(** [readKeyedQuotedValues(header)]; a new exception is thrown. *)
Fixpoint readKeyedQuotedValues (fuel : nat) (s : istr) (r : SyncRecordReader) : thrown + (option headExc * istr * SyncRecordReader) :=
  match fuel with
  | O => inl Unending
  | S fuel =>
      let '(key, s) := readString s in
      if eofbit s then inr (Some KeyedEnd, s, r)
      else if match key with c :: _ => c =? 35 | [] => false end then inr (None, s, r)
      else
        let '(value, s) := getQuotedString s in
        if eofbit s then inr (Some (KeyedValueEnd key), s, r)
        else if failbit s then inr (Some (KeyedFailure key), s, r)
        else
          let keyIs k := bool_decide (key = bytes_of k) in
          let r :=
            if keyIs "project"%string then with_names r value (aircraftName r) (flightName r) (softwareVersion r)
            else if keyIs "aircraft"%string then with_names r (projectName r) value (flightName r) (softwareVersion r)
            else if keyIs "flight"%string then with_names r (projectName r) (aircraftName r) value (softwareVersion r)
            else if keyIs "software_version"%string then with_names r (projectName r) (aircraftName r) (flightName r) value
            else r in
          readKeyedQuotedValues fuel s r
  end.

(** *** The variables *)

Inductive scanned (A : Type) := Done (a : A) | Stop (e : headExc) | Throw (t : thrown).
Arguments Done {A} a.
Arguments Stop {A} e.
Arguments Throw {A} t.

Definition endOfHeader {A : Type} (section : list Z) : scanned A := Stop (Expected section (bytes_of "end of header")).

Definition variablesSection : list Z := bytes_of "variables".
Definition ratesSection : list Z := bytes_of "rates".

Definition scanType (str : list Z) : option variableType :=
  match str with
  | [c] => if c =? 110 then Some CONTINUOUS else if c =? 99 then Some COUNTER
           else if c =? 116 then Some CLOCK else if c =? 111 then Some OTHER else None
  | _ => None
  end.

Fixpoint readCoefs (fuel : nat) (s : istr) (coefs : list Flt.t) : option (list Flt.t * istr) :=
  match fuel with
  | O => None
  | S fuel =>
      match readFloat s with
      | (Some v, s) => readCoefs fuel s (coefs ++ [v])
      | (None, s) => Some (coefs, s)
      end
  end.

(** The loop that reads the next character: [>>] gives none that is white
    space, and what was there before is none. *)
Definition nextChar (c : Z) (s : istr) : Z * istr := let '(r, s) := readChar s in (default c r, s).

(** A key with [=] after its first character [c]. *)
Definition readKey (c : Z) (s : istr) : list Z * istr := let '(t, s) := getline 4 61 s in (c_str (c :: t), s).

(** The calibration file: [file="..." path="..."]. *)
Definition scanPath (calName : list Z) (s : istr) : scanned (option (list Z * list Z) * Z * istr) :=
  let '(key, s) := readKey 112 s in
  if eofbit s then endOfHeader variablesSection
  else if negb (bool_decide (key = bytes_of "path")) then Throw (ThrownHeader (Expected (bytes_of "path=") key))
  else
    let '(calPath, s) := getQuotedString (clear s) in
    let '(c, s) := nextChar 112 s in
    if eofbit s then endOfHeader variablesSection else Done (Some (calName, calPath), c, s).

Definition scanFile (s : istr) : scanned (option (list Z * list Z) * Z * istr) :=
  let '(key, s) := readKey 102 s in
  if eofbit s then endOfHeader variablesSection
  else if negb (bool_decide (key = bytes_of "file")) then Throw (ThrownHeader (Expected (bytes_of "file=") key))
  else
    let '(calName, s) := getQuotedString (clear s) in
    let '(c, s) := nextChar 102 s in
    if eofbit s then endOfHeader variablesSection
    else if c =? 112 then scanPath calName s
    else Done (None, c, s).

(** The rest of a variable, after its name.  The text of the exception about
    the semicolon is [string(nextchar,1)]. *)
Definition scanVariable (vname : list Z) (s : istr) : scanned (SyncRecordVariable * istr) :=
  let '(vtypestr, s) := readString s in
  let '(vlen, s) := readInt s in
  if eofbit s then endOfHeader variablesSection
  else
    match scanType vtypestr with
    | None => Stop (UnexpectedType vtypestr)
    | Some vtype =>
        let '(vunits, s) := getQuotedString s in
        if eofbit s then endOfHeader variablesSection
        else
          let '(vlongname, s) := getQuotedString s in
          if eofbit s then endOfHeader variablesSection
          else
            match readCoefs (S (length (rest s))) s [] with
            | None => Throw Unending
            | Some (coefs, s) =>
                if eofbit s then endOfHeader variablesSection
                else
                  let '(cunits, s) := getQuotedString (clear s) in
                  if eofbit s then endOfHeader variablesSection
                  else
                    let '(c, s) := nextChar 0 s in
                    if eofbit s then endOfHeader variablesSection
                    else
                      match (if c =? 102 then scanFile s else Done (None, c, s)) with
                      | Stop e => Stop e
                      | Throw t => Throw t
                      | Done (cfile, c, s) =>
                          if negb (c =? 59) then
                            if c <? 128 then Stop (Expected [59] (replicate (Z.to_nat c) 1)) else Throw LengthError
                          else
                            let conv := match coefs, cfile with [], None => None | _, _ => Some (coefs, cunits, cfile) end in
                            Done (mkSyncVar vname vtype (u32 vlen) vunits vlongname conv 0 0, s)
                      end
            end
    end.

(** [vmap]: a name, with the index of its variable in [newvars], or null. *)
Abbreviation varMap := (gmap (list Z) (option nat)).

Fixpoint scanVariables (fuel : nat) (s : istr) (newvars : list SyncRecordVariable) (vmap : varMap) :
    scanned (list SyncRecordVariable * varMap * istr) :=
  match fuel with
  | O => Throw Unending
  | S fuel =>
      let '(vname, s) := readString s in
      if eofbit s then endOfHeader variablesSection
      else if bool_decide (vname = [125]) then Done (newvars, vmap, s)
      else
        match scanVariable vname s with
        | Stop e => Stop e
        | Throw t => Throw t
        | Done (var, s) => scanVariables fuel s (newvars ++ [var]) (<[vname := Some (length newvars)]> vmap)
        end
  end.

(** *** The rates *)

(** [rs_group] and [rs_size] are the variables of the last tag and
    [groupSize]. *)
Record rateState := mkRates {
  rs_vars : list SyncRecordVariable;
  rs_map : varMap;
  rs_offset : Z;
  rs_lag : Z;
  rs_group : list nat;
  rs_size : Z
}.

Definition with_offsets (v : SyncRecordVariable) (off lag : Z) : SyncRecordVariable :=
  mkSyncVar (sv_name v) (sv_type v) (sv_length v) (sv_units v) (sv_longname v) (sv_converter v) (s32 off) (s32 lag).

(** A variable of a rate gets its place; [i] is its index. *)
Definition placeVariable (r : Flt.t) (vname : list Z) (i : nat) (var : SyncRecordVariable) (st : rateState) : rateState :=
  let ndata := s32 (u32 (sv_length var * u32 (intCeil r))) in
  mkRates (<[i := with_offsets var (rs_offset st) (rs_lag st)]> (rs_vars st)) (<[vname := None]> (rs_map st))
    (u64 (rs_offset st + ndata)) (rs_lag st) (rs_group st ++ [i]) (u64 (rs_size st + ndata)).

(** The variable names of a rate, to the semicolon. *)
Fixpoint scanNames (fuel : nat) (r : Flt.t) (s : istr) (st : rateState) : rateState * scanned istr :=
  match fuel with
  | O => (st, Throw Unending)
  | S fuel =>
      let '(vname, s) := readString s in
      if eofbit s then (st, endOfHeader ratesSection)
      else if bool_decide (vname = [59]) then (st, Done s)
      else
        match rs_map st !! vname with
        | None => (st, Stop (NotFound vname))
        | Some None => (st, Stop (MoreThanOneRate vname))
        | Some (Some i) =>
            match rs_vars st !! i with
            | None => (st, Throw Unending)
            | Some var => scanNames fuel r s (placeVariable r vname i var st)
            end
        end
  end.

(** The rate groups; [tags] is [sampleTags]. *)
Fixpoint scanRates (fuel : nat) (s : istr) (st : rateState) (tags : list (Flt.t * list nat)) :
    rateState * list (Flt.t * list nat) * scanned istr :=
  match fuel with
  | O => (st, tags, Throw Unending)
  | S fuel =>
      match readFloat s with
      | (None, s) => (st, tags, Done s)
      | (Some r, s) =>
          if eofbit s then (st, tags, endOfHeader ratesSection)
          else
            let st := mkRates (rs_vars st) (rs_map st) (u64 (rs_offset st + 1)) (rs_lag st) [] 1 in
            let '(st, res) := scanNames (S (length (rest s))) r s st in
            let tags := tags ++ [(r, rs_group st)] in
            match res with
            | Done s =>
                scanRates fuel s (mkRates (rs_vars st) (rs_map st) (rs_offset st) (u64 (rs_lag st + rs_size st)) [] 0) tags
            | res => (st, tags, res)
            end
      end
  end.

(** *** The header *)

Definition expectWord (w : list Z) (s : istr) : bool * list Z * istr :=
  let '(str, s) := readString s in (negb (eofbit s) && bool_decide (str = w), str, s).

(** The names that are left in the map. *)
Definition leftOver (vmap : varMap) : list (list Z) := map fst (List.filter (fun e => bool_decide (is_Some e.2)) (map_to_list vmap)).

(** The end of [scanHeader]: the brace, and variables without a rate. *)
Definition finishHeader (s : istr) (st : rateState) (r : SyncRecordReader) : SyncRecordReader :=
  let '(ok, str, s) := expectWord [125] (clear s) in
  let r := if ok : bool then r else with_exception r (Expected [125] str) in
  match leftOver (rs_map st) with
  | vname :: _ => with_exception r (NoRateGroup vname)
  | [] => with_vars r (rs_vars st) (rs_offset st)
  end.

(** [scanHeader(samp)] *)
Definition scanHeader (tt : Z) (text : list Z) (r : SyncRecordReader) : thrown + SyncRecordReader :=
  let r := mkReader None (sampleTags r) (r_variables r) (numDataValues r) (projectName r) (aircraftName r) (flightName r)
             (softwareVersion r) (Z.quot tt USECS_PER_SEC) text in
  let n := S (length text) in
  match readKeyedQuotedValues n (newStream text) r with
  | inl t => inl t
  | inr (Some e, _, r) => inr (with_exception r e)
  | inr (None, s, r) =>
      let '(ok, str, s) := expectWord (bytes_of "variables") s in
      if negb ok then inr (with_exception r (Expected (bytes_of "variables {") str))
      else
        let '(ok, str, s) := expectWord [123] s in
        if negb ok then inr (with_exception r (Expected (bytes_of "variables {") (bytes_of "variables " ++ str)))
        else
          match scanVariables n s [] ∅ with
          | Throw t => inl t
          | Stop e => inr (with_exception r e)
          | Done (newvars, vmap, s) =>
              let '(ok, str, s) := expectWord (bytes_of "rates") s in
              if negb ok then inr (with_exception r (Expected (bytes_of "rates {") str))
              else
                let '(ok, str, s) := expectWord [123] s in
                if negb ok then inr (with_exception r (Expected (bytes_of "rates {") (bytes_of "rates " ++ str)))
                else
                  let '(st, tags, res) := scanRates n s (mkRates newvars vmap 0 0 [] 0) (sampleTags r) in
                  let r := with_tags r tags in
                  match res with
                  | Throw t => inl t
                  | Stop e => inr (with_exception r e)
                  | Done s => inr (finishHeader s st r)
                  end
          end
  end.

(** [getVariable(name)], through [variableMap]: the last one with the name. *)
Definition getVariable (name : list Z) (r : SyncRecordReader) : option SyncRecordVariable :=
  last (List.filter (fun v => bool_decide (sv_name v = name)) (r_variables r)).

(** [getVariables()]: throws the exception of the header. *)
Definition getVariables (r : SyncRecordReader) : headExc + list SyncRecordVariable :=
  match headException r with Some e => inl e | None => inr (r_variables r) end.
