(* ===== verification/SyncReader.v ===== *)
(** * Sync records: the header is read back.

    That [scanHeader] ends on every text, and that the places it finds in the
    header of a sync record source are those where the source puts the
    values. *)

From Stdlib Require Import SpecFloat String.
From S2P Require Import Prelude StringUtil StdMap UTime SampleId Doubles Floats StdStream SyncLayout SyncRecords SyncHeader.
From stdpp Require Import gmap.

Local Open Scope Z_scope.

(** Texts in one normal form. *)
Ltac flat := unfold quote; repeat (progress (rewrite <- ?app_assoc; cbn [app])).

(** ** Scanning ends *)

Definition left (s : istr) : nat := length (rest s).

Lemma span_length p l : (length (span p l).2 <= length l)%nat.
Proof. induction l as [|c l IH]; cbn; [done|]. destruct (p c); [|done]. destruct (span p l). cbn in *. lia. Qed.

Lemma sentry_left s o s' : sentry s = (o, s') ->
  (left s' <= left s)%nat /\
  match o with Some r => good s = true /\ (length r <= left s)%nat /\ exists c t, r = c :: t /\ isspace_byte c = false | None => failbit s' = true end.
Proof.
  unfold sentry, left. destruct (good s) eqn:Eg; cbn [negb]; [|intros [= <- <-]; by split].
  pose proof (span_length isspace_byte (rest s)) as Hl. destruct (span isspace_byte (rest s)) as [a b] eqn:E. cbn [snd] in *.
  destruct b as [|c b]; intros [= <- <-]; cbn; [by split; [lia|]|]. split; [done|]. split; [done|]. split; [done|]. exists c, b. split; [done|].
  revert a E. induction (rest s) as [|d l IH]; intros a; cbn; [done|]. destruct (isspace_byte d) eqn:Ed; [|intros [= <- <- <-]; done].
  destruct (span isspace_byte l) as [a' b'] eqn:E'. intros [= <- ->]. apply (IH) with (a := a'); [|done]. cbn. pose proof (span_length isspace_byte l) as Q.
  rewrite E' in Q. exact Q.
Qed.

Lemma span_first p c l : p c = true -> (length (span p (c :: l)).2 <= length l)%nat.
Proof. intros H. cbn. rewrite H. pose proof (span_length p l). by destruct (span p l). Qed.

(** A word that is read before the end makes the text shorter. *)
Lemma readString_left s w s' : readString s = (w, s') ->
  (left s' <= left s)%nat /\ (good s = true -> eofbit s' = false -> (left s' < left s)%nat /\ good s' = true) /\ (good s = false -> w = []).
Proof.
  unfold readString. destruct (sentry s) as [o s1] eqn:E. pose proof (sentry_left s o s1 E) as [H1 H2]. destruct o as [r|].
  - destruct H2 as (Hg & Hr & c & t & -> & Hc). pose proof (span_first (fun c => negb (isspace_byte c)) c t ltac:(cbn; by rewrite Hc)) as Hs.
    destruct (span _ (c :: t)) as [a b]. cbn [snd] in Hs. intros [= <- <-]. unfold left in *. cbn [length rest eofbit failbit] in *.
    split; [lia|]. split; [|congruence]. intros _ Hb. split; [lia|]. unfold good. cbn. by rewrite Hb.
  - intros [= <- <-]. split; [done|]. split; [|done]. intros Hg He. exfalso. unfold sentry in E. rewrite Hg in E. cbn [negb] in E.
    destruct (span isspace_byte (rest s)).2; [|done]. injection E as <-. done.
Qed.

Lemma getSign_length r : (length (getSign r).2 <= length r)%nat.
Proof. destruct r as [|c r]; cbn; [done|]. destruct (c =? 45); [cbn; lia|]. destruct (c =? 43); cbn; lia. Qed.

Lemma readInt_left s : (left (readInt s).2 <= left s)%nat.
Proof.
  unfold readInt. destruct (sentry s) as [o s1] eqn:E. pose proof (sentry_left s o s1 E) as [H1 H2]. destruct o as [r|]; [|done].
  destruct H2 as (_ & Hr & _). pose proof (getSign_length r) as Hg.
  destruct (getSign r) as [neg r1]. pose proof (span_length isdigit r1) as Hs. destruct (span isdigit r1) as [ds r2]. unfold left in *. cbn in *. lia.
Qed.

Lemma span_pair p l : (length (span p l).1 + length (span p l).2 = length l)%nat.
Proof. induction l as [|c l IH]; cbn; [done|]. destruct (p c); [|done]. destruct (span p l). cbn in *. lia. Qed.

(** What a number takes. *)
Lemma scanNumber_length l : (length (n_int (scanNumber l).1) + length (n_frac (scanNumber l).1) + length (scanNumber l).2 <= length l)%nat.
Proof.
  unfold scanNumber. pose proof (getSign_length l) as H1. destruct (getSign l) as [neg l1]. cbn [snd] in H1.
  pose proof (span_pair isdigit l1) as H2. destruct (span isdigit l1) as [ip l2]. cbn [fst snd] in H2.
  set (fr := match l2 with [] => _ | _ => _ end).
  assert (H3 : (length fr.1 + length fr.2 <= length l2)%nat).
  { unfold fr. destruct l2 as [|c r]; [done|]. destruct (c =? 46); [|done]. pose proof (span_pair isdigit r). cbn. lia. }
  destruct fr as [fp l3]. cbn [fst snd] in H3. destruct l3 as [|c r]; [cbn; lia|].
  destruct (_ && _); [|cbn in *; lia]. pose proof (getSign_length r) as H4. destruct (getSign r) as [eneg r1]. cbn [snd] in H4.
  pose proof (span_pair isdigit r1) as H5. destruct (span isdigit r1) as [es r2]. cbn in *. lia.
Qed.

Lemma readFloat_left s o s' : readFloat s = (o, s') ->
  (left s' <= left s)%nat /\ match o with Some _ => (left s' < left s)%nat /\ (eofbit s' = false -> good s' = true) | None => True end.
Proof.
  unfold readFloat. destruct (sentry s) as [r s1] eqn:E. pose proof (sentry_left s r s1 E) as [H1 H2]. destruct r as [r|].
  - destruct H2 as (_ & Hr & _). pose proof (scanNumber_length r) as Hn. destruct (scanNumber r) as [n b]. cbn [fst snd] in Hn.
    intros [= <- <-]. unfold left in *. cbn [rest eofbit failbit]. split; [lia|]. destruct (numberValue n) as [v|] eqn:Ev; [|done].
    assert (Hne : n_int n ++ n_frac n <> []). { unfold numberValue in Ev. intros E0. by rewrite E0 in Ev. }
    assert ((0 < length (n_int n) + length (n_frac n))%nat). { rewrite <- length_app. destruct (n_int n ++ n_frac n); [done|cbn; lia]. }
    split; [lia|]. intros Hb. unfold good. cbn. by rewrite Hb.
  - intros [= <- <-]. by split.
Qed.

Lemma readChar_left s o s' : readChar s = (o, s') -> (left s' <= left s)%nat /\ (is_Some o -> (left s' < left s)%nat).
Proof.
  unfold readChar. destruct (sentry s) as [r s1] eqn:E. pose proof (sentry_left s r s1 E) as [H1 H2]. destruct r as [r|].
  - destruct H2 as (_ & Hr & c & t & -> & _). intros [= <- <-]. unfold left in *. cbn in *. split; [lia|]. intros _. lia.
  - intros [= <- <-]. split; [done|]. by intros [].
Qed.

Lemma dropThrough_length d l r : dropThrough d l = Some r -> (length r < length l)%nat.
Proof. induction l as [|c l IH]; cbn; [done|]. destruct (c =? d); [intros [= <-]; lia|]. intros H%IH. lia. Qed.

Lemma ignore_left d s : (left (ignore d s) <= left s)%nat.
Proof.
  unfold ignore, left. destruct (negb (good s)); [done|]. destruct (dropThrough d (rest s)) eqn:E; cbn; [|lia].
  apply dropThrough_length in E. lia.
Qed.

Lemma lineLoop_left d l : forall n, (left (lineLoop n d l).2 <= length l)%nat.
Proof.
  induction l as [|c l IH]; intros n; cbn [lineLoop]; [done|]. destruct (c =? d); [unfold left; cbn; lia|]. destruct n as [|n]; [done|].
  specialize (IH n). destruct (lineLoop n d l). unfold left in *. cbn in *. lia.
Qed.

Lemma getline_left n d s : (left (getline n d s).2 <= left s)%nat.
Proof.
  unfold getline. destruct (negb (good s)); [done|]. pose proof (lineLoop_left d (rest s) (pred n)) as H. unfold left in *.
  destruct (rest s); [cbn; lia|exact H].
Qed.

Lemma getQuotedString_left s : (left (getQuotedString s).2 <= left s)%nat.
Proof.
  unfold getQuotedString. pose proof (ignore_left QUOTE s) as H. destruct (failbit (ignore QUOTE s)); [done|].
  pose proof (getline_left 512 QUOTE (ignore QUOTE s)) as H2. destruct (getline 512 QUOTE (ignore QUOTE s)). cbn in *. lia.
Qed.

Lemma readKeyed_ends fuel : forall s r, good s = true -> (left s < fuel)%nat ->
  exists e s' r', readKeyedQuotedValues fuel s r = inr (e, s', r') /\ (left s' <= left s)%nat.
Proof.
  induction fuel as [|fuel IH]; intros s r Hg Hf; [lia|]. cbn [readKeyedQuotedValues].
  destruct (readString s) as [key s1] eqn:E1. destruct (readString_left s key s1 E1) as (L1 & S1 & _).
  destruct (eofbit s1) eqn:Ee1; [by eexists _, _, _|]. destruct (S1 Hg eq_refl) as [S2 _].
  destruct (match key with c :: _ => c =? 35 | [] => false end); [by eexists _, _, _|].
  pose proof (getQuotedString_left s1) as L2. destruct (getQuotedString s1) as [value s2]. cbn [snd] in L2.
  destruct (eofbit s2) eqn:Ee2; [eexists _, _, _; split; [reflexivity|lia]|]. destruct (failbit s2) eqn:Ef2; [eexists _, _, _; split; [reflexivity|lia]|].
  edestruct (IH s2) as (e & s' & r' & -> & L3); [unfold good; by rewrite Ee2, Ef2|lia|]. eexists _, _, _. split; [reflexivity|lia].
Qed.

Lemma readCoefs_ends fuel : forall s cs, (left s < fuel)%nat -> exists cs' s', readCoefs fuel s cs = Some (cs', s') /\ (left s' <= left s)%nat.
Proof.
  induction fuel as [|fuel IH]; intros s cs Hf; [lia|]. cbn [readCoefs]. destruct (readFloat s) as [[v|] s1] eqn:E1.
  - destruct (readFloat_left s _ s1 E1) as [L1 [S1 _]]. destruct (IH s1 (cs ++ [v]) ltac:(lia)) as (cs' & s' & -> & L2).
    eexists _, _. split; [reflexivity|lia].
  - destruct (readFloat_left s _ s1 E1) as [L1 _]. by eexists _, _.
Qed.

(** A scan that ends, and leaves a shorter text if it is done. *)
Definition ends {A : Type} (P : A -> Prop) (x : scanned A) : Prop :=
  match x with Done a => P a | Stop _ => True | Throw t => t <> Unending end.

Lemma nextChar_left c s : (left (nextChar c s).2 <= left s)%nat /\ ((nextChar c s).1 <> c -> (left (nextChar c s).2 < left s)%nat).
Proof.
  unfold nextChar. destruct (readChar s) as [o s1] eqn:E. destruct (readChar_left s o s1 E) as [L1 L2]. cbn. split; [done|].
  destruct o as [d|]; [|done]. intros _. apply L2. by eexists.
Qed.

Lemma readKey_left c s : (left (readKey c s).2 <= left s)%nat.
Proof. unfold readKey. pose proof (getline_left 4 61 s) as H. by destruct (getline 4 61 s). Qed.

(** After a character other than the first one. *)
Lemma scanPath_ends name s : ends (fun '(_, c, s') => (left s' <= left s)%nat /\ (c = 59 -> (left s' < left s)%nat)) (scanPath name s).
Proof.
  unfold scanPath. pose proof (readKey_left 112 s) as L1. destruct (readKey 112 s) as [key s1]. cbn [snd] in L1.
  destruct (eofbit s1); [done|]. destruct (negb _); [done|]. pose proof (getQuotedString_left (clear s1)) as L2.
  destruct (getQuotedString (clear s1)) as [p s2]. cbn [snd] in L2. destruct (nextChar_left 112 s2) as [L3 L4]. destruct (nextChar 112 s2) as [c s3].
  cbn [fst snd] in *. destruct (eofbit s3); [done|]. unfold left in *. cbn in *. split; [lia|]. intros ->. specialize (L4 ltac:(done)). lia.
Qed.

Lemma scanFile_ends s : ends (fun '(_, c, s') => (left s' <= left s)%nat /\ (c = 59 -> (left s' < left s)%nat)) (scanFile s).
Proof.
  unfold scanFile. pose proof (readKey_left 102 s) as L1. destruct (readKey 102 s) as [key s1]. cbn [snd] in L1.
  destruct (eofbit s1); [done|]. destruct (negb _); [done|]. pose proof (getQuotedString_left (clear s1)) as L2.
  destruct (getQuotedString (clear s1)) as [p s2]. cbn [snd] in L2. destruct (nextChar_left 102 s2) as [L3 L4]. destruct (nextChar 102 s2) as [c s3].
  cbn [fst snd] in *. change (left (clear s1)) with (left s1) in L2. destruct (eofbit s3); [done|]. destruct (c =? 112).
  - pose proof (scanPath_ends p s3) as L5. destruct (scanPath p s3) as [[[f c'] s4]|e|t]; [|done..]. cbn in *. destruct L5. split; [lia|]. intros H5. lia.
  - cbn. split; [lia|]. intros ->. specialize (L4 ltac:(done)). lia.
Qed.

Lemma scanVariable_ends vname s : ends (fun '(_, s') => (left s' < left s)%nat /\ good s = true) (scanVariable vname s).
Proof.
  unfold scanVariable. destruct (readString s) as [ty s1] eqn:E1. destruct (readString_left s ty s1 E1) as (L1 & _ & G1).
  pose proof (readInt_left s1) as L2. destruct (readInt s1) as [vlen s2]. cbn [snd] in L2. destruct (eofbit s2); [done|].
  destruct (scanType ty) as [vt|] eqn:Et; [|done].
  assert (Hg : good s = true). { destruct (good s); [done|]. by rewrite (G1 eq_refl) in Et. }
  pose proof (getQuotedString_left s2) as L3. destruct (getQuotedString s2) as [u s3]. cbn [snd] in L3. destruct (eofbit s3); [done|].
  pose proof (getQuotedString_left s3) as L4. destruct (getQuotedString s3) as [ln s4]. cbn [snd] in L4. destruct (eofbit s4); [done|].
  destruct (readCoefs_ends (S (length (rest s4))) s4 [] ltac:(unfold left; lia)) as (cs & s5 & -> & L5). destruct (eofbit s5); [done|].
  pose proof (getQuotedString_left (clear s5)) as L6. destruct (getQuotedString (clear s5)) as [cu s6]. cbn [snd] in L6.
  change (left (clear s5)) with (left s5) in L6. destruct (eofbit s6); [done|].
  destruct (nextChar_left 0 s6) as [L7 L8]. destruct (nextChar 0 s6) as [c s7]. cbn [fst snd] in *. destruct (eofbit s7); [done|].
  set (x := if c =? 102 then scanFile s7 else Done (None, c, s7)).
  assert (Hx : ends (fun '(_, c', s') => (left s' <= left s6)%nat /\ (c' = 59 -> (left s' < left s6)%nat)) x).
  { unfold x. destruct (c =? 102).
    - pose proof (scanFile_ends s7) as L9. destruct (scanFile s7) as [[[f c'] s8]|e|t]; [|done..]. cbn in *. destruct L9. split; [lia|]. intros H9. lia.
    - cbn. split; [lia|]. intros ->. by apply L8. }
  destruct x as [[[f c'] s8]|e|t]; [|done..]. cbn in Hx. destruct (Z.eqb_spec c' 59) as [->|]; cbn [negb].
  - cbn. split; [|done]. destruct Hx as [_ Hx]. specialize (Hx eq_refl). lia.
  - by destruct (c' <? 128).
Qed.

Definition indices_ok (vars : list SyncRecordVariable) (vmap : varMap) : Prop :=
  forall name i, vmap !! name = Some (Some i) -> (i < length vars)%nat.

Lemma scanVariables_ends fuel : forall s vars vmap, (left s < fuel)%nat -> indices_ok vars vmap ->
  ends (fun '(vars', vmap', s') => indices_ok vars' vmap' /\ (left s' <= left s)%nat) (scanVariables fuel s vars vmap).
Proof.
  induction fuel as [|fuel IH]; intros s vars vmap Hf Hi; [lia|]. cbn [scanVariables].
  destruct (readString s) as [vname s1] eqn:E1. destruct (readString_left s vname s1 E1) as (L1 & S1 & _). destruct (eofbit s1); [done|].
  destruct (bool_decide _); [done|]. pose proof (scanVariable_ends vname s1) as L2.
  destruct (scanVariable vname s1) as [[var s2]|e|t]; [|done..]. destruct L2 as [L2 _].
  assert (Hi' : indices_ok (vars ++ [var]) (<[vname := Some (length vars)]> vmap)).
  { intros name i. rewrite length_app. cbn [length]. destruct (decide (name = vname)) as [->|Hne].
    - rewrite lookup_insert_eq. intros [= <-]. lia.
    - rewrite lookup_insert_ne by done. intros H%Hi. lia. }
  specialize (IH s2 _ _ ltac:(lia) Hi'). destruct (scanVariables fuel s2 _ _) as [[[vs' vm'] s3]|e|t]; [|done..].
  cbn in *. split; [apply IH|lia].
Qed.

Lemma scanNames_ends fuel r : forall s st, good s = true -> (left s < fuel)%nat -> indices_ok (rs_vars st) (rs_map st) ->
  indices_ok (rs_vars (scanNames fuel r s st).1) (rs_map (scanNames fuel r s st).1) /\
  ends (fun s' => (left s' <= left s)%nat) (scanNames fuel r s st).2.
Proof.
  induction fuel as [|fuel IH]; intros s st Hg Hf Hi; [lia|]. cbn [scanNames].
  destruct (readString s) as [vname s1] eqn:E1. destruct (readString_left s vname s1 E1) as (L1 & S1 & _).
  destruct (eofbit s1) eqn:Ee; [done|]. destruct (S1 Hg eq_refl) as [S2 G1].
  destruct (bool_decide _); [done|]. destruct (rs_map st !! vname) as [[i|]|] eqn:Em; [|done..].
  destruct (lookup_lt_is_Some_2 (rs_vars st) i (Hi vname i Em)) as [var Ev]. rewrite Ev.
  destruct (IH s1 (placeVariable r vname i var st) G1 ltac:(lia)) as [I1 I2].
  { intros name j. cbn [placeVariable rs_vars rs_map]. rewrite length_insert. destruct (decide (name = vname)) as [->|Hne].
    - by rewrite lookup_insert_eq.
    - rewrite lookup_insert_ne by done. apply Hi. }
  split; [done|]. destruct (scanNames fuel r s1 _) as [st' [s'|e|t]]; [|done..]. cbn in *. lia.
Qed.

Lemma scanRates_ends fuel : forall s st tags, (left s < fuel)%nat -> indices_ok (rs_vars st) (rs_map st) ->
  ends (fun _ => True) (scanRates fuel s st tags).2.
Proof.
  induction fuel as [|fuel IH]; intros s st tags Hf Hi; [lia|]. cbn [scanRates].
  destruct (readFloat s) as [[r|] s1] eqn:E1; [|done]. destruct (readFloat_left s _ s1 E1) as [L1 [S1 G1]].
  destruct (eofbit s1); [done|]. cbn zeta. set (st0 := mkRates _ _ _ _ _ _).
  destruct (scanNames_ends (S (length (rest s1))) r s1 st0 (G1 eq_refl) ltac:(unfold left; lia) Hi) as [I1 I2].
  destruct (scanNames _ r s1 st0) as [st1 [s2|e|t]]; [|done..]. cbn in I1, I2. apply IH; [lia|done].
Qed.

(** C15: the scan of a header ends on every text, whatever was cut off or
    written in it: with a reader, or with an exception. *)
Theorem scanHeader_ends tt text r : scanHeader tt text r <> inl Unending.
Proof.
  unfold scanHeader. set (r0 := mkReader _ _ _ _ _ _ _ _ _ _).
  destruct (readKeyed_ends (S (length text)) (newStream text) r0 eq_refl) as (e & s1 & r1 & -> & L1); [unfold left; cbn; lia|].
  destruct e as [e|]; [done|]. unfold left in L1 at 2. cbn [newStream rest] in L1.
  assert (Hw : forall w s, (left (expectWord w s).2 <= left s)%nat).
  { intros w s. unfold expectWord. destruct (readString s) as [str s'] eqn:E. by destruct (readString_left s str s' E) as [? _]. }
  pose proof (Hw (bytes_of "variables") s1) as L2. destruct (expectWord _ s1) as [[ok str] s2]. cbn [snd] in L2. destruct (negb ok); [done|].
  pose proof (Hw [123] s2) as L3. destruct (expectWord _ s2) as [[ok2 str2] s3]. cbn [snd] in L3. destruct (negb ok2); [done|].
  pose proof (scanVariables_ends (S (length text)) s3 [] ∅ ltac:(lia) ltac:(intros ? ?; by rewrite lookup_empty)) as L4.
  destruct (scanVariables _ s3 [] ∅) as [[[vs vm] s4]|e|t]; [|done|cbn in L4; congruence]. destruct L4 as [I4 L4].
  pose proof (Hw (bytes_of "rates") s4) as L5. destruct (expectWord _ s4) as [[ok3 str3] s5]. cbn [snd] in L5. destruct (negb ok3); [done|].
  pose proof (Hw [123] s5) as L6. destruct (expectWord _ s5) as [[ok4 str4] s6]. cbn [snd] in L6. destruct (negb ok4); [done|].
  pose proof (scanRates_ends (S (length text)) s6 (mkRates vs vm 0 0 [] 0) (sampleTags r1) ltac:(lia) I4) as L7.
  destruct (scanRates _ s6 _ _) as [[st tags] [s7|e|t]]; [done|done|]. cbn in L7. congruence.
Qed.

(** ** The header is read back *)

(** Text that can be quoted. *)
Definition text_ok (l : list Z) : Prop := Forall (fun c => c <> QUOTE /\ c <> 0) l /\ (length l <= 511)%nat.

Lemma c_str_text l : Forall (fun c => c <> QUOTE /\ c <> 0) l -> c_str l = l.
Proof.
  intros H. unfold c_str. rewrite <- (app_nil_r l) at 1. rewrite span_app; [done| |done].
  eapply Forall_impl; [exact H|]. intros c [_ Hc]. by apply negb_true_iff, Z.eqb_neq.
Qed.

Lemma getQuotedString_text text pre l r :
  text = pre ++ quote l ++ r -> QUOTE ∉ pre -> text_ok l -> getQuotedString (newStream text) = (l, newStream r).
Proof.
  intros -> Hp [Hl Hn]. unfold getQuotedString, ignore, quote. cbn [good newStream eofbit failbit negb andb rest app].
  rewrite <- app_assoc. cbn [app]. rewrite dropThrough_app by done. cbn [failbit]. unfold getline. cbn [good eofbit failbit negb andb rest].
  assert (Hq : QUOTE ∉ l). { intros [H _]%(proj1 (Forall_forall _ _) Hl). done. }
  assert (E : lineLoop (pred 512) QUOTE (l ++ QUOTE :: r) = (l, newStream r)) by (apply lineLoop_app; [cbn; lia|done]).
  destruct (l ++ QUOTE :: r) as [|c t] eqn:El; [by destruct l|]. rewrite E. by rewrite c_str_text.
Qed.

Lemma readString_text text ws w r : text = ws ++ w ++ r -> spaces ws -> word w -> blank r -> readString (newStream text) = (w, newStream r).
Proof. intros ->. apply readString_word. Qed.

Lemma expectWord_text text ws w r :
  text = ws ++ w ++ r -> spaces ws -> word w -> blank r -> expectWord w (newStream text) = (true, w, newStream r).
Proof. intros -> Hs Hw Hr. unfold expectWord. rewrite readString_word by done. cbn. by rewrite bool_decide_eq_true_2. Qed.

(** Coefficients that have a text, and what is read of it. *)
Definition coefText (x : Flt.t) : option Flt.t := match nonNumber x with Some _ => None | None => numberValue (generalNumber 16 x) end.

Definition kindCoefs (k : converterKind) : list Flt.t :=
  match k with Linear a b => [a; b] | Polynomial cs => cs | OtherConverter => [] end.

Definition coefs_ok (cs : list Flt.t) : Prop := Forall (fun x => is_Some (coefText x)) cs.

Lemma readFloat_coef text ws x v r :
  text = ws ++ putGeneral 16 x ++ r -> coefText x = Some v -> spaces ws -> blank r -> readFloat (newStream text) = (Some v, newStream r).
Proof.
  intros -> Hx Hs Hr. unfold coefText in Hx. unfold putGeneral. destruct (nonNumber x); [done|]. cbn [default].
  rewrite readFloat_text; [|done|apply generalNumber_ok; lia|done]. rewrite Hx. done.
Qed.

(** The text of coefficients, before the quote. *)
Fixpoint coefsRest (cs : list Flt.t) (r : list Z) : list Z :=
  match cs with
  | [] => r
  | c :: cs => SP :: putGeneral 16 c ++ coefsRest cs r
  end.

Lemma blank_coefsRest cs r : blank (SP :: r) -> blank (coefsRest cs (SP :: r)).
Proof. by destruct cs. Qed.

Lemma readCoefs_text ws r cs : forall fuel acc vs, (length cs < fuel)%nat -> spaces ws -> Forall2 (fun x v => coefText x = Some v) cs vs ->
  blank (ws ++ QUOTE :: r) ->
  readCoefs fuel (newStream (coefsRest cs (ws ++ QUOTE :: r))) acc = Some (acc ++ vs, mkIstr (QUOTE :: r) false true).
Proof.
  induction cs as [|c cs IH]; intros fuel acc vs Hf Hs H2 Hb; (destruct fuel as [|fuel]; [cbn in Hf; lia|]); cbn [readCoefs coefsRest].
  - inversion H2. subst. rewrite readFloat_stop by (try done; by left). by rewrite app_nil_r.
  - inversion H2 as [|? v ? vs' Hc H2']. subst. rewrite (readFloat_coef _ [SP] c v (coefsRest cs (ws ++ QUOTE :: r))); [|done|done|by repeat constructor|].
    + rewrite IH with (vs := vs') by (try done; cbn in Hf; lia). by rewrite <- app_assoc.
    + by destruct cs.
Qed.

Lemma coefs_shape k X : exists ws, spaces ws /\ blank (ws ++ X) /\ (QUOTE ∉ ws) /\
  (SP :: coefsText k ++ SP :: X) = coefsRest (kindCoefs k) (ws ++ X).
Proof.
  assert (S2 : spaces [SP; SP] /\ QUOTE ∉ [SP; SP]).
  { split; [by repeat constructor|]. rewrite !elem_of_cons, elem_of_nil. unfold QUOTE, SP. lia. }
  assert (S1 : spaces [SP] /\ QUOTE ∉ [SP]).
  { split; [by repeat constructor|]. rewrite !elem_of_cons, elem_of_nil. unfold QUOTE, SP. lia. }
  destruct k as [a b|cs|]; cbn [coefsText kindCoefs].
  - exists [SP]. split; [apply S1|]. split; [done|]. split; [apply S1|]. cbn [coefsRest]. by rewrite <- !app_assoc.
  - exists [SP; SP]. split; [apply S2|]. split; [done|]. split; [apply S2|]. induction cs as [|c cs IH]; cbn [flat_map coefsRest]; [done|].
    rewrite <- IH, <- !app_assoc. done.
  - exists [SP; SP]. split; [apply S2|]. split; [done|]. by split; [apply S2|].
Qed.

Lemma coefsRest_length cs r : (length cs + length r <= length (coefsRest cs r))%nat.
Proof. induction cs as [|c cs IH]; cbn; [done|]. rewrite length_app. lia. Qed.

Definition file_ok (f : option (list Z * list Z)) : Prop :=
  match f with Some (a, b) => text_ok a /\ text_ok b | None => True end.

Lemma nextChar_text text c0 ws c r : text = ws ++ c :: r -> spaces ws -> isspace_byte c = false -> nextChar c0 (newStream text) = (c, newStream r).
Proof. intros -> Hs Hc. unfold nextChar. by rewrite readChar_text. Qed.

Lemma readKey_text text c k r : text = k ++ 61 :: r -> (length k <= 3)%nat -> Forall (fun x => x <> QUOTE /\ x <> 0) (c :: k) -> 61 ∉ k ->
  readKey c (newStream text) = (c :: k, newStream r).
Proof.
  intros -> Hl Hf Hk. unfold readKey, getline. cbn [good newStream eofbit failbit negb andb rest].
  assert (E : lineLoop (pred 4) 61 (k ++ 61 :: r) = (k, newStream r)) by by apply lineLoop_app.
  destruct (k ++ 61 :: r) as [|d t] eqn:Ek; [by destruct k|]. rewrite E. by rewrite c_str_text.
Qed.

Lemma no_quote_sp : QUOTE ∉ [SP].
Proof. rewrite list_elem_of_singleton. done. Qed.

(** The end of a variable, after the units of its converter. *)
Lemma scanFile_text file path r : text_ok file -> text_ok path ->
  scanFile (newStream (bytes_of "ile=" ++ quote file ++ bytes_of " path=" ++ quote path ++ 59 :: r)) = Done (Some (file, path), 59, newStream r).
Proof.
  intros Hf Hp. unfold scanFile. erewrite (readKey_text _ 102 [105; 108; 101]); [|reflexivity|done|repeat constructor; done|rewrite !elem_of_cons, elem_of_nil; lia].
  cbn [eofbit newStream]. rewrite bool_decide_eq_true_2 by done. cbn [negb]. change (clear (newStream ?t)) with (newStream t).
  erewrite (getQuotedString_text _ [] file); [|cbn [app]; reflexivity|by apply not_elem_of_nil|done].
  erewrite (nextChar_text _ _ [SP] 112); [|reflexivity|by repeat constructor|done]. cbn [eofbit newStream Z.eqb Pos.eqb]. unfold scanPath.
  erewrite (readKey_text _ 112 [97; 116; 104]); [|reflexivity|done|repeat constructor; done|rewrite !elem_of_cons, elem_of_nil; lia].
  cbn [eofbit newStream]. rewrite bool_decide_eq_true_2 by done. cbn [negb]. change (clear (newStream ?t)) with (newStream t).
  erewrite (getQuotedString_text _ [] path); [|cbn [app]; reflexivity|by apply not_elem_of_nil|done].
  erewrite (nextChar_text _ _ [] 59); [|reflexivity|by constructor|done]. done.
Qed.

(** *** One variable *)

(** Variables whose text can be read. *)
Definition var_ok (v : VariableT) : Prop :=
  word (varName v) /\ varName v <> [125] /\ varName v <> [59] /\ 0 <= v_length v <= INT_MAX /\ v_type v <> WEIGHT /\
  text_ok (v_units v) /\ text_ok (v_longname v) /\
  match v_converter v with
  | Some c => coefs_ok (kindCoefs (cv_kind c)) /\ text_ok (cv_units c) /\ file_ok (cv_file c)
  | None => True
  end.

(** What is read of a variable; the places come with the rates. *)
Definition readConverter (v : VariableT) : option (list Flt.t * list Z * option (list Z * list Z)) :=
  match v_converter v with
  | None => None
  | Some c =>
      match omap coefText (kindCoefs (cv_kind c)), cv_file c with
      | [], None => None
      | coefs, file => Some (coefs, cv_units c, file)
      end
  end.

Definition baseVar (v : VariableT) : SyncRecordVariable :=
  mkSyncVar (varName v) (v_type v) (v_length v) (v_units v) (v_longname v) (readConverter v) 0 0.

Lemma coefs_read cs : coefs_ok cs -> Forall2 (fun x v => coefText x = Some v) cs (omap coefText cs).
Proof. induction 1 as [|x cs [v Hv] _ IH]; cbn; [done|]. rewrite Hv. by constructor. Qed.

Lemma scanType_abbr t : t <> WEIGHT -> scanType [typeAbbr t] = Some t.
Proof. by destruct t. Qed.

(** The part after the long name: coefficients, units, file. *)
Definition endOfVariable (v : VariableT) (r : list Z) : list Z := SP :: converterText v ++ 59 :: NL :: r.

Lemma converter_shape v r : var_ok v -> exists cs ws u f,
  endOfVariable v r = coefsRest cs (ws ++ quote u ++ f) /\ spaces ws /\ blank (ws ++ quote u ++ f) /\ (QUOTE ∉ ws) /\ coefs_ok cs /\ text_ok u /\
  (exists file, (if (nextChar 0 (newStream f)).1 =? 102 then scanFile (nextChar 0 (newStream f)).2
      else Done (None, (nextChar 0 (newStream f)).1, (nextChar 0 (newStream f)).2)) = Done (file, 59, newStream (NL :: r)) /\
    eofbit (nextChar 0 (newStream f)).2 = false /\
    match omap coefText cs, file with [], None => None | _, _ => Some (omap coefText cs, u, file) end = readConverter v).
Proof.
  intros (_ & _ & _ & _ & _ & Hu & _ & Hc). unfold endOfVariable, converterText, readConverter. destruct (v_converter v) as [c|].
  - destruct Hc as (Hcs & Hcu & Hf). set (f := SP :: fileText (cv_file c) ++ 59 :: NL :: r).
    destruct (coefs_shape (cv_kind c) (quote (cv_units c) ++ f)) as (ws & W1 & W2 & W3 & W4).
    exists (kindCoefs (cv_kind c)), ws, (cv_units c), f. split.
    { rewrite <- W4. unfold f. flat. done. }
    split; [done|]. split; [done|]. split; [done|]. split; [done|]. split; [done|]. unfold f, fileText. destruct (cv_file c) as [[file path]|].
    + destruct Hf as [Hf Hp]. rewrite (nextChar_text _ 0 [SP] 102 (bytes_of "ile=" ++ quote file ++ bytes_of " path=" ++ quote path ++ 59 :: NL :: r));
        [|flat; done|by repeat constructor|done]. cbn [fst snd Z.eqb Pos.eqb].
      exists (Some (file, path)). split; [|by destruct (omap _ _)].
      by apply scanFile_text.
    + erewrite (nextChar_text _ 0 [SP] 59); [|reflexivity|by repeat constructor|done]. exists None. split; [done|]. split; [done|]. by destruct (omap _ _).
  - exists [], [SP; SP], (v_units v), (59 :: NL :: r). split; [done|]. split; [by repeat constructor|]. split; [done|].
    split; [rewrite !elem_of_cons, elem_of_nil; unfold QUOTE, SP; lia|]. split; [by constructor|]. split; [done|].
    erewrite (nextChar_text _ 0 [] 59); [|reflexivity|by constructor|done]. by exists None.
Qed.

Lemma scanVariable_text v r : var_ok v ->
  scanVariable (varName v) (newStream (SP :: typeAbbr (v_type v) :: SP :: putUnsigned (v_length v) ++ SP :: quote (v_units v) ++
    SP :: quote (v_longname v) ++ endOfVariable v r)) = Done (baseVar v, newStream (NL :: r)).
Proof.
  intros Hv. destruct (converter_shape v r Hv) as (cs & ws & u & f & Ef & W1 & W2 & W3 & Hcs & Hu & file & F1 & F2 & F3).
  destruct Hv as (_ & _ & _ & Hl & Ht & Hun & Hln & _). unfold scanVariable.
  erewrite (readString_text _ [SP] [typeAbbr (v_type v)]); [|reflexivity|by repeat constructor| |done].
  2: { split; [done|]. constructor; [|done]. by destruct (v_type v). }
  change (SP :: putUnsigned (v_length v) ++ ?x) with ([SP] ++ putUnsigned (v_length v) ++ x).
  rewrite readInt_text; [|by repeat constructor|done|done]. cbn [eofbit newStream]. rewrite scanType_abbr by done.
  erewrite (getQuotedString_text _ [SP] (v_units v)); [|reflexivity|by apply no_quote_sp|done]. cbn [eofbit newStream].
  erewrite (getQuotedString_text _ [SP] (v_longname v)); [|reflexivity|by apply no_quote_sp|done]. cbn [eofbit newStream rest].
  rewrite Ef. change (mkIstr ?t false false) with (newStream t).
  assert (Eq : quote u ++ f = QUOTE :: (u ++ [QUOTE]) ++ f) by done. rewrite Eq in W2 |- *.
  rewrite (readCoefs_text ws ((u ++ [QUOTE]) ++ f) cs _ [] (omap coefText cs)); [|pose proof (coefsRest_length cs (ws ++ QUOTE :: (u ++ [QUOTE]) ++ f)); lia|done|by apply coefs_read|done].
  cbn [eofbit app]. change (clear (mkIstr ?t _ _)) with (newStream t).
  erewrite (getQuotedString_text _ [] u); [|cbn [app]; reflexivity|by apply not_elem_of_nil|done]. cbn [eofbit newStream].
  change (mkIstr f false false) with (newStream f). destruct (nextChar 0 (newStream f)) as [c s7]. cbn [fst snd] in *. rewrite F2, F1.
  cbn [negb Z.eqb Pos.eqb]. rewrite F3. unfold baseVar. rewrite (u32_small (v_length v)) by (unfold INT_MAX in Hl; lia). done.
Qed.

(** *** The variables *)

Fixpoint addNames (n : nat) (vs : list VariableT) (vmap : varMap) : varMap :=
  match vs with
  | [] => vmap
  | v :: vs => addNames (S n) vs (<[varName v := Some n]> vmap)
  end.

Lemma addNames_other name vs : forall n vmap, name ∉ map varName vs -> addNames n vs vmap !! name = vmap !! name.
Proof.
  induction vs as [|v vs IH]; intros n vmap; cbn [addNames map]; [done|]. rewrite elem_of_cons. intros H. rewrite IH by tauto.
  apply lookup_insert_ne. intros E. apply H. by left.
Qed.

Lemma addNames_lookup vs : forall n vmap j v, NoDup (map varName vs) -> vs !! j = Some v -> addNames n vs vmap !! varName v = Some (Some (n + j)%nat).
Proof.
  induction vs as [|v0 vs IH]; intros n vmap j v; cbn [addNames map]; [done|]. intros [Hn Hd]%NoDup_cons. destruct j as [|j]; cbn.
  - intros [= ->]. rewrite addNames_other by done. rewrite lookup_insert_eq. do 2 f_equal. lia.
  - intros Hj. rewrite (IH (S n) _ j v Hd Hj). do 2 f_equal. lia.
Qed.

Lemma addNames_inv vs : forall n vmap name x, addNames n vs vmap !! name = Some x -> name ∈ map varName vs \/ vmap !! name = Some x.
Proof.
  induction vs as [|v vs IH]; intros n vmap name x; cbn [addNames map]; [by right|]. intros [H|H]%IH; [left; by right|].
  destruct (decide (name = varName v)) as [->|Hne]; [left; by left|]. rewrite lookup_insert_ne in H by done. by right.
Qed.

Lemma variableLine_shape v r : variableLine v ++ r =
  varName v ++ SP :: typeAbbr (v_type v) :: SP :: putUnsigned (v_length v) ++ SP :: quote (v_units v) ++ SP :: quote (v_longname v) ++ endOfVariable v r.
Proof. unfold variableLine, endOfVariable. flat. done. Qed.

Lemma flat_map_length {A} (f : A -> list Z) l : (forall x, f x <> []) -> (length l <= length (flat_map f l))%nat.
Proof.
  intros Hf. induction l as [|x l IH]; cbn; [done|]. rewrite length_app. specialize (Hf x). destruct (f x); [done|cbn; lia].
Qed.

Lemma word_brace : word [125].
Proof. split; [done|]. by repeat constructor. Qed.

Lemma spaces_nl : spaces [NL].
Proof. by repeat constructor. Qed.

Lemma spaces_sp : spaces [SP].
Proof. by repeat constructor. Qed.

Lemma scanVariables_text r vs : forall fuel acc vmap, (length vs < fuel)%nat -> Forall var_ok vs ->
  scanVariables fuel (newStream (NL :: flat_map variableLine vs ++ 125 :: NL :: r)) acc vmap =
    Done (acc ++ map baseVar vs, addNames (length acc) vs vmap, newStream (NL :: r)).
Proof.
  induction vs as [|v vs IH]; intros fuel acc vmap Hf Hv; (destruct fuel as [|fuel]; [cbn in Hf; lia|]); cbn [scanVariables flat_map map addNames].
  - erewrite (readString_text _ [NL] [125]); [|reflexivity|apply spaces_nl|apply word_brace|done]. cbn [eofbit newStream].
    rewrite bool_decide_eq_true_2 by done. by rewrite app_nil_r.
  - apply Forall_cons in Hv as [Hv Hvs]. rewrite <- app_assoc, variableLine_shape. pose proof Hv as (Hw & Hne & _).
    erewrite (readString_text _ [NL] (varName v)); [|reflexivity|apply spaces_nl|done|done]. cbn [eofbit newStream].
    rewrite bool_decide_eq_false_2 by done. change (mkIstr ?t false false) with (newStream t). rewrite scanVariable_text by done.
    rewrite IH by (try done; cbn in Hf; lia). rewrite <- app_assoc, length_app. cbn [length app]. by rewrite Nat.add_1_r.
Qed.

(** *** The rates *)

Section Rates.

Context (all : list VariableT).
Hypothesis names_differ : NoDup (map varName all).
Hypothesis all_ok : Forall var_ok all.

(** The variables when the names in [P] have their places. *)
Definition placedVar (P : gmap (list Z) (Z * Z)) (v : VariableT) : SyncRecordVariable :=
  match P !! varName v with Some (o, l) => with_offsets (baseVar v) o l | None => baseVar v end.

Definition rates_ok (P : gmap (list Z) (Z * Z)) (st : rateState) : Prop :=
  rs_vars st = map (placedVar P) all /\
  (forall j v, all !! j = Some v -> rs_map st !! varName v = Some (match P !! varName v with Some _ => None | None => Some j end)) /\
  (forall name x, rs_map st !! name = Some x -> name ∈ map varName all).

Lemma name_index j j' v v' : all !! j = Some v -> all !! j' = Some v' -> varName v = varName v' -> j = j'.
Proof.
  intros Hj Hj' E. apply (NoDup_lookup (map varName all) j j' (varName v) names_differ).
  - by rewrite list_lookup_fmap, Hj.
  - by rewrite list_lookup_fmap, Hj', E.
Qed.

Lemma placeVariable_ok P st r j v :
  rates_ok P st -> all !! j = Some v -> P !! varName v = None ->
  rates_ok (<[varName v := (rs_offset st, rs_lag st)]> P) (placeVariable r (varName v) j (baseVar v) st).
Proof.
  intros (R1 & R2 & R3) Hj Hp. split; [|split].
  - cbn [placeVariable rs_vars]. rewrite R1. apply list_eq. intros k. destruct (decide (k = j)) as [->|Hne].
    + rewrite list_lookup_insert_eq by (rewrite length_map; by eapply lookup_lt_Some). rewrite list_lookup_fmap, Hj. cbn.
      unfold placedVar. by rewrite lookup_insert_eq.
    + rewrite list_lookup_insert_ne by done. rewrite !list_lookup_fmap. destruct (all !! k) as [v'|] eqn:Ek; [|done]. cbn.
      unfold placedVar. rewrite lookup_insert_ne; [done|]. intros E. by apply Hne, (name_index k j v' v Ek Hj).
  - intros k v' Hk. cbn [placeVariable rs_map]. destruct (decide (k = j)) as [->|Hne].
    + assert (v' = v) as -> by congruence. by rewrite !lookup_insert_eq.
    + assert (varName v <> varName v') by (intros E; by apply Hne, (name_index k j v' v Hk Hj)). rewrite !lookup_insert_ne by done. by apply R2.
  - intros name x. cbn [placeVariable rs_map]. destruct (decide (name = varName v)) as [->|Hne].
    + intros _. apply list_elem_of_fmap. exists v. split; [done|]. by eapply list_elem_of_lookup_2.
    + rewrite lookup_insert_ne by done. apply R3.
Qed.

(** The names of a row, with their places. *)
Fixpoint placeAll (P : gmap (list Z) (Z * Z)) (vs : list VariableT) (ixs : list Z) (lag : Z) : gmap (list Z) (Z * Z) :=
  match vs, ixs with
  | v :: vs, ix :: ixs => placeAll (<[varName v := (ix, lag)]> P) vs ixs lag
  | _, _ => P
  end.

Lemma placeAll_other name lag vs : forall P ixs, name ∉ map varName vs -> placeAll P vs ixs lag !! name = P !! name.
Proof.
  induction vs as [|v vs IH]; intros P [|ix ixs]; cbn [placeAll map]; try done. rewrite elem_of_cons. intros H. rewrite IH by tauto.
  apply lookup_insert_ne. intros E. apply H. by left.
Qed.

Lemma placeAll_lookup lag vs : forall P ixs k v ix, NoDup (map varName vs) -> vs !! k = Some v -> ixs !! k = Some ix ->
  placeAll P vs ixs lag !! varName v = Some (ix, lag).
Proof.
  induction vs as [|v0 vs IH]; intros P [|ix0 ixs] k v ix; cbn [placeAll map]; try done. intros [Hn Hd]%NoDup_cons. destruct k as [|k]; cbn.
  - intros [= ->] [= ->]. rewrite placeAll_other by done. apply lookup_insert_eq.
  - intros Hv Hix. by apply (IH _ _ k).
Qed.

Lemma scanNames_text r n x hi vs : forall fuel P st ixs lo,
  intCeil r = n -> 0 <= n <= INT_MAX -> (length vs < fuel)%nat -> Forall (fun v => v ∈ all) vs -> NoDup (map varName vs) ->
  Forall (fun v => P !! varName v = None) vs -> vars_ok lo n ixs (map v_length vs) hi -> rs_offset st = lo -> 0 <= lo -> hi <= INT_MAX ->
  0 <= rs_size st -> rs_size st + (hi - lo) <= INT_MAX -> rates_ok P st ->
  exists st', scanNames fuel r (newStream (SP :: flat_map (fun v => varName v ++ [SP]) vs ++ 59 :: NL :: x)) st = (st', Done (newStream (NL :: x))) /\
    rates_ok (placeAll P vs ixs (rs_lag st)) st' /\ rs_offset st' = hi /\ rs_lag st' = rs_lag st /\ rs_size st' = rs_size st + (hi - lo).
Proof.
  intros fuel P st ixs lo Hr Hn. revert fuel P st ixs lo.
  induction vs as [|v vs IH]; intros fuel P st ixs lo Hf Hin Hd Hp Hv Ho Hlo Hhi Hs0 Hs Hok;
    (destruct fuel as [|fuel]; [cbn in Hf; lia|]); cbn [scanNames flat_map].
  - erewrite (readString_text _ [SP] [59]); [|reflexivity|apply spaces_sp|split; [done|by repeat constructor]|done]. cbn [eofbit newStream].
    rewrite bool_decide_eq_true_2 by done. exists st. destruct ixs; cbn in Hv; [|done]. split; [done|]. split; [done|]. lia.
  - destruct ixs as [|ix ixs]; cbn [map vars_ok] in Hv; [done|]. destruct Hv as (-> & Hl & Hv). apply Forall_cons in Hin as [Hin Hins].
    apply Forall_cons in Hp as [Hp Hps]. cbn [map] in Hd. apply NoDup_cons in Hd as [Hnd Hd]. apply list_elem_of_lookup in Hin as [j Hj].
    assert (Hvo : var_ok v) by (rewrite Forall_forall in all_ok; apply all_ok; by eapply list_elem_of_lookup_2).
    pose proof Hvo as (Hw & _ & Hsc & Hvl & _). pose proof (vars_ok_le n ixs _ _ _ ltac:(lia) Hv) as Hle. flat.
    erewrite (readString_text _ [SP] (varName v)); [|reflexivity|apply spaces_sp|done|done]. cbn [eofbit newStream].
    rewrite bool_decide_eq_false_2 by done. pose proof Hok as (R1 & R2 & _). rewrite (R2 j v Hj), Hp.
    assert (Ej : rs_vars st !! j = Some (baseVar v)). { rewrite R1, list_lookup_fmap, Hj. cbn. unfold placedVar. by rewrite Hp. }
    rewrite Ej. change (mkIstr ?t false false) with (newStream t). set (st1 := placeVariable r (varName v) j (baseVar v) st).
    assert (En : s32 (u32 (sv_length (baseVar v) * u32 (intCeil r))) = v_length v * n).
    { cbn [baseVar sv_length]. rewrite Hr. unfold INT_MAX in *. rewrite (u32_small n) by lia. rewrite u32_small by nia. apply s32_small. nia. }
    assert (Eo : rs_offset st1 = lo + v_length v * n). { cbn [st1 placeVariable rs_offset]. rewrite En, Ho. apply u64_small. unfold INT_MAX in *. nia. }
    assert (Es : rs_size st1 = rs_size st + v_length v * n). { cbn [st1 placeVariable rs_size]. rewrite En. apply u64_small. unfold INT_MAX in *. nia. }
    destruct (IH fuel (<[varName v := (lo, rs_lag st)]> P) st1 ixs (lo + v_length v * n)) as (st' & E' & K1 & K2 & K3 & K4); try done.
    + cbn in Hf. lia.
    + apply Forall_forall. intros v' Hv'. rewrite lookup_insert_ne; [by rewrite Forall_forall in Hps; apply Hps|]. intros E. apply Hnd.
      rewrite E. apply list_elem_of_fmap. by exists v'.
    + nia.
    + rewrite Es. nia.
    + rewrite Es. nia.
    + rewrite <- Ho. by apply placeVariable_ok.
    + exists st'. split; [exact E'|]. split; [exact K1|]. split; [done|]. split; [exact K3|]. rewrite K4, Es. lia.
Qed.

(** A rate whose text has as many slots. *)
Definition rate_text (s : SyncInfo) : Prop :=
  nonNumber (rate s) = None /\ exists r, numberValue (fixedNumber 5 (rate s)) = Some r /\ intCeil r = nSlots s /\ 0 <= nSlots s <= INT_MAX.

(** A row of a record as the header has it. *)
Definition row_text (s : SyncInfo) : Prop :=
  rate_text s /\ row_ok s /\ varLengths s = map v_length (variables s) /\ Forall (fun v => v ∈ all) (variables s).

Definition row_names (infos : smap SyncInfo) : list (list Z) := flat_map (fun e => map varName (variables e.2)) infos.

Lemma rateLine_shape s r : rateLine s ++ r = putFixed 5 (rate s) ++ SP :: flat_map (fun v => varName v ++ [SP]) (variables s) ++ 59 :: NL :: r.
Proof. unfold rateLine. flat. done. Qed.

Lemma rows_ok_le infos : forall lo hi, Forall (fun e => row_text e.2) infos -> rows_ok lo infos hi -> lo <= hi.
Proof.
  induction infos as [|[i s] infos IH]; intros lo hi; cbn [rows_ok]; [lia|]. intros [(Ht & Hr & _) Hi]%Forall_cons [E H]. cbn in *.
  destruct Ht as (_ & r & _ & _ & Hn). unfold row_ok in Hr. apply vars_ok_le in Hr; [|lia]. specialize (IH _ _ Hi H). lia.
Qed.

(** The places after the rows. *)
Fixpoint placeRows (P : gmap (list Z) (Z * Z)) (infos : smap SyncInfo) : gmap (list Z) (Z * Z) :=
  match infos with
  | [] => P
  | (_, s) :: infos => placeRows (placeAll P (variables s) (varSRIndex s) (sampleSRIndex s)) infos
  end.

Lemma placeRows_other name infos : forall P, name ∉ row_names infos -> placeRows P infos !! name = P !! name.
Proof.
  induction infos as [|[i s] infos IH]; intros P; cbn [placeRows row_names flat_map snd]; [done|]. rewrite elem_of_app. intros H.
  rewrite IH by tauto. apply placeAll_other. tauto.
Qed.

Lemma placeRows_lookup infos : forall P i s k v ix, NoDup (row_names infos) -> (i, s) ∈ infos -> variables s !! k = Some v -> varSRIndex s !! k = Some ix ->
  placeRows P infos !! varName v = Some (ix, sampleSRIndex s).
Proof.
  induction infos as [|[i0 s0] infos IH]; intros P i s k v ix; cbn [placeRows row_names flat_map snd]; [by intros _ ?%not_elem_of_nil|].
  intros (Hd & Hdis & Hds)%NoDup_app [[= -> ->]|Hin]%elem_of_cons Hv Hix.
  - rewrite placeRows_other; [by eapply placeAll_lookup|]. apply Hdis. apply list_elem_of_fmap. exists v. split; [done|]. by eapply list_elem_of_lookup_2.
  - by eapply IH.
Qed.

Lemma scanRates_text x hi infos : forall fuel P st tags lo,
  (length infos < fuel)%nat -> Forall (fun e => row_text e.2) infos -> NoDup (row_names infos) ->
  Forall (fun name => P !! name = None) (row_names infos) -> rows_ok lo infos hi -> rs_offset st = lo -> rs_lag st = lo -> 0 <= lo -> hi <= INT_MAX ->
  rates_ok P st ->
  exists st' tags', scanRates fuel (newStream (NL :: flat_map (fun e => rateLine e.2) infos ++ 125 :: NL :: x)) st tags =
      (st', tags', Done (mkIstr (125 :: NL :: x) false true)) /\
    rates_ok (placeRows P infos) st' /\ rs_offset st' = hi.
Proof.
  induction infos as [|[i s] infos IH]; intros fuel P st tags lo Hf Hrow Hd Hp Hrows Ho Hlag Hlo Hhi Hok;
    (destruct fuel as [|fuel]; [cbn in Hf; lia|]); cbn [scanRates flat_map rows_ok placeRows snd] in *.
  - change (NL :: [] ++ 125 :: NL :: x) with ([NL] ++ 125 :: NL :: x). rewrite readFloat_stop; [|apply spaces_nl|by right].
    eexists _, _. split; [reflexivity|]. split; [done|]. lia.
  - destruct Hrows as [Esr Hrows]. apply Forall_cons in Hrow as [Hrow Hrest]. cbn in Hrow. pose proof Hrow as ((Hnn & r & Hr & Hc & Hn) & Hro & Hlen & Hall).
    pose proof (rows_ok_le infos _ _ Hrest Hrows) as Hle. unfold row_ok in Hro. rewrite Hlen in Hro. pose proof (vars_ok_le (nSlots s) _ _ _ _ (proj1 Hn) Hro) as Hle2.
    unfold row_names in Hd, Hp. cbn [flat_map snd] in Hd, Hp. apply NoDup_app in Hd as (Hd1 & Hdis & Hd2). apply Forall_app in Hp as [Hp1 Hp2].
    rewrite <- app_assoc, rateLine_shape. unfold putFixed. rewrite Hnn. cbn [default].
    change (NL :: textNumber ?a ++ ?b) with ([NL] ++ textNumber a ++ b).
    rewrite readFloat_text; [|apply spaces_nl|apply fixedNumber_ok; lia|done]. rewrite Hr. rewrite bool_decide_eq_true_2 by by eexists.
    cbn [eofbit negb rest]. change (mkIstr ?t false false) with (newStream t). set (st0 := mkRates _ _ _ _ _ _).
    assert (Eo : rs_offset st0 = lo + 1). { cbn [st0 rs_offset]. rewrite Ho. apply u64_small. unfold INT_MAX in *. lia. }
    rewrite Esr in Hro, Hle2.
    destruct (scanNames_text r (nSlots s) (flat_map (fun e => rateLine e.2) infos ++ 125 :: NL :: x) (lo + sampleLength s) (variables s)
      (S (length (SP :: flat_map (fun v => varName v ++ [SP]) (variables s) ++ 59 :: NL :: flat_map (fun e => rateLine e.2) infos ++ 125 :: NL :: x)))
      P st0 (varSRIndex s) (lo + 1)) as (st1 & E1 & K1 & K2 & K3 & K4); try done.
    + assert (H1 := flat_map_length (fun v => varName v ++ [SP]) (variables s) ltac:(intros v; cbn beta; by destruct (varName v))).
      cbn [length]. rewrite length_app. lia.
    + apply Forall_map in Hp1. exact Hp1.
    + lia.
    + lia.
    + cbn [st0 rs_size]. lia.
    + rewrite E1. set (st2 := mkRates _ _ _ _ _ _). cbn [st0 rs_lag] in K1, K3. cbn [st0 rs_size] in K4.
      destruct (IH fuel (placeAll P (variables s) (varSRIndex s) (sampleSRIndex s)) st2 (tags ++ [(r, rs_group st1)]) (lo + sampleLength s))
        as (st' & tags' & E' & J1 & J2); try done.
      * cbn in Hf. lia.
      * apply Forall_forall. intros name Hname. rewrite placeAll_other; [by rewrite Forall_forall in Hp2; apply Hp2|]. intros H. by apply (Hdis name).
      * cbn [st2 rs_lag]. rewrite K3, Hlag, K4. rewrite u64_small; [lia|]. unfold INT_MAX in *. lia.
      * lia.
      * rewrite Esr, <- Hlag. exact K1.
      * by exists st', tags'.
Qed.

End Rates.

(** *** The keyed values *)

Definition flightOf (h : HeaderNames) : list Z := if is_nil (h_flight h) then bytes_of "unknown_flight" else h_flight h.

Definition names_ok (h : HeaderNames) : Prop :=
  text_ok (h_project h) /\ text_ok (h_aircraft h) /\ text_ok (h_flight h) /\ text_ok (h_version h).

Lemma flightOf_ok h : text_ok (h_flight h) -> text_ok (flightOf h).
Proof.
  unfold flightOf. destruct (is_nil (h_flight h)); [|done]. intros _. split; [|cbn; lia].
  repeat (constructor; [by vm_compute|]). constructor.
Qed.

Definition keyedText (h : HeaderNames) (x : list Z) : list Z :=
  bytes_of "project  " ++ quote (h_project h) ++ NL :: bytes_of "aircraft " ++ quote (h_aircraft h) ++ NL ::
  bytes_of "flight " ++ quote (flightOf h) ++ NL :: bytes_of "software_version " ++ quote (h_version h) ++ NL :: 35 :: NL :: x.

(** A key with its value. *)
Definition setName (key value : list Z) (r : SyncRecordReader) : SyncRecordReader :=
  let keyIs k := bool_decide (key = bytes_of k) in
  if keyIs "project"%string then with_names r value (aircraftName r) (flightName r) (softwareVersion r)
  else if keyIs "aircraft"%string then with_names r (projectName r) value (flightName r) (softwareVersion r)
  else if keyIs "flight"%string then with_names r (projectName r) (aircraftName r) value (softwareVersion r)
  else if keyIs "software_version"%string then with_names r (projectName r) (aircraftName r) (flightName r) value
  else r.

Lemma readKeyed_step fuel text ws key sp value x r :
  text = ws ++ key ++ sp ++ quote value ++ x -> spaces ws -> word key -> head key <> Some 35 -> spaces sp -> sp <> [] -> text_ok value ->
  readKeyedQuotedValues (S fuel) (newStream text) r = readKeyedQuotedValues fuel (newStream x) (setName key value r).
Proof.
  intros -> Hw Hk Hh Hs Hne Hv. cbn [readKeyedQuotedValues]. rewrite (readString_text _ ws key (sp ++ quote value ++ x)); [|done|done|done|].
  2: { destruct Hs as [|c sp Hc Hs]; [done|]. exact Hc. }
  cbn [eofbit newStream]. replace (match key with c :: _ => c =? 35 | [] => false end) with false.
  2: { destruct key as [|c key]; [done|]. cbn in Hh. symmetry. apply Z.eqb_neq. congruence. }
  change (mkIstr ?t false false) with (newStream t). rewrite (getQuotedString_text _ sp value x); [done|done| |done].
  intros Hin. unfold spaces in Hs. rewrite Forall_forall in Hs. by specialize (Hs _ Hin).
Qed.

Lemma readKeyed_text fuel h x r : (5 <= fuel)%nat -> names_ok h ->
  readKeyedQuotedValues fuel (newStream (keyedText h x)) r =
    inr (None, newStream (NL :: x), with_names r (h_project h) (h_aircraft h) (flightOf h) (h_version h)).
Proof.
  intros Hf (H1 & H2 & H3 & H4). do 5 (destruct fuel as [|fuel]; [lia|]). unfold keyedText.
  rewrite (readKeyed_step _ _ [] (bytes_of "project") [SP; SP] (h_project h) (NL :: bytes_of "aircraft " ++ quote (h_aircraft h) ++ NL ::
    bytes_of "flight " ++ quote (flightOf h) ++ NL :: bytes_of "software_version " ++ quote (h_version h) ++ NL :: 35 :: NL :: x));
    [|done|by constructor|split; [done|by repeat constructor]|done|by repeat constructor|done|done].
  rewrite (readKeyed_step _ _ [NL] (bytes_of "aircraft") [SP] (h_aircraft h) (NL ::
    bytes_of "flight " ++ quote (flightOf h) ++ NL :: bytes_of "software_version " ++ quote (h_version h) ++ NL :: 35 :: NL :: x));
    [|done|apply spaces_nl|split; [done|by repeat constructor]|done|apply spaces_sp|done|done].
  rewrite (readKeyed_step _ _ [NL] (bytes_of "flight") [SP] (flightOf h)
    (NL :: bytes_of "software_version " ++ quote (h_version h) ++ NL :: 35 :: NL :: x));
    [|done|apply spaces_nl|split; [done|by repeat constructor]|done|apply spaces_sp|done|by apply flightOf_ok].
  rewrite (readKeyed_step _ _ [NL] (bytes_of "software_version") [SP] (h_version h) (NL :: 35 :: NL :: x));
    [|done|apply spaces_nl|split; [done|by repeat constructor]|done|apply spaces_sp|done|done].
  cbn [readKeyedQuotedValues]. erewrite (readString_text _ [NL] [35]); [|reflexivity|apply spaces_nl|split; [done|by repeat constructor]|done].
  done.
Qed.

(** *** The whole header *)

Lemma flat_map_map {A B C} (f : B -> list C) (g : A -> B) l : flat_map (fun x => f (g x)) l = flat_map f (map g l).
Proof. induction l as [|x l IH]; cbn; [done|]. by rewrite IH. Qed.

Lemma createHeader_shape h vars infos x :
  createHeader h vars infos ++ x = keyedText h (bytes_of "variables {" ++ NL :: flat_map variableLine (map tv_var vars) ++ 125 :: NL ::
    bytes_of "rates {" ++ NL :: flat_map (fun e => rateLine e.2) infos ++ 125 :: NL :: x).
Proof. unfold createHeader, keyedText. rewrite flat_map_map. fold (flightOf h). flat. done. Qed.

Lemma leftOver_none (all : list VariableT) P st :
  rates_ok all P st -> Forall (fun v => is_Some (P !! varName v)) all -> leftOver (rs_map st) = [].
Proof.
  intros (_ & R2 & R3) Hp. unfold leftOver. destruct (List.filter _ _) as [|[name x] l] eqn:E; [done|]. exfalso.
  assert (Hin : In (name, x) (List.filter (fun e => bool_decide (is_Some e.2)) (map_to_list (rs_map st)))) by (rewrite E; by left).
  apply filter_In in Hin as [Hin Hs]. apply bool_decide_eq_true in Hs as [i Hi]. cbn in Hi. subst x.
  apply list_elem_of_In, elem_of_map_to_list in Hin. pose proof (R3 name _ Hin) as (v & -> & Hv)%list_elem_of_fmap.
  apply list_elem_of_lookup in Hv as [j Hj]. rewrite (R2 j v Hj) in Hin. rewrite Forall_forall in Hp.
  destruct (Hp v) as [q Hq]; [by eapply list_elem_of_lookup_2|]. rewrite Hq in Hin. done.
Qed.

(** Names of variables that belong to different samples differ. *)
Lemma row_names_nodup (vars : list TagVar) infos :
  NoDup (map (fun v => varName (tv_var v)) vars) -> NoDup (map fst infos) ->
  Forall (fun e => variables e.2 = vars_of e.1 vars) infos -> NoDup (row_names infos).
Proof.
  intros Hd Hi Hv. assert (Hinj : forall a b, a ∈ vars -> b ∈ vars -> varName (tv_var a) = varName (tv_var b) -> a = b).
  { intros a b [j Ha]%list_elem_of_lookup [k Hb]%list_elem_of_lookup E.
    assert (j = k); [|congruence]. apply (NoDup_lookup _ _ _ (varName (tv_var a)) Hd); rewrite list_lookup_fmap; [by rewrite Ha|by rewrite Hb, E]. }
  assert (Hrow : forall i name, name ∈ map varName (vars_of i vars) -> exists v, v ∈ vars /\ varName (tv_var v) = name /\ tv_id v = i).
  { intros i name (w & -> & Hw)%list_elem_of_fmap. unfold vars_of in Hw. apply list_elem_of_fmap in Hw as (v & -> & Hw).
    apply list_elem_of_In, filter_In in Hw as [H1 H2]. apply andb_true_iff in H2 as [_ H2%Z.eqb_eq]. exists v. split; [by apply list_elem_of_In|done]. }
  induction infos as [|[i s] infos IH]; cbn [row_names flat_map]; [constructor|]. apply Forall_cons in Hv as [Hs Hv]. cbn in Hs.
  cbn [map fst] in Hi. apply NoDup_cons in Hi as [Hn Hi]. apply NoDup_app. split; [|split; [|by apply IH]].
  - cbn [snd]. rewrite Hs. unfold vars_of. rewrite map_map. eapply sublist_NoDup; [exact Hd|].
    clear. induction vars as [|v vars IH]; cbn; [done|]. destruct (_ && _); by constructor.
  - cbn [snd]. rewrite Hs. intros name H1 H2. destruct (Hrow i name H1) as (v & V1 & V2 & V3).
    apply list_elem_of_In, in_flat_map in H2 as ([i' s'] & H3 & H4). apply list_elem_of_In in H3, H4. cbn in H4. rewrite Forall_forall in Hv.
    specialize (Hv _ H3). cbn in Hv. rewrite Hv in H4. destruct (Hrow i' name H4) as (v' & W1 & W2 & W3).
    assert (v = v') as <- by (apply Hinj; congruence). apply Hn. apply list_elem_of_fmap. exists (i', s'). split; [cbn; congruence|done].
Qed.

Lemma getVariable_placed all P name v r :
  NoDup (map varName all) -> r_variables r = map (placedVar P) all -> v ∈ all -> varName v = name -> getVariable name r = Some (placedVar P v).
Proof.
  intros Hd Hr Hv <-. unfold getVariable. rewrite Hr. clear Hr.
  assert (En : forall w, sv_name (placedVar P w) = varName w) by (intros w; unfold placedVar; by destruct (P !! varName w) as [[? ?]|]).
  assert (Hf : forall l, varName v ∉ map varName l -> List.filter (fun w => bool_decide (sv_name w = varName v)) (map (placedVar P) l) = []).
  { induction l as [|w l IH]; cbn; [done|]. rewrite elem_of_cons. intros H. rewrite En, bool_decide_eq_false_2 by (intros E; apply H; by left). apply IH. tauto. }
  apply list_elem_of_split in Hv as (l1 & l2 & ->). rewrite map_app in Hd. cbn in Hd. apply NoDup_app in Hd as (_ & Hdis & [Hn2 _]%NoDup_cons).
  rewrite map_app, List.filter_app. rewrite (Hf l1) by (intros H; apply (Hdis _ H); by left). cbn [app map List.filter].
  rewrite En, bool_decide_eq_true_2, (Hf l2) by done. done.
Qed.

Lemma vars_ok_length n ixs : forall lens lo hi, vars_ok lo n ixs lens hi -> length ixs = length lens.
Proof. induction ixs as [|ix ixs IH]; intros [|l lens] lo hi; cbn; try done. intros (_ & _ & H%IH). lia. Qed.

(** What the header has to allow: every variable has a rate, names differ,
    and the texts can be read. *)
Definition header_ok (h : HeaderNames) (vars : list TagVar) : Prop :=
  names_ok h /\ Forall (fun v => var_ok (tv_var v) /\ in_record v = true) vars /\ NoDup (map (fun v => varName (tv_var v)) vars) /\
  _recSize (newSyncRecordSource vars) <= INT_MAX /\
  forall i s, sm_find i (_syncInfo (newSyncRecordSource vars)) = Some s -> rate_text s.

Lemma header_read h vars tt :
  header_ok h vars ->
  let src := newSyncRecordSource vars in
  exists r, scanHeader tt (sendSyncHeader h vars (_syncInfo src)) newReader = inr r /\ headException r = None /\
    numDataValues r = _recSize src /\
    (projectName r, aircraftName r, flightName r, softwareVersion r) = (h_project h, h_aircraft h, flightOf h, h_version h) /\
    map sv_name (r_variables r) = map (fun v => varName (tv_var v)) vars /\
    forall i s k v ix, sm_find i (_syncInfo src) = Some s -> variables s !! k = Some v -> varSRIndex s !! k = Some ix ->
      getVariable (varName v) r = Some (with_offsets (baseVar v) ix (sampleSRIndex s)).
Proof.
  intros (Hh & Hv & Hd & Hsize & Hrate) src. set (all := map tv_var vars). set (infos := _syncInfo src) in *.
  assert (Hall : NoDup (map varName all)) by (unfold all; by rewrite map_map).
  assert (Hallok : Forall var_ok all). { apply Forall_map. eapply Forall_impl; [exact Hv|]. by intros v []. }
  (* the layout *)
  destruct (initLayout vars) as [[infos' half] n] eqn:El. assert (Ei : infos = infos') by (unfold infos, src, newSyncRecordSource; by rewrite El).
  assert (En : _recSize src = n) by (unfold src, newSyncRecordSource; by rewrite El). rewrite <- Ei in El.
  assert (Hlen : Forall (fun v => 0 <= v_length (tv_var v)) vars).
  { eapply Forall_impl; [exact Hv|]. intros v [(_ & _ & _ & ? & _) _]. lia. }
  destruct (initLayout_ok vars infos half n Hlen El) as (W & Rw & F & G).
  assert (Hlens : forall i s, sm_find i infos = Some s -> lens_ok s). { intros i s Hs. apply (initLayout_lens vars i). by rewrite El. }
  assert (Hrows : Forall (fun e => row_text all e.2) infos).
  { apply Forall_forall. intros [i s] Hin%(sm_in_find i infos s W). cbn. destruct (F i s Hin) as [(_ & F1 & _) F2].
    split; [by apply (Hrate i)|]. split; [done|]. split; [by apply (Hlens i)|]. rewrite F2. unfold vars_of, all. apply Forall_map, Forall_forall.
    intros v [Hv' _]%list_elem_of_In%filter_In. apply list_elem_of_fmap. exists v. split; [done|]. by apply list_elem_of_In. }
  assert (Hnames : NoDup (row_names infos)).
  { apply (row_names_nodup vars); [done| |].
    - clear -W. unfold sm_wf in W. induction W as [|k l _ IH Hk]; constructor; [|done]. intros Hin. rewrite Forall_forall in Hk. specialize (Hk _ Hin). lia.
    - apply Forall_forall. intros [i s] Hin%(sm_in_find i infos s W). by apply F. }
  (* the text *)
  unfold sendSyncHeader. unfold scanHeader. set (text := createHeader h vars infos ++ [0]).
  assert (Etext : text = keyedText h (bytes_of "variables {" ++ NL :: flat_map variableLine all ++ 125 :: NL ::
    bytes_of "rates {" ++ NL :: flat_map (fun e => rateLine e.2) infos ++ 125 :: NL :: [0])) by apply createHeader_shape.
  assert (Hl1 : (length all <= length (flat_map variableLine all))%nat).
  { apply flat_map_length. intros v. unfold variableLine. by destruct (varName v). }
  assert (Hl2 : (length infos <= length (flat_map (fun e => rateLine e.2) infos))%nat).
  { apply flat_map_length. intros [i s]. unfold rateLine. by destruct (putFixed 5 _). }
  assert (Hl3 : (5 <= length text /\ length all < length text /\ length infos < length text)%nat).
  { rewrite Etext. unfold keyedText, quote. repeat (rewrite length_app || cbn [length]). lia. }
  cbn zeta. pose proof (f_equal newStream Etext) as Es. rewrite Es, readKeyed_text by (try done; lia). set (r0 := with_names _ _ _ _ _).
  erewrite (expectWord_text _ [NL] (bytes_of "variables")); [|reflexivity|apply spaces_nl|split; [done|by repeat constructor]|done]. cbn [negb].
  erewrite (expectWord_text _ [SP] [123]); [|reflexivity|apply spaces_sp|split; [done|by repeat constructor]|done]. cbn [negb].
  rewrite scanVariables_text by (try done; lia). cbn [app length].
  erewrite (expectWord_text _ [NL] (bytes_of "rates")); [|reflexivity|apply spaces_nl|split; [done|by repeat constructor]|done]. cbn [negb].
  erewrite (expectWord_text _ [SP] [123]); [|reflexivity|apply spaces_sp|split; [done|by repeat constructor]|done]. cbn [negb].
  set (st := mkRates (map baseVar all) (addNames 0 all ∅) 0 0 [] 0).
  assert (Hok : rates_ok all ∅ st).
  { split; [|split].
    - cbn [st rs_vars]. apply map_ext. intros v. unfold placedVar. by rewrite lookup_empty.
    - intros j v Hj. cbn [st rs_map]. rewrite (addNames_lookup all 0 ∅ j v) by done. by rewrite lookup_empty.
    - intros name x. cbn [st rs_map]. intros [H|H]%addNames_inv; [done|]. by rewrite lookup_empty in H. }
  destruct (scanRates_text all Hall Hallok [0] n infos (S (length text)) ∅ st (sampleTags r0) 0) as (st' & tags & -> & K1 & K2); try done; try lia.
  { apply Forall_forall. intros name _. by rewrite lookup_empty. }
  { rewrite <- En. exact Hsize. }
  assert (Hplaced : forall i s k v ix, sm_find i infos = Some s -> variables s !! k = Some v -> varSRIndex s !! k = Some ix ->
    placeRows ∅ infos !! varName v = Some (ix, sampleSRIndex s)).
  { intros i s k v ix Hs Hk Hix. apply (placeRows_lookup infos ∅ i s k v ix); try done. by apply sm_find_in. }
  assert (Hevery : Forall (fun v => is_Some (placeRows ∅ infos !! varName v)) all).
  { apply Forall_map, Forall_forall. intros v Hin. rewrite Forall_forall in Hv, G. destruct (Hv v Hin) as [_ Hrec]. destruct (G v Hin Hrec) as [_ [s Hs]].
    destruct (F _ _ Hs) as [(_ & F1 & _) F2]. assert (Hvs : tv_var v ∈ variables s).
    { rewrite F2. apply list_elem_of_fmap. exists v. split; [done|]. apply list_elem_of_In, filter_In. split; [by apply list_elem_of_In|]. by rewrite Hrec, Z.eqb_refl. }
    apply list_elem_of_lookup in Hvs as [k Hk]. pose proof (Hlens _ _ Hs) as Hl. unfold row_ok in F1. rewrite Hl in F1.
    assert (exists ix, varSRIndex s !! k = Some ix) as [ix Hix].
    { apply lookup_lt_is_Some. rewrite (vars_ok_length _ _ _ _ _ F1), length_map. by eapply lookup_lt_Some. }
    rewrite (Hplaced (tv_id v) s k (tv_var v) ix Hs Hk Hix). by eexists. }
  set (r1 := with_tags r0 tags). unfold finishHeader. change (clear (mkIstr ?t _ _)) with (newStream t).
  erewrite (expectWord_text _ [] [125]); [|reflexivity|by constructor|apply word_brace|done]. rewrite (leftOver_none all _ st' K1 Hevery).
  eexists. split; [reflexivity|]. split; [done|]. split; [cbn; congruence|]. split; [done|]. pose proof K1 as (R1 & _). split.
  - cbn [with_vars r_variables]. rewrite R1. unfold all. rewrite !map_map. apply map_ext. intros v. unfold placedVar. by destruct (placeRows ∅ infos !! _) as [[? ?]|].
  - intros i s k v ix Hs Hk Hix. rewrite (getVariable_placed all (placeRows ∅ infos) (varName v) v); [|done|exact R1| |done].
    + unfold placedVar. by rewrite (Hplaced i s k v ix).
    + rewrite Forall_forall in Hrows. destruct (Hrows (i, s)) as (_ & _ & _ & Q); [by apply sm_find_in|]. cbn in Q.
      rewrite Forall_forall in Q. apply Q. by eapply list_elem_of_lookup_2.
Qed.
