(* ===== verification/SyncFlow.v ===== *)
(** * Sync records: from samples to a reader.

    [SyncRecordReader::init] and [SyncRecordReader::read] of
    [src/src/nidas/dynld/raf/SyncRecordReader.cc] on the samples that a
    [SyncRecordSource] distributes, and what the reader finds for a variable
    in the records. *)

From Stdlib Require Import SpecFloat String.
From S2P Require Import Prelude StringUtil StdMap UTime SampleId Doubles Floats StdStream SyncLayout SyncRecords SyncSlots SyncGrid SyncHeader SyncReader.

Local Open Scope Z_scope.
#[local] Open Scope sync_scope.

Definition SYNC_RECORD_ID : Z := 3.
Definition SYNC_RECORD_HEADER_ID : Z := 2.

(** A sample that is distributed: characters or doubles. *)
Inductive payload := Chars (l : list Z) | Doubles (l : list Dbl.t).

Record OutSample := mkOut {
  os_id : Z;
  os_tt : Z;
  os_data : payload
}.

Definition recordSample (r : SyncRec) : OutSample := mkOut SYNC_RECORD_ID (sr_time r) (Doubles (sr_data r)).

(** All that a source distributes: the header, the records, and those that
    [flush] sends. *)
Definition distributed (h : HeaderNames) (headerTime : Z) (vars : list TagVar) (l : list InSample) : result (list OutSample) :=
  let src := newSyncRecordSource vars in
  let! st := receiveAll l src in
  inr (mkOut SYNC_RECORD_HEADER_ID headerTime (Chars (sendSyncHeader h vars (_syncInfo src))) :: map recordSample (s_out (flush st))).

(** [init()]: the first header is scanned; [NoHeader] when the samples end
    before it. *)
Inductive inited := Ready (r : SyncRecordReader) (input : list OutSample) | NoHeader | InitThrows (t : thrown).

Fixpoint init (input : list OutSample) : inited :=
  match input with
  | [] => NoHeader
  | s :: input =>
      if os_id s =? SYNC_RECORD_HEADER_ID then
        match scanHeader (os_tt s) (match os_data s with Chars l => l | Doubles _ => [] end) newReader with
        | inl t => InitThrows t
        | inr r => Ready r input
        end
      else init input
  end.

(** [read(tt,dest,len)]: the time, the values copied, of which there are as
    many as it returns, and the samples that are left; [EndOfInput] is the
    exception at the end of the stream. *)
Inductive readResult := Record_ (t : Z) (dest : list Dbl.t) (input : list OutSample) | EndOfInput | ReadAssert.

Fixpoint read (input : list OutSample) (len : nat) : readResult :=
  match input with
  | [] => EndOfInput
  | s :: input =>
      if os_id s =? SYNC_RECORD_ID then
        match os_data s with
        | Chars _ => ReadAssert
        | Doubles l => Record_ (os_tt s) (take len l) input
        end
      else read input len
  end.

(** Reading to the end. *)
Fixpoint readAll (fuel : nat) (input : list OutSample) (len : nat) : option (list SyncRec) :=
  match fuel with
  | O => None
  | S fuel =>
      match read input len with
      | Record_ t dest input => cons (mkSyncRec t dest) <$> readAll fuel input len
      | EndOfInput => Some []
      | ReadAssert => None
      end
  end.

Lemma readAll_records recs len : Forall (fun r => (length (sr_data r) <= len)%nat) recs ->
  readAll (S (length recs)) (map recordSample recs) len = Some recs.
Proof.
  induction 1 as [|r recs Hr _ IH]; [done|]. cbn [length map]. change (readAll (S (S (length recs))) (recordSample r :: map recordSample recs) len)
    with (cons (mkSyncRec (sr_time r) (take len (sr_data r))) <$> readAll (S (length recs)) (map recordSample recs) len).
  rewrite IH, take_ge by done. cbn. by destruct r.
Qed.

(** What the reader finds for element [e] of a variable in slot [j] of a
    record. *)
Definition valueAt (sv : SyncRecordVariable) (rec : SyncRec) (j e : Z) : option Dbl.t :=
  zget (sr_data rec) (sv_offset sv + sv_length sv * j + e).

(** C13: sync records end to end.  When every variable has a positive rate,
    names differ and the texts in the header, those of the rates among them,
    are exact ([header_ok]), every rate has at least one sample per second
    and slots that cover it ([good_rates]), and the samples are in the order of
    time, a reader of what a sync record source distributes scans its header without an exception and
    reads exactly the records, whole; and for every variable of a sample id
    whose rate is a whole number of slots per second and whose samples come
    one per slot or after a gap, the reader finds, at the place that the
    header gives for the variable, in each slot of each record the value of
    the sample of that slot, and NaN where there is none; no second with a
    sample is missing. *)
Theorem sync_end_to_end h tt vars l i s :
  header_ok h vars -> good_rates vars -> sm_find i (_syncInfo (newSyncRecordSource vars)) = Some s -> exact_rate s ->
  Forall (fun x => 0 <= is_tt x <= 2 ^ 62) l -> StronglySorted Z.le (map is_tt l) -> steady (dtUsec s) None (times_of i l) = true ->
  exists out r input recs,
    distributed h tt vars l = inr out /\ init out = Ready r input /\ headException r = None /\
    readAll (S (length input)) input (Z.to_nat (numDataValues r)) = Some recs /\
    (forall k v, variables s !! k = Some v -> exists sv, getVariable (varName v) r = Some sv /\ sv_length sv = v_length v /\
       forall rec j e, rec ∈ recs -> 0 <= j < nSlots s -> 0 <= e < v_length v ->
         valueAt sv rec j e = Some (grid_value i (dtUsec s) l (sr_time rec / dtUsec s + j) (offset (varLengths s) k + e))) /\
    (forall x, x ∈ l -> is_id x = i -> exists rec, rec ∈ recs /\ sr_time rec = second (is_tt x)).
Proof.
  intros Hh Hg Hf Hr Hl Hso Hst. pose proof (newSource_ok vars Hg) as Hid.
  destruct (sync_grid vars l i s Hg Hf Hr Hl Hso Hst) as (st & E & C & S & Ez).
  destruct (receiveAll_ok l (newSyncRecordSource vars) (or_introl Hid) Hl) as (st0 & E0 & Hok). assert (st0 = st) as -> by congruence.
  destruct (flush_sent st Hok) as [_ Hlen]. destruct (header_read h vars tt Hh) as (r & Er & Ex & En & _ & _ & Hv).
  set (recs := s_out (flush st)) in *. unfold distributed. rewrite E. eexists _, r, (map recordSample recs), recs. split; [reflexivity|]. split.
  { cbn [init os_id os_tt os_data]. rewrite Z.eqb_refl, Er. done. }
  split; [done|]. split; [|split; [|exact S]].
  - rewrite length_map. apply readAll_records. rewrite En. eapply Forall_impl; [exact Hlen|]. intros rec [_ Hz]. unfold zlen in Hz.
    rewrite Ez in Hz. lia.
  - intros k v Hk. destruct (newSource_row vars i s Hg Hf) as (W & G & _ & _ & H0 & Hn & Hlens). unfold lens_ok in Hlens.
    assert (Hvl : varLengths s !! k = Some (v_length v)) by (rewrite Hlens, list_lookup_fmap, Hk; done).
    destruct (lookup_lt_is_Some_2 (varSRIndex s) k) as [ix Hix].
    { unfold row_ok in W. rewrite (vars_ok_length _ _ _ _ _ W). by eapply lookup_lt_Some. }
    exists (with_offsets (baseVar v) ix (sampleSRIndex s)). split; [by apply (Hv i s k v ix)|]. split; [done|].
    intros rec j e Hin Hj He. unfold valueAt. cbn [with_offsets sv_offset sv_length baseVar].
    assert (Hc : cell s k j e (ix + v_length v * j + e)) by (exists ix, (v_length v); split; [done|]; split; [done|]; split; [done|]; by split).
    pose proof (cell_row s k j e _ W Hc) as Hb. assert (Hix0 : sampleSRIndex s + 1 <= ix).
    { unfold row_ok in W. destruct G as (G & _). eapply vars_ok_above; [|exact W|exact Hix]. lia. }
    destruct Hh as (_ & _ & _ & Hsz & _). rewrite s32_small by (unfold INT_MAX in Hsz; nia). exact (C rec Hin k j e _ Hc).
Qed.

(** ** Where reader and source disagree *)

Definition plainVar (name : string) (i : Z) (r : Dbl.t) : TagVar := mkTagVar i r (mkVariable (bytes_of name) CONTINUOUS 1 [] [] None).

Definition readHeader (vars : list TagVar) : thrown + SyncRecordReader :=
  scanHeader 0 (sendSyncHeader (mkHeaderNames [80] [78] [] [86]) vars (_syncInfo (newSyncRecordSource vars))) newReader.

Definition places (r : SyncRecordReader) : list Z := map sv_offset (r_variables r).

(** Rates are written with five digits after the point.  The source has 11
    slots for a rate just above 10 Hz, the reader 10: it looks for the
    variables of later samples in the wrong places. *)
Theorem rounded_rate_misplaces :
  let vars := [plainVar "A" 5 (Dbl.div (Dbl.ofZ 10000001) (Dbl.ofZ 1000000)); plainVar "B" 6 (Dbl.ofZ 1)] in
  map (fun e => varSRIndex e.2) (_syncInfo (newSyncRecordSource vars)) = [[1]; [13]] /\
  exists r, readHeader vars = inr r /\ headException r = None /\ places r = [1; 12].
Proof. split; [vm_compute; reflexivity|]. eexists. split; [vm_compute; reflexivity|]. split; vm_compute; reflexivity. Qed.

(** A variable without a rate is listed among the variables, but not in a
    rate group: the reader refuses the header. *)
Theorem no_rate_refused :
  exists r, readHeader [plainVar "A" 5 (Dbl.ofZ 10); plainVar "B" 6 (Dbl.ofZ 0)] = inr r /\ headException r = Some (NoRateGroup (bytes_of "B")).
Proof. eexists. split; vm_compute; reflexivity. Qed.

(** ** Witness *)

Definition flow_names : HeaderNames := mkHeaderNames (bytes_of "PROJ") (bytes_of "N130AR") [] (bytes_of "v1.2").

(** A variable with a calibration at 10 Hz, another at 12.5 Hz. *)
Definition flow_vars : list TagVar :=
  [mkTagVar 5 (Dbl.ofZ 10) (mkVariable (bytes_of "P SX") CONTINUOUS 1 (bytes_of "mb") (bytes_of "pressure")
     (Some (mkConverter (Linear (Flt.ofDbl (Dbl.div (Dbl.ofZ 1) (Dbl.ofZ 10))) (Flt.ofZ 2)) (bytes_of "V") (Some (bytes_of "p.dat", bytes_of "/cal")))));
   plainVar "Q" 6 (Dbl.div (Dbl.ofZ 25) (Dbl.ofZ 2))].

Ltac text_tac := split; [repeat (constructor; [split; discriminate|]); constructor|cbn; lia].

Definition rate_check (s : SyncInfo) : bool :=
  match nonNumber (rate s), numberValue (fixedNumber 5 (rate s)) with
  | None, Some r => (intCeil r =? nSlots s) && (0 <=? nSlots s) && (nSlots s <=? INT_MAX)
  | _, _ => false
  end.

Lemma rate_check_text s : rate_check s = true -> rate_text s.
Proof.
  unfold rate_check, rate_text. destruct (nonNumber (rate s)); [done|]. destruct (numberValue _) as [r|]; [|done].
  rewrite !andb_true_iff, Z.eqb_eq, !Z.leb_le. intros [[? ?] ?]. split; [done|]. by exists r.
Qed.

Definition coefs_check (cs : list Flt.t) : bool := forallb (fun x => match coefText x with Some _ => true | None => false end) cs.

Lemma coefs_check_ok cs : coefs_check cs = true -> coefs_ok cs.
Proof.
  unfold coefs_check, coefs_ok. induction cs as [|x cs IH]; cbn; [constructor|]. destruct (coefText x) eqn:E; [|done]. intros H. constructor; [by rewrite E|by apply IH].
Qed.

Lemma flow_header_ok : header_ok flow_names flow_vars.
Proof.
  split; [|split; [|split; [|split]]].
  - split; [text_tac|]. split; [text_tac|]. split; text_tac.
  - repeat (apply Forall_cons; split); [..|by apply Forall_nil]; (split; [|by vm_compute]).
    + split; [split; [discriminate|by repeat constructor]|]. split; [discriminate|]. split; [discriminate|].
      split; [by vm_compute|]. split; [discriminate|]. split; [text_tac|]. split; [text_tac|]. cbn. split; [|split; [text_tac|split; text_tac]].
      apply coefs_check_ok. vm_compute. reflexivity.
    + split; [split; [discriminate|by repeat constructor]|]. split; [discriminate|]. split; [discriminate|].
      split; [by vm_compute|]. split; [discriminate|]. split; [text_tac|]. split; [text_tac|]. done.
  - cbn [map flow_vars plainVar tv_var]. constructor; [|constructor; [by apply not_elem_of_nil|constructor]].
    rewrite list_elem_of_singleton. discriminate.
  - by vm_compute.
  - intros i s Hs. apply sm_find_in in Hs. apply rate_check_text.
    assert (Hall : forallb (fun e => rate_check e.2) (_syncInfo (newSyncRecordSource flow_vars)) = true) by (vm_compute; reflexivity).
    rewrite forallb_forall in Hall. apply (Hall (i, s)). by apply list_elem_of_In.
Qed.

Lemma sync_end_to_end_witness : exists s out r input recs,
  sm_find 5 (_syncInfo (newSyncRecordSource flow_vars)) = Some s /\
  distributed flow_names 0 flow_vars grid_samples = inr out /\ init out = Ready r input /\ headException r = None /\
  readAll (S (length input)) input (Z.to_nat (numDataValues r)) = Some recs /\
  exists sv, getVariable (bytes_of "P_SX") r = Some sv /\
    forall rec, rec ∈ recs -> valueAt sv rec 8 0 = Some (grid_value 5 (dtUsec s) grid_samples (sr_time rec / dtUsec s + 8) (offset (varLengths s) 0 + 0)).
Proof.
  destruct (sm_find 5 (_syncInfo (newSyncRecordSource flow_vars))) as [s|] eqn:E; [|vm_compute in E; discriminate E].
  assert (Hs : exact_rate s /\ steady (dtUsec s) None (times_of 5 grid_samples) = true /\ nSlots s = 10 /\
    exists v, variables s !! 0%nat = Some v /\ varName v = bytes_of "P_SX" /\ v_length v = 1).
  { vm_compute in E. injection E as <-. split; [unfold exact_rate; vm_compute; repeat split; discriminate|]. split; [reflexivity|].
    split; [reflexivity|]. eexists. split; [reflexivity|]. split; reflexivity. }
  destruct Hs as (Hr & Hst & Hn & v & Hv & Hname & Hlen).
  destruct (sync_end_to_end flow_names 0 flow_vars grid_samples 5 s) as (out & r & input & recs & H1 & H2 & H3 & H4 & H5 & _).
  - exact flow_header_ok.
  - repeat (apply Forall_cons; split); [..|apply Forall_nil; exact I]; (split; [cbn; lia|]; intros _; split; [|vm_compute; discriminate]);
      (unfold good_rate; vm_compute; split_and!; discriminate).
  - exact E.
  - exact Hr.
  - repeat (apply Forall_cons; split); [..|apply Forall_nil; exact I]; cbn; lia.
  - repeat constructor; cbn; lia.
  - exact Hst.
  - exists s, out, r, input, recs. split; [reflexivity|]. split; [exact H1|]. split; [exact H2|]. split; [exact H3|]. split; [exact H4|].
    destruct (H5 0%nat v Hv) as (sv & G1 & _ & G2). rewrite Hname in G1. exists sv. split; [exact G1|]. intros rec Hrec. apply (G2 rec 8 0 Hrec); lia.
Defined.
