(* ===== verification/SyncQueue.v ===== *)
(** * Sync records: the queue of a reader.

    [receive], [nextSample] and [endOfStream] of [SyncRecordReader] in
    [src/src/nidas/dynld/raf/SyncRecordReader.cc], when the records come from
    the thread of a [SyncServer]: the thread that runs the server adds
    samples and waits while there are more than 60, the reading thread takes
    them and waits while there are none, and both wait on one condition
    variable, [_qcond], which is signalled for one of them.  Each step is what
    a thread does while it holds the lock. *)

From S2P Require Import Prelude.

Section Queue.

Context {A : Type}.

(** A thread at the lock or outside, waiting for a signal, or signalled. *)
Inductive waiting := Active | Waits | Signalled.

#[global] Instance waiting_eq_dec : EqDecision waiting.
Proof. solve_decision. Defined.

(** The queue with the two threads; [accepted] and [taken] are the samples
    received and those that [nextSample] returned. *)
Record queue := mkQueue {
  _syncRecords : list A;
  _eoq : bool;
  producer : waiting;
  consumer : waiting;
  accepted : list A;
  taken : list A
}.

Definition newQueue : queue := mkQueue [] false Active Active [] [].

Definition set_threads (q : queue) (p c : waiting) : queue :=
  mkQueue (_syncRecords q) (_eoq q) p c (accepted q) (taken q).

(** [_qcond.signal()]: one waiting thread; the system chooses. *)
Definition signal (first : bool) (q : queue) : queue :=
  match producer q, consumer q with
  | Waits, Waits => if first then set_threads q Signalled Waits else set_threads q Waits Signalled
  | Waits, c => set_threads q Signalled c
  | p, Waits => set_threads q p Signalled
  | _, _ => q
  end.

Definition LIMIT : nat := 60.

(** The loop of [receive]: wait, or return. *)
Definition holdUp (q : queue) : queue :=
  if negb (_eoq q) && (LIMIT <? length (_syncRecords q))%nat then set_threads q Waits (consumer q)
  else set_threads q Active (consumer q).

(** [receive(samp)] *)
Definition receive (first : bool) (x : A) (q : queue) : queue :=
  if _eoq q then q
  else holdUp (signal first (mkQueue (_syncRecords q ++ [x]) (_eoq q) (producer q) (consumer q) (accepted q ++ [x]) (taken q))).

(** [nextSample()]: wait, or return a sample or null. *)
Definition nextSample (first : bool) (q : queue) : queue :=
  match _syncRecords q with
  | [] => if _eoq q then set_threads q (producer q) Active else set_threads q (producer q) Waits
  | x :: l => signal first (mkQueue l (_eoq q) (producer q) Active (accepted q) (taken q ++ [x]))
  end.

(** [endOfStream()] *)
Definition endOfStream (first : bool) (q : queue) : queue :=
  signal first (mkQueue (_syncRecords q) true (producer q) (consumer q) (accepted q) (taken q)).

(** The steps of the threads; a waiting thread may also wake up without a
    signal. *)
Inductive queueStep : queue -> queue -> Prop :=
| step_receive f x q : producer q = Active -> queueStep q (receive f x q)
| step_awake q : producer q <> Active -> queueStep q (holdUp q)
| step_next f q : queueStep q (nextSample f q)
| step_end f q : queueStep q (endOfStream f q).

(** ** The invariant *)

(** A thread waits only while its condition holds. *)
Definition queue_ok (q : queue) : Prop :=
  accepted q = taken q ++ _syncRecords q /\ (length (_syncRecords q) <= S LIMIT)%nat /\
  ((length (_syncRecords q) = S LIMIT)%nat -> producer q <> Active \/ _eoq q = true) /\
  (producer q = Waits -> _eoq q = false /\ (LIMIT < length (_syncRecords q))%nat) /\
  (consumer q = Waits -> _eoq q = false /\ _syncRecords q = []).

Lemma signal_fields f q :
  _syncRecords (signal f q) = _syncRecords q /\ _eoq (signal f q) = _eoq q /\ accepted (signal f q) = accepted q /\ taken (signal f q) = taken q /\
  (producer q = Active -> producer (signal f q) = Active) /\ (producer q <> Active -> producer (signal f q) <> Active) /\
  (producer (signal f q) = Waits -> producer q = Waits /\ consumer q = Waits) /\
  (consumer (signal f q) = Waits -> producer q = Waits /\ consumer q = Waits).
Proof. unfold signal. destruct (producer q) eqn:E1, (consumer q) eqn:E2, f; cbn; rewrite ?E1, ?E2; split_and!; try done. Qed.

Lemma step_ok q q' : queue_ok q -> queueStep q q' -> queue_ok q'.
Proof.
  intros Hq Hstep. pose proof Hq as (H1 & H2 & H3 & H4 & H5). destruct Hstep as [f x q0 Hp|q0 Hp|f q0|f q0].
  - unfold receive. destruct (_eoq q0) eqn:Ee; [exact Hq|].
    set (q1 := mkQueue _ _ _ _ _ _). destruct (signal_fields f q1) as (S1 & S2 & S3 & S4 & S5 & _ & S6 & S7).
    unfold holdUp. rewrite S1, S2. cbn [q1 _eoq _syncRecords negb andb].
    assert (Hl : (length (_syncRecords q0) <= LIMIT)%nat).
    { destruct (Nat.eq_dec (length (_syncRecords q0)) (S LIMIT)) as [E|]; [|lia]. by destruct (H3 E) as [?|?]; [|congruence]. }
    assert (Hc : consumer (signal f q1) = Waits -> False). { intros [Q _]%S7. cbn in Q. congruence. }
    destruct (Nat.ltb_spec LIMIT (length (_syncRecords q0 ++ [x]))) as [Hb|Hb]; unfold queue_ok;
      cbn [set_threads _syncRecords _eoq producer consumer accepted taken]; rewrite ?S1, ?S2, ?S3, ?S4; cbn [q1 _syncRecords _eoq accepted taken];
      rewrite H1, length_app in *; cbn [length] in *; (split; [by rewrite app_assoc|]).
    + split; [lia|]. split; [by left|]. split; [done|]. intros Q. by destruct (Hc Q).
    + split; [lia|]. split; [lia|]. split; [done|]. intros Q. by destruct (Hc Q).
  - unfold holdUp. destruct (_eoq q0) eqn:Ee; cbn [negb andb].
    + split_and!; cbn; try done; try lia; rewrite ?Ee; try done. by right.
    + destruct (Nat.ltb_spec LIMIT (length (_syncRecords q0))) as [Hb|Hb]; unfold queue_ok; cbn; rewrite Ee.
      * split_and!; try done. by left.
      * split_and!; try done; lia.
  - unfold nextSample. destruct (_syncRecords q0) as [|x l] eqn:El.
    + destruct (_eoq q0) eqn:Ee; unfold queue_ok; cbn; rewrite El, Ee; split_and!; try done; cbn; try lia; intros Q; by destruct (H4 Q).
    + set (q1 := mkQueue _ _ _ _ _ _). destruct (signal_fields f q1) as (S1 & S2 & S3 & S4 & _ & _ & S6 & S7). unfold queue_ok.
      rewrite S1, S2, S3, S4. cbn [q1 _syncRecords _eoq accepted taken]. cbn [length] in *. split; [rewrite H1, <- app_assoc; done|].
      split; [lia|]. split; [lia|]. split; [by intros [_ Q]%S6|by intros [_ Q]%S7].
  - unfold endOfStream. set (q1 := mkQueue _ _ _ _ _ _). destruct (signal_fields f q1) as (S1 & S2 & S3 & S4 & _ & _ & S6 & S7). unfold queue_ok.
    assert (Hboth : producer q0 = Waits /\ consumer q0 = Waits -> False).
    { intros [Q1 Q2]. destruct (H4 Q1) as [_ Q3]. destruct (H5 Q2) as [_ Q4]. rewrite Q4 in Q3. cbn in Q3. lia. }
    rewrite S1, S2, S3, S4. cbn [q1 _syncRecords _eoq accepted taken]. split; [done|]. split; [done|]. split; [by right|].
    split; [by intros Q%S6; destruct (Hboth Q)|by intros Q%S7; destruct (Hboth Q)].
Qed.

(** C14: the queue of a sync record reader.  Whatever the order of the steps
    of the two threads, and whichever of them a signal wakes: samples are
    returned in the order received, none twice and none lost; there are never
    more than 61 in the queue; and no wake-up is lost: a thread waits only
    while the stream has not ended and the queue is too full, or empty, so
    that never both wait. *)
Theorem reader_queue q :
  rtc queueStep newQueue q ->
  accepted q = taken q ++ _syncRecords q /\ (length (_syncRecords q) <= 61)%nat /\
  (producer q = Waits -> _eoq q = false /\ (60 < length (_syncRecords q))%nat /\ consumer q <> Waits) /\
  (consumer q = Waits -> _eoq q = false /\ _syncRecords q = [] /\ producer q <> Waits).
Proof.
  intros H. assert (Hok : queue_ok q).
  { assert (H0 : queue_ok newQueue) by (split_and!; done || (cbn; lia)). revert H0. induction H as [|a b c Hs _ IH]; [done|]. intros Ha. by apply IH, (step_ok a). }
  destruct Hok as (H1 & H2 & _ & H4 & H5). split; [done|]. split; [done|].
  assert (Hboth : producer q = Waits -> consumer q = Waits -> False).
  { intros Q1 Q2. destruct (H4 Q1) as [_ Q3]. destruct (H5 Q2) as [_ Q4]. rewrite Q4 in Q3. cbn in Q3. lia. }
  split.
  - intros Q. destruct (H4 Q). split; [done|]. split; [done|]. intros Q'. exact (Hboth Q Q').
  - intros Q. destruct (H5 Q). split; [done|]. split; [done|]. intros Q'. exact (Hboth Q' Q).
Qed.

End Queue.

(** ** Witness *)

(** The reader waits, samples come, it takes one, and the stream ends. *)
Definition queue_run : queue (A := Z) :=
  endOfStream true (nextSample true (receive true 8 (receive true 7 (nextSample true newQueue)))).

Lemma reader_queue_witness :
  accepted queue_run = [7; 8] /\ taken queue_run = [7] /\ accepted queue_run = taken queue_run ++ _syncRecords queue_run /\
  (consumer queue_run = Waits -> _syncRecords queue_run = []).
Proof.
  destruct (reader_queue queue_run) as (H1 & _ & _ & H2).
  - eapply rtc_l; [exact (step_next true newQueue)|]. eapply rtc_l; [apply (step_receive true 7); reflexivity|].
    eapply rtc_l; [apply (step_receive true 8); reflexivity|]. eapply rtc_l; [exact (step_next true _)|].
    eapply rtc_l; [exact (step_end true _)|]. apply rtc_refl.
  - split; [reflexivity|]. split; [reflexivity|]. split; [exact H1|]. intros Q. exact (proj1 (proj2 (H2 Q))).
Defined.
