(* ===== verification/CircBuf.v ===== *)
(** * The circular buffer between a driver and its reader.

    [src/src/nidas/linux/util.h] and [util/nidas_util.c]: the macros
    [GET_HEAD], [INCREMENT_HEAD], [GET_TAIL], [INCREMENT_TAIL], and
    [nidas_circbuf_read_nowait] and [nidas_circbuf_read], the [read] of every
    driver.  Producer and reader share no lock; they are interleaved here
    between any two accesses of the shared indices and the slots, in a
    sequentially consistent order, which is what the barriers of the macros
    are for.  [CIRC_CNT] and [CIRC_SPACE] come from the kernel
    ([linux/circ_buf.h]): they are the operations of the class [CircMacros]
    with their documented values. *)

From S2P Require Import Prelude SampleId SampleSets SampleClock SampleScanner.

(** ** The macros of the kernel *)

Definition pow2 (size : Z) : Prop := exists k, 0 < k /\ size = 2 ^ k.

(** The number of items and the room left in a buffer whose size is a power
    of two, of which one slot always stays free. *)
Class CircMacros := {
  CIRC_CNT : Z -> Z -> Z -> Z;
  CIRC_SPACE : Z -> Z -> Z -> Z;
  CIRC_CNT_count head tail size : pow2 size -> 0 <= head < size -> 0 <= tail < size ->
    CIRC_CNT head tail size = (head - tail) mod size;
  CIRC_SPACE_count head tail size : pow2 size -> 0 <= head < size -> 0 <= tail < size ->
    CIRC_SPACE head tail size = size - 1 - (head - tail) mod size
}.

Lemma pow2_pos size : pow2 size -> 2 <= size.
Proof.
  intros (k & Hk & ->). pose proof (Z.pow_le_mono_r 2 1 k ltac:(lia) ltac:(lia)). lia.
Qed.

(** The mask of the code is the residue. *)
Lemma land_pow2 a size : pow2 size -> Z.land a (size - 1) = a mod size.
Proof.
  intros (k & Hk & ->). rewrite <- Z.land_ones by lia. f_equal. rewrite Z.ones_equiv. lia.
Qed.

Lemma mask_space head tail size : pow2 size ->
  Z.land (tail - (head + 1)) (size - 1) = size - 1 - (head - tail) mod size.
Proof.
  intros H. rewrite land_pow2 by done. pose proof (pow2_pos size H).
  symmetry. apply (Z.mod_unique_pos _ _ (- 1 - (head - tail) / size)).
  - pose proof (Z.mod_pos_bound (head - tail) size). lia.
  - pose proof (Z.div_mod (head - tail) size ltac:(lia)). lia.
Qed.

#[export] Instance maskMacros : CircMacros := {|
  CIRC_CNT head tail size := Z.land (head - tail) (size - 1);
  CIRC_SPACE head tail size := Z.land (tail - (head + 1)) (size - 1);
  CIRC_CNT_count head tail size H _ _ := land_pow2 (head - tail) size H;
  CIRC_SPACE_count head tail size H _ _ := mask_space head tail size H
|}.

Section Operations.
Context `{CM : CircMacros}.

(** ** [struct dsm_sample_circ_buf]

    [c_slots] has the bytes of the samples that the elements of [buf] point
    to; a pointer to a sample is its index. *)

Record circ_buf := mkCirc {
  c_slots : list (list Z);
  c_head : Z;
  c_tail : Z;
  c_size : Z
}.

Definition slot (c : circ_buf) (i : Z) : list Z := default [] (c_slots c !! Z.to_nat i).

Definition GET_HEAD (c : circ_buf) : option Z :=
  if 0 <? CIRC_SPACE (c_head c) (c_tail c) (c_size c) then Some (c_head c) else None.

Definition INCREMENT_HEAD (c : circ_buf) : circ_buf :=
  mkCirc (c_slots c) (Z.land (c_head c + 1) (c_size c - 1)) (c_tail c) (c_size c).

Definition NEXT_HEAD (c : circ_buf) : circ_buf * option Z :=
  (INCREMENT_HEAD c, GET_HEAD (INCREMENT_HEAD c)).

Definition GET_TAIL (c : circ_buf) : option Z :=
  if 0 <? CIRC_CNT (c_head c) (c_tail c) (c_size c) then Some (c_tail c) else None.

Definition INCREMENT_TAIL (c : circ_buf) : circ_buf :=
  mkCirc (c_slots c) (c_head c) (Z.land (c_tail c + 1) (c_size c - 1)) (c_size c).

Definition EMPTY_CIRC_BUF (c : circ_buf) : circ_buf := mkCirc (c_slots c) 0 0 (c_size c).

Definition init_dsm_circ_buf (c : circ_buf) : circ_buf := mkCirc (c_slots c) 0 0 (c_size c).

(** The producer stores in the sample it got with [GET_HEAD]. *)
Definition store_slot (c : circ_buf) (i : Z) (bytes : list Z) : circ_buf :=
  mkCirc (<[Z.to_nat i := bytes]> (c_slots c)) (c_head c) (c_tail c) (c_size c).

(** ** Reading *)

(** [samplePtr] is a sample and an offset in it, or null. *)
Record sample_read_state := mkReadState {
  samplePtr : option (Z * Z);
  bytesLeft : Z
}.

Definition sample_remains (st : sample_read_state) : bool := negb (bytesLeft st =? 0).

Definition EFAULT : Z := 14.
Definition EAGAIN : Z := 11.
Definition ERESTARTSYS : Z := 512.

(** Where a call of [nidas_circbuf_read_nowait] is: before the test of the
    loop and the copy, before [INCREMENT_TAIL], before [GET_TAIL], or
    returned. *)
Inductive read_pc := AtCopy | AtIncrement | AtGet | Returned (result : Z).

(** The local variables of a call, and the bytes it has stored at [buf]. *)
Record read_call := mkCall {
  k_countreq : Z;
  k_count : Z;
  k_bytesLeft : Z;
  k_samplePtr : option (Z * Z);
  k_out : list Z;
  k_pc : read_pc
}.

Definition read_start (count : Z) (st : sample_read_state) : read_call :=
  mkCall count count (bytesLeft st) (samplePtr st) [] AtCopy.

(** The [n] bytes at [samplePtr]. *)
Definition bytes_at (c : circ_buf) (p : option (Z * Z)) (n : Z) : list Z :=
  match p with
  | Some (i, off) => take (Z.to_nat n) (drop (Z.to_nat off) (slot c i))
  | None => []
  end.

Definition ptr_add (p : option (Z * Z)) (n : Z) : option (Z * Z) :=
  match p with Some (i, off) => Some (i, off + n) | None => None end.

(** The test of the loop and the copy; [fault] is what [copy_to_user]
    returns for a bad address of the user. *)
Definition read_copy (fault : bool) (c : circ_buf) (k : read_call) : read_call :=
  let '(mkCall req count nleft ptr out _) := k in
  if count =? 0 then mkCall req count nleft ptr out (Returned (req - count))
  else
    let n := Z.min nleft count in
    if 0 <? n then
      if fault then mkCall req count nleft ptr out (Returned (- EFAULT))
      else
        let out := out ++ bytes_at c ptr n in
        if 0 <? nleft - n
        then mkCall req (count - n) (nleft - n) (ptr_add ptr n) out (Returned (req - (count - n)))
        else mkCall req (count - n) (nleft - n) None out AtIncrement
    else mkCall req count nleft ptr out AtGet.

(** [GET_TAIL] and the start of the next sample. *)
Definition read_get (c : circ_buf) (k : read_call) : read_call :=
  let '(mkCall req count nleft ptr out _) := k in
  match GET_TAIL c with
  | Some i => mkCall req count (header_length (slot c i) + SIZEOF_DSM_SAMPLE_HEADER) (Some (i, 0)) out AtCopy
  | None => mkCall req count nleft ptr out (Returned (req - count))
  end.

Definition with_pc (k : read_call) (pc : read_pc) : read_call :=
  mkCall (k_countreq k) (k_count k) (k_bytesLeft k) (k_samplePtr k) (k_out k) pc.

(** One step of a call. *)
Definition read_step (fault : bool) (c : circ_buf) (k : read_call) : circ_buf * read_call :=
  match k_pc k with
  | AtCopy => (c, read_copy fault c k)
  | AtIncrement => (INCREMENT_TAIL c, with_pc k AtGet)
  | AtGet => (c, read_get c k)
  | Returned _ => (c, k)
  end.

(** The state is saved only on the regular return; [bytesLeft] of the state
    is an [unsigned int]. *)
Definition read_save (st : sample_read_state) (k : read_call) : sample_read_state :=
  match k_pc k with
  | Returned r => if r <? 0 then st else mkReadState (k_samplePtr k) (u32 (k_bytesLeft k))
  | _ => st
  end.

(** A whole call while the producer does nothing; [fault] tells for each
    step whether the copy fails. *)
Fixpoint read_steps (fuel : nat) (fault : nat -> bool) (c : circ_buf) (k : read_call) : circ_buf * read_call :=
  match k_pc k, fuel with
  | Returned _, _ => (c, k)
  | _, O => (c, k)
  | _, S f => let '(c', k') := read_step (fault fuel) c k in read_steps f fault c' k'
  end.

(** Three steps for each byte asked for, and three more. *)
Definition read_fuel (count : Z) : nat := Z.to_nat (3 * count + 3).

Definition nidas_circbuf_read_nowait (fault : nat -> bool) (count : Z) (c : circ_buf)
    (st : sample_read_state) : circ_buf * sample_read_state * read_call :=
  let '(c', k) := read_steps (read_fuel count) fault c (read_start count st) in
  (c', read_save st k, k).

(** The wait of [nidas_circbuf_read]: what each test of its loop sees, and
    whether the sleep that follows is ended by a signal.  The loop is left
    with an error, or to read from the buffer as it is then. *)
Fixpoint read_wait (nonblock : bool) (st : sample_read_state) (c : circ_buf)
    (wakes : list (bool * circ_buf)) : option (Z + circ_buf) :=
  if (bytesLeft st =? 0) && (c_head c =? c_tail c) then
    if nonblock then Some (inl (- EAGAIN))
    else
      match wakes with
      | [] => None
      | (true, _) :: _ => Some (inl (- ERESTARTSYS))
      | (false, c') :: more => read_wait nonblock st c' more
      end
  else Some (inr c).

Definition nidas_circbuf_read (nonblock : bool) (wakes : list (bool * circ_buf)) (fault : nat -> bool)
    (count : Z) (c : circ_buf) (st : sample_read_state) :
    option (Z + circ_buf * sample_read_state * read_call) :=
  match read_wait nonblock st c wakes with
  | None => None
  | Some (inl err) => Some (inl err)
  | Some (inr c') => Some (inr (nidas_circbuf_read_nowait fault count c' st))
  end.

End Operations.

(** ** Producer and reader together

    [y_hold]: the producer has got the head with [GET_HEAD] and not yet
    incremented it; [y_call]: the reader is in a call.  A run is any
    interleaving; it records the samples that were made available, as their
    bytes, and the bytes copied to the user. *)

Record ring_sys := mkRing {
  y_circ : circ_buf;
  y_state : sample_read_state;
  y_call : option read_call;
  y_hold : bool
}.

(** The bytes of the sample in a slot, by the length in its header. *)
Definition sample_bytes (s : list Z) : list Z :=
  take (Z.to_nat (header_length s + SIZEOF_DSM_SAMPLE_HEADER)) s.

(** A driver stores a length that fits in the slot. *)
Definition slot_filled (s : list Z) : Prop := header_length s + SIZEOF_DSM_SAMPLE_HEADER <= zlen s < 2 ^ 32.

Section Ring.
Context `{CM : CircMacros}.

(** A step of the producer, or of the reader inside a call; the samples and
    bytes it adds. *)
Inductive ring_next : ring_sys -> ring_sys -> list (list Z) -> list Z -> Prop :=
| next_get_head c st k h i : GET_HEAD c = Some i ->
    ring_next (mkRing c st k h) (mkRing c st k true) [] []
| next_store c st k i bytes : i = c_head c -> zlen bytes = zlen (slot c i) ->
    ring_next (mkRing c st k true) (mkRing (store_slot c i bytes) st k true) [] []
| next_increment_head c st k : slot_filled (slot c (c_head c)) ->
    ring_next (mkRing c st k true) (mkRing (INCREMENT_HEAD c) st k false)
      [sample_bytes (slot c (c_head c))] []
| next_read c st k h c' k' : read_step false c k = (c', k') ->
    ring_next (mkRing c st (Some k) h) (mkRing c' st (Some k') h) [] (drop (length (k_out k)) (k_out k')).

Inductive ring_run : ring_sys -> list (list Z) -> list Z -> Prop :=
| ring_new slots size : pow2 size -> zlen slots = size ->
    ring_run (mkRing (mkCirc slots 0 0 size) (mkReadState None 0) None false) [] []
| ring_step y y' s g sent got :
    ring_run y sent got -> ring_next y y' s g -> ring_run y' (sent ++ s) (got ++ g)
| ring_read c st h sent got count :
    ring_run (mkRing c st None h) sent got -> 0 <= count ->
    ring_run (mkRing c st (Some (read_start count st)) h) sent got
| ring_return c st k h sent got r :
    ring_run (mkRing c st (Some k) h) sent got -> k_pc k = Returned r ->
    ring_run (mkRing c (read_save st k) None h) sent got.

(** ** The invariant

    [n] samples have been released by the reader; the slots from the tail to
    the head are a window of the samples sent. *)

Definition at_slot (size : Z) (n : nat) : Z := Z.of_nat n mod size.

(** The reader is [off] bytes into sample [n], or between samples. *)
Definition reads_at (size : Z) (sent : list (list Z)) (n : nat) (bleft : Z) (ptr : option (Z * Z)) (off : Z) : Prop :=
  (bleft = 0 /\ off = 0) \/
  exists s, sent !! n = Some s /\ 0 <= off /\ 0 < bleft /\ bleft = zlen s - off /\ ptr = Some (at_slot size n, off).

Definition copied (sent : list (list Z)) (n : nat) (off : Z) : list Z :=
  concat (take n sent) ++ take (Z.to_nat off) (default [] (sent !! n)).

(** Where a call is. *)
Definition call_at (size : Z) (sent : list (list Z)) (n : nat) (k : read_call) (got : list Z) : Prop :=
  0 <= k_count k /\ k_countreq k = k_count k + zlen (k_out k) /\
  match k_pc k with
  | AtCopy => exists off, reads_at size sent n (k_bytesLeft k) (k_samplePtr k) off /\ got = copied sent n off
  | AtIncrement => (n < length sent)%nat /\ k_bytesLeft k = 0 /\ got = copied sent (S n) 0
  | AtGet => k_bytesLeft k = 0 /\ got = copied sent n 0
  | Returned r => r = zlen (k_out k) /\
      exists off, reads_at size sent n (k_bytesLeft k) (k_samplePtr k) off /\ got = copied sent n off
  end.

Definition well_sized (s : list Z) : Prop :=
  header_length s + SIZEOF_DSM_SAMPLE_HEADER = zlen s /\ zlen s < 2 ^ 32.

Record ring_inv (y : ring_sys) (sent : list (list Z)) (got : list Z) (n : nat) : Prop := {
  ri_size : pow2 (c_size (y_circ y));
  ri_slots : zlen (c_slots (y_circ y)) = c_size (y_circ y);
  ri_released : (n <= length sent)%nat;
  ri_room : Z.of_nat (length sent) - Z.of_nat n <= c_size (y_circ y) - 1 - (if y_hold y then 1 else 0);
  ri_head : c_head (y_circ y) = at_slot (c_size (y_circ y)) (length sent);
  ri_tail : c_tail (y_circ y) = at_slot (c_size (y_circ y)) n;
  ri_window i s : (n <= i)%nat -> sent !! i = Some s ->
    exists rest, slot (y_circ y) (at_slot (c_size (y_circ y)) i) = s ++ rest;
  ri_sent : Forall well_sized sent;
  ri_reader :
    match y_call y with
    | Some k => call_at (c_size (y_circ y)) sent n k got
    | None => exists off, reads_at (c_size (y_circ y)) sent n (bytesLeft (y_state y)) (samplePtr (y_state y)) off
        /\ got = copied sent n off
    end
}.

(** ** Indices *)

Lemma at_slot_range size n : pow2 size -> 0 <= at_slot size n < size.
Proof. intros H%pow2_pos. apply Z.mod_pos_bound. lia. Qed.

Lemma at_slot_next size n : pow2 size -> Z.land (at_slot size n + 1) (size - 1) = at_slot size (S n).
Proof.
  intros H. rewrite land_pow2 by done. unfold at_slot. rewrite Nat2Z.inj_succ.
  pose proof (pow2_pos size H). by rewrite Zplus_mod_idemp_l.
Qed.

(** Within one turn of the buffer different samples have different slots. *)
Lemma at_slot_inj size i j : pow2 size -> Z.abs (Z.of_nat i - Z.of_nat j) < size ->
  at_slot size i = at_slot size j -> i = j.
Proof.
  intros H%pow2_pos Hd E. unfold at_slot in E.
  pose proof (Z.div_mod (Z.of_nat i) size ltac:(lia)). pose proof (Z.div_mod (Z.of_nat j) size ltac:(lia)).
  assert (Z.of_nat i / size = Z.of_nat j / size) by nia. lia.
Qed.

(** The distance of the indices is the number of samples between them. *)
Lemma at_slot_count size m n : pow2 size -> (n <= m)%nat -> Z.of_nat m - Z.of_nat n < size ->
  (at_slot size m - at_slot size n) mod size = Z.of_nat m - Z.of_nat n.
Proof.
  intros H Hle Hlt. unfold at_slot. rewrite <- Zminus_mod. apply Z.mod_small. lia.
Qed.

(** ** Bytes copied *)

Lemma copied_0 sent n : copied sent n 0 = concat (take n sent).
Proof. unfold copied. by rewrite app_nil_r. Qed.

Lemma copied_more sent n s off k :
  sent !! n = Some s -> 0 <= off -> 0 <= k ->
  copied sent n (off + k) = copied sent n off ++ take (Z.to_nat k) (drop (Z.to_nat off) s).
Proof.
  intros E ? ?. unfold copied. rewrite E. cbn [default]. rewrite <- app_assoc. f_equal.
  rewrite Z2Nat.inj_add by done. symmetry. apply take_take_drop.
Qed.

Lemma copied_all sent n s : sent !! n = Some s -> copied sent n (zlen s) = copied sent (S n) 0.
Proof.
  intros E. rewrite copied_0. unfold copied. rewrite E. cbn [default].
  unfold zlen, id. rewrite Nat2Z.id, (take_ge s) by lia.
  rewrite (take_S_r _ _ _ E), concat_app. cbn. by rewrite app_nil_r.
Qed.

(** What was copied, and where the reader is, do not change when a sample is
    added. *)
Lemma copied_snoc sent x n off : (n < length sent)%nat \/ off = 0 /\ (n <= length sent)%nat ->
  copied (sent ++ [x]) n off = copied sent n off.
Proof.
  intros H. unfold copied. rewrite take_app_le by lia. f_equal. destruct H as [H|[-> _]]; [|done].
  by rewrite lookup_app_l.
Qed.

Lemma reads_at_place size sent n bleft ptr off :
  reads_at size sent n bleft ptr off -> (n <= length sent)%nat ->
  (n < length sent)%nat \/ off = 0 /\ (n <= length sent)%nat.
Proof. intros [[_ ->]|(s & E & _)] H; [by right|]. left. by apply lookup_lt_Some in E. Qed.

Lemma reads_at_snoc size sent x n bleft ptr off :
  reads_at size sent n bleft ptr off -> reads_at size (sent ++ [x]) n bleft ptr off.
Proof.
  intros [H|(s & E & H)]; [by left|]. right. exists s. split; [|done].
  by rewrite lookup_app_l by (by apply lookup_lt_Some in E).
Qed.

Lemma call_at_snoc size sent x n k got : (n <= length sent)%nat ->
  call_at size sent n k got -> call_at size (sent ++ [x]) n k got.
Proof.
  intros Hn (H1 & H2 & H). split; [done|]. split; [done|]. destruct (k_pc k) as [| | |r].
  - destruct H as (off & Hr & ->). exists off. split; [by apply reads_at_snoc|].
    symmetry. apply copied_snoc. by eapply reads_at_place.
  - destruct H as (H & Hb & ->). split; [rewrite length_app; lia|]. split; [done|].
    symmetry. apply copied_snoc. right. split; [done|lia].
  - destruct H as (Hb & ->). split; [done|]. symmetry. apply copied_snoc. by right.
  - destruct H as (Hr & off & Hat & ->). split; [done|]. exists off. split; [by apply reads_at_snoc|].
    symmetry. apply copied_snoc. by eapply reads_at_place.
Qed.

(** ** Samples in slots *)

Lemma header_length_prefix s rest : 8 <= zlen s -> header_length (s ++ rest) = header_length s.
Proof.
  intros H. unfold header_length, zlen in *. do 2 f_equal.
  rewrite drop_app_le by lia. rewrite take_app_le by (rewrite length_drop; lia). done.
Qed.

Lemma header_length_nonneg s : 0 <= header_length s.
Proof. unfold header_length. pose proof (u32_range (little_endian_to_Z 8 (take 4 (drop 4 s)))). lia. Qed.

Lemma well_sized_len s : well_sized s -> 8 <= zlen s < 2 ^ 32.
Proof.
  intros [H1 H2]. pose proof (header_length_nonneg s). unfold SIZEOF_DSM_SAMPLE_HEADER in *. lia.
Qed.

Lemma sample_bytes_sized s : slot_filled s -> well_sized (sample_bytes s) /\ exists rest, s = sample_bytes s ++ rest.
Proof.
  intros [H1 H2]. pose proof (header_length_nonneg s) as H0. unfold SIZEOF_DSM_SAMPLE_HEADER in *.
  assert (E : s = sample_bytes s ++ drop (Z.to_nat (header_length s + 8)) s)
    by (symmetry; apply take_drop).
  assert (L : zlen (sample_bytes s) = header_length s + 8)
    by (unfold sample_bytes, SIZEOF_DSM_SAMPLE_HEADER, zlen in *; rewrite length_take; lia).
  split; [|by eexists]. split; [|lia]. rewrite L. f_equal. rewrite E at 2.
  symmetry. apply header_length_prefix. lia.
Qed.

(** ** Steps keep the invariant *)

Lemma slot_bytes c size s rest n off k :
  slot c (at_slot size n) = s ++ rest -> 0 <= off -> 0 <= k <= zlen s - off ->
  bytes_at c (Some (at_slot size n, off)) k = take (Z.to_nat k) (drop (Z.to_nat off) s).
Proof.
  intros E H1 H2. unfold bytes_at, zlen in *. rewrite E.
  rewrite drop_app_le by lia. rewrite take_app_le by (rewrite length_drop; lia). done.
Qed.

Lemma GET_TAIL_inv y sent got n : ring_inv y sent got n ->
  GET_TAIL (y_circ y) =
    if decide (n < length sent)%nat then Some (at_slot (c_size (y_circ y)) n) else None.
Proof.
  intros []. unfold GET_TAIL. rewrite ri_head0, ri_tail0.
  rewrite CIRC_CNT_count by auto using at_slot_range.
  rewrite at_slot_count by (auto; destruct (y_hold y); lia).
  case_decide; destruct (Z.ltb_spec 0 (Z.of_nat (length sent) - Z.of_nat n)); done || lia.
Qed.

Lemma GET_HEAD_inv y sent got n : ring_inv y sent got n ->
  GET_HEAD (y_circ y) =
    if decide (Z.of_nat (length sent) - Z.of_nat n < c_size (y_circ y) - 1)
    then Some (c_head (y_circ y)) else None.
Proof.
  intros []. unfold GET_HEAD. rewrite ri_head0, ri_tail0.
  rewrite CIRC_SPACE_count by auto using at_slot_range.
  rewrite at_slot_count by (auto; destruct (y_hold y); lia).
  case_decide; bdestr; done || lia.
Qed.

Local Ltac kproj := unfold call_at; cbn [k_out k_pc k_count k_countreq k_bytesLeft k_samplePtr].

(** The copy takes the next bytes of the sample under the reader. *)
Lemma read_copy_keeps c st k h sent got n :
  ring_inv (mkRing c st (Some k) h) sent got n -> k_pc k = AtCopy ->
  call_at (c_size c) sent n (read_copy false c k) (got ++ drop (length (k_out k)) (k_out (read_copy false c k))).
Proof.
  intros [? ? ? ? ? ? Hw Hs (Hc & Hreq & Hr)] Hpc. cbn in *. rewrite Hpc in Hr.
  destruct Hr as (off & Hat & ->). destruct k as [req count bl ptr out pc].
  unfold read_copy. cbn in *. destruct (Z.eqb_spec count 0) as [->|Hne].
  { kproj. rewrite drop_all, app_nil_r. split; [done|]. split; [done|].
    split; [lia|]. by exists off. }
  destruct Hat as [[-> ->]|(s & E & Ho & Hb & -> & ->)].
  { rewrite Z.min_l by lia. cbn [Z.ltb Z.compare]. kproj. by rewrite drop_all, app_nil_r. }
  destruct (Hw n s ltac:(lia) E) as [rest Hrest].
  set (m := Z.min (zlen s - off) count). assert (Hm : 0 < m <= zlen s - off) by lia.
  assert (m <= count) by lia.
  assert (Hlen : zlen (bytes_at c (Some (at_slot (c_size c) n, off)) m) = m).
  { erewrite slot_bytes by (eauto; lia). unfold zlen in *. rewrite length_take, length_drop. lia. }
  rewrite (proj2 (Z.ltb_lt 0 m)) by lia.
  destruct (Z.ltb_spec 0 (zlen s - off - m)).
  - kproj. rewrite drop_app_length. split; [lia|]. rewrite zlen_app, Hlen. split; [lia|]. split; [lia|].
    exists (off + m). split.
    + right. exists s. cbn [ptr_add]. split_and!; try done; lia.
    + erewrite slot_bytes by (eauto; lia). symmetry. apply copied_more; [done|lia|lia].
  - kproj. rewrite drop_app_length. split; [lia|]. rewrite zlen_app, Hlen. split; [lia|].
    split; [by apply lookup_lt_Some in E|]. split; [lia|].
    rewrite <- (copied_all _ _ _ E). replace (zlen s) with (off + m) by lia.
    erewrite slot_bytes by (eauto; lia). symmetry. apply copied_more; [done|lia|lia].
Qed.

Lemma read_get_keeps c st k h sent got n :
  ring_inv (mkRing c st (Some k) h) sent got n -> k_pc k = AtGet ->
  call_at (c_size c) sent n (read_get c k) (got ++ drop (length (k_out k)) (k_out (read_get c k))).
Proof.
  intros Hinv Hpc. pose proof (GET_TAIL_inv _ _ _ _ Hinv) as Ht.
  destruct Hinv as [? ? ? ? ? ? Hw Hs (Hc & Hreq & Hr)]. cbn in *. rewrite Hpc in Hr.
  destruct Hr as (Hb & ->). destruct k as [req count bl ptr out pc]. unfold read_get. rewrite Ht.
  cbn in *. case_decide as Hlt; kproj; rewrite drop_all, app_nil_r.
  - split; [done|]. split; [done|].
    destruct (lookup_lt_is_Some_2 _ _ Hlt) as [s E]. destruct (Hw n s ltac:(lia) E) as [rest Hrest].
    assert (Hsz : well_sized s) by (by eapply (Forall_lookup_1 _ _ _ _ Hs)).
    pose proof (well_sized_len _ Hsz). destruct Hsz as [Hl _].
    exists 0. split; [|done]. right. exists s. rewrite Hrest, header_length_prefix by lia.
    split_and!; try done; lia.
  - split; [done|]. split; [done|]. split; [lia|]. exists 0. split; [by left|done].
Qed.

Lemma read_step_keeps c st k h sent got n c' k' :
  ring_inv (mkRing c st (Some k) h) sent got n -> read_step false c k = (c', k') ->
  exists n', ring_inv (mkRing c' st (Some k') h) sent (got ++ drop (length (k_out k)) (k_out k')) n'.
Proof.
  intros Hinv E. unfold read_step in E. destruct (k_pc k) eqn:Hpc; injection E as <- <-.
  - exists n. pose proof (read_copy_keeps _ _ _ _ _ _ _ Hinv Hpc). destruct Hinv. by split.
  - cbn. rewrite drop_all, app_nil_r. exists (S n).
    destruct Hinv as [? ? ? ? ? Ht Hw Hs (Hc & Hreq & Hr)]. cbn in *. rewrite Hpc in Hr.
    destruct Hr as (Hlt & Hb & ->). split; cbn; try done; try lia.
    + rewrite Ht. by apply at_slot_next.
    + intros i s Hi. apply Hw. lia.
  - exists n. pose proof (read_get_keeps _ _ _ _ _ _ _ Hinv Hpc). destruct Hinv. by split.
  - exists n. by rewrite drop_all, app_nil_r.
Qed.

(** ** The producer *)

(** What the producer stores is outside of the window. *)
Lemma store_keeps c st k sent got n bytes :
  ring_inv (mkRing c st k true) sent got n ->
  ring_inv (mkRing (store_slot c (c_head c) bytes) st k true) sent got n.
Proof.
  intros [? ? ? Hroom Hhead ? Hw ? ?]. cbn in *. split; cbn; try done.
  - unfold zlen in *. by rewrite length_insert.
  - intros i s Hi E. destruct (Hw i s Hi E) as [rest Hrest]. exists rest. rewrite <- Hrest.
    unfold slot, store_slot. cbn. rewrite list_lookup_insert_ne; [done|].
    assert (i < length sent)%nat by (by apply lookup_lt_Some in E). rewrite Hhead.
    pose proof (at_slot_range (c_size c) (length sent) ltac:(done)).
    pose proof (at_slot_range (c_size c) i ltac:(done)).
    intros Eq%Z2Nat.inj; try lia. apply at_slot_inj in Eq; [lia|done|lia].
Qed.

Lemma increment_head_keeps c st k sent got n :
  ring_inv (mkRing c st k true) sent got n -> slot_filled (slot c (c_head c)) ->
  ring_inv (mkRing (INCREMENT_HEAD c) st k false) (sent ++ [sample_bytes (slot c (c_head c))]) got n.
Proof.
  intros [? ? ? Hroom Hhead ? Hw ? Hr] Hf. destruct (sample_bytes_sized _ Hf) as [Hsz [rest Hrest]].
  cbn in *. split; cbn; try done.
  - rewrite length_app; cbn; lia.
  - rewrite length_app; cbn; lia.
  - rewrite Hhead, length_app, Nat.add_1_r. by apply at_slot_next.
  - intros i s Hi E. apply lookup_app_Some in E as [E|[Hge E]]; [by apply (Hw i s)|].
    apply list_lookup_singleton_Some in E as [Hi' <-].
    replace i with (length sent) by lia. rewrite <- Hhead. by exists rest.
  - by apply Forall_app_2; [|constructor].
  - destruct k as [k|]; [by apply call_at_snoc|]. destruct Hr as (off & Hat & ->). exists off.
    split; [by apply reads_at_snoc|]. symmetry. apply copied_snoc. by eapply reads_at_place.
Qed.

Lemma return_keeps c st k h sent got n r :
  ring_inv (mkRing c st (Some k) h) sent got n -> k_pc k = Returned r ->
  ring_inv (mkRing c (read_save st k) None h) sent got n.
Proof.
  intros [? ? ? ? ? ? ? Hs (_ & _ & Hr)] Hpc. cbn in *. rewrite Hpc in Hr.
  destruct Hr as (-> & off & Hat & ->). unfold read_save. rewrite Hpc.
  pose proof (zlen_nonneg (k_out k)). destruct (Z.ltb_spec (zlen (k_out k)) 0); [lia|].
  split; try done. exists off. split; [|done]. cbn.
  destruct Hat as [[-> ->]|(s & E & Ho & Hb & Hbl & Hp)]; [by left|].
  right. exists s. pose proof (well_sized_len s (Forall_lookup_1 _ _ _ _ Hs E)).
  rewrite u32_small by lia. done.
Qed.

Lemma next_keeps y y' s g sent got n : ring_inv y sent got n -> ring_next y y' s g ->
  exists n', ring_inv y' (sent ++ s) (got ++ g) n'.
Proof.
  intros IH Hn. revert IH. destruct Hn as [c st k h i Hi|c st k i bytes -> _|c st k Hf|c st k h c' k' E];
    intros IH; rewrite ?app_nil_r.
  - exists n. pose proof (GET_HEAD_inv _ _ _ _ IH) as Hh. cbn in Hh.
    rewrite Hi in Hh. destruct IH. cbn in *. split; try done. cbn. by case_decide; [lia|].
  - exists n. by apply store_keeps.
  - exists n. by apply increment_head_keeps.
  - by eapply read_step_keeps.
Qed.

Lemma ring_invariant y sent got : ring_run y sent got -> exists n, ring_inv y sent got n.
Proof.
  induction 1 as [slots size Hp Hl|y y' s g sent got _ [n IH] Hn|c st h sent got count _ [n IH] Hc
    |c st k h sent got r _ [n IH] E].
  - exists 0%nat. pose proof (pow2_pos _ Hp). split; cbn; try done; try lia.
    exists 0. by split; [left|].
  - by eapply next_keeps.
  - exists n. destruct IH as [? ? ? ? ? ? ? ? Hr]. cbn in *. split; try done. cbn.
    split; [done|]. cbn. split; [change (zlen []) with 0; lia|]. done.
  - exists n. by eapply return_keeps.
Qed.

(** ** Whole calls *)

Lemma copied_prefix sent n off : exists rest, concat sent = copied sent n off ++ rest.
Proof.
  unfold copied. destruct (sent !! n) as [s|] eqn:E; cbn [default id].
  - exists (drop (Z.to_nat off) s ++ concat (drop (S n) sent)).
    rewrite <- app_assoc, (app_assoc (take _ s)), take_drop.
    rewrite <- (take_drop_middle _ _ _ E) at 1. by rewrite concat_app.
  - exists []. rewrite take_nil, !app_nil_r. by rewrite take_ge by (by apply lookup_ge_None).
Qed.

Lemma read_copy_out fault c k : exists bytes, k_out (read_copy fault c k) = k_out k ++ bytes.
Proof.
  destruct k. unfold read_copy. repeat case_match; cbn; (exists []; by rewrite app_nil_r) || by eexists.
Qed.

Lemma read_step_out fault c k c' k' : read_step fault c k = (c', k') -> exists bytes, k_out k' = k_out k ++ bytes.
Proof.
  unfold read_step. destruct (k_pc k); intros [= <- <-].
  - apply read_copy_out.
  - exists []. by rewrite app_nil_r.
  - exists []. destruct k. unfold read_get. case_match; cbn; by rewrite app_nil_r.
  - exists []. by rewrite app_nil_r.
Qed.

(** A call that returns has stored all that was asked for, or all there is. *)
Lemma read_step_returned c st k h sent got n c' k' r :
  ring_inv (mkRing c st (Some k) h) sent got n -> read_step false c k = (c', k') -> k_pc k' = Returned r ->
  (exists r0, k_pc k = Returned r0) \/ k_count k' = 0 \/
  got ++ drop (length (k_out k)) (k_out k') = concat sent.
Proof.
  intros Hinv E Hr. unfold read_step in E. destruct (k_pc k) eqn:Hpc; injection E as <- <-; [| |right|eauto].
  - right. left. destruct k as [req count bl ptr out pc]. unfold read_copy in *. cbn in Hpc. subst pc.
    destruct Hinv as [? ? ? ? ? ? ? ? (Hc & _)]. cbn in Hc. bdestr; cbn in *; lia || done.
  - by rewrite Hpc in Hr || done.
  - pose proof (GET_TAIL_inv _ _ _ _ Hinv) as Ht. cbn in Ht.
    destruct Hinv as [? ? ? ? ? ? ? ? (Hc & _ & Hat)]. cbn in *. rewrite Hpc in Hat.
    destruct Hat as [_ ->]. destruct k. unfold read_get in *. rewrite Ht in *.
    case_decide; cbn in *; [done|]. right. rewrite drop_all, app_nil_r, copied_0.
    by rewrite take_ge by lia.
Qed.

(** The steps a call still has to go. *)
Definition read_measure (k : read_call) : Z :=
  3 * k_count k +
  match k_pc k with
  | AtCopy => if k_bytesLeft k =? 0 then 2 else 0
  | AtIncrement => 2
  | AtGet => 1
  | Returned _ => - 3 * k_count k - 1
  end.

Lemma read_step_decreases c st k h sent got n :
  ring_inv (mkRing c st (Some k) h) sent got n -> (forall r, k_pc k <> Returned r) ->
  read_measure (read_step false c k).2 < read_measure k.
Proof.
  intros Hinv Hpc. pose proof (GET_TAIL_inv _ _ _ _ Hinv) as Ht.
  destruct Hinv as [? ? ? ? ? ? Hw Hs (Hc & _ & Hat)]. cbn in *.
  destruct k as [req count bl ptr out pc]. unfold read_step, read_measure. cbn in *.
  destruct pc as [| | |r]; cbn; [| lia | |by destruct (Hpc r)].
  - destruct Hat as (off & [[-> ->]|(s & E & _ & Hb & _)] & _); bdestr; cbn; lia.
  - rewrite Ht. case_decide as Hlt; cbn; [|lia].
    pose proof (header_length_nonneg (slot c (at_slot (c_size c) n))).
    unfold SIZEOF_DSM_SAMPLE_HEADER. bdestr; lia.
Qed.

Lemma read_steps_run fuel : forall c st k h sent got c' k',
  ring_run (mkRing c st (Some k) h) sent got -> read_steps fuel (fun _ => false) c k = (c', k') ->
  read_measure k < Z.of_nat fuel -> (forall r, k_pc k <> Returned r) ->
  exists bytes r, k_out k' = k_out k ++ bytes /\ k_pc k' = Returned r /\
    ring_run (mkRing c' st (Some k') h) sent (got ++ bytes) /\
    (k_count k' = 0 \/ got ++ bytes = concat sent).
Proof.
  induction fuel as [|fuel IH]; intros c st k h sent got c' k' Hrun E Hm Hnr.
  { destruct (ring_invariant _ _ _ Hrun) as [n Hinv]. destruct Hinv as [? ? ? ? ? ? ? ? (Hc & _)].
    cbn in Hc. unfold read_measure in Hm. destruct (k_pc k) eqn:Hpc; bdestr; try lia. by destruct (Hnr result). }
  cbn [read_steps] in E. destruct (read_step false c k) as [c1 k1] eqn:E1.
  assert (E2 : read_steps fuel (fun _ => false) c1 k1 = (c', k')).
  { destruct (k_pc k) eqn:Hpc; try done. by destruct (Hnr result). }
  destruct (ring_invariant _ _ _ Hrun) as [n Hinv].
  pose proof (read_step_decreases _ _ _ _ _ _ _ Hinv Hnr) as Hd. rewrite E1 in Hd. cbn in Hd.
  destruct (read_step_out _ _ _ _ _ E1) as [b1 Hb1].
  pose proof (ring_step _ _ _ _ _ _ Hrun (next_read _ _ _ _ _ _ E1)) as Hrun1.
  rewrite Hb1, drop_app_length, app_nil_r in Hrun1.
  destruct (k_pc k1) as [| | |r] eqn:Hpc1.
  4: { assert (c1 = c' /\ k1 = k') as [<- <-] by (destruct fuel; cbn in E2; rewrite Hpc1 in E2; by injection E2).
       exists b1, r. split_and!; try done.
       destruct (read_step_returned _ _ _ _ _ _ _ _ _ _ Hinv E1 Hpc1) as [[r0 H0]|[H0|H0]].
       - by destruct (Hnr r0).
       - by left.
       - right. by rewrite Hb1, drop_app_length in H0. }
  all: destruct (IH c1 st k1 h sent (got ++ b1) c' k' Hrun1 E2) as (b2 & r & Ho & Hr & Hrun2 & Hall);
    [lia|by rewrite Hpc1|]; exists (b1 ++ b2), r; rewrite Ho, Hb1, !app_assoc; by split_and!.
Qed.

(** ** Properties *)

(** The sample that the reader is copying from. *)
Definition reading (y : ring_sys) : option Z :=
  match y_call y with
  | Some k => if 0 <? k_bytesLeft k then fst <$> k_samplePtr k else None
  | None => if 0 <? bytesLeft (y_state y) then fst <$> samplePtr (y_state y) else None
  end.

Lemma reading_tail y sent got n i : ring_inv y sent got n -> reading y = Some i ->
  (n < length sent)%nat /\ i = at_slot (c_size (y_circ y)) n.
Proof.
  assert (H : forall bl ptr off, reads_at (c_size (y_circ y)) sent n bl ptr off ->
    (if 0 <? bl then fst <$> ptr else None) = Some i ->
    (n < length sent)%nat /\ i = at_slot (c_size (y_circ y)) n).
  { intros bl ptr off [[-> _]|(s & E & _ & Hb & _ & ->)]; [done|].
    rewrite (proj2 (Z.ltb_lt 0 bl) Hb). intros [= <-]. by apply lookup_lt_Some in E. }
  intros [? ? ? ? ? ? ? ? Hr]. unfold reading. destruct (y_call y) as [k|].
  - destruct Hr as (_ & _ & Hr). destruct (k_pc k).
    + destruct Hr as (off & Hat & _). by apply (H _ _ off).
    + destruct Hr as (_ & -> & _). done.
    + destruct Hr as (-> & _). done.
    + destruct Hr as (_ & off & Hat & _). by apply (H _ _ off).
  - destruct Hr as (off & Hat & _). by apply (H _ _ off).
Qed.

Lemma got_prefix y sent got : ring_run y sent got -> exists rest, concat sent = got ++ rest.
Proof.
  intros [n [? ? ? ? ? ? ? ? Hr]]%ring_invariant. destruct (y_call y) as [k|].
  - destruct Hr as (_ & _ & Hr). destruct (k_pc k).
    + destruct Hr as (off & _ & ->). apply copied_prefix.
    + destruct Hr as (_ & _ & ->). apply copied_prefix.
    + destruct Hr as (_ & ->). apply copied_prefix.
    + destruct Hr as (_ & off & _ & ->). apply copied_prefix.
  - destruct Hr as (off & _ & ->). apply copied_prefix.
Qed.

(** C5: the circular buffer is a queue for every interleaving of one producer
    and one reader.  The bytes copied to the user are the samples made
    available, in order and without gap, up to the place of the reader, who
    is at most one sample past those it has released; the samples not released are at most one
    fewer than the slots, and the producer is refused a slot exactly when
    they are that many; the slot the producer may store to is never the one
    the reader copies from; and a call that has returned reports exactly the
    bytes it stored, no more than asked for. *)
Theorem ring_fifo y sent got :
  ring_run y sent got ->
  exists n rest,
    concat sent = got ++ rest /\ (exists part, got = concat (take n sent) ++ part /\
      match sent !! n with Some s => zlen part <= zlen s | None => part = [] end) /\
    0 <= Z.of_nat (length sent) - Z.of_nat n <= c_size (y_circ y) - 1 /\
    (GET_HEAD (y_circ y) = None <-> Z.of_nat (length sent) - Z.of_nat n = c_size (y_circ y) - 1) /\
    (forall i, y_hold y = true -> reading y = Some i -> i <> c_head (y_circ y)) /\
    (forall k r, y_call y = Some k -> k_pc k = Returned r -> r = zlen (k_out k) /\ r <= k_countreq k).
Proof.
  intros [n Hinv]%ring_invariant.
  pose proof (GET_HEAD_inv _ _ _ _ Hinv) as Hh.
  pose proof (fun i => reading_tail _ _ _ _ i Hinv) as Ht.
  assert (Hg : exists m off, (m = n \/ m = S n /\ off = 0 /\ (n < length sent)%nat) /\ got = copied sent m off).
  { destruct Hinv as [? ? ? ? ? ? ? ? Hr]. destruct (y_call y) as [k|].
    - destruct Hr as (_ & _ & Hr). destruct (k_pc k).
      + destruct Hr as (off & _ & ->). eauto.
      + destruct Hr as (? & _ & ->). exists (S n), 0. auto.
      + destruct Hr as (_ & ->). eauto.
      + destruct Hr as (_ & off & _ & ->). eauto.
    - destruct Hr as (off & _ & ->). eauto. }
  destruct Hg as (m & off & Hm & Hgot). destruct (copied_prefix sent m off) as [rest Hrest].
  exists n, rest. split; [by rewrite Hgot|]. split_and!.
  - destruct Hm as [->|(-> & -> & Hlt)].
    + unfold copied in Hgot. eexists. split; [exact Hgot|]. destruct (sent !! n) as [s|]; [|apply take_nil].
      cbn [default id]. unfold zlen. rewrite length_take. lia.
    + destruct (lookup_lt_is_Some_2 _ _ Hlt) as [s E]. exists s. rewrite E. split; [|done].
      rewrite Hgot, copied_0, (take_S_r _ _ _ E), concat_app. cbn. by rewrite app_nil_r.
  - destruct Hinv. lia.
  - destruct Hinv. destruct (y_hold y); lia.
  - rewrite Hh. case_decide; [split; [done|intros; exfalso; lia]|]. split; [|done].
    intros _. destruct Hinv. destruct (y_hold y); lia.
  - intros i Hhold Hi. destruct (Ht _ Hi) as [Hlt ->]. destruct Hinv. rewrite Hhold in *.
    rewrite ri_head0. intros Eq. apply at_slot_inj in Eq; [lia|done|lia].
  - intros k r Hk Hr. destruct Hinv as [? ? ? ? ? ? ? ? Hc]. rewrite Hk in Hc.
    destruct Hc as (? & ? & Hc). rewrite Hr in Hc. destruct Hc. lia.
Qed.

(** Nothing is left exactly when the reader is between samples and the
    indices agree: the condition on which it sleeps. *)
Lemma nothing_left c st h sent got n rest :
  ring_inv (mkRing c st None h) sent got n -> concat sent = got ++ rest ->
  rest = [] <-> bytesLeft st = 0 /\ c_head c = c_tail c.
Proof.
  intros Hinv E. pose proof (GET_TAIL_inv _ _ _ _ Hinv) as Ht.
  destruct Hinv as [? ? ? ? Hhead Htail ? Hs (off & Hat & ->)]. cbn in *. split.
  - intros ->. rewrite app_nil_r in E. assert (n = length sent).
    { destruct (decide (n < length sent)%nat) as [Hlt|]; [|lia].
      destruct (lookup_lt_is_Some_2 _ _ Hlt) as [s Es].
      rewrite <- (take_drop_middle _ _ _ Es) in E at 1. rewrite concat_app in E. unfold copied in E.
      rewrite Es in E. apply app_inv_head in E. cbn [default id concat] in E.
      apply (f_equal zlen) in E. rewrite zlen_app in E. pose proof (zlen_nonneg (concat (drop (S n) sent))).
      pose proof (well_sized_len s (Forall_lookup_1 _ _ _ _ Hs Es)).
      destruct Hat as [[_ ->]|(s' & Es' & Ho & Hb & Hl & _)].
      - rewrite take_0 in E. change (zlen []) with 0 in E. lia.
      - rewrite Es in Es'. injection Es' as <-. unfold zlen in *. rewrite length_take in E. lia. }
    subst n. split; [|by rewrite Hhead, Htail].
    destruct Hat as [[? _]|(s & Es & _)]; [done|]. apply lookup_lt_Some in Es. lia.
  - intros [Hb He]. assert (n = length sent).
    { rewrite Hhead, Htail in He. apply at_slot_inj in He; [done|done|]. destruct h; lia. }
    subst n. destruct Hat as [[_ ->]|(s & Es & _)]; [|apply lookup_lt_Some in Es; lia].
    rewrite copied_0, take_ge in E by lia. apply (f_equal length) in E. rewrite length_app in E.
    apply nil_length_inv. lia.
Qed.

Lemma read_steps_countreq fuel : forall fault c k, k_countreq (read_steps fuel fault c k).2 = k_countreq k.
Proof.
  induction fuel as [|fuel IH]; intros fault c k; cbn [read_steps]; [by destruct (k_pc k)|].
  unfold read_step. destruct k as [q0 n0 l0 p0 o0 pc]. destruct pc; cbn [k_pc]; rewrite ?IH; try done.
  - unfold read_copy. by repeat case_match.
  - unfold read_get. by repeat case_match.
Qed.

(** A part of what is left that has the wanted length, or is all of it. *)
Lemma take_of_rest (count : Z) (out rest rest2 : list Z) :
  rest = out ++ rest2 -> zlen out = count \/ zlen out <= count /\ out = rest ->
  out = take (Z.to_nat count) rest /\ zlen out = Z.min count (zlen rest).
Proof.
  intros -> [<-|[Hle E]].
  - rewrite take_zlen_app, zlen_app. pose proof (zlen_nonneg rest2). split; [done|lia].
  - rewrite <- E. unfold zlen in *. rewrite take_ge by lia. split; [done|lia].
Qed.

Lemma nowait_run c st h sent got count rest :
  ring_run (mkRing c st None h) sent got -> 0 <= count -> concat sent = got ++ rest ->
  let '(c', st', k) := nidas_circbuf_read_nowait (fun _ => false) count c st in
  k_pc k = Returned (Z.min count (zlen rest)) /\ k_out k = take (Z.to_nat count) rest /\
  ring_run (mkRing c' st' None h) sent (got ++ k_out k).
Proof.
  intros Hrun Hc Hrest. unfold nidas_circbuf_read_nowait.
  pose proof (read_steps_countreq (read_fuel count) (fun _ => false) c (read_start count st)) as Hreq.
  destruct (read_steps _ _ _ _) as [c' k'] eqn:E. cbn in Hreq.
  destruct (read_steps_run _ _ _ _ _ _ _ _ _ (ring_read _ _ _ _ _ count Hrun Hc) E)
    as (bytes & r & Ho & Hr & Hrun2 & Hall); [|done|].
  { unfold read_measure, read_start, read_fuel; cbn -[Z.mul]. bdestr; lia. }
  cbn in Ho. subst bytes. destruct (ring_invariant _ _ _ Hrun2) as [n2 [? ? ? ? ? ? ? ? Hk]].
  destruct Hk as (Hc0 & Hq & Hk). rewrite Hr in Hk. destruct Hk as (-> & off & _ & Hcp).
  destruct (copied_prefix sent n2 off) as [rest2 Hp].
  rewrite <- Hcp, Hrest, <- app_assoc in Hp. apply app_inv_head in Hp.
  destruct (take_of_rest count _ _ _ Hp) as [Hout Hlen].
  { rewrite Hrest in Hall. destruct Hall as [Hz|Hall%app_inv_head]; [left|right; split; [|done]]; lia. }
  split; [by rewrite Hr, Hlen|]. split; [done|]. by eapply ring_return.
Qed.

(** A read while the producer pauses takes exactly the next bytes: as many
    as asked for, or all that are left, cutting samples where the count ends
    and going on there the next time; it ends within three steps for each
    byte.  With [O_NONBLOCK] the answer is [-EAGAIN] exactly when nothing is
    left, and a blocked reader goes on as soon as something is there. *)
Theorem read_nowait_complete c st h sent got count :
  ring_run (mkRing c st None h) sent got -> 0 <= count ->
  exists rest, concat sent = got ++ rest /\
    (let '(c', st', k) := nidas_circbuf_read_nowait (fun _ => false) count c st in
     k_pc k = Returned (Z.min count (zlen rest)) /\ k_out k = take (Z.to_nat count) rest /\
     ring_run (mkRing c' st' None h) sent (got ++ k_out k)) /\
    (nidas_circbuf_read true [] (fun _ => false) count c st = Some (inl (- EAGAIN)) <-> rest = []) /\
    (rest <> [] -> forall nonblock wakes, nidas_circbuf_read nonblock wakes (fun _ => false) count c st =
       Some (inr (nidas_circbuf_read_nowait (fun _ => false) count c st))).
Proof.
  intros Hrun Hc. destruct (ring_invariant _ _ _ Hrun) as [n Hinv].
  destruct (got_prefix _ _ _ Hrun) as [rest Hrest].
  exists rest. split; [done|]. split; [by apply nowait_run|].
  pose proof (nothing_left _ _ _ _ _ _ _ Hinv Hrest) as Hn.
  assert (Hw : forall nonblock wakes, rest <> [] -> read_wait nonblock st c wakes = Some (inr c)).
  { intros nonblock wakes Hne. destruct wakes; cbn [read_wait]; bdestr; cbn [andb]; try done;
      by destruct Hne; apply Hn. }
  unfold nidas_circbuf_read. split; [|intros Hne nonblock wakes; by rewrite Hw].
  destruct (decide (rest = [])) as [->|Hne]; [|by rewrite Hw].
  cbn [read_wait]. destruct (proj1 Hn eq_refl) as [-> ->]. by rewrite !Z.eqb_refl.
Qed.

End Ring.

(** ** A fault in the middle of a read

    When [copy_to_user] fails after the call has released a sample, the read
    state is left at that sample: the next read delivers its last bytes again
    and releases the following sample without having delivered it. *)
Definition demo_slots (data : list (list Z)) : list (list Z) := map (fun d => encode_driver 5 d ++ [0; 0]) data.

Lemma fault_repeats_and_loses :
  let s1 := encode_driver 5 [1; 2] in
  let s2 := encode_driver 5 [3; 4] in
  let c := mkCirc (demo_slots [[1; 2]; [3; 4]; []; []]) 2 0 4 in
  let st := mkReadState (Some (0, 4)) 6 in
  let '(c1, st1, k1) := nidas_circbuf_read_nowait (fun f => (f =? 48)%nat) 16 c st in
  let '(c2, st2, k2) := nidas_circbuf_read_nowait (fun _ => false) 16 c1 st1 in
  k_pc k1 = Returned (- EFAULT) /\ k_out k1 = drop 4 s1 /\ st1 = st /\ c_tail c1 = 1 /\
  k_pc k2 = Returned 6 /\ k_out k2 = drop 4 s1 /\ c_tail c2 = c_head c2.
Proof. vm_compute. split_and!; reflexivity. Qed.

(** ** Witnesses *)

(** One sample of two bytes is made available. *)
Lemma demo_run : ring_run (mkRing (mkCirc (demo_slots [[7; 8]; []; []; []]) 1 0 4) (mkReadState None 0) None false)
  [encode_driver 5 [7; 8]] [].
Proof.
  pose proof (ring_new (demo_slots [[0; 0]; []; []; []]) 4 ltac:(by exists 2) eq_refl) as H0.
  eassert (H1 : ring_run _ _ _).
  { eapply (ring_step _ _ _ _ _ _ H0). by eapply next_get_head. }
  eassert (H2 : ring_run _ _ _).
  { eapply (ring_step _ _ _ _ _ _ H1). by apply (next_store _ _ _ 0 (encode_driver 5 [7; 8] ++ [0; 0])). }
  refine (ring_step _ _ _ _ _ _ H2 (next_increment_head _ _ _ _)). by vm_compute.
Qed.

Lemma ring_fifo_witness : exists n rest,
  concat [encode_driver 5 [7; 8]] = [] ++ rest /\ 0 <= 1 - Z.of_nat n <= 3.
Proof.
  destruct (ring_fifo _ _ _ demo_run) as (n & rest & H & _ & Hn & _).
  exists n, rest. split; [exact H|exact Hn].
Defined.

Lemma read_nowait_complete_witness :
  let c := mkCirc (demo_slots [[7; 8]; []; []; []]) 1 0 4 in
  exists rest, concat [encode_driver 5 [7; 8]] = rest /\
    k_out (nidas_circbuf_read_nowait (fun _ => false) 4 c (mkReadState None 0)).2 = take 4 rest.
Proof.
  intros c. destruct (read_nowait_complete _ _ _ _ _ 4 demo_run ltac:(lia)) as (rest & H & Hr & _).
  exists rest. split; [exact H|]. fold c in Hr.
  destruct (nidas_circbuf_read_nowait (fun _ => false) 4 c (mkReadState None 0)) as [[c' st'] k].
  exact (proj1 (proj2 Hr)).
Defined.
