(* ===== verification/DriverPipe.v ===== *)
(** * From a kernel driver to the scanner.

    The reader of the circular buffer of [CircBuf.v] is the [read] that
    [DriverSampleScanner] of [src/src/nidas/core/SampleScanner.cc] calls:
    the samples a driver makes available are the samples the scanner
    returns. *)

From S2P Require Import Prelude SampleId SampleSets SampleClock SampleScanner CircBuf.

Section Pipe.
Context `{CM : CircMacros}.

(** ** The two sides together

    [readBuffer] of the scanner asks for the room in its buffer, the call
    runs interleaved with the producer, and what it stored is what the
    scanner gets; [nextSample] is called when no read is in progress.  Each
    call of [nextSample] that completes a sample adds to [outs] its tag, its
    data, and the sample that the call returns: none when the sample clock
    refuses the tag, and [nextSample] frees the sample and returns null. *)
Inductive pipe_run (usecs id : Z) :
    ring_sys -> list (list Z) -> list Z -> DriverScanner -> list Z ->
    list (Z * list Z * option sample) -> Prop :=
| pipe_new slots size bufsize : pow2 size -> zlen slots = size -> 0 < bufsize ->
    pipe_run usecs id (mkRing (mkCirc slots 0 0 size) (mkReadState None 0) None false) [] []
      (newDriverScanner bufsize) [] []
| pipe_kernel y y' s g sent got d received outs :
    pipe_run usecs id y sent got d received outs -> ring_next y y' s g ->
    pipe_run usecs id y' (sent ++ s) (got ++ g) d received outs
| pipe_read c st h sent got d received outs count :
    pipe_run usecs id (mkRing c st None h) sent got d received outs ->
    count = BUFSIZE (d_buf d) - zlen (unread (d_buf d)) -> count <> 0 ->
    pipe_run usecs id (mkRing c st (Some (read_start count st)) h) sent got d received outs
| pipe_return c st k h sent got d received outs r :
    pipe_run usecs id (mkRing c st (Some k) h) sent got d received outs -> k_pc k = Returned r ->
    pipe_run usecs id (mkRing c (read_save st k) None h) sent got
      (mkDriverScanner (fst (fst (readBuffer (fun _ => k_out k) (d_buf d)))) (d_osamp d) (d_out d) (d_toRead d))
      (received ++ k_out k) outs
| pipe_wait y sent got d received outs now clock d' clock' :
    pipe_run usecs id y sent got d received outs -> y_call y = None ->
    driver_nextEvent usecs id now clock d = (d', Incomplete, clock') ->
    pipe_run usecs id y sent got d' received outs
| pipe_refused y sent got d received outs now clock d' tag data clock' :
    pipe_run usecs id y sent got d received outs -> y_call y = None ->
    driver_nextEvent usecs id now clock d = (d', Refused tag data, clock') ->
    pipe_run usecs id y sent got d' received (outs ++ [(tag, data, None)])
| pipe_sample y sent got d received outs now clock d' tag s clock' :
    pipe_run usecs id y sent got d received outs -> y_call y = None ->
    driver_nextEvent usecs id now clock d = (d', Complete tag s, clock') ->
    pipe_run usecs id y sent got d' received (outs ++ [(tag, s_data s, Some s)]).

(** What the scanner returned to its caller. *)
Definition returned (outs : list (Z * list Z * option sample)) : list sample := omap snd outs.

(** The sample clock decides what a call returns: the sample with the date
    added to its tag, or nothing. *)
Definition dated (id : Z) (o : Z * list Z * option sample) : Prop :=
  let '(tag, data, res) := o in
  exists now clock status t clock', addSampleDate now tag clock = (status, t, clock') /\
    match status with
    | OK => res = Some (mkSample t id 1 data)
    | _ => res = None
    end.

(** ** Each side is a run of its own *)

(** What a call in progress has stored and the scanner has not got yet. *)
Definition in_flight (y : ring_sys) : list Z := match y_call y with Some k => k_out k | None => [] end.

Definition asked (y : ring_sys) (d : DriverScanner) : Prop :=
  match y_call y with
  | Some k => k_countreq k = BUFSIZE (d_buf d) - zlen (unread (d_buf d)) /\ k_countreq k <> 0
  | None => True
  end.

Lemma readBuffer_exact bytes b :
  BUFSIZE b - zlen (unread b) <> 0 -> zlen bytes <= BUFSIZE b - zlen (unread b) ->
  readBuffer (fun _ => bytes) b = readBuffer (fun len => take (Z.to_nat len) bytes) b /\
  drop (length (unread b)) (unread (fst (fst (readBuffer (fun _ => bytes) b)))) = bytes.
Proof.
  intros Hne Hle. unfold readBuffer. destruct (Z.eqb_spec (BUFSIZE b - zlen (unread b)) 0); [done|].
  rewrite take_ge by (unfold zlen in *; lia). split; [done|].
  cbn [fst]. by rewrite unread_shifted, drop_app_length.
Qed.

Lemma scanner_read usecs id d received frames bytes :
  driver_run usecs id d received frames ->
  BUFSIZE (d_buf d) - zlen (unread (d_buf d)) <> 0 ->
  zlen bytes <= BUFSIZE (d_buf d) - zlen (unread (d_buf d)) ->
  driver_run usecs id
    (mkDriverScanner (fst (fst (readBuffer (fun _ => bytes) (d_buf d)))) (d_osamp d) (d_out d) (d_toRead d))
    (received ++ bytes) frames.
Proof.
  intros Hd Hne Hle. destruct (readBuffer_exact bytes (d_buf d) Hne Hle) as [E Hdrop].
  pose proof (run_read usecs id d received frames (fun len => take (Z.to_nat len) bytes) Hd) as H.
  rewrite <- E, Hdrop in H. apply H.
  intros len Hlen. unfold zlen. rewrite length_take. lia.
Qed.

Lemma next_in_flight y y' s g : ring_next y y' s g -> in_flight y' = in_flight y ++ g /\
  (forall d, asked y d -> asked y' d).
Proof.
  destruct 1 as [| | |c st k h c' k' E]; cbn; rewrite ?app_nil_r; try done. unfold in_flight, asked; cbn.
  destruct (read_step_out _ _ _ _ _ E) as [bytes ->]. rewrite drop_app_length. split; [done|].
  intros d. assert (k_countreq k' = k_countreq k) as ->; [|done].
  unfold read_step in E. destruct k as [q0 n0 l0 p0 o0 pc]. destruct pc; cbn in E; injection E as <- <-; cbn; try done.
  - repeat case_match; done.
  - repeat case_match; done.
Qed.

Lemma pipe_sides usecs id y sent got d received outs :
  pipe_run usecs id y sent got d received outs ->
  ring_run y sent got /\ driver_run usecs id d received (map fst outs) /\
  got = received ++ in_flight y /\ asked y d.
Proof.
  induction 1 as [slots size bufsize Hp Hl Hb|y y' s g sent got d received outs _ (Hr & Hd & -> & Ha) Hn
    |c st h sent got d received outs count _ (Hr & Hd & -> & Ha) -> Hne
    |c st k h sent got d received outs r _ (Hr & Hd & -> & Ha) Hk
    |y sent got d received outs now clock d' clock' _ (Hr & Hd & -> & Ha) Hc E
    |y sent got d received outs now clock d' tag data clock' _ (Hr & Hd & -> & Ha) Hc E
    |y sent got d received outs now clock d' tag s clock' _ (Hr & Hd & -> & Ha) Hc E];
    rewrite ?map_app.
  - split; [by apply ring_new|]. split; [by apply run_new|done].
  - destruct (next_in_flight _ _ _ _ Hn) as [-> H]. split; [by eapply ring_step|].
    rewrite <- app_assoc. auto.
  - destruct (run_invariant _ _ _ _ _ Hd) as [Hb _]. pose proof (unread_len _ Hb) as Hl.
    split_and!; try done. apply ring_read; [done|].
    destruct Hb. unfold getBytesInBuffer in Hl. lia.
  - cbn in Ha. destruct Ha as [Ha Hne]. destruct (ring_invariant _ _ _ Hr) as [n [? ? ? ? ? ? ? ? (Hc & Hq & _)]].
    split; [by eapply ring_return|]. split; [apply scanner_read; [done|lia|lia]|].
    by rewrite app_nil_r.
  - split; [done|]. split; [by eapply run_wait|]. by unfold asked; rewrite Hc.
  - split; [done|]. split; [by eapply run_refused|]. by unfold asked; rewrite Hc.
  - split; [done|]. split; [by eapply run_sample|]. by unfold asked; rewrite Hc.
Qed.

(** ** What the sample clock makes of a complete sample *)

Lemma fill_dated id now clock d tag len d' ev clock' :
  driver_fill id now clock d tag len = (d', ev, clock') ->
  match ev with
  | Incomplete => True
  | Refused tag data => dated id (tag, data, None)
  | Complete tag s => dated id (tag, s_data s, Some s)
  end.
Proof.
  unfold driver_fill. case_match; [|by intros [= <- <- <-]].
  destruct (addSampleDate now tag clock) as [[status t] clock1] eqn:E.
  destruct status; intros [= <- <- <-]; do 5 eexists; (split; [exact E|done]).
Qed.

Lemma nextEvent_dated usecs id now clock d d' ev clock' :
  driver_nextEvent usecs id now clock d = (d', ev, clock') ->
  match ev with
  | Incomplete => True
  | Refused tag data => dated id (tag, data, None)
  | Complete tag s => dated id (tag, s_data s, Some s)
  end.
Proof.
  unfold driver_nextEvent. destruct (d_osamp d) as [[tag len]|]; [apply fill_dated|].
  case_match; [by intros [= <- <- <-]|apply fill_dated].
Qed.

Lemma outs_dated usecs id y sent got d received outs :
  pipe_run usecs id y sent got d received outs -> Forall (dated id) outs.
Proof.
  induction 1 as [| | | | |y sent got d received outs now clock d' tag data clock' _ IH _ E%nextEvent_dated
    |y sent got d received outs now clock d' tag s clock' _ IH _ E%nextEvent_dated]; try done; auto using Forall_app_2.
Qed.

(** ** Frames *)

(** A sample as the scanner gives it: the time tag in microseconds, and the
    data after the header. *)
Definition frame_of (usecs : Z) (s : list Z) : Z * list Z := (header_timetag s * usecs, drop 8 s).

Lemma well_sized_frame s : well_sized s -> driver_frame s (header_timetag s) (drop 8 s).
Proof.
  intros Hs. pose proof (well_sized_len _ Hs) as Hl. destruct Hs as [Hs _]. exists (take 8 s).
  unfold SIZEOF_DSM_SAMPLE_HEADER in Hs. split; [symmetry; apply take_drop|]. split_and!.
  - unfold zlen in *. rewrite length_take. lia.
  - unfold header_timetag. by rewrite take_take.
  - assert (header_length (take 8 s) = header_length s) as ->.
    { unfold header_length. by rewrite skipn_firstn_comm, take_take. }
    unfold zlen in *. rewrite length_drop. lia.
Qed.

(** Frames that start the bytes of the samples are the first samples. *)
Lemma frames_of_samples usecs bss : forall sent frames k k',
  Forall well_sized sent -> frames_as usecs bss frames -> concat bss ++ k = concat sent ++ k' ->
  (length bss <= length sent)%nat ->
  frames = map (frame_of usecs) (take (length frames) sent) /\ bss = take (length frames) sent.
Proof.
  induction bss as [|bs bss IH]; intros sent frames k k' Hs Hf E Hl.
  - apply Forall2_nil_inv_l in Hf as ->. done.
  - apply Forall2_cons_inv_l in Hf as ([tag data] & frames' & (raw & Hfr & Ht) & Hf & ->).
    destruct sent as [|s sent]; [cbn in Hl; lia|]. apply Forall_cons in Hs as [Hs Hss].
    cbn in E, Hl. rewrite <- !app_assoc in E.
    destruct (driver_frame_prefix _ _ _ _ _ _ _ _ Hfr (well_sized_frame _ Hs) E) as (-> & -> & Hd & E').
    destruct (IH sent frames' k k' Hss Hf E' ltac:(lia)) as [E1 E2].
    cbn in Hd, Ht |- *. subst tag data. split; [by rewrite E1 at 1|by rewrite E2 at 1].
Qed.

(** There are no more frames than samples. *)
Lemma frames_bounded usecs bss : forall sent frames k,
  Forall well_sized sent -> frames_as usecs bss frames -> concat bss ++ k = concat sent ->
  (length bss <= length sent)%nat /\ (k = [] -> length bss = length sent).
Proof.
  induction bss as [|bs bss IH]; intros sent frames k Hs Hf E.
  - cbn in *. split; [lia|]. intros ->. destruct sent as [|s sent]; [done|].
    apply Forall_cons in Hs as [Hs _]. apply well_sized_len in Hs. cbn in E.
    apply (f_equal zlen) in E. rewrite zlen_app in E. pose proof (zlen_nonneg (concat sent)).
    change (zlen []) with 0 in E. lia.
  - apply Forall2_cons_inv_l in Hf as ([tag data] & frames' & (raw & Hfr & Ht) & Hf & ->).
    assert (8 <= zlen bs).
    { destruct Hfr as (hdr & -> & Hh & _). rewrite zlen_app. pose proof (zlen_nonneg data). cbn. lia. }
    destruct sent as [|s sent].
    { cbn in E. apply (f_equal zlen) in E. rewrite !zlen_app in E. change (zlen []) with 0 in E.
      pose proof (zlen_nonneg (concat bss)). pose proof (zlen_nonneg k). lia. }
    apply Forall_cons in Hs as [Hs Hss]. cbn in E. rewrite <- app_assoc in E.
    destruct (driver_frame_prefix _ _ _ _ _ _ _ _ Hfr (well_sized_frame _ Hs) E) as (-> & _ & _ & E').
    destruct (IH sent frames' k Hss Hf E') as [H1 H2]. cbn. split; [lia|]. intros Hk. by rewrite H2.
Qed.

(** ** Properties *)

(** C6: from a driver to the scanner nothing is lost, repeated, reordered or
    mixed up.  For every interleaving of the producer with the reads, of any
    sizes and without a fault of [copy_to_user], and the calls of
    [nextSample], the samples that the scanner has completed are the first
    ones made available in the circular buffer, each with its own time tag and
    data.  Of each the call returns that data with the date that
    [addSampleDate] adds to the tag, or, exactly when [addSampleDate] refuses
    the tag, nothing.  When the scanner has no read in progress, nothing is
    left in the circular buffer and nothing in the scanner's own buffer, it
    has completed all of them. *)
Theorem driver_to_scanner usecs id y sent got d received outs :
  pipe_run usecs id y sent got d received outs ->
  map fst outs = map (frame_of usecs) (take (length outs) sent) /\
  (length outs <= length sent)%nat /\
  Forall (dated id) outs /\
  (y_call y = None -> sample_remains (y_state y) = false -> GET_TAIL (y_circ y) = None ->
   unread (d_buf d) = [] -> d_osamp d = None -> d_out d = [] ->
   map fst outs = map (frame_of usecs) sent).
Proof.
  intros Hrun. pose proof (outs_dated _ _ _ _ _ _ _ _ Hrun) as Hdate. revert Hrun.
  intros (Hr & Hd & -> & _)%pipe_sides.
  rewrite <- (length_map fst outs). set (frames := map fst outs) in *.
  destruct (ring_invariant _ _ _ Hr) as [n Hinv]. pose proof (GET_TAIL_inv _ _ _ _ Hinv) as Ht.
  pose proof (ri_sent _ _ _ _ Hinv) as Hs.
  destruct (run_invariant _ _ _ _ _ Hd) as (_ & bss & bs & Hf & Hp & ->).
  assert (exists rest, concat sent = ((concat bss ++ bs ++ unread (d_buf d)) ++ in_flight y) ++ rest) as [rest Hrest].
  { by apply (got_prefix _ _ _ Hr). }
  assert (E : concat bss ++ (bs ++ unread (d_buf d) ++ in_flight y ++ rest) = concat sent)
    by (rewrite Hrest; by rewrite <- !app_assoc).
  destruct (frames_bounded _ _ _ _ _ Hs Hf E) as [Hle Hall].
  assert (Hlen : length bss = length frames) by (by eapply Forall2_length).
  destruct (frames_of_samples _ _ sent frames _ [] Hs Hf (eq_trans E (eq_sym (app_nil_r _))) Hle) as [Hfr _].
  split; [done|]. split; [lia|]. split; [done|]. intros Hc Hrem Htail Hu Ho Hout.
  assert (bs = []) as ->. { unfold driver_partial in Hp. rewrite Ho in Hp. destruct Hp as (_ & Hbs & _). by rewrite Hbs. }
  assert (rest = []) as ->.
  { destruct y as [c st k h]. cbn in *. subst k. eapply (nothing_left _ _ _ _ _ _ _ Hinv); [done|].
    unfold sample_remains in Hrem. split; [destruct (Z.eqb_spec (bytesLeft st) 0); done|].
    case_decide as Hlt; [congruence|]. destruct Hinv as [? ? ? ? Hh Htl ? ? ?]. cbn in *.
    rewrite Hh, Htl. f_equal. lia. }
  rewrite Hfr, take_ge; [done|]. rewrite <- Hlen, Hall; [done|].
  rewrite Hu. unfold in_flight. by rewrite Hc.
Qed.

End Pipe.

(** ** Witness *)

Ltac kernel_step H tac :=
  let H' := fresh in
  eassert (H' : pipe_run _ _ _ _ _ _ _ _) by (eapply (pipe_kernel _ _ _ _ _ _ _ _ _ _ _ H); tac);
  clear H; rename H' into H.

(** A sample of two bytes goes all the way, and is returned. *)
Lemma driver_to_scanner_witness :
  let s := encode_driver 5 [7; 8] in
  exists y sent got d received outs, pipe_run 100 3 y sent got d received outs /\
    map fst outs = map (frame_of 100) sent /\ sent = [s] /\ map s_data (returned outs) = [[7; 8]].
Proof.
  intros s. pose proof (pipe_new 100 3 (demo_slots [[0; 0]; []; []; []]) 4 16 ltac:(by exists 2) eq_refl eq_refl) as H.
  kernel_step H ltac:(by eapply next_get_head).
  kernel_step H ltac:(by apply (next_store _ _ _ 0 (s ++ [0; 0]))).
  kernel_step H ltac:(by apply next_increment_head; vm_compute).
  vm_compute in H. apply (pipe_read _ _ _ _ _ _ _ _ _ _ 16) in H; [|done|done].
  do 5 (kernel_step H ltac:(by apply next_read); vm_compute in H).
  eapply pipe_return in H; [|done]. vm_compute in H.
  destruct (driver_nextEvent 100 3 0 (newSampleClock 0) (mkDriverScanner
    (mkScanBuf 16 [5; 0; 0; 0; 2; 0; 0; 0; 7; 8] 0 (mkScanStats (4294967295, 4294967295) (0, 0) false false 0 10 0))
    None [] 8)) as [[d ev] clock'] eqn:E.
  assert (Hev : exists tag smp, ev = Complete tag smp) by (vm_compute in E; injection E as _ <- _; eauto).
  destruct Hev as (tag & smp & ->).
  eapply (pipe_sample _ _ _ _ _ _ _ _ 0 _ d tag smp clock') in H; [|done|exact E].
  do 6 eexists. split; [exact H|].
  split; [|split; [reflexivity|vm_compute in E; injection E as _ _ <- _; reflexivity]].
  apply (driver_to_scanner _ _ _ _ _ _ _ _ H); vm_compute in E; injection E as <- _ _ _; reflexivity.
Defined.
