(* ===== verification/CircAlloc.v ===== *)
(** * Memory of a circular buffer.

    [alloc_dsm_circ_buf], [free_dsm_circ_buf] and [realloc_dsm_circ_buf] of
    [src/src/nidas/linux/util/nidas_util.c].  The allocator of the kernel is
    the class [Kmalloc]; a pointer into a block is the block and an offset.
    What the code does with addresses that are not null is checked by its
    laws: [kfree] is only known for a block that is live. *)

From S2P Require Import Prelude SampleScanner.

(** ** The allocator *)

Class Kmalloc (heap : Type) := {
  live : heap -> gmap Z Z;                      (** blocks and their sizes *)
  kmalloc : heap -> Z -> option Z * heap;
  kfree : heap -> option Z -> heap;
  kmalloc_some h n p h' : kmalloc h n = (Some p, h') -> live h !! p = None /\ live h' = <[p := n]> (live h);
  kmalloc_none h n h' : kmalloc h n = (None, h') -> live h' = live h;
  kfree_null h : live (kfree h None) = live h;
  kfree_live h p n : live h !! p = Some n -> live (kfree h (Some p)) = delete p (live h)
}.

(** [ffs] and [fls]: the least and the greatest bit set, from 1. *)
Definition fls (x : Z) : Z := if u32 x =? 0 then 0 else Z.log2 (u32 x) + 1.
Definition ffs (x : Z) : Z := if u32 x =? 0 then 0 else Z.log2 (Z.land (u32 x) (- u32 x)) + 1.

Definition EINVAL : Z := 22.
Definition ENOMEM : Z := 12.
Definition SIZEOF_PTR : Z := 8.
Definition SIZEOF_INT : Z := 4.

(** ** The test for a power of two *)

Lemma ffs_fls x : 0 < x < 2 ^ 31 -> ffs x = fls x <-> exists k, 0 <= k /\ x = 2 ^ k.
Proof.
  intros Hx. unfold ffs, fls. rewrite u32_small by lia. destruct (Z.eqb_spec x 0); [lia|].
  assert (Hneg : - x = Z.lnot (x - 1)) by (unfold Z.lnot; lia).
  assert (Hpos : 0 < Z.land x (- x)).
  { destruct (Z.eq_dec (Z.land x (- x)) 0) as [E|]; [|pose proof (proj2 (Z.land_nonneg x (- x))); lia].
    exfalso. assert (Z.land x (Z.lnot (x - 1)) = 0) as E2 by (by rewrite <- Hneg).
    rewrite <- Z.ldiff_land in E2. apply Z.ldiff_le in E2; lia. }
  split.
  - intros E. exists (Z.log2 x). pose proof (Z.log2_nonneg x). pose proof (Z.log2_spec x ltac:(lia)) as Hl.
    split; [done|]. assert (Hb : Z.testbit (Z.land x (- x)) (Z.log2 x) = true).
    { replace (Z.log2 x) with (Z.log2 (Z.land x (- x))) by lia. by apply Z.bit_log2. }
    rewrite Z.land_spec, Hneg, Z.lnot_spec in Hb by done. apply andb_prop in Hb as [_ Hb].
    apply negb_true_iff in Hb. destruct (Z.eq_dec x (2 ^ Z.log2 x)) as [->|Hne]; [|exfalso].
    { by rewrite Z.log2_pow2. }
    assert (Z.log2 (x - 1) = Z.log2 x) as E2.
    { apply Z.log2_unique; [done|]. rewrite Z.pow_succ_r in * by done. lia. }
    pose proof (Z.bit_log2 (x - 1) ltac:(lia)) as Hc. rewrite E2 in Hc. congruence.
  - intros (k & Hk & ->). do 2 f_equal. rewrite Hneg. apply Z.bits_inj'. intros i Hi.
    rewrite Z.land_spec, Z.lnot_spec by done. rewrite Z.sub_1_r, <- Z.ones_equiv, Z.testbit_ones by lia.
    destruct (Z.eq_dec i k) as [->|Hne]; [rewrite Z.pow2_bits_true by done|rewrite Z.pow2_bits_false by lia; done].
    rewrite (proj2 (Z.leb_le 0 k) Hk), Z.ltb_irrefl. done.
Qed.

Section Alloc.
Context `{KM : Kmalloc heap} (PAGE_SIZE : Z).

(** ** [struct dsm_sample_circ_buf], with its arrays of pointers

    [b_bufp] and [b_pagesp] are the arrays as blocks, [b_buf] and [b_pages]
    their elements. *)
Record alloc_buf := mkAlloc {
  b_bufp : option Z;
  b_buf : list (option (Z * Z));
  b_head : Z;
  b_tail : Z;
  b_size : Z;
  b_pagesp : option Z;
  b_pages : list (option Z);
  b_npages : Z
}.

(** The total size of a sample, a multiple of [sizeof(int)]. *)
Definition sample_len (dlen : Z) : Z :=
  let dlen := u64 (dlen + SIZEOF_DSM_SAMPLE_HEADER) in
  let n := dlen mod SIZEOF_INT in
  if n =? 0 then dlen else u64 (dlen + (SIZEOF_INT - n)).

Definition samps_per_page (slen : Z) : Z :=
  let n := s32 (PAGE_SIZE / slen) in if n <? 1 then 1 else n.

(** The elements of [buf] that point into one page. *)
Fixpoint fill_page (todo : nat) (slen blen : Z) (sp : Z) (off isamp : Z) (buf : list (option (Z * Z))) :
    Z * list (option (Z * Z)) :=
  match todo with
  | O => (isamp, buf)
  | S todo =>
      if isamp <? blen
      then fill_page todo slen blen sp (off + slen) (isamp + 1) (<[Z.to_nat isamp := Some (sp, off)]> buf)
      else (isamp, buf)
  end.

Definition free_pages (h : heap) (pages : list (option Z)) : heap := fold_left kfree pages h.

(** The loop over the pages: [inl] is the heap after the pages so far are
    freed. *)
Fixpoint alloc_pages (todo : nat) (slen blen spp : Z) (n isamp : Z) (buf : list (option (Z * Z)))
    (pages : list (option Z)) (h : heap) : heap + (list (option (Z * Z)) * list (option Z) * heap) :=
  match todo with
  | O => inr (buf, pages, h)
  | S todo =>
      let j := Z.min (blen - isamp) spp in
      match kmalloc h (u64 (slen * j)) with
      | (None, h) => inl (free_pages h (take (Z.to_nat n) pages))
      | (Some sp, h) =>
          let pages := <[Z.to_nat n := Some sp]> pages in
          let '(isamp, buf) := fill_page (Z.to_nat spp) slen blen sp 0 isamp buf in
          alloc_pages todo slen blen spp (n + 1) isamp buf pages h
      end
  end.

Definition alloc_dsm_circ_buf (c : alloc_buf) (dlen blen : Z) (h : heap) : Z * alloc_buf * heap :=
  if (blen =? 0) || negb (ffs blen =? fls blen) then (- EINVAL, c, h)
  else
    match kmalloc h (u64 (blen * SIZEOF_PTR)) with
    | (None, h) => (- ENOMEM, mkAlloc None [] 0 0 0 None [] 0, h)
    | (Some bp, h) =>
        let buf := replicate (Z.to_nat blen) None in
        let slen := sample_len dlen in
        let spp := samps_per_page slen in
        let n := Z.quot (blen - 1) spp + 1 in
        match kmalloc h (u64 (n * SIZEOF_PTR)) with
        | (None, h) => (- ENOMEM, mkAlloc None [] 0 0 0 None [] 0, kfree h (Some bp))
        | (Some pp, h) =>
            match alloc_pages (Z.to_nat n) slen blen spp 0 0 buf (replicate (Z.to_nat n) None) h with
            | inl h => (- ENOMEM, mkAlloc None [] 0 0 0 None [] 0, kfree (kfree h (Some pp)) (Some bp))
            | inr (buf, pages, h) => (0, mkAlloc (Some bp) buf 0 0 blen (Some pp) pages n, h)
            end
        end
    end.

Definition free_dsm_circ_buf (c : alloc_buf) (h : heap) : alloc_buf * heap :=
  let h := match b_pagesp c with
           | Some _ => free_pages h (take (Z.to_nat (b_npages c)) (b_pages c))
           | None => h
           end in
  let h := kfree h (b_pagesp c) in
  (mkAlloc None [] (b_head c) (b_tail c) 0 None [] 0, kfree h (b_bufp c)).

Definition realloc_dsm_circ_buf (c : alloc_buf) (dlen blen : Z) (h : heap) : Z * alloc_buf * heap :=
  let '(c, h) := free_dsm_circ_buf c h in alloc_dsm_circ_buf c dlen blen h.

Lemma sample_len_spec dlen : 0 <= dlen < 2 ^ 31 ->
  dlen + 8 <= sample_len dlen < dlen + 12 /\ sample_len dlen mod 4 = 0.
Proof. unfold sample_len, SIZEOF_DSM_SAMPLE_HEADER, SIZEOF_INT. intros H. bdestr; mlia. Qed.

(** ** Pages and their elements *)

(** Element [i] is in page [i / spp], at its place in it. *)
Definition laid_out (slen spp : Z) (buf : list (option (Z * Z))) (pages : list (option Z)) (upto : Z) : Prop :=
  forall i, 0 <= i < upto -> exists p,
    pages !! Z.to_nat (i / spp) = Some (Some p) /\ buf !! Z.to_nat i = Some (Some (p, (i mod spp) * slen)).

Lemma fill_page_spec slen blen sp todo : forall off isamp buf isamp' buf',
  fill_page todo slen blen sp off isamp buf = (isamp', buf') -> 0 <= isamp <= blen -> zlen buf = blen ->
  isamp' = Z.min blen (isamp + Z.of_nat todo) /\ zlen buf' = blen /\
  (forall i, 0 <= i < isamp -> buf' !! Z.to_nat i = buf !! Z.to_nat i) /\
  (forall i, isamp <= i < isamp' -> buf' !! Z.to_nat i = Some (Some (sp, off + (i - isamp) * slen))).
Proof.
  induction todo as [|todo IH]; intros off isamp buf isamp' buf' E Hi Hl; cbn [fill_page] in E.
  - injection E as <- <-. split_and!; try done; [lia|]. intros i ?. lia.
  - destruct (Z.ltb_spec isamp blen) as [Hlt|].
    + apply IH in E as (E1 & E2 & E3 & E4); [|lia|unfold zlen in *; by rewrite length_insert].
      split_and!; [lia|done| |].
      * intros i ?. rewrite E3 by lia. apply list_lookup_insert_ne. lia.
      * intros i ?. destruct (Z.eq_dec i isamp) as [->|].
        -- rewrite E3 by lia. rewrite list_lookup_insert_eq by (unfold zlen in *; lia).
           do 3 f_equal. lia.
        -- rewrite E4 by lia. do 3 f_equal. lia.
    + injection E as <- <-. split_and!; try done; [lia|]. intros i ?. lia.
Qed.

(** The pages allocated so far: blocks of the right sizes besides those that
    were live before. *)
Record pages_live (slen blen spp : Z) (m0 : gmap Z Z) (h : heap) (ps : list Z) (new : gmap Z Z) : Prop := {
  pl_live : live h = new ∪ m0;
  pl_disjoint : new ##ₘ m0;
  pl_nodup : NoDup ps;
  pl_dom : dom new = list_to_set ps;
  pl_sizes m p : ps !! m = Some p -> new !! p = Some (slen * Z.min (blen - Z.of_nat m * spp) spp)
}.

(** Freeing them gives the heap of before. *)
Lemma free_pages_live m0 ps : forall h new,
  live h = new ∪ m0 -> new ##ₘ m0 -> NoDup ps -> dom new = list_to_set ps ->
  live (free_pages h (map Some ps)) = m0.
Proof.
  induction ps as [|p ps IH]; intros h new Hl Hd Hn Hdom; cbn.
  - apply dom_empty_inv_L in Hdom as ->. by rewrite Hl, (left_id_L ∅ (∪)).
  - apply NoDup_cons in Hn as [Hp Hn].
    assert (exists n, new !! p = Some n) as [n Hnew].
    { apply elem_of_dom. rewrite Hdom. cbn. set_solver. }
    assert (m0 !! p = None) by (by eapply map_disjoint_Some_l).
    apply (IH _ (delete p new)).
    + rewrite (kfree_live h p n) by (rewrite Hl; by apply lookup_union_Some_l).
      by rewrite Hl, delete_union, (delete_id m0).
    + by apply map_disjoint_delete_l.
    + done.
    + rewrite dom_delete_L, Hdom. cbn. apply set_eq. intros q. rewrite elem_of_difference, elem_of_union,
        !elem_of_singleton, !elem_of_list_to_set. naive_solver.
Qed.

Lemma pages_live_snoc slen blen spp m0 h ps new sp h' :
  pages_live slen blen spp m0 h ps new ->
  kmalloc h (slen * Z.min (blen - Z.of_nat (length ps) * spp) spp) = (Some sp, h') ->
  pages_live slen blen spp m0 h' (ps ++ [sp])
    (<[sp := slen * Z.min (blen - Z.of_nat (length ps) * spp) spp]> new).
Proof.
  intros [Hl Hd Hn Hdom Hs] [Hfree Hlive]%kmalloc_some. rewrite Hl in *.
  apply lookup_union_None in Hfree as [F1 F2].
  assert (sp ∉ ps).
  { intros Hin. apply (not_elem_of_dom new sp) in F1. apply F1. rewrite Hdom. by apply elem_of_list_to_set. }
  split.
  - by rewrite Hlive, insert_union_l.
  - by apply map_disjoint_insert_l_2.
  - apply NoDup_app. split_and!; [done| |apply NoDup_singleton]. intros x Hx ->%list_elem_of_singleton. done.
  - rewrite dom_insert_L, Hdom. rewrite list_to_set_app_L. cbn. set_solver.
  - intros m p [E|[Hge E]]%lookup_app_Some.
    + rewrite lookup_insert_ne; [by apply Hs|]. intros ->. by apply list_elem_of_lookup_2 in E.
    + apply list_lookup_singleton_Some in E as [Hm <-]. rewrite lookup_insert_eq.
      by replace m with (length ps) by lia.
Qed.

Lemma samps_per_page_spec slen : 0 < slen -> 0 < PAGE_SIZE < 2 ^ 31 ->
  1 <= samps_per_page slen < 2 ^ 31 /\ slen * samps_per_page slen <= Z.max slen PAGE_SIZE.
Proof.
  intros H1 H2. unfold samps_per_page. pose proof (Z.mul_div_le PAGE_SIZE slen H1).
  pose proof (Z.div_pos PAGE_SIZE slen ltac:(lia) H1).
  assert (PAGE_SIZE / slen <= PAGE_SIZE) by (apply Z.div_le_upper_bound; nia).
  rewrite s32_small by lia. bdestr; lia.
Qed.

(** The state of the loop after [n] pages. *)
Definition pages_done (slen blen spp : Z) (m0 : gmap Z Z) (np : nat) (n : nat) (isamp : Z)
    (buf : list (option (Z * Z))) (pages : list (option Z)) (h : heap) : Prop :=
  isamp = Z.min blen (Z.of_nat n * spp) /\ zlen buf = blen /\ length pages = np /\
  laid_out slen spp buf pages isamp /\
  exists ps new, length ps = n /\ take n pages = map Some ps /\ pages_live slen blen spp m0 h ps new.

Lemma page_done slen blen spp m0 np n isamp buf pages h sp h' isamp' buf' :
  pages_done slen blen spp m0 np n isamp buf pages h -> 1 <= spp -> (n < np)%nat -> Z.of_nat n * spp < blen ->
  kmalloc h (slen * Z.min (blen - isamp) spp) = (Some sp, h') ->
  fill_page (Z.to_nat spp) slen blen sp 0 isamp buf = (isamp', buf') ->
  pages_done slen blen spp m0 np (S n) isamp' buf' (<[n := Some sp]> pages) h'.
Proof.
  intros (Hi & Hb & Hp & Hlay & ps & new & Hps & Htake & Hl) Hspp Hn Hlt Hk Hf.
  assert (isamp = Z.of_nat n * spp) as -> by lia. clear Hi.
  destruct (fill_page_spec _ _ _ _ _ _ _ _ _ Hf ltac:(lia) Hb) as (-> & Hb' & Hold & Hnew).
  rewrite Z2Nat.id in * by lia.
  split; [lia|]. split; [done|]. split; [by rewrite length_insert|]. split.
  - intros i Hi. destruct (Z.lt_ge_cases i (Z.of_nat n * spp)) as [Hl'|Hge].
    + destruct (Hlay i ltac:(lia)) as (p & E1 & E2). exists p. rewrite Hold by lia. split; [|done].
      rewrite list_lookup_insert_ne; [done|].
      pose proof (Z.div_lt_upper_bound i spp (Z.of_nat n) ltac:(lia) ltac:(lia)).
      pose proof (Z.div_pos i spp ltac:(lia) ltac:(lia)). lia.
    + exists sp. rewrite Hnew by lia.
      assert (i / spp = Z.of_nat n) as Hq by (symmetry; apply (Z.div_unique_pos _ _ _ (i - Z.of_nat n * spp)); lia).
      rewrite Hq, Nat2Z.id. split; [apply list_lookup_insert_eq; lia|].
      rewrite Z.mod_eq by lia. rewrite Hq. do 3 f_equal. lia.
  - subst n. exists (ps ++ [sp]), (<[sp := slen * Z.min (blen - Z.of_nat (length ps) * spp) spp]> new).
    split; [rewrite length_app; cbn; lia|]. split.
    + rewrite (take_S_r _ _ (Some sp)) by (apply list_lookup_insert_eq; lia).
      rewrite take_insert_ge by lia. by rewrite Htake, map_app.
    + by apply pages_live_snoc with (h := h).
Qed.

Lemma alloc_pages_spec slen blen spp m0 np todo : forall n isamp buf pages h,
  0 < slen -> 1 <= spp -> slen * spp < 2 ^ 63 -> (todo + n = np)%nat -> (Z.of_nat np - 1) * spp < blen ->
  pages_done slen blen spp m0 np n isamp buf pages h ->
  match alloc_pages todo slen blen spp (Z.of_nat n) isamp buf pages h with
  | inl h' => live h' = m0
  | inr (buf', pages', h') =>
      pages_done slen blen spp m0 np np (Z.min blen (Z.of_nat np * spp)) buf' pages' h'
  end.
Proof.
  induction todo as [|todo IH]; intros n isamp buf pages h Hs Hspp Hov Htodo Hnp Hd; cbn [alloc_pages].
  - replace n with np in Hd by lia. pose proof Hd as [-> _]. done.
  - pose proof Hd as (Hi & Hb & Hp & Hlay & ps & new & Hps & Htake & Hl).
    assert (Hlt : Z.of_nat n * spp < blen) by nia.
    assert (0 <= slen * Z.min (blen - isamp) spp <= slen * spp) by nia.
    rewrite u64_small by lia. rewrite Nat2Z.id.
    destruct (kmalloc h (slen * Z.min (blen - isamp) spp)) as [[sp|] h'] eqn:Hk.
    + destruct (fill_page (Z.to_nat spp) slen blen sp 0 isamp buf) as [isamp' buf'] eqn:Hf.
      replace (Z.of_nat n + 1) with (Z.of_nat (S n)) by lia. apply IH; try done; [lia|].
      by eapply page_done; eauto with lia.
    + rewrite Htake. destruct Hl as [Hl Hdj Hnd Hdom _].
      apply kmalloc_none in Hk. by eapply free_pages_live; [rewrite Hk| | |].
Qed.

(** ** The whole buffer *)

(** An element's bytes are inside its page. *)
Lemma element_inside slen blen spp i : 0 < slen -> 1 <= spp -> 0 <= i < blen ->
  0 <= i mod spp * slen /\ i mod spp * slen + slen <= slen * Z.min (blen - i / spp * spp) spp.
Proof.
  intros Hs Hp Hi. pose proof (Z.mod_pos_bound i spp ltac:(lia)). pose proof (Z.div_mod i spp ltac:(lia)).
  assert (i mod spp + 1 <= Z.min (blen - i / spp * spp) spp) by lia. nia.
Qed.

(** Two elements in the same page are apart. *)
Lemma elements_apart slen spp i j : 0 < slen -> 1 <= spp -> i <> j -> i / spp = j / spp ->
  i mod spp * slen + slen <= j mod spp * slen \/ j mod spp * slen + slen <= i mod spp * slen.
Proof.
  intros Hs Hp Hne E. pose proof (Z.div_mod i spp ltac:(lia)). pose proof (Z.div_mod j spp ltac:(lia)).
  rewrite E in *. assert (i mod spp + 1 <= j mod spp \/ j mod spp + 1 <= i mod spp) by lia. nia.
Qed.

Lemma pages_count blen spp : 0 < blen -> 1 <= spp ->
  let np := Z.quot (blen - 1) spp + 1 in 0 < np /\ (np - 1) * spp < blen <= np * spp.
Proof.
  intros Hb Hs np. unfold np. rewrite Z.quot_div_nonneg by lia.
  pose proof (Z.div_mod (blen - 1) spp ltac:(lia)). pose proof (Z.mod_pos_bound (blen - 1) spp ltac:(lia)).
  pose proof (Z.div_pos (blen - 1) spp ltac:(lia) ltac:(lia)). lia.
Qed.

(** Freeing a block allocated on top of [m0]. *)
Lemma kfree_top h p n m0 : live h = <[p := n]> m0 -> m0 !! p = None -> live (kfree h (Some p)) = m0.
Proof.
  intros E Hn. rewrite (kfree_live h p n) by (rewrite E; apply lookup_insert_eq).
  by rewrite E, delete_insert_id.
Qed.

(** What the pointers of the elements promise: room for a sample of [dlen]
    bytes, aligned, inside a block that was not live before. *)
Definition elements_ok (m0 : gmap Z Z) (h : heap) (dlen : Z) (buf : list (option (Z * Z))) : Prop :=
  (forall i e, buf !! i = Some e -> exists p off n, e = Some (p, off) /\ live h !! p = Some n /\ m0 !! p = None /\
     0 <= off /\ off mod SIZEOF_INT = 0 /\ off + SIZEOF_DSM_SAMPLE_HEADER + dlen <= n) /\
  (forall i j p oi oj, i <> j -> buf !! i = Some (Some (p, oi)) -> buf !! j = Some (Some (p, oj)) ->
     oi + SIZEOF_DSM_SAMPLE_HEADER + dlen <= oj \/ oj + SIZEOF_DSM_SAMPLE_HEADER + dlen <= oi).

Lemma pages_elements slen blen spp m0 m1 h np buf pages dlen :
  pages_done slen blen spp m1 np np blen buf pages h ->
  (forall p, m1 !! p = None -> m0 !! p = None) ->
  0 < slen -> 1 <= spp -> 0 < blen -> slen mod 4 = 0 -> dlen + 8 <= slen -> elements_ok m0 h dlen buf.
Proof.
  intros (_ & Hb & Hp & Hlay & ps & new & Hps & Htake & Hl) Hm Hs Hspp Hblen Hal Hd.
  assert (Hlay' : forall i e, buf !! i = Some e -> exists p, ps !! Z.to_nat (Z.of_nat i / spp) = Some p /\
    e = Some (p, (Z.of_nat i mod spp) * slen) /\ 0 <= Z.of_nat i < blen).
  { intros i e E. assert (0 <= Z.of_nat i < blen) by (apply lookup_lt_Some in E; unfold zlen in Hb; lia).
    destruct (Hlay (Z.of_nat i) ltac:(lia)) as (p & E1 & E2). rewrite Nat2Z.id, E in E2. injection E2 as ->.
    exists p. split; [|done]. rewrite take_ge in Htake by lia. rewrite Htake, list_lookup_fmap in E1.
    destruct (ps !! _) as [q|]; [|done]. cbn in E1. by injection E1 as ->. }
  destruct Hl as [Hlive Hdj Hnd Hdom Hsz]. split.
  - intros i e (p & E1 & -> & Hi)%Hlay'. pose proof (element_inside slen blen spp _ Hs Hspp Hi) as [H1 H2].
    pose proof (Hsz _ _ E1) as Hn. rewrite Z2Nat.id in Hn by (apply Z.div_pos; lia).
    eexists p, _, _. split; [done|]. split; [rewrite Hlive; by apply lookup_union_Some_l|].
    split; [apply Hm; by eapply map_disjoint_Some_l|]. unfold SIZEOF_INT, SIZEOF_DSM_SAMPLE_HEADER.
    split; [done|]. split; [|lia]. rewrite <- Zmult_mod_idemp_r, Hal. by rewrite Z.mul_0_r.
  - intros i j p oi oj Hne (p1 & E1 & [= <- ->] & Hi)%Hlay' (p2 & E2 & [= <- ->] & Hj)%Hlay'.
    assert (Hq : Z.to_nat (Z.of_nat i / spp) = Z.to_nat (Z.of_nat j / spp)) by (eapply NoDup_lookup; eauto).
    pose proof (Z.div_pos (Z.of_nat i) spp ltac:(lia) ltac:(lia)).
    pose proof (Z.div_pos (Z.of_nat j) spp ltac:(lia) ltac:(lia)).
    pose proof (elements_apart slen spp (Z.of_nat i) (Z.of_nat j) Hs Hspp ltac:(lia) ltac:(lia)).
    unfold SIZEOF_DSM_SAMPLE_HEADER. lia.
Qed.

Lemma pages_done_start slen blen spp np h : 0 < blen -> 1 <= spp ->
  pages_done slen blen spp (live h) np 0 0 (replicate (Z.to_nat blen) None) (replicate np None) h.
Proof.
  intros Hb Hs. split; [lia|]. split; [unfold zlen; rewrite length_replicate; lia|].
  split; [apply length_replicate|]. split; [intros i ?; lia|]. exists [], ∅. split; [done|]. split; [done|].
  split; try done.
  - by rewrite (left_id_L ∅ (∪)).
  - apply map_disjoint_empty_l.
  - constructor.
Qed.

(** C33: memory of a circular buffer.  [alloc_dsm_circ_buf] refuses a length
    that is not a power of two and changes nothing; when memory runs out at
    any of its requests it gives everything back, and leaves a buffer that
    can be freed; otherwise every element has room for a sample of the length
    asked for, aligned, in a block of its own allocation, apart from all the
    others.  [free_dsm_circ_buf] then gives back exactly what was allocated. *)
Theorem circ_buf_memory c dlen blen h :
  0 <= dlen < 2 ^ 31 -> 0 <= blen < 2 ^ 31 -> 0 < PAGE_SIZE < 2 ^ 31 ->
  let '(r, c', h') := alloc_dsm_circ_buf c dlen blen h in
  (r = - EINVAL /\ (forall k, 0 <= k -> blen <> 2 ^ k) /\ c' = c /\ h' = h) \/
  (r = - ENOMEM /\ live h' = live h /\ live (free_dsm_circ_buf c' h').2 = live h) \/
  (r = 0 /\ (exists k, 0 <= k /\ blen = 2 ^ k) /\ b_head c' = 0 /\ b_tail c' = 0 /\ b_size c' = blen /\
   zlen (b_buf c') = blen /\ elements_ok (live h) h' dlen (b_buf c') /\
   live (free_dsm_circ_buf c' h').2 = live h).
Proof.
  intros Hd Hb HP. unfold alloc_dsm_circ_buf. destruct (Z.eqb_spec blen 0) as [->|Hne].
  { left. split_and!; try done. intros k Hk. pose proof (Z.pow_pos_nonneg 2 k). lia. }
  pose proof (ffs_fls blen ltac:(lia)) as Hpow. cbn [orb].
  destruct (Z.eqb_spec (ffs blen) (fls blen)) as [E|E]; cbn [negb]; [|left; naive_solver].
  apply Hpow in E. clear Hpow.
  destruct (kmalloc h _) as [[bp|] h1] eqn:K1.
  2: { right. left. pose proof (kmalloc_none _ _ _ K1). split_and!; try done.
       unfold free_dsm_circ_buf. cbn. by rewrite !kfree_null. }
  apply kmalloc_some in K1 as [F1 L1].
  destruct (sample_len_spec dlen Hd) as [Hs Hal]. set (slen := sample_len dlen) in *.
  destruct (samps_per_page_spec slen ltac:(lia) HP) as [Hspp Hov]. set (spp := samps_per_page slen) in *.
  destruct (pages_count blen spp ltac:(lia) ltac:(lia)) as [Hnp Hcnt]. set (n := Z.quot (blen - 1) spp + 1) in *.
  destruct (kmalloc h1 _) as [[pp|] h2] eqn:K2.
  2: { right. left. apply kmalloc_none in K2. assert (live (kfree h2 (Some bp)) = live h) as Hl.
       { eapply kfree_top; [|done]. by rewrite K2. }
       split_and!; try done. unfold free_dsm_circ_buf. cbn. by rewrite !kfree_null. }
  apply kmalloc_some in K2 as [F2 L2].
  assert (Hback : forall h3, live h3 = live h2 -> live (kfree (kfree h3 (Some pp)) (Some bp)) = live h).
  { intros h3 H3. eapply kfree_top; [|done]. rewrite <- L1. eapply kfree_top; [|done]. by rewrite H3. }
  pose proof (pages_done_start slen blen spp (Z.to_nat n) h2 ltac:(lia) ltac:(lia)) as Hstart.
  pose proof (alloc_pages_spec slen blen spp (live h2) (Z.to_nat n) (Z.to_nat n) 0 0
    (replicate (Z.to_nat blen) None) (replicate (Z.to_nat n) None) h2
    ltac:(lia) ltac:(lia) ltac:(lia) ltac:(lia) ltac:(lia) Hstart) as Hpg.
  cbn [Z.of_nat] in Hpg.
  destruct (alloc_pages _ _ _ _ _ _ _ _ _) as [h3|[[buf pages] h3]].
  - right. left. pose proof (Hback _ Hpg). split_and!; try done. unfold free_dsm_circ_buf. cbn. by rewrite !kfree_null.
  - right. right. rewrite Z.min_l in Hpg by lia. cbn [b_head b_tail b_size b_buf].
    split_and!; try done; [by destruct Hpg as (_ & ? & _)| |].
    + eapply pages_elements; eauto with lia. intros p. rewrite L2, L1. intros [H _]%lookup_insert_None.
      by apply lookup_insert_None in H as [? _].
    + destruct Hpg as (_ & _ & _ & _ & ps & new & _ & Htake & [Hl Hdj Hnd Hdom _]).
      unfold free_dsm_circ_buf. cbn [b_pagesp b_npages b_pages b_bufp snd]. rewrite Htake.
      apply Hback. by eapply free_pages_live.
Qed.

End Alloc.

(** ** An allocator

    It grants a number of requests and then refuses. *)
Definition budget_heap : Type := nat * gmap Z Z.

Definition budget_kmalloc (h : budget_heap) (n : Z) : option Z * budget_heap :=
  match h with
  | (O, m) => (None, (O, m))
  | (S b, m) => let p := fresh (dom m) in (Some p, (b, <[p := n]> m))
  end.

Definition budget_kfree (h : budget_heap) (p : option Z) : budget_heap :=
  match p with Some p => (h.1, delete p h.2) | None => h end.

#[export] Instance budgetKmalloc : Kmalloc budget_heap.
Proof.
  refine {| live := snd; kmalloc := budget_kmalloc; kfree := budget_kfree |}.
  - intros [[|b] m] n p h' E; [done|]. cbn in E. injection E as <- <-. split; [|done].
    apply not_elem_of_dom. apply is_fresh.
  - intros [[|b] m] n h' E; [by injection E as <-|done].
  - done.
  - done.
Defined.

(** Four samples of ten bytes; and memory that runs out at the page. *)
Lemma circ_buf_memory_witness :
  let c := mkAlloc None [] 0 0 0 None [] 0 in
  (let '(r, c', h') := alloc_dsm_circ_buf 4096 c 10 4 (9%nat, ∅) in
   r = 0 /\ elements_ok ∅ h' 10 (b_buf c') /\ (free_dsm_circ_buf c' h').2.2 = ∅) /\
  (let '(r, c', h') := alloc_dsm_circ_buf 4096 c 10 4 (2%nat, ∅) in r = - ENOMEM /\ h'.2 = ∅).
Proof.
  intros c. split.
  - pose proof (circ_buf_memory 4096 c 10 4 (9%nat, ∅) ltac:(lia) ltac:(lia) ltac:(lia)) as H.
    assert (E : (alloc_dsm_circ_buf 4096 c 10 4 (9%nat, ∅ : gmap Z Z)).1.1 = 0) by (vm_compute; reflexivity).
    destruct (alloc_dsm_circ_buf _ _ _ _ _) as [[r c'] h']. cbn in E. subst r.
    destruct H as [(? & _)|[(? & _)|(_ & _ & _ & _ & _ & _ & H1 & H2)]]; [discriminate..|].
    exact (conj eq_refl (conj H1 H2)).
  - pose proof (circ_buf_memory 4096 c 10 4 (2%nat, ∅) ltac:(lia) ltac:(lia) ltac:(lia)) as H.
    assert (E : (alloc_dsm_circ_buf 4096 c 10 4 (2%nat, ∅ : gmap Z Z)).1.1 = - ENOMEM) by (vm_compute; reflexivity).
    destruct (alloc_dsm_circ_buf _ _ _ _ _) as [[r c'] h']. cbn in E. subst r.
    destruct H as [(? & _)|[(_ & H1 & _)|(? & _)]]; [discriminate| |discriminate].
    exact (conj eq_refl H1).
Defined.
