(* ===== verification/ScreenTimetag.v ===== *)
(** * Time tags of the A2D drivers.

    [screen_timetag_init] and [screen_timetag] of
    [src/src/nidas/linux/util/nidas_util.c], built without
    [DO_TIMETAG_ERROR_AVERAGE]: time tags of a series with a fixed interval
    are moved to the interval, and the base time is corrected at the end of
    each window by the least difference seen in it.  Times are in tenths of
    milliseconds since midnight; [long] is 64 bits wide. *)

From S2P Require Import Prelude.

Definition USECS_PER_TMSEC : Z := 100.
Definition TMSECS_PER_SEC : Z := 10000.
Definition TMSECS_PER_DAY : Z := 86400 * TMSECS_PER_SEC.

(** ** [struct screen_timetag_data] *)

Record screen_data := mkScreen {
  dtTmsec : Z;          (** [unsigned int] *)
  dtUsec : Z;           (** [unsigned int] *)
  nptsCalc : Z;         (** [unsigned int] *)
  tt0 : Z;
  nDt : Z;
  samplesPerDay : Z;    (** [unsigned int] *)
  nmin : Z;
  nptsMin : Z;
  tdiffmin : Z
}.

Definition NDT_START : Z := - 99999.

(** [None] is a division by zero; the other members keep their values. *)
Definition screen_timetag_init (td : screen_data) (deltaT_Usec adjustUsec : Z) : option screen_data :=
  if deltaT_Usec =? 0 then None
  else
    let dt := u32 (Z.quot deltaT_Usec USECS_PER_TMSEC) in
    if dt =? 0 then None
    else
      Some (mkScreen dt (u32 (Z.rem deltaT_Usec USECS_PER_TMSEC * USECS_PER_TMSEC))
        (u32 (Z.quot adjustUsec deltaT_Usec)) (tt0 td) NDT_START
        (u32 (Z.quot TMSECS_PER_DAY dt)) (nmin td) (nptsMin td) (tdiffmin td)).

(** The offset from [tt0], as an [unsigned int]. *)
Definition offset_at (td : screen_data) (n : Z) : Z :=
  u32 (u32 (n * dtTmsec td) + u32 (n * dtUsec td) / USECS_PER_TMSEC).

(** The number of intervals, rolled back after a day. *)
Definition roll_back (td : screen_data) : Z :=
  if TMSECS_PER_DAY <? offset_at td (nDt td) then s32 (nDt td - samplesPerDay td) else nDt td.

(** The difference of actual and expected time, across midnight. *)
Definition time_error (tt tt_est : Z) : Z :=
  let e := s32 (tt - tt_est) in
  let e := if e <? Z.quot (- TMSECS_PER_DAY) 2 then s32 (e + TMSECS_PER_DAY) else e in
  if Z.quot TMSECS_PER_DAY 2 <? e then s32 (e - TMSECS_PER_DAY) else e.

Definition screen_timetag (td : screen_data) (tt : Z) : screen_data * Z :=
  if nDt td =? NDT_START then
    (mkScreen (dtTmsec td) (dtUsec td) (nptsCalc td) tt 1 (samplesPerDay td) 0 10 TMSECS_PER_SEC, tt)
  else
    let n := roll_back td in
    let toff := offset_at td n in
    let tterr := time_error tt (s32 (tt0 td + toff)) in
    let cnt := s32 (nmin td + 1) in
    let least := Z.min tterr (tdiffmin td) in
    let '(base, cnt, npts, least) :=
      if cnt =? nptsMin td
      then (s32 (tt0 td + least), 0, s32 (nptsCalc td), TMSECS_PER_SEC)
      else (tt0 td, cnt, nptsMin td, least) in
    let base := if TMSECS_PER_DAY <=? base then base - TMSECS_PER_DAY else base in
    let tt_est := s32 (base + toff) in
    (mkScreen (dtTmsec td) (dtUsec td) (nptsCalc td) base (s32 (n + 1)) (samplesPerDay td) cnt npts least,
     if TMSECS_PER_DAY <=? tt_est then tt_est - TMSECS_PER_DAY else tt_est).

(** ** A series of calls *)

(** The state after call number [k], from 0, and what it returned. *)
Fixpoint screen_at (td : screen_data) (input : nat -> Z) (k : nat) : screen_data * Z :=
  match k with
  | O => screen_timetag td (input O)
  | S j => screen_timetag (fst (screen_at td input j)) (input k)
  end.

(** ** Reference

    Sample [k] is taken at [T + k * dt] and its time tag is late by [e k].
    The windows are the first ten samples after the first one, and then [P]
    samples each. *)

(** The least of [e a], ..., [e (a + n)]. *)
Fixpoint least_of (e : nat -> Z) (a n : nat) : Z :=
  match n with
  | O => e a
  | S m => Z.min (e (a + n)%nat) (least_of e a m)
  end.

(** Before sample [k + 1]: the lateness of the base time, the start of the
    window, the samples seen in it, and its length. *)
Fixpoint reference_at (e : nat -> Z) (P : nat) (k : nat) : Z * nat * nat * nat :=
  match k with
  | O => (e O, 1%nat, 0%nat, 10%nat)
  | S j =>
      let '(b, a, c, len) := reference_at e P j in
      if (S c =? len)%nat then (least_of e a c, (a + len)%nat, 0%nat, P) else (b, a, S c, len)
  end.

Definition late_at (e : nat -> Z) (P : nat) (k : nat) : Z := (reference_at e P k).1.1.1.

Lemma reference_place e P k b a c len : (0 < P)%nat -> reference_at e P k = (b, a, c, len) ->
  (a + c = S k)%nat /\ (c < len)%nat.
Proof.
  intros HP. revert b a c len. induction k as [|k IH]; intros b a c len E; cbn [reference_at] in E; [injection E as <- <- <- <-; lia|].
  destruct (reference_at e P k) as [[[b0 a0] c0] len0] eqn:E0. destruct (IH _ _ _ _ eq_refl) as [H1 H2].
  destruct (Nat.eqb_spec (S c0) len0); injection E as <- <- <- <-; lia.
Qed.

Lemma reference_len e P k b a c len : reference_at e P k = (b, a, c, len) -> (len = 10 \/ len = P)%nat.
Proof.
  revert b a c len. induction k as [|k IH]; intros b a c len Er; cbn [reference_at] in Er.
  - injection Er as <- <- <- <-. by left.
  - destruct (reference_at e P k) as [[[b0 a0] c0] len0]. specialize (IH _ _ _ _ eq_refl).
    case_match; injection Er as <- <- <- <-; [by right|done].
Qed.

(** The least lateness in the window that ends with sample [10 + w * P]. *)
Definition window_min (e : nat -> Z) (P w : nat) : Z :=
  match w with
  | O => least_of e 1 9
  | S v => least_of e (10 + v * P + 1) (P - 1)
  end.

Lemma reference_steps e P k r : forall b a c len, reference_at e P k = (b, a, c, len) -> (c + r < len)%nat ->
  reference_at e P (k + r) = (b, a, (c + r)%nat, len).
Proof.
  induction r as [|r IH]; intros b a c len E H; [by rewrite !Nat.add_0_r|].
  rewrite Nat.add_succ_r. cbn [reference_at]. rewrite (IH _ _ _ _ E) by lia.
  destruct (Nat.eqb_spec (S (c + r)) len); [lia|]. do 2 f_equal. lia.
Qed.

Lemma reference_closed e P w : (0 < P)%nat ->
  reference_at e P (10 + w * P) = (window_min e P w, (10 + w * P + 1)%nat, 0%nat, P).
Proof.
  intros HP. induction w as [|w IH]; [done|].
  replace (10 + S w * P)%nat with (S ((10 + w * P) + (P - 1))) by lia. cbn [reference_at].
  rewrite (reference_steps _ _ _ _ _ _ _ _ IH) by lia.
  destruct (Nat.eqb_spec (S (0 + (P - 1))) P); [|lia]. cbn [window_min Nat.add].
  do 3 f_equal. lia.
Qed.

Lemma late_closed e P k : (0 < P)%nat ->
  ((k < 10)%nat -> late_at e P k = e O) /\
  (forall w r, (r < P)%nat -> k = (10 + w * P + r)%nat -> late_at e P k = window_min e P w).
Proof.
  intros HP. unfold late_at. split.
  - intros Hk. pose proof (reference_steps e P 0 k (e O) 1 0 10 eq_refl ltac:(lia)) as E. cbn in E. by rewrite E.
  - intros w r Hr ->. by rewrite (reference_steps _ _ _ _ _ _ _ _ (reference_closed e P w HP)) by lia.
Qed.

Lemma least_of_bounds e a n (L : Z) : (forall i, 0 <= e i <= L) -> 0 <= least_of e a n <= L.
Proof. intros H. induction n as [|n IH]; cbn [least_of]; [apply H|]. pose proof (H (a + S n)%nat). lia. Qed.

Lemma reference_bounds e P L k : (forall i, 0 <= e i <= L) -> 0 <= late_at e P k <= L.
Proof.
  intros H. unfold late_at. induction k as [|k IH]; cbn [reference_at fst]; [apply H|].
  destruct (reference_at e P k) as [[[b0 a0] c0] len0]. cbn in IH.
  case_match; cbn; [by apply least_of_bounds|done].
Qed.

(** ** The code follows the reference *)

Section Series.
Context (dt spd T w L : Z) (P : nat) (e : nat -> Z).
Hypothesis Hdt : 0 < dt.
Hypothesis Hday : dt * spd = TMSECS_PER_DAY.
Hypothesis HP : (0 < P)%nat /\ Z.of_nat P < 2 ^ 31.
Hypothesis HL : 0 <= L <= TMSECS_PER_SEC.
Hypothesis He : forall k, 0 <= e k <= L.
Hypothesis HT : 0 <= T /\ 0 <= w /\ T + w + L < TMSECS_PER_DAY.

(** The time tags as they come in: the time of the interrupt, which comes [w]
    after the sample and late, less [w]. *)
Definition late_input (k : nat) : Z := (T + w + Z.of_nat k * dt + e k) mod TMSECS_PER_DAY - w.

Definition screen_inv (k : nat) (td : screen_data) : Prop :=
  let '(b, a, c, len) := reference_at e P k in
  dtTmsec td = dt /\ dtUsec td = 0 /\ nptsCalc td = Z.of_nat P /\ samplesPerDay td = spd /\
  tt0 td = T + b /\ nmin td = Z.of_nat c /\ nptsMin td = Z.of_nat len /\
  tdiffmin td = match c with O => TMSECS_PER_SEC | S c' => least_of e a c' - b end /\
  (exists q, nDt td = Z.of_nat k + 1 - q * spd) /\ 1 <= nDt td <= spd + 1.

Lemma spd_bounds : 1 <= spd <= TMSECS_PER_DAY /\ dt <= TMSECS_PER_DAY.
Proof.
  clear -Hdt Hday. assert (0 < TMSECS_PER_DAY) by done. assert (0 < spd) by (apply (Z.mul_pos_cancel_l dt); lia).
  rewrite <- Hday. split; [split; [lia|]|]; nia.
Qed.

Lemma offset_at_exact td n : dtTmsec td = dt -> dtUsec td = 0 -> 0 <= n <= spd + 1 -> offset_at td n = n * dt.
Proof.
  intros E1 E2 Hn. pose proof spd_bounds. unfold offset_at. rewrite E1, E2.
  assert (0 <= n * dt <= 2 * TMSECS_PER_DAY) by nia. unfold TMSECS_PER_DAY, TMSECS_PER_SEC in *.
  rewrite Z.mul_0_r. change (u32 0 / USECS_PER_TMSEC) with 0.
  rewrite (u32_small (n * dt)) by lia. rewrite Z.add_0_r. apply u32_small. lia.
Qed.

(** The roll back keeps the time of day. *)
Lemma roll_back_exact td k : dtTmsec td = dt -> dtUsec td = 0 -> samplesPerDay td = spd ->
  (exists q, nDt td = Z.of_nat k + 1 - q * spd) -> 1 <= nDt td <= spd + 1 ->
  1 <= roll_back td <= spd /\ (exists q, roll_back td + 1 = Z.of_nat (S k) + 1 - q * spd).
Proof.
  intros E1 E2 E3 [q Eq] Hn. pose proof spd_bounds. unfold roll_back.
  rewrite offset_at_exact by (auto; lia). rewrite E3. destruct (Z.ltb_spec TMSECS_PER_DAY (nDt td * dt)) as [Hlt|Hge].
  - assert (nDt td = spd + 1) by nia. unfold TMSECS_PER_DAY, TMSECS_PER_SEC in *. rewrite s32_small by lia.
    split; [lia|]. exists (q + 1). lia.
  - assert (nDt td <= spd) by nia. split; [lia|]. exists q. lia.
Qed.

Lemma time_error_near tt est d : - TMSECS_PER_SEC <= d <= TMSECS_PER_SEC ->
  tt - est = d \/ tt - est = d - TMSECS_PER_DAY -> time_error tt est = d.
Proof.
  intros Hd Ht. unfold time_error. change (Z.quot (- TMSECS_PER_DAY) 2) with (- 432000000).
  change (Z.quot TMSECS_PER_DAY 2) with 432000000. unfold TMSECS_PER_DAY, TMSECS_PER_SEC in *.
  rewrite (s32_small (tt - est)) by lia. destruct Ht as [-> | ->].
  - bdestr; lia.
  - rewrite (proj2 (Z.ltb_lt (d - 86400 * 10000) (- 432000000))) by lia. rewrite s32_small by lia.
    bdestr; lia.
Qed.

Lemma time_error_exact k n b :
  (exists q, n + 1 = Z.of_nat k + 1 - q * spd) -> 1 <= n <= spd -> 0 <= b <= L ->
  time_error (late_input k) (s32 (T + b + n * dt)) = e k - b.
Proof.
  intros [q Hq] Hn Hb. pose proof (He k) as Hek. assert (dt <= n * dt <= TMSECS_PER_DAY) by nia.
  assert (Hin : late_input k = (T + w + n * dt + e k) mod TMSECS_PER_DAY - w).
  { unfold late_input. replace (T + w + Z.of_nat k * dt + e k) with (T + w + n * dt + e k + q * TMSECS_PER_DAY)
      by (rewrite <- Hday; replace (Z.of_nat k) with (n + q * spd) by lia; ring).
    by rewrite Z_mod_plus_full. }
  rewrite Hin. unfold TMSECS_PER_DAY, TMSECS_PER_SEC in *. rewrite s32_small by lia.
  assert ((T + w + n * dt + e k) mod (86400 * 10000) = T + w + n * dt + e k \/
          (T + w + n * dt + e k) mod (86400 * 10000) = T + w + n * dt + e k - 86400 * 10000) as [->| ->].
  { destruct (Z.lt_ge_cases (T + w + n * dt + e k) (86400 * 10000)); [left; apply Z.mod_small; lia|right].
    symmetry. apply (Z.mod_unique_pos _ _ 1); lia. }
  - apply time_error_near; unfold TMSECS_PER_DAY, TMSECS_PER_SEC; lia.
  - apply time_error_near; unfold TMSECS_PER_DAY, TMSECS_PER_SEC; lia.
Qed.

(** The estimate, less a day when past midnight. *)
Lemma estimate_exact k n b :
  (exists q, n + 1 = Z.of_nat k + 1 - q * spd) -> 1 <= n <= spd -> 0 <= b <= L ->
  (let est := s32 (T + b + n * dt) in
   if TMSECS_PER_DAY <=? est then est - TMSECS_PER_DAY else est)
  = (T + Z.of_nat k * dt + b) mod TMSECS_PER_DAY.
Proof.
  intros [q Hq] Hn Hb. assert (dt <= n * dt <= TMSECS_PER_DAY) by nia.
  replace (T + Z.of_nat k * dt + b) with (T + b + n * dt + q * TMSECS_PER_DAY)
    by (rewrite <- Hday; replace (Z.of_nat k) with (n + q * spd) by lia; ring).
  rewrite Z_mod_plus_full. unfold TMSECS_PER_DAY, TMSECS_PER_SEC in *. rewrite s32_small by lia. cbn zeta.
  bdestr.
  - apply (Z.mod_unique_pos _ _ 1); lia.
  - symmetry. apply Z.mod_small. lia.
Qed.

Lemma screen_step td k : screen_inv k td ->
  screen_inv (S k) (screen_timetag td (late_input (S k))).1 /\
  (screen_timetag td (late_input (S k))).2 = (T + Z.of_nat (S k) * dt + late_at e P (S k)) mod TMSECS_PER_DAY.
Proof.
  unfold screen_inv at 1. destruct (reference_at e P k) as [[[b a] c] len] eqn:Er.
  intros (E1 & E2 & E3 & E4 & E5 & E6 & E7 & E8 & E9 & E10).
  destruct (reference_place _ _ _ _ _ _ _ (proj1 HP) Er) as [Hac Hc].
  assert (Hb : 0 <= b <= L) by (pose proof (reference_bounds e P L k He) as Hb; unfold late_at in Hb; by rewrite Er in Hb).
  destruct (roll_back_exact td k E1 E2 E4 E9 E10) as [Hn Hq]. pose proof spd_bounds as Hspd.
  pose proof (reference_len _ _ _ _ _ _ _ Er) as Hlen.
  unfold screen_timetag. rewrite (proj2 (Z.eqb_neq (nDt td) NDT_START)) by (unfold NDT_START; lia).
  rewrite (offset_at_exact td) by (auto; lia). rewrite E5, time_error_exact by done.
  assert (Hcs : s32 (nmin td + 1) = Z.of_nat (S c)) by (rewrite E6; rewrite s32_small; lia).
  assert (Hleast : Z.min (e (S k) - b) (tdiffmin td) = least_of e a c - b).
  { rewrite E8. destruct c as [|c'].
    - replace a with (S k) by lia. cbn. pose proof (He (S k)). lia.
    - cbn [least_of]. replace (a + S c')%nat with (S k) by lia. lia. }
  rewrite Hcs, Hleast, E7. unfold screen_inv, late_at. cbn [reference_at]. rewrite Er.
  assert (Hs1 : s32 (roll_back td + 1) = roll_back td + 1)
    by (unfold TMSECS_PER_DAY, TMSECS_PER_SEC in *; apply s32_small; lia).
  pose proof (least_of_bounds e a c L He) as Hlb.
  assert (Hbase : s32 (T + b + (least_of e a c - b)) = T + least_of e a c)
    by (unfold TMSECS_PER_DAY, TMSECS_PER_SEC in *; rewrite s32_small; lia).
  destruct (Nat.eqb_spec (S c) len) as [Heq|Hne].
  - rewrite (proj2 (Z.eqb_eq (Z.of_nat (S c)) (Z.of_nat len))) by lia. rewrite Hbase.
    destruct (Z.leb_spec TMSECS_PER_DAY (T + least_of e a c)); [lia|]. cbn [fst snd].
    split; [|by apply estimate_exact]. cbn. rewrite Hs1, s32_small by lia.
    split_and!; try done; lia.
  - rewrite (proj2 (Z.eqb_neq (Z.of_nat (S c)) (Z.of_nat len))) by lia.
    destruct (Z.leb_spec TMSECS_PER_DAY (T + b)); [lia|]. cbn [fst snd].
    split; [|by apply estimate_exact]. cbn -[Z.of_nat]. rewrite Hs1. split_and!; try done; lia.
Qed.

End Series.

(** ** Properties *)

(** A series from the initialisation on. *)
Lemma screen_series td deltaT adjust dt T w L e P :
  deltaT = dt * USECS_PER_TMSEC -> 0 < dt -> (dt | TMSECS_PER_DAY) -> 0 <= adjust < 2 ^ 31 ->
  P = Z.to_nat (adjust / deltaT) -> (0 < P)%nat -> 0 <= L <= TMSECS_PER_SEC -> (forall k, 0 <= e k <= L) ->
  0 <= T -> 0 <= w -> T + w + L < TMSECS_PER_DAY ->
  exists td0, screen_timetag_init td deltaT adjust = Some td0 /\
  forall k, (screen_at td0 (late_input dt T w e) k).2 = (T + Z.of_nat k * dt + late_at e P k) mod TMSECS_PER_DAY.
Proof.
  intros HdT Hdt [spd Hday] Hadj HP HP0 HL He HT1 HT2 HT3. rewrite Z.mul_comm in Hday. symmetry in Hday.
  pose proof (spd_bounds dt spd Hdt Hday) as Hspd. unfold USECS_PER_TMSEC in *.
  assert (Hd1 : Z.quot deltaT 100 = dt) by (rewrite HdT; apply Z.quot_mul; lia).
  assert (Hd2 : Z.rem deltaT 100 = 0) by (rewrite HdT; apply Z.rem_mul; lia).
  assert (HD : TMSECS_PER_DAY = 864000000) by done.
  assert (Hq : Z.quot TMSECS_PER_DAY dt = spd) by (rewrite <- Hday, Z.mul_comm; apply Z.quot_mul; lia).
  assert (HPz : Z.quot adjust deltaT = Z.of_nat P) by (rewrite Z.quot_div_nonneg by lia; lia).
  assert (Z.of_nat P < 2 ^ 31) by (rewrite <- HPz, Z.quot_div_nonneg by lia; apply Z.div_lt_upper_bound; nia).
  unfold screen_timetag_init, USECS_PER_TMSEC. rewrite Hd1, Hd2, (u32_small dt) by lia.
  destruct (Z.eqb_spec deltaT 0); [lia|]. destruct (Z.eqb_spec dt 0); [lia|].
  rewrite Hq, HPz, !u32_small by lia. eexists. split; [done|].
  assert (G : forall k, let '(td', out) := screen_at
      (mkScreen dt 0 (Z.of_nat P) (tt0 td) NDT_START spd (nmin td) (nptsMin td) (tdiffmin td)) (late_input dt T w e) k in
    screen_inv dt spd T P e k td' /\ out = (T + Z.of_nat k * dt + late_at e P k) mod TMSECS_PER_DAY).
  { induction k as [|k IH].
    - pose proof (He O). assert (Hin : late_input dt T w e 0 = T + e O).
      { unfold late_input. change (Z.of_nat 0) with 0. rewrite Z.mul_0_l, Z.mod_small; lia. }
      cbn [screen_at]. unfold screen_timetag. cbn [nDt]. rewrite Z.eqb_refl, Hin. split.
      + split_and!; try done; [exists 0; cbn; lia|cbn; lia..].
      + unfold late_at. cbn [reference_at fst]. change (Z.of_nat 0) with 0. rewrite Z.mul_0_l, Z.add_0_r, Z.mod_small; lia.
    - cbn [screen_at]. destruct (screen_at _ _ k) as [tdk outk]. destruct IH as [IH _]. cbn [fst].
      pose proof (screen_step dt spd T w L P e Hdt Hday ltac:(done) HL He ltac:(done) tdk k IH) as Hs.
      destruct (screen_timetag tdk (late_input dt T w e (S k))). exact Hs. }
  intros k. specialize (G k). destruct (screen_at _ _ k) as [tdk outk]. apply G.
Qed.

(** Jitter of time tags is removed.  When the interval is a whole number of
    tenths of milliseconds that divides the day, and the time tags of the
    samples, taken at [T + k * dt], are late by up to a second, in any way
    (the time of the interrupt, less the time [w] the driver subtracts), the adjusted time tags of all samples, across any number of midnights,
    are the times of the samples plus one lateness for a whole window: that
    of the first sample for the first ten, and then the least lateness in the
    last complete window. *)
Theorem screen_removes_jitter td deltaT adjust dt T w L e P :
  deltaT = dt * USECS_PER_TMSEC -> 0 < dt -> (dt | TMSECS_PER_DAY) -> 0 <= adjust < 2 ^ 31 ->
  P = Z.to_nat (adjust / deltaT) -> (0 < P)%nat -> 0 <= L <= TMSECS_PER_SEC -> (forall k, 0 <= e k <= L) ->
  0 <= T -> 0 <= w -> T + w + L < TMSECS_PER_DAY ->
  exists td0, screen_timetag_init td deltaT adjust = Some td0 /\
  forall k, exists late,
    (screen_at td0 (late_input dt T w e) k).2 = (T + Z.of_nat k * dt + late) mod TMSECS_PER_DAY /\
    ((k < 10)%nat -> late = e O) /\
    (forall w r, (r < P)%nat -> k = (10 + w * P + r)%nat -> late = window_min e P w).
Proof.
  intros HdT Hdt Hday Hadj HP HP0 HL He HT1 HT2 HT3.
  destruct (screen_series td deltaT adjust dt T w L e P HdT Hdt Hday Hadj HP HP0 HL He HT1 HT2 HT3) as (td0 & H0 & H).
  exists td0. split; [done|]. intros k. exists (late_at e P k). split; [apply H|]. by apply late_closed.
Qed.

(** A clock that is 3 tenths of a millisecond late at most, read ten times a
    second, adjusted every second, around midnight. *)
Lemma screen_removes_jitter_witness :
  let e k := Z.of_nat (k mod 4) in
  exists td0, screen_timetag_init (mkScreen 0 0 0 0 0 0 0 0 0) 100000 1000000 = Some td0 /\
    exists late, (screen_at td0 (late_input 1000 863998000 90 e) 25).2 = (863998000 + 25000 + late) mod TMSECS_PER_DAY /\
      late = window_min e 10 1.
Proof.
  intros e.
  destruct (screen_removes_jitter (mkScreen 0 0 0 0 0 0 0 0 0) 100000 1000000 1000 863998000 90 3 e 10
    eq_refl ltac:(lia) ltac:(exists 864000; reflexivity) ltac:(lia) eq_refl ltac:(lia) ltac:(unfold TMSECS_PER_SEC; lia)
    ltac:(intros k; unfold e; pose proof (Nat.mod_upper_bound k 4); lia) ltac:(lia) ltac:(lia)
    ltac:(unfold TMSECS_PER_DAY, TMSECS_PER_SEC; lia)) as (td0 & H0 & H).
  exists td0. split; [exact H0|]. destruct (H 25%nat) as (late & H1 & _ & H2). exists late. split; [exact H1|].
  apply (H2 1%nat 5%nat); [lia|reflexivity].
Defined.

(** ** Intervals with a fraction

    [dtUsec] is the rest of the interval in microseconds times 100, and is
    divided by 100 when used, so that the rest counts as tenths of
    milliseconds.  A regular series at 3350 microseconds, which needs no
    adjustment, is spread out to 8.3 milliseconds until the first window
    ends. *)
Lemma fraction_counts_hundredfold td0 :
  screen_timetag_init (mkScreen 0 0 0 0 0 0 0 0 0) 3350 10000000 = Some td0 ->
  map (fun k => (screen_at td0 (fun k => Z.of_nat k * 3350 / 100) k).2) (seq 0 10)
  = map (fun k => 83 * Z.of_nat k) (seq 0 10).
Proof. intros [= <-]. vm_compute. reflexivity. Qed.

(** An interval below a tenth of a millisecond is a division by zero. *)
Lemma short_interval_divides_by_zero td deltaT adjust : 0 <= deltaT < 100 ->
  screen_timetag_init td deltaT adjust = None.
Proof.
  intros H. unfold screen_timetag_init, USECS_PER_TMSEC. rewrite Z.quot_small by lia. by destruct (deltaT =? 0).
Qed.
