(* ===== verification/ShortFilters.v ===== *)
(** * The filters of the A2D drivers.

    [src/src/nidas/linux/filters/short_filters.c] and
    [short_filters_kernel.h]: pick-off, boxcar and time averages of 16-bit
    samples.  [kmalloc] either succeeds or not, as an argument of the
    operations.  [DIV_ROUND_CLOSEST] of the kernel is a parameter: [None] on
    kernels that do not define it. *)

From S2P Require Import Prelude SampleScanner CircAlloc ScreenTimetag.

Definition s16 (z : Z) : Z := (z + 2 ^ 15) mod 2 ^ 16 - 2 ^ 15.
Definition MSECS_PER_SEC : Z := 1000.
Definition SIZEOF_SHORT : Z := 2.

(** ** Data *)

(** [short_sample_t]: the time tag, the length in bytes of what follows, the
    identifier and the values. *)
Record short_sample := mkShort {
  ss_timetag : Z;
  ss_length : Z;
  ss_id : Z;
  ss_data : list Z
}.

(** [struct short_filter_data], without the name of the device; the filter's
    private data is passed separately. *)
Record short_filter_data := mkFilterData {
  nchans : Z;
  channels : list Z;
  inputRate : Z;
  outputRate : Z;
  fd_sampleIndex : Z
}.

Record pickoff := mkPickoff {
  po_decimate : Z;
  po_nvars : Z;
  po_vindices : option (list Z);
  po_count : Z;
  po_sampleIndex : Z
}.

Record boxcar := mkBoxcar {
  bx_decimate : Z;
  bx_nvars : Z;
  bx_vindices : option (list Z);
  bx_sums : option (list Z);
  bx_npts : Z;
  bx_count : Z;
  bx_tsave : Z;
  bx_sampleIndex : Z
}.

Record timeavg := mkTimeavg {
  ta_decimate : Z;
  ta_deltaTmsecs : Z;
  ta_endTime : Z;
  ta_nout : Z;          (** [unsigned int] *)
  ta_nvars : Z;
  ta_vindices : option (list Z);
  ta_sums : option (list Z);
  ta_nsum : Z;
  ta_sampleIndex : Z
}.

(** ** Constructors and configuration

    [config] returns the result and the object as it leaves it; [None] is a
    division by zero. *)

Definition pickoff_init (mem : bool) : option pickoff :=
  if mem then Some (mkPickoff 0 0 None 0 0) else None.

Definition boxcar_init (mem : bool) : option boxcar :=
  if mem then Some (mkBoxcar 0 0 None None 0 0 0 0) else None.

Definition timeavg_init (mem : bool) : option timeavg :=
  if mem then Some (mkTimeavg 0 0 INT_MIN 0 0 None None 0 0) else None.

(** The copy of the channel numbers. *)
Definition copy_channels (f : short_filter_data) : list Z := take (Z.to_nat (nchans f)) (channels f).

Definition pickoff_config (mem : bool) (f : short_filter_data) (this : pickoff) : option (Z * pickoff) :=
  if outputRate f =? 0 then None
  else if negb (Z.rem (inputRate f) (outputRate f) =? 0) then Some (- EINVAL, this)
  else
    let this := mkPickoff (Z.quot (inputRate f) (outputRate f)) (nchans f) None 0 (fd_sampleIndex f) in
    if mem
    then Some (0, mkPickoff (po_decimate this) (po_nvars this) (Some (copy_channels f)) 0 (po_sampleIndex this))
    else Some (- ENOMEM, this).

Definition boxcar_config (mem1 mem2 : bool) (f : short_filter_data) (cfg_npts nbcfg : Z) (this : boxcar) :
    option (Z * boxcar) :=
  if outputRate f =? 0 then None
  else if negb (Z.rem (inputRate f) (outputRate f) =? 0) then Some (- EINVAL, this)
  else
    let dec := Z.quot (inputRate f) (outputRate f) in
    if negb (nbcfg =? SIZEOF_INT)
    then Some (- EINVAL, mkBoxcar dec (nchans f) (bx_vindices this) (bx_sums this) (bx_npts this) 0
                 (bx_tsave this) (fd_sampleIndex f))
    else if negb mem1
    then Some (- ENOMEM, mkBoxcar dec (nchans f) None (bx_sums this) cfg_npts 0 (bx_tsave this) (fd_sampleIndex f))
    else if negb mem2
    then Some (- ENOMEM, mkBoxcar dec (nchans f) (Some (copy_channels f)) None cfg_npts 0 (bx_tsave this)
                 (fd_sampleIndex f))
    else Some (0, mkBoxcar dec (nchans f) (Some (copy_channels f)) (Some (replicate (Z.to_nat (nchans f)) 0))
                 cfg_npts 0 (bx_tsave this) (fd_sampleIndex f)).

Definition timeavg_config (mem1 mem2 : bool) (f : short_filter_data) (cfg_rate nbcfg : Z) (this : timeavg) :
    option (Z * timeavg) :=
  let set dec delta v s :=
    mkTimeavg dec delta (ta_endTime this) 0 (nchans f) v s (ta_nsum this) (fd_sampleIndex f) in
  let fail := set (ta_decimate this) (ta_deltaTmsecs this) (ta_vindices this) (ta_sums this) in
  if negb (nbcfg =? SIZEOF_INT) then Some (- EINVAL, fail)
  else if outputRate f =? 0 then None
  else if negb (Z.rem cfg_rate (outputRate f) =? 0) then Some (- EINVAL, fail)
  else if cfg_rate =? 0 then None
  else
    let delta := s32 (Z.quot TMSECS_PER_SEC cfg_rate) in
    let dec := Z.quot cfg_rate (outputRate f) in
    if negb mem1 then Some (- ENOMEM, set dec delta None (ta_sums this))
    else if negb mem2 then Some (- ENOMEM, set dec delta (Some (copy_channels f)) None)
    else Some (0, set dec delta (Some (copy_channels f)) (Some (replicate (Z.to_nat (nchans f)) 0))).

(** ** The filters *)

(** [in[vindices[i] * skip_factor]] for all [i]; [input] is what is at an
    index of the array. *)
Definition picked (vindices : list Z) (skip : Z) (input : Z -> Z) : list Z :=
  map (fun v => input (v * skip)) vindices.

Definition the (l : option (list Z)) : list Z := default [] l.

(** [out->length = (op - &out->id) * sizeof(short)]. *)
Definition out_length (values : list Z) : Z := (zlen values + 1) * SIZEOF_SHORT.

Definition make_sample (tt id : Z) (values : list Z) : short_sample :=
  mkShort tt (out_length values) id values.

Definition pickoff_filter (this : pickoff) (tt : Z) (input : Z -> Z) (skip : Z) : pickoff * option short_sample :=
  let set n := mkPickoff (po_decimate this) (po_nvars this) (po_vindices this) n (po_sampleIndex this) in
  if negb (Z.rem (po_count this) (po_decimate this) =? 0) then (set (s32 (po_count this + 1)), None)
  else (set 1, Some (make_sample tt (po_sampleIndex this) (picked (the (po_vindices this)) skip input))).

Section Averages.
Context (DIV_ROUND_CLOSEST : option (Z -> Z -> Z)).

Definition rounded (sum n : Z) : Z :=
  match DIV_ROUND_CLOSEST with
  | Some f => s16 (f sum n)
  | None =>
      if 0 <? sum then s16 (Z.quot (s32 (sum + Z.quot n 2)) n) else s16 (Z.quot (s32 (sum - Z.quot n 2)) n)
  end.

(** [sums[i] += in[...]]. *)
Definition add_to (sums values : list Z) : list Z := zip_with (fun s v => s32 (s + v)) sums values.

(** The time in the middle, from the first and the last. *)
Definition middle_time (tsave tt : Z) : Z :=
  let tdiff := s32 (tt - tsave) in
  let tdiff :=
    if tdiff <? 0 then
      if tdiff <? Z.quot (- TMSECS_PER_SEC) 2 then s32 (tdiff + TMSECS_PER_SEC)
      else if tdiff <? Z.quot (- MSECS_PER_SEC) 2 then tdiff + MSECS_PER_SEC else tdiff
    else tdiff in
  s32 (tsave + Z.quot tdiff 2).

Definition boxcar_filter (this : boxcar) (tt : Z) (input : Z -> Z) (skip : Z) : boxcar * option short_sample :=
  let set sums n ts :=
    mkBoxcar (bx_decimate this) (bx_nvars this) (bx_vindices this) (Some sums) (bx_npts this) n ts
      (bx_sampleIndex this) in
  let n := s32 (bx_count this + 1) in
  let wrap n := if n =? bx_decimate this then 0 else n in
  if n <=? bx_npts this then
    let sums := add_to (the (bx_sums this)) (picked (the (bx_vindices this)) skip input) in
    let ts := if n =? 1 then tt else bx_tsave this in
    if n =? bx_npts this then
      (set (map (fun _ => 0) sums) (wrap n) ts,
       Some (make_sample (middle_time ts tt) (bx_sampleIndex this) (map (fun s => rounded s (bx_npts this)) sums)))
    else (set sums (wrap n) ts, None)
  else (set (the (bx_sums this)) (wrap n) (bx_tsave this), None).

(** The time tag in the day. *)
Definition day_time (tt : Z) : Z :=
  if TMSECS_PER_DAY <=? tt then tt - TMSECS_PER_DAY else if tt <? 0 then tt + TMSECS_PER_DAY else tt.

(** The end of the interval after the one that ended, and the roll
    forward. *)
Definition next_end (delta endTime tt : Z) : Z :=
  let e := s32 (endTime + delta) in
  let e := if TMSECS_PER_DAY <=? e then e - TMSECS_PER_DAY else e in
  if e <=? tt then s32 (tt + delta - Z.rem tt delta) else e.

Definition timeavg_filter (this : timeavg) (tt : Z) (input : Z -> Z) (skip : Z) : timeavg * option short_sample :=
  let tt := day_time tt in
  let delta := ta_deltaTmsecs this in
  let values := picked (the (ta_vindices this)) skip input in
  let set endTime nout sums nsum :=
    mkTimeavg (ta_decimate this) delta endTime nout (ta_nvars this) (ta_vindices this) (Some (add_to sums values))
      (s32 (nsum + 1)) (ta_sampleIndex this) in
  if ta_endTime this <=? tt then
    let result :=
      if (ta_nout this mod ta_decimate this =? 0) && (0 <? ta_nsum this) then
        let tout := s32 (ta_endTime this - Z.quot delta 2) in
        let tout := if tout <? 0 then tout + TMSECS_PER_DAY else tout in
        Some (make_sample tout (ta_sampleIndex this) (map (fun s => rounded s (ta_nsum this)) (the (ta_sums this))))
      else None in
    (set (next_end delta (ta_endTime this) tt) (u32 (ta_nout this + 1)) (map (fun _ => 0) (the (ta_sums this))) 0, result)
  else (set (ta_endTime this) (ta_nout this) (the (ta_sums this)) (ta_nsum this), None).

(** ** Choice of a filter *)

Inductive nidas_short_filter :=
| NIDAS_FILTER_PICKOFF | NIDAS_FILTER_BOXCAR | NIDAS_FILTER_TIMEAVG | NIDAS_FILTER_UNKNOWN.

Inductive filter_obj :=
| PickoffObj (f : pickoff) | BoxcarObj (f : boxcar) | TimeavgObj (f : timeavg).

(** [struct short_filter_methods]; the memory that a method asks for is
    granted or not. *)
Record short_filter_methods := mkMethods {
  fm_init : bool -> option filter_obj;
  fm_config : bool -> bool -> short_filter_data -> Z -> Z -> filter_obj -> option (Z * filter_obj);
  fm_filter : filter_obj -> Z -> (Z -> Z) -> Z -> filter_obj * option short_sample
}.

(** The methods of a filter are only called with its own objects. *)
Definition get_short_filter_methods (which : nidas_short_filter) : option short_filter_methods :=
  match which with
  | NIDAS_FILTER_PICKOFF => Some (mkMethods
      (fun m => PickoffObj <$> pickoff_init m)
      (fun m _ f _ _ o => match o with PickoffObj o => prod_map id PickoffObj <$> pickoff_config m f o | _ => None end)
      (fun o tt i s => match o with PickoffObj o => prod_map PickoffObj id (pickoff_filter o tt i s) | _ => (o, None) end))
  | NIDAS_FILTER_BOXCAR => Some (mkMethods
      (fun m => BoxcarObj <$> boxcar_init m)
      (fun m1 m2 f c n o => match o with BoxcarObj o => prod_map id BoxcarObj <$> boxcar_config m1 m2 f c n o | _ => None end)
      (fun o tt i s => match o with BoxcarObj o => prod_map BoxcarObj id (boxcar_filter o tt i s) | _ => (o, None) end))
  | NIDAS_FILTER_TIMEAVG => Some (mkMethods
      (fun m => TimeavgObj <$> timeavg_init m)
      (fun m1 m2 f c n o => match o with TimeavgObj o => prod_map id TimeavgObj <$> timeavg_config m1 m2 f c n o | _ => None end)
      (fun o tt i s => match o with TimeavgObj o => prod_map TimeavgObj id (timeavg_filter o tt i s) | _ => (o, None) end))
  | NIDAS_FILTER_UNKNOWN => None
  end.

End Averages.

(** ** Rounding *)

Lemma s16_small z : - 2 ^ 15 <= z < 2 ^ 15 -> s16 z = z.
Proof. unfold s16. intros. rewrite Z.mod_small; lia. Qed.

(** To the nearest integer, halves away from zero. *)
Definition half_away (sum n : Z) : Z := Z.sgn sum * ((2 * Z.abs sum + n) / (2 * n)).

(** What the kernel documents of [DIV_ROUND_CLOSEST] for a positive
    divisor. *)
Definition rounds_closest (drc : option (Z -> Z -> Z)) : Prop :=
  forall f x d, drc = Some f -> 0 < d -> INT_MIN <= x <= INT_MAX -> f x d = half_away x d.

(** A sum of [n] values of 16 bits. *)
Definition short_sum (sum n : Z) : Prop := - 32768 * n <= sum <= 32767 * n.

Lemma half_quot s n : 0 <= s -> 0 < n -> (s + n / 2) / n = (2 * s + n) / (2 * n).
Proof.
  intros Hs Hn. pose proof (Z.div_mod n 2 ltac:(lia)). pose proof (Z.mod_pos_bound n 2 ltac:(lia)).
  pose proof (Z.div_mod (s + n / 2) n ltac:(lia)). pose proof (Z.mod_pos_bound (s + n / 2) n ltac:(lia)).
  set (q := (s + n / 2) / n) in *. set (r := (s + n / 2) mod n) in *.
  apply (Z.div_unique_pos _ _ _ (2 * r + n mod 2)); lia.
Qed.

Lemma half_away_range sum n : 0 < n -> short_sum sum n -> - 2 ^ 15 <= half_away sum n < 2 ^ 15.
Proof.
  intros Hn H. unfold half_away, short_sum in *. destruct (Z.lt_trichotomy sum 0) as [Hs|[->|Hs]].
  - rewrite Z.sgn_neg by done. pose proof (Z.div_pos (2 * Z.abs sum + n) (2 * n)).
    pose proof (Z.div_lt_upper_bound (2 * Z.abs sum + n) (2 * n) 32769). lia.
  - cbn. lia.
  - rewrite Z.sgn_pos by done. pose proof (Z.div_pos (2 * Z.abs sum + n) (2 * n)).
    pose proof (Z.div_lt_upper_bound (2 * Z.abs sum + n) (2 * n) 32768). lia.
Qed.

(** Both forms of the code round to the nearest, without overflow, for up to
    65535 values. *)
Lemma rounded_exact drc sum n : rounds_closest drc -> 0 < n <= 65535 -> short_sum sum n ->
  rounded drc sum n = half_away sum n.
Proof.
  intros Hd Hn Hs. pose proof (half_away_range sum n ltac:(lia) Hs) as Hr. unfold rounded, short_sum in *.
  destruct drc as [f|]; [rewrite (Hd f) by (done || lia || (unfold INT_MIN, INT_MAX; lia)); by apply s16_small|].
  rewrite !(Z.quot_div_nonneg n 2) by lia. pose proof (Z.div_pos n 2). pose proof (Z.mul_div_le n 2).
  destruct (Z.ltb_spec 0 sum) as [Hp|Hp]; rewrite s32_small by lia.
  - rewrite Z.quot_div_nonneg, half_quot by lia. unfold half_away in *. rewrite Z.sgn_pos, Z.abs_eq in * by lia.
    rewrite Z.mul_1_l in *. by apply s16_small.
  - replace (sum - n / 2) with (- (- sum + n / 2)) by lia. rewrite Z.quot_opp_l, Z.quot_div_nonneg, half_quot by lia.
    unfold half_away in *. destruct (Z.eq_dec sum 0) as [->|].
    + change (- (0)) with 0. rewrite Z.mul_0_r, Z.add_0_l, Z.div_small by lia. done.
    + rewrite Z.sgn_neg, Z.abs_neq in * by lia. replace (-1 * ((2 * - sum + n) / (2 * n)))
        with (- ((2 * - sum + n) / (2 * n))) in * by lia. by apply s16_small.
Qed.

(** ** Series of scans *)

(** A time tag and the array of values. *)
Definition scan : Type := Z * (Z -> Z).

Fixpoint run_filter {O} (step : O -> Z -> (Z -> Z) -> O * option short_sample) (o : O) (scans : list scan) :
    O * list (option short_sample) :=
  match scans with
  | [] => (o, [])
  | (t, input) :: more =>
      let '(o1, r) := step o t input in
      let '(o2, rs) := run_filter step o1 more in (o2, r :: rs)
  end.

Lemma run_filter_app {O} (step : O -> Z -> (Z -> Z) -> O * option short_sample) a : forall o b,
  run_filter step o (a ++ b) =
    let '(o1, ra) := run_filter step o a in let '(o2, rb) := run_filter step o1 b in (o2, ra ++ rb).
Proof.
  induction a as [|[t input] a IH]; intros o b; cbn; [by destruct (run_filter step o b)|].
  destruct (step o t input) as [o1 r]. rewrite IH. destruct (run_filter step o1 a) as [o2 ra].
  by destruct (run_filter step o2 b).
Qed.

(** When each block of scans gives [expect] and leaves the filter ready, the
    blocks do. *)
Lemma run_filter_blocks {O} (step : O -> Z -> (Z -> Z) -> O * option short_sample)
    (ready : O -> Prop) (ok : list scan -> Prop) (expect : list scan -> list (option short_sample)) :
  (forall o b, ready o -> ok b -> ready (run_filter step o b).1 /\ (run_filter step o b).2 = expect b) ->
  forall blocks o, ready o -> Forall ok blocks ->
  (run_filter step o (concat blocks)).2 = concat (map expect blocks).
Proof.
  intros H. induction blocks as [|b blocks IH]; intros o Ho Hok; [done|].
  apply Forall_cons in Hok as [Hb Hok]. cbn [concat map]. rewrite run_filter_app.
  destruct (H o b Ho Hb) as [H1 H2]. destruct (run_filter step o b) as [o1 ra]. cbn in H1, H2. subst ra.
  specialize (IH o1 H1 Hok). destruct (run_filter step o1 (concat blocks)) as [o2 rb]. cbn in *. by rewrite IH.
Qed.

(** ** Pick-off *)

Definition pickoff_ready (d : Z) (chans : list Z) (idx : Z) (o : pickoff) : Prop :=
  po_decimate o = d /\ po_vindices o = Some chans /\ po_sampleIndex o = idx /\ (po_count o = 0 \/ po_count o = d).

Lemma pickoff_skips d skip : forall scans o, po_decimate o = d -> 0 < d < 2 ^ 31 ->
  0 < po_count o -> po_count o + zlen scans <= d ->
  run_filter (fun o t i => pickoff_filter o t i skip) o scans =
    (mkPickoff d (po_nvars o) (po_vindices o) (po_count o + zlen scans) (po_sampleIndex o),
     replicate (length scans) None).
Proof.
  induction scans as [|[t i] scans IH]; intros o Ed Hd Hc Hl; cbn [run_filter].
  - change (zlen []) with 0. rewrite Z.add_0_r. destruct o. cbn in *. by subst.
  - rewrite zlen_cons in *. pose proof (zlen_nonneg scans). unfold pickoff_filter.
    rewrite Ed, Z.rem_small by lia. destruct (Z.eqb_spec (po_count o) 0); [lia|]. cbn [negb].
    rewrite s32_small by lia. rewrite IH by (cbn; lia). cbn. do 2 f_equal. lia.
Qed.

Lemma pickoff_block d chans idx skip o b : 0 < d < 2 ^ 31 -> pickoff_ready d chans idx o -> zlen b = d ->
  pickoff_ready d chans idx (run_filter (fun o t i => pickoff_filter o t i skip) o b).1 /\
  (run_filter (fun o t i => pickoff_filter o t i skip) o b).2 =
    match b with
    | (t, input) :: rest =>
        Some (make_sample t idx (map (fun v => input (v * skip)) chans)) :: replicate (length rest) None
    | [] => []
    end.
Proof.
  intros Hd (E1 & E2 & E3 & E4) Hb. destruct b as [|[t input] b]; [change (zlen []) with 0 in Hb; lia|].
  rewrite zlen_cons in Hb.
  assert (Hf : pickoff_filter o t input skip =
    (mkPickoff d (po_nvars o) (Some chans) 1 idx, Some (make_sample t idx (map (fun v => input (v * skip)) chans)))).
  { unfold pickoff_filter. rewrite E1, E2, E3.
    assert (Z.rem (po_count o) d = 0) as -> by (destruct E4 as [-> | ->]; [apply Z.rem_0_l|apply Z.rem_same]; lia).
    done. }
  cbn [run_filter]. rewrite Hf, (pickoff_skips d) by (cbn; lia). cbn. split; [|done].
  split_and!; try done. right. cbn. lia.
Qed.

(** The pick-off filter gives the first of every [decimate] scans, with its
    time tag and the values of its channels, and nothing else. *)
Theorem pickoff_decimates f o blocks skip :
  0 < outputRate f -> 0 < inputRate f < 2 ^ 31 -> zlen (channels f) = nchans f ->
  pickoff_config true f (mkPickoff 0 0 None 0 0) = Some (0, o) ->
  let d := inputRate f / outputRate f in
  Forall (fun b => zlen b = d) blocks ->
  (run_filter (fun o t i => pickoff_filter o t i skip) o (concat blocks)).2 =
    concat (map (fun b => match b with
      | (t, input) :: rest =>
          Some (make_sample t (fd_sampleIndex f) (map (fun v => input (v * skip)) (channels f)))
            :: replicate (length rest) None
      | [] => []
      end) blocks).
Proof.
  intros Ho Hi Hc Hcfg d Hb. unfold pickoff_config in Hcfg. destruct (Z.eqb_spec (outputRate f) 0); [lia|].
  destruct (Z.eqb_spec (Z.rem (inputRate f) (outputRate f)) 0) as [Hr|]; [|done]. cbn in Hcfg.
  injection Hcfg as <-. rewrite Z.quot_div_nonneg by lia.
  rewrite Z.rem_mod_nonneg in Hr by lia.
  assert (Hd : 0 < d < 2 ^ 31).
  { subst d. pose proof (Z.div_mod (inputRate f) (outputRate f) ltac:(lia)). split; [nia|].
    apply Z.div_lt_upper_bound; nia. }
  unfold copy_channels. rewrite take_ge by (unfold zlen in *; lia).
  apply (run_filter_blocks _ (pickoff_ready d (channels f) (fd_sampleIndex f)) (fun b => zlen b = d)); [| |done].
  2: { split_and!; try done. by left. }
  intros o b Hr' Hok. by apply pickoff_block.
Qed.

(** ** Boxcar *)

(** The sum over some scans of the value for a channel. *)
Definition total (skip : Z) (scans : list scan) (v : Z) : Z :=
  fold_right (fun (x : scan) s => s + x.2 (v * skip)) 0 scans.

Lemma total_cons skip x scans v : total skip (x :: scans) v = total skip scans v + x.2 (v * skip).
Proof. done. Qed.

(** The values of the channels are 16-bit numbers. *)
Definition short_scan (skip : Z) (chans : list Z) (x : scan) : Prop :=
  Forall (fun v => - 2 ^ 15 <= x.2 (v * skip) < 2 ^ 15) chans.

Lemma total_range skip chans v scans : Forall (short_scan skip chans) scans -> v ∈ chans ->
  short_sum (total skip scans v) (zlen scans).
Proof.
  intros Hs Hv. unfold short_sum. induction Hs as [|x scans Hx Hs IH]; [done|].
  cbn [total fold_right]. fold (total skip scans v). rewrite zlen_cons.
  pose proof (proj1 (Forall_forall _ _) Hx v Hv) as H. cbn in H. lia.
Qed.

(** Adding a scan to sums that do not overflow. *)
Lemma add_to_total skip chans x scans :
  Forall (short_scan skip chans) (x :: scans) -> zlen (x :: scans) <= 65535 ->
  add_to (map (total skip scans) chans) (picked chans skip x.2) = map (total skip (x :: scans)) chans.
Proof.
  intros Hs Hl. unfold add_to, picked. rewrite zip_with_fmap_l, zip_with_fmap_r, zip_with_diag.
  apply list_fmap_ext. intros i v Hv. pose proof (total_range skip chans v _ Hs (list_elem_of_lookup_2 _ _ _ Hv)) as H.
  unfold short_sum in H. cbn [total fold_right] in *. apply s32_small. pose proof (zlen_nonneg scans).
  rewrite zlen_cons in *. lia.
Qed.

Lemma total_app skip a b v : total skip (a ++ b) v = total skip a v + total skip b v.
Proof.
  induction a as [|x a IH]; [done|]. cbn [app]. rewrite !total_cons, IH. lia.
Qed.

Lemma total_rev skip scans v : total skip (rev scans) v = total skip scans v.
Proof.
  induction scans as [|x scans IH]; [done|]. cbn [rev]. rewrite total_app, !total_cons, IH. cbn. lia.
Qed.

Section Boxcar.
Context (drc : option (Z -> Z -> Z)) (d npts skip idx : Z) (chans : list Z).
Hypothesis Hdrc : rounds_closest drc.
Hypothesis Hnpts : 0 < npts <= 65535.
Hypothesis Hd : npts <= d < 2 ^ 31.

Let step (o : boxcar) (t : Z) (i : Z -> Z) : boxcar * option short_sample := boxcar_filter drc o t i skip.

(** After the scans [seen] of a block, last first, the first taken at
    [ts]. *)
Definition boxcar_seen (o : boxcar) (seen : list scan) (ts : Z) : Prop :=
  bx_decimate o = d /\ bx_vindices o = Some chans /\ bx_npts o = npts /\ bx_sampleIndex o = idx /\
  bx_sums o = Some (map (total skip seen) chans) /\ bx_count o = zlen seen /\ (seen <> [] -> bx_tsave o = ts).

Lemma boxcar_collects scans : forall o seen ts, boxcar_seen o seen ts ->
  Forall (short_scan skip chans) (scans ++ seen) -> zlen seen + zlen scans < npts ->
  (seen = [] -> forall t i more, scans = (t, i) :: more -> ts = t) ->
  (run_filter step o scans).2 = replicate (length scans) None /\
  boxcar_seen (run_filter step o scans).1 (rev scans ++ seen) ts.
Proof.
  induction scans as [|[t input] scans IH]; intros o seen ts Ho Hs Hl Hts; [done|].
  destruct Ho as (E1 & E2 & E3 & E4 & E5 & E6 & E7). rewrite zlen_cons in Hl.
  pose proof (zlen_nonneg seen). pose proof (zlen_nonneg scans).
  set (o1 := mkBoxcar d (bx_nvars o) (Some chans) (Some (map (total skip ((t, input) :: seen)) chans)) npts
    (zlen seen + 1) ts idx).
  assert (Hstep : boxcar_filter drc o t input skip = (o1, None)).
  { unfold boxcar_filter. rewrite E1, E2, E3, E4, E5, E6.
    change (the (Some ?l)) with l.
    rewrite (s32_small (zlen seen + 1)) by lia. destruct (Z.leb_spec (zlen seen + 1) npts); [|lia].
    change (picked chans skip input) with (picked chans skip (t, input).2). rewrite (add_to_total skip chans (t, input) seen).
    2: { apply Forall_app in Hs as [Hs1 Hs2]. apply Forall_cons in Hs1 as [Hx _]. by constructor. }
    2: { rewrite zlen_cons. lia. }
    destruct (Z.eqb_spec (zlen seen + 1) npts); [lia|]. destruct (Z.eqb_spec (zlen seen + 1) d); [lia|].
    unfold o1. do 2 f_equal. destruct (Z.eqb_spec (zlen seen + 1) 1) as [Hz|Hz].
    - symmetry. apply (Hts ltac:(apply zlen_nil_inv; lia) t input scans eq_refl).
    - apply E7. intros ->. change (zlen []) with 0 in *. lia. }
  assert (Ho1 : boxcar_seen o1 ((t, input) :: seen) ts).
  { split_and!; try done. cbn. rewrite zlen_cons. lia. }
  destruct (IH o1 ((t, input) :: seen) ts Ho1) as [H1 H2]; [| |done|].
  { apply Forall_app in Hs as [Hs1 Hs2]. apply Forall_cons in Hs1 as [Hx Hs1]. apply Forall_app. by split; [|constructor]. }
  { rewrite zlen_cons. lia. }
  cbn [run_filter]. unfold step at 1 3. rewrite Hstep. destruct (run_filter step o1 scans) as [o2 rs]. cbn [fst snd] in *.
  split; [by rewrite H1|]. cbn [rev]. by rewrite <- app_assoc.
Qed.

(** Between blocks. *)
Definition boxcar_ready (o : boxcar) : Prop := boxcar_seen o [] 0.

(** The scan that completes the average. *)
Lemma boxcar_emits o seen ts t input : boxcar_seen o seen ts -> zlen seen + 1 = npts ->
  Forall (short_scan skip chans) ((t, input) :: seen) -> (seen = [] -> ts = t) ->
  exists o', step o t input = (o', Some (make_sample (middle_time ts t) idx
      (map (fun v => half_away (total skip ((t, input) :: seen) v) npts) chans))) /\
    bx_decimate o' = d /\ bx_vindices o' = Some chans /\ bx_npts o' = npts /\ bx_sampleIndex o' = idx /\
    bx_sums o' = Some (map (total skip []) chans) /\ bx_count o' = (if npts =? d then 0 else npts).
Proof.
  intros (E1 & E2 & E3 & E4 & E5 & E6 & E7) Hl Hs Hts. pose proof (zlen_nonneg seen).
  unfold step, boxcar_filter. rewrite E1, E2, E3, E4, E5, E6. change (the (Some ?l)) with l.
  rewrite (s32_small (zlen seen + 1)), Hl by lia. rewrite Z.leb_refl, Z.eqb_refl.
  change (picked chans skip input) with (picked chans skip (t, input).2).
  rewrite (add_to_total skip chans (t, input) seen) by (done || (rewrite zlen_cons; lia)).
  assert ((if npts =? 1 then t else bx_tsave o) = ts) as ->.
  { destruct (Z.eqb_spec npts 1) as [Hz|Hz].
    - symmetry. apply Hts. apply zlen_nil_inv. lia.
    - apply E7. intros ->. change (zlen []) with 0 in *. lia. }
  eexists. split; [apply f_equal2; [reflexivity|]; do 2 f_equal|].
  - rewrite map_map. apply list_fmap_ext. intros i v Hv. apply rounded_exact; [done|done|].
    rewrite <- Hl. replace (zlen seen + 1) with (zlen (((t, input) : scan) :: seen)) by (rewrite zlen_cons; lia).
    eapply total_range; [done|]. by eapply list_elem_of_lookup_2.
  - split_and!; try done. cbn [bx_sums]. by rewrite map_map.
Qed.

(** The scans of a block that are not averaged. *)
Lemma boxcar_skips scans : forall o, bx_decimate o = d -> bx_vindices o = Some chans -> bx_npts o = npts ->
  bx_sampleIndex o = idx -> bx_sums o = Some (map (total skip []) chans) ->
  npts <= bx_count o -> bx_count o + zlen scans = d -> scans <> [] ->
  (run_filter step o scans).2 = replicate (length scans) None /\ boxcar_ready (run_filter step o scans).1.
Proof.
  induction scans as [|[t input] scans IH]; intros o E1 E2 E3 E4 E5 Hc Hl Hne; [done|].
  rewrite zlen_cons in Hl. pose proof (zlen_nonneg scans).
  set (o1 := mkBoxcar d (bx_nvars o) (Some chans) (Some (map (total skip []) chans)) npts
    (if bx_count o + 1 =? d then 0 else bx_count o + 1) (bx_tsave o) idx).
  assert (Hstep : step o t input = (o1, None)).
  { unfold step, boxcar_filter. rewrite E1, E2, E3, E4, E5, (s32_small (bx_count o + 1)) by lia.
    destruct (Z.leb_spec (bx_count o + 1) npts); [lia|]. done. }
  cbn [run_filter]. rewrite Hstep. destruct scans as [|x scans].
  - cbn. split; [done|]. change (zlen []) with 0 in Hl. split_and!; try done.
    cbn. by rewrite (proj2 (Z.eqb_eq (bx_count o + 1) d)) by lia.
  - rewrite zlen_cons in *. assert (bx_count o1 = bx_count o + 1) as Hc1.
    { cbn. destruct (Z.eqb_spec (bx_count o + 1) d); [pose proof (zlen_nonneg scans); lia|done]. }
    destruct (IH o1 eq_refl eq_refl eq_refl eq_refl eq_refl) as [H1 H2];
      [rewrite Hc1; lia|rewrite Hc1, ?zlen_cons; lia|done|].
    destruct (run_filter step o1 (x :: scans)) as [o2 rs]. cbn [fst snd] in *. by rewrite H1.
Qed.

(** One block: [npts] scans to average, the last one at [tn], and the rest. *)
Definition boxcar_expect (b : list scan) : list (option short_sample) :=
  let used := take (Z.to_nat npts) b in
  let t1 := default 0 (fst <$> head used) in
  let tn := default 0 (fst <$> last used) in
  replicate (Z.to_nat (npts - 1)) None ++
  Some (make_sample (t1 + (tn - t1) / 2) idx (map (fun v => half_away (total skip used v) npts) chans))
    :: replicate (Z.to_nat (d - npts)) None.

(** The values are 16-bit numbers, and the day does not change during the
    average. *)
Definition boxcar_scans (b : list scan) : Prop :=
  zlen b = d /\ Forall (short_scan skip chans) b /\
  forall t1 i1 tn i_n, b !! 0%nat = Some (t1, i1) -> b !! Z.to_nat (npts - 1) = Some (tn, i_n) ->
    0 <= t1 <= tn /\ tn < TMSECS_PER_DAY.

Lemma middle_time_exact t1 tn : 0 <= t1 <= tn -> tn < TMSECS_PER_DAY -> middle_time t1 tn = t1 + (tn - t1) / 2.
Proof.
  unfold TMSECS_PER_DAY, TMSECS_PER_SEC. intros H1 H2. unfold middle_time.
  rewrite (s32_small (tn - t1)) by lia. destruct (Z.ltb_spec (tn - t1) 0); [lia|].
  rewrite Z.quot_div_nonneg by lia. pose proof (Z.div_pos (tn - t1) 2). pose proof (Z.mul_div_le (tn - t1) 2).
  apply s32_small. lia.
Qed.

Lemma boxcar_block o b : boxcar_ready o -> boxcar_scans b ->
  boxcar_ready (run_filter step o b).1 /\ (run_filter step o b).2 = boxcar_expect b.
Proof.
  intros Ho (Hl & Hs & Ht). assert (Hn : (Z.to_nat (npts - 1) < length b)%nat) by (unfold zlen in Hl; lia).
  destruct (lookup_lt_is_Some_2 b _ Hn) as [[tn input] Hn'].
  destruct (lookup_lt_is_Some_2 b 0%nat ltac:(lia)) as [[t1 i1] H0].
  set (a := take (Z.to_nat (npts - 1)) b). set (z := drop (S (Z.to_nat (npts - 1))) b).
  assert (Eb : b = a ++ (tn, input) :: z) by (symmetry; by apply take_drop_middle).
  assert (Hla : zlen a = npts - 1) by (unfold a, zlen in *; rewrite length_take; lia).
  assert (Hlz : zlen z = d - npts) by (unfold z, zlen in *; rewrite length_drop; lia).
  assert (Hused : take (Z.to_nat npts) b = a ++ [(tn, input)]).
  { replace (Z.to_nat npts) with (S (Z.to_nat (npts - 1))) by lia. by apply take_S_r. }
  rewrite Eb in Hs. apply Forall_app in Hs as [Hsa Hs]. apply Forall_cons in Hs as [Hst Hsz].
  assert (Hhead : a = [] /\ t1 = tn \/ exists i2 a', a = (t1, i2) :: a').
  { rewrite Eb in H0. destruct a as [|[t2 i2] a']; cbn in H0; [left|right]; injection H0 as -> ->; eauto. }
  destruct (boxcar_collects a o [] t1) as [Ha1 Ha2]; [|by rewrite app_nil_r|change (zlen []) with 0; lia| |].
  { destruct Ho as (?&?&?&?&?&?&_). by split_and!. }
  { intros _ t i more ->. destruct Hhead as [[? _]|(i2 & a' & [= <- _ _])]; done. }
  rewrite app_nil_r in Ha2.
  destruct (boxcar_emits (run_filter step o a).1 (rev a) t1 tn input Ha2) as (o' & Hstep & E1 & E2 & E3 & E4 & E5 & E6).
  { unfold zlen in *. rewrite length_rev. lia. }
  { constructor; [done|]. apply Forall_rev. done. }
  { intros Hr. apply (f_equal (@length _)) in Hr. rewrite length_rev in Hr. destruct Hhead as [[_ ->]|(? & ? & ->)]; done. }
  destruct (Ht t1 i1 tn input H0 Hn') as [Hord Hday].
  assert (Hexp : boxcar_expect b = (run_filter step o a).2 ++
    Some (make_sample (middle_time t1 tn) idx (map (fun v => half_away (total skip ((tn, input) :: rev a) v) npts) chans))
      :: replicate (length z) None).
  { unfold boxcar_expect. rewrite Hused, Ha1, last_snoc, middle_time_exact by done.
    assert (default 0 (fst <$> head (a ++ [(tn, input)])) = t1) as ->
      by (destruct Hhead as [[-> ->]|(? & ? & ->)]; done).
    replace (Z.to_nat (npts - 1)) with (length a) by (unfold zlen in *; lia).
    replace (Z.to_nat (d - npts)) with (length z) by (unfold zlen in *; lia).
    do 4 f_equal. apply list_fmap_ext. intros i v _. f_equal.
    rewrite total_app, !total_cons, total_rev. cbn. lia. }
  rewrite Hexp. rewrite Eb at 1 2. rewrite run_filter_app. destruct (run_filter step o a) as [oa ra]. cbn [fst snd] in *.
  cbn [run_filter]. rewrite Hstep. destruct z as [|x z'] eqn:Hz.
  - cbn [run_filter]. change (zlen []) with 0 in Hlz. split; [|done]. split_and!; try done.
    cbn [fst]. rewrite E6. by rewrite (proj2 (Z.eqb_eq npts d)) by lia.
  - assert (bx_count o' = npts) as E6'.
    { rewrite E6. destruct (Z.eqb_spec npts d); [|done]. rewrite zlen_cons in Hlz. pose proof (zlen_nonneg z'). lia. }
    destruct (boxcar_skips (x :: z') o' E1 E2 E3 E4 E5) as [H1 H2]; [lia|lia|done|].
    destruct (run_filter step o' (x :: z')) as [o2 rs]. cbn [fst snd] in *. by rewrite H1.
Qed.

End Boxcar.

(** C35: the boxcar filter averages the first [npts] of every [decimate] scans:
    the value of each channel is the mean of those scans, rounded to the
    nearest integer, without overflow for up to 65535 scans, the time tag is
    in the middle between the first and the last of them, and the other scans
    give nothing.  It holds for both forms of the division, as long as
    [npts] is at most [decimate] and the day does not change during an
    average. *)
Theorem boxcar_averages drc f npts o blocks skip :
  rounds_closest drc -> 0 < outputRate f -> 0 < inputRate f < 2 ^ 31 -> zlen (channels f) = nchans f ->
  boxcar_config true true f npts SIZEOF_INT (mkBoxcar 0 0 None None 0 0 0 0) = Some (0, o) ->
  0 < npts <= 65535 -> npts <= inputRate f / outputRate f ->
  Forall (boxcar_scans (inputRate f / outputRate f) npts skip (channels f)) blocks ->
  (run_filter (fun o t i => boxcar_filter drc o t i skip) o (concat blocks)).2 =
    concat (map (boxcar_expect (inputRate f / outputRate f) npts skip (fd_sampleIndex f) (channels f)) blocks).
Proof.
  intros Hdrc Ho Hi Hc Hcfg Hn Hd Hb. unfold boxcar_config in Hcfg. destruct (Z.eqb_spec (outputRate f) 0); [lia|].
  destruct (Z.eqb_spec (Z.rem (inputRate f) (outputRate f)) 0) as [Hr|]; [|done]. cbn in Hcfg.
  injection Hcfg as <-. rewrite Z.quot_div_nonneg by lia.
  assert (inputRate f / outputRate f < 2 ^ 31) by (apply Z.div_lt_upper_bound; nia).
  unfold copy_channels. rewrite take_ge by (unfold zlen in *; lia).
  apply (run_filter_blocks _ (boxcar_ready (inputRate f / outputRate f) npts skip (fd_sampleIndex f) (channels f))
    (boxcar_scans (inputRate f / outputRate f) npts skip (channels f))); [| |done].
  - intros o b Hr' Hok. by apply boxcar_block.
  - split_and!; try done. cbn. f_equal. rewrite <- Hc. unfold zlen. rewrite Nat2Z.id.
    clear. induction (channels f) as [|c l IH]; [done|]. cbn. by rewrite <- IH.
Qed.

(** ** Averages across midnight, and too many points

    The difference of the times around midnight is corrected by a second
    instead of a day: the time tag of the average is about noon. *)
Lemma boxcar_midnight_is_noon t1 tn : TMSECS_PER_DAY - 5000 <= t1 < TMSECS_PER_DAY -> 0 <= tn < 5000 ->
  11 * 3600 * TMSECS_PER_SEC < middle_time t1 tn < 13 * 3600 * TMSECS_PER_SEC.
Proof.
  unfold middle_time. change (Z.quot (- TMSECS_PER_SEC) 2) with (- 5000).
  unfold TMSECS_PER_DAY, TMSECS_PER_SEC. intros H1 H2. rewrite (s32_small (tn - t1)) by lia.
  destruct (Z.ltb_spec (tn - t1) 0); [|lia]. destruct (Z.ltb_spec (tn - t1) (- 5000)); [|lia].
  rewrite (s32_small (tn - t1 + 10000)) by lia.
  replace (tn - t1 + 10000) with (- (t1 - tn - 10000)) by lia. rewrite Z.quot_opp_l, Z.quot_div_nonneg by lia.
  pose proof (Z.div_mod (t1 - tn - 10000) 2 ltac:(lia)). pose proof (Z.mod_pos_bound (t1 - tn - 10000) 2 ltac:(lia)).
  rewrite s32_small by lia. lia.
Qed.

(** A number of points above the decimation is accepted by the configuration,
    and gives no sample, ever. *)
Lemma boxcar_points_above_decimation drc o scans skip :
  0 < bx_decimate o < bx_npts o -> 0 <= bx_count o < bx_decimate o -> bx_decimate o < 2 ^ 31 ->
  Forall (fun r => r = None) (run_filter (fun o t i => boxcar_filter drc o t i skip) o scans).2.
Proof.
  revert o. induction scans as [|[t input] scans IH]; intros o Hd Hc Hb; cbn [run_filter]; [constructor|].
  unfold boxcar_filter at 1. rewrite (s32_small (bx_count o + 1)) by lia.
  destruct (Z.leb_spec (bx_count o + 1) (bx_npts o)); [|lia].
  destruct (Z.eqb_spec (bx_count o + 1) (bx_npts o)); [lia|].
  match goal with |- context [run_filter _ ?x scans] => set (o1 := x) end.
  specialize (IH o1 Hd ltac:(cbn; destruct (Z.eqb_spec (bx_count o + 1) (bx_decimate o)); lia) Hb).
  destruct (run_filter _ o1 scans) as [o2 rs]. by constructor.
Qed.

(** ** Time averages *)

(** Once the end of the interval is midnight, it stays there: no time of a
    day reaches it. *)
Lemma timeavg_waits drc scans skip : forall o, ta_endTime o = TMSECS_PER_DAY ->
  Forall (fun x => - TMSECS_PER_DAY <= x.1 < 2 * TMSECS_PER_DAY) scans ->
  Forall (fun r => r = None) (run_filter (fun o t i => timeavg_filter drc o t i skip) o scans).2.
Proof.
  induction scans as [|[t input] scans IH]; intros o Ho Hs; cbn [run_filter]; [constructor|].
  apply Forall_cons in Hs as [Ht Hs]. cbn in Ht.
  assert (day_time t < TMSECS_PER_DAY) by (unfold day_time; bdestr; lia).
  unfold timeavg_filter at 1. rewrite Ho. destruct (Z.leb_spec TMSECS_PER_DAY (day_time t)); [lia|].
  match goal with |- context [run_filter _ ?x scans] => set (o1 := x) end.
  specialize (IH o1 eq_refl Hs). destruct (run_filter _ o1 scans) as [o2 rs]. by constructor.
Qed.

(** The last interval of the day ends at midnight. *)
Lemma timeavg_last_interval drc o t input skip :
  0 < ta_deltaTmsecs o -> (ta_deltaTmsecs o | TMSECS_PER_DAY) ->
  ta_endTime o = INT_MIN \/ 0 <= ta_endTime o /\ (ta_deltaTmsecs o | ta_endTime o) ->
  ta_endTime o <= t -> TMSECS_PER_DAY - ta_deltaTmsecs o <= t < TMSECS_PER_DAY ->
  ta_endTime (timeavg_filter drc o t input skip).1 = TMSECS_PER_DAY.
Proof.
  intros Hd [q Hq] Hm He Ht. set (delta := ta_deltaTmsecs o) in *. assert (delta <= TMSECS_PER_DAY).
  { assert (0 < TMSECS_PER_DAY) by done. assert (0 < q) by (apply (Z.mul_pos_cancel_r q delta); lia). rewrite Hq. nia. }
  assert (Hday : day_time t = t) by (unfold day_time; bdestr; lia).
  unfold timeavg_filter. fold delta. rewrite Hday. destruct (Z.leb_spec (ta_endTime o) t); [|lia].
  cbn [fst ta_endTime]. unfold next_end. rewrite Z.rem_mod_nonneg by lia.
  assert (Hmod : t mod delta = t - (TMSECS_PER_DAY - delta)).
  { symmetry. apply (Z.mod_unique_pos _ _ (q - 1)); lia. }
  assert (Hmul : ta_endTime o + delta <= t \/ TMSECS_PER_DAY <= ta_endTime o + delta).
  { destruct Hm as [->|[_ [m Hm]]]; [left; unfold INT_MIN, TMSECS_PER_DAY, TMSECS_PER_SEC in *; lia|].
    fold delta in Hm. destruct (Z.lt_ge_cases (m + 1) q); [left|right]; nia. }
  assert (INT_MIN <= ta_endTime o) by (destruct Hm as [->|[? _]]; unfold INT_MIN; lia).
  unfold TMSECS_PER_DAY, TMSECS_PER_SEC, INT_MIN in *.
  rewrite (s32_small (ta_endTime o + delta)) by lia. rewrite Hmod, (s32_small (t + delta - _)) by lia.
  bdestr; lia.
Qed.

(** After a scan in the last interval of a day the time averages end: there
    is no sample any more, on that day or any other. *)
Lemma timeavg_ends_at_midnight drc o t input skip scans :
  0 < ta_deltaTmsecs o -> (ta_deltaTmsecs o | TMSECS_PER_DAY) ->
  ta_endTime o = INT_MIN \/ 0 <= ta_endTime o /\ (ta_deltaTmsecs o | ta_endTime o) ->
  ta_endTime o <= t -> TMSECS_PER_DAY - ta_deltaTmsecs o <= t < TMSECS_PER_DAY ->
  Forall (fun x => - TMSECS_PER_DAY <= x.1 < 2 * TMSECS_PER_DAY) scans ->
  Forall (fun r => r = None) (run_filter (fun o t i => timeavg_filter drc o t i skip)
    (timeavg_filter drc o t input skip).1 scans).2.
Proof. intros. apply timeavg_waits; [|done]. by apply timeavg_last_interval. Qed.

(** *** Within a day *)

Section Timeavg.
Context (drc : option (Z -> Z -> Z)) (dec delta skip idx : Z) (chans : list Z).
Hypothesis Hdrc : rounds_closest drc.
Hypothesis Hdelta : 0 < delta <= TMSECS_PER_SEC.

Let tstep (o : timeavg) (t : Z) (i : Z -> Z) : timeavg * option short_sample := timeavg_filter drc o t i skip.

(** The scans of one interval, and the number of the interval. *)
Definition in_interval (k : Z) (x : scan) : Prop :=
  0 <= x.1 < TMSECS_PER_DAY /\ x.1 / delta = k /\ short_scan skip chans x.

Definition interval_ok (p : Z * list scan) : Prop :=
  p.2 <> [] /\ zlen p.2 <= 65535 /\ Forall (in_interval p.1) p.2.

(** The average of an interval, at its middle. *)
Definition interval_sample (p : Z * list scan) : short_sample :=
  make_sample ((p.1 + 1) * delta - delta / 2) idx (map (fun v => half_away (total skip p.2 v) (zlen p.2)) chans).

(** The first scan after interval number [j - 1] gives its average if [j] is
    a multiple of [dec]. *)
Fixpoint timeavg_expect (j : Z) (prev : option (Z * list scan)) (groups : list (Z * list scan)) :
    list (option short_sample) :=
  match groups with
  | [] => []
  | g :: more =>
      (match prev with Some p => if j mod dec =? 0 then Some (interval_sample p) else None | None => None end)
      :: replicate (length g.2 - 1) None ++ timeavg_expect (j + 1) (Some g) more
  end.

(** In interval [k], after the scans [seen], last first. *)
Definition timeavg_seen (o : timeavg) (j k : Z) (seen : list scan) : Prop :=
  ta_decimate o = dec /\ ta_deltaTmsecs o = delta /\ ta_vindices o = Some chans /\ ta_sampleIndex o = idx /\
  ta_endTime o = (k + 1) * delta /\ ta_nout o = j /\ ta_sums o = Some (map (total skip seen) chans) /\
  ta_nsum o = zlen seen.

Lemma interval_bounds k x : in_interval k x -> k * delta <= x.1 < (k + 1) * delta /\ day_time x.1 = x.1.
Proof.
  intros (Ht & Hk & _). pose proof (Z.div_mod x.1 delta ltac:(lia)). pose proof (Z.mod_pos_bound x.1 delta ltac:(lia)).
  rewrite Hk in *. split; [lia|]. unfold day_time. bdestr; lia.
Qed.

(** Adding the values of a scan to sums of up to 65534 others. *)
Lemma timeavg_adds k x seen : Forall (in_interval k) (x :: seen) -> zlen (x :: seen) <= 65535 ->
  add_to (map (total skip seen) chans) (picked chans skip x.2) = map (total skip (x :: seen)) chans.
Proof.
  intros H Hl. apply add_to_total; [|done]. eapply Forall_impl; [exact H|]. by intros y (_ & _ & Hy).
Qed.

Lemma timeavg_collects o j k seen x : timeavg_seen o j k seen -> Forall (in_interval k) (x :: seen) ->
  zlen (x :: seen) <= 65535 ->
  exists o', tstep o x.1 x.2 = (o', None) /\ timeavg_seen o' j k (x :: seen).
Proof.
  intros (E1 & E2 & E3 & E4 & E5 & E6 & E7 & E8) Hs Hl. pose proof Hs as [Hx _]%Forall_cons.
  destruct (interval_bounds k x Hx) as [Hb Hday]. unfold tstep, timeavg_filter.
  rewrite E1, E2, E3, E4, E5, E6, E7, E8, Hday. change (the (Some ?l)) with l.
  destruct (Z.leb_spec ((k + 1) * delta) x.1); [lia|]. rewrite (timeavg_adds k) by done.
  eexists. split; [reflexivity|]. rewrite zlen_cons in *. pose proof (zlen_nonneg seen).
  split_and!; try done. cbn. rewrite zlen_cons. rewrite s32_small; lia.
Qed.

Lemma timeavg_group j k scans : forall o seen, timeavg_seen o j k seen -> Forall (in_interval k) (scans ++ seen) ->
  zlen scans + zlen seen <= 65535 ->
  (run_filter tstep o scans).2 = replicate (length scans) None /\
  timeavg_seen (run_filter tstep o scans).1 j k (rev scans ++ seen).
Proof.
  induction scans as [|x scans IH]; intros o seen Ho Hs Hl; [done|].
  cbn [app] in Hs. apply Forall_cons in Hs as [Hx Hs]. apply Forall_app in Hs as [Hsc Hse].
  rewrite zlen_cons in Hl. pose proof (zlen_nonneg scans).
  destruct (timeavg_collects o j k seen x Ho) as (o1 & E & Ho1); [by constructor|rewrite zlen_cons; lia|].
  destruct (IH o1 (x :: seen) Ho1) as [H1 H2]; [apply Forall_app; by split; [|constructor]|rewrite zlen_cons; lia|].
  destruct x as [t i]. cbn [run_filter]. cbn in E. rewrite E.
  destruct (run_filter tstep o1 scans) as [o2 rs]. cbn [fst snd] in *. rewrite H1. split; [done|].
  cbn [rev]. by rewrite <- app_assoc.
Qed.

(** The end of the interval of a later scan. *)
Lemma next_end_exact k k' t : 0 <= k < k' -> 0 <= t < TMSECS_PER_DAY -> t / delta = k' ->
  next_end delta ((k + 1) * delta) t = (k' + 1) * delta.
Proof.
  intros Hk Ht Hq. pose proof (Z.div_mod t delta ltac:(lia)) as Hdm. pose proof (Z.mod_pos_bound t delta ltac:(lia)) as Hm.
  rewrite Hq in Hdm. assert (k * delta + delta <= k' * delta) by nia.
  unfold next_end. rewrite Z.rem_mod_nonneg by lia. unfold TMSECS_PER_DAY, TMSECS_PER_SEC in *.
  rewrite (s32_small ((k + 1) * delta + delta)) by lia. rewrite (s32_small (t + delta - t mod delta)) by lia.
  destruct (Z.leb_spec (86400 * 10000) ((k + 1) * delta + delta)).
  - destruct (Z.leb_spec ((k + 1) * delta + delta - 86400 * 10000) t); lia.
  - destruct (Z.leb_spec ((k + 1) * delta + delta) t); [lia|].
    assert (k' = k + 1) by nia. subst k'. lia.
Qed.

Lemma timeavg_starts o j k seen k' x : timeavg_seen o j k seen -> interval_ok (k, seen) -> 0 <= k < k' ->
  in_interval k' x -> 0 <= j -> j + 1 < 2 ^ 32 ->
  exists o', tstep o x.1 x.2 = (o', if j mod dec =? 0 then Some (interval_sample (k, seen)) else None) /\
    timeavg_seen o' (j + 1) k' [x].
Proof.
  intros (E1 & E2 & E3 & E4 & E5 & E6 & E7 & E8) (Hne & Hl & Hs) Hk Hx Hj1 Hj2. cbn in Hne, Hl, Hs.
  destruct (interval_bounds k' x Hx) as [Hb Hday]. unfold tstep, timeavg_filter.
  rewrite E1, E2, E3, E4, E5, E6, E7, E8, Hday. change (the (Some ?l)) with l.
  assert ((k + 1) * delta <= k' * delta) by nia.
  destruct (Z.leb_spec ((k + 1) * delta) x.1); [|lia].
  assert (0 < zlen seen) by (destruct seen; [done|rewrite zlen_cons; pose proof (zlen_nonneg seen); lia]).
  rewrite (proj2 (Z.ltb_lt 0 (zlen seen))) by done. rewrite andb_true_r.
  pose proof Hx as (Ht & Hq & Hsh). rewrite (next_end_exact k k') by done.
  assert (Hz : map (fun _ => 0) (map (total skip seen) chans) = map (total skip []) chans) by (by rewrite map_map).
  rewrite Hz, (timeavg_adds k' x [] (Forall_cons_2 _ _ _ Hx (Forall_nil_2 _)) ltac:(done)).
  eexists. split; [apply f_equal2; [reflexivity|]|].
  - destruct (j mod dec =? 0); [|done]. unfold interval_sample. cbn [fst snd].
    rewrite Z.quot_div_nonneg by lia. pose proof (Z.div_pos delta 2). pose proof (Z.mul_div_le delta 2).
    assert (0 <= (k + 1) * delta - delta / 2 < 2 ^ 31) by (unfold TMSECS_PER_DAY, TMSECS_PER_SEC in *; nia).
    rewrite s32_small by lia. destruct (Z.ltb_spec ((k + 1) * delta - delta / 2) 0); [lia|]. do 2 f_equal.
    rewrite map_map. apply list_fmap_ext. intros i v Hv. apply rounded_exact; [done|lia|].
    eapply total_range; [|by eapply list_elem_of_lookup_2]. eapply Forall_impl; [exact Hs|]. by intros y (_ & _ & Hy).
  - split_and!; try done. cbn. by rewrite u32_small by lia.
Qed.

Lemma timeavg_groups groups : forall o j k seen, timeavg_seen o j k seen -> interval_ok (k, seen) -> 0 <= k ->
  Forall interval_ok groups -> StronglySorted Z.lt (k :: groups.*1) -> 0 <= j -> j + zlen groups < 2 ^ 32 ->
  (run_filter tstep o (concat groups.*2)).2 = timeavg_expect j (Some (k, rev seen)) groups.
Proof.
  induction groups as [|[k' g] groups IH]; intros o j k seen Ho Hok Hk Hg Hs Hj1 Hj2; [done|].
  apply Forall_cons in Hg as [Hg Hgs]. rewrite zlen_cons in Hj2. pose proof (zlen_nonneg groups).
  cbn [fmap list_fmap fst] in Hs. apply StronglySorted_inv in Hs as [Hs Hlt]. apply Forall_cons in Hlt as [Hlt _].
  pose proof Hg as (Hne & Hl & Hin). cbn in Hne, Hl, Hin. destruct g as [|x g]; [done|].
  apply Forall_cons in Hin as [Hx Hin]. rewrite zlen_cons in Hl. pose proof (zlen_nonneg g).
  destruct (timeavg_starts o j k seen k' x Ho Hok ltac:(lia) Hx Hj1 ltac:(lia)) as (o1 & E1 & Ho1).
  destruct (timeavg_group (j + 1) k' g o1 [x] Ho1) as [H1 H2].
  { apply Forall_app. by split; [|constructor]. }
  { rewrite zlen_cons. change (zlen []) with 0. lia. }
  cbn [fmap list_fmap snd concat]. destruct x as [t i]. cbn [app run_filter]. cbn in E1. rewrite E1.
  rewrite run_filter_app. destruct (run_filter tstep o1 g) as [o2 rg]. cbn [fst snd] in H1, H2. subst rg.
  specialize (IH o2 (j + 1) k' (rev g ++ [(t, i)]) H2).
  rewrite rev_app_distr, rev_involutive in IH. cbn [rev app] in IH.
  assert (Hok' : interval_ok (k', rev g ++ [(t, i)])).
  { split; [by destruct (rev g)|]. cbn [fst snd]. split; [|apply Forall_app; split; [by apply Forall_rev|by constructor]].
    rewrite zlen_app. unfold zlen in *. rewrite length_rev. cbn. lia. }
  specialize (IH Hok' ltac:(lia) Hgs Hs ltac:(lia) ltac:(lia)).
  destruct (run_filter tstep o2 (concat groups.*2)) as [o3 ro]. cbn [snd] in *. subst ro.
  cbn [timeavg_expect length snd]. replace (S (length g) - 1)%nat with (length g) by lia.
  f_equal. destruct (j mod dec =? 0); [|done].
  f_equal. unfold interval_sample. cbn [fst snd]. f_equal. apply list_fmap_ext. intros n v _.
  rewrite total_rev. unfold zlen. by rewrite length_rev.
Qed.

End Timeavg.

(** The first scan after the configuration. *)
Lemma timeavg_first drc dec delta skip idx chans nv k x : 0 < delta <= TMSECS_PER_SEC ->
  in_interval delta skip chans k x ->
  exists o', timeavg_filter drc (mkTimeavg dec delta INT_MIN 0 nv (Some chans)
      (Some (replicate (length chans) 0)) 0 idx) x.1 x.2 skip = (o', None) /\
    timeavg_seen dec delta skip idx chans o' 1 k [x].
Proof.
  intros Hd Hx. destruct (interval_bounds delta skip chans Hd k x Hx) as [Hb Hday].
  pose proof Hx as (Ht & Hq & Hsh). unfold timeavg_filter.
  cbn [ta_deltaTmsecs ta_vindices ta_sums ta_nout ta_decimate ta_endTime ta_nsum ta_nvars ta_sampleIndex].
  rewrite Hday. change (the (Some ?l)) with l. destruct (Z.leb_spec INT_MIN x.1); [|unfold INT_MIN in *; lia].
  change (0 <? 0) with false. rewrite andb_false_r.
  assert (Hne : next_end delta INT_MIN x.1 = (k + 1) * delta).
  { unfold next_end, INT_MIN, TMSECS_PER_DAY, TMSECS_PER_SEC in *. rewrite Z.rem_mod_nonneg by lia.
    pose proof (Z.div_mod x.1 delta ltac:(lia)). pose proof (Z.mod_pos_bound x.1 delta ltac:(lia)). rewrite Hq in *.
    rewrite (s32_small (- 2 ^ 31 + delta)) by lia. rewrite (s32_small (x.1 + delta - x.1 mod delta)) by lia.
    destruct (Z.leb_spec (86400 * 10000) (- 2 ^ 31 + delta)); [lia|].
    destruct (Z.leb_spec (- 2 ^ 31 + delta) x.1); lia. }
  assert (Hz : map (fun _ => 0) (replicate (length chans) 0) = map (total skip []) chans).
  { clear. induction chans as [|c l IH]; [done|]. cbn. by rewrite IH. }
  rewrite Hne, Hz, (timeavg_adds delta skip chans k x [] (Forall_cons_2 _ _ _ Hx (Forall_nil_2 _)) ltac:(done)).
  eexists. split; [reflexivity|]. by split_and!.
Qed.

(** C36: the time averages of a day.  The scans of the day, up to 65535 in each
    interval, are averaged over the intervals of the length configured: the
    average of an interval is given, rounded to the nearest and with the time
    of the middle of the interval, at the first scan of the next interval
    that has any, and of these averages every [decimate]th one, first the one
    after [decimate] intervals; all other scans give nothing. *)
Theorem timeavg_intervals drc f rate o groups skip :
  rounds_closest drc -> 0 < outputRate f -> 0 < rate <= TMSECS_PER_SEC -> zlen (channels f) = nchans f ->
  timeavg_config true true f rate SIZEOF_INT (mkTimeavg 0 0 INT_MIN 0 0 None None 0 0) = Some (0, o) ->
  Forall (interval_ok (TMSECS_PER_SEC / rate) skip (channels f)) groups ->
  Forall (fun g => 0 <= g.1) groups -> StronglySorted Z.lt groups.*1 -> zlen groups < 2 ^ 32 ->
  (run_filter (fun o t i => timeavg_filter drc o t i skip) o (concat groups.*2)).2 =
    timeavg_expect (rate / outputRate f) (TMSECS_PER_SEC / rate) skip (fd_sampleIndex f) (channels f) 0 None groups.
Proof.
  intros Hdrc Ho Hr Hc Hcfg Hg Hpos Hs Hl. unfold timeavg_config in Hcfg. cbn [negb Z.eqb SIZEOF_INT Pos.eqb] in Hcfg.
  destruct (Z.eqb_spec (outputRate f) 0); [lia|].
  destruct (Z.eqb_spec (Z.rem rate (outputRate f)) 0) as [Hrem|]; [|done]. destruct (Z.eqb_spec rate 0); [lia|].
  cbn [negb] in Hcfg. injection Hcfg as <-. cbn [ta_endTime ta_nsum].
  rewrite !Z.quot_div_nonneg by (unfold TMSECS_PER_SEC; lia).
  set (delta := TMSECS_PER_SEC / rate) in *.
  assert (Hdelta : 0 < delta <= TMSECS_PER_SEC).
  { unfold delta, TMSECS_PER_SEC in *. split; [apply Z.div_str_pos; lia|apply Z.div_le_upper_bound; nia]. }
  rewrite s32_small by (unfold TMSECS_PER_SEC in *; lia). unfold copy_channels.
  rewrite take_ge by (unfold zlen in *; lia). replace (Z.to_nat (nchans f)) with (length (channels f)) by (unfold zlen in *; lia).
  destruct groups as [|[k g] groups]; [done|]. apply Forall_cons in Hg as [Hg Hgs]. apply Forall_cons in Hpos as [Hk _].
  pose proof Hg as (Hne & Hlen & Hin). cbn in Hne, Hlen, Hin, Hk. destruct g as [|x g]; [done|].
  apply Forall_cons in Hin as [Hx Hin]. rewrite zlen_cons in Hlen. rewrite zlen_cons in Hl.
  pose proof (zlen_nonneg groups). pose proof (zlen_nonneg g).
  destruct (timeavg_first drc (rate / outputRate f) delta skip (fd_sampleIndex f) (channels f) (nchans f) k x Hdelta Hx)
    as (o1 & E1 & Ho1).
  destruct (timeavg_group drc (rate / outputRate f) delta skip (fd_sampleIndex f) (channels f) Hdelta 1 k g o1 [x] Ho1)
    as [H1 H2]; [apply Forall_app; by split; [|constructor]|rewrite zlen_cons; change (zlen []) with 0; lia|].
  cbn [fmap list_fmap snd concat]. destruct x as [t i]. cbn [app run_filter]. cbn [fst snd] in E1. rewrite E1, run_filter_app.
  destruct (run_filter _ o1 g) as [o2 rg]. cbn [fst snd] in H1, H2. subst rg.
  assert (Hok' : interval_ok delta skip (channels f) (k, rev g ++ [(t, i)])).
  { split; [by destruct (rev g)|]. cbn [fst snd]. split; [|apply Forall_app; split; [by apply Forall_rev|by constructor]].
    rewrite zlen_app. unfold zlen in *. rewrite length_rev. cbn. lia. }
  pose proof (timeavg_groups drc _ delta skip _ (channels f) Hdrc Hdelta groups o2 1 k _ H2 Hok' Hk Hgs Hs
    ltac:(lia) ltac:(lia)) as Hrest.
  rewrite rev_app_distr, rev_involutive in Hrest. cbn [rev app] in Hrest.
  destruct (run_filter _ o2 (concat groups.*2)) as [o3 ro]. cbn [snd] in *. rewrite Hrest.
  cbn [timeavg_expect length snd]. by replace (S (length g) - 1)%nat with (length g) by lia.
Qed.

(** ** Two channels at 4 scans per second, and averages of 2 of them *)

Definition four_hz : short_filter_data := mkFilterData 2 [0; 1] 4 2 7.

Lemma half_away_rounds : rounds_closest (Some half_away).
Proof. by intros f x d [= <-]. Qed.

Definition scan_at (t a b : Z) : scan := (t, fun i => if i =? 0 then a else b).

Ltac short_scans :=
  repeat apply Forall_cons_2; try apply Forall_nil_2; split; vm_compute; (discriminate || reflexivity).

Lemma boxcar_averages_witness :
  exists o, boxcar_config true true four_hz 2 SIZEOF_INT (mkBoxcar 0 0 None None 0 0 0 0) = Some (0, o) /\
  (run_filter (fun o t i => boxcar_filter (Some half_away) o t i 1) o
    [scan_at 0 1 (-5); scan_at 2500 4 (-8); scan_at 5000 7 7; scan_at 7500 8 8]).2
  = [None; Some (mkShort 1250 6 7 [3; -7]); None; Some (mkShort 6250 6 7 [8; 8])].
Proof.
  eexists. split; [reflexivity|].
  pose proof (boxcar_averages (Some half_away) four_hz 2 _ [[scan_at 0 1 (-5); scan_at 2500 4 (-8)]; [scan_at 5000 7 7; scan_at 7500 8 8]] 1
    half_away_rounds eq_refl (conj eq_refl eq_refl) eq_refl eq_refl) as H.
  etransitivity; [apply H|vm_compute; reflexivity].
  - lia.
  - vm_compute. discriminate.
  - repeat apply Forall_cons_2; try apply Forall_nil_2; (split; [reflexivity|]); (split; [short_scans|]);
      intros t1 i1 tn i_n E1 E2; change (Z.to_nat (2 - 1)) with 1%nat in E2; cbn in E1, E2;
      injection E1 as <- <-; injection E2 as <- <-; unfold TMSECS_PER_DAY, TMSECS_PER_SEC; lia.
Defined.

Lemma timeavg_intervals_witness :
  exists o, timeavg_config true true four_hz 2 SIZEOF_INT (mkTimeavg 0 0 INT_MIN 0 0 None None 0 0) = Some (0, o) /\
  (run_filter (fun o t i => timeavg_filter (Some half_away) o t i 1) o
    [scan_at 0 1 (-5); scan_at 2500 4 (-8); scan_at 5000 7 7; scan_at 10000 8 8]).2
  = [None; None; Some (mkShort 2500 6 7 [3; -7]); Some (mkShort 7500 6 7 [7; 7])].
Proof.
  assert (Hex : exists o, timeavg_config true true four_hz 2 SIZEOF_INT (mkTimeavg 0 0 INT_MIN 0 0 None None 0 0) = Some (0, o))
    by (eexists; reflexivity).
  destruct Hex as [o Ho]. exists o. split; [exact Ho|].
  pose proof (timeavg_intervals (Some half_away) four_hz 2 o
    [(0, [scan_at 0 1 (-5); scan_at 2500 4 (-8)]); (1, [scan_at 5000 7 7]); (2, [scan_at 10000 8 8])] 1
    half_away_rounds eq_refl) as H.
  etransitivity; [apply H|vm_compute; reflexivity].
  - vm_compute. split; [reflexivity|discriminate].
  - reflexivity.
  - exact Ho.
  - repeat apply Forall_cons_2; try apply Forall_nil_2; (split; [discriminate|]); (split; [vm_compute; discriminate|]);
      repeat apply Forall_cons_2; try apply Forall_nil_2; (split; [split; [vm_compute; discriminate|reflexivity]|]);
      (split; [reflexivity|short_scans]).
  - repeat apply Forall_cons_2; try apply Forall_nil_2; vm_compute; discriminate.
  - repeat constructor; cbn; lia.
  - reflexivity.
Defined.
