(* ===== verification/DmdA2D.v ===== *)
(** * The A2D of the Diamond DMM boards.

    [src/src/nidas/linux/diamond/dmd_mmat.c]: configuration of the scans and
    of the filters, and the work of the bottom half of the driver, which cuts
    what the interrupt handler read from the hardware into scans, gives them
    time tags and passes them to the filters, whose samples go into the
    circular buffer of [CircBuf.v].  The work on [fifo_samples] is the list
    of the samples in it: [CircBuf.v] shows that the buffer is a queue. *)

From S2P Require Import Prelude SampleId SampleSets SampleClock SampleScanner CircBuf CircAlloc ScreenTimetag ShortFilters.

Definition MAX_DMMAT_A2D_CHANNELS : Z := 32.
Definition EBUSY : Z := 16.

(** ** Data *)

Inductive board_type := DMM16AT_BOARD | DMM32AT_BOARD | DMM32XAT_BOARD | DMM32DXAT_BOARD.
Inductive a2dmode := A2D_NORMAL | A2D_WAVEFORM.

(** [struct short_filter_info]; null pointers are [None]. *)
Record filter_info := mkInfo {
  fi_data : short_filter_data;
  fi_methods : option short_filter_methods;
  fi_obj : option filter_obj
}.

(** [struct DMMAT_A2D], what the configuration sets; [nfilters] is the length
    of [filters], [nwaveformChannels] that of [waveformChannels]. *)
Record DMMAT_A2D := mkA2D {
  running : bool;
  mode : a2dmode;
  scanRate : Z;
  scanDeltaT : Z;
  latencyMsecs : Z;
  totalOutputRate : Z;
  lowChan : Z;
  highChan : Z;
  gain : Z;
  bipolar : Z;
  gainConvSetting : Z;
  nchanScanned : Z;
  filters : list filter_info;
  waveformChannels : list Z
}.

(** [struct nidas_a2d_sample_config]. *)
Record nidas_a2d_sample_config := mkSampleConfig {
  sindex : Z;
  nvars : Z;
  rate : Z;
  filterType : nidas_short_filter;
  cfg_channels : list Z;
  cfg_gain : list Z;
  cfg_bipolar : list Z;
  nFilterData : Z;
  filterData : Z            (** the [int] it holds *)
}.

Definition with_filters (a : DMMAT_A2D) (fs : list filter_info) : DMMAT_A2D :=
  mkA2D (running a) (mode a) (scanRate a) (scanDeltaT a) (latencyMsecs a) (totalOutputRate a) (lowChan a) (highChan a)
    (gain a) (bipolar a) (gainConvSetting a) (nchanScanned a) fs (waveformChannels a).

Definition with_rate (a : DMMAT_A2D) (r : Z) : DMMAT_A2D :=
  mkA2D (running a) (mode a) (scanRate a) (scanDeltaT a) (latencyMsecs a) r (lowChan a) (highChan a)
    (gain a) (bipolar a) (gainConvSetting a) (nchanScanned a) (filters a) (waveformChannels a).

Definition with_gain (a : DMMAT_A2D) (g b setting : Z) : DMMAT_A2D :=
  mkA2D (running a) (mode a) (scanRate a) (scanDeltaT a) (latencyMsecs a) (totalOutputRate a) (lowChan a) (highChan a)
    g b setting (nchanScanned a) (filters a) (waveformChannels a).

Definition with_range (a : DMMAT_A2D) (low high : Z) : DMMAT_A2D :=
  mkA2D (running a) (mode a) (scanRate a) (scanDeltaT a) (latencyMsecs a) (totalOutputRate a) low high
    (gain a) (bipolar a) (gainConvSetting a) (nchanScanned a) (filters a) (waveformChannels a).

Definition with_waveform (a : DMMAT_A2D) (chans : list Z) : DMMAT_A2D :=
  mkA2D (running a) (mode a) (scanRate a) (scanDeltaT a) (latencyMsecs a) (totalOutputRate a) (lowChan a) (highChan a)
    (gain a) (bipolar a) (gainConvSetting a) (nchanScanned a) (filters a) chans.

Definition with_scanned (a : DMMAT_A2D) (n : Z) : DMMAT_A2D :=
  mkA2D (running a) (mode a) (scanRate a) (scanDeltaT a) (latencyMsecs a) (totalOutputRate a) (lowChan a) (highChan a)
    (gain a) (bipolar a) (gainConvSetting a) n (filters a) (waveformChannels a).

(** ** Gains *)

Definition DMMAT_UNIPOLAR : Z := 4.
Definition DMMAT_BIPOLAR : Z := 0.
Definition DMMAT_RANGE_10V : Z := 8.
Definition DMMAT_RANGE_5V : Z := 0.
Definition DMMAT_GAIN_1 : Z := 0.
Definition DMMAT_GAIN_2 : Z := 1.
Definition DMMAT_GAIN_4 : Z := 2.
Definition DMMAT_GAIN_8 : Z := 3.

(** The register for a gain and a polarity: the first row that has them. *)
Fixpoint gain_row (rows : list (Z * Z * Z)) (g b : Z) : option Z :=
  match rows with
  | [] => None
  | (rb, rg, reg) :: more => if (rb =? b) && (rg =? g) then Some reg else gain_row more g b
  end.

Definition bipolar_gains : list (Z * Z * Z) :=
  [(1, 1, Z.lor (Z.lor DMMAT_BIPOLAR DMMAT_RANGE_10V) DMMAT_GAIN_1);
   (1, 2, Z.lor (Z.lor DMMAT_BIPOLAR DMMAT_RANGE_5V) DMMAT_GAIN_1);
   (1, 4, Z.lor (Z.lor DMMAT_BIPOLAR DMMAT_RANGE_10V) DMMAT_GAIN_4);
   (1, 8, Z.lor (Z.lor DMMAT_BIPOLAR DMMAT_RANGE_10V) DMMAT_GAIN_8);
   (1, 16, Z.lor (Z.lor DMMAT_BIPOLAR DMMAT_RANGE_5V) DMMAT_GAIN_8)].

Definition unipolar_gains : list (Z * Z * Z) :=
  [(0, 2, Z.lor (Z.lor DMMAT_UNIPOLAR DMMAT_RANGE_10V) DMMAT_GAIN_1);
   (0, 4, Z.lor (Z.lor DMMAT_UNIPOLAR DMMAT_RANGE_10V) DMMAT_GAIN_2);
   (0, 8, Z.lor (Z.lor DMMAT_UNIPOLAR DMMAT_RANGE_10V) DMMAT_GAIN_4);
   (0, 16, Z.lor (Z.lor DMMAT_UNIPOLAR DMMAT_RANGE_10V) DMMAT_GAIN_8)].

Definition getGainSettingMM16AT (g b : Z) : option Z := gain_row (unipolar_gains ++ bipolar_gains) g b.

Definition getGainSettingMM32XAT (g b : Z) : option Z :=
  gain_row (unipolar_gains ++ (0, 32, Z.lor (Z.lor DMMAT_UNIPOLAR DMMAT_RANGE_5V) DMMAT_GAIN_8) :: bipolar_gains) g b.

(** The method of the board. *)
Definition getGainSetting (brd : board_type) (g b : Z) : option Z :=
  match brd with
  | DMM16AT_BOARD => getGainSettingMM16AT g b
  | _ => getGainSettingMM32XAT g b
  end.

(** ** Configuration *)

(** [resetA2D_processing], without the memory that is freed. *)
Definition resetA2D_processing (a : DMMAT_A2D) : DMMAT_A2D :=
  mkA2D (running a) (mode a) (scanRate a) (scanDeltaT a) (latencyMsecs a) 0 MAX_DMMAT_A2D_CHANNELS (-1)
    (gain a) (bipolar a) (gainConvSetting a) (nchanScanned a) [] [].

(** [configA2D]; [None] is a division by zero. *)
Definition configA2D (a : DMMAT_A2D) (cfg_scanRate latencyUsecs : Z) : option (Z * DMMAT_A2D) :=
  if running a then Some (- EBUSY, a)
  else
    let a := resetA2D_processing a in
    let lat := Z.quot latencyUsecs 1000 in
    let lat := if lat =? 0 then 500 else lat in
    if cfg_scanRate =? 0 then None
    else
      Some (0, mkA2D (running a) (mode a) cfg_scanRate (s32 (Z.quot TMSECS_PER_SEC cfg_scanRate)) lat
        (totalOutputRate a) (lowChan a) (highChan a) (gain a) (bipolar a) (gainConvSetting a) (nchanScanned a)
        (filters a) (waveformChannels a)).

(** The loop over the channels of a sample: the result and the A2D as it is
    left; [None] is a store past the end of [waveformChannels]. *)
Fixpoint add_channels (brd : board_type) (chans : list (Z * Z * Z)) (a : DMMAT_A2D) : option (Z * DMMAT_A2D) :=
  match chans with
  | [] => Some (0, a)
  | (ichan, g, b) :: more =>
      if (ichan <? 0) || (MAX_DMMAT_A2D_CHANNELS <=? ichan) then Some (- EINVAL, a)
      else
        let '(ok, a) :=
          if highChan a <? 0
          then match getGainSetting brd g b with
               | Some reg => (true, with_gain a g b reg)
               | None => (false, with_gain a g b (gainConvSetting a))
               end
          else (true, a) in
        if negb ok then Some (- EINVAL, a)
        else
          let a := with_range a (if ichan <? lowChan a then ichan else lowChan a)
                     (if highChan a <? ichan then ichan else highChan a) in
          if negb (g =? gain a) then Some (- EINVAL, a)
          else if negb (b =? bipolar a) then Some (- EINVAL, a)
          else
            match mode a with
            | A2D_NORMAL => add_channels brd more a
            | A2D_WAVEFORM =>
                if MAX_DMMAT_A2D_CHANNELS <=? zlen (waveformChannels a) then None
                else add_channels brd more (with_waveform a (waveformChannels a ++ [ichan]))
            end
  end.

(** The memory granted in a call: for the array of filters, the channels, the
    filter object, and the two arrays of its configuration. *)
Record config_memory := mkConfigMem {
  m_filters : bool; m_channels : bool; m_object : bool; m_config1 : bool; m_config2 : bool
}.

Definition all_memory : config_memory := mkConfigMem true true true true true.

Definition triples (cfg : nidas_a2d_sample_config) : list (Z * Z * Z) :=
  take (Z.to_nat (nvars cfg)) (zip (zip (cfg_channels cfg) (cfg_gain cfg)) (cfg_bipolar cfg)).

Section Driver.
Context (drc : option (Z -> Z -> Z)) (brd : board_type).

(** The part of [addA2DSampleConfig] that makes the filter of a sample: an
    error with the A2D as it is left, or the filter. *)
Definition new_filter (mem : config_memory) (cfg : nidas_a2d_sample_config) (a : DMMAT_A2D) :
    option ((Z * DMMAT_A2D) + filter_info) :=
  let chans := take (Z.to_nat (nvars cfg)) (cfg_channels cfg) in
  let grown fi := with_filters a (filters a ++ [fi]) in
  if negb (m_filters mem) then Some (inl (- ENOMEM, a))
  else if negb (m_channels mem)
  then Some (inl (- ENOMEM, grown (mkInfo (mkFilterData 0 [] 0 0 0) None None)))
  else
    let noRate := mkInfo (mkFilterData (nvars cfg) chans 0 0 0) None None in
    if (sindex cfg <? 0) || (zlen (filters a) + 1 <=? sindex cfg) then Some (inl (- EINVAL, grown noRate))
    else if rate cfg =? 0 then None
    else if negb (Z.rem (scanRate a) (rate cfg) =? 0) then Some (inl (- EINVAL, grown noRate))
    else
      let fdata := mkFilterData (nvars cfg) chans (scanRate a) (rate cfg) (s16 (sindex cfg)) in
      match get_short_filter_methods drc (filterType cfg) with
      | None => Some (inl (- EINVAL, grown (mkInfo fdata None None)))
      | Some meths =>
          match fm_init meths (m_object mem) with
          | None => Some (inl (- ENOMEM, grown (mkInfo fdata (Some meths) None)))
          | Some obj => Some (inr (mkInfo fdata (Some meths) (Some obj)))
          end
      end.

(** [addA2DSampleConfig] after the filter is made. *)
Definition add_sample (mem : config_memory) (cfg : nidas_a2d_sample_config) (old : list filter_info)
    (finfo : option filter_info) (a : DMMAT_A2D) : option (Z * DMMAT_A2D) :=
  let a := with_rate a (totalOutputRate a + rate cfg) in
  match add_channels brd (triples cfg) a with
  | None => None
  | Some (result, a) =>
  if negb (result =? 0) then Some (result, a)
  else
    let a := with_scanned a (highChan a - lowChan a + 1) in
    match finfo with
    | None => Some (0, a)
    | Some (mkInfo fdata meths obj) =>
        let fdata := mkFilterData (nchans fdata) (map (fun c => c - lowChan a) (channels fdata))
                       (inputRate fdata) (outputRate fdata) (fd_sampleIndex fdata) in
        match meths, obj with
        | Some ms, Some o =>
            match fm_config ms (m_config1 mem) (m_config2 mem) fdata (filterData cfg) (nFilterData cfg) o with
            | None => None
            | Some (result, o') => Some (result, with_filters a (old ++ [mkInfo fdata meths (Some o')]))
            end
        | _, _ => None
        end
    end
  end.

(** [addA2DSampleConfig]; [None] is a division by zero or a store past the
    end of [waveformChannels]. *)
Definition addA2DSampleConfig (mem : config_memory) (cfg : nidas_a2d_sample_config) (a : DMMAT_A2D) :
    option (Z * DMMAT_A2D) :=
  if running a then Some (- EBUSY, a)
  else
    match mode a with
    | A2D_WAVEFORM => add_sample mem cfg (filters a) None a
    | A2D_NORMAL =>
        match new_filter mem cfg a with
        | None => None
        | Some (inl e) => Some e
        | Some (inr fi) => add_sample mem cfg (filters a) (Some fi) (with_filters a (filters a ++ [fi]))
        end
    end.

(** ** The threshold of the hardware fifo *)

Definition getA2DThreshold_MM16AT : Z := 256.

Definition getA2DThreshold_MM32XAT (maxFifoThreshold : Z) (a : DMMAT_A2D) : Z :=
  if scanRate a =? 0 then - EINVAL
  else if nchanScanned a =? 0 then - EINVAL
  else
    match brd with
    | DMM32AT_BOARD =>
        Z.quot (maxFifoThreshold + nchanScanned a - 1) (nchanScanned a) * nchanScanned a
    | _ =>
        let nscans := Z.quot (s32 (latencyMsecs a * scanRate a)) 1000 in
        let nscans := if nscans <? 1 then 1 else nscans in
        let nsamps := nscans * nchanScanned a in
        let nsamps := if maxFifoThreshold <? nsamps
                      then Z.quot maxFifoThreshold (nchanScanned a) * nchanScanned a else nsamps in
        let nsamps := if negb (Z.rem nsamps 2 =? 0) then nsamps + nchanScanned a else nsamps in
        if nsamps =? 2 then 4 else nsamps
    end.

(** ** Filters and output *)

(** A short, as it is in memory and in the sample. *)
Definition le16 (v : Z) : list Z := Z_to_little_endian 2 8 (v mod 2 ^ 16).

(** The bytes of a [short_sample_t]. *)
Definition encode_short (s : short_sample) : list Z :=
  Z_to_little_endian 4 8 (u32 (ss_timetag s)) ++ Z_to_little_endian 4 8 (ss_length s) ++
  le16 (ss_id s) ++ concat (map le16 (ss_data s)).

(** Storing a sample over what the slot held. *)
Definition over_slot (bytes old : list Z) : list Z := bytes ++ drop (length bytes) old.

Context `{CM : CircMacros}.

(** One filter on one scan: its object, the buffer, and the count of missed
    samples; a null pointer is [None]. *)
Definition do_filter (fi : filter_info) (t : Z) (dp : Z -> Z) (c : circ_buf) (missed : Z) :
    option (filter_info * circ_buf * Z) :=
  match fi_methods fi, fi_obj fi with
  | Some ms, Some o =>
      let '(o', res) := fm_filter ms o t dp 1 in
      let fi' := mkInfo (fi_data fi) (fi_methods fi) (Some o') in
      match GET_HEAD c with
      | None => Some (fi', c, u32 (missed + 1))
      | Some i =>
          match res with
          | None => Some (fi', c, missed)
          | Some s => Some (fi', INCREMENT_HEAD (store_slot c i (over_slot (encode_short s) (slot c i))), missed)
          end
      end
  | _, _ => None
  end.

Fixpoint do_filters (fs : list filter_info) (t : Z) (dp : Z -> Z) (c : circ_buf) (missed : Z) :
    option (list filter_info * circ_buf * Z) :=
  match fs with
  | [] => Some ([], c, missed)
  | fi :: more =>
      match do_filter fi t dp c missed with
      | None => None
      | Some (fi', c, missed) =>
          match do_filters more t dp c missed with
          | None => None
          | Some (more', c, missed) => Some (fi' :: more', c, missed)
          end
      end
  end.

End Driver.

(** ** The bottom halves

    [nchan] is [nchanScanned] and [sdt] is [scanDeltaT]; [call] is
    [do_filters] with the state it works on: it gets the time tag and the
    values of a scan, and fails on a null pointer.  A fifo sample is its time
    tag and its values. *)

Section BottomHalf.
Context {S : Type} (call : S -> Z -> list Z -> option S) (nchan sdt : Z).

Record bh_state := mkBH {
  bh_s : S;
  bh_tt : screen_data;          (** [ttdata] *)
  bh_save_tt : Z;               (** [saveSample.timetag] *)
  bh_save : list Z              (** the first [saveChan] values of [saveSample.data] *)
}.

(** The loop over what is left of a fifo sample: whole scans are filtered,
    and the rest is saved. *)
Fixpoint scan_loop (fuel : nat) (s : S) (tt0 : Z) (save_tt : Z) (save dp : list Z) : option (S * Z * list Z) :=
  match dp, fuel with
  | [], _ => Some (s, save_tt, save)
  | _, O => None
  | _, Datatypes.S fuel =>
      if nchan <=? zlen dp then
        match call s tt0 (take (Z.to_nat nchan) dp) with
        | None => None
        | Some s' => scan_loop fuel s' (tt0 + sdt) save_tt save (drop (Z.to_nat nchan) dp)
        end
      else scan_loop fuel s (tt0 + sdt) tt0 dp []
  end.

(** The values that complete the saved scan: the state, what is saved, and the
    rest of the values. *)
Definition leftover (st : bh_state) (dp : list Z) : option (S * list Z * list Z) :=
  let saveChan := zlen (bh_save st) in
  if 0 <? saveChan then
    let n := Z.min (zlen dp) (nchan - saveChan) in
    let save := bh_save st ++ take (Z.to_nat n) dp in
    let dp := drop (Z.to_nat n) dp in
    if saveChan + n =? nchan
    then match call (bh_s st) (bh_save_tt st) save with
         | None => None
         | Some s => Some (s, [], dp)
         end
    else Some (bh_s st, save, dp)
  else Some (bh_s st, bh_save st, dp).

(** The time tag of the first scan before it is screened. *)
Definition first_time (timetag nval : Z) : Z := timetag - Z.quot (nval - 1) nchan * sdt.

(** One turn of [dmmat_a2d_bottom_half]. *)
Definition bottom_half_turn (st : bh_state) (insamp : Z * list Z) : option bh_state :=
  match leftover st insamp.2 with
  | None => None
  | Some (s, save, dp) =>
      let '(td, tt0) := screen_timetag (bh_tt st) (first_time insamp.1 (zlen insamp.2)) in
      match scan_loop (length insamp.2) s tt0 (bh_save_tt st) save dp with
      | None => None
      | Some (s, save_tt, save) => Some (mkBH s td save_tt save)
      end
  end.

Fixpoint dmmat_a2d_bottom_half (st : bh_state) (fifo : list (Z * list Z)) : option bh_state :=
  match fifo with
  | [] => Some st
  | insamp :: more =>
      match bottom_half_turn st insamp with
      | None => None
      | Some st' => dmmat_a2d_bottom_half st' more
      end
  end.

(** The loop over a fifo sample of whole scans. *)
Fixpoint fast_loop (fuel : nat) (s : S) (tt0 : Z) (dp : list Z) : option S :=
  match dp, fuel with
  | [], _ => Some s
  | _, O => None
  | _, Datatypes.S fuel =>
      match call s tt0 (take (Z.to_nat nchan) dp) with
      | None => None
      | Some s' => fast_loop fuel s' (tt0 + sdt) (drop (Z.to_nat nchan) dp)
      end
  end.

(** One turn of [dmmat_a2d_bottom_half_fast]; [BUG_ON] is a failure. *)
Definition fast_turn (s : S) (td : screen_data) (insamp : Z * list Z) : option (S * screen_data) :=
  if negb (Z.rem (zlen insamp.2) nchan =? 0) then None
  else
    let '(td, tt0) := screen_timetag td (first_time insamp.1 (zlen insamp.2)) in
    match fast_loop (length insamp.2) s tt0 insamp.2 with
    | None => None
    | Some s => Some (s, td)
    end.

Fixpoint dmmat_a2d_bottom_half_fast (s : S) (td : screen_data) (fifo : list (Z * list Z)) : option (S * screen_data) :=
  match fifo with
  | [] => Some (s, td)
  | insamp :: more =>
      match fast_turn s td insamp with
      | None => None
      | Some (s, td) => dmmat_a2d_bottom_half_fast s td more
      end
  end.

(** *** Reference: the calls, in order *)

Fixpoint calls (s : S) (scans : list (Z * list Z)) : option S :=
  match scans with
  | [] => Some s
  | (t, values) :: more => match call s t values with None => None | Some s' => calls s' more end
  end.

Lemma calls_app a : forall s b, calls s (a ++ b) = match calls s a with None => None | Some s' => calls s' b end.
Proof. induction a as [|[t v] a IH]; intros s b; cbn; [done|]. destruct (call s t v); [apply IH|done]. Qed.

(** *** Cutting into scans *)

Hypothesis Hnchan : 0 < nchan.

(** [values] are the scans of [cs] and then [rest], less than a scan. *)
Definition cut (values : list Z) (cs : list (Z * list Z)) (rest : list Z) : Prop :=
  values = concat (map snd cs) ++ rest /\ Forall (fun c => zlen c.2 = nchan) cs /\ zlen rest < nchan.

Lemma cut_cons values t c cs rest : cut values cs rest -> zlen c = nchan -> cut (c ++ values) ((t, c) :: cs) rest.
Proof. intros (-> & H1 & H2) Hc. split; [cbn; by rewrite <- app_assoc|]. split; [by constructor|done]. Qed.

Lemma cut_app v1 cs1 rest1 v2 cs2 rest2 : cut v1 cs1 rest1 -> cut (rest1 ++ v2) cs2 rest2 ->
  cut (v1 ++ v2) (cs1 ++ cs2) rest2.
Proof.
  intros (-> & H1 & _) (E & H2 & H3). split; [|split; [by apply Forall_app|done]].
  by rewrite <- app_assoc, E, map_app, concat_app, <- app_assoc.
Qed.

(** The cut of a sequence of values is unique. *)
Lemma cut_unique values cs1 rest1 : forall cs2 rest2, cut values cs1 rest1 -> cut values cs2 rest2 ->
  map snd cs1 = map snd cs2 /\ rest1 = rest2.
Proof.
  revert values. induction cs1 as [|[t1 c1] cs1 IH]; intros values [|[t2 c2] cs2] rest2 (E1 & H1 & L1) (E2 & H2 & L2).
  - cbn in *. by subst.
  - exfalso. apply Forall_cons in H2 as [H2 _]. cbn in *. subst values. apply (f_equal zlen) in E2.
    rewrite !zlen_app in E2. pose proof (zlen_nonneg (concat (map snd cs2))). pose proof (zlen_nonneg rest2). lia.
  - exfalso. apply Forall_cons in H1 as [H1 _]. cbn in *. subst values. apply (f_equal zlen) in E2.
    rewrite !zlen_app in E2. pose proof (zlen_nonneg (concat (map snd cs1))). pose proof (zlen_nonneg rest1). lia.
  - apply Forall_cons in H1 as [H1 H1']. apply Forall_cons in H2 as [H2 H2']. cbn in *. subst values.
    rewrite <- !app_assoc in E2. apply app_inj_1 in E2 as [-> E2]; [|unfold zlen in *; lia].
    destruct (IH _ cs2 rest2 (conj eq_refl (conj H1' L1)) (conj E2 (conj H2' L2))) as [-> ->]. done.
Qed.

Hypothesis Hcall : forall s t v, zlen v = nchan -> is_Some (call s t v).

Lemma scan_loop_cuts fuel : forall s tt0 save_tt save dp, (length dp <= fuel)%nat -> zlen save < nchan ->
  (dp <> [] -> save = []) ->
  exists s' save_tt' save' cs, scan_loop fuel s tt0 save_tt save dp = Some (s', save_tt', save') /\
    calls s cs = Some s' /\ cut (save ++ dp) cs save'.
Proof.
  induction fuel as [|fuel IH]; intros s tt0 save_tt save dp Hf Hs Hd.
  - destruct dp; [|cbn in Hf; lia]. exists s, save_tt, save, []. by rewrite app_nil_r.
  - destruct dp as [|v dp]; [exists s, save_tt, save, []; by rewrite app_nil_r|].
    rewrite (Hd ltac:(done)) in *. clear Hd. cbn [app]. cbn [scan_loop].
    destruct (Z.leb_spec nchan (zlen (v :: dp))) as [Hle|Hlt].
    + assert (Hl : zlen (take (Z.to_nat nchan) (v :: dp)) = nchan) by (unfold zlen in *; rewrite length_take; lia).
      destruct (Hcall s tt0 _ Hl) as [s1 E1]. rewrite E1.
      destruct (IH s1 (tt0 + sdt) save_tt [] (drop (Z.to_nat nchan) (v :: dp))) as (s' & stt & save' & cs & H1 & H2 & H3).
      { rewrite length_drop. cbn in *. lia. }
      { done. }
      { done. }
      exists s', stt, save', ((tt0, take (Z.to_nat nchan) (v :: dp)) :: cs). split; [done|].
      split; [cbn [calls]; by rewrite E1|]. rewrite <- (take_drop (Z.to_nat nchan) (v :: dp)) at 1. by apply cut_cons.
    + exists s, tt0, (v :: dp), []. split; [by destruct fuel|]. done.
Qed.

Lemma leftover_cuts st dp : zlen (bh_save st) < nchan ->
  exists s save dp' cs, leftover st dp = Some (s, save, dp') /\ calls (bh_s st) cs = Some s /\
    (dp' <> [] -> save = []) /\ (length dp' <= length dp)%nat /\ zlen save < nchan /\
    bh_save st ++ dp = concat (map snd cs) ++ save ++ dp' /\ Forall (fun c => zlen c.2 = nchan) cs.
Proof.
  intros Hs. unfold leftover. pose proof (zlen_nonneg (bh_save st)). destruct (Z.ltb_spec 0 (zlen (bh_save st))).
  - set (n := Z.min (zlen dp) (nchan - zlen (bh_save st))). pose proof (zlen_nonneg dp).
    assert (Hl : zlen (bh_save st ++ take (Z.to_nat n) dp) = zlen (bh_save st) + n)
      by (rewrite zlen_app; unfold zlen in *; rewrite length_take; lia).
    assert (Hsplit : bh_save st ++ dp = (bh_save st ++ take (Z.to_nat n) dp) ++ drop (Z.to_nat n) dp)
      by (by rewrite <- app_assoc, take_drop).
    destruct (Z.eqb_spec (zlen (bh_save st) + n) nchan).
    + destruct (Hcall (bh_s st) (bh_save_tt st) (bh_save st ++ take (Z.to_nat n) dp) ltac:(lia)) as [s1 E1].
      rewrite E1. exists s1, [], (drop (Z.to_nat n) dp), [(bh_save_tt st, bh_save st ++ take (Z.to_nat n) dp)].
      cbn [calls]. rewrite E1. split_and!; try done.
      * rewrite length_drop. lia.
      * cbn [map snd concat]. by rewrite app_nil_r.
      * constructor; [cbn; lia|done].
    + assert (drop (Z.to_nat n) dp = []) as Hd by (apply drop_ge; unfold zlen in *; lia). rewrite Hd in *.
      eexists _, _, [], []. split; [done|]. cbn [calls]. split_and!; try done; [cbn; lia|lia].
  - exists (bh_s st), (bh_save st), dp, []. assert (bh_save st = []) as -> by (apply zlen_nil_inv; lia).
    by split_and!.
Qed.

(** Cutting into scans does not depend on the sizes of the fifo samples.
    Whatever the fifo samples are and however the runs of the bottom half
    divide them, the filters are called with the values from the hardware in
    order, in scans of exactly [nchanScanned] values, each value in one scan,
    and what does not fill a scan is kept for the next run. *)
Theorem bottom_half_cuts st fifo :
  zlen (bh_save st) < nchan ->
  exists st' cs, dmmat_a2d_bottom_half st fifo = Some st' /\ calls (bh_s st) cs = Some (bh_s st') /\
    cut (bh_save st ++ concat (map snd fifo)) cs (bh_save st').
Proof.
  revert st. induction fifo as [|[t values] fifo IH]; intros st Hs; cbn [dmmat_a2d_bottom_half].
  { exists st, []. split; [done|]. split; [done|]. cbn. by rewrite app_nil_r. }
  unfold bottom_half_turn. cbn [fst snd map concat].
  destruct (leftover_cuts st values Hs) as (s1 & save1 & dp1 & cs1 & E1 & C1 & Hd & Hf & Hl & Hv & Hsz). rewrite E1.
  destruct (screen_timetag _ _) as [td tt0].
  destruct (scan_loop_cuts (length values) s1 tt0 (bh_save_tt st) save1 dp1 Hf Hl Hd)
    as (s2 & stt & save2 & cs2 & E2 & C2 & Hcut). rewrite E2.
  assert (Hcut1 : cut (bh_save st ++ values) (cs1 ++ cs2) save2).
  { rewrite Hv. destruct Hcut as (-> & H1 & H2). split; [by rewrite map_app, concat_app, <- app_assoc|].
    split; [by apply Forall_app|done]. }
  destruct (IH (mkBH s2 td stt save2)) as (st' & cs3 & E3 & C3 & Hcut3); [by destruct Hcut as (_ & _ & ?)|].
  exists st', ((cs1 ++ cs2) ++ cs3). split; [done|]. split.
  - by rewrite !calls_app, C1, C2.
  - rewrite app_assoc. by eapply cut_app.
Qed.

End BottomHalf.

(** ** Time tags of scans *)

(** Scans at a fixed interval. *)
Fixpoint timed (t sdt : Z) (scans : list (list Z)) : list (Z * list Z) :=
  match scans with
  | [] => []
  | c :: more => (t, c) :: timed (t + sdt) sdt more
  end.

Section Fast.
Context {S : Type} (call : S -> Z -> list Z -> option S) (nchan sdt : Z).
Hypothesis Hnchan : 0 < nchan.

Lemma fast_loop_calls scans : forall fuel s t, Forall (fun c => zlen c = nchan) scans ->
  (length (concat scans) <= fuel)%nat -> fast_loop call nchan sdt fuel s t (concat scans) = calls call s (timed t sdt scans).
Proof.
  induction scans as [|c scans IH]; intros fuel s t Hs Hf; [by destruct fuel|].
  apply Forall_cons in Hs as [Hc Hs]. cbn [concat timed calls] in *. rewrite length_app in Hf.
  destruct c as [|v c]; [change (zlen []) with 0 in Hc; lia|]. destruct fuel as [|fuel]; [cbn in Hf; lia|].
  cbn [app fast_loop]. change (v :: c ++ concat scans) with ((v :: c) ++ concat scans). rewrite <- Hc.
  rewrite take_zlen_app, drop_zlen_app. destruct (call s t (v :: c)); [|done].
  rewrite Hc. apply IH; [done|]. cbn in Hf. lia.
Qed.

Lemma concat_scans_len (scans : list (list Z)) : Forall (fun c => zlen c = nchan) scans ->
  zlen (concat scans) = zlen scans * nchan.
Proof.
  induction 1 as [|c scans Hc _ IH]; [done|]. cbn [concat]. rewrite zlen_app, zlen_cons, Hc, IH. lia.
Qed.

(** A fifo sample of [ns] scans. *)
Definition fifo_ok (ns : Z) (scans : list (list Z)) : Prop := zlen scans = ns /\ Forall (fun c => zlen c = nchan) scans.

Lemma fast_turn_calls ns s td t scans : 0 < ns -> fifo_ok ns scans ->
  fast_turn call nchan sdt s td (t, concat scans) =
    let '(td', tt0) := screen_timetag td (t - (ns - 1) * sdt) in
    match calls call s (timed tt0 sdt scans) with None => None | Some s' => Some (s', td') end.
Proof.
  intros Hns [Hl Hs]. unfold fast_turn, first_time. cbn [fst snd]. rewrite (concat_scans_len _ Hs), Hl.
  rewrite Z.rem_mul by lia. cbn [Z.eqb negb].
  assert (Z.quot (ns * nchan - 1) nchan = ns - 1) as ->.
  { rewrite Z.quot_div_nonneg by nia. symmetry. apply (Z.div_unique_pos _ _ _ (nchan - 1)); lia. }
  destruct (screen_timetag _ _) as [td' tt0]. by rewrite fast_loop_calls by done.
Qed.

(** The state of the screening before fifo sample [k]. *)
Definition screen_before (td0 : screen_data) (input : nat -> Z) (k : nat) : screen_data :=
  match k with O => td0 | Datatypes.S j => (screen_at td0 input j).1 end.

Lemma screen_at_before td0 input k : screen_at td0 input k = screen_timetag (screen_before td0 input k) (input k).
Proof. by destruct k. Qed.

Lemma fast_calls ns dt T e td0 (out : nat -> Z) : 0 < ns ->
  (forall k, (screen_at td0 (late_input dt T ((ns - 1) * sdt) e) k).2 = out k) ->
  forall fifos k s, Forall (fifo_ok ns) fifos ->
  fst <$> dmmat_a2d_bottom_half_fast call nchan sdt s (screen_before td0 (late_input dt T ((ns - 1) * sdt) e) k)
    (imap (fun j scans => ((T + (ns - 1) * sdt + Z.of_nat (k + j) * dt + e (k + j)%nat) mod TMSECS_PER_DAY, concat scans)) fifos)
  = calls call s (concat (imap (fun j scans => timed (out (k + j)%nat) sdt scans) fifos)).
Proof.
  intros Hns Hout. induction fifos as [|scans fifos IH]; intros k s Hf; [done|].
  apply Forall_cons in Hf as [Hok Hf]. rewrite !imap_cons. cbn [dmmat_a2d_bottom_half_fast concat].
  rewrite (fast_turn_calls ns) by done. rewrite calls_app, Nat.add_0_r.
  change ((T + (ns - 1) * sdt + Z.of_nat k * dt + e k) mod TMSECS_PER_DAY - (ns - 1) * sdt)
    with (late_input dt T ((ns - 1) * sdt) e k).
  rewrite <- screen_at_before. pose proof (Hout k) as Hk.
  destruct (screen_at td0 (late_input dt T ((ns - 1) * sdt) e) k) as [td' tt0] eqn:E. cbn in Hk. subst tt0.
  destruct (calls call s (timed (out k) sdt scans)) as [s'|]; [|done].
  specialize (IH (Datatypes.S k) s' Hf). unfold screen_before in IH. rewrite E in IH. cbn [fst] in IH.
  assert (E1 : forall {A} (g : nat -> list (list Z) -> A), imap (fun j => g (Datatypes.S k + j)%nat) fifos
    = imap ((fun j => g (k + j)%nat) ∘ Datatypes.S) fifos)
    by (intros A g; apply imap_ext; intros i x _; cbn; f_equal; lia).
  rewrite (E1 _ (fun j scans => ((T + (ns - 1) * sdt + Z.of_nat j * dt + e j) mod TMSECS_PER_DAY, concat scans))) in IH.
  rewrite (E1 _ (fun j scans => timed (out j) sdt scans)) in IH. exact IH.
Qed.

End Fast.

(** C34: time tags of scans.  When each fifo sample has the same number [ns]
    of whole scans, and the time of a fifo sample divides the day, from the start of the A2D on, the filters are called with every scan, in
    order, with the time at which it was taken, plus one lateness for all the
    scans of a fifo sample: the lateness of [ScreenTimetag.late_at], which
    the jitter of the interrupts changes only at the ends of its windows.
    Interrupts may be late by up to a second, the first scan is taken before
    the end of a day, and any number of days may pass.  (For fifo samples of
    broken scans see [split_scan_is_early].) *)
Theorem fast_scan_times {S} (call : S -> Z -> list Z -> option S) nchan sdt ns td T L e P adjust fifos :
  0 < nchan -> 0 < sdt -> 0 < ns -> (ns * sdt | TMSECS_PER_DAY) -> 0 <= adjust < 2 ^ 31 ->
  P = Z.to_nat (adjust / (ns * sdt * USECS_PER_TMSEC)) -> (0 < P)%nat ->
  0 <= L <= TMSECS_PER_SEC -> (forall k, 0 <= e k <= L) -> 0 <= T -> T + (ns - 1) * sdt + L < TMSECS_PER_DAY ->
  Forall (fifo_ok nchan ns) fifos ->
  exists td0,
    screen_timetag_init td (sdt * USECS_PER_TMSEC * (ns * nchan) / nchan) adjust = Some td0 /\
    forall s, fst <$> dmmat_a2d_bottom_half_fast call nchan sdt s td0
      (imap (fun k scans => ((T + (ns - 1) * sdt + Z.of_nat k * (ns * sdt) + e k) mod TMSECS_PER_DAY, concat scans)) fifos)
    = calls call s (concat (imap (fun k scans =>
        timed ((T + Z.of_nat k * (ns * sdt) + late_at e P k) mod TMSECS_PER_DAY) sdt scans) fifos)).
Proof.
  intros Hn Hs Hns Hdiv Hadj HP HP0 HL He HT HTw Hf.
  replace (sdt * USECS_PER_TMSEC * (ns * nchan) / nchan) with (ns * sdt * USECS_PER_TMSEC)
    by (apply Z.div_unique_exact; lia).
  destruct (screen_series td _ adjust (ns * sdt) T ((ns - 1) * sdt) L e P eq_refl ltac:(nia) Hdiv Hadj HP HP0 HL He HT
    ltac:(nia) HTw) as (td0 & H0 & H).
  exists td0. split; [done|]. intros s. by apply (fast_calls call nchan sdt Hn ns (ns * sdt) T e td0 _ Hns H fifos 0 s).
Qed.

(** ** From the filters to the buffer *)

(** The arrays of a filter have at most as many elements as a board has
    channels. *)
Definition obj_fits (o : filter_obj) : Prop :=
  match o with
  | PickoffObj f => zlen (the (po_vindices f)) <= MAX_DMMAT_A2D_CHANNELS
  | BoxcarObj f => zlen (the (bx_vindices f)) <= MAX_DMMAT_A2D_CHANNELS /\ zlen (the (bx_sums f)) <= MAX_DMMAT_A2D_CHANNELS
  | TimeavgObj f => zlen (the (ta_vindices f)) <= MAX_DMMAT_A2D_CHANNELS /\ zlen (the (ta_sums f)) <= MAX_DMMAT_A2D_CHANNELS
  end.

Definition sample_fits (s : short_sample) : Prop :=
  ss_length s = out_length (ss_data s) /\ zlen (ss_data s) <= MAX_DMMAT_A2D_CHANNELS.

Lemma zlen_map {A B} (f : A -> B) l : zlen (map f l) = zlen l.
Proof. unfold zlen. by rewrite length_map. Qed.

Lemma zlen_add_to a b : zlen (add_to a b) <= zlen a /\ zlen (add_to a b) <= zlen b.
Proof. unfold zlen, add_to. rewrite length_zip_with. lia. Qed.

Lemma pickoff_fits o t dp : obj_fits (PickoffObj o) ->
  obj_fits (PickoffObj (pickoff_filter o t dp 1).1) /\ from_option sample_fits True (pickoff_filter o t dp 1).2.
Proof.
  intros H. unfold pickoff_filter. case_match; cbn; [done|]. split; [done|]. split; [done|].
  unfold picked. cbn. by rewrite zlen_map.
Qed.

Lemma boxcar_fits drc o t dp : obj_fits (BoxcarObj o) ->
  obj_fits (BoxcarObj (boxcar_filter drc o t dp 1).1) /\ from_option sample_fits True (boxcar_filter drc o t dp 1).2.
Proof.
  intros [H1 H2]. unfold boxcar_filter.
  pose proof (zlen_add_to (the (bx_sums o)) (picked (the (bx_vindices o)) 1 dp)) as [Ha _].
  destruct (s32 (bx_count o + 1) <=? bx_npts o); [destruct (s32 (bx_count o + 1) =? bx_npts o)|];
    cbn [fst snd from_option]; (split; [split; [done|cbn; rewrite ?zlen_map; lia]|]); [|done|done].
  split; [done|]. cbn. rewrite zlen_map. lia.
Qed.

Lemma timeavg_fits drc o t dp : obj_fits (TimeavgObj o) ->
  obj_fits (TimeavgObj (timeavg_filter drc o t dp 1).1) /\ from_option sample_fits True (timeavg_filter drc o t dp 1).2.
Proof.
  intros [H1 H2]. unfold timeavg_filter.
  pose proof (zlen_add_to (the (ta_sums o)) (picked (the (ta_vindices o)) 1 dp)) as [Ha _].
  pose proof (zlen_add_to (map (fun _ => 0) (the (ta_sums o))) (picked (the (ta_vindices o)) 1 dp)) as [Hb _].
  rewrite zlen_map in Hb.
  destruct (ta_endTime o <=? day_time t); cbn [fst snd]; (split; [split; [done|cbn; lia]|]); [|done].
  case_match; cbn; [|done]. split; [done|]. cbn. rewrite zlen_map. lia.
Qed.

(** A configured filter. *)
Definition filter_ready (drc : option (Z -> Z -> Z)) (fi : filter_info) : Prop :=
  exists w ms o, fi_methods fi = Some ms /\ fi_obj fi = Some o /\ get_short_filter_methods drc w = Some ms /\ obj_fits o.

(** What a filter does with a scan, apart from the buffer. *)
Definition filter_step (fi : filter_info) (t : Z) (dp : Z -> Z) : filter_info * option short_sample :=
  match fi_methods fi, fi_obj fi with
  | Some ms, Some o =>
      let '(o', r) := fm_filter ms o t dp 1 in (mkInfo (fi_data fi) (fi_methods fi) (Some o'), r)
  | _, _ => (fi, None)
  end.

Lemma filter_step_ready drc fi t dp : filter_ready drc fi ->
  filter_ready drc (filter_step fi t dp).1 /\ from_option sample_fits True (filter_step fi t dp).2.
Proof.
  intros (w & ms & o & E1 & E2 & E3 & H). unfold filter_step. rewrite E1, E2.
  assert (G : let '(o', r) := fm_filter ms o t dp 1 in obj_fits o' /\ from_option sample_fits True r).
  { destruct w; cbn in E3; [| | |done]; injection E3 as <-; cbn [fm_filter]; destruct o as [f|f|f]; try done.
    - pose proof (pickoff_fits f t dp H) as G. by destruct (pickoff_filter f t dp 1).
    - pose proof (boxcar_fits drc f t dp H) as G. by destruct (boxcar_filter drc f t dp 1).
    - pose proof (timeavg_fits drc f t dp H) as G. by destruct (timeavg_filter drc f t dp 1). }
  destruct (fm_filter ms o t dp 1) as [o' r]. destruct G as [G1 G2]. split; [|done]. by exists w, ms, o'.
Qed.

Lemma zlen_le16 v : zlen (le16 v) = 2.
Proof. unfold le16, zlen. by rewrite length_Z_to_little_endian. Qed.

(** The bytes of a sample have the length that its header says. *)
Lemma encode_short_sized s : sample_fits s ->
  zlen (encode_short s) = ss_length s + 8 /\ 10 <= zlen (encode_short s) <= 74 /\
  forall rest, header_length (encode_short s ++ rest) = ss_length s.
Proof.
  intros [Hl Hn]. unfold out_length, SIZEOF_SHORT, MAX_DMMAT_A2D_CHANNELS in *.
  pose proof (zlen_nonneg (ss_data s)) as H0.
  assert (Hd : zlen (concat (map le16 (ss_data s))) = 2 * zlen (ss_data s)).
  { clear. induction (ss_data s) as [|v l IH]; [done|]. cbn [map concat]. rewrite zlen_app, zlen_le16, zlen_cons, IH. lia. }
  assert (L4 : forall z, length (Z_to_little_endian 4 8 z) = 4%nat)
    by (intros; apply Nat2Z.inj; by rewrite length_Z_to_little_endian).
  assert (Hlen : zlen (encode_short s) = ss_length s + 8).
  { unfold encode_short. rewrite !zlen_app, zlen_le16, Hd. unfold zlen. rewrite !L4. fold (zlen (ss_data s)).
    unfold zlen in *. lia. }
  split; [done|]. split; [lia|]. intros rest. unfold header_length, encode_short. rewrite <- !app_assoc.
  rewrite (drop_app_length' _ _ 4) by (by rewrite L4). rewrite (take_app_length' _ _ 4) by (by rewrite L4).
  rewrite little_endian_to_Z_to_little_endian by lia. change (2 ^ (4 * 8)) with (2 ^ 32).
  rewrite (Z.mod_small (ss_length s)) by lia. apply u32_small. lia.
Qed.

Section Delivery.
Context `{CM : CircMacros} (drc : option (Z -> Z -> Z)) (cap : Z).
Hypothesis Hcap : 74 <= cap < 2 ^ 32.

(** Every slot has room for a sample of all channels. *)
Definition slots_ok (c : circ_buf) : Prop := Forall (fun s => zlen s = cap) (c_slots c).

(** A sample is stored and made available. *)
Lemma deliver_one c st k sent got s i :
  ring_run (mkRing c st k false) sent got -> slots_ok c -> sample_fits s -> GET_HEAD c = Some i ->
  let c' := INCREMENT_HEAD (store_slot c i (over_slot (encode_short s) (slot c i))) in
  ring_run (mkRing c' st k false) (sent ++ [encode_short s]) got /\ slots_ok c'.
Proof.
  intros Hrun Hslots Hs Hi c'. destruct (encode_short_sized s Hs) as (Hl & Hb & Hh).
  destruct (ring_invariant _ _ _ Hrun) as [n Hinv]. pose proof (GET_HEAD_inv _ _ _ _ Hinv) as Hg. cbn in Hg.
  rewrite Hi in Hg. case_decide; [|done]. injection Hg as ->.
  destruct Hinv as [Hp Hsz _ _ Hhead _ _ _ _]. cbn in Hp, Hsz, Hhead.
  pose proof (at_slot_range (c_size c) (length sent) Hp) as Hr. rewrite <- Hhead in Hr.
  assert (Hlt : (Z.to_nat (c_head c) < length (c_slots c))%nat) by (unfold zlen in Hsz; lia).
  destruct (lookup_lt_is_Some_2 _ _ Hlt) as [old Hold].
  assert (Hslot : slot c (c_head c) = old) by (unfold slot; by rewrite Hold).
  assert (Hol : zlen old = cap) by (by eapply (Forall_lookup_1 _ _ _ _ Hslots)).
  set (bytes := over_slot (encode_short s) (slot c (c_head c))) in *.
  assert (Hbl : zlen bytes = cap).
  { subst bytes. rewrite Hslot. unfold over_slot, zlen in *. rewrite length_app, length_drop. lia. }
  assert (Hnew : slot (store_slot c (c_head c) bytes) (c_head c) = bytes).
  { unfold slot, store_slot. cbn. by rewrite list_lookup_insert_eq. }
  assert (Hsb : sample_bytes bytes = encode_short s).
  { subst bytes. unfold sample_bytes, over_slot. rewrite Hh. unfold SIZEOF_DSM_SAMPLE_HEADER. rewrite <- Hl.
    apply take_zlen_app. }
  split.
  - pose proof (ring_step _ _ _ _ _ _ Hrun (next_get_head _ st k false _ Hi)) as H1. rewrite !app_nil_r in H1.
    pose proof (ring_step _ _ _ _ _ _ H1 (next_store c st k _ bytes eq_refl ltac:(by rewrite Hslot, Hbl))) as H2.
    rewrite !app_nil_r in H2.
    assert (Hf : slot_filled (slot (store_slot c (c_head c) bytes) (c_head (store_slot c (c_head c) bytes)))).
    { cbn [c_head store_slot]. rewrite Hnew. split; [|lia].
      assert (header_length bytes = ss_length s) as -> by (subst bytes; apply Hh).
      unfold SIZEOF_DSM_SAMPLE_HEADER. lia. }
    pose proof (ring_step _ _ _ _ _ _ H2 (next_increment_head _ st k Hf)) as H3.
    cbn [c_head store_slot] in H3. rewrite Hnew, Hsb, app_nil_r in H3. exact H3.
  - unfold slots_ok, c'. cbn. by apply Forall_insert.
Qed.

(** The samples that the filters give for a scan, in order. *)
Definition results (fs : list filter_info) (t : Z) (dp : Z -> Z) : list short_sample :=
  omap (fun fi => (filter_step fi t dp).2) fs.

(** A full buffer stays as it is. *)
Lemma do_filters_full fs : forall t dp c missed, GET_HEAD c = None -> Forall (filter_ready drc) fs ->
  0 <= missed -> missed + zlen fs < 2 ^ 32 ->
  do_filters fs t dp c missed = Some (map (fun fi => (filter_step fi t dp).1) fs, c, missed + zlen fs).
Proof.
  induction fs as [|fi fs IH]; intros t dp c missed Hh Hfs Hm1 Hm2; [by rewrite Z.add_0_r|].
  apply Forall_cons in Hfs as [(w & ms & o & E1 & E2 & _) Hfs]. rewrite zlen_cons in *. pose proof (zlen_nonneg fs).
  cbn [do_filters map]. unfold do_filter, filter_step at 1. rewrite E1, E2, Hh.
  destruct (fm_filter ms o t dp 1) as [o' r]. rewrite u32_small, IH by (done || lia). cbn [fst]. do 2 f_equal. lia.
Qed.

(** C32: the filters deliver to the buffer what they give.  For configured
    filters [do_filters] runs each filter exactly once on the scan, whether
    or not there is room, and stores only inside the slots.  The filters fall
    into those that found room, whose samples are all made available, in the
    order of the filters, and after them those that found the buffer full,
    which it then still is: [missedSamples] grows by exactly their number. *)
Theorem do_filters_delivers fs : forall t dp c missed st k sent got,
  ring_run (mkRing c st k false) sent got -> slots_ok c -> Forall (filter_ready drc) fs ->
  0 <= missed -> missed + zlen fs < 2 ^ 32 ->
  exists c' roomy refused, fs = roomy ++ refused /\
    do_filters fs t dp c missed = Some (map (fun fi => (filter_step fi t dp).1) fs, c', missed + zlen refused) /\
    ring_run (mkRing c' st k false) (sent ++ map encode_short (results roomy t dp)) got /\ slots_ok c' /\
    (refused <> [] -> GET_HEAD c' = None).
Proof.
  induction fs as [|fi fs IH]; intros t dp c missed st k sent got Hrun Hslots Hfs Hm1 Hm2.
  { exists c, [], []. cbn. rewrite app_nil_r, Z.add_0_r. by split_and!. }
  apply Forall_cons in Hfs as [Hfi Hfs]. rewrite zlen_cons in *. pose proof (zlen_nonneg fs).
  pose proof (filter_step_ready drc fi t dp Hfi) as [_ Hfit].
  destruct (GET_HEAD c) as [i|] eqn:Hh.
  - destruct Hfi as (w & ms & o & E1 & E2 & E3 & Ho). cbn [do_filters map]. unfold do_filter.
    assert (Hres : forall l, results (fi :: l) t dp =
      match (fm_filter ms o t dp 1).2 with Some s => s :: results l t dp | None => results l t dp end).
    { intros l. unfold results, filter_step. cbn. rewrite E1, E2. by destruct (fm_filter ms o t dp 1). }
    unfold filter_step in Hfit |- * at 1. rewrite E1, E2, Hh in *.
    destruct (fm_filter ms o t dp 1) as [o' [s|]]; cbn [fst snd] in *.
    + destruct (deliver_one _ _ _ _ _ _ _ Hrun Hslots Hfit Hh) as [Hrun' Hslots'].
      destruct (IH t dp _ missed _ _ _ _ Hrun' Hslots' Hfs Hm1 ltac:(lia)) as (c' & f1 & f2 & -> & D & R & Sl & Hf).
      rewrite D. exists c', (fi :: f1), f2. rewrite Hres. rewrite <- app_assoc in R. by split_and!.
    + destruct (IH t dp _ missed _ _ _ _ Hrun Hslots Hfs Hm1 ltac:(lia)) as (c' & f1 & f2 & -> & D & R & Sl & Hf).
      rewrite D. exists c', (fi :: f1), f2. rewrite Hres. by split_and!.
  - rewrite do_filters_full by (done || (by constructor) || (rewrite zlen_cons; lia)).
    exists c, [], (fi :: fs). cbn. rewrite app_nil_r. by split_and!.
Qed.

End Delivery.

(** ** Channels of the filters *)

Definition obj_vindices (o : filter_obj) : option (list Z) :=
  match o with
  | PickoffObj f => po_vindices f
  | BoxcarObj f => bx_vindices f
  | TimeavgObj f => ta_vindices f
  end.

(** The channels asked for; the arrays of the request have 32 elements. *)
Definition requested (cfg : nidas_a2d_sample_config) : list Z := take (Z.to_nat (nvars cfg)) (cfg_channels cfg).

Definition request_ok (cfg : nidas_a2d_sample_config) : Prop :=
  0 <= nvars cfg <= 32 /\ length (cfg_channels cfg) = 32%nat /\ length (cfg_gain cfg) = 32%nat /\
  length (cfg_bipolar cfg) = 32%nat.

Lemma map_zip3 {A B C} (l : list A) : forall (k : list B) (m : list C), length l = length k -> length l = length m ->
  map (fun x => x.1.1) (zip (zip l k) m) = l.
Proof.
  induction l as [|x l IH]; intros [|y k] [|z m] H1 H2; try done. cbn. f_equal. apply IH; cbn in *; lia.
Qed.

Lemma triples_channels cfg : request_ok cfg -> map (fun x => x.1.1) (triples cfg) = requested cfg.
Proof.
  intros (Hn & H1 & H2 & H3). unfold triples, requested. rewrite <- firstn_map. f_equal. apply map_zip3; lia.
Qed.

(** What the loop over the channels leaves alone. *)
Definition same_setup (a a' : DMMAT_A2D) : Prop :=
  running a' = running a /\ mode a' = mode a /\ scanRate a' = scanRate a /\ filters a' = filters a.

Lemma add_channels_ok brd chans : forall a a', add_channels brd chans a = Some (0, a') ->
  same_setup a a' /\ Forall (fun x => 0 <= x.1.1 < MAX_DMMAT_A2D_CHANNELS) chans /\
  (forall lo, lo <= lowChan a -> Forall (fun x => lo <= x.1.1) chans -> lo <= lowChan a') /\
  lowChan a' <= lowChan a /\ highChan a <= highChan a' /\ Forall (fun x => lowChan a' <= x.1.1 <= highChan a') chans.
Proof.
  induction chans as [|[[ichan g] b] chans IH]; intros a a' E; cbn [add_channels] in E.
  { injection E as <-. split_and!; try done. }
  destruct (Z.ltb_spec ichan 0) as [|H0]; [done|]. destruct (Z.leb_spec MAX_DMMAT_A2D_CHANNELS ichan) as [|H1]; [done|].
  cbn [orb] in E.
  destruct (if highChan a <? 0 then _ else _) as [ok a1] eqn:E1.
  assert (Ha1 : same_setup a a1 /\ lowChan a1 = lowChan a /\ highChan a1 = highChan a).
  { destruct (highChan a <? 0); [|by injection E1 as _ <-]. destruct (getGainSetting brd g b); by injection E1 as _ <-. }
  destruct Ha1 as (Hs1 & Hl1 & Hh1). destruct ok; [|done]. cbn [negb] in E.
  set (a2 := with_range a1 _ _) in E. destruct (g =? gain a2); [|done]. destruct (b =? bipolar a2); [|done]. cbn [negb] in E.
  set (a3 := match mode a2 with A2D_NORMAL => a2 | A2D_WAVEFORM => with_waveform a2 (waveformChannels a2 ++ [ichan]) end).
  assert (E' : add_channels brd chans a3 = Some (0, a')).
  { unfold a3. destruct (mode a2); [done|]. by destruct (MAX_DMMAT_A2D_CHANNELS <=? _). }
  clear E. rename E' into E.
  assert (Ha3 : same_setup a1 a3 /\ lowChan a3 = Z.min ichan (lowChan a) /\ highChan a3 = Z.max ichan (highChan a)).
  { assert (G : lowChan a2 = Z.min ichan (lowChan a) /\ highChan a2 = Z.max ichan (highChan a)).
    { cbn. rewrite Hl1, Hh1. split; bdestr; lia. }
    unfold a3. destruct (mode a2); [|split]; done. }
  destruct Ha3 as (Hs3 & Hl3 & Hh3). destruct (IH a3 a' E) as (Hs & Hf & Hlo & Hle & Hge & Hb).
  split. { unfold same_setup in *. destruct Hs as (-> & -> & -> & ->), Hs3 as (-> & -> & -> & ->). done. }
  split; [by constructor|]. split.
  - intros lo Hlo1 [Hx Hxs]%Forall_cons. cbn in Hx. apply Hlo; [lia|done].
  - split; [lia|]. split; [lia|]. constructor; [cbn; lia|done].
Qed.

Lemma config_vindices drc w ms m1 m2 f c n o o' :
  get_short_filter_methods drc w = Some ms -> fm_config ms m1 m2 f c n o = Some (0, o') ->
  obj_vindices o' = Some (copy_channels f).
Proof.
  intros Hw E. destruct w; cbn in Hw; [| | |done]; injection Hw as <-; cbn in E; destruct o as [p|p|p]; try done.
  - unfold pickoff_config in E. repeat (case_match; try done). cbn in E. by injection E as <-.
  - unfold boxcar_config in E. repeat (case_match; try done); cbn in E; try (by injection E); by injection E as <-.
  - unfold timeavg_config in E. repeat (case_match; try done); cbn in E; try (by injection E); by injection E as <-.
Qed.

(** A sample that was added: its filter reads the channels asked for,
    counted from the lowest channel of this moment. *)
Lemma add_config_ok drc brd mem cfg a a' : request_ok cfg -> mode a = A2D_NORMAL ->
  addA2DSampleConfig drc brd mem cfg a = Some (0, a') ->
  exists fi o, filters a' = filters a ++ [fi] /\ fi_obj fi = Some o /\ mode a' = A2D_NORMAL /\
    obj_vindices o = Some (map (fun c => c - lowChan a') (requested cfg)) /\
    nchanScanned a' = highChan a' - lowChan a' + 1 /\
    (forall lo, lo <= lowChan a -> Forall (fun x => lo <= x) (requested cfg) -> lo <= lowChan a') /\
    lowChan a' <= lowChan a /\ highChan a <= highChan a' /\
    Forall (fun x => lowChan a' <= x <= highChan a') (requested cfg) /\
    Forall (fun x => 0 <= x < MAX_DMMAT_A2D_CHANNELS) (requested cfg).
Proof.
  intros Hok Hm E. unfold addA2DSampleConfig in E. destruct (running a); [done|]. rewrite Hm in E.
  destruct (new_filter drc mem cfg a) as [[e|fi]|] eqn:Hnew; [|..|done].
  { exfalso. injection E as ->. unfold new_filter in Hnew. repeat (case_match; try done). }
  assert (Hfi : exists w ms o, fi_methods fi = Some ms /\ get_short_filter_methods drc w = Some ms /\ fi_obj fi = Some o /\
    nchans (fi_data fi) = nvars cfg /\ channels (fi_data fi) = requested cfg).
  { unfold new_filter in Hnew. repeat (case_match; try done). injection Hnew as <-. cbn. by eexists _, _, _. }
  destruct Hfi as (w & ms & o & F1 & F2 & F3 & F4 & F5). unfold add_sample in E.
  destruct (add_channels _ _ _) as [[r a1]|] eqn:Hadd; [|done]. destruct (Z.eqb_spec r 0) as [->|]; cbn [negb] in E; [|by injection E].
  destruct (add_channels_ok _ _ _ _ Hadd) as ((S1 & S2 & S3 & S4) & Hin & Hlo & Hle & Hge & Hb).
  destruct fi as [fdata meths obj]. cbn in F1, F3, F4, F5. subst meths obj.
  destruct (fm_config _ _ _ _ _ _ _) as [[r o']|] eqn:Hcfg; [|done]. injection E as -> <-.
  apply (config_vindices _ _ _ _ _ _ _ _ _ _ F2) in Hcfg.
  assert (Hch : copy_channels (mkFilterData (nchans fdata) (map (fun c => c - lowChan a1) (channels fdata)) (inputRate fdata)
    (outputRate fdata) (fd_sampleIndex fdata)) = map (fun c => c - lowChan a1) (requested cfg)).
  { unfold copy_channels. cbn. rewrite F4, F5. apply take_ge. rewrite length_map. unfold requested. rewrite length_take. lia. }
  pose proof (triples_channels cfg Hok) as Htr.
  eexists _, o'. cbn -[copy_channels]. split; [done|]. split; [done|]. split; [by rewrite S2|].
  split; [rewrite Hcfg; f_equal; exact Hch|]. split; [done|]. cbn in Hle, Hge, Hlo. split_and!; try done.
  - intros lo H1 H2. apply Hlo; [done|]. rewrite <- Htr in H2. exact (proj1 (Forall_map _ _ _) H2).
  - rewrite <- Htr. exact (proj2 (Forall_map _ _ _) Hb).
  - rewrite <- Htr. exact (proj2 (Forall_map _ _ _) Hin).
Qed.

(** All samples of a configuration. *)
Fixpoint add_configs (drc : option (Z -> Z -> Z)) (brd : board_type) (cfgs : list (config_memory * nidas_a2d_sample_config))
    (a : DMMAT_A2D) : option DMMAT_A2D :=
  match cfgs with
  | [] => Some a
  | (mem, cfg) :: more =>
      match addA2DSampleConfig drc brd mem cfg a with
      | Some (0, a') => add_configs drc brd more a'
      | _ => None
      end
  end.

(** The filter of a request reads the values of the channels asked for, in a
    scan of the channels from [low] on. *)
Definition reads_channels (low n : Z) (cfg : nidas_a2d_sample_config) (fi : filter_info) : Prop :=
  exists o vs, fi_obj fi = Some o /\ obj_vindices o = Some vs /\ Forall (fun v => 0 <= v < n) vs /\
    map (fun v => low + v) vs = requested cfg.

Lemma reads_more low n n' cfg fi : n <= n' -> reads_channels low n cfg fi -> reads_channels low n' cfg fi.
Proof.
  intros Hn (o & vs & H1 & H2 & H3 & H4). exists o, vs. split_and!; try done.
  eapply Forall_impl; [exact H3|]. cbn. intros v ?. lia.
Qed.

(** A request that was added, with the channels counted from [lo]. *)
Lemma added_reads lo a a1 cfg fi o old : filters a1 = filters a ++ [fi] -> fi_obj fi = Some o -> lowChan a1 = lo ->
  obj_vindices o = Some (map (fun c => c - lowChan a1) (requested cfg)) ->
  nchanScanned a1 = highChan a1 - lowChan a1 + 1 ->
  Forall (fun x => lowChan a1 <= x <= highChan a1) (requested cfg) ->
  Forall2 (reads_channels lo (nchanScanned a1)) old (filters a) ->
  Forall2 (reads_channels lo (nchanScanned a1)) (old ++ [cfg]) (filters a1).
Proof.
  intros F1 F2 Hl F4 F5 F9 Hold. rewrite F1. apply Forall2_app; [done|]. constructor; [|done].
  exists o, (map (fun c => c - lowChan a1) (requested cfg)). split_and!; try done.
  - apply Forall_map. eapply Forall_impl; [exact F9|]. cbn. intros x ?. lia.
  - rewrite map_map. rewrite Hl. clear. induction (requested cfg) as [|x l IHl]; [done|]. cbn. rewrite IHl. f_equal. lia.
Qed.

Lemma add_configs_reads drc brd lo cfgs : forall a a' old, Forall request_ok cfgs.*2 -> mode a = A2D_NORMAL ->
  add_configs drc brd cfgs a = Some a' -> Forall (fun cfg => Forall (fun c => lo <= c) (requested cfg)) cfgs.*2 ->
  lowChan a = lo -> nchanScanned a = highChan a - lowChan a + 1 ->
  Forall2 (reads_channels lo (nchanScanned a)) old (filters a) ->
  lowChan a' = lo /\ nchanScanned a' = highChan a' - lowChan a' + 1 /\
  Forall2 (reads_channels lo (nchanScanned a')) (old ++ cfgs.*2) (filters a').
Proof.
  induction cfgs as [|[mem cfg] cfgs IH]; intros a a' old Hok Hm E Hlo Hl Hn Hold.
  { injection E as <-. by rewrite app_nil_r. }
  cbn [fmap list_fmap snd] in Hok, Hlo. apply Forall_cons in Hok as [Hc Hok]. apply Forall_cons in Hlo as [Hlc Hlo].
  cbn [add_configs] in E. destruct (addA2DSampleConfig drc brd mem cfg a) as [[r a1]|] eqn:E1; [|done].
  destruct r; [|done..].
  destruct (add_config_ok _ _ _ _ _ _ Hc Hm E1) as (fi & o & F1 & F2 & F3 & F4 & F5 & F6 & F7 & F8 & F9 & _).
  assert (Hl1 : lowChan a1 = lo) by (specialize (F6 lo ltac:(lia) Hlc); lia).
  destruct (IH a1 a' (old ++ [cfg]) Hok F3 E Hlo Hl1 F5) as (G1 & G2 & G3).
  { eapply added_reads; try done. eapply Forall2_impl; [exact Hold|]. intros c f. apply reads_more. lia. }
  split; [done|]. split; [done|]. by rewrite <- app_assoc in G3.
Qed.

(** C37: each filter reads the channels that its sample asked for.  After
    [configA2D], when all requests are accepted and the first one has the
    lowest channel of all, the board scans the channels from that one to the
    highest one asked for, and the indices with which each filter reads a
    scan, counted from the lowest channel, are in the scan and are the
    channels of its request, in order. *)
Theorem channels_mapped drc brd a rate lat a0 mem cfg cfgs a' lo :
  mode a = A2D_NORMAL -> configA2D a rate lat = Some (0, a0) -> Forall request_ok (cfg :: cfgs.*2) ->
  Forall (fun c => Forall (fun x => lo <= x) (requested c)) (cfg :: cfgs.*2) -> lo ∈ requested cfg ->
  add_configs drc brd ((mem, cfg) :: cfgs) a0 = Some a' ->
  lowChan a' = lo /\ nchanScanned a' = highChan a' - lo + 1 /\
  Forall2 (reads_channels lo (nchanScanned a')) (cfg :: cfgs.*2) (filters a').
Proof.
  intros Hm E0 [Hc Hok]%Forall_cons [Hlc Hlo]%Forall_cons Hin E. unfold configA2D in E0.
  destruct (running a); [done|]. destruct (rate =? 0); [done|]. injection E0 as <-. cbn [add_configs] in E.
  destruct (addA2DSampleConfig drc brd mem cfg _) as [[r a1]|] eqn:E1; [|done]. destruct r; [|done..].
  apply add_config_ok in E1 as (fi & o & F1 & F2 & F3 & F4 & F5 & F6 & F7 & F8 & F9 & F10); [|done..]. cbn in F6, F7.
  assert (Hl1 : lowChan a1 = lo).
  { pose proof (proj1 (Forall_forall _ _) F9 lo Hin) as G1. pose proof (proj1 (Forall_forall _ _) F10 lo Hin) as G2.
    cbn in G1, G2. specialize (F6 lo ltac:(lia) Hlc). lia. }
  destruct (add_configs_reads drc brd lo cfgs a1 a' [cfg] Hok F3 E Hlo Hl1 F5) as (G1 & G2 & G3).
  { eapply (added_reads lo _ a1 cfg fi o []); done. }
  split; [done|]. split; [lia|done].
Qed.

(** A pickoff of two channels from [c], and a board in the normal mode. *)
Definition two_channels (i c : Z) : nidas_a2d_sample_config :=
  mkSampleConfig i 2 10 NIDAS_FILTER_PICKOFF (c :: (c + 1) :: replicate 30 0) (replicate 32 1) (replicate 32 1) 0 0.

Definition idle_a2d : DMMAT_A2D := mkA2D false A2D_NORMAL 0 0 0 0 0 0 0 0 0 0 [] [].

Definition vindices_of (a : DMMAT_A2D) : list (option (list Z)) :=
  map (fun fi => match fi_obj fi with Some o => obj_vindices o | None => None end) (filters a).

(** A later request with a lower channel moves the start of the scan but not
    the indices of the filters that are configured: the sample of the
    channels 4 and 5 gets the values of the channels 0 and 1. *)
Lemma lower_channel_moves_scan :
  match configA2D idle_a2d 100 0 with
  | Some (0, a0) =>
      (fun a' => (lowChan a', vindices_of a')) <$>
        add_configs None DMM32XAT_BOARD [(all_memory, two_channels 0 4); (all_memory, two_channels 1 0)] a0
  | _ => None
  end = Some (0, [Some [0; 1]; Some [0; 1]]).
Proof. vm_compute. reflexivity. Qed.

(** Requests of the waveform mode are not counted: the 33rd channel is stored
    after the end of [waveformChannels]. *)
Lemma waveform_channels_overrun :
  let request := mkSampleConfig 0 17 10 NIDAS_FILTER_PICKOFF (replicate 32 0) (replicate 32 1) (replicate 32 1) 0 0 in
  let idle := mkA2D false A2D_WAVEFORM 0 0 0 0 0 0 0 0 0 0 [] [] in
  match configA2D idle 100 0 with
  | Some (0, a0) =>
      match addA2DSampleConfig None DMM32XAT_BOARD all_memory request a0 with
      | Some (0, a1) => Some (zlen (waveformChannels a1), addA2DSampleConfig None DMM32XAT_BOARD all_memory request a1)
      | _ => None
      end
  | _ => None
  end = Some (17, None).
Proof. vm_compute. reflexivity. Qed.

(** The times and the values of the calls. *)
Definition record_call (s : list (Z * list Z)) (t : Z) (v : list Z) : option (list (Z * list Z)) := Some (s ++ [(t, v)]).

(** Where the fifo samples are not whole scans, the time computed is that of
    the scan whose end the fifo sample starts with, but it is given to the
    scan after it.  Here there are scans of 3 channels at the times 0, 3, 6
    and 9 msec in fifo samples of 4 values: the scans of 6 and 9 msec get
    the times 4 and 8 msec. *)
Lemma split_scan_is_early :
  match screen_timetag_init (mkScreen 0 0 0 0 0 0 0 0 0) (30 * USECS_PER_TMSEC * 4 / 3) (10 * USECS_PER_SEC) with
  | Some td =>
      bh_s <$> dmmat_a2d_bottom_half record_call 3 30 (mkBH [] td 0 [])
        [(30, [0; 1; 2; 10]); (60, [11; 12; 20; 21]); (90, [22; 30; 31; 32])]
  | None => None
  end = Some [(0, [0; 1; 2]); (30, [10; 11; 12]); (40, [20; 21; 22]); (80, [30; 31; 32])].
Proof. vm_compute. reflexivity. Qed.

(** ** Examples *)

Lemma bottom_half_cuts_witness :
  exists st' cs,
    dmmat_a2d_bottom_half record_call 3 30 (mkBH [] (mkScreen 40 0 250 0 NDT_START 21600000 0 0 0) 0 [])
      [(30, [0; 1; 2; 10]); (60, [11; 12; 20; 21])] = Some st' /\
    calls record_call [] cs = Some (bh_s st') /\ cut 3 [0; 1; 2; 10; 11; 12; 20; 21] cs (bh_save st').
Proof.
  destruct (bottom_half_cuts record_call 3 30) with (st := mkBH (@nil (Z * list Z)) (mkScreen 40 0 250 0 NDT_START 21600000 0 0 0) 0 [])
    (fifo := [(30, [0; 1; 2; 10]); (60, [11; 12; 20; 21])]) as (st' & cs & E & Hc & Hcut).
  - lia.
  - intros s t v _. by eexists.
  - reflexivity.
  - exists st', cs. split; [exact E|]. split; [exact Hc|exact Hcut].
Defined.

Lemma fast_scan_times_witness :
  exists td0, screen_timetag_init (mkScreen 0 0 0 0 0 0 0 0 0) (1000 * USECS_PER_TMSEC * (2 * 2) / 2) 10000000 = Some td0 /\
    fst <$> dmmat_a2d_bottom_half_fast record_call 2 1000 [] td0 [(863990007, [1; 2; 3; 4]); (863992003, [5; 6; 7; 8])]
    = Some [(863989007, [1; 2]); (863990007, [3; 4]); (863991007, [5; 6]); (863992007, [7; 8])].
Proof.
  destruct (fast_scan_times record_call 2 1000 2 (mkScreen 0 0 0 0 0 0 0 0 0) 863989000 10
    (fun k => match k with O => 7 | _ => 3 end) 50 10000000 [[[1; 2]; [3; 4]]; [[5; 6]; [7; 8]]]) as (td0 & H0 & H).
  - lia.
  - lia.
  - lia.
  - exists 432000. reflexivity.
  - lia.
  - vm_compute. reflexivity.
  - lia.
  - unfold TMSECS_PER_SEC. lia.
  - intros [|k]; lia.
  - lia.
  - unfold TMSECS_PER_DAY, TMSECS_PER_SEC. lia.
  - repeat apply Forall_cons_2; try apply Forall_nil_2; (split; [reflexivity|]);
      repeat apply Forall_cons_2; try apply Forall_nil_2; reflexivity.
  - exists td0. split; [exact H0|]. specialize (H []).
    etransitivity; [|etransitivity; [exact H|vm_compute; reflexivity]]. f_equal.
Defined.

(** A pickoff of one channel. *)
Definition one_channel : filter_info :=
  mkInfo (mkFilterData 1 [0] 1 1 7) (get_short_filter_methods None NIDAS_FILTER_PICKOFF) (Some (PickoffObj (mkPickoff 1 1 (Some [0]) 0 7))).

(** Two filters and room for one sample. *)
Lemma do_filters_delivers_witness :
  let c := mkCirc [replicate 74 0; replicate 74 0] 0 0 2 in
  let fs := [one_channel; one_channel] in
  exists c' roomy refused, fs = roomy ++ refused /\ roomy = [one_channel] /\
    do_filters fs 5 (fun _ => 3) c 0 = Some (map (fun fi => (filter_step fi 5 (fun _ => 3)).1) fs, c', 0 + zlen refused) /\
    GET_HEAD c' = None.
Proof.
  intros c fs.
  destruct (do_filters_delivers None 74 ltac:(lia) fs 5 (fun _ => 3) c 0 (mkReadState None 0) None [] [])
    as (c' & roomy & refused & H1 & H2 & _ & _ & H3).
  - apply ring_new; [exists 1; split; [lia|reflexivity]|reflexivity].
  - repeat apply Forall_cons_2; try apply Forall_nil_2; reflexivity.
  - repeat apply Forall_cons_2; try apply Forall_nil_2; (exists NIDAS_FILTER_PICKOFF; eexists _, _; split; [reflexivity|]; split; [reflexivity|];
    split; [reflexivity|]; vm_compute; discriminate).
  - lia.
  - reflexivity.
  - assert (E : snd <$> do_filters fs 5 (fun _ => 3) c 0 = Some (0 + zlen refused)) by (by rewrite H2).
    assert (L : snd <$> do_filters fs 5 (fun _ => 3) c 0 = Some 1) by (vm_compute; reflexivity).
    rewrite L in E. injection E as E. exists c', roomy, refused. split; [exact H1|].
    destruct refused as [|f [|g refused]]; [discriminate| |rewrite !zlen_cons in E; pose proof (zlen_nonneg refused); lia].
    split; [|split; [exact H2|by apply H3]].
    destruct roomy as [|r1 [|r2 [|]]]; try discriminate. by injection H1 as <-.
Defined.

Lemma channels_mapped_witness :
  exists a0 a', configA2D idle_a2d 100 0 = Some (0, a0) /\
    add_configs None DMM32XAT_BOARD [(all_memory, two_channels 0 2); (all_memory, two_channels 1 4)] a0 = Some a' /\
    lowChan a' = 2 /\ nchanScanned a' = highChan a' - 2 + 1 /\
    Forall2 (reads_channels 2 (nchanScanned a')) [two_channels 0 2; two_channels 1 4] (filters a').
Proof.
  assert (Hex : exists a0 a', configA2D idle_a2d 100 0 = Some (0, a0) /\
    add_configs None DMM32XAT_BOARD [(all_memory, two_channels 0 2); (all_memory, two_channels 1 4)] a0 = Some a').
  { assert (Hb : match configA2D idle_a2d 100 0 with
                 | Some (0, a0) => match add_configs None DMM32XAT_BOARD [(all_memory, two_channels 0 2); (all_memory, two_channels 1 4)] a0 with
                                   | Some _ => true | None => false end
                 | _ => false
                 end = true) by (vm_compute; reflexivity).
    destruct (configA2D idle_a2d 100 0) as [[[| |] a0]|]; try discriminate. exists a0.
    destruct (add_configs _ _ _ a0) as [a'|]; [|discriminate]. exists a'. split; reflexivity. }
  destruct Hex as (a0 & a' & E0 & E). exists a0, a'. split; [exact E0|]. split; [exact E|].
  apply (channels_mapped None DMM32XAT_BOARD idle_a2d 100 0 a0 all_memory (two_channels 0 2) [(all_memory, two_channels 1 4)] a' 2).
  - reflexivity.
  - exact E0.
  - repeat apply Forall_cons_2; try apply Forall_nil_2; (split; [cbn; lia|]); split_and!; reflexivity.
  - repeat apply Forall_cons_2; try apply Forall_nil_2; repeat apply Forall_cons_2; try apply Forall_nil_2; cbn; lia.
  - left.
  - exact E.
Defined.
