(* ===== verification/DmdClock.v ===== *)
(** * The clock of the Diamond DMM boards.

    [src/src/nidas/linux/diamond/dmd_mmat.c]: the pair of 16 bit dividers,
    clock 1/2, that times the scans of the A2D and the waveforms of the D2A,
    and the count of its users.  A write to a port is the offset from the
    address of the board and the byte. *)

From S2P Require Import Prelude CircAlloc DmdA2D.

Definition u16 (z : Z) : Z := z mod 2 ^ 16.

(** ** Registers *)

Definition port_write : Type := Z * Z.

(** [setTimerClock]: a control word and the value, low byte first. *)
Definition setTimerClock (clock mode val : Z) : list port_write :=
  [(15, (Z.shiftl clock 6 + 48 + Z.shiftl mode 1) mod 256);
   (12 + clock, Z.land val 255);
   (12 + clock, Z.shiftr val 8)].

(** [regval] is what [inb(brd->addr + 10)] returned; the result and the byte
    that is written to it. *)
Definition setClock1InputRate_MM16AT (regval rate : Z) : Z * list port_write :=
  let regval := Z.lor (Z.land regval 120) 48 in
  if rate =? 10000000 then (0, [(10, Z.land regval 247)])
  else if rate =? 1000000 then (0, [(10, Z.lor regval 8)])
  else (- EINVAL, []).

Definition setClock1InputRate_MM32AT (regval rate : Z) : Z * list port_write :=
  if rate =? 10000000 then (0, [(10, Z.land regval 127)])
  else if rate =? 100000 then (0, [(10, Z.lor regval 128)])
  else (- EINVAL, []).

(** The method of the board. *)
Definition setClock1InputRate (brd : board_type) (regval rate : Z) : Z * list port_write :=
  match brd with
  | DMM16AT_BOARD => setClock1InputRate_MM16AT regval rate
  | _ => setClock1InputRate_MM32AT regval rate
  end.

(** ** Dividers *)

Definition primes : list Z :=
  [2; 3; 5; 7; 11; 13; 17; 19; 23; 29; 31; 37; 41; 43; 47; 53; 59; 61; 67; 71; 73; 79; 83; 89; 97].

(** The first of the primes that divides. *)
Fixpoint first_factor (ps : list Z) (c1 : Z) : option Z :=
  match ps with
  | [] => None
  | p :: more => if c1 mod p =? 0 then Some p else first_factor more c1
  end.

(** The loop that finds the two dividers: [c1] is an [unsigned int], [c2] an
    [unsigned short]. *)
Fixpoint find_dividers (fuel : nat) (inputRate c1 c2 : Z) : option (Z * Z) :=
  if (65535 <? c1) || (c2 =? 1) then
    match fuel with
    | O => None
    | S fuel =>
        match first_factor primes c1 with
        | Some p => find_dividers fuel inputRate (c1 / p) (u16 (c2 * p))
        | None =>
            if u32 (c1 * c2) <=? inputRate then find_dividers fuel inputRate (u32 (c1 + 1)) c2
            else find_dividers fuel inputRate (u32 (c1 - 1)) c2
        end
    end
  else Some (c1, c2).

Definition clock_fuel : nat := 64.

(** ** The users of the clock *)

(** [struct counter12]. *)
Record counter12 := mkC12 { c12_inputRate : Z; c12_outputRate : Z; userCount : Z }.

(** What a call returns, what it writes, and the counter. *)
Definition setupClock12 (brd : board_type) (regval inputRate outputRate : Z) (c : counter12) :
    option (Z * list port_write * counter12) :=
  if outputRate <=? 0 then Some (- EINVAL, [], c)
  else if inputRate <=? outputRate then Some (- EINVAL, [], c)
  else if negb (inputRate =? c12_inputRate c) && negb (c12_inputRate c =? 0) then Some (- EBUSY, [], c)
  else if negb (outputRate =? c12_outputRate c) && negb (c12_outputRate c =? 0) then Some (- EBUSY, [], c)
  else
    let used := mkC12 (c12_inputRate c) (c12_outputRate c) (userCount c + 1) in
    if (c12_inputRate c =? inputRate) && (c12_outputRate c =? outputRate) then Some (0, [], used)
    else
      let '(result, w0) := setClock1InputRate brd regval inputRate in
      if negb (result =? 0) then Some (result, w0, mkC12 (c12_inputRate c) (c12_outputRate c) (userCount used - 1))
      else
        let c1 := Z.quot (inputRate + Z.quot outputRate 2) outputRate in
        match find_dividers clock_fuel inputRate c1 1 with
        | None => None
        | Some (c1, c2) =>
            Some (0, w0 ++ setTimerClock 1 2 (u16 c1) ++ setTimerClock 2 2 c2,
              mkC12 inputRate outputRate (userCount used))
        end.

Definition releaseClock12 (c : counter12) : counter12 :=
  if 0 <? userCount c
  then if userCount c - 1 =? 0 then mkC12 0 0 0 else mkC12 (c12_inputRate c) (c12_outputRate c) (userCount c - 1)
  else c.

(** ** The search ends, and what it finds *)

(** [c1] is [ticks / c2], rounded up. *)
Definition divides_up (ticks c1 c2 : Z) : Prop := ticks <= c1 * c2 < ticks + c2.

Lemma first_factor_some ps c1 p : first_factor ps c1 = Some p -> p ∈ ps /\ c1 mod p = 0.
Proof.
  induction ps as [|q ps IH]; cbn; [done|]. destruct (Z.eqb_spec (c1 mod q) 0).
  - intros [= <-]. split; [left|done].
  - intros [H1 H2]%IH. split; [by right|done].
Qed.

Lemma primes_range p : p ∈ primes -> 2 <= p <= 97.
Proof.
  assert (H : Forall (fun p => 2 <= p <= 97) primes) by (unfold primes; repeat constructor; lia).
  intros Hp. by apply (proj1 (Forall_forall _ _) H).
Qed.

(** An odd number has no factor 2, the first of the primes, and the number
    after it has. *)
Lemma no_factor_odd c1 : first_factor primes c1 = None -> (c1 + 1) mod 2 = 0.
Proof. cbn. destruct (Z.eqb_spec (c1 mod 2) 0); [done|]. intros _. dlia. Qed.

Lemma even_factor c1 : c1 mod 2 = 0 -> first_factor primes c1 = Some 2.
Proof. intros H. cbn. by rewrite H. Qed.

Section Search.
Context (inputRate ticks : Z).
Hypothesis Hticks : 1 <= ticks <= 10000000.
Hypothesis Hinput : 2 * ticks <= inputRate + 1.

Lemma second_small c1 c2 : 1 <= c2 -> divides_up ticks c1 c2 -> 65535 < c1 \/ c2 = 1 -> c2 <= 152 /\ c1 * c2 <= inputRate.
Proof. unfold divides_up. intros H1 H2 [H3| ->]; nia. Qed.

Lemma find_dividers_up k : forall fuel c1 c2, 1 <= c1 <= 2 ^ Z.of_nat k -> 1 <= c2 <= 65535 -> divides_up ticks c1 c2 ->
  (2 * k + 2 <= fuel)%nat ->
  exists d1 d2, find_dividers fuel inputRate c1 c2 = Some (d1, d2) /\ 1 <= d1 <= 65535 /\ 2 <= d2 <= 65535 /\
    divides_up ticks d1 d2.
Proof.
  induction k as [|k IH]; intros fuel c1 c2 H1 H2 Hd Hf.
  - destruct fuel as [|[|fuel]]; [lia..|]. assert (c1 = 1) as -> by (cbn in H1; lia).
    destruct (Z.eq_dec c2 1) as [->|Hc2].
    + assert (Hi : (1 <=? inputRate) = true) by (apply Z.leb_le; lia).
      exists 1, 2. change (find_dividers (S (S fuel)) inputRate 1 1) with
        (if 1 <=? inputRate then find_dividers (S fuel) inputRate 2 1 else find_dividers (S fuel) inputRate 0 1).
      rewrite Hi. unfold divides_up in *. split; [by destruct fuel|lia].
    + exists 1, c2. assert (E : (c2 =? 1) = false) by (by apply Z.eqb_neq). cbn. rewrite E. by split_and!; try lia.
  - rewrite Nat2Z.inj_succ, Z.pow_succ_r in H1 by lia.
    destruct (decide (65535 < c1 \/ c2 = 1)) as [Hc|Hc].
    2:{ exists c1, c2. assert (E : (65535 <? c1) || (c2 =? 1) = false) by (bdestr; lia).
        destruct fuel; cbn [find_dividers]; rewrite E; split_and!; try done; lia. }
    destruct (second_small c1 c2 ltac:(lia) Hd Hc) as [Hs Hp].
    assert (E : forall x, c1 <= x -> (65535 <? x) || (c2 =? 1) = true) by (intros; bdestr; lia).
    destruct fuel as [|fuel]; [lia|]. cbn [find_dividers]. rewrite (E c1) by lia.
    destruct (first_factor primes c1) as [p|] eqn:Hff.
    + apply first_factor_some in Hff as [Hp1%primes_range Hp2].
      assert (Hc1 : c1 = p * (c1 / p)) by (by apply Z_div_exact_full_2; [lia|]).
      unfold u16. rewrite Z.mod_small by nia. apply IH; [nia|nia| |lia]. unfold divides_up in *. nia.
    + pose proof (no_factor_odd _ Hff) as Ho. assert (Hle : (u32 (c1 * c2) <=? inputRate) = true).
      { rewrite u32_small; [by apply Z.leb_le|]. unfold divides_up in *. nia. }
      assert (Hc1 : c1 < 2 ^ 31) by (unfold divides_up in *; nia). clear Hff.
      rewrite Hle, u32_small by lia. destruct fuel as [|fuel]; [lia|]. cbn [find_dividers].
      rewrite (E (c1 + 1)), (even_factor _ Ho) by lia.
      assert (Hc2 : c1 + 1 = 2 * ((c1 + 1) / 2)) by (by apply Z_div_exact_full_2; [lia|]).
      unfold u16. rewrite Z.mod_small by nia. apply IH; [lia|nia| |lia]. unfold divides_up in *. nia.
Qed.

End Search.

(** ** The dividers of a rate *)

(** The value that the writes load into a counter of the 82C54. *)
Definition loaded (clock : Z) (ws : list port_write) : option Z :=
  match map snd (List.filter (fun w => w.1 =? 12 + clock) ws) with
  | [lo; hi] => Some (lo + 256 * hi)
  | _ => None
  end.

Lemma two_bytes val : Z.land val 255 + 256 * Z.shiftr val 8 = val.
Proof. rewrite Z.shiftr_div_pow2 by lia. change 255 with (Z.ones 8). rewrite Z.land_ones by lia. dlia. Qed.

Lemma loaded_both w0 c1 c2 : Forall (fun w => w.1 = 10) w0 ->
  loaded 1 (w0 ++ setTimerClock 1 2 c1 ++ setTimerClock 2 2 c2) = Some c1 /\
  loaded 2 (w0 ++ setTimerClock 1 2 c1 ++ setTimerClock 2 2 c2) = Some c2.
Proof.
  intros Hw. induction Hw as [|[p v] w0 Hp _ IH].
  - change (Some (Z.land c1 255 + 256 * Z.shiftr c1 8) = Some c1 /\ Some (Z.land c2 255 + 256 * Z.shiftr c2 8) = Some c2).
    by rewrite !two_bytes.
  - cbn in Hp. subst p. exact IH.
Qed.

Lemma input_rates brd regval rate : (setClock1InputRate brd regval rate).1 = 0 ->
  (rate = 10000000 \/ rate = 1000000 \/ rate = 100000) /\
  Forall (fun w => w.1 = 10) (setClock1InputRate brd regval rate).2.
Proof.
  assert (H : forall a b c w1 w2 : Z, let r := if rate =? a then (0, [(10, w1)]) else if rate =? b then (0, [(10, w2)]) else (- EINVAL, []) in
    r.1 = 0 -> (rate = a \/ rate = b) /\ Forall (fun w : port_write => w.1 = 10) r.2).
  { intros a b _ w1 w2. cbn. destruct (Z.eqb_spec rate a); [|destruct (Z.eqb_spec rate b); [|done]];
      intros _; (split; [auto|repeat constructor]). }
  destruct brd; cbn [setClock1InputRate]; intros E.
  1: apply (H _ _ 0) in E as [[|] ?]; auto.
  all: apply (H _ _ 0) in E as [[|] ?]; auto.
Qed.

(** The search from the number of ticks of an output rate. *)
Lemma rate_dividers inputRate outputRate :
  inputRate = 10000000 \/ inputRate = 1000000 \/ inputRate = 100000 -> 0 < outputRate < inputRate ->
  let ticks := (inputRate + outputRate / 2) / outputRate in
  exists d1 d2, find_dividers clock_fuel inputRate ticks 1 = Some (d1, d2) /\ 1 <= d1 <= 65535 /\ 2 <= d2 <= 65535 /\
    divides_up ticks d1 d2.
Proof.
  intros Hin Hout ticks. destruct (Z.eq_dec outputRate 1) as [->|H1].
  - subst ticks. destruct Hin as [-> | [-> | ->]]; eexists _, _; (split; [vm_compute; reflexivity|]);
      unfold divides_up; repeat split; vm_compute; discriminate || reflexivity.
  - assert (Ht : 1 <= ticks /\ 2 * ticks <= inputRate + 1).
    { subst ticks. clear Hin. pose proof (Z.div_mod outputRate 2 ltac:(lia)). pose proof (Z.mod_pos_bound outputRate 2 ltac:(lia)).
      set (h := outputRate / 2) in *. pose proof (Z.mul_div_le (inputRate + h) outputRate ltac:(lia)).
      split; [apply Z.div_le_lower_bound; lia|]. set (q := (inputRate + h) / outputRate) in *. nia. }
    apply (find_dividers_up inputRate ticks ltac:(lia) ltac:(lia) 24); [change (2 ^ Z.of_nat 24) with 16777216; lia|lia| |].
    + unfold divides_up. lia.
    + unfold clock_fuel. lia.
Qed.

(** C38: the clock of a rate.  For every input rate that the board has and
    every lower output rate the search for the two dividers ends, in 64
    turns at most; the values loaded into the two counters fit in their 16
    bits, the second one is at least 2, and their product is the number of
    ticks of the output rate, rounded to the nearest, or the next number
    above it that the second one divides. *)
Theorem clock_dividers brd regval inputRate outputRate :
  (setClock1InputRate brd regval inputRate).1 = 0 -> 0 < outputRate < inputRate ->
  exists ws c1 c2, setupClock12 brd regval inputRate outputRate (mkC12 0 0 0) = Some (0, ws, mkC12 inputRate outputRate 1) /\
    loaded 1 ws = Some c1 /\ loaded 2 ws = Some c2 /\ 1 <= c1 < 2 ^ 16 /\ 2 <= c2 < 2 ^ 16 /\
    divides_up ((inputRate + outputRate / 2) / outputRate) c1 c2.
Proof.
  intros Hset Hout. destruct (input_rates _ _ _ Hset) as [Hin Hw].
  destruct (rate_dividers inputRate outputRate Hin Hout) as (d1 & d2 & Hd & H1 & H2 & Hup).
  destruct (loaded_both (setClock1InputRate brd regval inputRate).2 (u16 d1) d2 Hw) as [L1 L2].
  unfold setupClock12. cbn [c12_inputRate c12_outputRate userCount]. change (0 =? 0) with true. cbn [negb].
  destruct (Z.leb_spec outputRate 0); [lia|]. destruct (Z.leb_spec inputRate outputRate); [lia|]. rewrite !andb_false_r.
  assert ((0 =? inputRate) = false) as -> by (apply Z.eqb_neq; lia). cbn [andb].
  destruct (setClock1InputRate brd regval inputRate) as [r w0]. cbn [fst snd] in *. subst r. change (0 =? 0) with true. cbn [negb].
  rewrite !Z.quot_div_nonneg by dlia. rewrite Hd.
  eexists _, _, _. split; [done|]. split; [exact L1|]. split; [exact L2|].
  assert (u16 d1 = d1) as -> by (apply Z.mod_small; lia). change (2 ^ 16) with 65536. split_and!; try lia; apply Hup.
Qed.

Lemma clock_dividers_witness :
  exists ws c1 c2, setupClock12 DMM32XAT_BOARD 0 10000000 7 (mkC12 0 0 0) = Some (0, ws, mkC12 10000000 7 1) /\
    loaded 1 ws = Some c1 /\ loaded 2 ws = Some c2 /\ 1 <= c1 < 2 ^ 16 /\ 2 <= c2 < 2 ^ 16 /\
    divides_up ((10000000 + 7 / 2) / 7) c1 c2.
Proof. apply (clock_dividers DMM32XAT_BOARD 0 10000000 7); [vm_compute; reflexivity|lia]. Defined.

(** ** Users *)

(** The counter after calls of the A2D and the D2A, and the rates of the
    calls that succeeded and have not been released. *)
Inductive clock_run : counter12 -> list (Z * Z) -> Prop :=
| clock_free : clock_run (mkC12 0 0 0) []
| clock_setup c hs brd regval i o ws c' :
    clock_run c hs -> setupClock12 brd regval i o c = Some (0, ws, c') -> clock_run c' ((i, o) :: hs)
| clock_refused c hs brd regval i o r ws c' :
    clock_run c hs -> setupClock12 brd regval i o c = Some (r, ws, c') -> r <> 0 -> clock_run c' hs
| clock_release c hs1 h hs2 : clock_run c (hs1 ++ h :: hs2) -> clock_run (releaseClock12 c) (hs1 ++ hs2).

(** What is known of the counter with the users [hs]. *)
Definition clock_held (c : counter12) (hs : list (Z * Z)) : Prop :=
  userCount c = zlen hs /\ Forall (fun h => h = (c12_inputRate c, c12_outputRate c) /\ 0 < h.2 < h.1) hs /\
  (hs = [] -> c = mkC12 0 0 0).

#[local] Opaque find_dividers.

(** The ways in which a call ends. *)
Lemma setup_cases brd regval i o c r ws c' : setupClock12 brd regval i o c = Some (r, ws, c') ->
  (r <> 0 /\ c' = c) \/
  (r = 0 /\ 0 < o < i /\ (c12_inputRate c = 0 \/ c12_inputRate c = i) /\ (c12_outputRate c = 0 \/ c12_outputRate c = o) /\
   c' = mkC12 i o (userCount c + 1)).
Proof.
  unfold setupClock12. intros E. destruct (Z.leb_spec o 0); [left; by injection E as <- _ <-|].
  destruct (Z.leb_spec i o); [left; by injection E as <- _ <-|].
  destruct (negb (i =? c12_inputRate c) && negb (c12_inputRate c =? 0)) eqn:E1; [left; by injection E as <- _ <-|].
  destruct (negb (o =? c12_outputRate c) && negb (c12_outputRate c =? 0)) eqn:E2; [left; by injection E as <- _ <-|].
  assert (H1 : c12_inputRate c = 0 \/ c12_inputRate c = i) by (revert E1; bdestr; cbn; auto; done).
  assert (H2 : c12_outputRate c = 0 \/ c12_outputRate c = o) by (revert E2; bdestr; cbn; auto; done).
  destruct ((c12_inputRate c =? i) && (c12_outputRate c =? o)) eqn:E3.
  { apply andb_true_iff in E3 as [E3%Z.eqb_eq E4%Z.eqb_eq]. injection E as <- _ <-. right. rewrite <- E3, <- E4 in *. by split_and!; auto. }
  destruct (setClock1InputRate brd regval i) as [r0 w0]. destruct (Z.eqb_spec r0 0) as [->|Hr]; cbn [negb] in E.
  - destruct (find_dividers _ _ _ _) as [[d1 d2]|]; [|done]. injection E as <- _ <-. right. by split_and!; auto.
  - injection E as <- _ <-. left. split; [done|]. destruct c as [a b n]. cbn. f_equal. lia.
Qed.

(** The users of the clock agree.  After any calls of [setupClock12] and
    releases by those who hold the clock, [userCount] is the number of
    holders, all of them have the rates that the clock is set to, and when
    the last one has released it the clock is free for any rates. *)
Theorem clock_shared c hs : clock_run c hs -> clock_held c hs.
Proof.
  induction 1 as [|c hs brd regval i o ws c' _ IH E|c hs brd regval i o r ws c' _ IH E Hr|c hs1 h hs2 _ IH].
  - by split_and!.
  - apply setup_cases in E as [[? _]|(_ & Ho & H1 & H2 & ->)]; [done|]. destruct IH as (Hc & Hall & He).
    split_and!; [cbn; rewrite zlen_cons; lia| |done]. cbn. constructor; [split; [done|exact Ho]|].
    eapply Forall_impl; [exact Hall|]. intros [a b] [[= -> ->] ?]. cbn in *. split; [f_equal; lia|done].
  - apply setup_cases in E as [[_ ->]|[? _]]; done.
  - destruct IH as (Hc & Hall & _). rewrite zlen_app, zlen_cons in Hc. pose proof (zlen_nonneg hs1). pose proof (zlen_nonneg hs2).
    apply Forall_app in Hall as [Ha Hb]. apply Forall_cons in Hb as [_ Hb]. unfold releaseClock12.
    destruct (Z.ltb_spec 0 (userCount c)); [|lia]. destruct (Z.eqb_spec (userCount c - 1) 0).
    + assert (hs1 = []) as -> by (apply zlen_nil_inv; lia). assert (hs2 = []) as -> by (apply zlen_nil_inv; lia). by split_and!.
    + split_and!; [cbn; rewrite zlen_app; lia|by apply Forall_app|].
      intros [-> ->]%app_eq_nil. change (zlen []) with 0 in *. lia.
Qed.

Lemma clock_shared_witness :
  clock_held (mkC12 10000000 100 2) [(10000000, 100); (10000000, 100)].
Proof.
  apply clock_shared. eapply (clock_setup (mkC12 10000000 100 1) _ DMM32XAT_BOARD 0).
  - eapply (clock_setup (mkC12 0 0 0) _ DMM32XAT_BOARD 0); [apply clock_free|vm_compute; reflexivity].
  - vm_compute. reflexivity.
Defined.
