(* ===== verification/DmdIrq.v ===== *)
(** * Interrupts of the Diamond DMM boards.

    [src/src/nidas/linux/diamond/dmd_mmat.c]: the users of the interrupt, the
    level of the hardware fifo, the interrupt handler of the A2D that moves
    the values of the hardware to [fifo_samples], and the whole path from the
    hardware to the filters.  The hardware is the class [A2DHw], with what
    its manual and the comments of the driver say of it in [FifoLaws].
    [fifo_samples] is the list of the samples in it, of which there are at
    most [size - 1], as [CircBuf.v] shows. *)

From S2P Require Import Prelude SampleClock CircAlloc ScreenTimetag DmdA2D.

(** ** Users of the interrupt *)

(** [brd->irq] and [brd->irq_users]. *)
Record irq_state := mkIrq { irq : Z; a2d_users : Z; cntr_users : Z }.

Inductive irq_user := A2D_USER | CNTR_USER.

Definition users_of (u : irq_user) (s : irq_state) : Z :=
  match u with A2D_USER => a2d_users s | CNTR_USER => cntr_users s end.

Definition other_user (u : irq_user) : irq_user := match u with A2D_USER => CNTR_USER | CNTR_USER => A2D_USER end.

Definition add_users (u : irq_user) (n : Z) (s : irq_state) : irq_state :=
  match u with
  | A2D_USER => mkIrq (irq s) (a2d_users s + n) (cntr_users s)
  | CNTR_USER => mkIrq (irq s) (a2d_users s) (cntr_users s + n)
  end.

(** [lock] and [request] are what [mutex_lock_interruptible] and
    [request_irq] return, [num] is the interrupt of the board; [BUG_ON] is
    [None]. *)
Definition dmd_mmat_add_irq_user (brd : board_type) (lock request num : Z) (u : irq_user) (s : irq_state) :
    option (Z * irq_state) :=
  if negb (lock =? 0) then Some (lock, s)
  else if irq s =? 0 then
    if negb (a2d_users s + cntr_users s =? 0) then None
    else if negb (request =? 0) then Some (request, s)
    else Some (0, add_users u 1 (mkIrq num (a2d_users s) (cntr_users s)))
  else if a2d_users s + cntr_users s <=? 0 then None
  else
    let result := match brd with
                  | DMM16AT_BOARD => if 0 <? users_of (other_user u) s then - EINVAL else 0
                  | _ => 0
                  end in
    Some (result, add_users u 1 s).

Definition dmd_mmat_remove_irq_user (lock : Z) (u : irq_user) (s : irq_state) : Z * irq_state :=
  if negb (lock =? 0) then (lock, s)
  else
    let s := if 0 <? users_of u s then add_users u (-1) s else s in
    let s := if negb (irq s =? 0) && (a2d_users s + cntr_users s =? 0)
             then mkIrq 0 (a2d_users s) (cntr_users s) else s in
    (0, s).

(** ** The level of the hardware fifo *)

(** [status] is what [inb] returned. *)
Definition getFifoLevelMM16AT (status : Z) : Z :=
  let fifo := Z.land status 3 in
  if fifo =? 1 then 0
  else if fifo =? 0 then 1
  else if fifo =? 2 then 2
  else if fifo =? 6 then 3
  else 3.

Definition getFifoLevelMM32XAT (status : Z) : Z :=
  let fifo := Z.shiftr (Z.land status 240) 4 in
  if fifo =? 8 then 0
  else if fifo =? 0 then 1
  else if fifo =? 4 then 2
  else if (fifo =? 3) || (fifo =? 2) || (fifo =? 1) then 3
  else 3.

(** The method of the board. *)
Definition getFifoLevel (brd : board_type) (status : Z) : Z :=
  match brd with
  | DMM16AT_BOARD => getFifoLevelMM16AT status
  | _ => getFifoLevelMM32XAT status
  end.

(** ** The interrupt handler *)

(** The hardware: the status register of the fifo, a value of the fifo as a
    [short], the time, and what stopping and starting do to it. *)
Class A2DHw (H : Type) := {
  hw_status : H -> H * Z;
  hw_inw : H -> H * Z;
  hw_now : H -> Z;
  hw_restart : H -> H
}.

Inductive irqreturn := IRQ_NONE | IRQ_HANDLED.

(** [struct DMMAT_A2D_Status]. *)
Record a2d_status := mkStatus { missedSamples : Z; fifoOverflows : Z; fifoUnderflows : Z; fifoEmpty : Z }.

(** What the handler works on: [fifo_samples], [status], [overflow] and
    [ttdata]. *)
Record hd_state := mkHd {
  hd_fifo : list (Z * list Z);
  hd_status : a2d_status;
  hd_overflow : bool;
  hd_tt : screen_data
}.

(** The screening as [startA2D_MM16AT] and [startA2D_MM32XAT] set it up. *)
Definition start_screening (nchan sdt thr : Z) (td : screen_data) : option screen_data :=
  if nchan =? 0 then None
  else screen_timetag_init td (Z.quot (s32 (s32 (sdt * USECS_PER_TMSEC) * thr)) nchan) (10 * USECS_PER_SEC).

Section Handler.
Context `{HW : A2DHw H} (brd : board_type) (md : a2dmode) (nchan sdt thr size : Z).

(** [n] reads of the fifo. *)
Fixpoint read_values (n : nat) (h : H) : H * list Z :=
  match n with
  | O => (h, [])
  | S n => let '(h, v) := hw_inw h in let '(h, vs) := read_values n h in (h, v :: vs)
  end.

(** Level 3: the A2D is restarted; in the waveform mode the samples that wait
    are discarded. *)
Definition on_overflow (h : H) (st : hd_state) : option (H * hd_state) :=
  match start_screening nchan sdt thr (hd_tt st) with
  | None => None
  | Some td =>
      let s := hd_status st in
      let s := mkStatus (missedSamples s) (u32 (fifoOverflows s + 1)) (fifoUnderflows s) (fifoEmpty s) in
      Some (hw_restart h, match md with
                          | A2D_WAVEFORM => mkHd [] s true td
                          | A2D_NORMAL => mkHd (hd_fifo st) s (hd_overflow st) td
                          end)
  end.

(** Level 2: a fifo sample, when there is room for it. *)
Definition on_threshold (h : H) (st : hd_state) : H * hd_state :=
  let s := hd_status st in
  if size - 1 <=? zlen (hd_fifo st) then
    let '(h, _) := read_values (Z.to_nat thr) h in
    (h, mkHd (hd_fifo st)
          (mkStatus (u32 (missedSamples s + Z.quot thr nchan)) (fifoOverflows s) (fifoUnderflows s) (fifoEmpty s))
          (hd_overflow st) (hd_tt st))
  else
    let t := hw_now h in
    let '(h, values) := read_values (Z.to_nat thr) h in
    (h, mkHd (hd_fifo st ++ [(t, values)]) s (hd_overflow st) (hd_tt st)).

(** The loop of [dmmat_a2d_handler]; [None] is a division by zero or no
    fuel. *)
Fixpoint handler_loop (fuel : nat) (nread : Z) (h : H) (st : hd_state) : option (irqreturn * H * hd_state) :=
  match fuel with
  | O => None
  | S fuel =>
      let '(h, raw) := hw_status h in
      let level := getFifoLevel brd raw in
      let s := hd_status st in
      if level =? 2 then
        let '(h, st) := on_threshold h st in handler_loop fuel (nread + 1) h st
      else if level =? 1 then
        if 0 <? nread then Some (IRQ_HANDLED, h, st)
        else Some (IRQ_NONE, h,
          mkHd (hd_fifo st) (mkStatus (missedSamples s) (fifoOverflows s) (u32 (fifoUnderflows s + 1)) (fifoEmpty s))
            (hd_overflow st) (hd_tt st))
      else if level =? 0 then
        if 0 <? nread then Some (IRQ_HANDLED, h, st)
        else Some (IRQ_NONE, h,
          mkHd (hd_fifo st) (mkStatus (missedSamples s) (fifoOverflows s) (fifoUnderflows s) (u32 (fifoEmpty s + 1)))
            (hd_overflow st) (hd_tt st))
      else
        match on_overflow h st with
        | None => None
        | Some (h, st) => Some (IRQ_HANDLED, h, st)
        end
  end.

Definition dmmat_a2d_handler (fuel : nat) (h : H) (st : hd_state) : option (irqreturn * H * hd_state) :=
  handler_loop fuel 0 h st.

End Handler.

(** ** What the hardware promises

    [hw_values] are the values in the fifo and [hw_arrived] all values that
    came into it, which may be at any time.  The threshold is set in units of
    two values. *)
Class FifoLaws (H : Type) `{HW : A2DHw H} (brd : board_type) (thr : Z) := {
  hw_values : H -> list Z;
  hw_arrived : H -> list Z;
  hw_status_law h h' raw : hw_status h = (h', raw) ->
    (exists new, hw_values h' = hw_values h ++ new /\ hw_arrived h' = hw_arrived h ++ new) /\
    (getFifoLevel brd raw = 2 -> 2 * (thr / 2) <= zlen (hw_values h'));
  hw_inw_law h v rest : hw_values h = v :: rest ->
    (hw_inw h).2 = v /\
    (exists new, hw_values (hw_inw h).1 = rest ++ new /\ hw_arrived (hw_inw h).1 = hw_arrived h ++ new);
  hw_restart_law h : hw_values (hw_restart h) = [] /\ hw_arrived (hw_restart h) = hw_arrived h
}.

(** ** The threshold of the fifo *)

(** On the boards that can interrupt at any level, the threshold is positive,
    even, and whole scans. *)
Lemma threshold_whole_scans brd a : brd = DMM32XAT_BOARD \/ brd = DMM32DXAT_BOARD ->
  0 < nchanScanned a <= MAX_DMMAT_A2D_CHANNELS -> 0 < scanRate a -> 0 <= latencyMsecs a -> latencyMsecs a * scanRate a < 2 ^ 31 ->
  let thr := getA2DThreshold_MM32XAT brd 512 a in
  0 < thr <= 544 /\ thr mod 2 = 0 /\ exists k, 0 < k /\ thr = k * nchanScanned a.
Proof.
  intros Hb Hn Hr Hl Hp. unfold MAX_DMMAT_A2D_CHANNELS in Hn. unfold getA2DThreshold_MM32XAT.
  destruct (Z.eqb_spec (scanRate a) 0) as [|_]; [lia|]. destruct (Z.eqb_spec (nchanScanned a) 0) as [|_]; [lia|].
  set (n := nchanScanned a) in *. set (ns := Z.quot (s32 (latencyMsecs a * scanRate a)) 1000).
  set (m := if ns <? 1 then 1 else ns). assert (Hm : 1 <= m) by (subst m; bdestr; lia).
  set (w := if 512 <? m * n then Z.quot 512 n * n else m * n).
  assert (Hw : exists k, 0 < k /\ w = k * n /\ w <= 512).
  { subst w. destruct (Z.ltb_spec 512 (m * n)); [|exists m; lia].
    exists (Z.quot 512 n). rewrite Z.quot_div_nonneg by lia. pose proof (Z.div_le_lower_bound 512 n 1 ltac:(lia) ltac:(lia)).
    pose proof (Z.mul_div_le 512 n ltac:(lia)). lia. }
  clearbody w. destruct Hw as (k & Hk & Ew & Hw).
  set (w2 := if negb (Z.rem w 2 =? 0) then w + n else w).
  assert (H2 : w2 mod 2 = 0 /\ 0 < w2 <= 544 /\ exists k, 0 < k /\ w2 = k * n).
  { assert (Hw0 : 0 < w) by nia. subst w2. rewrite Z.rem_mod_nonneg by lia.
    destruct (Z.eqb_spec (w mod 2) 0) as [E|E]; cbn [negb]; [split; [done|]; split; [lia|]; by exists k|].
    split; [|split; [lia|exists (k + 1); lia]].
    assert (Hodd : n mod 2 = 1) by (clear - Ew E; clearbody n; assert (n mod 2 = 0 \/ n mod 2 = 1) as [Hz|Hz] by dlia; [|done];
      rewrite Ew, Z.mul_mod, Hz, Z.mul_0_r in E by lia; done).
    clear -E Hodd. dlia. }
  clearbody w2. destruct H2 as (Hev & Hw2 & k2 & Hk2 & E2).
  destruct Hb as [-> | ->]; (destruct (Z.eqb_spec w2 2) as [->|]; [|split_and!; try lia; by exists k2]).
  all: split; [lia|]; split; [done|]; exists (2 * k2); lia.
Qed.

(** ** The handler moves blocks of values *)

(** A block of values that left the hardware fifo: as a fifo sample, read and
    thrown away as there was no room, or dropped by a restart. *)
Inductive block := Kept (vs : list Z) | Missed (vs : list Z) | Dropped (vs : list Z).

Definition block_values (b : block) : list Z := match b with Kept vs | Missed vs | Dropped vs => vs end.
Definition kept_values (b : block) : list Z := match b with Kept vs => vs | _ => [] end.
Definition count_missed (b : block) : Z := match b with Missed _ => 1 | _ => 0 end.

Fixpoint sum_missed (bs : list block) : Z := match bs with [] => 0 | b :: bs => count_missed b + sum_missed bs end.

Lemma sum_missed_app a b : sum_missed (a ++ b) = sum_missed a + sum_missed b.
Proof. induction a as [|x a IH]; cbn [sum_missed app]; lia. Qed.

Section Moves.
Context (H : Type) (brd : board_type) (thr : Z) `{FL : FifoLaws H brd thr} (nchan sdt size : Z).
Hypothesis Hthr : 0 < thr.
Hypothesis Heven : thr mod 2 = 0.

Definition block_sized (b : block) : Prop := match b with Kept vs | Missed vs => zlen vs = thr | Dropped _ => True end.

(** [out] are the values that went to the filters, and [lost] what the
    filters counted in [missedSamples]. *)
Record moved (h : H) (st : hd_state) (bs : list block) (out : list Z) (lost : Z) : Prop := {
  mv_arrived : concat (map block_values bs) ++ hw_values h = hw_arrived h;
  mv_sized : Forall block_sized bs;
  mv_kept : concat (map kept_values bs) = out ++ concat (map snd (hd_fifo st));
  mv_fifo : Forall (fun x => zlen x.2 = thr) (hd_fifo st);
  mv_missed : missedSamples (hd_status st) = u32 (Z.quot thr nchan * sum_missed bs + lost)
}.

Lemma read_values_spec n : forall h, (n <= length (hw_values h))%nat ->
  (read_values n h).2 = take n (hw_values h) /\
  (exists new, hw_values (read_values n h).1 = drop n (hw_values h) ++ new /\ hw_arrived (read_values n h).1 = hw_arrived h ++ new).
Proof.
  induction n as [|n IH]; intros h Hn; cbn [read_values].
  - split; [done|]. exists []. by rewrite drop_0, !app_nil_r.
  - destruct (hw_values h) as [|v rest] eqn:E; [cbn in Hn; lia|]. destruct (hw_inw_law h v rest E) as (E1 & new & E2 & E3).
    destruct (hw_inw h) as [h1 v1]. cbn [fst snd] in *. subst v1.
    assert (Hn1 : (n <= length rest)%nat) by (cbn in Hn; lia).
    destruct (IH h1) as (F1 & new2 & F2 & F3); [rewrite E2, length_app; lia|].
    destruct (read_values n h1) as [h2 vs]. cbn [fst snd] in *. rewrite E2 in F1, F2.
    rewrite take_app_le in F1 by done. rewrite drop_app_le in F2 by done.
    split; [cbn; by rewrite F1|]. exists (new ++ new2). cbn [drop]. rewrite F2, F3, E3. by rewrite !app_assoc.
Qed.

Lemma moved_arrivals h st bs out lost h' new : moved h st bs out lost ->
  hw_values h' = hw_values h ++ new -> hw_arrived h' = hw_arrived h ++ new -> moved h' st bs out lost.
Proof. intros [] E1 E2. split; try done. rewrite E1, E2, app_assoc. by f_equal. Qed.

(** Level 2. *)
Lemma threshold_moves h st bs out lost : moved h st bs out lost -> thr <= zlen (hw_values h) ->
  exists b, moved (on_threshold nchan thr size h st).1 (on_threshold nchan thr size h st).2 (bs ++ [b]) out lost.
Proof.
  intros Hm Hl. destruct (read_values_spec (Z.to_nat thr) h) as (R1 & new & R2 & R3); [unfold zlen in Hl; lia|].
  assert (Hlt : zlen (take (Z.to_nat thr) (hw_values h)) = thr) by (unfold zlen in *; rewrite length_take; lia).
  unfold on_threshold. destruct (read_values (Z.to_nat thr) h) as [h1 vs]. cbn [fst snd] in *. subst vs.
  assert (Ha : forall b, block_values b = take (Z.to_nat thr) (hw_values h) ->
    concat (map block_values (bs ++ [b])) ++ hw_values h1 = hw_arrived h1).
  { intros b E. rewrite map_app, concat_app. cbn [map concat]. rewrite E, app_nil_r, R2, R3, <- (mv_arrived _ _ _ _ _ Hm).
    rewrite <- !app_assoc. f_equal. by rewrite app_assoc, take_drop. }
  destruct Hm as [_ Hs Hk Hf Hc]. destruct (size - 1 <=? zlen (hd_fifo st)); cbn [fst snd].
  - exists (Missed (take (Z.to_nat thr) (hw_values h))). split; cbn [hd_fifo hd_status missedSamples].
    + by apply Ha.
    + apply Forall_app. split; [done|]. by repeat constructor.
    + rewrite map_app, concat_app. cbn. by rewrite !app_nil_r.
    + done.
    + rewrite Hc, sum_missed_app. cbn [sum_missed count_missed]. unfold u32.
      rewrite Zplus_mod_idemp_l. f_equal. lia.
  - exists (Kept (take (Z.to_nat thr) (hw_values h))). split; cbn [hd_fifo hd_status missedSamples].
    + by apply Ha.
    + apply Forall_app. split; [done|]. by repeat constructor.
    + rewrite !map_app, !concat_app. cbn. rewrite !app_nil_r, Hk. by rewrite app_assoc.
    + apply Forall_app. split; [done|]. by repeat constructor.
    + rewrite Hc, sum_missed_app. cbn [sum_missed count_missed]. f_equal. lia.
Qed.

(** Level 3. *)
Lemma overflow_moves h st bs out lost h' st' : moved h st bs out lost ->
  on_overflow A2D_NORMAL nchan sdt thr h st = Some (h', st') -> exists b, moved h' st' (bs ++ [b]) out lost.
Proof.
  intros Hm E. unfold on_overflow in E. destruct (start_screening _ _ _ _) as [td|]; [|done]. injection E as <- <-.
  destruct (hw_restart_law h) as [E1 E2]. exists (Dropped (hw_values h)). destruct Hm as [Ha Hs Hk Hf Hc].
  split; cbn [hd_fifo hd_status missedSamples].
  - rewrite map_app, concat_app. cbn [map concat block_values]. by rewrite E1, E2, !app_nil_r.
  - apply Forall_app. split; [done|]. by repeat constructor.
  - rewrite map_app, concat_app. cbn. by rewrite !app_nil_r.
  - done.
  - rewrite Hc, sum_missed_app. cbn [sum_missed count_missed]. f_equal. lia.
Qed.

Lemma handler_moves fuel : forall nread h st bs out lost r h' st', moved h st bs out lost ->
  handler_loop brd A2D_NORMAL nchan sdt thr size fuel nread h st = Some (r, h', st') -> exists bs', moved h' st' bs' out lost.
Proof.
  induction fuel as [|fuel IH]; intros nread h st bs out lost r h' st' Hm E; [done|]. cbn [handler_loop] in E.
  destruct (hw_status h) as [h1 raw] eqn:Hst. destruct (hw_status_law _ _ _ Hst) as ((new & E1 & E2) & E3).
  pose proof (moved_arrivals _ _ _ _ _ _ _ Hm E1 E2) as Hm1. clear Hm.
  destruct (Z.eqb_spec (getFifoLevel brd raw) 2) as [H2|].
  - destruct (threshold_moves h1 st bs out lost Hm1) as [b Hb]; [specialize (E3 H2); dlia|].
    destruct (on_threshold nchan thr size h1 st) as [h2 st2]. by eapply IH.
  - destruct (Z.eqb_spec (getFifoLevel brd raw) 1); [|destruct (Z.eqb_spec (getFifoLevel brd raw) 0)].
    + destruct (0 <? nread); injection E as <- <- <-; exists bs; by destruct Hm1.
    + destruct (0 <? nread); injection E as <- <- <-; exists bs; by destruct Hm1.
    + destruct (on_overflow _ _ _ _ h1 st) as [[h2 st2]|] eqn:Ho; [|done]. injection E as <- <- <-.
      destruct (overflow_moves _ _ _ _ _ _ _ Hm1 Ho) as [b Hb]. by eexists.
Qed.

(** The fifo fills more slowly than it is read: while a threshold of values is
    read, fewer come in. *)
Definition slower_than_reads : Prop := forall h, thr <= zlen (hw_values h) ->
  zlen (hw_arrived (hw_status (read_values (Z.to_nat thr) h).1).1) < zlen (hw_arrived h) + thr.

Lemma threshold_reads h st : (on_threshold nchan thr size h st).1 = (read_values (Z.to_nat thr) h).1.
Proof. unfold on_threshold. destruct (read_values _ h). by case_match. Qed.

(** Then each turn leaves less in the fifo. *)
Lemma reads_drain h : slower_than_reads -> thr <= zlen (hw_values h) ->
  (length (hw_values (hw_status (read_values (Z.to_nat thr) h).1).1) < length (hw_values h))%nat.
Proof.
  intros Hslow Hl. specialize (Hslow h Hl).
  destruct (read_values_spec (Z.to_nat thr) h) as (_ & new & R2 & R3); [unfold zlen in Hl; lia|].
  set (h2 := (read_values (Z.to_nat thr) h).1) in *. destruct (hw_status h2) as [h3 raw] eqn:Hst.
  destruct (hw_status_law _ _ _ Hst) as ((new2 & E1 & E2) & _). cbn [fst] in *.
  rewrite E2, R3, !zlen_app in Hslow. rewrite E1, R2, !length_app, length_drop. unfold zlen in *. lia.
Qed.

(** And the handler ends. *)
Lemma handler_ends : slower_than_reads -> (forall td, is_Some (start_screening nchan sdt thr td)) ->
  forall fuel nread h st, (length (hw_values (hw_status h).1) < fuel)%nat ->
  is_Some (handler_loop brd A2D_NORMAL nchan sdt thr size fuel nread h st).
Proof.
  intros Hslow Hstart. induction fuel as [|fuel IH]; intros nread h st Hf; [lia|]. cbn [handler_loop].
  destruct (hw_status h) as [h1 raw] eqn:Hst. destruct (hw_status_law _ _ _ Hst) as (_ & E3). cbn [fst] in Hf.
  destruct (Z.eqb_spec (getFifoLevel brd raw) 2) as [H2|].
  - pose proof (threshold_reads h1 st) as Hr. pose proof (reads_drain h1 Hslow ltac:(specialize (E3 H2); dlia)) as Hd.
    destruct (on_threshold nchan thr size h1 st) as [h2 st2]. cbn [fst] in Hr. apply IH. rewrite Hr. lia.
  - destruct (getFifoLevel brd raw =? 1); [by destruct (0 <? nread); eexists|].
    destruct (getFifoLevel brd raw =? 0); [by destruct (0 <? nread); eexists|].
    unfold on_overflow. destruct (Hstart (hd_tt st)) as [td ->]. by eexists.
Qed.

End Moves.

(** ** From the hardware to the filters *)

Section Path.
Context (H : Type) (brd : board_type) (thr : Z) `{FL : FifoLaws H brd thr} {S : Type} (call : S -> Z -> list Z -> option S).
Context (lost : S -> Z) (nchan sdt size : Z).

(** What a turn adds to [missedSamples]. *)
Definition count_lost (n : Z) (s : a2d_status) : a2d_status :=
  mkStatus (u32 (missedSamples s + n)) (fifoOverflows s) (fifoUnderflows s) (fifoEmpty s).

(** The driver in the normal mode: an interrupt, or a turn of
    [dmmat_a2d_bottom_half_fast] on the first fifo sample.  [lost] is how
    often the calls of the filters so far found no room for their output,
    each of which [do_filters] counts in the same [missedSamples] as the
    handler. *)
Inductive drv_step : H * hd_state * S -> H * hd_state * S -> Prop :=
| drv_irq fuel h st s r h' st' :
    dmmat_a2d_handler brd A2D_NORMAL nchan sdt thr size fuel h st = Some (r, h', st') -> drv_step (h, st, s) (h', st', s)
| drv_turn h st s insamp more s' td :
    hd_fifo st = insamp :: more -> fast_turn call nchan sdt s (hd_tt st) insamp = Some (s', td) ->
    drv_step (h, st, s) (h, mkHd more (count_lost (lost s' - lost s) (hd_status st)) (hd_overflow st) td, s').

Hypothesis Hnchan : 0 < nchan.
Hypothesis Hscans : exists k, 0 < k /\ thr = k * nchan.
Hypothesis Heven : thr mod 2 = 0.
Hypothesis Hcall : forall s t v, zlen v = nchan -> is_Some (call s t v).

(** Whole scans are calls. *)
Lemma fast_loop_cuts fuel k : forall s t dp, zlen dp = Z.of_nat k * nchan -> (length dp <= fuel)%nat ->
  exists s' cs, fast_loop call nchan sdt fuel s t dp = Some s' /\ calls call s cs = Some s' /\
    concat (map snd cs) = dp /\ Forall (fun c => zlen c.2 = nchan) cs.
Proof.
  revert fuel. induction k as [|k IH]; intros fuel s t dp Hl Hf.
  - assert (dp = []) as -> by (apply zlen_nil_inv; lia). exists s, []. by destruct fuel.
  - destruct dp as [|v dp]; [change (zlen []) with 0 in Hl; nia|]. destruct fuel as [|fuel]; [cbn in Hf; lia|].
    cbn [fast_loop]. set (l := v :: dp) in *. assert (Hn : (Z.to_nat nchan <= length l)%nat) by (unfold zlen in Hl; nia).
    assert (Ht : zlen (take (Z.to_nat nchan) l) = nchan) by (unfold zlen; rewrite length_take; lia).
    destruct (Hcall s t _ Ht) as [s1 E1]. rewrite E1.
    destruct (IH fuel s1 (t + sdt) (drop (Z.to_nat nchan) l)) as (s' & cs & F1 & F2 & F3 & F4).
    { unfold zlen in *. rewrite length_drop. lia. }
    { rewrite length_drop. subst l. cbn in *. lia. }
    exists s', ((t, take (Z.to_nat nchan) l) :: cs). split; [done|]. split; [cbn; by rewrite E1|]. split; [|by constructor].
    cbn. by rewrite F3, take_drop.
Qed.

Lemma turn_cuts s td insamp : zlen insamp.2 = thr ->
  exists s' td' cs, fast_turn call nchan sdt s td insamp = Some (s', td') /\ calls call s cs = Some s' /\
    concat (map snd cs) = insamp.2 /\ Forall (fun c => zlen c.2 = nchan) cs.
Proof.
  intros Hl. destruct Hscans as (k & Hk & Ek). unfold fast_turn. rewrite Hl, Ek, Z.rem_mul by lia. cbn [Z.eqb negb].
  destruct (screen_timetag _ _) as [td' tt0].
  destruct (fast_loop_cuts (length insamp.2) (Z.to_nat k) s tt0 insamp.2 ltac:(lia) ltac:(lia)) as (s' & cs & E1 & E2 & E3 & E4).
  rewrite E1. by exists s', td', cs.
Qed.

(** What holds of every state of the driver. *)
Definition drv_ok (s0 : S) (x : H * hd_state * S) : Prop :=
  exists bs cs, moved H brd thr nchan x.1.1 x.1.2 bs (concat (map snd cs)) (lost x.2 - lost s0) /\ calls call s0 cs = Some x.2 /\
    Forall (fun c => zlen c.2 = nchan) cs.

Lemma drv_step_ok s0 x y : drv_step x y -> drv_ok s0 x -> drv_ok s0 y.
Proof.
  assert (Hthr : 0 < thr) by (destruct Hscans as (k & ? & ?); nia).
  intros Hst (bs & cs & Hm & Hc & Hf). destruct Hst as [fuel h st s r h' st' E|h st s insamp more s' td E1 E2]; cbn in *.
  - destruct (handler_moves H brd thr nchan sdt size Hthr Heven _ _ _ _ _ _ _ _ _ _ Hm E) as [bs' Hm']. by exists bs', cs.
  - destruct Hm as [Ha Hs Hk Hfi Hmi]. rewrite E1 in Hk, Hfi. apply Forall_cons in Hfi as [Hl Hfi].
    destruct (turn_cuts s (hd_tt st) insamp Hl) as (s1 & td1 & cs1 & F1 & F2 & F3 & F4). rewrite E2 in F1. injection F1 as <- <-.
    exists bs, (cs ++ cs1). split.
    + split; try done; cbn; [rewrite Hk, map_app, concat_app, F3; cbn; by rewrite app_assoc|].
      rewrite Hmi. unfold u32. rewrite Zplus_mod_idemp_l. f_equal. lia.
    + split; [by rewrite calls_app, Hc|by apply Forall_app].
Qed.

Lemma drv_reach_ok s0 x y : rtc drv_step x y -> drv_ok s0 x -> drv_ok s0 y.
Proof. induction 1 as [|x y z Hxy _ IH]; [done|]. intros Hx. apply IH. by eapply drv_step_ok. Qed.

Lemma screening_starts : 0 < sdt -> sdt * USECS_PER_TMSEC * thr < 2 ^ 31 -> forall td, is_Some (start_screening nchan sdt thr td).
Proof.
  intros Hs Hb td. destruct Hscans as (k & Hk & Ek). unfold USECS_PER_TMSEC in *. unfold start_screening, screen_timetag_init, USECS_PER_TMSEC.
  destruct (Z.eqb_spec nchan 0); [lia|]. rewrite (s32_small (sdt * 100)) by nia. rewrite s32_small by nia.
  assert (Z.quot (sdt * 100 * thr) nchan = sdt * 100 * k) as ->.
  { rewrite Z.quot_div_nonneg by nia. symmetry. apply Z.div_unique_exact; nia. }
  destruct (Z.eqb_spec (sdt * 100 * k) 0); [nia|].
  assert (Z.quot (sdt * 100 * k) 100 = sdt * k) as ->.
  { rewrite Z.quot_div_nonneg by nia. symmetry. apply Z.div_unique_exact; nia. }
  rewrite u32_small by nia. destruct (Z.eqb_spec (sdt * k) 0); [nia|]. by eexists.
Qed.

End Path.


(** ** A fifo *)

(** A fifo into which, before each look at its status, fewer values come than
    its threshold. *)
Record sim_fifo := mkSim { sim_values : list Z; sim_coming : list Z; sim_arrived : list Z; sim_time : Z }.

Definition sim_arrive (thr : Z) (h : sim_fifo) : sim_fifo :=
  let n := Z.to_nat (thr - 1) in
  mkSim (sim_values h ++ take n (sim_coming h)) (drop n (sim_coming h)) (sim_arrived h ++ take n (sim_coming h)) (sim_time h).

Definition sim_raw (thr : Z) (h : sim_fifo) : Z :=
  if thr <=? zlen (sim_values h) then 64 else if zlen (sim_values h) =? 0 then 128 else 0.

Definition sim_hw (thr : Z) : A2DHw sim_fifo := {|
  hw_status h := let h := sim_arrive thr h in (h, sim_raw thr h);
  hw_inw h := match sim_values h with
              | [] => (h, 0)
              | v :: rest => (mkSim rest (sim_coming h) (sim_arrived h) (sim_time h), v)
              end;
  hw_now := sim_time;
  hw_restart h := mkSim [] (sim_coming h) (sim_arrived h) (sim_time h)
|}.

#[export] Instance sim_laws thr : FifoLaws sim_fifo (HW := sim_hw thr) DMM32XAT_BOARD thr.
Proof.
  refine {| hw_values := sim_values; hw_arrived := sim_arrived |}.
  - intros h h' raw [= <- <-]. split; [by eexists|].
    unfold sim_raw. destruct (Z.leb_spec thr (zlen (sim_values (sim_arrive thr h)))); [intros _; dlia|].
    destruct (zlen (sim_values (sim_arrive thr h)) =? 0); by vm_compute.
  - intros h v rest E. cbn. rewrite E. cbn. split; [done|]. exists []. by rewrite !app_nil_r.
  - by intros h.
Defined.

Lemma sim_reads_arrived thr n : forall h, sim_arrived (read_values (HW := sim_hw thr) n h).1 = sim_arrived h.
Proof.
  induction n as [|n IH]; intros h; [done|]. cbn. destruct (sim_values h) as [|v rest] eqn:E.
  - specialize (IH h). by destruct (read_values n h).
  - specialize (IH (mkSim rest (sim_coming h) (sim_arrived h) (sim_time h))). by destruct (read_values n _).
Qed.

Lemma sim_slower thr : 0 < thr -> slower_than_reads sim_fifo (HW := sim_hw thr) DMM32XAT_BOARD thr.
Proof.
  intros Ht h _. cbn. rewrite zlen_app, sim_reads_arrived. unfold zlen. rewrite length_take. lia.
Qed.

Definition small_a2d : DMMAT_A2D := mkA2D true A2D_NORMAL 100 100 10 0 0 1 1 1 0 2 [] [].

Definition sim_start : sim_fifo := mkSim [] [1; 2; 3; 4; 5; 6; 7; 8; 9; 10] [] 5.


(** ** Users of the interrupt *)

(** The interrupt is requested while there are users. *)
Definition irq_held (s : irq_state) : Prop :=
  0 <= a2d_users s /\ 0 <= cntr_users s /\ (irq s = 0 <-> a2d_users s + cntr_users s = 0).

(** The [BUG_ON] of [dmd_mmat_add_irq_user] are not reached. *)
Lemma irq_users_held brd lock request num u s : num <> 0 -> irq_held s ->
  (exists r s', dmd_mmat_add_irq_user brd lock request num u s = Some (r, s') /\ irq_held s') /\
  irq_held (dmd_mmat_remove_irq_user lock u s).2.
Proof.
  intros Hnum (H1 & H2 & H3). split.
  - unfold dmd_mmat_add_irq_user. destruct (negb (lock =? 0)); [by eexists _, _|].
    destruct (Z.eqb_spec (irq s) 0) as [E|E].
    + destruct (Z.eqb_spec (a2d_users s + cntr_users s) 0); cbn [negb]; [|lia].
      destruct (negb (request =? 0)); [by eexists _, _|]. eexists _, _. split; [done|].
      destruct u; unfold irq_held; cbn; lia.
    + destruct (Z.leb_spec (a2d_users s + cntr_users s) 0); [lia|]. eexists _, _. split; [done|].
      destruct u; unfold irq_held; cbn; lia.
  - unfold dmd_mmat_remove_irq_user. destruct (negb (lock =? 0)); [done|].
    destruct u; cbn [users_of add_users fst snd];
      match goal with |- context [if 0 <? ?n then _ else _] => destruct (Z.ltb_spec 0 n) end;
      unfold irq_held; cbn; bdestr; cbn in *; lia.
Qed.

(** On a DMM16AT the user that is refused is counted: after the A2D that was
    there before has stopped the interrupt is not freed, and the A2D is
    refused from then on. *)
Lemma refused_user_counted :
  let add u s := dmd_mmat_add_irq_user DMM16AT_BOARD 0 0 5 u s in
  exists s1 s2, add A2D_USER (mkIrq 0 0 0) = Some (0, s1) /\ add CNTR_USER s1 = Some (- EINVAL, s2) /\
    let s3 := (dmd_mmat_remove_irq_user 0 A2D_USER s2).2 in
    irq s3 = 5 /\ fst <$> add A2D_USER s3 = Some (- EINVAL).
Proof. eexists _, _. by split_and!. Qed.

(** The overflow bit of the DMM16AT is masked out: a fifo that overflowed
    looks like one at its threshold. *)
Lemma overflow_not_seen status : Z.land status 7 = 6 -> getFifoLevelMM16AT status = 2.
Proof.
  intros E. unfold getFifoLevelMM16AT. assert (Z.land status 3 = 2) as ->; [|done].
  change 3 with (Z.land 7 3). rewrite Z.land_assoc, E. done.
Qed.

(** The threshold of a DMM32AT may be odd, where the hardware is set to half
    of it: with 7 channels the interrupt comes at 258 values, of which 259
    are read. *)
Lemma odd_threshold :
  getA2DThreshold_MM32XAT DMM32AT_BOARD 256 (mkA2D false A2D_NORMAL 100 100 10 0 0 6 1 1 0 7 [] []) = 259.
Proof. vm_compute. reflexivity. Qed.
