(* ===== verification/DmdStart.v ===== *)
(** * Starting and stopping the A2D of the Diamond DMM boards.

    [startA2D] and [stopA2D] of [src/src/nidas/linux/diamond/dmd_mmat.c], on
    the allocator of [CircAlloc.v], the clock of [DmdClock.v] and the
    interrupt of [DmdIrq.v].  What the board-specific methods write to start
    the hardware is not modelled; their set-up of the time tags is. *)

From S2P Require Import Prelude CircAlloc ScreenTimetag ShortFilters DmdA2D DmdClock DmdIrq.

Definition DMMAT_CNTR1_INPUT_RATE : Z := 10000000.

(** ** Channels and conversion rate *)

(** [status] is what [inb(brd->addr + 8)] returned. *)
Definition getNumA2DChannelsMM16AT (status : Z) : Z := if Z.land status 32 =? 0 then 8 else 8 + 8.

Definition getNumA2DChannelsMM32XAT (status : Z) : Z :=
  let nchan := 16 in
  let nchan := if Z.land status 32 =? 0 then nchan else nchan + 8 in
  if Z.land status 64 =? 0 then nchan else nchan + 8.

Definition getNumA2DChannels (brd : board_type) (status : Z) : Z :=
  match brd with
  | DMM16AT_BOARD => getNumA2DChannelsMM16AT status
  | _ => getNumA2DChannelsMM32XAT status
  end.

Definition chans_refused (nchan low high : Z) : bool := (low <? 0) || ((nchan <=? high) || (high <? low)) || (high <? low).

Definition selectA2DChannelsMM16AT (status : Z) (a : DMMAT_A2D) : Z * list port_write :=
  if chans_refused (getNumA2DChannelsMM16AT status) (lowChan a) (highChan a) then (- EINVAL, [])
  else (0, [(2, (Z.shiftl (highChan a) 4 + lowChan a) mod 256)]).

Definition selectA2DChannelsMM32XAT (status : Z) (a : DMMAT_A2D) : Z * list port_write :=
  if chans_refused (getNumA2DChannelsMM32XAT status) (lowChan a) (highChan a) then (- EINVAL, [])
  else (0, [(2, lowChan a mod 256); (3, highChan a mod 256)]).

Definition selectA2DChannels (brd : board_type) (status : Z) (a : DMMAT_A2D) : Z * list port_write :=
  match brd with
  | DMM16AT_BOARD => selectA2DChannelsMM16AT status a
  | _ => selectA2DChannelsMM32XAT status a
  end.

Definition getConvRateMM16AT (a : DMMAT_A2D) (val : Z) : Z :=
  let totalRate := s32 (scanRate a * (highChan a - lowChan a + 1)) in
  if 80000 <? totalRate then Z.lor val 16 else Z.land val 239.

Definition getConvRateMM32XAT (a : DMMAT_A2D) (val : Z) : Z :=
  let totalRate := s32 (scanRate a * (highChan a - lowChan a + 1)) in
  let val := Z.land val 207 in
  if 50000 <? totalRate then Z.lor val 48
  else if 33000 <? totalRate then Z.lor val 32
  else if 25000 <? totalRate then Z.lor val 16
  else val.

Definition getConvRateSetting (brd : board_type) (a : DMMAT_A2D) (val : Z) : Z :=
  match brd with
  | DMM16AT_BOARD => getConvRateMM16AT a val
  | _ => getConvRateMM32XAT a val
  end.

Definition getA2DThreshold (brd : board_type) (a : DMMAT_A2D) : Z :=
  match brd with
  | DMM16AT_BOARD => getA2DThreshold_MM16AT
  | DMM32AT_BOARD => getA2DThreshold_MM32XAT brd 256 a
  | _ => getA2DThreshold_MM32XAT brd 512 a
  end.

(** ** The board *)

Record board := mkBoard {
  bd_a2d : DMMAT_A2D;
  bd_threshold : Z;                 (** [fifoThreshold] *)
  bd_fifo_samples : alloc_buf;
  bd_samples : alloc_buf;
  bd_save : list Z;                 (** [bh_data.saveSample] *)
  bd_overflow : bool;
  bd_tt : screen_data;              (** [ttdata] *)
  bd_status : a2d_status;
  bd_irq : irq_state;
  bd_clock : counter12
}.

(** What the hardware and the kernel return in a call. *)
Record start_env := mkEnv {
  e_status : Z;        (** [inb(brd->addr + 8)] *)
  e_regval : Z;        (** [inb(brd->addr + 10)] *)
  e_lock1 : Z;         (** [mutex_lock_interruptible] when a user is added *)
  e_lock2 : Z;         (** the same when it is removed *)
  e_request : Z;       (** [request_irq] *)
  e_irq : Z
}.

Definition with_running (a : DMMAT_A2D) (r : bool) (setting : Z) : DMMAT_A2D :=
  mkA2D r (mode a) (scanRate a) (scanDeltaT a) (latencyMsecs a) (totalOutputRate a) (lowChan a) (highChan a)
    (gain a) (bipolar a) setting (nchanScanned a) (filters a) (waveformChannels a).

(** ** Sizes of the buffers *)

(** The power of two above [n], at least 4. *)
Definition buffer_size (n : Z) : Z :=
  let nsamps := s32 (Z.shiftl 1 (fls n)) in if nsamps <? 4 then 4 else nsamps.

Definition MAX_BUFFER_MSECS : Z := 2 * 1000.

(** The fifo samples in that time. *)
Definition fifo_count (a : DMMAT_A2D) (thr : Z) : Z :=
  u32 (u32 (MAX_BUFFER_MSECS * scanRate a) * nchanScanned a) / 1000 / u32 thr.

Definition fifo_msecs (a : DMMAT_A2D) (thr : Z) : Z :=
  u32 (Z.quot (Z.quot thr (nchanScanned a) * 1000) (scanRate a) + 1).

(** The output samples in that time, or in the time of a fifo sample. *)
Definition output_count (a : DMMAT_A2D) (thr : Z) : Z :=
  u32 (Z.max (fifo_msecs a thr) MAX_BUFFER_MSECS * totalOutputRate a) / 1000.

Section Start.
Context `{KM : Kmalloc heap} (PAGE_SIZE : Z) (brd : board_type) (wavesize : Z).

(** The first part of [startA2D], up to the second buffer; [None] is a
    division by zero. *)
Definition start_buffers (b : board) (h : heap) : option (Z * board * heap) :=
  let a := bd_a2d b in
  let thr := getA2DThreshold brd a in
  if thr <? 0 then Some (thr, b, h)
  else if (u32 thr =? 0) || (nchanScanned a =? 0) || (scanRate a =? 0) then None
  else
    let '(c1, h) := free_dsm_circ_buf (bd_fifo_samples b) h in
    let '(r, c1, h) := alloc_dsm_circ_buf PAGE_SIZE c1 (thr * SIZEOF_SHORT) (buffer_size (fifo_count a thr)) h in
    if negb (r =? 0)
    then Some (r, mkBoard a thr c1 (bd_samples b) (bd_save b) (bd_overflow b) (bd_tt b) (bd_status b) (bd_irq b) (bd_clock b), h)
    else
      let '(c2, h) := free_dsm_circ_buf (bd_samples b) h in
      let dlen := match mode a with
                  | A2D_NORMAL => (MAX_DMMAT_A2D_CHANNELS + 1) * SIZEOF_SHORT
                  | A2D_WAVEFORM => (wavesize + 1) * SIZEOF_SHORT
                  end in
      let '(r, c2, h) := alloc_dsm_circ_buf PAGE_SIZE c2 dlen (buffer_size (output_count a thr)) h in
      Some (r, mkBoard a thr c1 c2 [] false (bd_tt b) (bd_status b) (bd_irq b) (bd_clock b), h).

(** The rest of it: channels, conversion rate, interrupt and clock. *)
Definition start_hardware (e : start_env) (b : board) : option (Z * board) :=
  let a := bd_a2d b in
  let set a tt i c := mkBoard a (bd_threshold b) (bd_fifo_samples b) (bd_samples b) (bd_save b) (bd_overflow b) tt (bd_status b) i c in
  let '(r, _) := selectA2DChannels brd (e_status e) a in
  if negb (r =? 0) then Some (r, b)
  else
    let conv := getConvRateSetting brd a (gainConvSetting a) in
    match dmd_mmat_add_irq_user brd (e_lock1 e) (e_request e) (e_irq e) A2D_USER (bd_irq b) with
    | None => None
    | Some (r, i) =>
        if negb (r =? 0) then Some (r, set (with_running a (running a) conv) (bd_tt b) i (bd_clock b))
        else
          match setupClock12 brd (e_regval e) DMMAT_CNTR1_INPUT_RATE (scanRate a) (bd_clock b) with
          | None => None
          | Some (r, _, c) =>
              if negb (r =? 0)
              then let '(r, i) := dmd_mmat_remove_irq_user (e_lock2 e) A2D_USER i in
                   Some (r, set (with_running a (running a) conv) (bd_tt b) i c)
              else
                match start_screening (nchanScanned a) (scanDeltaT a) (bd_threshold b) (bd_tt b) with
                | None => None
                | Some td => Some (0, set (with_running a true conv) td i c)
                end
          end
    end.

Definition startA2D (e : start_env) (b : board) (h : heap) : option (Z * board * heap) :=
  match start_buffers b h with
  | None => None
  | Some (r, b, h) =>
      if negb (r =? 0) then Some (r, b, h)
      else match start_hardware e b with
           | None => None
           | Some (r, b) => Some (r, b, h)
           end
  end.

(** [stopA2D]; the hardware is stopped, the filters and the buffers are
    freed. *)
Definition stopA2D (e : start_env) (b : board) (h : heap) : board * heap :=
  if negb (running (bd_a2d b)) then (b, h)
  else
    let c := releaseClock12 (bd_clock b) in
    let '(_, i) := dmd_mmat_remove_irq_user (e_lock2 e) A2D_USER (bd_irq b) in
    let '(c1, h) := free_dsm_circ_buf (bd_fifo_samples b) h in
    let '(c2, h) := free_dsm_circ_buf (bd_samples b) h in
    let a := resetA2D_processing (bd_a2d b) in
    (mkBoard (with_running a false (gainConvSetting a)) (bd_threshold b) c1 c2 (bd_save b) (bd_overflow b) (bd_tt b)
       (mkStatus 0 0 0 0) i c, h).

End Start.

(** ** Sizes *)

Lemma buffer_size_spec n : 0 <= n < 2 ^ 30 ->
  n < buffer_size n /\ 4 <= buffer_size n < 2 ^ 31 /\ exists k, 0 <= k /\ buffer_size n = 2 ^ k.
Proof.
  intros Hn. unfold buffer_size, fls. rewrite u32_small by lia. destruct (Z.eqb_spec n 0) as [->|Hz].
  { vm_compute. split; [done|]. split; [done|]. by exists 2. }
  rewrite Z.shiftl_mul_pow2, Z.mul_1_l by (pose proof (Z.log2_nonneg n); lia).
  destruct (Z.log2_spec n ltac:(lia)) as [Hl Hu]. rewrite <- Z.add_1_r in Hu. pose proof (Z.log2_nonneg n).
  assert (Hk : Z.log2 n < 30) by (apply Z.log2_lt_pow2; lia).
  assert (Hb : 2 ^ (Z.log2 n + 1) <= 2 ^ 30) by (apply Z.pow_le_mono_r; lia).
  rewrite s32_small by lia. destruct (Z.ltb_spec (2 ^ (Z.log2 n + 1)) 4).
  - split; [lia|]. split; [lia|]. by exists 2.
  - split; [lia|]. split; [lia|]. exists (Z.log2 n + 1). lia.
Qed.

(** The values of two seconds, in whole fifo samples. *)
Lemma fifo_count_two_seconds a thr : 0 <= thr -> u32 thr <> 0 -> 0 < scanRate a -> 0 < nchanScanned a ->
  2000 * (scanRate a * nchanScanned a) < 2 ^ 32 ->
  2 * (scanRate a * nchanScanned a) / thr <= fifo_count a thr < 2 ^ 30.
Proof.
  intros Ht Hu Hr Hn Hb. unfold fifo_count, MAX_BUFFER_MSECS. rewrite (u32_small (2 * 1000 * scanRate a)) by nia.
  rewrite u32_small by nia. replace (2 * 1000 * scanRate a * nchanScanned a) with (2 * (scanRate a * nchanScanned a) * 1000) by lia.
  rewrite Z.div_mul by lia. pose proof (u32_range thr). assert (0 < u32 thr <= thr).
  { split; [lia|]. apply Z.mod_le; lia. }
  split; [apply Z.div_le_compat_l; nia|]. apply Z.div_lt_upper_bound; nia.
Qed.

(** The outputs of two seconds, or of the time of a fifo sample. *)
Lemma output_count_two_seconds a thr : 0 <= totalOutputRate a ->
  Z.max (fifo_msecs a thr) 2000 * totalOutputRate a < 2 ^ 32 ->
  2 * totalOutputRate a <= output_count a thr < 2 ^ 30 /\
  fifo_msecs a thr * totalOutputRate a / 1000 <= output_count a thr.
Proof.
  intros Hr Hb. unfold output_count, MAX_BUFFER_MSECS. change (2 * 1000) with 2000. rewrite u32_small by nia.
  split; [split|].
  - apply Z.div_le_lower_bound; nia.
  - apply Z.div_lt_upper_bound; lia.
  - apply Z.div_le_mono; nia.
Qed.

(** ** After a call *)

Section Started.
Context `{KM : Kmalloc heap} (PAGE_SIZE : Z) (brd : board_type) (wavesize : Z).

Lemma buffers_keep b h r b' h' : start_buffers PAGE_SIZE brd wavesize b h = Some (r, b', h') ->
  bd_a2d b' = bd_a2d b /\ bd_irq b' = bd_irq b /\ bd_clock b' = bd_clock b /\
  (r = 0 -> bd_threshold b' = getA2DThreshold brd (bd_a2d b) /\ 0 <= bd_threshold b' /\ u32 (bd_threshold b') <> 0 /\ bd_save b' = [] /\
    b_size (bd_fifo_samples b') = buffer_size (fifo_count (bd_a2d b) (bd_threshold b')) /\
    b_size (bd_samples b') = buffer_size (output_count (bd_a2d b) (bd_threshold b'))).
Proof.
  assert (Hsz : forall c d n h r c' h', alloc_dsm_circ_buf PAGE_SIZE c d n h = (r, c', h') -> r = 0 -> b_size c' = n).
  { clear. intros c d n h r c' h' E. unfold alloc_dsm_circ_buf in E. repeat (case_match; simplify_eq; try done). }
  intros E. unfold start_buffers in E. destruct (Z.ltb_spec (getA2DThreshold brd (bd_a2d b)) 0) as [Ht|Hge].
  { injection E as <- <- <-. split_and!; try done. lia. }
  destruct (Z.eqb_spec (u32 (getA2DThreshold brd (bd_a2d b))) 0) as [|Hu]; [done|]. cbn [orb] in E.
  case_match; [done|]. destruct (free_dsm_circ_buf (bd_fifo_samples b) h) as [c1 h1].
  destruct (alloc_dsm_circ_buf PAGE_SIZE c1 _ _ h1) as [[r1 c1'] h2] eqn:E1.
  destruct (Z.eqb_spec r1 0) as [->|Hr]; cbn [negb] in E.
  - destruct (free_dsm_circ_buf (bd_samples b) h2) as [c2 h3]. destruct (alloc_dsm_circ_buf PAGE_SIZE c2 _ _ h3) as [[r2 c2'] h4] eqn:E2.
    injection E as <- <- <-. split_and!; try done. cbn. intros ->. split_and!; try done; by eapply Hsz.
  - injection E as <- <- <-. by split_and!.
Qed.

Lemma select_ok status a : (selectA2DChannels brd status a).1 = 0 ->
  0 <= lowChan a <= highChan a /\ highChan a < getNumA2DChannels brd status.
Proof.
  assert (H : forall n, chans_refused n (lowChan a) (highChan a) = false -> 0 <= lowChan a <= highChan a /\ highChan a < n).
  { intros n. unfold chans_refused. bdestr; cbn; lia || done. }
  destruct brd; cbn; unfold selectA2DChannelsMM16AT, selectA2DChannelsMM32XAT; case_match; try done; intros _; by apply H.
Qed.

Lemma user_added b lock request num s i : dmd_mmat_add_irq_user b lock request num A2D_USER s = Some (0, i) ->
  a2d_users i = a2d_users s + 1 /\ cntr_users i = cntr_users s.
Proof.
  unfold dmd_mmat_add_irq_user. destruct (Z.eqb_spec lock 0); cbn [negb]; [|congruence].
  destruct (irq s =? 0); [|destruct (_ <=? 0); [done|by intros [= _ <-]]].
  destruct (negb _); [done|]. destruct (Z.eqb_spec request 0); cbn [negb]; [by intros [= <-]|congruence].
Qed.

(** The ways in which the second part ends. *)
Lemma hardware_cases e b r b' : running (bd_a2d b) = false -> start_hardware brd e b = Some (r, b') ->
  (running (bd_a2d b') = true /\ r = 0 /\ 0 <= lowChan (bd_a2d b) <= highChan (bd_a2d b) /\
   highChan (bd_a2d b) < getNumA2DChannels brd (e_status e) /\
   a2d_users (bd_irq b') = a2d_users (bd_irq b) + 1 /\ cntr_users (bd_irq b') = cntr_users (bd_irq b) /\
   bd_clock b' = mkC12 DMMAT_CNTR1_INPUT_RATE (scanRate (bd_a2d b)) (userCount (bd_clock b) + 1) /\
   start_screening (nchanScanned (bd_a2d b)) (scanDeltaT (bd_a2d b)) (bd_threshold b) (bd_tt b) = Some (bd_tt b')) \/
  (running (bd_a2d b') = false /\ bd_clock b' = bd_clock b /\
   (r = 0 -> exists r1 ws, r1 <> 0 /\
      setupClock12 brd (e_regval e) DMMAT_CNTR1_INPUT_RATE (scanRate (bd_a2d b)) (bd_clock b) = Some (r1, ws, bd_clock b))).
Proof.
  intros Hrun E. unfold start_hardware in E. destruct (selectA2DChannels brd (e_status e) (bd_a2d b)) as [r0 ws] eqn:Es.
  pose proof (select_ok (e_status e) (bd_a2d b)) as Hsel. rewrite Es in Hsel.
  destruct (Z.eqb_spec r0 0) as [->|]; cbn [negb] in E; [|right; injection E as <- <-; by split_and!].
  destruct (dmd_mmat_add_irq_user _ _ _ _ _ _) as [[r1 i]|] eqn:Ei; [|done].
  destruct (Z.eqb_spec r1 0) as [->|]; cbn [negb] in E; [|right; injection E as <- <-; by split_and!].
  destruct (setupClock12 _ _ _ _ _) as [[[r2 ws2] c]|] eqn:Ec; [|done]. pose proof (setup_cases _ _ _ _ _ _ _ _ Ec) as Hc.
  destruct (Z.eqb_spec r2 0) as [->|Hr2]; cbn [negb] in E.
  - destruct (start_screening _ _ _ _) as [td|] eqn:Et; [|done]. injection E as <- <-. left.
    destruct Hc as [[? _]|(_ & _ & _ & _ & ->)]; [done|]. destruct (Hsel eq_refl) as [? ?].
    by destruct (user_added _ _ _ _ _ _ Ei).
  - destruct Hc as [[_ ->]|[? _]]; [|done]. right.
    destruct (dmd_mmat_remove_irq_user _ _ _) as [r3 i3]. injection E as <- <-. split_and!; try done. intros _. by exists r2, ws2.
Qed.

(** C39: a start of the A2D.  When [startA2D] has left the A2D running, the
    result is 0, the channels of the scan are channels of the board, the
    A2D has become one user of the interrupt and one of the clock, whose
    rate is the scan rate, and nothing is left of an earlier scan.  Each
    buffer, which can hold one sample less than its size, then has room for
    two seconds: [fifo_samples] for the whole fifo samples of the values that
    are scanned in that time, [samples] for the outputs of the configured
    rates, and also for those of the time of a fifo sample.  The products of
    the rates with those times in milliseconds must fit 32 bits.  When the
    A2D is not running, the clock is as it was. *)
Theorem start_a2d_ready e b h r b' h' :
  running (bd_a2d b) = false -> startA2D PAGE_SIZE brd wavesize e b h = Some (r, b', h') ->
  let a := bd_a2d b in
  0 < scanRate a -> 0 < nchanScanned a -> 0 <= totalOutputRate a ->
  2000 * (scanRate a * nchanScanned a) < 2 ^ 32 ->
  Z.max (fifo_msecs a (getA2DThreshold brd a)) 2000 * totalOutputRate a < 2 ^ 32 ->
  if running (bd_a2d b') then
    r = 0 /\ 0 <= lowChan a <= highChan a /\ highChan a < getNumA2DChannels brd (e_status e) /\
    a2d_users (bd_irq b') = a2d_users (bd_irq b) + 1 /\ cntr_users (bd_irq b') = cntr_users (bd_irq b) /\
    bd_clock b' = mkC12 DMMAT_CNTR1_INPUT_RATE (scanRate a) (userCount (bd_clock b) + 1) /\ bd_save b' = [] /\
    2 * (scanRate a * nchanScanned a) / bd_threshold b' <= b_size (bd_fifo_samples b') - 1 /\
    2 * totalOutputRate a <= b_size (bd_samples b') - 1 /\
    fifo_msecs a (bd_threshold b') * totalOutputRate a / 1000 <= b_size (bd_samples b') - 1
  else bd_clock b' = bd_clock b.
Proof.
  intros Hrun E a Hr Hn Ho Hb1 Hb2. unfold startA2D in E.
  destruct (start_buffers PAGE_SIZE brd wavesize b h) as [[[r1 b1] h1]|] eqn:E1; [|done].
  destruct (buffers_keep _ _ _ _ _ E1) as (Ka & Ki & Kc & K0).
  destruct (Z.eqb_spec r1 0) as [->|]; cbn [negb] in E.
  2:{ injection E as <- <- <-. by rewrite Ka, Hrun. }
  destruct (K0 eq_refl) as (Kt & Kp & Ku & Ks & Kf & Ko).
  destruct (start_hardware brd e b1) as [[r2 b2]|] eqn:E2; [|done]. injection E as <- <- <-.
  assert (Hkeep : bd_threshold b2 = bd_threshold b1 /\ bd_save b2 = bd_save b1 /\ bd_fifo_samples b2 = bd_fifo_samples b1 /\
    bd_samples b2 = bd_samples b1).
  { clear - E2. unfold start_hardware in E2. repeat (case_match; try done); by simplify_eq. }
  destruct Hkeep as (-> & -> & -> & ->). rewrite Kt in *.
  apply hardware_cases in E2; [|by rewrite Ka]. rewrite Ka, Ki, Kc in E2.
  destruct E2 as [(-> & -> & H1 & H2 & H3 & H4 & H5 & _)|(-> & H1 & _)]; [|done].
  fold a in Kf, Ko, Kp, Ku, H1, H2, H5 |- *. rewrite Kf, Ko.
  pose proof (fifo_count_two_seconds a _ Kp Ku Hr Hn Hb1) as Hf.
  pose proof (output_count_two_seconds a _ Ho Hb2) as [Hs Hm].
  pose proof (buffer_size_spec (fifo_count a (getA2DThreshold brd a))) as Hsf.
  pose proof (buffer_size_spec (output_count a (getA2DThreshold brd a))) as Hso.
  pose proof (Z.div_pos (2 * (scanRate a * nchanScanned a)) (getA2DThreshold brd a)) as Hpos.
  assert (getA2DThreshold brd a <> 0) by (intros E0; by rewrite E0 in Ku).
  destruct Hsf as [? _]; [nia|]. destruct Hso as [? _]; [lia|]. split_and!; try done; lia.
Qed.

(** Stopping for an auto-calibration forgets the channels, so that the start
    after it fails: the A2D stays stopped. *)
Lemma autocal_leaves_stopped e1 e2 b h r b' h' : running (bd_a2d b) = true ->
  startA2D PAGE_SIZE brd wavesize e2 (stopA2D e1 b h).1 (stopA2D e1 b h).2 = Some (r, b', h') -> running (bd_a2d b') = false.
Proof.
  intros Hrun. unfold stopA2D. rewrite Hrun. cbn [negb]. destruct (dmd_mmat_remove_irq_user _ _ _) as [_ i].
  destruct (free_dsm_circ_buf _ _) as [c1 h1]. destruct (free_dsm_circ_buf _ h1) as [c2 h2]. cbn [fst snd].
  unfold startA2D. intros E. destruct (start_buffers _ _ _ _ _) as [[[r1 b1] h3]|] eqn:E1; [|done].
  destruct (buffers_keep _ _ _ _ _ E1) as (Ka & _). cbn in Ka.
  destruct (negb (r1 =? 0)); [injection E as <- <- <-; by rewrite Ka|].
  destruct (start_hardware brd e2 b1) as [[r2 b2]|] eqn:E2; [|done]. injection E as <- <- <-.
  apply hardware_cases in E2; [|by rewrite Ka]. rewrite Ka in E2. cbn in E2.
  destruct E2 as [(_ & _ & H & _)|(H & _)]; [lia|done].
Qed.

End Started.

(** ** Two channels at 100 scans per second *)

Definition fresh_buf : alloc_buf := mkAlloc None [] 0 0 0 None [] 0.

Definition ready_board (clock : counter12) : board :=
  mkBoard (mkA2D false A2D_NORMAL 100 100 10 10 0 1 1 1 0 2 [] []) 0 fresh_buf fresh_buf [] false
    (mkScreen 0 0 0 0 0 0 0 0 0) (mkStatus 0 0 0 0) (mkIrq 0 0 0) clock.

Definition quiet_env : start_env := mkEnv 0 0 0 0 0 5.

Lemma start_a2d_ready_witness :
  exists b' h', startA2D 4096 DMM32XAT_BOARD 0 quiet_env (ready_board (mkC12 0 0 0)) (99%nat, ∅) = Some (0, b', h') /\
    running (bd_a2d b') = true /\ bd_clock b' = mkC12 10000000 100 1 /\
    2 * (100 * 2) / bd_threshold b' <= b_size (bd_fifo_samples b') - 1 /\ 2 * 10 <= b_size (bd_samples b') - 1.
Proof.
  assert (Hex : exists b' h', startA2D 4096 DMM32XAT_BOARD 0 quiet_env (ready_board (mkC12 0 0 0)) (99%nat, ∅) = Some (0, b', h') /\
    running (bd_a2d b') = true).
  { eexists _, _. split; vm_compute; reflexivity. }
  destruct Hex as (b' & h' & E & Hr). exists b', h'. split; [exact E|]. split; [exact Hr|].
  pose proof (start_a2d_ready 4096 DMM32XAT_BOARD 0 quiet_env (ready_board (mkC12 0 0 0)) _ 0 b' h' eq_refl E) as H. rewrite Hr in H.
  destruct H as (_ & _ & _ & _ & _ & H & _ & H2 & H3 & _).
  1-2: vm_compute; reflexivity.
  - vm_compute. discriminate.
  - vm_compute. reflexivity.
  - vm_compute. reflexivity.
  - split; [exact H|]. split; [exact H2|exact H3].
Defined.

(** When the clock is in use with another rate, the start fails but returns
    what [dmd_mmat_remove_irq_user] returned: 0, and the A2D is not running. *)
Lemma busy_clock_is_success :
  match startA2D 4096 DMM32XAT_BOARD 0 quiet_env (ready_board (mkC12 10000000 50 1)) (99%nat, ∅) with
  | Some (r, b', _) => Some (r, running (bd_a2d b'))
  | None => None
  end = Some (0, false).
Proof. vm_compute. reflexivity. Qed.
