(* ===== verification/DmdWave.v ===== *)
(** * Waveforms of the Diamond DMM boards.

    [dmmat_a2d_waveform_bh] of [src/src/nidas/linux/diamond/dmd_mmat.c]: in
    the waveform mode the scans of the A2D are collected, [wavesize] of them
    in one sample for each channel.  The samples that are being filled are in
    the buffer already but not yet available. *)

From S2P Require Import Prelude DmdA2D.

(** A sample of a wave: its time tag, its id and its values. *)
Record wave_sample := mkWave { wv_timetag : Z; wv_id : Z; wv_data : list Z }.

(** [waveform_bh_data], with the samples that became available and
    [missedSamples]; [wv_started] counts the waves. *)
Record wave_state := mkWaveState {
  waveSampCntr : Z;
  owsamp : option (Z * list (list Z));      (** the time tag and what is filled *)
  wv_out : list wave_sample;
  wv_missed : Z;
  wv_started : nat
}.

Section Waveform.
Context (nchan sdt wavesize : Z) (chans : list Z).

(** [CIRC_SPACE] of the output at the start of each wave. *)
Context (space : nat -> Z).

Definition nwave : Z := zlen chans.

(** The start of a wave, at scan [ndt] of a fifo sample; [BUG_ON] is [None]. *)
Definition wave_start (st : wave_state) (tt ndt : Z) : option wave_state :=
  if space (wv_started st) <? nwave then
    match owsamp st with
    | Some _ => None
    | None => Some (mkWaveState 0 None (wv_out st) (u32 (wv_missed st + nwave)) (S (wv_started st)))
    end
  else
    let tt0 := tt - ndt * sdt in
    Some (mkWaveState 0 (Some (tt0, map (fun _ => []) chans)) (wv_out st) (wv_missed st) (S (wv_started st))).

(** [owsamp[i]->data[wavecntr] = dp[waveformChannels[i]]] for all [i]; [None]
    is a read after the end of the fifo sample. *)
Fixpoint wave_values (cs : list Z) (filled : list (list Z)) (dp : list Z) : option (list (list Z)) :=
  match cs, filled with
  | c :: cs, f :: filled =>
      match dp !! Z.to_nat c, wave_values cs filled dp with
      | Some v, Some more => Some ((f ++ [v]) :: more)
      | _, _ => None
      end
  | _, _ => Some []
  end.

(** The end of a wave. *)
Definition wave_end (st : wave_state) : wave_state :=
  if waveSampCntr st =? wavesize then
    let new := match owsamp st with
               | Some (t, filled) => imap (fun i f => mkWave t (Z.of_nat i) f) filled
               | None => []
               end in
    mkWaveState (waveSampCntr st) None (wv_out st ++ new) (wv_missed st) (wv_started st)
  else st.

(** One scan. *)
Definition wave_scan (st : wave_state) (tt ndt : Z) (dp : list Z) : option wave_state :=
  match (if waveSampCntr st =? wavesize then wave_start st tt ndt else Some st) with
  | None => None
  | Some st =>
      let next ow := Some (wave_end (mkWaveState (waveSampCntr st + 1) ow (wv_out st) (wv_missed st) (wv_started st))) in
      match owsamp st with
      | None => next None
      | Some (t, filled) =>
          match wave_values chans filled dp with
          | None => None
          | Some filled => next (Some (t, filled))
          end
      end
  end.

Fixpoint wave_loop (fuel : nat) (st : wave_state) (tt ndt : Z) (dp : list Z) : option wave_state :=
  match dp, fuel with
  | [], _ => Some st
  | _, O => None
  | _, S fuel =>
      match wave_scan st tt ndt dp with
      | None => None
      | Some st => wave_loop fuel st tt (ndt + 1) (drop (Z.to_nat nchan) dp)
      end
  end.

(** One turn, with what [overflow] was. *)
Definition wave_turn (st : wave_state) (overflow : bool) (insamp : Z * list Z) : option wave_state :=
  let st := if overflow then mkWaveState wavesize (owsamp st) (wv_out st) (wv_missed st) (wv_started st) else st in
  if negb (Z.rem (zlen insamp.2) nchan =? 0) then None
  else wave_loop (length insamp.2) st insamp.1 0 insamp.2.

Fixpoint dmmat_a2d_waveform_bh (st : wave_state) (fifo : list (bool * (Z * list Z))) : option wave_state :=
  match fifo with
  | [] => Some st
  | (overflow, insamp) :: more =>
      match wave_turn st overflow insamp with
      | None => None
      | Some st => dmmat_a2d_waveform_bh st more
      end
  end.

(** ** Cutting into waves *)

(** What a channel has in a scan. *)
Definition chan_value (c : Z) (scan : list Z) : Z := default 0 (scan !! Z.to_nat c).

(** The data of the samples of one wave. *)
Definition wave_data (scans : list (list Z)) : list (list Z) := map (fun c => map (chan_value c) scans) chans.

(** The ids and the data of the samples of all waves. *)
Fixpoint waves_data (j : nat) (waves : list (list (list Z))) : list (Z * list Z) :=
  match waves with
  | [] => []
  | w :: more =>
      (if space j <? nwave then [] else imap (fun i d => (Z.of_nat i, d)) (wave_data w)) ++ waves_data (S j) more
  end.

Definition out_data (out : list wave_sample) : list (Z * list Z) := map (fun s => (wv_id s, wv_data s)) out.

Hypothesis Hnchan : 0 < nchan.
Hypothesis Hsize : 0 < wavesize.
Hypothesis Hchans : Forall (fun c => 0 <= c < nchan) chans.

(** The state after [waves] and the scans [part] of the next one. *)
Record wave_ok (waves : list (list (list Z))) (part : list (list Z)) (st : wave_state) : Prop := {
  wo_waves : Forall (fun w => zlen w = wavesize) waves;
  wo_part : zlen part < wavesize;
  wo_out : out_data (wv_out st) = waves_data 0 waves;
  wo_cntr : waveSampCntr st = if decide (part = []) then wavesize else zlen part;
  wo_started : wv_started st = (length waves + if decide (part = []) then 0 else 1)%nat;
  wo_filled : if decide (part = []) then owsamp st = None
              else if space (length waves) <? nwave then owsamp st = None
              else exists t, owsamp st = Some (t, wave_data part)
}.

Lemma waves_data_app a : forall j b, waves_data j (a ++ b) = waves_data j a ++ waves_data (j + length a) b.
Proof.
  induction a as [|w a IH]; intros j b; cbn [waves_data app length]; [by rewrite Nat.add_0_r|].
  rewrite IH, <- app_assoc. do 3 f_equal. lia.
Qed.

Lemma wave_values_ok scan rest part : zlen scan = nchan ->
  wave_values chans (wave_data part) (scan ++ rest) = Some (wave_data (part ++ [scan])).
Proof.
  intros Hl. unfold wave_data. revert Hchans. clear space. induction chans as [|c cs IH]; intros Hcs; [done|].
  apply Forall_cons in Hcs as [Hc Hcs]. cbn [map wave_values].
  destruct (lookup_lt_is_Some_2 scan (Z.to_nat c)) as [v Hv]; [unfold zlen in Hl; lia|].
  rewrite (lookup_app_l_Some _ _ _ _ Hv), (IH Hcs), map_app. cbn [map]. by assert (chan_value c scan = v) as -> by (unfold chan_value; by rewrite Hv).
Qed.

Lemma out_data_app a b : out_data (a ++ b) = out_data a ++ out_data b.
Proof. apply map_app. Qed.

Lemma out_data_wave t (d : list (list Z)) :
  out_data (imap (fun i f => mkWave t (Z.of_nat i) f) d) = imap (fun i f => (Z.of_nat i, f)) d.
Proof. exact (fmap_imap _ (fun s => (wv_id s, wv_data s)) d). Qed.

(** The wave after one more scan. *)
Definition add_scan (x : list (list (list Z)) * list (list Z)) (scan : list Z) : list (list (list Z)) * list (list Z) :=
  let part := x.2 ++ [scan] in if zlen part =? wavesize then (x.1 ++ [part], []) else (x.1, part).

(** After the scan is stored, and before the end of the wave is seen. *)
Lemma wave_end_ok waves part scan t filled out missed : zlen part < wavesize -> Forall (fun w => zlen w = wavesize) waves ->
  out_data out = waves_data 0 waves ->
  (if space (length waves) <? nwave then filled = None else filled = Some (t, wave_data (part ++ [scan]))) ->
  let x := add_scan (waves, part) scan in
  wave_ok x.1 x.2 (wave_end (mkWaveState (zlen part + 1) filled out missed (S (length waves)))).
Proof.
  intros Hp Hw Ho Hf x. subst x. unfold add_scan, wave_end. cbn [fst snd waveSampCntr owsamp wv_out].
  assert (Hl : zlen (part ++ [scan]) = zlen part + 1) by (by rewrite zlen_app).
  assert (Hne : part ++ [scan] <> []) by (by destruct part).
  rewrite Hl. destruct (Z.eqb_spec (zlen part + 1) wavesize) as [E|E]; cbn [fst snd].
  - split; cbn [waveSampCntr owsamp wv_out wv_missed wv_started]; try done.
    + apply Forall_app. split; [done|]. constructor; [lia|done].
    + rewrite out_data_app, Ho, waves_data_app. cbn [waves_data]. rewrite app_nil_r. cbn [Nat.add]. f_equal.
      destruct (space (length waves) <? nwave); subst filled; [done|]. apply out_data_wave.
    + rewrite length_app. cbn [length]. case_decide; [lia|done].
  - split; cbn [waveSampCntr owsamp wv_out wv_missed wv_started]; try done; [lia|..]; rewrite decide_False by done; [lia|lia|].
    destruct (space (length waves) <? nwave); [done|]. by eexists.
Qed.

Lemma wave_scan_ok waves part st tt ndt scan rest : wave_ok waves part st -> zlen scan = nchan ->
  exists st', wave_scan st tt ndt (scan ++ rest) = Some st' /\
    wave_ok (add_scan (waves, part) scan).1 (add_scan (waves, part) scan).2 st'.
Proof.
  intros [Hw Hp Ho Hc Hst Hf] Hl. unfold wave_scan. destruct (decide (part = [])) as [->|Hne].
  - rewrite Hc, Z.eqb_refl. unfold wave_start. rewrite Nat.add_0_r in Hst. rewrite Hst, Hf.
    destruct (space (length waves) <? nwave) eqn:Hs; cbn [owsamp waveSampCntr wv_out wv_missed wv_started].
    + eexists. split; [done|]. apply (wave_end_ok waves [] scan 0); try done. by rewrite Hs.
    + change (map (fun _ => []) chans) with (wave_data []). rewrite (wave_values_ok scan rest []) by done.
      eexists. split; [done|]. eapply (wave_end_ok waves [] scan); try done. by rewrite Hs.
  - assert (Hpos : 0 < zlen part) by (pose proof (zlen_nonneg part); destruct (Z.eq_dec (zlen part) 0) as [E|]; [by apply zlen_nil_inv in E|lia]).
    rewrite Hc. destruct (Z.eqb_spec (zlen part) wavesize); [lia|].
    destruct (space (length waves) <? nwave) eqn:Hs.
    + rewrite Hf. rewrite Hst, Nat.add_1_r. eexists. split; [done|]. rewrite Hc. apply (wave_end_ok waves part scan 0); try done. by rewrite Hs.
    + destruct Hf as [t Hf]. rewrite Hf, (wave_values_ok scan rest part) by done. rewrite Hst, Nat.add_1_r.
      eexists. split; [done|]. rewrite Hc. eapply (wave_end_ok waves part scan); try done. by rewrite Hs.
Qed.

Lemma wave_loop_ok scans : forall fuel waves part st tt ndt, Forall (fun s => zlen s = nchan) scans ->
  (length (concat scans) <= fuel)%nat -> wave_ok waves part st ->
  let x := fold_left add_scan scans (waves, part) in
  exists st', wave_loop fuel st tt ndt (concat scans) = Some st' /\ wave_ok x.1 x.2 st'.
Proof.
  induction scans as [|s scans IH]; intros fuel waves part st tt ndt Hs Hf Hok.
  { exists st. split; [by destruct fuel|done]. }
  apply Forall_cons in Hs as [Hl Hs]. cbn [concat fold_left] in *. rewrite length_app in Hf.
  destruct s as [|v s]; [change (zlen []) with 0 in Hl; lia|]. destruct fuel as [|fuel]; [cbn in Hf; lia|].
  destruct (wave_scan_ok waves part st tt ndt (v :: s) (concat scans) Hok Hl) as (st1 & E1 & Hok1).
  cbn [app wave_loop]. change (v :: s ++ concat scans) with ((v :: s) ++ concat scans).
  rewrite E1. replace (drop (Z.to_nat nchan) ((v :: s) ++ concat scans)) with (concat scans) by (by rewrite <- Hl, drop_zlen_app).
  destruct (add_scan (waves, part) (v :: s)) as [waves1 part1]. apply IH; [done| |done]. cbn in Hf. lia.
Qed.

Lemma concat_scans_multiple (scans : list (list Z)) : Forall (fun s => zlen s = nchan) scans -> Z.rem (zlen (concat scans)) nchan = 0.
Proof. intros H. rewrite (concat_scans_len _ _ H). apply Z.rem_mul. lia. Qed.

Lemma waveform_ok fifo : forall waves part st, Forall (fun x => Forall (fun s => zlen s = nchan) x.2) fifo -> wave_ok waves part st ->
  let x := fold_left add_scan (concat (map snd fifo)) (waves, part) in
  exists st', dmmat_a2d_waveform_bh st (map (fun f => (false, (f.1, concat f.2))) fifo) = Some st' /\ wave_ok x.1 x.2 st'.
Proof.
  induction fifo as [|[t scans] fifo IH]; intros waves part st Hf Hok; [by exists st|].
  apply Forall_cons in Hf as [Hs Hf]. cbn [map dmmat_a2d_waveform_bh concat fst snd] in *. unfold wave_turn. cbn [fst snd].
  rewrite (concat_scans_multiple _ Hs). cbn [Z.eqb negb].
  destruct (wave_loop_ok scans (length (concat scans)) waves part st t 0 Hs ltac:(lia) Hok) as (st1 & E1 & Hok1).
  rewrite E1, fold_left_app. destruct (fold_left add_scan scans (waves, part)) as [waves1 part1]. by apply IH.
Qed.

(** The scans are those of the waves, in order. *)
Lemma add_scans_concat scans : forall waves part,
  let x := fold_left add_scan scans (waves, part) in concat x.1 ++ x.2 = concat waves ++ part ++ scans.
Proof.
  induction scans as [|s scans IH]; intros waves part; cbn [fold_left]; [by rewrite app_nil_r|].
  unfold add_scan at 2 4. cbn [fst snd]. destruct (zlen (part ++ [s]) =? wavesize); cbn zeta; rewrite IH.
  - rewrite concat_app. cbn. by rewrite app_nil_r, <- !app_assoc.
  - by rewrite <- app_assoc.
Qed.

End Waveform.

(** C40: waves.  From the start of the A2D, when the hardware does not
    overflow, and the scans begin at channel 0, the scans of all fifo samples
    are cut into waves of [wavesize] scans, however the fifo samples divide
    them: for each whole wave there is one sample for each channel, in order,
    with the values of that channel in the scans of the wave; a wave for
    which there was no room at its start is left out, all its channels, and
    the waves after it are not affected. *)
Theorem waveform_cuts nchan sdt wavesize chans space fifo :
  0 < nchan -> 0 < wavesize -> Forall (fun c => 0 <= c < nchan) chans ->
  Forall (fun x => Forall (fun s => zlen s = nchan) x.2) fifo ->
  exists st waves part,
    dmmat_a2d_waveform_bh nchan sdt wavesize chans space (mkWaveState wavesize None [] 0 0)
      (map (fun f => (false, (f.1, concat f.2))) fifo) = Some st /\
    concat waves ++ part = concat (map snd fifo) /\ Forall (fun w => zlen w = wavesize) waves /\ zlen part < wavesize /\
    out_data (wv_out st) = waves_data chans space 0 waves.
Proof.
  intros H1 H2 H3 Hf.
  destruct (waveform_ok nchan sdt wavesize chans space H1 H2 H3 fifo [] [] (mkWaveState wavesize None [] 0 0) Hf) as (st & E & Hok).
  { split; try done; cbn; lia. }
  pose proof (add_scans_concat wavesize (concat (map snd fifo)) [] []) as Hc.
  destruct (fold_left (add_scan wavesize) (concat (map snd fifo)) ([], [])) as [waves part].
  exists st, waves, part. destruct Hok. by split_and!.
Qed.

(** Waves of two scans of three channels; the second wave has no room. *)
Lemma waveform_cuts_witness :
  exists st waves (part : list (list Z)),
    dmmat_a2d_waveform_bh 3 10 2 [0; 2] (fun j => if Nat.eqb j 1 then 1 else 9) (mkWaveState 2 None [] 0 0)
      [(false, (100, [1; 2; 3])); (false, (200, [4; 5; 6; 7; 8; 9; 10; 11; 12; 13; 14; 15; 16; 17; 18]))] = Some st /\
    zlen part < 2 /\ out_data (wv_out st) = waves_data [0; 2] (fun j => if Nat.eqb j 1 then 1 else 9) 0 waves.
Proof.
  destruct (waveform_cuts 3 10 2 [0; 2] (fun j => if Nat.eqb j 1 then 1 else 9)
    [(100, [[1; 2; 3]]); (200, [[4; 5; 6]; [7; 8; 9]; [10; 11; 12]; [13; 14; 15]; [16; 17; 18]])])
    as (st & waves & part & E & _ & _ & Hp & Ho).
  - lia.
  - lia.
  - repeat constructor; lia.
  - repeat constructor.
  - exists st, waves, part. split; [exact E|]. split; [exact Hp|exact Ho].
Defined.

(** The time tag of a wave that starts at scan [k] of a fifo sample is [k]
    intervals before the time of the last scan, where it should be after the
    time of the first one: here there are scans every 10, the last one at the
    time 130; waves of two scans start at 100 and 120, but get the times 130
    and 110. *)
Lemma wave_times_reversed :
  map wv_timetag <$> (wv_out <$>
    dmmat_a2d_waveform_bh 1 10 2 [0] (fun _ => 9) (mkWaveState 2 None [] 0 0) [(false, (130, [1; 2; 3; 4]))])
  = Some [130; 110].
Proof. vm_compute. reflexivity. Qed.

(** The channels are not counted from the lowest one that is scanned, as the
    filters count them: with a scan of the channels 1 and 2, channel 1 gets
    the values of channel 2, and channel 2 what comes after the scan. *)
Lemma wave_channels_not_shifted :
  map wv_data <$> (wv_out <$>
    dmmat_a2d_waveform_bh 2 10 1 [1] (fun _ => 9) (mkWaveState 1 None [] 0 0) [(false, (130, [11; 12; 21; 22]))])
  = Some [[12]; [22]] /\
  dmmat_a2d_waveform_bh 2 10 1 [2] (fun _ => 9) (mkWaveState 1 None [] 0 0) [(false, (130, [11; 12; 21; 22]))] = None.
Proof. split; vm_compute; reflexivity. Qed.
